(* ===== verification/_CoqProject ===== *)
-Q . S2P
Prelude.v
Frame.v
Signal.v
Path.v
Vfs.v
Command.v
Disk.v
Ext4.v
FatFs.v
Pipe.v
File.v
Ext4Rs.v
DevFs.v
ProcFs.v
Memory.v
RamFs.v
MemSet.v
Executor.v
Futex.v
Ipc.v
Heap.v
FdTable.v
Mm.v
Cow.v
Process.v
SysFile.v
SysWf.v
SysCalls.v
SysPoll.v
Packet.v
Net.v
Socket.v
SockCalls.v
SockWf.v
SigFrame.v
Time.v
UserStack.v
Exec.v
ExecLoad.v
FileMap.v
SysInfo.v
Dispatch.v
Devices.v
Virtio.v
Boot.v
PageTables.v
Main.v
InitTests.v
Init.v
