(* ===== verification/Prelude.v ===== *)
(** * MonkeyOS: a verification of the kernel's core

    MonkeyOS is a monolithic Unix-like kernel in Rust, built from small crates: page frames
    and the kernel heap (crates/runtime), an executor that runs every task as a future
    (crates/executor), signals (crates/signal), a virtual file system with its concrete
    file systems (filesystem/), and the kernel proper (kernel/), which gives each process
    an address space, descriptors, signals and threads and serves its system calls.  This
    library models the parts that carry the kernel's own logic, for the riscv64 release
    build, and proves what makes them correct.

    ** Conventions

    Machine words are integers of [Z]; [+u], [-u], [*u] wrap at 64 bits, as unchecked
    arithmetic does in a release build.  [outcome] is the result of code that can panic;
    [result] is the kernel's [SysResult].  Mutation is state passing.  A future is its
    [poll] function.  Locks are not modelled: the kernel runs one core and gives up the
    processor only at an await, so what a call does between two awaits is one step.
    [gmap] and [gset] model maps and sets; byte buffers are lists of [Z].  Code outside the
    repository's own crates appears as parameters (reading an inode, opening the working
    directory, polling a future), and small functions of vendored crates as definitions.

    ** Files

    - Prelude: words, panics, error numbers, loops, lemmas on lists.
    - Frame (crates/runtime/src/frame.rs): the bitmap regions, [FrameAllocator], and the
      class [FrameSource] with its laws, the interface all other memory components use.
    - Signal (crates/signal, tasks/signal.rs, syscall/signal.rs, user/entry.rs): signal
      words, masks, the delivery loop [check_signal], sigaction, sigprocmask, kill.
    - Path (filesystem/fs/src/pathbuf.rs, dentry.rs): path normalisation, the mount table.
    - Vfs (filesystem/vfscore): flags, file types, the record [INode] of the inode trait.
    - Pipe (fs/src/pipe.rs, user/socket_pair.rs): pipe ends, socket pairs, blocking futures.
    - File (fs/src/file.rs): open files, offsets, getdents, over any inode.
    - DevFs, ProcFs (filesystem/devfs, procfs): terminals, devices and text files as inodes.
    - Disk (fs/src/*_shim.rs, driver/kramdisk): block devices as a class with laws, and the
      adapters by which the disk file systems see them.
    - Ext4 (fs/src/ext4_shim.rs): the inodes of the root file system, over the functions of
      the C library lwext4 as a record with laws.
    - FatFs, Ext4Rs (fs/src/fatfs_shim.rs, ext4_rs_shim.rs): the inodes of the two other disk
      file systems, over the libraries fatfs and ext4_rs; neither is part of the build.
    - Command (tasks/initproc.rs): the parser of command lines.
    - Memory: the bytes behind frames and the destructor of [FrameTracker].
    - RamFs (filesystem/ramfs): files in page frames, directories, links.
    - MemSet (tasks/memset.rs): areas of an address space, subtraction, page tables.
    - Executor (crates/executor): run queue, task table, [select], [yield].
    - Futex (tasks/async_ops.rs, sys_futex): wait queues, wake, requeue, waiting futures.
    - Ipc (syscall/shm.rs, tasks/shm.rs): semaphores, message queues, shared segments.
    - Heap (crates/runtime/src/heap.rs): the hybrid kernel allocator.
    - FdTable (tasks/filetable.rs, task.rs, prlimit64): descriptors and their limit.
    - Mm (syscall/mm.rs, task.rs): brk, mmap, munmap, frame allocation of a task.
    - Cow (user/mod.rs, task.rs): the page-fault handler, the memory of fork.
    - Process (task.rs, syscall/task.rs): tasks, threads, clone, exit, wait.
    - SysFile, SysWf, SysCalls, SysPoll (syscall/fd.rs): the file system calls over the
      descriptor tables and the open-file store they share ([SysFile]), their typing
      invariant ([SysWf]), their behaviour ([SysCalls]), and poll, select and epoll
      ([SysPoll]).
    - SigFrame (user/signal.rs, user/mod.rs): entering a user handler, sigreturn, and the
      wrapper [handle_syscall] around it.
    - Time (syscall/time.rs, user/entry.rs): clocks, sleeping, the interval timer,
      sigsuspend, and the main loop of a task.
    - UserStack (tasks/elf.rs, task.rs): the initial stack of a program, written against the
      class [UserMemory].
    - Exec, ExecLoad (tasks/exec.rs, elf.rs, sys_execve): ELF headers, relocation, execve
      with its cache and its linker; [ExecLoad] holds the theorems.
    - FileMap (syscall/mm.rs): the reading of a mapped file through page faults of the kernel.
    - SysInfo (syscall/sys.rs): system information and the identity calls.
    - Dispatch (syscall/mod.rs): the table of system calls, argument casts, return codes.
    - Packet, Net (vendor/lose-net-stack): packet layouts and checksums; the UDP and TCP
      servers, port tables, ARP and the analysis of received packets ([NetServer]).
    - Socket, SockCalls, SockWf (kernel/src/socket.rs, syscall/socket.rs): kernel sockets as
      inodes of the file systems' world, the socket calls, what they do ([SockCalls]) and
      the invariant they keep ([SockWf], on top of [SysWf] and [Net]).
    - Devices (crates/sync, crates/devices, driver/): the set of devices, the discovery in
      the device tree, interrupt registration, the interrupt controller (class [PlicLaws]),
      the serial line and the clock.
    - Virtio (driver/kvirtio): memory that devices share, transfers, PCI base addresses.
    - Boot (kernel/src/main.rs, polyhal's mem.rs): memory regions at boot, page-table pages
      and the kernel trap handler.
    - PageTables (polyhal's pagetable/): the page tables in memory, which refine the finite
      maps that MemSet and its clients use.
    - Main (kernel/src/main.rs, fs/src/lib.rs): [main] as the composition of Boot, Devices,
      the mounts and directories, and the start of the executor.
    - InitTests, Init (kernel/src/tasks/initproc.rs): the tables of test programs, and the
      first task: starting a program, waiting for it, the script of the riscv64 build.

    ** What the theorems show

    - Memory: owned and free frames partition the managed frames under any sequence of
      allocations and drops; [alloc_much] is a first-fit search; the reported free count is
      exact; large heap blocks own their frames alone and give them back; brk maps exactly
      as many pages as there are free frames; mmap places mappings at unused addresses and
      munmap undoes it; subtracting a range from an address space removes exactly its
      addresses; fork and page faults refine private memories (copy-on-write is invisible);
      page tables in memory refine finite maps and give back the frames they took; a mapped
      file shows its bytes.
    - Files: RAM files refine byte sequences under read, write and truncate; any sequence of
      reads of an open file delivers consecutive bytes; a directory listing terminates and
      is complete; paths stay normalised and print/parse to themselves; mounts resolve to
      the latest one and can be undone; descriptor numbers are the lowest free ones; ext4
      files read and write as byte sequences, up to a write behind the end; names are cleaned
      as a reference definition says; terminals lose no character; proc files read as their
      texts; the disk cursor of fatfs is a flat file.
    - Communication: pipes are lossless queues and blocked readers wake; message queues keep
      their byte counts and select the right message; futex wake-ups go to the oldest
      waiters; pending signals are a set, delivered in order, each as often as posted.
    - Control: the executor is fair; exit and wait4 fit together and free the memory; a
      task's main loop yields after at most fifty system calls; a signal handler returns to
      the interrupted registers and mask; an alarm fires once, and not before it is due.
    - Programs: execve of a static program puts its segments, stack, auxiliary vector, entry
      point and break where the ELF file says; a failed execve has destroyed its caller.
    - System calls: every call number leads to at most one handler with arguments in the
      range of their types; descriptors stay well typed under all file calls; pipe, dup,
      readv, sendfile and select do what their names promise on every branch.
    - Network: a connection inside the machine is a byte stream in each direction, [connect]
      and [accept] set it up, datagrams survive the wire, port tables stay sound, and a
      socket is dropped exactly when nothing refers to it.
    - Machine: after boot the allocator manages exactly the memory of the device tree outside
      the kernel, the device tree and the firmware; every device found has its interrupts
      enabled; assigned PCI addresses are aligned and disjoint.
    - Start: [main] reaches the executor with exactly the memory, devices and mounts of the
      machine and one task; that task runs the programs of its script in order, one at a time, and
      reaches the end of the script if every program it waits for ends.
    - Defects: several theorems describe, on all inputs of a class, behaviour that departs
      from the intent (for example [area_split_dangles], [futex_timeout_loses_wakeup],
      [main_thread_exits_first], [messages_lost]).

    ** Fuel

    Loops over a finite list are folds.  The others carry fuel, each with a theorem that the
    given amount is enough: [path_deal_with] gets one more than the length of the name, the
    transfers of a disk cursor the number of bytes, the filling of a gap in a FAT file one turn
    for each sector that is left, the copy loops of RAM files get one unit more than the bytes to
    move (every turn moves at least one), the segmented frame allocation one more than the
    pages asked for (every turn takes at least one), the cutting of a memory region three
    (two cuts and a leaf), the assignment of PCI addresses the six registers, and [check_signal] the number of
    pending signals plus queued real-time signals plus one.

    ** Not modelled

    Logging, locks, the assembly entry and the panic handler; the inside of the libraries
    behind the disk file systems and of virtio-drivers; the script of the loongarch64 build
    (not built).  [map_kernel] of the page tables is left
    out, and the components other than PageTables use the finite map in which an unmapped
    address has no translation, as the documentation of [translate] has it ([translate_unmapped]
    in PageTables shows where the code differs); the frames of the tables themselves are
    counted in PageTables alone. *)

From Stdlib Require Export ZArith Lia.
From stdpp Require Export base tactics gmap sets strings option numbers list.
Export list_basics.list list_relations.list list_monad.list list_misc.list list_numbers.list list_tactics.list.

#[export] Set Warnings "-clear-no-such-hyp".

Open Scope Z_scope.

(** ** Machine integers

    The kernel is built in release mode for 64-bit targets: [usize], [u64] and
    [isize] are 64 bits wide and arithmetic wraps around silently. *)

Definition USIZE : Z := 18446744073709551616.
Definition usize_max : Z := 18446744073709551615.

Definition wrap (z : Z) : Z := z mod USIZE.

Definition is_usize (z : Z) : Prop := 0 <= z < USIZE.

#[export] Instance is_usize_dec z : Decision (is_usize z).
Proof. unfold is_usize. apply _. Defined.

(** The two's complement reading of a 64-bit word, [x as isize]. *)
Definition as_isize (z : Z) : Z :=
  if decide (wrap z < 9223372036854775808) then wrap z else wrap z - USIZE.

Declare Scope usize_scope.
Delimit Scope usize_scope with usize.

Notation "a +u b" := (wrap (a + b)) (at level 50, left associativity) : usize_scope.
Notation "a -u b" := (wrap (a - b)) (at level 50, left associativity) : usize_scope.
Notation "a *u b" := (wrap (a * b)) (at level 40, left associativity) : usize_scope.
Open Scope usize_scope.

(** [usize::div_ceil]. *)
Definition div_ceil (a b : Z) : Z :=
  if decide (0 < a mod b) then a / b + 1 else a / b.

(** ** Panics and error results

    A Rust function that can panic returns an [outcome]; one that returns a
    [Result] returns a [result].  Both are monads for stdpp's bind notation. *)

Inductive outcome (A : Type) : Type :=
  | Ret (a : A)
  | Panic.
Arguments Ret {A} a.
Arguments Panic {A}.

#[export] Instance outcome_ret : MRet outcome := @Ret.
#[export] Instance outcome_bind : MBind outcome := λ A B f m,
  match m with Ret a => f a | Panic => Panic end.
#[export] Instance outcome_fmap : FMap outcome := λ A B f m,
  match m with Ret a => Ret (f a) | Panic => Panic end.

(** The error numbers of the [syscalls] crate that the kernel returns.  The crate defines
    [EWOULDBLOCK] as another name of [EAGAIN]. *)
Inductive Errno : Set :=
  | EPERM | ENOENT | ESRCH | EINTR | E2BIG | EBADF | ECHILD | EAGAIN | ENOMEM | EFAULT | EEXIST
  | ENOTDIR | EINVAL | ENFILE | EMFILE | ENOTTY | ENOSYS | ENOMSG | EAFNOSUPPORT | ETIMEDOUT
  | EALREADY.
Abbreviation EWOULDBLOCK := EAGAIN (only parsing).

#[export] Instance Errno_eq_dec : EqDecision Errno.
Proof. solve_decision. Defined.

Inductive result (A : Type) : Type :=
  | Ok (a : A)
  | Err (e : Errno).
Arguments Ok {A} a.
Arguments Err {A} e.

#[export] Instance result_ret : MRet result := @Ok.
#[export] Instance result_bind : MBind result := λ A B f m,
  match m with Ok a => f a | Err e => Err e end.
#[export] Instance result_fmap : FMap result := λ A B f m,
  match m with Ok a => Ok (f a) | Err e => Err e end.

(** [Option::ok_or]. *)
Definition ok_or {A} (o : option A) (e : Errno) : result A :=
  match o with Some a => Ok a | None => Err e end.

(** [Option::unwrap], [expect], and slice indexing. *)
Definition unwrap {A} (o : option A) : outcome A :=
  match o with Some a => Ret a | None => Panic end.

(** A [for] loop over a list whose body may panic. *)
Fixpoint foldM {A B} (f : B → A → outcome B) (l : list A) (b : B) : outcome B :=
  match l with
  | [] => Ret b
  | x :: l => match f b x with Ret b' => foldM f l b' | Panic => Panic end
  end.

(** ** Automation *)

Create HintDb kernel.
#[export] Hint Unfold is_usize : kernel.

(** Decides the tests of a goal or hypothesis that are [decide]s. *)
Ltac decide_all := repeat (case_decide; simplify_eq; try lia).

(** Steps through the binds whose first computation has returned. *)
Ltac step_ret := repeat (progress (change (Ret ?a ≫= ?g) with (g a)); cbn beta iota).

(** ** Arithmetic *)

Lemma wrap_small z : is_usize z → wrap z = z.
Proof. intros. by apply Z.mod_small. Qed.

(** Removes every [wrap] whose argument [lia] can bound. *)
Ltac unwrap_u :=
  repeat match goal with
  | |- context [wrap ?e] => rewrite (wrap_small e) by (unfold is_usize, USIZE in *; lia)
  | H : context [wrap ?e] |- _ => rewrite (wrap_small e) in H by (unfold is_usize, USIZE in *; lia)
  end.

Lemma wrap_range z : is_usize (wrap z).
Proof. apply Z.mod_pos_bound. done. Qed.
#[export] Hint Resolve wrap_range : kernel.

Lemma wrap_idemp z : wrap (wrap z) = wrap z.
Proof. apply wrap_small, wrap_range. Qed.

Lemma div_ceil_spec a b : 0 ≤ a → 0 < b → div_ceil a b = (a + b - 1) / b.
Proof.
  intros Ha Hb. unfold div_ceil. pose proof (Z.div_mod a b). pose proof (Z.mod_pos_bound a b).
  case_decide.
  - apply (Z.div_unique _ _ _ (a mod b - 1)); lia.
  - apply (Z.div_unique _ _ _ (b - 1)); lia.
Qed.

(** [div_ceil a b] is the least multiple count that reaches [a]. *)
Lemma div_ceil_bounds a b : 0 ≤ a → 0 < b →
  (div_ceil a b - 1) * b < a ≤ div_ceil a b * b ∨ (a = 0 ∧ div_ceil a b = 0).
Proof.
  intros Ha Hb. unfold div_ceil. pose proof (Z.div_mod a b). pose proof (Z.mod_pos_bound a b).
  case_decide; [left; lia|].
  destruct (decide (a = 0)) as [->|]; [right; rewrite Z.div_0_l by lia; lia|left; lia].
Qed.

Lemma div_ceil_nonneg a b : 0 ≤ a → 0 < b → 0 ≤ div_ceil a b.
Proof. intros. rewrite div_ceil_spec by done. apply Z.div_pos; lia. Qed.

Lemma div_ceil_ge a b : 0 ≤ a → 0 < b → a ≤ div_ceil a b * b.
Proof. intros. destruct (div_ceil_bounds a b) as [?|[-> ->]]; lia. Qed.

(** ** Lists *)

(** Induction that looks two elements ahead. *)
Lemma list_pair_ind {A} (P : list A → Prop) : P [] → (∀ a, P [a]) → (∀ a b l, P l → P (b :: l) → P (a :: b :: l)) → ∀ l, P l.
Proof. intros H0 H1 H2 l. assert (P l ∧ ∀ a, P (a :: l)) as [? _]; [|done]. induction l as [|b l [IH IH']]; [auto|]. split; [auto|]. intros a. auto. Qed.

Section find.
Context {A : Type} (f : A → bool).

Lemma find_Some_split l x : List.find f l = Some x →
  ∃ l1 l2, l = l1 ++ x :: l2 ∧ f x = true ∧ Forall (λ y, f y = false) l1.
Proof.
  induction l as [|y l IH]; simpl; [done|]. destruct (f y) eqn:E.
  - intros [= ->]. by exists [], l.
  - intros (l1 & l2 & -> & ? & ?)%IH. exists (y :: l1), l2. by repeat constructor.
Qed.

Lemma find_None_Forall l : List.find f l = None ↔ Forall (λ y, f y = false) l.
Proof.
  induction l as [|y l IH]; simpl; [by split|].
  destruct (f y) eqn:E; rewrite Forall_cons; naive_solver congruence.
Qed.
End find.

Lemma find_app {A} (f : A → bool) l1 l2 :
  List.find f (l1 ++ l2) = match List.find f l1 with Some x => Some x | None => List.find f l2 end.
Proof. induction l1 as [|x l1 IH]; cbn; [done|]. by destruct (f x). Qed.

Lemma foldM_app {A B} (f : B → A → outcome B) l1 l2 b :
  foldM f (l1 ++ l2) b = (foldM f l1 b ≫= foldM f l2).
Proof. revert b. induction l1 as [|x l1 IH]; intros b; simpl; [done|]. by destruct (f b x). Qed.

(** The invariant rule of a [for] loop. *)
Lemma foldM_inv {A B} (f : B → A → outcome B) (I : B → Prop) l b :
  I b → (∀ x b, x ∈ l → I b → ∃ b', f b x = Ret b' ∧ I b') →
  ∃ b', foldM f l b = Ret b' ∧ I b'.
Proof.
  revert b. induction l as [|x l IH]; intros b Hb Hstep; simpl; [eauto|].
  destruct (Hstep x b) as (b' & -> & Hb'); [by left|done|].
  apply IH; [done|]. intros y c ??. apply Hstep; [by right|done].
Qed.

(** An early-return [for i in a..b] loop returns the first hit. *)
Lemma find_seq_Some f n m i : List.find f (seq n m) = Some i →
  (n ≤ i < n + m)%nat ∧ f i = true ∧ ∀ j, (n ≤ j < i)%nat → f j = false.
Proof.
  revert n. induction m as [|m IH]; intros n; simpl; [done|]. destruct (f n) eqn:E.
  - intros [= ->]. split_and!; try done; lia.
  - intros (? & ? & Hlow)%IH. split_and!; try done; [lia..|]. intros j Hj.
    destruct (decide (j = n)) as [->|]; [done|]. apply Hlow. lia.
Qed.

Lemma find_seqZ_Some f n m i : List.find f (seqZ n m) = Some i →
  n ≤ i < n + m ∧ f i = true ∧ ∀ j, n ≤ j < i → f j = false.
Proof.
  destruct (decide (0 ≤ m)); [|by rewrite seqZ_nil by lia].
  revert n. pattern m. apply natlike_ind; [done| |done]. intros k Hk IH n.
  rewrite seqZ_cons by lia. simpl. replace (Z.pred (Z.succ k)) with k by lia. destruct (f n) eqn:E.
  - intros [= ->]. split_and!; try done; lia.
  - intros (? & ? & Hlow)%IH. split_and!; try done; [lia..|]. intros j Hj.
    destruct (decide (j = n)) as [->|]; [done|]. apply Hlow. lia.
Qed.

Lemma find_seqZ_None f n m : List.find f (seqZ n m) = None ↔ ∀ i, n ≤ i < n + m → f i = false.
Proof.
  rewrite find_None_Forall, Forall_forall. by setoid_rewrite elem_of_seqZ.
Qed.

Lemma foldl_count_false {A} (f : A → bool) l sum :
  foldl (λ sum i, sum + (if f i then 0 else 1)) sum l =
  sum + Z.of_nat (length (filter (λ i, f i = false) l)).
Proof.
  revert sum. induction l as [|x l IH]; intros sum; [simpl; lia|]. rewrite filter_cons. cbn [foldl]. rewrite IH.
  destruct (f x); case_decide; try done; simpl length; lia.
Qed.

Lemma list_filter_ext {A} (P Q : A → Prop) `{!∀ x, Decision (P x), !∀ x, Decision (Q x)} (l : list A) :
  (∀ x, x ∈ l → P x ↔ Q x) → filter P l = filter Q l.
Proof.
  induction l as [|x l IH]; intros Hl; [done|]. rewrite !filter_cons.
  rewrite IH by (intros; apply Hl; by right).
  pose proof (Hl x ltac:(by left)). do 2 case_decide; naive_solver.
Qed.

Lemma list_filter_none {A} (P : A → Prop) `{!∀ x, Decision (P x)} (l : list A) :
  filter P l = [] ↔ Forall (λ x, ¬ P x) l.
Proof.
  induction l as [|x l IH]; [by split|]. rewrite filter_cons, Forall_cons.
  case_decide; naive_solver.
Qed.

Lemma list_filter_fmap {A B} (f : A → B) (P : B → Prop) `{!∀ x, Decision (P x)} (l : list A) :
  filter P (f <$> l) = f <$> filter (λ x, P (f x)) l.
Proof.
  induction l as [|x l IH]; [done|]. cbn [fmap list_fmap]. rewrite !filter_cons.
  change (list_fmap A B f l) with (f <$> l). rewrite IH. by case_decide.
Qed.

(** Dropping as many elements as a prefix of length at most [n] has. *)
Lemma drop_length_take {A} n (l : list A) : drop (length (take n l)) l = drop n l.
Proof.
  rewrite length_take. destruct (decide (n ≤ length l)%nat); [by rewrite Nat.min_l|].
  by rewrite !drop_ge by lia.
Qed.

Lemma list_filter_all {A} (P : A → Prop) `{!∀ x, Decision (P x)} (l : list A) :
  (∀ x, x ∈ l → P x) → filter P l = l.
Proof.
  induction l as [|x l IH]; intros Hl; [done|]. rewrite filter_cons, decide_True by (apply Hl; by left).
  rewrite IH; [done|]. intros y Hy. apply Hl. by right.
Qed.

Lemma seqZ_snoc k : 0 ≤ k → seqZ 0 (k + 1) = seqZ 0 k ++ [k].
Proof. intros Hk. rewrite seqZ_app by lia. by rewrite Z.add_0_l. Qed.

(** ** Bytes *)

Definition str_bytes (s : string) : list Z :=
  map (λ a, Z.of_N (Ascii.N_of_ascii a)) (String.list_ascii_of_string s).

(** The [n] low bytes of [z], least significant first, and back. *)
Fixpoint le_bytes (n : nat) (z : Z) : list Z :=
  match n with O => [] | S n => z mod 256 :: le_bytes n (z / 256) end.

Fixpoint le_value (l : list Z) : Z := match l with [] => 0 | b :: l => b + 256 * le_value l end.

Lemma length_le_bytes n z : length (le_bytes n z) = n.
Proof. revert z. induction n as [|n IH]; intros z; [done|]. cbn. by rewrite IH. Qed.

Lemma le_value_bytes n z : 0 ≤ z < 256 ^ Z.of_nat n → le_value (le_bytes n z) = z.
Proof.
  revert z. induction n as [|n IH]; intros z Hz; [cbn in *; lia|]. cbn [le_bytes le_value].
  rewrite Nat2Z.inj_succ, Z.pow_succ_r in Hz by lia. rewrite IH.
  - pose proof (Z.div_mod z 256). lia.
  - split; [apply Z.div_pos; lia|]. apply Z.div_lt_upper_bound; lia.
Qed.

(** The memory of the running process, as a function from addresses to bytes. *)
Definition UserMem : Type := Z → Z.

Definition user_write (m : UserMem) (a : Z) (data : list Z) : UserMem := λ x,
  if decide (a ≤ x < a + Z.of_nat (length data)) then data !!! Z.to_nat (x - a) else m x.

Definition user_read (m : UserMem) (a : Z) (n : nat) : list Z := (λ i, m (a + Z.of_nat i)) <$> seq 0 n.

Lemma length_user_read m a n : length (user_read m a n) = n.
Proof. unfold user_read. by rewrite length_fmap, length_seq. Qed.

(** What is written is read back, and nothing else changes. *)
Lemma user_read_write m a data : user_read (user_write m a data) a (length data) = data.
Proof.
  apply list_eq_same_length with (length data); [by rewrite ?length_user_read..|]. intros i x y Hi Hx Hy.
  unfold user_read in Hx. rewrite list_lookup_fmap, lookup_seq_lt in Hx by done. injection Hx as <-.
  unfold user_write. rewrite decide_True by lia. replace (Z.to_nat (a + Z.of_nat i - a)) with i by lia.
  by apply list_lookup_total_correct.
Qed.

Lemma user_read_write_ne m a b n data : b + Z.of_nat n ≤ a ∨ a + Z.of_nat (length data) ≤ b →
  user_read (user_write m a data) b n = user_read m b n.
Proof.
  intros Hd. unfold user_read. apply list_fmap_ext. intros i x [-> Hi]%lookup_seq. unfold user_write. rewrite decide_False; [done|lia].
Qed.
