(* ===== verification/Frame.v ===== *)
(** * The physical frame allocator

    Models crates/runtime/src/frame.rs: a region of page frames is a bitmap
    [FrameRegionMap] (one bit per frame, [true] = in use) and the global
    [FrameAllocator] is a vector of regions.  The second half proves that the
    bitmap implements the abstract allocator whose state is the finite set of
    free frame addresses, and that no frame is ever owned twice. *)

From S2P Require Import Prelude.

Definition PAGE_SIZE : Z := 4096.

Definition alignup (a b : Z) : Z := div_ceil a b *u b.
Definition aligndown (a b : Z) : Z := a / b *u b.

(** ** Bit arrays over 64-bit words, as the [bit_field] crate indexes them *)

Definition word_set_bit (w i : Z) (b : bool) : Z := if b then Z.setbit w i else Z.clearbit w i.

Definition bits_get_bit (bits : list Z) (i : Z) : outcome bool :=
  match bits !! Z.to_nat (i / 64) with
  | Some w => Ret (Z.testbit w (i mod 64))
  | None => Panic
  end.

Definition bits_set_bit (bits : list Z) (i : Z) (b : bool) : outcome (list Z) :=
  match bits !! Z.to_nat (i / 64) with
  | Some w => Ret (<[Z.to_nat (i / 64) := word_set_bit w (i mod 64) b]> bits)
  | None => Panic
  end.

(** ** [FrameRegionMap] *)

Record FrameRegionMap := mkRegion {
  bits : list Z;
  paddr : Z;
  paddr_end : Z;
}.

Definition set_bits (r : FrameRegionMap) (bs : list Z) : FrameRegionMap :=
  mkRegion bs (paddr r) (paddr_end r).

Definition FrameRegionMap_new (start_addr end_addr : Z) : outcome FrameRegionMap :=
  let n := (end_addr -u start_addr) / PAGE_SIZE in
  let bs := replicate (Z.to_nat (div_ceil n 64)) 0 in
  let len := Z.of_nat (length bs) in
  bs ← foldM (λ bs i, bits_set_bit bs i true) (seqZ n (len * 64 - n)) bs;
  Ret (mkRegion bs start_addr end_addr).

Definition word_free_count (sum x : Z) : Z :=
  if decide (x = 0) then sum + 64
  else foldl (λ sum i, sum + (if Z.testbit x i then 0 else 1)) sum (seqZ 0 64).

Definition FrameRegionMap_get_free_page_count (r : FrameRegionMap) : Z :=
  foldl word_free_count 0 (bits r).

Definition alloc_in_pos (r : FrameRegionMap) (index : nat) : outcome (option Z * FrameRegionMap) :=
  match bits r !! index with
  | None => Panic
  | Some w =>
      match List.find (λ i, negb (Z.testbit w i)) (seqZ 0 64) with
      | Some bit_index =>
          Ret (Some (paddr r +u ((Z.of_nat index * 64 + bit_index) *u PAGE_SIZE)),
               set_bits r (<[index := word_set_bit w bit_index true]> (bits r)))
      | None => Ret (None, r)
      end
  end.

Definition word_not_full (bs : list Z) (i : nat) : bool :=
  match bs !! i with Some w => bool_decide (w ≠ usize_max) | None => false end.

Definition FrameRegionMap_alloc (r : FrameRegionMap) : outcome (option Z * FrameRegionMap) :=
  match List.find (word_not_full (bits r)) (seq 0 (length (bits r))) with
  | Some i => alloc_in_pos r i
  | None => Ret (None, r)
  end.

(** The sliding window of [alloc_much]: the start of the first run of [pages]
    free frames, scanning the indices [idx] with the run
    [consecutive_start .. consecutive_start + consecutive_count] in hand. *)
Fixpoint alloc_much_scan (bs : list Z) (pages : Z) (idx : list Z)
    (consecutive_start consecutive_count : Z) : outcome (option Z) :=
  match idx with
  | [] => Ret None
  | i :: idx =>
      b ← bits_get_bit bs i;
      if (b : bool) then alloc_much_scan bs pages idx (i + 1) 0
      else
        let consecutive_count := consecutive_count + 1 in
        if decide (pages ≤ consecutive_count) then Ret (Some consecutive_start)
        else alloc_much_scan bs pages idx consecutive_start consecutive_count
  end.

Definition FrameRegionMap_alloc_much (r : FrameRegionMap) (pages : Z)
    : outcome (option (list Z) * FrameRegionMap) :=
  let start_ppn := paddr r / PAGE_SIZE in
  let end_ppn := paddr_end r / PAGE_SIZE in
  let total_pages := end_ppn -u start_ppn in
  if decide (total_pages < pages) then Ret (None, r)
  else if decide (FrameRegionMap_get_free_page_count r < pages) then Ret (None, r)
  else
    found ← alloc_much_scan (bits r) pages (seqZ 0 total_pages) 0 0;
    match found with
    | Some consecutive_start =>
        let xs := seqZ consecutive_start pages in
        bs ← foldM (λ bs x, bits_set_bit bs x true) xs (bits r);
        Ret (Some ((λ x, (start_ppn + x) *u PAGE_SIZE) <$> xs), set_bits r bs)
    | None => Ret (None, r)
    end.

Definition FrameRegionMap_dealloc (r : FrameRegionMap) (p : Z) : outcome FrameRegionMap :=
  let ppn := p / PAGE_SIZE in
  let start_ppn := paddr r / PAGE_SIZE in
  bs ← bits_set_bit (bits r) (ppn -u start_ppn) false;
  Ret (set_bits r bs).

(** ** [FrameAllocator] *)

Definition FrameAllocator : Type := list FrameRegionMap.

Definition FrameAllocator_new : FrameAllocator := [].

Definition add_memory_region (fa : FrameAllocator) (start end_ : Z) : outcome FrameAllocator :=
  r ← FrameRegionMap_new start end_; Ret (fa ++ [r]).

Definition FrameAllocator_get_free_page_count (fa : FrameAllocator) : Z :=
  foldl (λ sum r, sum + FrameRegionMap_get_free_page_count r) 0 fa.

Fixpoint FrameAllocator_alloc (fa : FrameAllocator) : outcome (option Z * FrameAllocator) :=
  match fa with
  | [] => Ret (None, [])
  | frm :: fa =>
      '(p, frm) ← FrameRegionMap_alloc frm;
      match p with
      | Some p => Ret (Some p, frm :: fa)
      | None => '(p, fa) ← FrameAllocator_alloc fa; Ret (p, frm :: fa)
      end
  end.

Fixpoint FrameAllocator_alloc_much (fa : FrameAllocator) (pages : Z)
    : outcome (option (list Z) * FrameAllocator) :=
  match fa with
  | [] => Ret (None, [])
  | frm :: fa =>
      '(frame, frm) ← FrameRegionMap_alloc_much frm pages;
      match frame with
      | Some frame => Ret (Some frame, frm :: fa)
      | None => '(frame, fa) ← FrameAllocator_alloc_much fa pages; Ret (frame, frm :: fa)
      end
  end.

Fixpoint FrameAllocator_dealloc (fa : FrameAllocator) (p : Z) : outcome FrameAllocator :=
  match fa with
  | [] => Ret []
  | frm :: fa =>
      if decide (paddr frm ≤ p ∧ p < paddr_end frm) then
        frm ← FrameRegionMap_dealloc frm p; Ret (frm :: fa)
      else fa ← FrameAllocator_dealloc fa p; Ret (frm :: fa)
  end.

(** [add_frame_map]; [VIRT_ADDR_START] is polyhal's direct-map base. *)
Definition add_frame_map (VIRT_ADDR_START : Z) (fa : FrameAllocator) (mm_start mm_end : Z)
    : outcome FrameAllocator :=
  let mm_start := alignup mm_start PAGE_SIZE in
  let mm_end := aligndown mm_end PAGE_SIZE in
  add_memory_region fa (Z.ldiff mm_start VIRT_ADDR_START) (Z.ldiff mm_end VIRT_ADDR_START).

(** [init] only asserts that a region was registered. *)
Definition frame_init (fa : FrameAllocator) : outcome unit :=
  if decide (0 < length fa)%nat then Ret () else Panic.

Example new_one_page : FrameRegionMap_new 8192 20480 = Ret (mkRegion [18446744073709551608] 8192 20480).
Proof. reflexivity. Qed.
Example alloc_two :
  (FrameRegionMap_new 8192 20480 ≫= λ r, FrameRegionMap_alloc_much r 2) =
  Ret (Some [8192; 12288], mkRegion [18446744073709551611] 8192 20480).
Proof. reflexivity. Qed.

(** ** Bit-level lemmas *)

(** The bit of frame [i]; indices past the array read as used. *)
Definition bit (bs : list Z) (i : Z) : bool :=
  match bs !! Z.to_nat (i / 64) with Some w => Z.testbit w (i mod 64) | None => true end.

Definition nbits (bs : list Z) : Z := Z.of_nat (length bs) * 64.

Definition words_ok (bs : list Z) : Prop := Forall (λ w, 0 ≤ w < USIZE) bs.

Lemma index_lookup {A} (bs : list A) i :
  0 ≤ i < Z.of_nat (length bs) * 64 → ∃ w, bs !! Z.to_nat (i / 64) = Some w.
Proof.
  intros Hi. apply lookup_lt_is_Some. pose proof (Z.div_pos i 64).
  pose proof (Z.div_lt_upper_bound i 64 (Z.of_nat (length bs))). lia.
Qed.

Lemma bits_get_bit_in bs i : 0 ≤ i < nbits bs → bits_get_bit bs i = Ret (bit bs i).
Proof.
  intros Hi. unfold bits_get_bit, bit. by destruct (index_lookup bs i Hi) as [w ->].
Qed.

Lemma word_set_bit_testbit w i b j : 0 ≤ i → 0 ≤ j →
  Z.testbit (word_set_bit w i b) j = if decide (i = j) then b else Z.testbit w j.
Proof.
  intros Hi Hj. unfold word_set_bit. destruct b; case_decide; subst.
  - by apply Z.setbit_eq.
  - by apply Z.setbit_neq.
  - by apply Z.clearbit_eq.
  - by apply Z.clearbit_neq.
Qed.

(** A 64-bit word is one whose bits from 64 on are clear. *)
Lemma word_range_bits w : 0 ≤ w < USIZE ↔ ∀ i, 64 ≤ i → Z.testbit w i = false.
Proof.
  change USIZE with (2 ^ 64). split.
  - intros Hw i Hi. destruct (decide (w = 0)) as [->|]; [apply Z.testbit_0_l|].
    apply Z.bits_above_log2; [lia|]. apply Z.log2_lt_pow2; [lia|].
    eapply Z.lt_le_trans; [apply Hw|]. apply Z.pow_le_mono_r; lia.
  - intros Hb. assert (w = w mod 2 ^ 64) as ->; [|apply Z.mod_pos_bound; lia].
    apply Z.bits_inj'. intros n Hn. destruct (decide (n < 64)).
    + by rewrite Z.mod_pow2_bits_low.
    + rewrite Z.mod_pow2_bits_high by lia. apply Hb; lia.
Qed.

Lemma word_set_bit_range w i b : 0 ≤ i < 64 → 0 ≤ w < USIZE → 0 ≤ word_set_bit w i b < USIZE.
Proof.
  intros Hi Hw. apply word_range_bits. intros j Hj. rewrite word_set_bit_testbit by lia.
  rewrite decide_False by lia. by apply (proj1 (word_range_bits w) Hw).
Qed.

(** A word differs from [usize::MAX] iff one of its 64 bits is clear. *)
Lemma word_full_iff w : 0 ≤ w < USIZE → w = usize_max ↔ ∀ i, 0 ≤ i < 64 → Z.testbit w i = true.
Proof.
  intros Hw. change usize_max with (Z.ones 64). split.
  - intros -> i Hi. apply Z.ones_spec_low. lia.
  - intros Hb. apply Z.bits_inj'. intros n Hn. destruct (decide (n < 64)).
    + rewrite Z.ones_spec_low by lia. apply Hb; lia.
    + rewrite Z.ones_spec_high by lia. apply (proj1 (word_range_bits w)); lia || done.
Qed.

(** What [set_bit] does to every bit, and that it cannot panic in range. *)
Lemma bits_set_bit_in bs i b : 0 ≤ i < nbits bs →
  ∃ bs', bits_set_bit bs i b = Ret bs' ∧ length bs' = length bs ∧
    (words_ok bs → words_ok bs') ∧
    ∀ j, 0 ≤ j → bit bs' j = if decide (i = j) then b else bit bs j.
Proof.
  intros Hi. unfold bits_set_bit. destruct (index_lookup bs i Hi) as [w Hw]. rewrite Hw.
  eexists; split_and!; [done|apply length_insert| |].
  - intros Hok. apply Forall_insert; [done|]. apply word_set_bit_range.
    + apply Z.mod_pos_bound; lia.
    + unfold words_ok in Hok. rewrite Forall_lookup in Hok. eauto.
  - intros j Hj. unfold bit. pose proof (Z.div_mod i 64). pose proof (Z.div_mod j 64).
    pose proof (Z.div_pos i 64). pose proof (Z.div_pos j 64).
    pose proof (Z.mod_pos_bound i 64). pose proof (Z.mod_pos_bound j 64).
    destruct (decide (i / 64 = j / 64)) as [E|E].
    + rewrite <- E, list_lookup_insert_eq by (eapply lookup_lt_Some; eauto).
      rewrite Hw, word_set_bit_testbit by lia.
      destruct (decide (i = j)) as [->|]; [by rewrite decide_True|]. rewrite decide_False; [done|lia].
    + rewrite list_lookup_insert_ne by lia. rewrite decide_False; [done|congruence].
Qed.

Lemma nbits_length bs bs' : length bs = length bs' → nbits bs = nbits bs'.
Proof. unfold nbits. by intros ->. Qed.

(** Setting a whole list of bits. *)
Lemma bits_set_list xs bs b : Forall (λ i, 0 ≤ i < nbits bs) xs →
  ∃ bs', foldM (λ bs i, bits_set_bit bs i b) xs bs = Ret bs' ∧ length bs' = length bs ∧
    (words_ok bs → words_ok bs') ∧
    ∀ j, 0 ≤ j → bit bs' j = if decide (j ∈ xs) then b else bit bs j.
Proof.
  revert bs. induction xs as [|x xs IH]; intros bs Hxs; cbn [foldM].
  { eexists; split_and!; [done|done|done|]. intros j Hj. rewrite decide_False; [done|set_solver]. }
  apply Forall_cons in Hxs as [Hx Hxs].
  destruct (bits_set_bit_in bs x b Hx) as (bs1 & -> & Hlen & Hok & Hbit).
  destruct (IH bs1) as (bs2 & -> & Hlen2 & Hok2 & Hbit2).
  { by rewrite (nbits_length bs1 bs) by done. }
  eexists; split_and!; [done|congruence|by auto|].
  intros j Hj. rewrite Hbit2, Hbit by done.
  destruct (decide (j ∈ xs)), (decide (x = j)), (decide (j ∈ x :: xs)); set_solver.
Qed.

(** ** The abstract state of a region: its set of free frames *)

Definition total_pages (r : FrameRegionMap) : Z := paddr_end r / PAGE_SIZE - paddr r / PAGE_SIZE.

Definition frame_at (r : FrameRegionMap) (i : Z) : Z := paddr r + i * PAGE_SIZE.

Definition free_index (r : FrameRegionMap) : list Z :=
  filter (λ i, bit (bits r) i = false) (seqZ 0 (total_pages r)).

Definition region_free (r : FrameRegionMap) : gset Z := list_to_set (frame_at r <$> free_index r).

(** The type invariant of a region. *)
Record region_wf (r : FrameRegionMap) : Prop := {
  wf_paddr : 0 ≤ paddr r;
  wf_order : paddr r ≤ paddr_end r;
  wf_end : paddr_end r < USIZE;
  wf_align : paddr r mod PAGE_SIZE = 0;
  wf_align_end : paddr_end r mod PAGE_SIZE = 0;
  wf_len : Z.of_nat (length (bits r)) = div_ceil (total_pages r) 64;
  wf_words : words_ok (bits r);
  wf_tail : ∀ i, total_pages r ≤ i < nbits (bits r) → bit (bits r) i = true;
}.

Lemma page_div_mul a : a mod PAGE_SIZE = 0 → a / PAGE_SIZE * PAGE_SIZE = a.
Proof. intros Ha. pose proof (Z.div_mod a PAGE_SIZE). unfold PAGE_SIZE in *. lia. Qed.

Section region.
Context (r : FrameRegionMap) (Hwf : region_wf r).

Lemma total_nonneg : 0 ≤ total_pages r.
Proof.
  destruct Hwf as [? Ho]. unfold total_pages.
  pose proof (Z.div_le_mono _ _ PAGE_SIZE ltac:(done) Ho). lia.
Qed.

Lemma total_le_nbits : total_pages r ≤ nbits (bits r).
Proof.
  unfold nbits. rewrite (wf_len _ Hwf). apply div_ceil_ge; [apply total_nonneg|lia].
Qed.

Lemma frame_at_end : frame_at r (total_pages r) = paddr_end r.
Proof.
  unfold frame_at, total_pages. rewrite Z.mul_sub_distr_r.
  rewrite !page_div_mul by apply Hwf. lia.
Qed.

Lemma frame_at_range i : 0 ≤ i < total_pages r → paddr r ≤ frame_at r i < paddr_end r.
Proof. rewrite <- frame_at_end. unfold frame_at, PAGE_SIZE. lia. Qed.

(** The total is also what [new] computed it to be. *)
Lemma total_alt : total_pages r = (paddr_end r - paddr r) / PAGE_SIZE.
Proof.
  rewrite <- frame_at_end. unfold frame_at.
  replace (paddr r + total_pages r * PAGE_SIZE - paddr r) with (total_pages r * PAGE_SIZE) by lia.
  by rewrite Z.div_mul.
Qed.

Lemma total_usize : is_usize (total_pages r).
Proof.
  split; [apply total_nonneg|]. destruct Hwf as [? ? He]. rewrite total_alt.
  apply Z.div_lt_upper_bound; unfold PAGE_SIZE, USIZE in *; lia.
Qed.

Lemma frame_at_usize i : 0 ≤ i < total_pages r → is_usize (frame_at r i).
Proof. intros Hi%frame_at_range. destruct Hwf. split; lia. Qed.

Lemma elem_free_index i :
  i ∈ free_index r ↔ 0 ≤ i < total_pages r ∧ bit (bits r) i = false.
Proof. unfold free_index. rewrite list_elem_of_filter, elem_of_seqZ. naive_solver lia. Qed.

Lemma elem_region_free a : a ∈ region_free r ↔
  ∃ i, a = frame_at r i ∧ 0 ≤ i < total_pages r ∧ bit (bits r) i = false.
Proof.
  unfold region_free. rewrite elem_of_list_to_set, list_elem_of_fmap.
  setoid_rewrite elem_free_index. done.
Qed.

Lemma region_free_range a : a ∈ region_free r →
  paddr r ≤ a < paddr_end r ∧ a mod PAGE_SIZE = 0.
Proof.
  intros (i & -> & Hi & _)%elem_region_free. split; [by apply frame_at_range|].
  unfold frame_at. rewrite Z.mod_add by done. apply Hwf.
Qed.

Lemma frame_at_free i : 0 ≤ i < total_pages r →
  frame_at r i ∈ region_free r ↔ bit (bits r) i = false.
Proof.
  intros Hi. rewrite elem_region_free. split; [|naive_solver].
  intros (j & E & Hj & Hb). assert (i = j) as ->; [|done]. unfold frame_at, PAGE_SIZE in E. lia.
Qed.
End region.

Lemma bit_update_wf r bs :
  region_wf r → length bs = length (bits r) → words_ok bs →
  (∀ i, total_pages r ≤ i < nbits (bits r) → bit bs i = true) → region_wf (set_bits r bs).
Proof. intros [] Hlen Hok Htail. split; cbn; try done; by rewrite ?Hlen, ?(nbits_length bs (bits r)). Qed.

(** Marking the frames of [xs] as used removes them from the free set. *)
Lemma set_true_spec r xs bs :
  region_wf r → Forall (λ i, 0 ≤ i < total_pages r) xs →
  length bs = length (bits r) → words_ok bs →
  (∀ j, 0 ≤ j → bit bs j = if decide (j ∈ xs) then true else bit (bits r) j) →
  region_wf (set_bits r bs) ∧
  region_free (set_bits r bs) = region_free r ∖ list_to_set (frame_at r <$> xs).
Proof.
  intros Hwf Hxs Hlen Hok Hbit.
  assert (region_wf (set_bits r bs)) as Hwf'.
  { apply bit_update_wf; auto. intros i Hi. pose proof (total_nonneg r Hwf).
    rewrite Hbit by lia. case_decide; [done|]. by apply (wf_tail _ Hwf). }
  split; [done|]. apply set_eq. intros a.
  rewrite elem_of_difference, elem_of_list_to_set, list_elem_of_fmap.
  rewrite !elem_region_free by done. change (frame_at (set_bits r bs)) with (frame_at r).
  change (total_pages (set_bits r bs)) with (total_pages r). cbn [bits set_bits].
  split.
  - intros (i & -> & Hi & Hb). rewrite Hbit in Hb by lia. case_decide; [done|].
    split; [eauto|]. intros (j & E & Hj). unfold frame_at, PAGE_SIZE in E.
    assert (i = j) by lia. by subst.
  - intros [(i & -> & Hi & Hb) Hn]. exists i. split_and!; [done|lia|lia|].
    rewrite Hbit by lia. rewrite decide_False; [done|]. intros ?. apply Hn. eauto.
Qed.

(** ** Creating a region *)

Lemma new_bits n : 0 ≤ n →
  ∃ bs, foldM (λ bs i, bits_set_bit bs i true)
          (seqZ n (Z.of_nat (length (replicate (Z.to_nat (div_ceil n 64)) 0)) * 64 - n))
          (replicate (Z.to_nat (div_ceil n 64)) 0) = Ret bs ∧
    Z.of_nat (length bs) = div_ceil n 64 ∧ words_ok bs ∧
    ∀ i, 0 ≤ i < nbits bs → bit bs i = bool_decide (n ≤ i).
Proof.
  intros Hn. set (bs0 := replicate _ _). assert (Z.of_nat (length bs0) = div_ceil n 64) as Hlen0.
  { unfold bs0. rewrite length_replicate. pose proof (div_ceil_nonneg n 64). lia. }
  assert (∀ i, 0 ≤ i < nbits bs0 → bit bs0 i = false) as Hz.
  { intros i Hi. unfold bit. destruct (index_lookup bs0 i Hi) as [w Hw]. rewrite Hw.
    apply lookup_replicate in Hw as [-> _]. apply Z.testbit_0_l. }
  destruct (bits_set_list (seqZ n (Z.of_nat (length bs0) * 64 - n)) bs0 true) as (bs & E & Hlen & Hok & Hbit).
  { apply Forall_forall. intros i. rewrite elem_of_seqZ. unfold nbits. lia. }
  exists bs. split_and!; [done|congruence| |].
  - apply Hok. apply Forall_replicate. done.
  - intros i Hi. rewrite Hbit by lia. rewrite (nbits_length bs bs0) in Hi by done.
    case_decide as Hin; rewrite elem_of_seqZ in Hin; unfold nbits in Hi;
      [rewrite bool_decide_eq_true_2; [done|lia]|].
    rewrite bool_decide_eq_false_2 by lia. apply Hz. unfold nbits. lia.
Qed.

Lemma region_new_spec s e :
  0 ≤ s ≤ e → e < USIZE → s mod PAGE_SIZE = 0 → e mod PAGE_SIZE = 0 →
  ∃ r, FrameRegionMap_new s e = Ret r ∧ region_wf r ∧ paddr r = s ∧ paddr_end r = e ∧
    region_free r = list_to_set ((λ i, s + i * PAGE_SIZE) <$> seqZ 0 ((e - s) / PAGE_SIZE)).
Proof.
  intros Hs He As Ae. unfold FrameRegionMap_new. unwrap_u.
  set (n := (e - s) / PAGE_SIZE). assert (0 ≤ n) as Hn by (apply Z.div_pos; unfold PAGE_SIZE; lia).
  destruct (new_bits n Hn) as (bs & E & Hlen & Hok & Hbit). cbn zeta. rewrite E.
  set (r := mkRegion bs s e). assert (total_pages r = n) as Htot.
  { unfold total_pages, n, r; cbn. pose proof (page_div_mul s As). pose proof (page_div_mul e Ae).
    replace (e - s) with ((e / PAGE_SIZE - s / PAGE_SIZE) * PAGE_SIZE) by lia.
    by rewrite Z.div_mul. }
  assert (region_wf r) as Hwf.
  { constructor; rewrite ?Htot; try done; try (cbn; lia). intros i Hi.
    change (bits r) with bs in *. rewrite Hbit by lia. by apply bool_decide_eq_true_2, Hi. }
  exists r. split_and!; try done.
  apply set_eq. intros a. rewrite elem_region_free, elem_of_list_to_set, list_elem_of_fmap by done.
  pose proof (total_le_nbits r Hwf) as Hle. rewrite Htot in *.
  change (bits r) with bs in *.
  setoid_rewrite elem_of_seqZ. unfold frame_at. change (paddr r) with s. split.
  - intros (i & -> & Hi & _). exists i. split; [done|]. fold n. lia.
  - intros (i & -> & Hi). exists i. fold n in Hi. split_and!; [done|lia|lia|].
    rewrite Hbit by lia. apply bool_decide_eq_false_2. lia.
Qed.

(** ** Allocating one frame *)

Lemma words_ok_lookup bs i w : words_ok bs → bs !! i = Some w → 0 ≤ w < USIZE.
Proof. unfold words_ok. rewrite Forall_lookup. eauto. Qed.
#[local] Hint Resolve words_ok_lookup wf_words : kernel.

(** The bits of word [i] are the bits [64 i .. 64 i + 63]. *)
Lemma bit_word bs i w b : bs !! i = Some w → 0 ≤ b < 64 →
  bit bs (Z.of_nat i * 64 + b) = Z.testbit w b.
Proof.
  intros Hw Hb. unfold bit. rewrite Z.div_add_l, Z.div_small, Z.add_0_r, Nat2Z.id, Hw by lia.
  by rewrite Z.add_comm, Z.mod_add, Z.mod_small by lia.
Qed.

Lemma bit_full_word bs i : 0 ≤ i → words_ok bs →
  word_not_full bs (Z.to_nat (i / 64)) = false → bit bs i = true.
Proof.
  unfold word_not_full, bit. intros Hi Hok. destruct (bs !! Z.to_nat (i / 64)) as [w|] eqn:Hw; [|done].
  intros ->%bool_decide_eq_false_1%dec_stable. apply word_full_iff; eauto with kernel.
  apply Z.mod_pos_bound. lia.
Qed.

(** The first word that is not full has a clear bit, and every earlier bit is set. *)
Lemma find_free_word r i : region_wf r →
  List.find (word_not_full (bits r)) (seq 0 (length (bits r))) = Some i →
  ∃ w b, bits r !! i = Some w ∧
    List.find (λ i, negb (Z.testbit w i)) (seqZ 0 64) = Some b ∧
    0 ≤ b < 64 ∧ bit (bits r) (Z.of_nat i * 64 + b) = false ∧
    ∀ j, 0 ≤ j < Z.of_nat i * 64 + b → bit (bits r) j = true.
Proof.
  intros Hwf (_ & Hi & Hbefore)%find_seq_Some.
  unfold word_not_full in Hi. destruct (bits r !! i) as [w|] eqn:Hw; [|done].
  apply bool_decide_eq_true_1 in Hi.
  destruct (List.find (λ i, negb (Z.testbit w i)) (seqZ 0 64)) as [b|] eqn:Hf; last first.
  { exfalso. apply Hi, word_full_iff; eauto with kernel. intros k Hk.
    apply negb_false_iff. by apply (proj1 (find_seqZ_None _ 0 64) Hf). }
  pose proof Hf as (Hb & Hwb%negb_true_iff & Hlow)%find_seqZ_Some.
  exists w, b. split_and!; try done || lia; [by erewrite bit_word|].
  intros j Hj. pose proof (Z.div_mod j 64). pose proof (Z.mod_pos_bound j 64).
  pose proof (Z.div_pos j 64). destruct (decide (Z.to_nat (j / 64) = i)) as [<-|].
  - replace j with (Z.of_nat (Z.to_nat (j / 64)) * 64 + j mod 64) by lia.
    erewrite bit_word by (done || lia). apply negb_false_iff, Hlow. lia.
  - apply bit_full_word; [lia|auto with kernel|]. apply Hbefore. lia.
Qed.

Lemma insert_word_bit bs i w b : bs !! i = Some w → 0 ≤ b < 64 →
  bits_set_bit bs (Z.of_nat i * 64 + b) true = Ret (<[i := word_set_bit w b true]> bs).
Proof.
  intros Hw Hb. unfold bits_set_bit.
  rewrite Z.div_add_l, Z.div_small, Z.add_0_r, Nat2Z.id, Hw by lia.
  by rewrite Z.add_comm, Z.mod_add, Z.mod_small by lia.
Qed.

(** The abstract effect of an allocation of one frame on a free set. *)
Definition alloc_effect (free free' : gset Z) (o : option Z) : Prop :=
  match o with
  | Some p => p ∈ free ∧ (∀ q, q ∈ free → p ≤ q) ∧ free' = free ∖ {[p]}
  | None => free = ∅ ∧ free' = free
  end.

Lemma region_alloc_spec r : region_wf r →
  ∃ o r', FrameRegionMap_alloc r = Ret (o, r') ∧ region_wf r' ∧
    paddr r' = paddr r ∧ paddr_end r' = paddr_end r ∧
    alloc_effect (region_free r) (region_free r') o.
Proof.
  intros Hwf. unfold FrameRegionMap_alloc.
  destruct (List.find _ _) as [i|] eqn:Hf.
  - destruct (find_free_word r i Hwf Hf) as (w & b & Hw & Hb & Hbr & Hfree & Hlow).
    unfold alloc_in_pos. rewrite Hw, Hb. set (k := Z.of_nat i * 64 + b) in *.
    assert (0 ≤ k < nbits (bits r)) as Hkn.
    { apply lookup_lt_Some in Hw. unfold nbits. lia. }
    assert (0 ≤ k < total_pages r) as Hk.
    { split; [lia|]. destruct (decide (k < total_pages r)); [done|].
      rewrite (wf_tail r Hwf k) in Hfree by lia. done. }
    destruct (bits_set_bit_in (bits r) k true Hkn) as (bs & Ebs & Hlen & Hok & Hbit).
    unfold k in Ebs. rewrite (insert_word_bit _ _ _ _ Hw Hbr) in Ebs.
    assert (<[i:=word_set_bit w b true]> (bits r) = bs) as -> by congruence. fold k.
    destruct (set_true_spec r [k] bs) as [Hwf' Hfree']; auto using wf_words.
    { intros j Hj. rewrite Hbit by done. destruct (decide (k = j)), (decide (j ∈ [k])); set_solver. }
    pose proof (frame_at_usize r Hwf k Hk) as Hu. unfold frame_at in Hu.
    pose proof (wf_paddr r Hwf). unfold PAGE_SIZE in *. unwrap_u.
    do 2 eexists. split_and!; [done|done|done|done|]. split_and!.
    + by apply frame_at_free.
    + intros q (j & -> & Hj & Hjb)%(elem_region_free r).
      assert (k ≤ j); [|unfold frame_at, PAGE_SIZE; lia].
      destruct (decide (k ≤ j)); [done|]. rewrite Hlow in Hjb by lia. done.
    + rewrite Hfree'. cbn. unfold frame_at, PAGE_SIZE. set_solver.
  - exists None, r. split_and!; try done. split; [|done]. apply elem_of_equiv_empty_L.
    intros a (i & -> & Hi & Hb)%elem_region_free.
    rewrite find_None_Forall, Forall_forall in Hf. pose proof (total_le_nbits r Hwf) as Hle.
    destruct (index_lookup (bits r) i) as [w Hw]; [unfold nbits in Hle; lia|].
    assert (bit (bits r) i = true); [|congruence]. apply bit_full_word; [lia|auto with kernel|].
    apply Hf, elem_of_seq. apply lookup_lt_Some in Hw. lia.
Qed.

(** ** Counting free frames *)

Lemma word_free_count_spec sum w :
  word_free_count sum w = sum + Z.of_nat (length (filter (λ i, Z.testbit w i = false) (seqZ 0 64))).
Proof.
  unfold word_free_count. case_decide as E; [by subst|].
  rewrite foldl_count_false. done.
Qed.

Lemma bit_app_l bs w i : 0 ≤ i < nbits bs → bit (bs ++ [w]) i = bit bs i.
Proof.
  intros Hi. unfold bit. rewrite lookup_app_l; [done|].
  destruct (index_lookup bs i Hi) as [? ?]. by eapply lookup_lt_Some.
Qed.

Lemma count_bits bs :
  foldl word_free_count 0 bs = Z.of_nat (length (filter (λ i, bit bs i = false) (seqZ 0 (nbits bs)))).
Proof.
  induction bs as [|w bs IH] using rev_ind; [done|].
  rewrite foldl_snoc, IH, word_free_count_spec.
  unfold nbits. rewrite length_app, Nat2Z.inj_add, Z.mul_add_distr_r. fold (nbits bs). cbn [length].
  rewrite seqZ_app by (unfold nbits; lia). rewrite filter_app, length_app, Nat2Z.inj_add. f_equal; f_equal.
  - f_equal. apply list_filter_ext. intros i Hi%elem_of_seqZ. by rewrite bit_app_l by lia.
  - rewrite Z.add_0_l. replace (nbits bs) with (nbits bs + 0) by lia.
    rewrite <- fmap_add_seqZ, list_filter_fmap, length_fmap. f_equal. apply list_filter_ext.
    intros i Hi%elem_of_seqZ. cbn. unfold nbits.
    rewrite (bit_word _ _ w) by (by rewrite ?list_lookup_middle || lia). done.
Qed.

Lemma NoDup_free_index r : NoDup (free_index r).
Proof. apply NoDup_filter, NoDup_seqZ. Qed.

Lemma size_region_free r : Z.of_nat (size (region_free r)) = Z.of_nat (length (free_index r)).
Proof.
  unfold region_free. rewrite size_list_to_set, length_fmap; [done|].
  apply NoDup_fmap_2_strong; [|apply NoDup_free_index].
  intros x y _ _ E. unfold frame_at, PAGE_SIZE in E. lia.
Qed.

Lemma region_count_spec r : region_wf r →
  FrameRegionMap_get_free_page_count r = Z.of_nat (size (region_free r)).
Proof.
  intros Hwf. rewrite size_region_free. unfold FrameRegionMap_get_free_page_count. rewrite count_bits.
  pose proof (total_le_nbits r Hwf). pose proof (total_nonneg r Hwf).
  replace (nbits (bits r)) with (total_pages r + (nbits (bits r) - total_pages r)) by lia.
  rewrite seqZ_app by lia. rewrite filter_app, length_app.
  rewrite (proj2 (list_filter_none _ (seqZ (_ + _) _))); [by rewrite Nat.add_0_r|].
  apply Forall_forall. intros i Hi%elem_of_seqZ. rewrite (wf_tail r Hwf) by lia. done.
Qed.

(** ** Allocating a run of frames *)

(** [run_free r s n]: the [n] frames from index [s] on are free frames of [r]. *)
Definition run_free (r : FrameRegionMap) (s n : Z) : Prop :=
  0 ≤ s ∧ s + n ≤ total_pages r ∧ ∀ k, s ≤ k < s + n → bit (bits r) k = false.

(** The sliding window finds the lowest run of free bits, if there is one. *)
Lemma alloc_much_scan_spec r pages i s :
  region_wf r → 0 < pages → 0 ≤ s ≤ i → i ≤ total_pages r → i - s < pages →
  (∀ k, s ≤ k < i → bit (bits r) k = false) →
  (∀ t, 0 ≤ t < s → ¬ run_free r t pages) →
  ∃ o, alloc_much_scan (bits r) pages (seqZ i (total_pages r - i)) s (i - s) = Ret o ∧
    match o with
    | Some t => run_free r t pages ∧ ∀ u, run_free r u pages → t ≤ u
    | None => ∀ t, ¬ run_free r t pages
    end.
Proof.
  intros Hwf Hp.
  assert (∀ t s, (∀ t, 0 ≤ t < s → ¬ run_free r t pages) → run_free r t pages → s ≤ t) as Hlowest.
  { intros t u Hu Ht. destruct (decide (u ≤ t)); [done|]. destruct (Hu t); [destruct Ht; lia|done]. }
  remember (Z.to_nat (total_pages r - i)) as n eqn:En. revert i s En.
  induction n as [|n IH]; intros i s En Hsi Hi Hc Hrun Hno.
  { rewrite seqZ_nil by lia. eexists; split; [done|]. intros t Ht.
    pose proof (Hlowest _ _ Hno Ht). destruct Ht. lia. }
  rewrite seqZ_cons by lia. cbn [alloc_much_scan]. pose proof (total_le_nbits r Hwf).
  rewrite bits_get_bit_in by lia. change (Ret ?a ≫= ?f) with (f a). cbn beta.
  replace (Z.pred (total_pages r - i)) with (total_pages r - (i + 1)) by lia.
  change (Z.succ i) with (i + 1).
  destruct (bit (bits r) i) eqn:Hb.
  - replace 0 with ((i + 1) - (i + 1)) by lia. apply IH; try lia. intros t Ht [Ht0 [Ht1 Ht2]].
    destruct (decide (t < s)); [by apply (Hno t); [lia|]|].
    destruct (decide (i < t + pages)); [by rewrite Ht2 in Hb by lia|lia].
  - case_decide.
    + eexists; split; [done|]. split; [|by intros u; apply Hlowest]. split_and!; try lia.
      intros k Hk. destruct (decide (k = i)) as [->|]; [done|]. apply Hrun. lia.
    + replace (i - s + 1) with (i + 1 - s) by lia. apply IH; try lia; [|done].
      intros k Hk. destruct (decide (k = i)) as [->|]; [done|]. apply Hrun. lia.
Qed.

(** The frames of a run, as addresses. *)
Definition run_frames (r : FrameRegionMap) (s n : Z) : list Z := frame_at r <$> seqZ s n.

Lemma run_free_size r s n : 0 ≤ n → run_free r s n → n ≤ Z.of_nat (size (region_free r)).
Proof.
  intros Hn (Hs & He & Hr). assert (list_to_set (run_frames r s n) ⊆ region_free r) as Hsub.
  { intros a. unfold run_frames. rewrite elem_of_list_to_set, list_elem_of_fmap.
    intros (i & -> & Hi%elem_of_seqZ). apply elem_region_free. exists i. split_and!; try done; try lia.
    apply Hr. lia. }
  apply subseteq_size in Hsub. rewrite size_list_to_set in Hsub.
  - unfold run_frames in Hsub. rewrite length_fmap, length_seqZ in Hsub. lia.
  - apply NoDup_fmap_2_strong; [|apply NoDup_seqZ].
    intros x y _ _ E. unfold frame_at, PAGE_SIZE in E. lia.
Qed.

(** The abstract effect of allocating [pages] consecutive frames. *)
Definition alloc_much_effect (r r' : FrameRegionMap) (pages : Z) (o : option (list Z)) : Prop :=
  match o with
  | Some l => ∃ s, run_free r s pages ∧ (∀ u, run_free r u pages → s ≤ u) ∧
      l = run_frames r s pages ∧ region_free r' = region_free r ∖ list_to_set l
  | None => r' = r ∧ ∀ s, ¬ run_free r s pages
  end.

Lemma region_alloc_much_spec r pages : region_wf r → 0 < pages →
  ∃ o r', FrameRegionMap_alloc_much r pages = Ret (o, r') ∧ region_wf r' ∧
    paddr r' = paddr r ∧ paddr_end r' = paddr_end r ∧ alloc_much_effect r r' pages o.
Proof.
  intros Hwf Hp. unfold FrameRegionMap_alloc_much. fold (total_pages r).
  pose proof (total_usize r Hwf) as Htot. rewrite (wrap_small _ Htot). destruct Htot as [Htot _].
  case_decide as H1; [|case_decide as H2].
  - exists None, r. split_and!; try done. split; [done|]. intros s (? & ? & ?). lia.
  - exists None, r. split_and!; try done. split; [done|]. intros s Hs%run_free_size; [|lia].
    rewrite (region_count_spec r Hwf) in H2. lia.
  - destruct (alloc_much_scan_spec r pages 0 0) as (o & E & Ho); [done|done|lia..| |].
    { intros t Ht. lia. }
    rewrite Z.sub_0_r in E. change (0 - 0) with 0 in E. rewrite E.
    change (Ret ?a ≫= ?f) with (f a). cbn beta. destruct o as [s|]; last first.
    { exists None, r. by split_and!. }
    destruct Ho as [Hrun Hlow]. pose proof Hrun as (Hs & He & Hfree).
    destruct (bits_set_list (seqZ s pages) (bits r) true) as (bs & -> & Hlen & Hok & Hbit).
    { apply Forall_seqZ. intros k Hk. pose proof (total_le_nbits r Hwf). lia. }
    destruct (set_true_spec r (seqZ s pages) bs) as [Hwf' Hfree']; auto with kernel.
    { apply Forall_seqZ. intros k Hk. lia. }
    change (Ret ?a ≫= ?f) with (f a). cbn beta. do 2 eexists. split_and!; [done|done|done|done|].
    assert ((λ x, (paddr r / PAGE_SIZE + x) *u PAGE_SIZE) <$> seqZ s pages = run_frames r s pages) as ->.
    { apply list_fmap_ext. intros i x Hx. apply list_elem_of_lookup_2, elem_of_seqZ in Hx.
      rewrite Z.mul_add_distr_r, (page_div_mul _ (wf_align r Hwf)).
      apply wrap_small, frame_at_usize; [done|lia]. }
    exists s. by split_and!.
Qed.

(** ** Returning a frame *)

Lemma region_dealloc_spec r p : region_wf r → paddr r ≤ p < paddr_end r →
  ∃ r', FrameRegionMap_dealloc r p = Ret r' ∧ region_wf r' ∧
    paddr r' = paddr r ∧ paddr_end r' = paddr_end r ∧
    region_free r' = {[aligndown p PAGE_SIZE]} ∪ region_free r.
Proof.
  intros Hwf Hp. unfold FrameRegionMap_dealloc. set (k := p / PAGE_SIZE - paddr r / PAGE_SIZE).
  pose proof (page_div_mul _ (wf_align r Hwf)) as Ha. pose proof (page_div_mul _ (wf_align_end r Hwf)) as He.
  pose proof (Z.div_mod p PAGE_SIZE) as Hd. pose proof (Z.mod_pos_bound p PAGE_SIZE).
  assert (0 ≤ k < total_pages r) as Hk by (unfold k, total_pages, PAGE_SIZE in *; lia).
  assert (aligndown p PAGE_SIZE = frame_at r k) as ->.
  { unfold aligndown. rewrite wrap_small; [unfold frame_at, k, PAGE_SIZE in *; lia|].
    destruct Hwf. split; unfold PAGE_SIZE, USIZE in *; lia. }
  pose proof (total_usize r Hwf). unfold is_usize in *. rewrite (wrap_small k) by (split; lia).
  pose proof (total_le_nbits r Hwf).
  destruct (bits_set_bit_in (bits r) k false) as (bs & -> & Hlen & Hok & Hbit); [lia|].
  change (Ret ?a ≫= ?f) with (f a). cbn beta.
  assert (region_wf (set_bits r bs)) as Hwf'.
  { apply bit_update_wf; auto with kernel. intros i Hi. rewrite Hbit by lia.
    rewrite decide_False by lia. by apply wf_tail. }
  eexists. split_and!; [done|done|done|done|]. apply set_eq. intros a.
  rewrite elem_of_union, elem_of_singleton, !elem_region_free.
  change (frame_at (set_bits r bs)) with (frame_at r).
  change (total_pages (set_bits r bs)) with (total_pages r). cbn [bits set_bits]. split.
  - intros (i & -> & Hi & Hb). destruct (decide (k = i)) as [->|]; [by left|right].
    rewrite Hbit, decide_False in Hb by (done || lia). eauto.
  - intros [->|(i & -> & Hi & Hb)].
    + exists k. split_and!; [done|lia|lia|]. rewrite Hbit by lia. by rewrite decide_True.
    + exists i. split_and!; [done|lia|lia|]. rewrite Hbit by lia. by case_decide.
Qed.

(** ** The whole allocator *)

Definition fa_free (fa : FrameAllocator) : gset Z := ⋃ (region_free <$> fa).

Definition region_frames (r : FrameRegionMap) : gset Z :=
  list_to_set (frame_at r <$> seqZ 0 (total_pages r)).

(** The frames the allocator manages, free or not. *)
Definition fa_managed (fa : FrameAllocator) : gset Z := ⋃ (region_frames <$> fa).

Definition region_disjoint (r r' : FrameRegionMap) : Prop :=
  paddr_end r ≤ paddr r' ∨ paddr_end r' ≤ paddr r.

Inductive fa_wf : FrameAllocator → Prop :=
  | fa_wf_nil : fa_wf []
  | fa_wf_cons r fa : region_wf r → Forall (region_disjoint r) fa → fa_wf fa → fa_wf (r :: fa).
#[local] Hint Constructors fa_wf : kernel.

Lemma fa_free_cons r fa : fa_free (r :: fa) = region_free r ∪ fa_free fa.
Proof. done. Qed.

Lemma fa_managed_nil : fa_managed [] = ∅.
Proof. done. Qed.

Lemma fa_managed_cons r fa : fa_managed (r :: fa) = region_frames r ∪ fa_managed fa.
Proof. done. Qed.

Lemma elem_region_frames r a : a ∈ region_frames r ↔ ∃ i, a = frame_at r i ∧ 0 ≤ i < total_pages r.
Proof.
  unfold region_frames. rewrite elem_of_list_to_set, list_elem_of_fmap.
  setoid_rewrite elem_of_seqZ. by rewrite Z.add_0_l.
Qed.

Lemma region_free_frames r : region_free r ⊆ region_frames r.
Proof. intros a (i & -> & Hi & _)%elem_region_free. apply elem_region_frames. eauto. Qed.

Lemma fa_free_managed fa : fa_free fa ⊆ fa_managed fa.
Proof.
  induction fa as [|r fa IH]; [done|]. rewrite fa_free_cons, fa_managed_cons.
  pose proof (region_free_frames r). set_solver.
Qed.

Lemma region_frames_range r a : region_wf r → a ∈ region_frames r →
  paddr r ≤ a < paddr_end r ∧ a mod PAGE_SIZE = 0.
Proof.
  intros Hwf (i & -> & Hi)%elem_region_frames. split; [by apply frame_at_range|].
  unfold frame_at. rewrite Z.mod_add by done. apply Hwf.
Qed.

(** Regions at the same addresses have the same frames. *)
Lemma region_frames_same r r' : paddr r' = paddr r → paddr_end r' = paddr_end r →
  region_frames r' = region_frames r.
Proof. unfold region_frames, total_pages, frame_at. by intros -> ->. Qed.

Lemma disjoint_frames r fa : region_wf r → fa_wf fa → Forall (region_disjoint r) fa →
  region_frames r ## fa_managed fa.
Proof.
  intros Hr Hfa. induction Hfa as [|r' fa Hr' _ _ IH].
  { intros _. apply disjoint_empty_r. }
  rewrite Forall_cons, fa_managed_cons. intros [Hd Hds]. apply disjoint_union_r. split; [|auto].
  apply elem_of_disjoint. intros a Ha%region_frames_range Hb%region_frames_range; try done. unfold region_disjoint in Hd. lia.
Qed.

Lemma disjoint_same r r' fa : paddr r' = paddr r → paddr_end r' = paddr_end r →
  Forall (region_disjoint r) fa → Forall (region_disjoint r') fa.
Proof. unfold region_disjoint. by intros -> ->. Qed.

(** Replacing the tail of a well-formed allocator by one with the same ranges. *)
Definition same_ranges (fa fa' : FrameAllocator) : Prop :=
  Forall2 (λ r r', paddr r' = paddr r ∧ paddr_end r' = paddr_end r) fa fa'.

Lemma same_ranges_refl fa : same_ranges fa fa.
Proof. by apply Forall_Forall2_diag, Forall_true. Qed.
Lemma same_ranges_cons r r' fa fa' : paddr r' = paddr r → paddr_end r' = paddr_end r →
  same_ranges fa fa' → same_ranges (r :: fa) (r' :: fa').
Proof. by constructor. Qed.
#[local] Hint Resolve same_ranges_refl same_ranges_cons : kernel.

Lemma same_ranges_managed fa fa' : same_ranges fa fa' → fa_managed fa' = fa_managed fa.
Proof.
  induction 1 as [|r r' fa fa' [] _ IH]; [done|].
  by rewrite !fa_managed_cons, IH, (region_frames_same r r').
Qed.

Lemma same_ranges_disjoint r fa fa' : same_ranges fa fa' →
  Forall (region_disjoint r) fa → Forall (region_disjoint r) fa'.
Proof.
  induction 1 as [|x x' fa fa' [Ex1 Ex2] _ IH]; [done|]. rewrite !Forall_cons.
  intros [Hd ?]. split; [|auto]. unfold region_disjoint in *. by rewrite Ex1, Ex2.
Qed.

Lemma fa_alloc_spec fa : fa_wf fa →
  ∃ o fa', FrameAllocator_alloc fa = Ret (o, fa') ∧ fa_wf fa' ∧ same_ranges fa fa' ∧
    match o with
    | Some p => p ∈ fa_free fa ∧ fa_free fa' = fa_free fa ∖ {[p]}
    | None => fa_free fa = ∅ ∧ fa_free fa' = ∅
    end.
Proof.
  induction 1 as [|r fa Hr Hd Hfa IH].
  { exists None, []. split_and!; auto with kernel. }
  cbn [FrameAllocator_alloc].
  destruct (region_alloc_spec r Hr) as ([p|] & r' & -> & Hr' & Ep & Ee & Heff);
    change (Ret ?a ≫= ?f) with (f a); cbn beta iota.
  - destruct Heff as (Hp & _ & Hf). do 2 eexists. split; [done|]. split_and!.
    + constructor; eauto using disjoint_same.
    + auto with kernel.
    + rewrite fa_free_cons. set_solver.
    + rewrite !fa_free_cons, Hf. pose proof (disjoint_frames r fa Hr Hfa Hd).
      pose proof (region_free_frames r). pose proof (fa_free_managed fa). set_solver.
  - destruct Heff as [He Hf]. destruct IH as (o & fa' & -> & Hfa' & Hsame & Ho).
    change (Ret ?a ≫= ?f) with (f a); cbn beta iota. do 2 eexists. split; [done|]. split_and!.
    + constructor; eauto using disjoint_same, same_ranges_disjoint.
    + auto with kernel.
    + rewrite !fa_free_cons, Hf, He. destruct o; set_solver.
Qed.

(** A block of [n] consecutive frames from address [a] on. *)
Definition frames_from (a n : Z) : list Z := (λ i, a + i * PAGE_SIZE) <$> seqZ 0 n.

Lemma run_frames_from r s n : run_frames r s n = frames_from (frame_at r s) n.
Proof.
  unfold run_frames, frames_from. replace s with (s + 0) at 1 by lia.
  rewrite <- fmap_add_seqZ, <- list_fmap_compose. apply list_fmap_ext. intros ? i _.
  cbn. unfold frame_at. lia.
Qed.

Lemma run_frames_sub r s n : run_free r s n → list_to_set (run_frames r s n) ⊆ region_free r.
Proof.
  intros (Hs & He & Hr) a. unfold run_frames. rewrite elem_of_list_to_set, list_elem_of_fmap.
  intros (i & -> & Hi%elem_of_seqZ). apply elem_region_free. exists i.
  split_and!; [done|lia|lia|]. apply Hr. lia.
Qed.

(** Asking for no page at all changes nothing. *)
Lemma region_alloc_none_needed r : region_wf r →
  ∃ o, FrameRegionMap_alloc_much r 0 = Ret (o, r) ∧ (o = None ∨ o = Some []).
Proof.
  intros Hwf. unfold FrameRegionMap_alloc_much. case_decide; [eauto|]. case_decide; [eauto|].
  fold (total_pages r). rewrite (wrap_small _ (total_usize r Hwf)).
  assert (∀ l s c, Forall (λ i, 0 ≤ i < nbits (bits r)) l →
    ∃ o, alloc_much_scan (bits r) 0 l s c = Ret o ∨ c < 0) as Hscan.
  { induction l as [|i l IH]; intros s c Hl; [eauto|]. apply Forall_cons in Hl as [Hi Hl].
    cbn. rewrite bits_get_bit_in by done. change (Ret ?a ≫= ?f) with (f a); cbn beta iota.
    destruct (bit (bits r) i).
    - destruct (IH (i + 1) 0 Hl) as (o & [E|]); [eauto|lia].
    - case_decide; [eauto|]. exists None. right. lia. }
  destruct (Hscan (seqZ 0 (total_pages r)) 0 0) as (o & [->|]); [|change (Ret ?a ≫= ?f) with (f a)|lia].
  { apply Forall_seqZ. pose proof (total_le_nbits r Hwf). intros; lia. }
  cbn beta. destruct o; [|eauto]. exists (Some []). split; [|by right]. by destruct r.
Qed.

Lemma fa_alloc_much_spec fa pages : fa_wf fa → 0 ≤ pages →
  ∃ o fa', FrameAllocator_alloc_much fa pages = Ret (o, fa') ∧ fa_wf fa' ∧ same_ranges fa fa' ∧
    match o with
    | Some l => (∃ a, l = frames_from a pages) ∧ list_to_set l ⊆ fa_free fa ∧
                fa_free fa' = fa_free fa ∖ list_to_set l
    | None => fa' = fa ∧ (0 < pages → Forall (λ r, ∀ s, ¬ run_free r s pages) fa)
    end.
Proof.
  intros Hwf Hp. induction Hwf as [|r fa Hr Hd Hfa IH].
  { exists None, []. split_and!; auto with kernel. }
  cbn [FrameAllocator_alloc_much].
  assert (∃ o r', FrameRegionMap_alloc_much r pages = Ret (o, r') ∧ region_wf r' ∧
    paddr r' = paddr r ∧ paddr_end r' = paddr_end r ∧
    match o with
    | Some l => (∃ a, l = frames_from a pages) ∧ list_to_set l ⊆ region_free r ∧
                region_free r' = region_free r ∖ list_to_set l
    | None => r' = r ∧ (0 < pages → ∀ s, ¬ run_free r s pages)
    end) as (o & r' & -> & Hr' & Ep & Ee & Ho).
  { destruct (decide (pages = 0)) as [->|].
    - destruct (region_alloc_none_needed r Hr) as (o & E & Ho). exists o, r. split_and!; try done.
      destruct Ho as [-> | ->]; [done|]. split; [by exists 0|]. set_solver.
    - destruct (region_alloc_much_spec r pages Hr) as (o & r' & E & Hr' & ? & ? & Heff); [lia|].
      exists o, r'. split_and!; try done. destruct o as [l|]; [|naive_solver].
      destruct Heff as (s & Hrun & _ & -> & Hf). pose proof (run_frames_sub _ _ _ Hrun).
      split_and!; [rewrite run_frames_from; eauto|done|done]. }
  change (Ret ?a ≫= ?f) with (f a); cbn beta iota. destruct o as [l|].
  - destruct Ho as (Hl & Hsub & Hf). do 2 eexists. split; [done|]. split_and!; try done.
    + constructor; eauto using disjoint_same.
    + auto with kernel.
    + rewrite fa_free_cons. set_solver.
    + rewrite !fa_free_cons, Hf. pose proof (disjoint_frames r fa Hr Hfa Hd).
      pose proof (region_free_frames r). pose proof (fa_free_managed fa). set_solver.
  - destruct Ho as [-> Hno]. destruct IH as (o & fa' & -> & Hfa' & Hsame & Ho).
    change (Ret ?a ≫= ?f) with (f a); cbn beta iota. do 2 eexists. split; [done|]. split_and!.
    + constructor; eauto using same_ranges_disjoint.
    + auto with kernel.
    + destruct o as [l|].
      * destruct Ho as (Hl & Hsub & Hf). rewrite !fa_free_cons, Hf.
        pose proof (disjoint_frames r fa Hr Hfa Hd). pose proof (region_free_frames r).
        pose proof (fa_free_managed fa). split_and!; [done|set_solver|set_solver].
      * destruct Ho as [-> Hall]. split; [done|]. intros. constructor; auto.
Qed.

(** Asking for one page fails only when no frame is free. *)
Lemma fa_alloc_one_none fa fa' : fa_wf fa → FrameAllocator_alloc_much fa 1 = Ret (None, fa') → fa_free fa = ∅.
Proof.
  intros Hwf E. destruct (fa_alloc_much_spec fa 1 Hwf) as (o & fa2 & E' & _ & _ & Ho); [lia|].
  rewrite E in E'. injection E' as <- <-. destruct Ho as [_ Hno]. specialize (Hno ltac:(lia)). clear E Hwf.
  induction Hno as [|r fa Hr _ IH]; [done|]. rewrite fa_free_cons, IH, (right_id_L ∅ (∪)).
  apply elem_of_equiv_empty_L. intros a (i & -> & Hi & Hb)%elem_region_free.
  apply (Hr i). split_and!; [lia|lia|]. intros k Hk. by replace k with i by lia.
Qed.

Lemma alignup_spec a : 0 ≤ a → a + PAGE_SIZE < USIZE →
  a ≤ alignup a PAGE_SIZE < a + PAGE_SIZE ∧ alignup a PAGE_SIZE = div_ceil a PAGE_SIZE * PAGE_SIZE.
Proof.
  intros Ha Hu. pose proof (div_ceil_bounds a PAGE_SIZE). unfold alignup.
  rewrite wrap_small; unfold is_usize, PAGE_SIZE, USIZE in *; lia.
Qed.

Lemma aligndown_spec a : 0 ≤ a < USIZE →
  a - PAGE_SIZE < aligndown a PAGE_SIZE ≤ a ∧ aligndown a PAGE_SIZE = a / PAGE_SIZE * PAGE_SIZE.
Proof.
  intros Ha. pose proof (Z.div_mod a PAGE_SIZE). pose proof (Z.mod_pos_bound a PAGE_SIZE).
  pose proof (Z.div_pos a PAGE_SIZE). unfold aligndown.
  rewrite wrap_small; unfold is_usize, PAGE_SIZE, USIZE in *; lia.
Qed.

Lemma aligndown_frame a : is_usize a → a mod PAGE_SIZE = 0 → aligndown a PAGE_SIZE = a.
Proof. intros Ha Hm. unfold aligndown. rewrite page_div_mul by done. by apply wrap_small. Qed.

Lemma fa_dealloc_spec fa p : fa_wf fa → p ∈ fa_managed fa →
  ∃ fa', FrameAllocator_dealloc fa p = Ret fa' ∧ fa_wf fa' ∧ same_ranges fa fa' ∧
    fa_free fa' = {[p]} ∪ fa_free fa.
Proof.
  induction 1 as [|r fa Hr Hd Hfa IH]; [rewrite fa_managed_nil; set_solver|].
  rewrite fa_managed_cons, elem_of_union. intros Hp. cbn [FrameAllocator_dealloc]. case_decide as Hin.
  - assert (p ∈ region_frames r) as Hpr.
    { destruct Hp as [?|Hp]; [done|]. exfalso. clear IH. revert Hd. induction Hfa as [|x fa Hx _ _ IHx].
      - rewrite fa_managed_nil in Hp. set_solver.
      - rewrite Forall_cons. intros [Hdx ?]. rewrite fa_managed_cons, elem_of_union in Hp.
        destruct Hp as [[? _]%region_frames_range|]; auto. unfold region_disjoint in Hdx. lia. }
    destruct (region_frames_range r p Hr Hpr) as [_ Hm].
    destruct (region_dealloc_spec r p Hr Hin) as (r' & -> & Hr' & Ep & Ee & Hf).
    rewrite aligndown_frame in Hf by (done || (destruct Hr; split; lia)).
    eexists. split; [done|]. split_and!; eauto using disjoint_same with kernel.
    rewrite !fa_free_cons, Hf. set_solver.
  - destruct Hp as [[? _]%region_frames_range|Hp]; [lia|done|].
    destruct (IH Hp) as (fa' & -> & Hfa' & Hsame & Hf). eexists. split; [done|].
    split_and!; eauto using same_ranges_disjoint with kernel. rewrite !fa_free_cons, Hf. set_solver.
Qed.

Lemma fa_count_spec fa : fa_wf fa →
  FrameAllocator_get_free_page_count fa = Z.of_nat (size (fa_free fa)).
Proof.
  intros Hwf. unfold FrameAllocator_get_free_page_count.
  assert (∀ s, foldl (λ sum r, sum + FrameRegionMap_get_free_page_count r) s fa =
    s + Z.of_nat (size (fa_free fa))) as H; [|by rewrite H].
  induction Hwf as [|r fa Hr Hd Hfa IH]; intros s.
  { change (fa_free []) with (∅ : gset Z). rewrite size_empty. cbn. lia. }
  cbn [foldl]. rewrite IH, (region_count_spec r Hr), fa_free_cons, size_union; [lia|].
  pose proof (disjoint_frames r fa Hr Hfa Hd). pose proof (region_free_frames r).
  pose proof (fa_free_managed fa). set_solver.
Qed.

Lemma fa_managed_aligned fa p : fa_wf fa → p ∈ fa_managed fa → is_usize p ∧ p mod PAGE_SIZE = 0.
Proof.
  induction 1 as [|r fa Hr Hd Hfa IH]; [rewrite fa_managed_nil; set_solver|].
  rewrite fa_managed_cons, elem_of_union. intros [[]%region_frames_range|]; auto.
  destruct Hr. split; [split; lia|done].
Qed.

Lemma add_memory_region_spec fa s e :
  fa_wf fa → 0 ≤ s ≤ e → e < USIZE → s mod PAGE_SIZE = 0 → e mod PAGE_SIZE = 0 →
  Forall (λ r, paddr_end r ≤ s ∨ e ≤ paddr r) fa →
  ∃ fa', add_memory_region fa s e = Ret fa' ∧ fa_wf fa' ∧
    fa_free fa' = fa_free fa ∪ list_to_set (frames_from s ((e - s) / PAGE_SIZE)).
Proof.
  intros Hwf Hs He As Ae Hd. unfold add_memory_region.
  destruct (region_new_spec s e Hs He As Ae) as (r & -> & Hr & Ep & Ee & Hf).
  eexists. split; [done|]. split.
  - induction Hwf as [|x fa Hx Hdx Hfa IH]; [by apply fa_wf_cons; auto with kernel|].
    apply Forall_cons in Hd as [Hd1 Hd]. apply fa_wf_cons; auto. apply Forall_app. split; [done|].
    apply Forall_singleton. unfold region_disjoint. rewrite Ep, Ee. tauto.
  - unfold frames_from. rewrite <- Hf. clear. induction fa as [|x fa IH].
    + rewrite app_nil_l, fa_free_cons. change (fa_free []) with (∅ : gset Z). set_solver.
    + rewrite <- app_comm_cons, !fa_free_cons, IH. set_solver.
Qed.

(** ** The interface the rest of the kernel relies on

    [frame_alloc], [frame_alloc_much], [FrameTracker::drop] and
    [get_free_pages] are all the clients see of the allocator; the laws are
    stated on the set of free frames. *)

Class FrameSource (S : Type) := {
  frame_alloc : S → outcome (option Z * S);
  frame_alloc_much : S → Z → outcome (option (list Z) * S);
  frame_unalloc : S → Z → outcome S;
  get_free_pages : S → Z;
}.

Class FrameSourceLaws (S : Type) `{FrameSource S} := {
  source_ok : S → Prop;
  free_frames : S → gset Z;
  managed_frames : S → gset Z;
  free_managed s : source_ok s → free_frames s ⊆ managed_frames s;
  managed_aligned s p : source_ok s → p ∈ managed_frames s → is_usize p ∧ p mod PAGE_SIZE = 0;
  frame_alloc_law s : source_ok s → ∃ o s', frame_alloc s = Ret (o, s') ∧ source_ok s' ∧
    managed_frames s' = managed_frames s ∧
    match o with
    | Some p => p ∈ free_frames s ∧ free_frames s' = free_frames s ∖ {[p]}
    | None => free_frames s = ∅ ∧ free_frames s' = ∅
    end;
  frame_alloc_much_law s pages : source_ok s → 0 ≤ pages →
    ∃ o s', frame_alloc_much s pages = Ret (o, s') ∧ source_ok s' ∧
    managed_frames s' = managed_frames s ∧
    match o with
    | Some l => (∃ a, l = frames_from a pages) ∧ list_to_set l ⊆ free_frames s ∧
                free_frames s' = free_frames s ∖ list_to_set l
    | None => s' = s
    end;
  frame_alloc_one_law s s' : source_ok s → frame_alloc_much s 1 = Ret (None, s') → free_frames s = ∅;
  frame_unalloc_law s p : source_ok s → p ∈ managed_frames s → ∃ s', frame_unalloc s p = Ret s' ∧
    source_ok s' ∧ managed_frames s' = managed_frames s ∧ free_frames s' = {[p]} ∪ free_frames s;
  get_free_pages_law s : source_ok s → get_free_pages s = Z.of_nat (size (free_frames s));
}.

#[export] Instance FrameAllocator_source : FrameSource FrameAllocator := {|
  frame_alloc := FrameAllocator_alloc;
  frame_alloc_much := FrameAllocator_alloc_much;
  frame_unalloc := FrameAllocator_dealloc;
  get_free_pages := FrameAllocator_get_free_page_count;
|}.

#[export] Program Instance FrameAllocator_laws : FrameSourceLaws FrameAllocator := {|
  source_ok := fa_wf;
  free_frames := fa_free;
  managed_frames := fa_managed;
|}.
Next Obligation. intros. apply fa_free_managed. Qed.
Next Obligation. intros. by eapply fa_managed_aligned. Qed.
Next Obligation.
  intros fa Hwf. destruct (fa_alloc_spec fa Hwf) as (o & fa' & E & ? & ?%same_ranges_managed & ?). eauto 10.
Qed.
Next Obligation.
  intros fa pages Hwf Hp.
  destruct (fa_alloc_much_spec fa pages Hwf Hp) as (o & fa' & E & ? & ?%same_ranges_managed & Ho).
  exists o, fa'. split_and!; try done. by destruct o; [|destruct Ho].
Qed.
Next Obligation. intros. by eapply fa_alloc_one_none. Qed.
Next Obligation.
  intros fa p Hwf Hp. destruct (fa_dealloc_spec fa p Hwf Hp) as (fa' & E & ? & ?%same_ranges_managed & ?).
  eauto 10.
Qed.
Next Obligation. intros. by apply fa_count_spec. Qed.

(** ** Ownership

    The [FrameTracker]s in the kernel own frames; a tracker is created by an
    allocation and gives its frame back when it is dropped.  [frame_step] is one
    such event on the allocator state together with the set of owned frames. *)

Section ownership.
Context {S : Type} `{FrameSourceLaws S}.

Inductive frame_step : S * gset Z → S * gset Z → Prop :=
  | step_alloc s s' p own :
      frame_alloc s = Ret (Some p, s') → frame_step (s, own) (s', {[p]} ∪ own)
  | step_alloc_fail s s' own :
      frame_alloc s = Ret (None, s') → frame_step (s, own) (s', own)
  | step_alloc_much s s' n l own : 0 ≤ n →
      frame_alloc_much s n = Ret (Some l, s') → frame_step (s, own) (s', list_to_set l ∪ own)
  | step_alloc_much_fail s s' n own : 0 ≤ n →
      frame_alloc_much s n = Ret (None, s') → frame_step (s, own) (s', own)
  | step_drop s s' p own : p ∈ own →
      frame_unalloc s p = Ret s' → frame_step (s, own) (s', own ∖ {[p]}).

(** Every managed frame is either free or owned, never both. *)
Definition ownership_inv (st : S * gset Z) : Prop :=
  source_ok st.1 ∧ st.2 ## free_frames st.1 ∧ st.2 ∪ free_frames st.1 = managed_frames st.1.

Lemma ownership_step st st' : ownership_inv st → frame_step st st' → ownership_inv st'.
Proof.
  intros (Hok & Hdisj & Hun) Hstep. destruct Hstep as [s s' p own E|s s' own E|s s' n l own Hn E
    |s s' n own Hn E|s s' p own Hp E]; cbn [fst snd] in *.
  - destruct (frame_alloc_law s Hok) as (o & s1 & E1 & Hok' & Hm & Ho). rewrite E in E1.
    injection E1 as <- <-. destruct Ho as [Hp Hf]. split_and!; [done|..]; cbn; rewrite Hf; [set_solver|].
    rewrite Hm, <- Hun. apply set_eq. intros x. destruct (decide (x = p)); set_solver.
  - destruct (frame_alloc_law s Hok) as (o & s1 & E1 & Hok' & Hm & Ho). rewrite E in E1.
    injection E1 as <- <-. destruct Ho as [He He']. split_and!; [done|..]; cbn; rewrite He'; set_solver.
  - destruct (frame_alloc_much_law s n Hok Hn) as (o & s1 & E1 & Hok' & Hm & Ho). rewrite E in E1.
    injection E1 as <- <-. destruct Ho as (_ & Hsub & Hf).
    split_and!; [done|..]; cbn; rewrite Hf; [set_solver|].
    rewrite Hm, <- Hun. apply set_eq. intros x. destruct (decide (x ∈ (list_to_set l : gset Z))); set_solver.
  - destruct (frame_alloc_much_law s n Hok Hn) as (o & s1 & E1 & Hok' & Hm & Ho). rewrite E in E1.
    injection E1 as <- <-. by subst.
  - destruct (frame_unalloc_law s p Hok) as (s1 & E1 & Hok' & Hm & Hf); [set_solver|].
    rewrite E in E1. injection E1 as <-. split_and!; [done|..]; cbn; rewrite Hf; [set_solver|].
    rewrite Hm, <- Hun. apply set_eq. intros x. destruct (decide (x = p)); set_solver.
Qed.

Lemma ownership_steps st st' : ownership_inv st → rtc frame_step st st' → ownership_inv st'.
Proof. intros Hi Hs. induction Hs; eauto using ownership_step. Qed.
End ownership.

(** C1: whatever sequence of allocations and drops the kernel performs, starting
    from an allocator none of whose frames is owned, the owned frames and the free
    frames partition the managed frames; so an allocation never hands out a frame
    that is still owned, it fails only when no frame is free, and dropping an owned
    frame never panics and makes it free again. *)
Theorem frame_ownership_safe (fa fa' : FrameAllocator) (own : gset Z) :
  fa_wf fa → fa_free fa = fa_managed fa → rtc frame_step (fa, ∅) (fa', own) →
  own ## fa_free fa' ∧ own ∪ fa_free fa' = fa_managed fa' ∧
  (∃ o fa2, FrameAllocator_alloc fa' = Ret (o, fa2) ∧
     match o with Some p => (p ∉ own) ∧ p ∈ fa_managed fa' | None => own = fa_managed fa' end) ∧
  (∀ p, p ∈ own → ∃ fa2, FrameAllocator_dealloc fa' p = Ret fa2 ∧ p ∈ fa_free fa2).
Proof.
  intros Hwf Hall Hs. assert (ownership_inv (fa', own)) as (Hok & Hd & Hun).
  { eapply ownership_steps; [|exact Hs]. split_and!; cbn; [done|set_solver|set_solver]. }
  cbn [fst snd] in *. split_and!; [done|done| |].
  - destruct (frame_alloc_law fa' Hok) as (o & fa2 & E & _ & _ & Ho). exists o, fa2. split; [done|].
    cbn in Hun, Hd, Ho. destruct o as [p|]; [set_solver|]. destruct Ho as [He _].
    rewrite He in Hun. set_solver.
  - intros p Hp. destruct (frame_unalloc_law fa' p Hok) as (fa2 & E & _ & _ & Hf); [set_solver|].
    exists fa2. split; [done|]. cbn in Hf. rewrite Hf. set_solver.
Qed.

(** C17: [alloc_much] is a first-fit search: for a positive request on a well-formed
    region it returns exactly the lowest run of [pages] consecutive free frames and
    marks those frames and no others as used; it answers [None], leaving the region
    unchanged, precisely when the region has no such run. *)
Theorem alloc_much_first_fit (r : FrameRegionMap) (pages : Z) : region_wf r → 0 < pages →
  ∃ o r', FrameRegionMap_alloc_much r pages = Ret (o, r') ∧ region_wf r' ∧
    match o with
    | Some l => ∃ s, run_free r s pages ∧ (∀ u, run_free r u pages → s ≤ u) ∧
        l = frames_from (frame_at r s) pages ∧ region_free r' = region_free r ∖ list_to_set l
    | None => r' = r ∧ ∀ s, ¬ run_free r s pages
    end.
Proof.
  intros Hwf Hp. destruct (region_alloc_much_spec r pages Hwf Hp) as (o & r' & E & Hwf' & _ & _ & Heff).
  exists o, r'. split_and!; [done|done|]. destruct o as [l|]; [|done].
  destruct Heff as (s & ? & ? & -> & ?). exists s. by rewrite <- run_frames_from.
Qed.

(** The free-page count the kernel reports (word by word, with the shortcut
    for all-zero words) is the number of free frames, not counting the padding bits
    of the last bitmap word; so a single-frame allocation succeeds exactly when the
    count is positive, and it then lowers the count by one. *)
Theorem free_page_count_exact (fa : FrameAllocator) : fa_wf fa →
  FrameAllocator_get_free_page_count fa = Z.of_nat (size (fa_free fa)) ∧
  ∃ o fa', FrameAllocator_alloc fa = Ret (o, fa') ∧
    (is_Some o ↔ 0 < FrameAllocator_get_free_page_count fa) ∧
    FrameAllocator_get_free_page_count fa' =
      FrameAllocator_get_free_page_count fa - (match o with Some _ => 1 | None => 0 end).
Proof.
  intros Hwf. split; [by apply fa_count_spec|].
  destruct (fa_alloc_spec fa Hwf) as (o & fa' & E & Hwf' & _ & Ho). exists o, fa'. split; [done|].
  rewrite !fa_count_spec by done. destruct o as [p|].
  - destruct Ho as [Hp ->]. rewrite size_difference by set_solver. rewrite size_singleton.
    assert (size (fa_free fa) ≠ 0%nat) by (apply size_non_empty_iff; set_solver).
    split; [|lia]. split; [lia|by eauto].
  - destruct Ho as [-> ->]. rewrite size_empty. split; [|done]. split; [by intros [? ?]|lia].
Qed.

(** Registering memory with [add_frame_map] (physical addresses, below the
    direct map) on a disjoint range yields a well-formed allocator that has gained
    exactly the page frames lying fully inside the registered range. *)
Theorem add_frame_map_frames (VIRT_ADDR_START : Z) (fa : FrameAllocator) (s e : Z) :
  fa_wf fa → 0 ≤ s → s + PAGE_SIZE ≤ e → e < USIZE →
  (∀ a, s ≤ a ≤ e → Z.ldiff a VIRT_ADDR_START = a) →
  Forall (λ r, paddr_end r ≤ s ∨ e ≤ paddr r) fa →
  ∃ fa', add_frame_map VIRT_ADDR_START fa s e = Ret fa' ∧ fa_wf fa' ∧
    ∀ a, a ∈ fa_free fa' ↔ a ∈ fa_free fa ∨ (a mod PAGE_SIZE = 0 ∧ s ≤ a ∧ a + PAGE_SIZE ≤ e).
Proof.
  intros Hwf Hs Hse He Hv Hd. unfold add_frame_map.
  assert (s ≤ alignup s PAGE_SIZE < s + PAGE_SIZE ∧
    alignup s PAGE_SIZE = div_ceil s PAGE_SIZE * PAGE_SIZE) as [Es Es'] by (apply alignup_spec; lia).
  assert (e - PAGE_SIZE < aligndown e PAGE_SIZE ≤ e ∧
    aligndown e PAGE_SIZE = e / PAGE_SIZE * PAGE_SIZE) as [Ed Ed'] by (apply aligndown_spec; unfold PAGE_SIZE in *; lia).
  assert (alignup s PAGE_SIZE ≤ aligndown e PAGE_SIZE) as Hle by (unfold PAGE_SIZE in *; lia).
  rewrite !Hv by lia.
  destruct (add_memory_region_spec fa (alignup s PAGE_SIZE) (aligndown e PAGE_SIZE)) as (fa' & E & Hwf' & Hf);
    try done; try lia.
  { rewrite Es'. by apply Z.mod_mul. }
  { rewrite Ed'. by apply Z.mod_mul. }
  { eapply Forall_impl; [done|]. intros r. cbn. lia. }
  exists fa'. split_and!; [done|done|]. intros a. rewrite Hf, elem_of_union. apply or_iff_compat_l.
  rewrite elem_of_list_to_set. unfold frames_from. rewrite list_elem_of_fmap.
  setoid_rewrite elem_of_seqZ. rewrite Ed', Es' in *. rewrite <- Z.mul_sub_distr_r, Z.div_mul by done. split.
  - intros (i & -> & Hi). rewrite <- Z.mul_add_distr_r. rewrite Z.mod_mul by done.
    unfold PAGE_SIZE in *. lia.
  - intros (Hm & Hsa' & Hae). exists (a / PAGE_SIZE - div_ceil s PAGE_SIZE).
    pose proof (page_div_mul a Hm). unfold PAGE_SIZE in *. lia.
Qed.

(** ** Witnesses: a region of two frames at 0x2000 *)

Definition demo_region : FrameRegionMap := mkRegion [18446744073709551612] 8192 16384.

Lemma demo_region_wf : region_wf demo_region.
Proof.
  destruct (region_new_spec 8192 16384) as (r & E & Hwf & _); [lia|done|done|done|].
  vm_compute in E. injection E as <-. exact Hwf.
Qed.

Lemma demo_fa_wf : fa_wf [demo_region].
Proof. constructor; [apply demo_region_wf|done|constructor]. Qed.

Lemma frame_ownership_safe_witness :
  ∃ fa', {[8192]} ## fa_free fa' ∧ {[8192]} ∪ fa_free fa' = fa_managed fa'.
Proof.
  exists [mkRegion [18446744073709551613] 8192 16384].
  destruct (frame_ownership_safe [demo_region] [mkRegion [18446744073709551613] 8192 16384] {[8192]})
    as (H1 & H2 & _).
  - exact demo_fa_wf.
  - vm_compute. reflexivity.
  - apply rtc_once. replace ({[8192]} : gset Z) with ({[8192]} ∪ ∅ : gset Z) by (vm_compute; reflexivity).
    apply step_alloc. vm_compute. reflexivity.
  - exact (conj H1 H2).
Defined.

Lemma alloc_much_first_fit_witness :
  ∃ o r', FrameRegionMap_alloc_much demo_region 2 = Ret (o, r') ∧ o = Some [8192; 12288].
Proof.
  destruct (alloc_much_first_fit demo_region 2) as (o & r' & E & _ & _); [exact demo_region_wf|lia|].
  exists o, r'. split; [exact E|]. vm_compute in E. congruence.
Defined.

Lemma free_page_count_exact_witness :
  FrameAllocator_get_free_page_count [demo_region] = 2 ∧ size (fa_free [demo_region]) = 2%nat.
Proof.
  destruct (free_page_count_exact [demo_region] demo_fa_wf) as [E _]. split.
  - vm_compute. reflexivity.
  - apply Nat2Z.inj. rewrite <- E. vm_compute. reflexivity.
Defined.

Lemma add_frame_map_frames_witness :
  ∃ fa', add_frame_map (Z.shiftl 67108863 38) [] 2147483649 2147491840 = Ret fa' ∧
    2147487744 ∈ fa_free fa'.
Proof.
  destruct (add_frame_map_frames (Z.shiftl 67108863 38) [] 2147483649 2147491840) as (fa' & E & _ & Hf).
  - constructor.
  - lia.
  - unfold PAGE_SIZE; lia.
  - reflexivity.
  - intros a Ha. apply Z.bits_inj'. intros n Hn. rewrite Z.ldiff_spec, Z.shiftl_spec by lia.
    destruct (decide (n < 38)).
    + rewrite (Z.testbit_neg_r _ (n - 38)) by lia. apply andb_true_r.
    + rewrite (Z.bits_above_log2 a n); [reflexivity|lia|]. apply Z.log2_lt_pow2; [lia|].
      pose proof (Z.pow_le_mono_r 2 38 n ltac:(lia) ltac:(lia)). lia.
  - constructor.
  - exists fa'. split; [exact E|]. apply Hf. right. unfold PAGE_SIZE. split; [reflexivity|lia].
Defined.
