(* ===== verification/Signal.v ===== *)
(** * Signals

    Models crates/signal/src/lib.rs ([SignalFlags], [SigProcMask], [SigAction]),
    kernel/src/tasks/signal.rs ([SignalList]), the delivery loop
    [UserTaskContainer::check_signal] of kernel/src/user/entry.rs and the signal
    system calls of kernel/src/syscall/signal.rs and task.rs.  Pending signals are
    bit [n - 1] of a 64-bit word for signal number [n]; real-time signals that are
    already pending are counted in a per-thread queue.  The theorems relate the
    words to sets of signal numbers and show what the delivery loop delivers. *)

From S2P Require Import Prelude.

Definition REAL_TIME_SIGNAL_NUM : Z := 33.

(** The [bit!] macro. *)
Definition bit_of (x : Z) : Z := Z.shiftl 1 x.

(** ** [SignalFlags] *)

Definition SIGHUP : Z := bit_of 0.
Definition SIGINT : Z := bit_of 1.
Definition SIGQUIT : Z := bit_of 2.
Definition SIGILL : Z := bit_of 3.
Definition SIGTRAP : Z := bit_of 4.
Definition SIGABRT : Z := bit_of 5.
Definition SIGBUS : Z := bit_of 6.
Definition SIGFPE : Z := bit_of 7.
Definition SIGKILL : Z := bit_of 8.
Definition SIGUSR1 : Z := bit_of 9.
Definition SIGSEGV : Z := bit_of 10.
Definition SIGUSR2 : Z := bit_of 11.
Definition SIGPIPE : Z := bit_of 12.
Definition SIGALRM : Z := bit_of 13.
Definition SIGTERM : Z := bit_of 14.
Definition SIGSTKFLT : Z := bit_of 15.
Definition SIGCHLD : Z := bit_of 16.
Definition SIGCONT : Z := bit_of 17.
Definition SIGSTOP : Z := bit_of 18.
Definition SIGTSTP : Z := bit_of 19.
Definition SIGTTIN : Z := bit_of 20.
Definition SIGTTOU : Z := bit_of 21.
Definition SIGURG : Z := bit_of 22.
Definition SIGXCPU : Z := bit_of 23.
Definition SIGXFSZ : Z := bit_of 24.
Definition SIGVTALRM : Z := bit_of 25.
Definition SIGPROF : Z := bit_of 26.
Definition SIGWINCH : Z := bit_of 27.
Definition SIGIO : Z := bit_of 28.
Definition SIGPWR : Z := bit_of 29.
Definition SIGSYS : Z := bit_of 30.
Definition SIGTIMER : Z := bit_of 31.
Definition SIGCANCEL : Z := bit_of 32.
Definition SIGSYNCCALL : Z := bit_of 33.
Definition SIGIOT : Z := SIGABRT.

(** The declared flags with their bit numbers. *)
Definition SignalFlags_table : list (string * Z) :=
  [("SIGHUP", 0); ("SIGINT", 1); ("SIGQUIT", 2); ("SIGILL", 3); ("SIGTRAP", 4); ("SIGABRT", 5);
   ("SIGBUS", 6); ("SIGFPE", 7); ("SIGKILL", 8); ("SIGUSR1", 9); ("SIGSEGV", 10); ("SIGUSR2",
   11); ("SIGPIPE", 12); ("SIGALRM", 13); ("SIGTERM", 14); ("SIGSTKFLT", 15); ("SIGCHLD", 16);
   ("SIGCONT", 17); ("SIGSTOP", 18); ("SIGTSTP", 19); ("SIGTTIN", 20); ("SIGTTOU", 21);
   ("SIGURG", 22); ("SIGXCPU", 23); ("SIGXFSZ", 24); ("SIGVTALRM", 25); ("SIGPROF", 26);
   ("SIGWINCH", 27); ("SIGIO", 28); ("SIGPWR", 29); ("SIGSYS", 30); ("SIGTIMER", 31);
   ("SIGCANCEL", 32); ("SIGSYNCCALL", 33); ("SIGRT_3", 34); ("SIGRT_4", 35); ("SIGRT_5", 36);
   ("SIGRT_6", 37); ("SIGRT_7", 38); ("SIGRT_8", 39); ("SIGRT_9", 40); ("SIGRT_10", 41);
   ("SIGRT_11", 42); ("SIGRT_12", 43); ("SIGRT_13", 44); ("SIGRT_14", 45); ("SIGRT_15", 46);
   ("SIGRT_16", 47); ("SIGRT_17", 48); ("SIGRT_18", 49); ("SIGRT_19", 50); ("SIGRT_20", 51);
   ("SIGRT_21", 52); ("SIGRT_22", 53); ("SIGRT_23", 54); ("SIGRT_24", 55); ("SIGRT_25", 56);
   ("SIGRT_26", 57); ("SIGRT_27", 58); ("SIGRT_28", 59); ("SIGRT_29", 60); ("SIGRT_30", 61);
   ("SIGRT_31", 62); ("SIGRTMAX", 63)].

Definition SignalFlags_all : Z := foldr (λ f acc, Z.lor (bit_of f.2) acc) 0 SignalFlags_table.

(** [from_bits_truncate] keeps the declared bits. *)
Definition from_bits_truncate (b : Z) : Z := Z.land b SignalFlags_all.

(** [1 << n] on a 64-bit word: the shift amount is taken modulo 64. *)
Definition shl1 (n : Z) : Z := Z.shiftl 1 (n mod 64).

Definition from_num (num : Z) : Z := from_bits_truncate (shl1 (num -u 1)).

Definition num (bits : Z) : Z :=
  match List.find (λ i, Z.testbit bits i) (seqZ 0 64) with Some i => i + 1 | None => 0 end.

Definition is_real_time (bits : Z) : bool := bool_decide (Z.land bits 0xFFFFFFFE00000000 ≠ 0).

Definition real_time_index (bits : Z) : option Z :=
  if is_real_time bits then Some (num bits -u 32) else None.

(** ** Masks and actions *)

Inductive SigMaskHow := Block | Unblock | Setmask.

Definition SigMaskHow_from_usize (how : Z) : option SigMaskHow :=
  match how with 0 => Some Block | 1 => Some Unblock | 2 => Some Setmask | _ => None end.

Record SigProcMask := mkMask { sp_mask : Z }.

Definition SigProcMask_new : SigProcMask := mkMask 0.

(** [!x] on a 64-bit word. *)
Definition not64 (x : Z) : Z := Z.ldiff usize_max x.

Definition SigProcMask_handle (self : SigProcMask) (how : SigMaskHow) (mask : SigProcMask) : SigProcMask :=
  mkMask match how with
         | Block => Z.lor (sp_mask self) (sp_mask mask)
         | Unblock => Z.land (sp_mask self) (not64 (sp_mask mask))
         | Setmask => sp_mask mask
         end.

Definition masked (self : SigProcMask) (signum : Z) : bool :=
  bool_decide (Z.land (Z.shiftr (sp_mask self) (signum mod 64)) 1 = 0).

Record SigAction := mkAction {
  sa_handler : Z;
  sa_flags : Z;
  sa_restorer : Z;
  sa_mask : SigProcMask;
}.

Definition SigAction_new : SigAction :=
  {| sa_handler := 0; sa_mask := SigProcMask_new; sa_flags := 0; sa_restorer := 0 |}.

#[export] Instance SigProcMask_eq_dec : EqDecision SigProcMask.
Proof. solve_decision. Defined.
#[export] Instance SigAction_eq_dec : EqDecision SigAction.
Proof. solve_decision. Defined.

(** ** [SignalList]: the pending word *)

Definition SignalList_new : Z := 0.
Definition add_signal (self signal : Z) : Z := Z.lor self signal.
Definition has_signal (self : Z) : bool := bool_decide (self ≠ 0).
Definition try_get_signal (self : Z) : option Z :=
  match List.find (λ i, bool_decide (Z.land self (shl1 i) ≠ 0)) (seqZ 0 64) with
  | Some i => Some (from_bits_truncate (shl1 i))
  | None => None
  end.
Definition remove_signal (self signal : Z) : Z := Z.land self (not64 signal).
Definition has_sig (self signal : Z) : bool := bool_decide (Z.land self signal ≠ 0).
Definition SignalList_mask (self : Z) (mask : SigProcMask) : Z := Z.land (not64 (sp_mask mask)) self.

(** ** A thread's signal state and the delivery loop *)

Record ThreadSignals := mkThread {
  sigmask : SigProcMask;
  signal : Z;
  signal_queue : list Z;
}.

Definition set_signal (t : ThreadSignals) (s : Z) : ThreadSignals :=
  mkThread (sigmask t) s (signal_queue t).

Definition ThreadSignals_new : ThreadSignals :=
  mkThread SigProcMask_new SignalList_new (replicate (Z.to_nat REAL_TIME_SIGNAL_NUM) 0).

(** [signal_queue[index]] reads, or panics out of range. *)
Definition queue_at (q : list Z) (index : Z) : outcome Z := unwrap (q !! Z.to_nat index).

(** Posting a signal, the common tail of [sys_tkill] and [sys_tgkill]: a pending
    real-time signal is counted, any other pending signal is merged. *)
Definition post_signal (t : ThreadSignals) (signum : Z) : outcome ThreadSignals :=
  let target_signal := from_num signum in
  if has_sig (signal t) target_signal then
    match real_time_index target_signal with
    | Some index =>
        c ← queue_at (signal_queue t) index;
        Ret (mkThread (sigmask t) (signal t) (<[Z.to_nat index := c +u 1]> (signal_queue t)))
    | None => Ret t
    end
  else Ret (set_signal t (add_signal (signal t) target_signal)).

Section delivery.
(** What handling a signal does to the thread's signal state. *)
Context (handle_signal : Z → ThreadSignals → ThreadSignals).

(** One turn of the loop: [None] when no unmasked signal is pending. *)
Definition check_signal_turn (t : ThreadSignals) : outcome (option (Z * ThreadSignals)) :=
  match try_get_signal (SignalList_mask (signal t) (sigmask t)) with
  | None => Ret None
  | Some sig =>
      let t := handle_signal sig t in
      let t := set_signal t (remove_signal (signal t) sig) in
      match real_time_index sig with
      | None => Ret (Some (sig, t))
      | Some index =>
          c ← queue_at (signal_queue t) index;
          if decide (0 < c) then
            Ret (Some (sig, mkThread (sigmask t) (add_signal (signal t) sig)
                                     (<[Z.to_nat index := c -u 1]> (signal_queue t))))
          else Ret (Some (sig, t))
      end
  end.

(** The loop, with the list of signals it delivered; [None] is out of fuel. *)
Fixpoint check_signal (fuel : nat) (t : ThreadSignals) : option (outcome (list Z * ThreadSignals)) :=
  match fuel with
  | O => None
  | S fuel =>
      match check_signal_turn t with
      | Panic => Some Panic
      | Ret None => Some (Ret ([], t))
      | Ret (Some (sig, t)) =>
          match check_signal fuel t with
          | Some (Ret (l, t')) => Some (Ret (sig :: l, t'))
          | o => o
          end
      end
  end.
End delivery.

(** ** System calls *)

(** User memory as far as these calls touch it: the word at an address. *)
Definition sys_sigprocmask (t : ThreadSignals) (umem : gmap Z SigProcMask) (how set oldset : Z)
    : result Z * ThreadSignals * gmap Z SigProcMask :=
  match SigMaskHow_from_usize how with
  | None => (Err EINVAL, t, umem)
  | Some how =>
      let umem := if decide (oldset ≠ 0) then <[oldset := sigmask t]> umem else umem in
      let t := if decide (set ≠ 0) then
                 mkThread (SigProcMask_handle (sigmask t) how (default SigProcMask_new (umem !! set)))
                          (signal t) (signal_queue t)
               else t in
      (Ok 0, t, umem)
  end.

Definition sys_sigaction (sigaction : list SigAction) (umem : gmap Z SigAction) (sig act oldact : Z)
    : outcome (result Z * list SigAction * gmap Z SigAction) :=
  umem ← (if decide (oldact ≠ 0) then
            a ← unwrap (sigaction !! Z.to_nat sig); Ret (<[oldact := a]> umem)
          else Ret umem);
  sigaction ← (if decide (act ≠ 0) then
                 _ ← unwrap (sigaction !! Z.to_nat sig);
                 Ret (<[Z.to_nat sig := default SigAction_new (umem !! act)]> sigaction)
               else Ret sigaction);
  Ret (Ok 0, sigaction, umem).

(** [sys_kill]: [tasks] is the task map, [None] for a task that is not a user task. *)
Definition sys_kill (tasks : gmap Z (option ThreadSignals)) (pid signum : Z)
    : result Z * gmap Z (option ThreadSignals) :=
  let sig := from_num signum in
  match tasks !! pid with
  | Some (Some t) => (Ok 0, <[pid := Some (set_signal t (add_signal (signal t) sig))]> tasks)
  | _ => (Err ESRCH, tasks)
  end.

(** ** Words as sets of signal numbers *)

Lemma SignalFlags_all_bits : SignalFlags_all = usize_max.
Proof. reflexivity. Qed.

Lemma usize_max_testbit i : 0 ≤ i → Z.testbit usize_max i = bool_decide (i < 64).
Proof.
  intros Hi. change usize_max with (Z.ones 64). case_bool_decide.
  - apply Z.ones_spec_low. lia.
  - apply Z.ones_spec_high. lia.
Qed.

Lemma shl1_testbit n j : 0 ≤ j → Z.testbit (shl1 n) j = bool_decide (j = n mod 64).
Proof.
  intros Hj. unfold shl1. rewrite Z.shiftl_1_l, Z.pow2_bits_eqb by (apply Z.mod_pos_bound; lia).
  case_bool_decide; [apply Z.eqb_eq|apply Z.eqb_neq]; lia.
Qed.

Lemma not64_testbit x j : 0 ≤ j < 64 → Z.testbit (not64 x) j = negb (Z.testbit x j).
Proof.
  intros Hj. unfold not64. rewrite Z.ldiff_spec, usize_max_testbit by lia.
  by rewrite bool_decide_eq_true_2 by lia.
Qed.

Lemma truncate_shl1 n : from_bits_truncate (shl1 n) = shl1 n.
Proof.
  unfold from_bits_truncate. rewrite SignalFlags_all_bits. apply Z.bits_inj'. intros j Hj.
  rewrite Z.land_spec, usize_max_testbit, shl1_testbit by done.
  pose proof (Z.mod_pos_bound n 64). do 2 case_bool_decide; (done || lia).
Qed.

Lemma from_num_shl1 n : 1 ≤ n ≤ 64 → from_num n = shl1 (n - 1).
Proof. intros Hn. unfold from_num. unwrap_u. apply truncate_shl1. Qed.

Lemma land_shl1 w i : 0 ≤ i < 64 → bool_decide (Z.land w (shl1 i) ≠ 0) = Z.testbit w i.
Proof.
  intros Hi. assert (Z.land w (shl1 i) = if Z.testbit w i then shl1 i else 0) as ->.
  { apply Z.bits_inj'. intros j Hj. rewrite Z.land_spec, shl1_testbit by done.
    rewrite Z.mod_small by lia. case_bool_decide as E.
    - subst. destruct (Z.testbit w i); [|by rewrite Z.testbit_0_l]. rewrite shl1_testbit, Z.mod_small by lia.
      by rewrite bool_decide_eq_true_2.
    - rewrite andb_false_r. destruct (Z.testbit w i); [|by rewrite Z.testbit_0_l].
      rewrite shl1_testbit, Z.mod_small by lia. by rewrite bool_decide_eq_false_2. }
  assert (shl1 i ≠ 0).
  { intros E. pose proof (shl1_testbit i i ltac:(lia)) as Hb. rewrite E, Z.testbit_0_l in Hb.
    rewrite Z.mod_small, bool_decide_eq_true_2 in Hb by lia. done. }
  destruct (Z.testbit w i); case_bool_decide; congruence.
Qed.

(** The signal numbers of a word. *)
Definition sig_set (w : Z) : gset Z :=
  list_to_set (filter (λ n, Z.testbit w (n - 1) = true) (seqZ 1 64)).

Lemma elem_sig_set w n : n ∈ sig_set w ↔ 1 ≤ n ≤ 64 ∧ Z.testbit w (n - 1) = true.
Proof.
  unfold sig_set. rewrite elem_of_list_to_set, list_elem_of_filter, elem_of_seqZ. naive_solver lia.
Qed.

Lemma sig_set_bit w i : 0 ≤ i < 64 → (i + 1 ∈ sig_set w) ↔ Z.testbit w i = true.
Proof. intros Hi. rewrite elem_sig_set. replace (i + 1 - 1) with i by lia. naive_solver lia. Qed.

Lemma add_signal_set w n : 1 ≤ n ≤ 64 → sig_set (add_signal w (from_num n)) = {[n]} ∪ sig_set w.
Proof.
  intros Hn. apply set_eq. intros m. rewrite elem_of_union, elem_of_singleton, !elem_sig_set.
  unfold add_signal. rewrite Z.lor_spec, from_num_shl1 by done.
  destruct (decide (1 ≤ m ≤ 64)); [|naive_solver lia].
  rewrite shl1_testbit, Z.mod_small, orb_true_iff, bool_decide_eq_true by lia. naive_solver lia.
Qed.

Lemma remove_signal_set w n : 1 ≤ n ≤ 64 → sig_set (remove_signal w (from_num n)) = sig_set w ∖ {[n]}.
Proof.
  intros Hn. apply set_eq. intros m. rewrite elem_of_difference, elem_of_singleton, !elem_sig_set.
  unfold remove_signal. rewrite Z.land_spec, from_num_shl1 by done.
  destruct (decide (1 ≤ m ≤ 64)); [|naive_solver lia].
  rewrite not64_testbit, shl1_testbit, Z.mod_small, andb_true_iff, negb_true_iff, bool_decide_eq_false by lia.
  naive_solver lia.
Qed.

Lemma mask_signal_set w m : sig_set (SignalList_mask w m) = sig_set w ∖ sig_set (sp_mask m).
Proof.
  apply set_eq. intros n. rewrite elem_of_difference, !elem_sig_set. unfold SignalList_mask.
  rewrite Z.land_spec. destruct (decide (1 ≤ n ≤ 64)); [|naive_solver lia].
  rewrite not64_testbit, andb_true_iff, negb_true_iff by lia.
  destruct (Z.testbit (sp_mask m) (n - 1)); naive_solver.
Qed.

Lemma has_sig_set w n : 1 ≤ n ≤ 64 → has_sig w (from_num n) = true ↔ n ∈ sig_set w.
Proof.
  intros Hn. unfold has_sig. rewrite from_num_shl1, land_shl1, elem_sig_set by lia. naive_solver.
Qed.

(** Scanning for the lowest set bit. *)
Lemma find_testbit w (f : Z → bool) : (∀ i, 0 ≤ i < 64 → f i = Z.testbit w i) →
  match List.find f (seqZ 0 64) with
  | Some i => 0 ≤ i < 64 ∧ i + 1 ∈ sig_set w ∧ ∀ n, n ∈ sig_set w → i + 1 ≤ n
  | None => sig_set w = ∅
  end.
Proof.
  intros Hf. destruct (List.find f (seqZ 0 64)) as [i|] eqn:E.
  - apply find_seqZ_Some in E as (Hi & Hfi & Hlow). rewrite Hf in Hfi by lia.
    split_and!; [lia|lia|by apply sig_set_bit; [lia|]|].
    intros n [Hn Hb]%elem_sig_set. destruct (decide (i + 1 ≤ n)); [done|].
    rewrite <- Hf, Hlow in Hb by lia. done.
  - apply elem_of_equiv_empty_L. intros n [Hn Hb]%elem_sig_set.
    pose proof (proj1 (find_seqZ_None _ _ _) E (n - 1) ltac:(lia)) as Hf'.
    rewrite Hf in Hf' by lia. congruence.
Qed.

Lemma try_get_signal_set w :
  match try_get_signal w with
  | Some s => ∃ n, s = from_num n ∧ n ∈ sig_set w ∧ ∀ m, m ∈ sig_set w → n ≤ m
  | None => sig_set w = ∅
  end.
Proof.
  unfold try_get_signal. pose proof (find_testbit w _ (λ i Hi, land_shl1 w i Hi)) as Hf.
  destruct (List.find _ _) as [i|]; [|done]. destruct Hf as (Hi & Hin & Hlow).
  exists (i + 1). split_and!; [|done|done]. rewrite from_num_shl1, truncate_shl1 by lia. f_equal. lia.
Qed.

Lemma num_set w :
  match num w with
  | 0 => sig_set w = ∅
  | n => n ∈ sig_set w ∧ ∀ m, m ∈ sig_set w → n ≤ m
  end.
Proof.
  unfold num. pose proof (find_testbit w (Z.testbit w) (λ i _, eq_refl)) as Hf.
  destruct (List.find _ _) as [i|]; [|done]. destruct Hf as (Hi & Hin & Hlow).
  destruct (i + 1) eqn:E; [lia|done|lia].
Qed.

Lemma sig_set_from_num n : 1 ≤ n ≤ 64 → sig_set (from_num n) = {[n]}.
Proof.
  intros Hn. replace (from_num n) with (add_signal 0 (from_num n)) by done.
  rewrite add_signal_set by done. replace (sig_set 0) with (∅ : gset Z) by (vm_compute; reflexivity). set_solver.
Qed.

Lemma num_from_num n : 1 ≤ n ≤ 64 → num (from_num n) = n.
Proof.
  intros Hn. pose proof (num_set (from_num n)) as H. rewrite (sig_set_from_num n Hn) in H.
  destruct (num (from_num n)); set_solver.
Qed.

Lemma is_real_time_from_num n : 1 ≤ n ≤ 64 → is_real_time (from_num n) = bool_decide (34 ≤ n).
Proof.
  intros Hn. rewrite from_num_shl1 by done. unfold is_real_time. rewrite Z.land_comm, land_shl1 by lia.
  change 0xFFFFFFFE00000000 with (Z.shiftl (Z.ones 31) 33).
  rewrite Z.shiftl_spec by lia. case_bool_decide.
  - apply Z.ones_spec_low. lia.
  - apply Z.testbit_neg_r. lia.
Qed.

Lemma real_time_index_from_num n : 1 ≤ n ≤ 64 →
  real_time_index (from_num n) = if decide (34 ≤ n) then Some (n - 32) else None.
Proof.
  intros Hn. unfold real_time_index. rewrite is_real_time_from_num, num_from_num by done.
  case_bool_decide; case_decide; try lia; [|done]. by unwrap_u.
Qed.

(** ** The delivery loop *)

Record signals_ok (t : ThreadSignals) : Prop := {
  ok_queue_len : length (signal_queue t) = Z.to_nat REAL_TIME_SIGNAL_NUM;
  ok_queue : Forall is_usize (signal_queue t);
}.

(** How often signal [n] was queued besides being pending. *)
Definition queued (t : ThreadSignals) (n : Z) : nat :=
  if decide (34 ≤ n) then Z.to_nat (default 0 (signal_queue t !! Z.to_nat (n - 32))) else 0.

(** How often signal [n] is due for delivery. *)
Definition due (t : ThreadSignals) (n : Z) : nat :=
  if decide (n ∈ sig_set (signal t) ∖ sig_set (sp_mask (sigmask t))) then S (queued t n) else 0.

(** All due deliveries in the order of the signal numbers. *)
Definition deliveries (f : Z → nat) (l : list Z) : list Z := concat ((λ n, replicate (f n) n) <$> l).

Lemma deliveries_ext f g l : (∀ n, n ∈ l → f n = g n) → deliveries f l = deliveries g l.
Proof.
  intros Hfg. unfold deliveries. f_equal. apply list_fmap_ext. intros i x Hx.
  rewrite Hfg; [done|]. by eapply list_elem_of_lookup_2.
Qed.

Lemma deliveries_cons f x l : deliveries f (x :: l) = replicate (f x) x ++ deliveries f l.
Proof. done. Qed.

(** Taking one delivery of the lowest due number off the schedule. *)
Lemma deliveries_pop f g n l : NoDup l → n ∈ l → (0 < f n)%nat →
  (∀ l1 l2, l = l1 ++ n :: l2 → ∀ m, m ∈ l1 → f m = 0%nat) →
  (∀ m, m ∈ l → g m = if decide (m = n) then pred (f n) else f m) →
  deliveries f l = n :: deliveries g l.
Proof.
  intros Hnd Hin Hpos Hlow Hg. apply list_elem_of_split in Hin as (l1 & l2 & ->).
  assert (∀ m, m ∈ l1 → f m = 0%nat ∧ g m = 0%nat) as Hz.
  { intros m Hm. rewrite Hg by set_solver. rewrite decide_False; [by eauto|].
    intros ->. apply NoDup_app in Hnd as (_ & Hd & _). by apply (Hd n Hm); left. }
  assert (∀ h, (∀ m, m ∈ l1 → h m = 0%nat) →
    deliveries h (l1 ++ n :: l2) = replicate (h n) n ++ deliveries h l2) as Hskip.
  { intros h Hh. clear -Hh. induction l1 as [|x l1 IH]; [done|]. rewrite <- app_comm_cons, deliveries_cons.
    rewrite Hh by by left. apply IH. intros; apply Hh. by right. }
  rewrite !Hskip by naive_solver. rewrite (Hg n), decide_True by set_solver.
  rewrite (deliveries_ext g f l2).
  - by destruct (f n); [lia|].
  - intros m Hm. rewrite Hg by set_solver. rewrite decide_False; [done|]. intros ->.
    apply NoDup_app in Hnd as (_ & _ & Hnd2). apply NoDup_cons in Hnd2 as [? _]. done.
Qed.

Lemma queue_at_ok t n : signals_ok t → 34 ≤ n ≤ 64 →
  ∃ c, queue_at (signal_queue t) (n - 32) = Ret c ∧ is_usize c ∧
    signal_queue t !! Z.to_nat (n - 32) = Some c.
Proof.
  intros [Hlen Hq] Hn. unfold queue_at, REAL_TIME_SIGNAL_NUM in *.
  destruct (lookup_lt_is_Some_2 (signal_queue t) (Z.to_nat (n - 32))) as [c Hc]; [lia|].
  rewrite Hc. exists c. split_and!; try done. rewrite Forall_lookup in Hq. eauto.
Qed.

Lemma lookup_queue_insert (q : list Z) k c m : (k < length q)%nat →
  <[k := c]> q !! m = if decide (k = m) then Some c else q !! m.
Proof.
  intros Hk. case_decide; subst; [by apply list_lookup_insert_eq|by apply list_lookup_insert_ne].
Qed.

(** The numbers due for delivery: pending and not masked. *)
Definition deliverable (t : ThreadSignals) : gset Z := sig_set (signal t) ∖ sig_set (sp_mask (sigmask t)).

Lemma due_pos t n : n ∈ deliverable t ↔ (0 < due t n)%nat.
Proof. unfold due, deliverable. case_decide; naive_solver lia. Qed.

(** A delivered signal with nothing queued is no longer due. *)
Lemma due_removed t n m : 1 ≤ n ≤ 64 → n ∈ deliverable t → queued t n = 0%nat →
  due (set_signal t (remove_signal (signal t) (from_num n))) m =
  if decide (m = n) then pred (due t n) else due t m.
Proof.
  unfold deliverable. intros Hn Hin Hq. unfold due; cbn [signal sigmask set_signal].
  rewrite remove_signal_set by done. destruct (decide (m = n)) as [->|Hm].
  - rewrite (decide_True _ _ Hin), Hq. rewrite decide_False by set_solver. done.
  - unfold queued; cbn [signal_queue set_signal].
    destruct (decide (m ∈ sig_set (signal t) ∖ sig_set (sp_mask (sigmask t)))) as [Hd|Hd];
      [rewrite decide_True by set_solver|rewrite decide_False by set_solver]; done.
Qed.

Lemma readd_signal_set w n : 1 ≤ n ≤ 64 → n ∈ sig_set w →
  sig_set (add_signal (remove_signal w (from_num n)) (from_num n)) = sig_set w.
Proof.
  intros Hn Hin. rewrite add_signal_set, remove_signal_set by done.
  apply set_eq. intros x. destruct (decide (x = n)); set_solver.
Qed.

(** A delivered real-time signal with queued copies stays due, once less. *)
Lemma due_requeued t n c m : 34 ≤ n ≤ 64 → n ∈ deliverable t → 0 < c < USIZE →
  signal_queue t !! Z.to_nat (n - 32) = Some c →
  due (mkThread (sigmask t) (add_signal (remove_signal (signal t) (from_num n)) (from_num n))
                (<[Z.to_nat (n - 32) := c -u 1]> (signal_queue t))) m =
  if decide (m = n) then pred (due t n) else due t m.
Proof.
  unfold deliverable. intros Hn Hin Hc Hl. pose proof (lookup_lt_Some _ _ _ Hl) as Hlt.
  unfold due; cbn [signal sigmask]. rewrite readd_signal_set by (lia || set_solver).
  destruct (decide (m = n)) as [->|Hm].
  - rewrite !(decide_True _ _ Hin). unfold queued; cbn [signal_queue]. rewrite !decide_True by lia.
    rewrite lookup_queue_insert, decide_True, Hl by done. cbn. unwrap_u. lia.
  - case_decide as Hd; [|done]. f_equal. unfold queued; cbn [signal_queue]. case_decide; [|done].
    rewrite lookup_queue_insert, decide_False by (done || lia). done.
Qed.

(** One turn delivers the lowest due signal and takes one delivery off it. *)
Lemma check_signal_turn_spec (h : Z → ThreadSignals → ThreadSignals) t :
  (∀ sig t, h sig t = t) → signals_ok t →
  match check_signal_turn h t with
  | Panic => False
  | Ret None => deliverable t = ∅
  | Ret (Some (sig, t')) => ∃ n, sig = from_num n ∧ 1 ≤ n ≤ 64 ∧ signals_ok t' ∧
      sigmask t' = sigmask t ∧ n ∈ deliverable t ∧ (∀ m, m ∈ deliverable t → n ≤ m) ∧
      (∀ m, due t' m = if decide (m = n) then pred (due t n) else due t m) ∧
      sig_set (signal t') ∩ sig_set (sp_mask (sigmask t)) =
        sig_set (signal t) ∩ sig_set (sp_mask (sigmask t))
  end.
Proof.
  intros Hh Hok. unfold check_signal_turn.
  pose proof (try_get_signal_set (SignalList_mask (signal t) (sigmask t))) as Hg.
  rewrite mask_signal_set in Hg. destruct (try_get_signal _) as [sig|]; [|done].
  destruct Hg as (n & -> & Hn & Hlow). assert (1 ≤ n ≤ 64) as Hr.
  { apply elem_of_difference in Hn as [[? _]%elem_sig_set _]. lia. }
  rewrite Hh. cbn zeta. rewrite real_time_index_from_num by done. cbn [signal_queue signal sigmask set_signal].
  assert (sig_set (remove_signal (signal t) (from_num n)) ∩ sig_set (sp_mask (sigmask t)) =
    sig_set (signal t) ∩ sig_set (sp_mask (sigmask t))) as Hkeep.
  { rewrite remove_signal_set by done. set_solver. }
  case_decide as Hrt; last first.
  { exists n. split_and!; try done; try lia; [by destruct Hok; split|]. intros m. apply due_removed; [done..|].
    unfold queued. by rewrite decide_False by lia. }
  destruct (queue_at_ok t n Hok) as (c & -> & Hc & Hl); [lia|].
  change (Ret ?a ≫= ?f) with (f a). cbn beta. destruct Hok as [Hlen Hq]. case_decide as Hpos.
  - exists n. split_and!; try done; try lia.
    + split; cbn; [by rewrite length_insert|]. apply Forall_insert; [done|]. apply wrap_range.
    + intros m. apply due_requeued; [lia|done|destruct Hc; lia|done].
    + cbn [signal]. by rewrite readd_signal_set by set_solver.
  - exists n. split_and!; try done; try lia. intros m. apply due_removed; [done..|].
    unfold queued. rewrite decide_True, Hl by done. cbn. destruct Hc. lia.
Qed.

(** The whole loop. *)
Lemma check_signal_spec (h : Z → ThreadSignals → ThreadSignals) t fuel :
  (∀ sig t, h sig t = t) → signals_ok t →
  (length (deliveries (due t) (seqZ 1 64)) < fuel)%nat →
  ∃ t', check_signal h fuel t = Some (Ret (from_num <$> deliveries (due t) (seqZ 1 64), t')) ∧
    signals_ok t' ∧ sigmask t' = sigmask t ∧ deliverable t' = ∅ ∧
    sig_set (signal t') ∩ sig_set (sp_mask (sigmask t)) =
      sig_set (signal t) ∩ sig_set (sp_mask (sigmask t)).
Proof.
  intros Hh. revert t. induction fuel as [|fuel IH]; intros t Hok Hfuel; [lia|]. cbn [check_signal].
  pose proof (check_signal_turn_spec h t Hh Hok) as Ht. destruct (check_signal_turn h t) as [[[sig t1]|]|]; [| |done].
  - destruct Ht as (n & -> & Hr & Hok1 & Hmask & Hin & Hlow & Hdue & Hkeep).
    assert (deliveries (due t) (seqZ 1 64) = n :: deliveries (due t1) (seqZ 1 64)) as Hpop.
    { apply deliveries_pop; [apply NoDup_seqZ|apply elem_of_seqZ; lia|by apply due_pos| |by auto].
      intros l1 l2 El m Hm. destruct (due t m) eqn:Em; [done|]. exfalso.
      assert (n ≤ m) by (apply Hlow, due_pos; lia).
      apply list_elem_of_lookup in Hm as (k & Hk). pose proof (lookup_lt_Some _ _ _ Hk) as Hkl.
      assert (seqZ 1 64 !! k = Some m) as Hk' by (rewrite El; by apply lookup_app_l_Some).
      assert (seqZ 1 64 !! length l1 = Some n) as Hk2 by (rewrite El; by apply list_lookup_middle).
      apply lookup_seqZ in Hk' as [? _]. apply lookup_seqZ in Hk2 as [? _]. lia. }
    rewrite Hpop in Hfuel |- *. cbn [length] in Hfuel.
    destruct (IH t1 Hok1) as (t' & -> & Hok' & Hmask' & Hnone & Hkeep'); [lia|].
    exists t'. rewrite Hmask in *. split_and!; try done. by rewrite Hkeep', Hkeep.
  - exists t. split_and!; try done. replace (deliveries (due t) (seqZ 1 64)) with ([] : list Z); [done|].
    rewrite (deliveries_ext _ (λ _, 0%nat)); [done|]. intros n _.
    destruct (decide (0 < due t n)%nat) as [Hp%due_pos|]; [set_solver|lia].
Qed.

(** ** Posting *)

Lemma post_signal_spec t n : signals_ok t → 1 ≤ n ≤ 64 → Z.of_nat (queued t n) + 1 < USIZE →
  ∃ t', post_signal t n = Ret t' ∧ signals_ok t' ∧ sigmask t' = sigmask t ∧
    sig_set (signal t') = {[n]} ∪ sig_set (signal t) ∧
    ∀ m, queued t' m =
      if decide (m = n ∧ 34 ≤ n ∧ n ∈ sig_set (signal t)) then S (queued t n) else queued t m.
Proof.
  intros Hok Hn Hmax. unfold post_signal. rewrite real_time_index_from_num by done.
  destruct (has_sig (signal t) (from_num n)) eqn:Hs.
  - apply has_sig_set in Hs; [|done]. case_decide as Hrt.
    + destruct (queue_at_ok t n Hok) as (c & -> & Hc & Hl); [lia|].
      change (Ret ?a ≫= ?f) with (f a). cbn beta. eexists. split; [done|]. destruct Hok as [Hlen Hq].
      pose proof (lookup_lt_Some _ _ _ Hl) as Hlt. split_and!; cbn [sigmask signal]; [|done|set_solver|].
      { split; cbn; [by rewrite length_insert|]. apply Forall_insert; [done|]. apply wrap_range. }
      assert (queued t n = Z.to_nat c) as Hqc by (unfold queued; by rewrite decide_True, Hl by done).
      intros m. unfold queued at 1; cbn [signal_queue]. rewrite lookup_queue_insert by done.
      destruct (decide (m = n)) as [->|Hm].
      * rewrite !decide_True by done. rewrite Hqc in *. cbn. destruct Hc. unwrap_u. lia.
      * rewrite (decide_False (P := m = n ∧ _)) by naive_solver. unfold queued. case_decide; [|done].
        by rewrite decide_False by lia.
    + exists t. split_and!; try done; [set_solver|]. intros m. rewrite decide_False; [done|]. lia.
  - assert (n ∉ sig_set (signal t)) as Hns. { intros Hin%has_sig_set; [congruence|done]. }
    eexists. split; [done|]. cbn [sigmask signal set_signal]. rewrite add_signal_set by done.
    split_and!; try done; [by destruct Hok; split|]. intros m. rewrite decide_False; [done|]. naive_solver.
Qed.

Fixpoint post_times (k : nat) (n : Z) (t : ThreadSignals) : outcome ThreadSignals :=
  match k with O => Ret t | S k => t ← post_signal t n; post_times k n t end.

Lemma post_times_spec k n t : signals_ok t → 1 ≤ n ≤ 64 → n ∈ sig_set (signal t) →
  Z.of_nat (queued t n) + Z.of_nat k < USIZE - 1 →
  ∃ t', post_times k n t = Ret t' ∧ signals_ok t' ∧ sigmask t' = sigmask t ∧
    sig_set (signal t') = sig_set (signal t) ∧
    queued t' n = if decide (34 ≤ n) then (k + queued t n)%nat else queued t n.
Proof.
  revert t. induction k as [|k IH]; intros t Hok Hn Hin Hmax; cbn [post_times].
  { exists t. split_and!; try done. by case_decide. }
  destruct (post_signal_spec t n) as (t1 & -> & Hok1 & Hm1 & Hs1 & Hq1); [done|done|lia|].
  change (Ret ?a ≫= ?f) with (f a). cbn beta. specialize (Hq1 n).
  destruct (IH t1) as (t' & E & Hok' & Hm' & Hs' & Hq'); [done|done|set_solver| |].
  { rewrite Hq1. case_decide; lia. }
  exists t'. split_and!; [done|done|congruence|set_solver|]. rewrite Hq', Hq1.
  destruct (decide (34 ≤ n)); [rewrite decide_True by done; lia|rewrite decide_False by naive_solver; done].
Qed.

(** How often the loop delivers [n] is how often it is due. *)
Lemma count_deliveries f l n : NoDup l →
  count_occ Z.eq_dec (deliveries f l) n = if decide (n ∈ l) then f n else 0%nat.
Proof.
  induction 1 as [|x l Hx Hnd IH]; [done|]. rewrite deliveries_cons, count_occ_app, IH.
  assert (∀ k, count_occ Z.eq_dec (replicate k x) n = if decide (x = n) then k else 0%nat) as ->.
  { induction k as [|k IHk]; [by destruct (decide (x = n))|]. change (replicate (S k) x) with (x :: replicate k x).
    destruct (decide (x = n)) as [E|E].
    - rewrite count_occ_cons_eq by done. by rewrite IHk.
    - rewrite count_occ_cons_neq by done. by rewrite IHk. }
  destruct (decide (x = n)) as [->|Hne].
  - rewrite decide_False by done. rewrite decide_True by by left. lia.
  - destruct (decide (n ∈ l)); [rewrite decide_True by by right|rewrite decide_False by set_solver]; done.
Qed.

(** The pending word is a set of signal numbers: posting, removing, masking and
    testing a signal are the set operations, and [try_get_signal] returns the lowest
    pending number, or nothing exactly when none is pending. *)
Theorem signal_word_is_set (w n : Z) (m : SigProcMask) : 1 ≤ n ≤ 64 →
  sig_set (add_signal w (from_num n)) = {[n]} ∪ sig_set w ∧
  sig_set (remove_signal w (from_num n)) = sig_set w ∖ {[n]} ∧
  sig_set (SignalList_mask w m) = sig_set w ∖ sig_set (sp_mask m) ∧
  (has_sig w (from_num n) = true ↔ n ∈ sig_set w) ∧
  num (from_num n) = n ∧
  match try_get_signal w with
  | Some s => num s ∈ sig_set w ∧ ∀ k, k ∈ sig_set w → num s ≤ k
  | None => sig_set w = ∅
  end.
Proof.
  intros Hn. split_and!; auto using add_signal_set, remove_signal_set, mask_signal_set, num_from_num.
  - by apply has_sig_set.
  - pose proof (try_get_signal_set w) as H. destruct (try_get_signal w) as [s|]; [|done].
    destruct H as (k & -> & Hk & Hlow). assert (1 ≤ k ≤ 64) by by apply elem_sig_set in Hk as [? _].
    by rewrite num_from_num.
Qed.


(** Real-time signals are counted, standard signals are merged: after signal [n]
    is posted [k + 1] times to a thread that neither has it pending nor blocks it,
    the delivery schedule contains it [k + 1] times if it is real-time (34..64) and
    exactly once otherwise; posting never panics. *)
Theorem posted_signals_counted (t : ThreadSignals) (n : Z) (k : nat) :
  signals_ok t → 1 ≤ n ≤ 64 → n ∉ sig_set (signal t) → n ∉ sig_set (sp_mask (sigmask t)) →
  queued t n = 0%nat → Z.of_nat k < USIZE - 1 →
  ∃ t', post_times (S k) n t = Ret t' ∧ signals_ok t' ∧
    count_occ Z.eq_dec (deliveries (due t') (seqZ 1 64)) n = if decide (34 ≤ n) then S k else 1%nat.
Proof.
  intros Hok Hn Hs Hm Hq Hk. cbn [post_times].
  destruct (post_signal_spec t n) as (t1 & -> & Hok1 & Hm1 & Hs1 & Hq1); [done|done|rewrite Hq; done|].
  change (Ret ?a ≫= ?f) with (f a). cbn beta. specialize (Hq1 n). rewrite decide_False in Hq1 by naive_solver.
  destruct (post_times_spec k n t1) as (t' & -> & Hok' & Hm' & Hs' & Hq'); [done|done|set_solver|lia|].
  exists t'. split_and!; [done|done|]. rewrite count_deliveries by apply NoDup_seqZ.
  rewrite decide_True by (apply elem_of_seqZ; lia). unfold due. rewrite Hs', Hs1, Hm', Hm1, Hq', Hq1, Hq.
  rewrite decide_True by set_solver. case_decide; [f_equal; lia|done].
Qed.

(** [sigprocmask] computes the union, difference or replacement of the signal
    sets it names, rejects any other [how] with [EINVAL] without touching anything,
    and reports the previous mask (for distinct [set] and [oldset] buffers). *)
Theorem sigprocmask_sets (t : ThreadSignals) (umem : gmap Z SigProcMask) (how set oldset : Z) (m : SigProcMask) :
  umem !! set = Some m → set ≠ 0 → oldset ≠ set →
  let '(res, t', umem') := sys_sigprocmask t umem how set oldset in
  match how with
  | 0 => res = Ok 0 ∧ sig_set (sp_mask (sigmask t')) = sig_set (sp_mask (sigmask t)) ∪ sig_set (sp_mask m)
  | 1 => res = Ok 0 ∧ sig_set (sp_mask (sigmask t')) = sig_set (sp_mask (sigmask t)) ∖ sig_set (sp_mask m)
  | 2 => res = Ok 0 ∧ sigmask t' = m
  | _ => res = Err EINVAL ∧ t' = t ∧ umem' = umem
  end ∧ signal t' = signal t ∧
  (res = Ok 0 → oldset ≠ 0 → umem' !! oldset = Some (sigmask t)).
Proof.
  intros Hm Hset Hne. unfold sys_sigprocmask.
  assert (∀ x, default SigProcMask_new ((if decide (oldset ≠ 0) then <[oldset:=x]> umem else umem) !! set) = m) as Hread.
  { intros x. case_decide; [rewrite lookup_insert_ne by done|]; by rewrite Hm. }
  assert (∀ x, oldset ≠ 0 → (if decide (oldset ≠ 0) then <[oldset:=x]> umem else umem) !! oldset = Some x) as Hold.
  { intros x Ho. rewrite decide_True by done. apply lookup_insert_eq. }
  destruct how as [|[[]|[]|]|]; cbn [SigMaskHow_from_usize]; try (split_and!; done);
    rewrite (decide_True (P := set ≠ 0)), Hread by done; cbn [sigmask signal sp_mask SigProcMask_handle];
    (split; [split; [done|]|split; [done|auto]]); try (by destruct m); apply set_eq; intros n.
  - rewrite elem_of_union, !elem_sig_set, Z.lor_spec, orb_true_iff. naive_solver.
  - rewrite elem_of_difference, !elem_sig_set. destruct (decide (1 ≤ n ≤ 64)); [|naive_solver lia].
    rewrite Z.land_spec, not64_testbit, andb_true_iff, negb_true_iff by lia.
    destruct (Z.testbit (sp_mask m) (n - 1)); naive_solver.
Qed.

(** [sigaction] on a valid number stores the new action and reports the old one
    (so a later query returns exactly what was installed), while a number above 64
    with a non-null buffer indexes past the 65-entry table and panics the kernel. *)
Theorem sigaction_table (tab : list SigAction) (umem : gmap Z SigAction) (sig act oldact : Z) (a : SigAction) :
  length tab = 65%nat → 0 ≤ sig → act ≠ 0 → oldact ≠ act → umem !! act = Some a →
  (sig < 65 → ∃ tab' umem', sys_sigaction tab umem sig act oldact = Ret (Ok 0, tab', umem') ∧
     length tab' = 65%nat ∧ tab' !! Z.to_nat sig = Some a ∧
     (∀ k, k ≠ Z.to_nat sig → tab' !! k = tab !! k) ∧
     (oldact ≠ 0 → umem' !! oldact = tab !! Z.to_nat sig)) ∧
  (65 ≤ sig → sys_sigaction tab umem sig act oldact = Panic).
Proof.
  intros Hlen Hsig Hact Hne Ha. unfold sys_sigaction. split; intros Hs.
  - destruct (lookup_lt_is_Some_2 tab (Z.to_nat sig)) as [b Hb]; [lia|]. rewrite Hb.
    assert ((if decide (oldact ≠ 0) then a0 ← unwrap (Some b); Ret (<[oldact:=a0]> umem) else Ret umem) =
      Ret (if decide (oldact ≠ 0) then <[oldact := b]> umem else umem)) as -> by by case_decide.
    change (Ret ?a ≫= ?f) with (f a). cbn beta. rewrite (decide_True (P := act ≠ 0)) by done.
    do 2 eexists. split; [done|]. split_and!.
    + by rewrite length_insert.
    + rewrite list_lookup_insert_eq by lia.
      case_decide; [rewrite lookup_insert_ne by done|]; by rewrite Ha.
    + intros k Hk. by rewrite list_lookup_insert_ne.
    + intros Ho. rewrite decide_True by done. by rewrite lookup_insert_eq.
  - rewrite (lookup_ge_None_2 tab) by lia. destruct (decide (act ≠ 0)); [|done].
    by destruct (decide (oldact ≠ 0)).
Qed.

(** [kill(pid, 0)] is not a harmless existence probe: signal number 0 wraps to
    bit 63, so the call makes signal 64 (SIGRTMAX) pending in the target. *)
Theorem kill_zero_posts_sigrtmax (tasks : gmap Z (option ThreadSignals)) (pid : Z) (t : ThreadSignals) :
  tasks !! pid = Some (Some t) →
  ∃ tasks' t', sys_kill tasks pid 0 = (Ok 0, tasks') ∧ tasks' !! pid = Some (Some t') ∧
    sig_set (signal t') = {[64]} ∪ sig_set (signal t).
Proof.
  intros Hp. unfold sys_kill. rewrite Hp. do 2 eexists. split; [done|].
  rewrite lookup_insert_eq. split; [done|]. cbn. change (from_num 0) with (from_num 64).
  by apply add_signal_set.
Qed.

(** SIGKILL and SIGSTOP can be blocked: after a successful [sigprocmask] with
    [SIG_BLOCK] and a full set, a thread with only SIGKILL and SIGSTOP pending has
    nothing to deliver, so the loop returns at once without handling them. *)
Theorem sigkill_can_be_blocked (h : Z → ThreadSignals → ThreadSignals) :
  ∃ t' umem', sys_sigprocmask (mkThread SigProcMask_new (Z.lor SIGKILL SIGSTOP) (signal_queue ThreadSignals_new))
      {[ 4096 := mkMask usize_max ]} 0 4096 0 = (Ok 0, t', umem') ∧
    9 ∈ sig_set (signal t') ∧ 19 ∈ sig_set (signal t') ∧ check_signal h 1 t' = Some (Ret ([], t')).
Proof. do 2 eexists. split; [reflexivity|]. repeat split; by vm_compute. Qed.

(** ** Witnesses *)

Definition demo_thread : ThreadSignals := set_signal ThreadSignals_new (Z.lor (from_num 10) (from_num 40)).

Lemma ThreadSignals_new_ok : signals_ok ThreadSignals_new.
Proof. split; [reflexivity|]. by apply Forall_replicate. Qed.

Lemma demo_thread_ok : signals_ok demo_thread.
Proof. destruct ThreadSignals_new_ok. by split. Qed.

Lemma signal_word_is_set_witness : num (from_num 9) = 9 ∧ has_sig (from_num 9) (from_num 9) = true.
Proof.
  destruct (signal_word_is_set (from_num 9) 9 SigProcMask_new) as (_ & _ & _ & H & Hn & _); [lia|].
  split; [exact Hn|]. apply H. vm_compute. reflexivity.
Defined.


Lemma posted_signals_counted_witness :
  ∃ t', post_times 3 40 ThreadSignals_new = Ret t' ∧
    count_occ Z.eq_dec (deliveries (due t') (seqZ 1 64)) 40 = 3%nat.
Proof.
  destruct (posted_signals_counted ThreadSignals_new 40 2) as (t' & E & _ & Hc).
  - exact ThreadSignals_new_ok.
  - lia.
  - apply (bool_decide_eq_true_1 (40 ∉ sig_set (signal ThreadSignals_new))). vm_compute. reflexivity.
  - apply (bool_decide_eq_true_1 (40 ∉ sig_set (sp_mask (sigmask ThreadSignals_new)))). vm_compute. reflexivity.
  - reflexivity.
  - unfold USIZE; lia.
  - exists t'. split; [exact E|]. exact Hc.
Defined.

Lemma sigprocmask_sets_witness :
  let '(res, t', _) := sys_sigprocmask ThreadSignals_new {[ 4096 := mkMask 6 ]} 2 4096 8192 in
  res = Ok 0 ∧ sigmask t' = mkMask 6.
Proof.
  pose proof (sigprocmask_sets ThreadSignals_new {[ 4096 := mkMask 6 ]} 2 4096 8192 (mkMask 6)) as H.
  destruct (sys_sigprocmask _ _ _ _ _) as [[res t'] u]. apply H; [reflexivity|lia|lia].
Defined.

Lemma sigaction_table_witness :
  ∃ tab' umem', sys_sigaction (replicate 65 SigAction_new) {[ 4096 := mkAction 65536 0 0 SigProcMask_new ]} 10 4096 0 =
    Ret (Ok 0, tab', umem') ∧ tab' !! 10%nat = Some (mkAction 65536 0 0 SigProcMask_new).
Proof.
  destruct (sigaction_table (replicate 65 SigAction_new) {[ 4096 := mkAction 65536 0 0 SigProcMask_new ]}
    10 4096 0 (mkAction 65536 0 0 SigProcMask_new)) as [H _]; [reflexivity|lia|lia|lia|reflexivity|].
  destruct H as (tab' & umem' & E & _ & Hl & _); [lia|]. exists tab', umem'. split; [exact E|exact Hl].
Defined.

Lemma kill_zero_posts_sigrtmax_witness :
  ∃ tasks' t', sys_kill {[ 7 := Some ThreadSignals_new ]} 7 0 = (Ok 0, tasks') ∧
    tasks' !! 7 = Some (Some t') ∧ sig_set (signal t') = {[64]} ∪ sig_set (signal ThreadSignals_new).
Proof. apply (kill_zero_posts_sigrtmax {[ 7 := Some ThreadSignals_new ]} 7 ThreadSignals_new). reflexivity. Defined.
