(* ===== verification/Path.v ===== *)
(** * Paths and the mount table

    Models filesystem/fs/src/pathbuf.rs ([PathBuf], a normalised absolute path as a
    vector of components) and filesystem/fs/src/dentry.rs (the global mount table
    and [get_mounted]).  The theorems show that joining keeps paths normalised, that
    printing and parsing are inverse, and which mount a path resolves to. *)

From Stdlib Require Import Ascii.
From S2P Require Import Prelude.

(** ** Strings: [str::split("/")] and [join("/")] *)

Definition slash : ascii := "/"%char.

Fixpoint split_slash (s : string) : list string :=
  match s with
  | EmptyString => [EmptyString]
  | String c s =>
      if decide (c = slash) then EmptyString :: split_slash s
      else match split_slash s with
           | [] => [String c EmptyString]
           | w :: ws => String c w :: ws
           end
  end.

Fixpoint join_slash (l : list string) : string :=
  match l with
  | [] => EmptyString
  | [x] => x
  | x :: l => x +:+ String slash (join_slash l)
  end.

Definition starts_with_slash (s : string) : bool :=
  match s with String c _ => bool_decide (c = slash) | EmptyString => false end.

(** ** [PathBuf] *)

Definition PathBuf : Type := list string.

Definition PathBuf_new : PathBuf := [].

(** [Vec::pop], dropping the popped component. *)
Definition pop (pb : PathBuf) : PathBuf := List.removelast pb.

Definition join_step (pb : PathBuf) (x : string) : PathBuf :=
  if decide (x = "." ∨ x = "") then pb
  else if decide (x = "..") then pop pb
  else pb ++ [x].

Definition PathBuf_join (self : PathBuf) (path : string) : PathBuf :=
  foldl join_step (if starts_with_slash path then PathBuf_new else self) (split_slash path).

Definition PathBuf_from (value : string) : PathBuf := PathBuf_join PathBuf_new value.

Definition PathBuf_path (self : PathBuf) : string := String slash (join_slash self).

Definition PathBuf_filename (self : PathBuf) : string := default "/" (last self).

Definition PathBuf_dir (self : PathBuf) : PathBuf := pop self.

Definition PathBuf_levels (self : PathBuf) : nat := length self.

Definition PathBuf_starts_with (self target : PathBuf) : bool := bool_decide (target `prefix_of` self).

Definition PathBuf_trim_start (self target : PathBuf) : PathBuf :=
  if PathBuf_starts_with self target then drop (length target) self else self.

(** ** The mount table *)

Section mounts.
(** A mounted file system together with its root node ([DEntryNode]). *)
Context {F : Type}.

Definition MountTable : Type := list (PathBuf * F).

Definition get_mounted (mounted : MountTable) (path : PathBuf) : outcome (F * PathBuf) :=
  finded ← unwrap (List.find (λ x : PathBuf * F, PathBuf_starts_with path x.1) (rev mounted));
  Ret (finded.2, PathBuf_trim_start path finded.1).

Definition mount_fs (mounted : MountTable) (fs : F) (path : string) : MountTable :=
  mounted ++ [(PathBuf_from path, fs)].

Definition umount (mounted : MountTable) (path : PathBuf) : result unit * MountTable :=
  (Ok (), filter (λ x : PathBuf * F, x.1 ≠ path) mounted).
End mounts.
Arguments MountTable F : clear implicits.

Example join_dotdot : PathBuf_join ["usr"; "bin"] "../lib/./x" = ["usr"; "lib"; "x"].
Proof. reflexivity. Qed.
Example join_above_root : PathBuf_join ["a"] "../../../b//c/" = ["b"; "c"].
Proof. reflexivity. Qed.

(** ** Splitting and joining *)

Definition no_slash (s : string) : Prop := starts_with_slash s = false ∧ split_slash s = [s].

Lemma split_slash_nonempty s : split_slash s ≠ [].
Proof. destruct s as [|c s]; cbn; [done|]. case_decide; [done|]. by destruct (split_slash s). Qed.

Lemma split_slash_app a b : split_slash (a +:+ String slash b) = split_slash a ++ split_slash b.
Proof.
  induction a as [|c a IH]; [done|]. change (String c a +:+ ?t) with (String c (a +:+ t)).
  cbn [split_slash]. rewrite IH. case_decide; [done|]. destruct (split_slash a) as [|w ws] eqn:E; [by destruct (split_slash_nonempty a)|done].
Qed.

Lemma split_join l : l ≠ [] → Forall (λ s, split_slash s = [s]) l → split_slash (join_slash l) = l.
Proof.
  induction l as [|x [|y l] IH]; intros Hl Hs; [done| |]; apply Forall_cons in Hs as [Hx Hr]; [done|].
  change (join_slash (x :: y :: l)) with (x +:+ String slash (join_slash (y :: l))).
  rewrite split_slash_app, Hx, IH by done. done.
Qed.

(** The pieces of a split are slash-free. *)
Lemma split_pieces s : Forall (λ w, split_slash w = [w]) (split_slash s).
Proof.
  induction s as [|c s IH]; [by repeat constructor|]. cbn. case_decide as Hc; [by constructor|].
  destruct (split_slash s) as [|w ws]; [by constructor; [cbn; rewrite decide_False by done|]|].
  apply Forall_cons in IH as [Hw Hws]. constructor; [|done]. cbn. rewrite decide_False by done. by rewrite Hw.
Qed.

(** ** Normalised paths *)

(** A component that names a directory entry: not empty, no slash, not a dot name. *)
Definition component_ok (s : string) : Prop :=
  s ≠ "" ∧ s ≠ "." ∧ s ≠ ".." ∧ split_slash s = [s].

Definition path_ok (pb : PathBuf) : Prop := Forall component_ok pb.

Lemma pop_ok pb : path_ok pb → path_ok (pop pb).
Proof.
  intros Hp. unfold pop. destruct (decide (pb = [])) as [->|Hne]; [done|].
  rewrite (app_removelast_last "" Hne) in Hp. by apply Forall_app in Hp as [? _].
Qed.

Lemma join_step_ok pb x : split_slash x = [x] → path_ok pb → path_ok (join_step pb x).
Proof.
  intros Hx Hp. unfold join_step. case_decide; [done|]. case_decide; [by apply pop_ok|].
  apply Forall_app. split; [done|]. repeat constructor; naive_solver.
Qed.

Lemma join_ok pb s : path_ok pb → path_ok (PathBuf_join pb s).
Proof.
  intros Hp. unfold PathBuf_join. pose proof (split_pieces s) as Hs.
  assert (path_ok (if starts_with_slash s then PathBuf_new else pb)) as H0 by (destruct (starts_with_slash s); [constructor|done]).
  revert H0. generalize (if starts_with_slash s then PathBuf_new else pb). induction Hs as [|x l Hx _ IH]; [done|].
  intros q Hq. cbn. apply IH. by apply join_step_ok.
Qed.

Lemma foldl_join_components pb l : path_ok l → foldl join_step pb l = pb ++ l.
Proof.
  intros Hl. revert pb. induction Hl as [|x l [H1 [H2 [H3 _]]] _ IH]; intros pb; cbn; [by rewrite app_nil_r|].
  rewrite IH. unfold join_step. rewrite decide_False by naive_solver. rewrite decide_False by done.
  by rewrite <- app_assoc.
Qed.

Lemma path_roundtrip pb : path_ok pb → PathBuf_from (PathBuf_path pb) = pb.
Proof.
  intros Hp. destruct pb as [|x l]; [done|].
  change (PathBuf_from (PathBuf_path (x :: l))) with (foldl join_step [] (split_slash (join_slash (x :: l)))).
  rewrite split_join; [by rewrite foldl_join_components|done|].
  eapply Forall_impl; [exact Hp|]. by intros s (_ & _ & _ & Hs).
Qed.


Lemma starts_with_slash_app a b :
  starts_with_slash (a +:+ String slash b) = match a with EmptyString => true | _ => starts_with_slash a end.
Proof. by destruct a. Qed.

(** Joining component-wise: resolving [a] and then the relative path [b] is the
    same as resolving the single string [a/b]. *)
Theorem join_compose (pb : PathBuf) (a b : string) : a ≠ "" → starts_with_slash b = false →
  PathBuf_join (PathBuf_join pb a) b = PathBuf_join pb (a +:+ String slash b).
Proof.
  intros Ha Hb. unfold PathBuf_join. rewrite Hb, split_slash_app, foldl_app, starts_with_slash_app.
  by destruct a.
Qed.

(** ** Resolving mounts *)

Lemma trim_start_prefix (path target rest : PathBuf) :
  path = target ++ rest → PathBuf_trim_start path target = rest.
Proof.
  intros ->. unfold PathBuf_trim_start, PathBuf_starts_with.
  rewrite bool_decide_eq_true_2 by by eexists. by rewrite drop_app_length.
Qed.

(** [get_mounted] resolves a path to the most recently mounted file system whose
    mount point is a prefix of it, and splits the path at that mount point; with a file
    system mounted at the root it never panics. *)
Theorem get_mounted_latest {F} (mounted : MountTable F) (path : PathBuf) :
  (∃ fs, ([], fs) ∈ mounted) →
  ∃ m1 m2 target fs rest, mounted = m1 ++ (target, fs) :: m2 ∧ path = target ++ rest ∧
    get_mounted mounted path = Ret (fs, rest) ∧
    Forall (λ x, ¬ x.1 `prefix_of` path) m2.
Proof.
  intros (fs0 & Hroot). unfold get_mounted.
  destruct (List.find _ (rev mounted)) as [[target fs]|] eqn:E; last first.
  { rewrite find_None_Forall, Forall_forall in E. specialize (E ([], fs0)).
    rewrite list_elem_of_In, <- in_rev, <- list_elem_of_In in E. specialize (E Hroot).
    apply bool_decide_eq_false_1 in E. destruct E. apply prefix_nil. }
  apply find_Some_split in E as (l1 & l2 & Hrev & Hpre & Hno).
  apply bool_decide_eq_true_1 in Hpre as [rest Hrest]. cbn in Hrest.
  exists (rev l2), (rev l1), target, fs, rest. split_and!.
  - rewrite <- (rev_involutive mounted), Hrev, rev_app_distr. cbn. by rewrite <- app_assoc.
  - done.
  - cbn. by rewrite (trim_start_prefix path target rest).
  - rewrite Forall_forall in Hno |- *. intros x Hx. rewrite list_elem_of_In, <- in_rev, <- list_elem_of_In in Hx.
    specialize (Hno x Hx). by apply bool_decide_eq_false_1 in Hno.
Qed.

(** Mounting and unmounting: a file system mounted last answers every path at or
    below its mount point; unmounting its path makes those paths resolve as they did
    before, provided nothing else was mounted there. *)
Theorem mount_umount_roundtrip {F} (mounted : MountTable F) (fs : F) (point : string) (path : PathBuf) :
  PathBuf_from point `prefix_of` path → Forall (λ x, x.1 ≠ PathBuf_from point) mounted →
  get_mounted (mount_fs mounted fs point) path = Ret (fs, drop (length (PathBuf_from point)) path) ∧
  (umount (mount_fs mounted fs point) (PathBuf_from point)).2 = mounted.
Proof.
  intros Hpre Hfresh. unfold get_mounted, mount_fs, umount. cbn [snd]. split.
  - rewrite rev_app_distr. cbn. unfold PathBuf_starts_with. cbn. rewrite bool_decide_eq_true_2 by done. cbn.
    destruct Hpre as [rest ->]. by rewrite (trim_start_prefix _ _ rest), drop_app_length.
  - unfold MountTable in *. rewrite filter_app, filter_cons_False by (intros H; by apply H). rewrite filter_nil, app_nil_r.
    clear Hpre. induction Hfresh as [|x l Hx _ IH]; [done|]. by rewrite filter_cons_True, IH.
Qed.

(** ** The mounts of the running system *)

(** The file systems [fs::init] mounts (the first at the root is the disk or a RAM
    file system). *)
Inductive InitFs := RootFs | DevFs | TmpFs | ShmFs | HomeFs | VarFs | ProcFs.

Definition init_mounts : MountTable InitFs :=
  foldl (λ t x, mount_fs t x.1 x.2) []
    [(RootFs, "/"); (DevFs, "/dev"); (TmpFs, "/tmp"); (ShmFs, "/dev/shm");
     (HomeFs, "/home"); (VarFs, "/var"); (ProcFs, "/proc")].

Example init_resolves :
  (λ p, get_mounted init_mounts (PathBuf_from p)) <$>
    ["/dev/shm/a"; "/dev/null"; "/bin/sh"; "/proc"; "/tmp/../var/x"] =
  [Ret (ShmFs, ["a"]); Ret (DevFs, ["null"]); Ret (RootFs, ["bin"; "sh"]); Ret (ProcFs, []); Ret (VarFs, ["x"])].
Proof. reflexivity. Qed.


Lemma join_compose_witness : PathBuf_join (PathBuf_join ["a"] "../b") "c" = PathBuf_join ["a"] "../b/c".
Proof. apply (join_compose ["a"] "../b" "c"); [discriminate|reflexivity]. Defined.

Lemma get_mounted_latest_witness :
  ∃ m1 m2 target fs rest, init_mounts = m1 ++ (target, fs) :: m2 ∧ ["dev"; "tty"] = target ++ rest ∧
    get_mounted init_mounts ["dev"; "tty"] = Ret (fs, rest) ∧
    Forall (λ x, ¬ x.1 `prefix_of` ["dev"; "tty"]) m2.
Proof.
  apply (get_mounted_latest init_mounts ["dev"; "tty"]). exists RootFs.
  apply list_elem_of_In. left. reflexivity.
Defined.

Lemma mount_umount_roundtrip_witness :
  (umount (mount_fs init_mounts TmpFs "/mnt") (PathBuf_from "/mnt")).2 = init_mounts.
Proof.
  apply (mount_umount_roundtrip init_mounts TmpFs "/mnt" ["mnt"; "x"]).
  - exists ["x"]. reflexivity.
  - repeat constructor; discriminate.
Defined.
