(* ===== verification/Vfs.v ===== *)
(** * Virtual file system interface

    Models filesystem/vfscore/src/lib.rs: the flag sets, the small data types and the
    trait [INodeInterface].  An inode implementation is a value of the record [INode];
    the trait's default methods are [INode_default], which an implementation updates.
    Flags are words; [contains] is the bitflags test. *)

From S2P Require Import Prelude.

(** ** Flags *)

(** [OpenFlags] on riscv64, loongarch64 and x86_64. *)
Definition O_RDONLY : Z := 0.
Definition O_WRONLY : Z := 1.
Definition O_RDWR : Z := 2.
Definition O_CREAT : Z := 64.
Definition O_EXCL : Z := 128.
Definition O_TRUNC : Z := 512.
Definition O_APPEND : Z := 1024.
Definition O_NONBLOCK : Z := 2048.
Definition O_DIRECTORY : Z := 65536.
Definition O_CLOEXEC : Z := 524288.
Definition OpenFlags_table : list (string * Z) :=
  [("O_RDONLY", 0); ("O_WRONLY", 1); ("O_RDWR", 2); ("O_ACCMODE", 3); ("O_CREAT", 64);
   ("O_EXCL", 128); ("O_NOCTTY", 256); ("O_TRUNC", 512); ("O_APPEND", 1024); ("O_NONBLOCK",
   2048); ("O_DSYNC", 4096); ("O_SYNC", 1052672); ("O_RSYNC", 1052672); ("O_DIRECTORY", 65536);
   ("O_NOFOLLOW", 131072); ("O_CLOEXEC", 524288); ("O_ASYNC", 8192); ("O_DIRECT", 16384);
   ("O_LARGEFILE", 32768); ("O_NOATIME", 262144); ("O_PATH", 2097152); ("O_TMPFILE", 4259840)].

Definition StatMode_table : list (string * Z) :=
  [("NULL", 0); ("TYPE_MASK", 61440); ("FIFO", 4096); ("CHAR", 8192); ("DIR", 16384); ("BLOCK",
   24576); ("FILE", 32768); ("LINK", 40960); ("SOCKET", 49152); ("SET_UID", 2048); ("SET_GID",
   1024); ("OWNER_MASK", 448); ("OWNER_READ", 256); ("OWNER_WRITE", 128); ("OWNER_EXEC", 64);
   ("GROUP_MASK", 56); ("GROUP_READ", 32); ("GROUP_WRITE", 16); ("GROUP_EXEC", 8);
   ("OTHER_MASK", 7); ("OTHER_READ", 4); ("OTHER_WRITE", 2); ("OTHER_EXEC", 1)].
Definition S_TYPE_MASK : Z := 61440.
Definition S_FIFO : Z := 4096.
Definition S_CHAR : Z := 8192.
Definition S_DIR : Z := 16384.
Definition S_BLOCK : Z := 24576.
Definition S_FILE : Z := 32768.
Definition S_LINK : Z := 40960.
Definition S_SOCKET : Z := 49152.

Definition PollEvent_table : list (string * Z) :=
  [("NONE", 0); ("POLLIN", 1); ("POLLPRI", 2); ("POLLOUT", 4); ("POLLRDNORM", 64);
   ("POLLRDBAND", 128); ("POLLWRNORM", 256); ("POLLWRBAND", 512); ("POLLMSG", 1024);
   ("POLLREMOVE", 4096); ("POLLRDHUP", 8192); ("POLLERR", 8); ("POLLHUP", 16); ("POLLNVAL", 32)].
Definition POLLIN : Z := 1.
Definition POLLOUT : Z := 4.
Definition POLLERR : Z := 8.
Definition POLL_NONE : Z := 0.

(** [flags.contains(other)]. *)
Definition contains (flags other : Z) : bool := bool_decide (Z.land flags other = other).

Definition UTIME_NOW : Z := 0x3fffffff.
Definition UTIME_OMIT : Z := 0x3ffffffe.

(** ** Data *)

Inductive FileType := FT_File | FT_Directory | FT_Device | FT_Socket | FT_Link.

#[export] Instance FileType_eq_dec : EqDecision FileType.
Proof. solve_decision. Defined.

(** [FileType::from(StatMode)]; an unknown type is [unreachable!()]. *)
Definition FileType_from_mode (mode : Z) : outcome FileType :=
  let t := Z.land mode S_TYPE_MASK in
  if decide (t = S_SOCKET) then Ret FT_Socket
  else if decide (t = S_LINK) then Ret FT_Link
  else if decide (t = S_FILE) then Ret FT_File
  else if decide (t = S_BLOCK) then Ret FT_Device
  else if decide (t = S_DIR) then Ret FT_Directory
  else if decide (t = S_CHAR) then Ret FT_Device
  else if decide (t = S_FIFO) then Ret FT_Device
  else Panic.

Inductive SeekFrom := SET (off : Z) | CURRENT (off : Z) | END_ (off : Z).

Record DirEntry := mkDirEntry { de_filename : string; de_len : Z; de_type : FileType }.

Record TimeSpec := mkTimeSpec { ts_sec : Z; ts_nsec : Z }.

#[export] Instance TimeSpec_eq_dec : EqDecision TimeSpec.
Proof. solve_decision. Defined.

Definition TimeSpec_default : TimeSpec := mkTimeSpec 0 0.

Definition TimeSpec_to_nsec (t : TimeSpec) : Z := (ts_sec t *u 1000000000) +u ts_nsec t.

Record Stat := mkStat {
  st_dev : Z; st_ino : Z; st_mode : Z; st_nlink : Z; st_uid : Z; st_gid : Z; st_rdev : Z;
  st_size : Z; st_blksize : Z; st_blocks : Z;
  st_atime : TimeSpec; st_mtime : TimeSpec; st_ctime : TimeSpec;
}.

Record StatFS := mkStatFS {
  f_type : Z; f_bsize : Z; f_blocks : Z; f_bfree : Z; f_bavail : Z; f_files : Z; f_ffree : Z;
  f_fsid : Z; f_namelen : Z;
}.

Definition Stat_default : Stat :=
  mkStat 0 0 0 0 0 0 0 0 0 0 TimeSpec_default TimeSpec_default TimeSpec_default.

(** ** The trait [INodeInterface]

    [N] are the inode handles ([Arc<dyn INodeInterface>]) and [W] the state they act
    on.  [readat] returns the caller's buffer as it leaves it. *)

Record INode (N W : Type) := mkINode {
  i_readat : Z → list Z → W → outcome (result Z * list Z * W);
  i_writeat : Z → list Z → W → outcome (result Z * W);
  i_create : string → FileType → W → outcome (result unit * W);
  i_mkdir : string → W → outcome (result unit * W);
  i_rmdir : string → W → outcome (result unit * W);
  i_remove : string → W → outcome (result unit * W);
  i_read_dir : W → outcome (result (list DirEntry));
  i_lookup : string → W → outcome (result N);
  i_ioctl : Z → Z → W → outcome (result Z * W);
  i_truncate : Z → W → outcome (result unit * W);
  i_flush : W → outcome (result unit * W);
  i_resolve_link : W → outcome (result string);
  i_link : string → N → W → outcome (result unit * W);
  i_symlink : string → string → W → outcome (result unit * W);
  i_unlink : string → W → outcome (result unit * W);
  i_stat : Stat → W → outcome (result unit * Stat);
  i_mount : string → W → outcome (result unit * W);
  i_umount : W → outcome (result unit * W);
  i_statfs : StatFS → W → outcome (result unit * StatFS);
  i_utimes : list TimeSpec → W → outcome (result unit * W);
  i_poll : Z → W → outcome (result Z * W);
}.
Arguments mkINode {N W}.
Arguments i_readat {N W}. Arguments i_writeat {N W}. Arguments i_create {N W}.
Arguments i_mkdir {N W}. Arguments i_rmdir {N W}. Arguments i_remove {N W}.
Arguments i_read_dir {N W}. Arguments i_lookup {N W}. Arguments i_ioctl {N W}.
Arguments i_truncate {N W}. Arguments i_flush {N W}. Arguments i_resolve_link {N W}.
Arguments i_link {N W}. Arguments i_symlink {N W}. Arguments i_unlink {N W}.
Arguments i_stat {N W}. Arguments i_mount {N W}. Arguments i_umount {N W}.
Arguments i_statfs {N W}. Arguments i_utimes {N W}. Arguments i_poll {N W}.

(** The trait's default methods. *)
Definition INode_default {N W} : INode N W := {|
  i_readat _ buf w := Ret (Err ENOENT, buf, w);
  i_writeat _ _ w := Ret (Err ENOENT, w);
  i_create _ _ w := Ret (Err ENOTDIR, w);
  i_mkdir _ w := Ret (Err EEXIST, w);
  i_rmdir _ w := Ret (Err ENOENT, w);
  i_remove _ w := Ret (Err ENOENT, w);
  i_read_dir _ := Ret (Err EPERM);
  i_lookup _ _ := Ret (Err ENOENT);
  i_ioctl _ _ w := Ret (Err EPERM, w);
  i_truncate _ w := Ret (Err EPERM, w);
  i_flush w := Ret (Err EPERM, w);
  i_resolve_link _ := Ret (Err EPERM);
  i_link _ _ w := Ret (Err EPERM, w);
  i_symlink _ _ w := Ret (Err EPERM, w);
  i_unlink _ w := Ret (Err EPERM, w);
  i_stat st _ := Ret (Err EPERM, st);
  i_mount _ w := Ret (Err EPERM, w);
  i_umount w := Ret (Err EPERM, w);
  i_statfs st _ := Ret (Err EPERM, st);
  i_utimes _ w := Ret (Err EPERM, w);
  i_poll _ w := Ret (Err EPERM, w);
|}.

(** ** Caller buffers: [buffer[pos..pos + data.len()].copy_from_slice(data)] *)

Definition buf_write_at (pos : nat) (buf data : list Z) : list Z :=
  take pos buf ++ data ++ drop (pos + length data) buf.

Definition buf_write (buf data : list Z) : list Z := buf_write_at 0 buf data.

Lemma length_buf_write_at pos buf data : (pos + length data ≤ length buf)%nat →
  length (buf_write_at pos buf data) = length buf.
Proof. intros. unfold buf_write_at. rewrite !length_app, length_take, length_drop. lia. Qed.

Lemma length_buf_write buf data : (length data ≤ length buf)%nat → length (buf_write buf data) = length buf.
Proof. intros. by apply length_buf_write_at. Qed.

Lemma take_buf_write_n n buf data : n = length data → take n (buf_write buf data) = data.
Proof. intros ->. unfold buf_write, buf_write_at. rewrite take_0. cbn [app]. apply take_app_length. Qed.

Lemma buf_write_at_nil pos buf : buf_write_at pos buf [] = buf.
Proof. unfold buf_write_at. cbn [length app]. rewrite Nat.add_0_r. apply take_drop. Qed.

(** Two adjacent copies are one. *)
Lemma buf_write_at_app pos buf d1 d2 : (pos + length d1 ≤ length buf)%nat →
  buf_write_at (pos + length d1) (buf_write_at pos buf d1) d2 = buf_write_at pos buf (d1 ++ d2).
Proof.
  intros H. unfold buf_write_at. rewrite length_app.
  rewrite (take_app_add' (take pos buf)), (take_app_length' d1) by (rewrite ?length_take; lia).
  rewrite <- Nat.add_assoc, (drop_app_add' (take pos buf)), (drop_app_add d1), drop_drop by (rewrite length_take; lia).
  rewrite <- !app_assoc. do 4 f_equal. lia.
Qed.

Lemma take_buf_write_at pos buf data : (pos ≤ length buf)%nat →
  take pos (buf_write_at pos buf data) = take pos buf.
Proof. intros. unfold buf_write_at. apply take_app_length'. rewrite length_take. lia. Qed.
