(* ===== verification/Command.v ===== *)
(** * Command lines of the test runner

    Models the parser of [command] (kernel/src/tasks/initproc.rs), which turns a line into the
    arguments of a program: spaces separate, a backslash takes the next character as it is,
    and either kind of quote starts and ends a part in which spaces do not separate.
    Characters are numbers.  The theorems show that every list of arguments that are not
    empty can be written as a line and is read back, and what plain words give. *)

From S2P Require Import Prelude.

Abbreviation space := 32 (only parsing).
Abbreviation backslash := 92 (only parsing).
Abbreviation quote := 39 (only parsing).
Abbreviation dquote := 34 (only parsing).

(** [args], [current_arg], [in_quotes] and [escape_next]. *)
Record Parser := mkParser { args : list (list Z); current_arg : list Z; in_quotes : bool; escape_next : bool }.

Definition parse_char (p : Parser) (ch : Z) : Parser :=
  if escape_next p then mkParser (args p) (current_arg p ++ [ch]) (in_quotes p) false
  else if decide (ch = backslash) then mkParser (args p) (current_arg p) (in_quotes p) true
  else if decide (ch = quote ∨ ch = dquote) then mkParser (args p) (current_arg p) (negb (in_quotes p)) false
  else if decide (ch = space ∧ in_quotes p = false) then
    if decide (current_arg p = []) then p else mkParser (args p ++ [current_arg p]) [] (in_quotes p) false
  else mkParser (args p) (current_arg p ++ [ch]) (in_quotes p) false.

(** The loop over the line, then the last argument. *)
Definition parse_command (cmd : list Z) : list (list Z) :=
  let p := foldl parse_char (mkParser [] [] false false) cmd in
  if decide (current_arg p = []) then args p else args p ++ [current_arg p].

(** The line that names the arguments: every character behind a backslash. *)
Definition escape_arg (a : list Z) : list Z := a ≫= λ c, [backslash; c].
Fixpoint write_command (l : list (list Z)) : list Z :=
  match l with [] => [] | [a] => escape_arg a | a :: l => escape_arg a ++ space :: write_command l end.

(** A word that needs no backslash. *)
Definition plain (c : Z) : Prop := c ≠ space ∧ c ≠ backslash ∧ c ≠ quote ∧ c ≠ dquote.

(** Joining words with one space. *)
Fixpoint unwords (l : list (list Z)) : list Z :=
  match l with [] => [] | [a] => a | a :: l => a ++ space :: unwords l end.

Lemma parse_escaped a : ∀ done cur, foldl parse_char (mkParser done cur false false) (escape_arg a) = mkParser done (cur ++ a) false false.
Proof.
  induction a as [|c a IH]; intros done cur; [cbn; by rewrite app_nil_r|].
  change (foldl parse_char (mkParser done cur false false) (escape_arg (c :: a))) with (foldl parse_char (mkParser done (cur ++ [c]) false false) (escape_arg a)).
  rewrite IH. by rewrite <- app_assoc.
Qed.

Lemma parse_plain a : ∀ done cur, Forall plain a → foldl parse_char (mkParser done cur false false) a = mkParser done (cur ++ a) false false.
Proof.
  induction a as [|c a IH]; intros done cur Ha; [cbn; by rewrite app_nil_r|]. apply Forall_cons in Ha as [(H1 & H2 & H3 & H4) Ha]. cbn [foldl].
  unfold parse_char at 2. cbn [escape_next in_quotes current_arg args]. rewrite !decide_False by naive_solver. rewrite IH by done. by rewrite <- app_assoc.
Qed.

Lemma parse_space done cur : cur ≠ [] → parse_char (mkParser done cur false false) space = mkParser (done ++ [cur]) [] false false.
Proof. intros Hc. by destruct cur. Qed.

(** Any writing of single arguments that the parser reads extends to lists. *)
Lemma parse_list (enc : list Z → list Z) (line : list (list Z) → list Z) (l : list (list Z)) (ok : list Z → Prop) :
  (∀ a done, ok a → foldl parse_char (mkParser done [] false false) (enc a) = mkParser done a false false) →
  (line [] = []) → (∀ a, line [a] = enc a) → (∀ a b l, line (a :: b :: l) = enc a ++ space :: line (b :: l)) →
  Forall (λ a, ok a ∧ a ≠ []) l → parse_command (line l) = l.
Proof.
  intros Henc H0 H1 H2 Hl. unfold parse_command.
  assert (∀ done, l ≠ [] → ∃ pre z, l = pre ++ [z] ∧ foldl parse_char (mkParser done [] false false) (line l) = mkParser (done ++ pre) z false false) as Hrun.
  { induction Hl as [|a l [Ha Hne] Hl IH]; [done|]. intros done _. destruct l as [|b l].
    - exists [], a. rewrite H1, app_nil_r. split; [done|by apply Henc].
    - rewrite H2, foldl_app. cbn [foldl]. rewrite Henc, parse_space by done. destruct (IH (done ++ [a]) ltac:(done)) as (pre & z & E & Er).
      exists (a :: pre), z. rewrite Er, E. split; [done|]. by rewrite <- app_assoc. }
  destruct l as [|a l]; [by rewrite H0|]. destruct (Hrun [] ltac:(done)) as (pre & z & E & Er). rewrite Er. cbn [current_arg args app].
  rewrite E in Hl |- *. apply Forall_app in Hl as [_ [[_ Hz] _]%Forall_cons]. by rewrite decide_False.
Qed.

(** Every list of arguments can be given on a line: the line with all characters behind
    backslashes is read back exactly; and a line of plain words gives the words. *)
Theorem command_roundtrip (l : list (list Z)) :
  Forall (λ a, a ≠ []) l →
  parse_command (write_command l) = l ∧ (Forall (Forall plain) l → parse_command (unwords l) = l).
Proof.
  intros Hl. split.
  - apply (parse_list escape_arg write_command l (λ _, True)); [intros a d _; apply parse_escaped|done..|]. eapply Forall_impl; [exact Hl|]. done.
  - intros Hp. apply (parse_list id unwords l (Forall plain)); [intros a d Ha; by apply parse_plain|done..|].
    apply Forall_forall. intros a Ha. split; [by eapply Forall_forall in Hp|by eapply Forall_forall in Hl].
Qed.

(** The two kinds of quotes are one: a double quote ends what a single quote began. *)
Lemma quotes_mix : parse_command (str_bytes "echo 'a" ++ dquote :: str_bytes "b c'") = [str_bytes "echo"; str_bytes "ab"; str_bytes "c"].
Proof. reflexivity. Qed.

(** An empty argument cannot be given. *)
Lemma empty_argument_lost : parse_command (str_bytes "touch '' x") = [str_bytes "touch"; str_bytes "x"].
Proof. reflexivity. Qed.
