(* ===== verification/Disk.v ===== *)
(** * Block devices and the file systems' view of them

    Models the trait [BlkDriver] (crates/devices/src/device.rs) as a class with laws, the RAM
    disk (driver/kramdisk) as its instance, and the three adapters that the disk file systems
    use: the cursor of lwext4 (fs/src/ext4_shim.rs), the byte-addressed disk of ext4_rs
    (fs/src/ext4_rs_shim.rs) and the cursor of fatfs (fs/src/fatfs_shim.rs), with the
    loops of the fatfs traits over it.  The theorems compare each with a flat sequence of
    bytes, for every device that satisfies the laws. *)

From S2P Require Import Prelude Vfs.

(** ** Block devices *)

Class BlkDriver (D : Type) := {
  read_blocks : D → Z → nat → outcome (list Z);
  write_blocks : D → Z → list Z → outcome D;
  capacity : D → Z;
}.

(** What a device promises: below [blk_limit], transfers of whole blocks move the bytes of
    [blk_data]. *)
Class BlkLaws (D : Type) `{BlkDriver D} := {
  blk_data : D → list Z;
  blk_limit : D → Z;
  blk_limit_ok d : blk_limit d ≤ Z.of_nat (length (blk_data d)) ∧ blk_limit d < USIZE;
  blk_read_law d b n : 0 ≤ b → Z.of_nat n mod 512 = 0 → 512 * b + Z.of_nat n ≤ blk_limit d →
    read_blocks d b n = Ret (take n (drop (Z.to_nat (512 * b)) (blk_data d)));
  blk_write_law d b buf : 0 ≤ b → Z.of_nat (length buf) mod 512 = 0 → 512 * b + Z.of_nat (length buf) ≤ blk_limit d →
    ∃ d', write_blocks d b buf = Ret d' ∧ blk_limit d' = blk_limit d ∧ blk_data d' = buf_write_at (Z.to_nat (512 * b)) (blk_data d) buf;
}.

(** [get_blk_device] on the devices in the order of their registration. *)
Definition get_blk_device {D} (devs : list D) (id : Z) : option D := if decide (id < Z.of_nat (length devs)) then devs !! Z.to_nat id else None.

(** *** The RAM disk; [rd_data] is the memory from [start] on *)

Record RamDiskBlock := mkRamDisk { rd_data : list Z }.

Definition rd_size (d : RamDiskBlock) : Z := Z.of_nat (length (rd_data d)).

Definition RamDisk_read_blocks (d : RamDiskBlock) (sector_offset : Z) (n : nat) : outcome (list Z) :=
  if decide (Z.of_nat n mod 0x200 = 0) then
    if decide (rd_size d ≤ (sector_offset *u 0x200) +u Z.of_nat n) then Panic
    else Ret (take n (drop (Z.to_nat (sector_offset *u 0x200)) (rd_data d)))
  else Panic.

Definition RamDisk_write_blocks (d : RamDiskBlock) (sector_idx : Z) (buf : list Z) : outcome RamDiskBlock :=
  if decide (Z.of_nat (length buf) mod 0x200 = 0) then
    if decide (rd_size d ≤ (sector_idx *u 0x200) +u Z.of_nat (length buf)) then Panic
    else Ret (mkRamDisk (buf_write_at (Z.to_nat (sector_idx *u 0x200)) (rd_data d) buf))
  else Panic.

#[export] Instance RamDisk_driver : BlkDriver RamDiskBlock := {|
  read_blocks := RamDisk_read_blocks; write_blocks := RamDisk_write_blocks; capacity := rd_size |}.

(** ** The adapters *)

Section adapters.
Context {D : Type} `{BlkDriver D}.

(** *** lwext4: a cursor that moves in blocks *)

Record Ext4DiskWrapper := mkExt4DiskWrapper { block_id : Z; d_offset : Z; blk_id : Z }.

Definition Ext4DiskWrapper_new (blk_id : Z) : Ext4DiskWrapper := mkExt4DiskWrapper 0 0 blk_id.

Definition position (dev : Ext4DiskWrapper) : Z := (block_id dev *u 512) +u d_offset dev.

Definition set_position (pos : Z) (dev : Ext4DiskWrapper) : Ext4DiskWrapper := mkExt4DiskWrapper (pos / 512) (pos mod 512) (blk_id dev).

(** Both transfers use the device with number 0. *)
Definition Ext4DiskWrapper_write (devs : list D) (dev : Ext4DiskWrapper) (buf : list Z) : outcome (Z * Ext4DiskWrapper * list D) :=
  if decide (d_offset dev mod 512 = 0) then
    d ← unwrap (get_blk_device devs 0);
    d ← write_blocks d (block_id dev) buf;
    Ret (Z.of_nat (length buf), mkExt4DiskWrapper (block_id dev +u Z.of_nat (length buf) / 512) (d_offset dev) (blk_id dev), <[0%nat := d]> devs)
  else Panic.

Definition Ext4DiskWrapper_read (devs : list D) (dev : Ext4DiskWrapper) (n : nat) : outcome (Z * list Z * Ext4DiskWrapper) :=
  if decide (d_offset dev mod 512 = 0) then
    d ← unwrap (get_blk_device devs 0);
    data ← read_blocks d (block_id dev) n;
    Ret (Z.of_nat n, data, mkExt4DiskWrapper (block_id dev +u Z.of_nat n / 512) (d_offset dev) (blk_id dev))
  else Panic.

(** [checked_add_signed] of a word and a signed word. *)
Definition checked_add_signed (a off : Z) : option Z := if decide (is_usize (a + off)) then Some (a + off) else None.

(** [None] is the error -1; the new position is returned as a signed number. *)
Definition Ext4DiskWrapper_seek (devs : list D) (dev : Ext4DiskWrapper) (off whence : Z) : outcome (option (Z * Ext4DiskWrapper)) :=
  d ← unwrap (get_blk_device devs (blk_id dev));
  let size := capacity d in
  let new_pos :=
    if decide (whence = 0) then Some off
    else if decide (whence = 1) then as_isize <$> checked_add_signed (position dev) off
    else if decide (whence = 2) then as_isize <$> checked_add_signed size off
    else Some off in
  Ret ((λ new_pos, (new_pos, set_position (wrap new_pos) dev)) <$> new_pos).

(** *** ext4_rs: reads of 4096 bytes and writes at any byte *)

Definition read_step (d : D) (start_block_id : Z) (acc : list Z * Z * Z) (i : Z) : outcome (list Z * Z * Z) :=
  let '(buf, total_bytes_read, offset_in_block) := acc in
  data ← read_blocks d (start_block_id +u i) 512;
  let bytes_to_copy := if decide (total_bytes_read = 0) then 512 - offset_in_block else 512 in
  Ret (buf_write_at (Z.to_nat total_bytes_read) buf (take (Z.to_nat bytes_to_copy) (drop (Z.to_nat offset_in_block) data)),
       total_bytes_read + bytes_to_copy, 0).

Definition read_offset (d : D) (offset : Z) : outcome (list Z) :=
  '(buf, _, _) ← foldM (read_step d (offset / 512)) (seqZ 0 (4096 / 512)) (replicate 4096 0, 0, offset mod 512);
  Ret buf.

(** [data[offset_in_block..offset_in_block + bytes_to_copy]] panics beyond the block. *)
Definition write_step (start_block_id : Z) (buf : list Z) (acc : D * Z * Z) (i : Z) : outcome (D * Z * Z) :=
  let '(d, total_bytes_written, offset_in_block) := acc in
  let bytes_to_write := Z.of_nat (length buf) in
  data ← (if decide (bytes_to_write < 512) then read_blocks d (start_block_id +u i) 512 else Ret (replicate 512 0));
  let buf_start := total_bytes_written in
  let buf_end := if decide (bytes_to_write < buf_start + 512) then bytes_to_write else buf_start + 512 in
  let bytes_to_copy := buf_end - buf_start in
  if decide (512 < offset_in_block + bytes_to_copy) then Panic else
  let data := buf_write_at (Z.to_nat offset_in_block) data (take (Z.to_nat bytes_to_copy) (drop (Z.to_nat buf_start) buf)) in
  d ← write_blocks d (start_block_id +u i) data;
  Ret (d, total_bytes_written + bytes_to_copy, 0).

Definition write_offset (d : D) (offset : Z) (buf : list Z) : outcome D :=
  '(d, _, _) ← foldM (write_step (offset / 512) buf) (seqZ 0 (div_ceil (Z.of_nat (length buf)) 512)) (d, 0, offset mod 512);
  Ret d.

(** *** fatfs: a cursor that moves in bytes *)

Record DiskCursor := mkDiskCursor { sector : Z; c_offset : Z; c_device : Z }.

Definition get_position (c : DiskCursor) : Z := (sector c *u 0x200) +u c_offset c.

Definition cursor_at (c : DiskCursor) (position : Z) : DiskCursor := mkDiskCursor (position / 0x200) (position mod 0x200) (c_device c).

Definition move_cursor (c : DiskCursor) (amount : Z) : DiskCursor := cursor_at c (get_position c +u amount).

(** The size read and the bytes that are at the start of the buffer; a transfer of many
    blocks fills the whole buffer. *)
Definition DiskCursor_read (devs : list D) (c : DiskCursor) (n : nat) : outcome (Z * list Z * DiskCursor) :=
  device ← unwrap (get_blk_device devs (c_device c));
  '(read_size, bytes) ←
    (if decide (c_offset c ≠ 0 ∨ (n < 512)%nat) then
       data ← read_blocks device (sector c) 512;
       let start := c_offset c in
       let end_ := Z.min (c_offset c + Z.of_nat n) 512 in
       Ret (end_ - start, take (Z.to_nat (end_ - start)) (drop (Z.to_nat start) data))
     else
       let rlen := Z.of_nat n / 512 * 512 in
       data ← read_blocks device (sector c) n;
       Ret (rlen, data));
  Ret (read_size, bytes, move_cursor c read_size).

Definition DiskCursor_write (devs : list D) (c : DiskCursor) (buf : list Z) : outcome (Z * DiskCursor * list D) :=
  device ← unwrap (get_blk_device devs (c_device c));
  '(write_size, device) ←
    (if decide (c_offset c ≠ 0 ∨ (length buf < 512)%nat) then
       data ← read_blocks device (sector c) 512;
       let start := c_offset c in
       let end_ := Z.min (c_offset c + Z.of_nat (length buf)) 512 in
       device ← write_blocks device (sector c) (buf_write_at (Z.to_nat start) data (take (Z.to_nat (end_ - start)) buf));
       Ret (end_ - start, device)
     else
       device ← write_blocks device (sector c) (take 512 buf);
       Ret (512, device));
  Ret (write_size, move_cursor c write_size, <[Z.to_nat (c_device c) := device]> devs).

Inductive FatSeekFrom := Start (i : Z) | End_ (i : Z) | Current (i : Z).

Definition DiskCursor_seek (c : DiskCursor) (pos : FatSeekFrom) : outcome (Z * DiskCursor) :=
  match pos with
  | Start i => Ret (i, cursor_at c i)
  | End_ _ => Panic
  | Current i => let new_pos := wrap (as_isize (get_position c) + i) in Ret (new_pos, cursor_at c new_pos)
  end.

(** [Write::write_all] and [Read::read_exact]: [false] stands for the error of a transfer of
    nothing.  Every turn moves at least a byte, so that as many turns as bytes are enough. *)
Fixpoint write_all (fuel : nat) (devs : list D) (c : DiskCursor) (buf : list Z) : outcome (option bool * DiskCursor * list D) :=
  match buf with
  | [] => Ret (Some true, c, devs)
  | _ =>
      match fuel with
      | O => Ret (None, c, devs)
      | S fuel =>
          '(n, c, devs) ← DiskCursor_write devs c buf;
          if decide (n = 0) then Ret (Some false, c, devs) else write_all fuel devs c (drop (Z.to_nat n) buf)
      end
  end.

Fixpoint read_exact (fuel : nat) (devs : list D) (c : DiskCursor) (n : nat) : outcome (option bool * list Z * DiskCursor) :=
  match n with
  | O => Ret (Some true, [], c)
  | _ =>
      match fuel with
      | O => Ret (None, [], c)
      | S fuel =>
          '(k, bytes, c) ← DiskCursor_read devs c n;
          if decide (k = 0) then Ret (Some false, [], c) else
          '(ok, rest, c) ← read_exact fuel devs c (n - Z.to_nat k); Ret (ok, take (Z.to_nat k) bytes ++ rest, c)
      end
  end.
End adapters.

(** ** Sectors *)

Lemma sector_split pos : 512 * (pos / 512) + pos mod 512 = pos.
Proof. pose proof (Z.div_mod pos 512). lia. Qed.

Ltac sectors pos := pose proof (sector_split pos); pose proof (Z.mod_pos_bound pos 512 ltac:(lia)).

(** Rewriting a range inside a block that was read. *)
Lemma block_rewrite (l : list Z) (b k : nat) (x : list Z) : (k + length x ≤ 512)%nat → (b + 512 ≤ length l)%nat →
  buf_write_at b l (buf_write_at k (take 512 (drop b l)) x) = buf_write_at (b + k) l x.
Proof.
  intros Hk Hb. unfold buf_write_at at 2. rewrite take_take, (Nat.min_l k) by lia.
  unfold buf_write_at. rewrite !length_app, !length_take, !length_drop, length_take, length_drop.
  rewrite <- !app_assoc. rewrite (app_assoc (take b l)). rewrite take_take_drop. do 2 f_equal.
  replace (b + (k `min` (length l - b) + (length x + (512 `min` (length l - b) - (k + length x)))))%nat with (b + 512)%nat by lia.
  rewrite <- (take_drop (512 - (k + length x)) (drop (b + k + length x) l)). rewrite drop_drop.
  rewrite skipn_firstn_comm, drop_drop. f_equal; [do 2 f_equal; lia|]. f_equal. lia.
Qed.

(** What was written is read back. *)
Lemma flat_read_write (l x : list Z) (pos : nat) : (pos + length x ≤ length l)%nat → take (length x) (drop pos (buf_write_at pos l x)) = x.
Proof.
  intros Hl. unfold buf_write_at. rewrite drop_app_length' by (rewrite length_take; lia). by rewrite take_app_length.
Qed.

(** ** The RAM disk keeps the laws *)

#[export] Program Instance RamDisk_laws : BlkLaws RamDiskBlock := {|
  blk_data := rd_data; blk_limit d := Z.min (rd_size d - 1) (USIZE - 1) |}.
Next Obligation. intros d. unfold rd_size. lia. Qed.
Next Obligation.
  intros d b n Hb Hn Hl. cbn. unfold RamDisk_read_blocks. rewrite decide_True by done.
  rewrite !wrap_small by (unfold is_usize; rewrite ?wrap_small by (unfold is_usize; lia); lia). rewrite decide_False by lia. by rewrite (Z.mul_comm b).
Qed.
Next Obligation.
  intros d b buf Hb Hn Hl. cbn. unfold RamDisk_write_blocks. rewrite decide_True by done.
  rewrite !wrap_small by (unfold is_usize; rewrite ?wrap_small by (unfold is_usize; lia); lia). rewrite decide_False by lia. eexists. split; [done|].
  cbn [rd_data]. rewrite (Z.mul_comm b). split; [|done]. unfold rd_size in *. cbn [rd_data]. rewrite length_buf_write_at by lia. done.
Qed.

(** The comparison with the size takes the end for an index: the last sector cannot be used. *)
Theorem ramdisk_last_sector (d : RamDiskBlock) (k : Z) : rd_size d = 512 * (k + 1) → 0 ≤ k → rd_size d < USIZE →
  read_blocks d k 512 = Panic ∧ ∀ buf, length buf = 512%nat → write_blocks d k buf = Panic.
Proof.
  intros Hs Hk Hu. assert ((k *u 0x200) +u 512 = rd_size d) as E.
  { rewrite !wrap_small; unfold is_usize; rewrite ?wrap_small by (unfold is_usize; lia); lia. }
  split; [|intros buf Hb]; cbn; unfold RamDisk_read_blocks, RamDisk_write_blocks; rewrite ?Hb, decide_True by done; change (Z.of_nat 512) with 512; rewrite E;
    by rewrite decide_True.
Qed.

Section theory.
Context {D : Type} `{BlkLaws D}.
Implicit Types (d : D) (devs : list D).

(** ** lwext4 *)

Lemma get_blk_device_Some devs i d : devs !! i = Some d → get_blk_device devs (Z.of_nat i) = Some d.
Proof. intros Hi. unfold get_blk_device. rewrite decide_True by (apply lookup_lt_Some in Hi; lia). by rewrite Nat2Z.id. Qed.

Lemma get_blk_device_at devs i d : devs !! Z.to_nat i = Some d → 0 ≤ i → get_blk_device devs i = Some d.
Proof. intros Hi Hp. rewrite <- (Z2Nat.id i) by done. by apply get_blk_device_Some. Qed.

(** Seeking to a sector, writing whole sectors and reading them back moves the bytes at that
    position of device 0 and leaves the cursor behind them; a transfer anywhere else than at
    the start of a sector panics. *)
Theorem ext4_disk_transfers devs (dev : Ext4DiskWrapper) d d1 (pos : Z) (buf : list Z) :
  devs !! 0%nat = Some d → devs !! Z.to_nat (blk_id dev) = Some d1 → 0 ≤ blk_id dev → 0 ≤ pos < 9223372036854775808 →
  ∃ dev1, Ext4DiskWrapper_seek devs dev pos 0 = Ret (Some (pos, dev1)) ∧ position dev1 = pos ∧
    (pos mod 512 ≠ 0 → Ext4DiskWrapper_read devs dev1 (length buf) = Panic ∧ Ext4DiskWrapper_write devs dev1 buf = Panic) ∧
    (pos mod 512 = 0 → Z.of_nat (length buf) mod 512 = 0 → pos + Z.of_nat (length buf) ≤ blk_limit d →
      ∃ dev2 d', Ext4DiskWrapper_write devs dev1 buf = Ret (Z.of_nat (length buf), dev2, <[0%nat := d']> devs) ∧
        position dev2 = pos + Z.of_nat (length buf) ∧ blk_data d' = buf_write_at (Z.to_nat pos) (blk_data d) buf ∧
        Ext4DiskWrapper_read (<[0%nat := d']> devs) dev1 (length buf) = Ret (Z.of_nat (length buf), buf, dev2)).
Proof.
  intros Hd0 Hd1 Hid Hp. sectors pos. exists (set_position pos dev). split; [|split; [|split]].
  - unfold Ext4DiskWrapper_seek. rewrite <- (Z2Nat.id (blk_id dev)) by done. erewrite get_blk_device_Some by done. cbn [unwrap]. step_ret.
    rewrite decide_True by done. cbn [fmap option_fmap option_map]. by rewrite wrap_small by (unfold is_usize, USIZE; lia).
  - unfold position, set_position. cbn [block_id d_offset]. rewrite !wrap_small; unfold is_usize, USIZE; rewrite ?wrap_small; unfold is_usize, USIZE; lia.
  - intros Hm. unfold Ext4DiskWrapper_read, Ext4DiskWrapper_write. cbn [set_position d_offset]. rewrite !decide_False by (by rewrite Zmod_mod). done.
  - intros Hm Hl Hlim. destruct (blk_limit_ok d) as [Hd Hu]. assert (512 * (pos / 512) = pos) as Hpos by lia.
    destruct (blk_write_law d (pos / 512) buf) as (d' & Ew & El & Ed); [lia|done|lia|]. rewrite Hpos in Ed.
    exists (mkExt4DiskWrapper (pos / 512 + Z.of_nat (length buf) / 512) (pos mod 512) (blk_id dev)), d'.
    sectors (Z.of_nat (length buf)). assert (pos / 512 +u Z.of_nat (length buf) / 512 = pos / 512 + Z.of_nat (length buf) / 512) as Eb
      by (apply wrap_small; unfold is_usize; lia).
    unfold Ext4DiskWrapper_read, Ext4DiskWrapper_write. cbn [set_position d_offset block_id blk_id]. rewrite !decide_True by (by rewrite Zmod_mod).
    assert (get_blk_device devs 0 = Some d) as -> by (by apply (get_blk_device_Some devs 0)).
    assert (get_blk_device (<[0%nat := d']> devs) 0 = Some d') as ->
      by (apply (get_blk_device_Some _ 0); by eapply list_lookup_insert_eq, lookup_lt_Some).
    cbn [unwrap]. step_ret. rewrite Ew, Eb. step_ret.
    split; [done|]. split; [unfold position; cbn [block_id d_offset]; rewrite !wrap_small; unfold is_usize; rewrite ?wrap_small; unfold is_usize; lia|].
    split; [done|]. rewrite blk_read_law by lia. step_ret. rewrite Hpos, Ed, flat_read_write; [done|lia].
Qed.

(** ** ext4_rs *)

(** One block of a read: the bytes up to the end of the block are appended. *)
Lemma read_step_spec d (s off t k i : Z) (buf : list Z) : 0 ≤ s → 0 ≤ i → 0 ≤ t → 0 ≤ k < 512 → (t = 0 ∨ k = 0) →
  512 * (s + i) + k = off + t → 512 * (s + i + 1) ≤ blk_limit d →
  buf = take (Z.to_nat t) (drop (Z.to_nat off) (blk_data d)) ++ replicate (Z.to_nat (4096 - t)) 0 → 0 ≤ off → t + (512 - k) ≤ 4096 →
  read_step d s (buf, t, k) i =
    Ret (take (Z.to_nat (t + (512 - k))) (drop (Z.to_nat off) (blk_data d)) ++ replicate (Z.to_nat (4096 - (t + (512 - k)))) 0, t + (512 - k), 0).
Proof.
  intros Hs Hi Ht Hk Htk Hoff Hlim -> Ho Hc. destruct (blk_limit_ok d) as [Hd Hu]. unfold read_step.
  rewrite wrap_small by (unfold is_usize; lia). rewrite blk_read_law by (done || lia). step_ret.
  assert ((if decide (t = 0) then 512 - k else 512) = 512 - k) as -> by (case_decide; lia).
  rewrite skipn_firstn_comm, take_take, drop_drop. replace (Z.to_nat (512 * (s + i)) + Z.to_nat k)%nat with (Z.to_nat off + Z.to_nat t)%nat by lia.
  rewrite <- drop_drop. set (l := drop (Z.to_nat off) (blk_data d)). assert (Z.to_nat (t + (512 - k)) ≤ length l)%nat as Hl
    by (unfold l; rewrite length_drop; lia).
  replace (Z.to_nat (512 - k) `min` (512 - Z.to_nat k))%nat with (Z.to_nat (512 - k)) by lia.
  unfold buf_write_at. rewrite (take_app_length' (take _ l)), !length_take, length_drop by (rewrite length_take; lia).
  rewrite Z2Nat.inj_add, <- take_take_drop by lia. rewrite <- app_assoc. do 4 f_equal.
  rewrite drop_app_ge by (rewrite length_take; lia). rewrite length_take, drop_replicate. do 2 f_equal. lia.
Qed.

(** A read of ext4_rs gives the bytes at the offset, but when the offset is not at the start of a
    sector it reads one sector too few: the last bytes are zero, whatever the disk holds. *)
Theorem read_offset_short d (off : Z) : 0 ≤ off → 512 * (off / 512) + 4096 ≤ blk_limit d →
  read_offset d off = Ret (take (Z.to_nat (4096 - off mod 512)) (drop (Z.to_nat off) (blk_data d)) ++ replicate (Z.to_nat (off mod 512)) 0).
Proof.
  intros Ho Hlim. sectors off. unfold read_offset. change (4096 / 512) with 8.
  assert (∀ n : nat, (n < 8)%nat → foldM (read_step d (off / 512)) (seqZ 0 (Z.of_nat n + 1)) (replicate 4096 0, 0, off mod 512) =
    Ret (take (Z.to_nat (512 * (Z.of_nat n + 1) - off mod 512)) (drop (Z.to_nat off) (blk_data d)) ++
         replicate (Z.to_nat (4096 - (512 * (Z.of_nat n + 1) - off mod 512))) 0, 512 * (Z.of_nat n + 1) - off mod 512, 0)) as Hloop.
  { induction n as [|n IH]; intros Hn.
    - replace (512 * (Z.of_nat 0 + 1) - off mod 512) with (0 + (512 - off mod 512)) by lia. change (seqZ 0 (Z.of_nat 0 + 1)) with [0]. cbn [foldM].
      by rewrite (read_step_spec d (off / 512) off 0 (off mod 512) 0) by (done || lia || (apply Z.div_pos; lia)).
    - rewrite Nat2Z.inj_succ, seqZ_snoc, foldM_app by lia. unfold Z.succ. rewrite IH by lia. step_ret. cbn [foldM].
      rewrite (read_step_spec d (off / 512) off (512 * (Z.of_nat n + 1) - off mod 512) 0) by (done || lia || (apply Z.div_pos; lia)).
      by replace (512 * (Z.of_nat n + 1 + 1) - off mod 512) with (512 * (Z.of_nat n + 1) - off mod 512 + (512 - 0)) by lia. }
  specialize (Hloop 7%nat ltac:(lia)). change (Z.of_nat 7 + 1) with 8 in Hloop. rewrite Hloop. step_ret. do 3 f_equal; lia.
Qed.

(** The buffer with zeros up to the end of its last sector. *)
Definition padding (buf : list Z) : nat := Z.to_nat (- Z.of_nat (length buf) mod 512).
Definition padded (buf : list Z) : list Z := buf ++ replicate (padding buf) 0.

Lemma length_padded buf : Z.of_nat (length (padded buf)) = 512 * div_ceil (Z.of_nat (length buf)) 512.
Proof.
  unfold padded, padding, div_ceil. rewrite length_app, length_replicate. set (n := Z.of_nat (length buf)). sectors n. sectors (- n).
  rewrite Nat2Z.inj_add, Z2Nat.id by lia. fold n. case_decide.
  - rewrite Z.mod_opp_l_nz in * by lia. lia.
  - rewrite Z.mod_opp_l_z in * by lia. lia.
Qed.

Lemma div_ceil_bound n i : 0 ≤ n → i < div_ceil n 512 → 512 * i < n.
Proof. intros Hn. unfold div_ceil. sectors n. case_decide; lia. Qed.

Lemma div_ceil_pos n : 0 < n → 0 < div_ceil n 512.
Proof. intros Hn. unfold div_ceil. sectors n. case_decide; lia. Qed.

(** The block a step prepares is a block of the padded buffer. *)
Lemma padded_block buf i : 0 ≤ i → 512 * i < Z.of_nat (length buf) →
  let c := (if decide (Z.of_nat (length buf) < 512 * i + 512) then Z.of_nat (length buf) else 512 * i + 512) - 512 * i in
  c ≤ 512 ∧ buf_write_at 0 (replicate 512 0) (take (Z.to_nat c) (drop (Z.to_nat (512 * i)) buf)) = take 512 (drop (Z.to_nat (512 * i)) (padded buf)).
Proof.
  intros Hi Hlt c. assert (c = Z.min 512 (Z.of_nat (length buf) - 512 * i)) as Ec by (unfold c; case_decide; lia). split; [lia|].
  pose proof (length_padded buf) as Hp. unfold padded in *. rewrite length_app, length_replicate in Hp.
  assert (Z.of_nat (length buf) ≤ 512 * i + 512 → (512 - Z.to_nat c = padding buf)%nat) as Hpad.
  { intros Hle. unfold padding, div_ceil in *. set (n := Z.of_nat (length buf)) in *. sectors n. case_decide.
    - rewrite Z.mod_opp_l_nz in * by lia. lia.
    - rewrite Z.mod_opp_l_z in * by lia. lia. }
  unfold buf_write_at. rewrite take_0, drop_app_le by lia. cbn [app]. rewrite drop_replicate, length_take, length_drop, take_app, take_replicate, length_drop.
  rewrite Nat.add_0_l. destruct (decide (512 * i + 512 ≤ Z.of_nat (length buf))).
  - f_equal; [f_equal; lia|f_equal; lia].
  - rewrite !take_ge by (rewrite length_drop; lia). f_equal. f_equal. lia.
Qed.

Lemma write_offset_loop_spec d (off : Z) (buf : list Z) : 0 ≤ off → off mod 512 = 0 → 512 ≤ Z.of_nat (length buf) →
  off + 512 * div_ceil (Z.of_nat (length buf)) 512 ≤ blk_limit d →
  ∀ i : nat, Z.of_nat i ≤ div_ceil (Z.of_nat (length buf)) 512 →
  ∃ d', foldM (write_step (off / 512) buf) (seqZ 0 (Z.of_nat i)) (d, 0, 0) = Ret (d', Z.min (512 * Z.of_nat i) (Z.of_nat (length buf)), 0) ∧
    blk_limit d' = blk_limit d ∧ blk_data d' = buf_write_at (Z.to_nat off) (blk_data d) (take (512 * i) (padded buf)).
Proof.
  intros Ho Hm Hlen Hlim i. sectors off. destruct (blk_limit_ok d) as [Hd Hu]. pose proof (length_padded buf) as Hp.
  induction i as [|i IH]; intros Hi.
  - exists d. cbn [seqZ Z.of_nat]. split; [change (seqZ 0 0) with (@nil Z); cbn [foldM]; do 3 f_equal; lia|]. split; [done|].
    rewrite Nat.mul_0_r, take_0. by rewrite buf_write_at_nil.
  - destruct IH as (d1 & E & El & Ed); [lia|]. pose proof (div_ceil_bound (Z.of_nat (length buf)) (Z.of_nat i)).
    rewrite Nat2Z.inj_succ. unfold Z.succ. rewrite seqZ_snoc, foldM_app, E by lia. step_ret. cbn [foldM].
    rewrite Z.min_l by lia. unfold write_step. rewrite (decide_False (P := Z.of_nat (length buf) < 512)) by lia. step_ret. cbv zeta.
    destruct (padded_block buf (Z.of_nat i)) as [Hc Eb]; [lia|lia|]. set (c := _ - 512 * Z.of_nat i) in *.
    rewrite decide_False by lia. change (Z.to_nat 0) with 0%nat. rewrite Eb. rewrite wrap_small by (unfold is_usize; lia).
    assert (length (take 512 (drop (Z.to_nat (512 * Z.of_nat i)) (padded buf))) = 512%nat) as Hb by (rewrite length_take, length_drop; lia).
    destruct (blk_write_law d1 (off / 512 + Z.of_nat i) (take 512 (drop (Z.to_nat (512 * Z.of_nat i)) (padded buf)))) as (d2 & Ew & El2 & Ed2);
      [lia|by rewrite Hb|rewrite Hb; lia|]. rewrite Ew. step_ret. exists d2. split; [|split; [congruence|]].
    + assert (512 * Z.of_nat i + c = Z.min (512 * (Z.of_nat i + 1)) (Z.of_nat (length buf))) as -> by (unfold c; case_decide; lia). done.
    + rewrite Ed2, Ed. replace (Z.to_nat (512 * (off / 512 + Z.of_nat i))) with (Z.to_nat off + length (take (512 * i) (padded buf)))%nat by (rewrite length_take; lia).
      rewrite buf_write_at_app by (rewrite length_take; lia). f_equal. replace (Z.to_nat (512 * Z.of_nat i)) with (512 * i)%nat by lia.
      rewrite take_take_drop. f_equal. lia.
Qed.

(** A write of ext4_rs: a short one inside a sector changes the bytes it is given; one of a
    sector or more from the start of a sector also clears the rest of its last sector; and one
    that would cross a sector from its middle panics. *)
Theorem write_offset_cases d (off : Z) (buf : list Z) : 0 ≤ off → buf ≠ [] →
  512 * (off / 512) + 512 * div_ceil (Z.of_nat (length buf)) 512 ≤ blk_limit d →
  let len := Z.of_nat (length buf) in
  (len < 512 → off mod 512 + len ≤ 512 →
     ∃ d', write_offset d off buf = Ret d' ∧ blk_data d' = buf_write_at (Z.to_nat off) (blk_data d) buf) ∧
  (512 ≤ len → off mod 512 = 0 →
     ∃ d', write_offset d off buf = Ret d' ∧ blk_data d' = buf_write_at (Z.to_nat off) (blk_data d) (padded buf)) ∧
  (512 < off mod 512 + Z.min len 512 → write_offset d off buf = Panic).
Proof.
  intros Ho Hne Hlim len. sectors off. destruct (blk_limit_ok d) as [Hd Hu]. assert (0 < len) by (unfold len; destruct buf; [done|cbn; lia]).
  assert (len < 512 → div_ceil len 512 = 1) as Hone. { intros Hl. unfold div_ceil. rewrite Z.mod_small, Z.div_small by lia. rewrite decide_True by lia. done. }
  unfold write_offset. fold len in Hlim |- *. split; [|split].
  - intros Hl Hfit. rewrite Hone in Hlim |- * by done. change (seqZ 0 1) with [0]. cbn [foldM]. unfold write_step. fold len. rewrite decide_True by done.
    rewrite wrap_small by (unfold is_usize; lia). rewrite blk_read_law by (done || lia). cbv zeta. step_ret. rewrite (decide_True (P := len < 0 + 512)) by lia. step_ret.
    rewrite decide_False by lia. rewrite Z.sub_0_r. change (drop (Z.to_nat 0) buf) with buf. rewrite (take_ge buf) by lia.
    set (x := buf_write_at _ _ _). assert (length x = 512%nat) as Hx.
    { unfold x. rewrite length_buf_write_at; rewrite length_take, length_drop; lia. }
    destruct (blk_write_law d (off / 512 + 0) x) as (d' & Ew & _ & Ed); [lia|by rewrite Hx|rewrite Hx; lia|]. rewrite Ew. step_ret. exists d'. split; [done|].
    rewrite Ed. unfold x. rewrite block_rewrite by lia. f_equal. lia.
  - intros Hl Hm. rewrite Hm. destruct (write_offset_loop_spec d off buf Ho Hm ltac:(lia) ltac:(fold len; lia) (Z.to_nat (div_ceil len 512))) as (d' & E & _ & Ed).
    { fold len. pose proof (div_ceil_pos len). lia. }
    rewrite Z2Nat.id in E by (pose proof (div_ceil_pos len); lia). rewrite E. step_ret. exists d'. split; [done|]. rewrite Ed. f_equal.
    apply take_ge. pose proof (length_padded buf) as Hpl. change (Z.of_nat (length buf)) with len in Hpl. lia.
  - intros Hbig. pose proof (div_ceil_pos len ltac:(done)) as Hq.
    rewrite seqZ_cons by lia. cbn [foldM]. unfold write_step. fold len. rewrite wrap_small by (unfold is_usize; lia).
    assert (512 < off mod 512 + ((if decide (len < 0 + 512) then len else 0 + 512) - 0)) by (case_decide; lia).
    destruct (decide (len < 512)); [rewrite blk_read_law; [|lia|done|lia]|]; cbv zeta; step_ret; by rewrite decide_True by done.
Qed.

(** ** fatfs *)

(** The cursor [c] is at byte [pos]. *)
Definition at_pos (c : DiskCursor) (pos : Z) : Prop := sector c = pos / 512 ∧ c_offset c = pos mod 512 ∧ 0 ≤ c_device c.

(** The sector of a position below a sector boundary ends below it. *)
Lemma sector_below pos l : 0 ≤ pos < l → l mod 512 = 0 → 512 * (pos / 512) + 512 ≤ l.
Proof. intros Hp Hl. sectors pos. sectors l. assert (pos / 512 < l / 512) by (apply Z.div_lt_upper_bound; lia). lia. Qed.

Lemma move_cursor_pos c pos n : at_pos c pos → 0 ≤ pos → 0 ≤ n → pos + n < USIZE → move_cursor c n = cursor_at c (pos + n).
Proof.
  intros (Hs & Ho & _) Hp Hn Hu. sectors pos. unfold move_cursor, get_position. rewrite Hs, Ho.
  rewrite (wrap_small (pos / 512 * 512)) by (unfold is_usize; lia). rewrite (wrap_small (_ + _ mod _)) by (unfold is_usize; lia).
  rewrite wrap_small by (unfold is_usize; lia). f_equal. lia.
Qed.

(** A write moves up to the end of the sector. *)
Lemma cursor_write_spec devs c d buf pos l : devs !! Z.to_nat (c_device c) = Some d → at_pos c pos → 0 ≤ pos < l → l mod 512 = 0 → l ≤ blk_limit d →
  buf ≠ [] →
  let n := Z.min (Z.of_nat (length buf)) (512 - pos mod 512) in
  ∃ d', DiskCursor_write devs c buf = Ret (n, cursor_at c (pos + n), <[Z.to_nat (c_device c) := d']> devs) ∧ blk_limit d' = blk_limit d ∧
    blk_data d' = buf_write_at (Z.to_nat pos) (blk_data d) (take (Z.to_nat n) buf).
Proof.
  intros Hdev Hat Hp Hl Hlim Hne n. pose proof (sector_below pos l Hp Hl) as Hsec. destruct (blk_limit_ok d) as [Hd Hu]. sectors pos.
  assert (0 < Z.of_nat (length buf)) by (destruct buf; [done|cbn; lia]).
  assert (move_cursor c n = cursor_at c (pos + n)) as Emv by (apply move_cursor_pos; [done|unfold n; lia..]).
  destruct Hat as (Hs & Ho & Hc). unfold DiskCursor_write. rewrite (get_blk_device_at devs (c_device c) d) by done.
  cbn [unwrap]. step_ret. rewrite Hs, Ho. case_decide as Hb.
  - rewrite blk_read_law; [|lia|done|lia]. cbv zeta. step_ret.
    assert (Z.min (pos mod 512 + Z.of_nat (length buf)) 512 - pos mod 512 = n) as -> by (unfold n; lia).
    set (x := buf_write_at _ _ _). assert (length x = 512%nat) as Hx.
    { unfold x. rewrite length_buf_write_at; rewrite ?length_take, length_drop; unfold n; lia. }
    destruct (blk_write_law d (pos / 512) x) as (d' & Ew & El & Ed); [lia|by rewrite Hx|rewrite Hx; lia|]. rewrite Ew. step_ret. rewrite Emv.
    exists d'. split; [done|]. split; [done|]. rewrite Ed. unfold x. rewrite block_rewrite by (rewrite ?length_take; unfold n; lia). f_equal. lia.
  - assert (pos mod 512 = 0 ∧ 512 ≤ Z.of_nat (length buf)) as [H0' Hlen] by lia. assert (n = 512) as En by (unfold n; lia).
    assert (length (take 512 buf) = 512%nat) as Hx by (rewrite length_take; lia).
    destruct (blk_write_law d (pos / 512) (take 512 buf)) as (d' & Ew & El & Ed); [lia|by rewrite Hx|rewrite Hx; lia|]. rewrite Ew. step_ret.
    rewrite <- En, Emv. exists d'. split; [done|]. split; [done|]. rewrite Ed, En. f_equal. lia.
Qed.

Lemma write_all_spec fuel : ∀ devs c d buf pos l, (length buf ≤ fuel)%nat →
  devs !! Z.to_nat (c_device c) = Some d → at_pos c pos → 0 ≤ pos → pos + Z.of_nat (length buf) ≤ l → l mod 512 = 0 → l ≤ blk_limit d →
  ∃ d', write_all fuel devs c buf = Ret (Some true, cursor_at c (pos + Z.of_nat (length buf)), <[Z.to_nat (c_device c) := d']> devs) ∧
    blk_data d' = buf_write_at (Z.to_nat pos) (blk_data d) buf ∧ blk_limit d' = blk_limit d.
Proof.
  induction fuel as [|fuel IH]; intros devs c d buf pos l Hf Hdev Hat Hp Hl Hlm Hlim; destruct buf as [|x buf].
  1, 3: exists d; split; [|split; [by rewrite buf_write_at_nil|done]]; cbn [write_all length]; rewrite list_insert_id, Z.add_0_r by done;
    destruct c, Hat as (Hs & Ho & _); cbn in Hs, Ho; subst; by unfold cursor_at.
  - cbn in Hf; lia.
  - destruct (cursor_write_spec devs c d (x :: buf) pos l) as (d1 & E & El & Ed); [done|done|cbn [length] in Hl; lia|done|done|done|].
    cbn [write_all]. rewrite E. step_ret. set (n := Z.min _ _) in *. sectors pos. assert (0 < n ≤ Z.of_nat (length (x :: buf))) as Hn by (unfold n; cbn [length]; lia).
    rewrite decide_False by lia. destruct (blk_limit_ok d) as [Hd Hu].
    destruct (IH (<[Z.to_nat (c_device c) := d1]> devs) (cursor_at c (pos + n)) d1 (drop (Z.to_nat n) (x :: buf)) (pos + n) l) as (d2 & E2 & Ed2 & El2);
      [rewrite length_drop; lia|by eapply list_lookup_insert_eq, lookup_lt_Some|by destruct Hat as (_ & _ & ?)|lia|rewrite length_drop; lia|done|by rewrite El|].
    rewrite E2. exists d2. split.
    + do 2 f_equal; [f_equal|by rewrite list_insert_insert_eq]. unfold cursor_at. cbn [c_device]. rewrite length_drop. f_equal; f_equal; lia.
    + split; [|congruence]. rewrite Ed2, Ed. replace (Z.to_nat (pos + n)) with (Z.to_nat pos + length (take (Z.to_nat n) (x :: buf)))%nat by (rewrite length_take; lia).
      rewrite buf_write_at_app by (rewrite length_take; lia). by rewrite take_drop.
Qed.

(** What is left of a read of [n] bytes at [pos] when it reaches the start of a sector; it
    must then be part of one sector or whole sectors. *)
Definition from_sector (pos : Z) (n : nat) : Z :=
  if decide (pos mod 512 = 0) then Z.of_nat n else Z.of_nat n - Z.min (Z.of_nat n) (512 - pos mod 512).
Definition readable (pos : Z) (n : nat) : Prop := from_sector pos n < 512 ∨ from_sector pos n mod 512 = 0.

Lemma readable_rest pos n k : Z.of_nat n ≤ k → readable pos (n - Z.to_nat k).
Proof. intros Hk. replace (n - Z.to_nat k)%nat with 0%nat by lia. left. unfold from_sector. sectors pos. case_decide; lia. Qed.

Lemma cursor_read_spec devs c d n pos l : devs !! Z.to_nat (c_device c) = Some d → at_pos c pos → 0 ≤ pos → pos + Z.of_nat n ≤ l → l mod 512 = 0 →
  l ≤ blk_limit d → (0 < n)%nat → readable pos n →
  let k := if decide (pos mod 512 ≠ 0 ∨ (n < 512)%nat) then Z.min (Z.of_nat n) (512 - pos mod 512) else Z.of_nat n in
  DiskCursor_read devs c n = Ret (k, take (Z.to_nat k) (drop (Z.to_nat pos) (blk_data d)), cursor_at c (pos + k)).
Proof.
  intros Hdev Hat Hp Hl Hlm Hlim Hn Hr k. pose proof (sector_below pos l ltac:(lia) Hlm) as Hsec. destruct (blk_limit_ok d) as [Hd Hu]. sectors pos.
  assert (move_cursor c k = cursor_at c (pos + k)) as Emv by (apply move_cursor_pos; [done|first [lia|unfold k; case_decide; lia]..]).
  destruct Hat as (Hs & Ho & Hc). unfold DiskCursor_read. rewrite (get_blk_device_at devs (c_device c) d) by done. cbn [unwrap]. step_ret. rewrite Hs, Ho.
  unfold k in *. case_decide as Hb.
  - rewrite blk_read_law; [|lia|done|lia]. cbv zeta. step_ret.
    assert (Z.min (pos mod 512 + Z.of_nat n) 512 - pos mod 512 = Z.min (Z.of_nat n) (512 - pos mod 512)) as -> by lia. rewrite Emv.
    rewrite skipn_firstn_comm, take_take, drop_drop. do 4 f_equal; [lia|]. f_equal. lia.
  - assert (pos mod 512 = 0 ∧ 512 ≤ Z.of_nat n) as [H0' Hlen] by lia. unfold readable, from_sector in Hr. rewrite decide_True in Hr by done.
    rewrite blk_read_law by lia. cbv zeta. step_ret. assert (Z.of_nat n / 512 * 512 = Z.of_nat n) as -> by (sectors (Z.of_nat n); lia).
    rewrite Emv, Nat2Z.id. do 5 f_equal. lia.
Qed.

Lemma read_exact_spec fuel : ∀ devs c d n pos l, (n ≤ fuel)%nat → devs !! Z.to_nat (c_device c) = Some d → at_pos c pos → 0 ≤ pos →
  pos + Z.of_nat n ≤ l → l mod 512 = 0 → l ≤ blk_limit d → readable pos n →
  read_exact fuel devs c n = Ret (Some true, take n (drop (Z.to_nat pos) (blk_data d)), cursor_at c (pos + Z.of_nat n)).
Proof.
  induction fuel as [|fuel IH]; intros devs c d n pos l Hf Hdev Hat Hp Hl Hlm Hlim Hr; destruct n as [|n].
  1, 3: cbn [read_exact]; rewrite Z.add_0_r, take_0; destruct c, Hat as (Hs & Ho & _); cbn in Hs, Ho; subst; by unfold cursor_at.
  - lia.
  - cbn [read_exact]. rewrite (cursor_read_spec devs c d (S n) pos l) by (done || lia). cbv zeta. set (k := if decide (_ ∨ _) then _ else _). step_ret. sectors pos.
    assert (0 < k ≤ Z.of_nat (S n) ∧ readable (pos + k) (S n - Z.to_nat k)) as [Hk Hr'].
    { unfold k. destruct (decide (pos mod 512 ≠ 0 ∨ (S n < 512)%nat)) as [Hb|Hb]; [|split; [lia|]; by apply readable_rest].
      split; [lia|]. destruct (decide (Z.of_nat (S n) ≤ 512 - pos mod 512)); [apply readable_rest; lia|]. rewrite Z.min_r by lia.
      unfold readable, from_sector in *. rewrite (decide_False (P := pos mod 512 = 0)), Z.min_r in Hr by lia.
      assert ((pos + (512 - pos mod 512)) mod 512 = 0) as Hz'. { replace (pos + (512 - pos mod 512)) with ((pos / 512 + 1) * 512) by lia. apply Z.mod_mul. lia. }
      rewrite decide_True by done. replace (Z.of_nat (S n - Z.to_nat (512 - pos mod 512))) with (Z.of_nat (S n) - (512 - pos mod 512)) by lia. done. }
    rewrite decide_False by lia. rewrite (IH devs _ d _ (pos + k) l) by (done || lia || (destruct Hat as (_ & _ & ?); done)). step_ret.
    rewrite take_take, Nat.min_id. do 3 f_equal.
    + replace (Z.to_nat (pos + k)) with (Z.to_nat pos + Z.to_nat k)%nat by lia. rewrite <- drop_drop, take_take_drop. f_equal. lia.
    + unfold cursor_at. cbn [c_device]. by replace (pos + k + Z.of_nat (S n - Z.to_nat k)) with (pos + Z.of_nat (S n)) by lia.
Qed.

(** The cursor of fatfs turns a block device into a flat file: [write_all] at any position
    changes exactly the bytes from there on and moves the cursor behind them, whatever sectors it
    crosses, and [read_exact] from the same place reads them back, provided what it reads from
    the start of a sector is part of one sector or whole sectors. *)
Theorem fat_disk_roundtrip devs (c : DiskCursor) d (buf : list Z) (pos l : Z) :
  devs !! Z.to_nat (c_device c) = Some d → 0 ≤ c_device c → 0 ≤ pos → pos + Z.of_nat (length buf) ≤ l → l mod 512 = 0 → l ≤ blk_limit d →
  ∃ c1 c2 d',
    DiskCursor_seek c (Start pos) = Ret (pos, c1) ∧
    write_all (length buf) devs c1 buf = Ret (Some true, c2, <[Z.to_nat (c_device c) := d']> devs) ∧
    at_pos c2 (pos + Z.of_nat (length buf)) ∧
    blk_data d' = buf_write_at (Z.to_nat pos) (blk_data d) buf ∧
    (readable pos (length buf) → read_exact (length buf) (<[Z.to_nat (c_device c) := d']> devs) c1 (length buf) = Ret (Some true, buf, c2)).
Proof.
  intros Hdev Hc Hp Hl Hlm Hlim. destruct (blk_limit_ok d) as [Hd Hu]. exists (cursor_at c pos), (cursor_at c (pos + Z.of_nat (length buf))).
  destruct (write_all_spec (length buf) devs (cursor_at c pos) d buf pos l) as (d' & E & Ed & El); [done..|]. exists d'. split; [done|]. split; [exact E|].
  split; [done|]. split; [done|]. intros Hr.
  rewrite (read_exact_spec _ _ _ d' _ pos l) by (done || (by eapply list_lookup_insert_eq, lookup_lt_Some) || (by rewrite El)).
  rewrite Ed, flat_read_write by lia. done.
Qed.
End theory.

(** On the RAM disk the proviso is needed: reading more than a sector, but not whole sectors, from
    the start of a sector panics the kernel. *)
Theorem fat_read_panics (devs : list RamDiskBlock) (c : DiskCursor) (d : RamDiskBlock) (n : nat) (pos : Z) :
  devs !! Z.to_nat (c_device c) = Some d → at_pos c pos → pos mod 512 = 0 → (512 < n)%nat → Z.of_nat n mod 512 ≠ 0 →
  DiskCursor_read devs c n = Panic.
Proof.
  intros Hdev (Hs & Ho & Hc) Hp Hn Hm. unfold DiskCursor_read. rewrite (get_blk_device_at devs (c_device c) d) by done. cbn [unwrap]. step_ret.
  rewrite decide_False by lia. cbn. unfold RamDisk_read_blocks. by rewrite decide_False.
Qed.

(** ** Witness: five bytes across the first sector boundary of a RAM disk *)

Lemma fat_disk_roundtrip_witness : ∃ c1 c2 d',
  write_all 5 [mkRamDisk (replicate 2048 0)] c1 [1; 2; 3; 4; 5] = Ret (Some true, c2, [d']) ∧
  read_exact 5 [d'] c1 5 = Ret (Some true, [1; 2; 3; 4; 5], c2).
Proof.
  destruct (fat_disk_roundtrip [mkRamDisk (replicate 2048 0)] (mkDiskCursor 0 0 0) (mkRamDisk (replicate 2048 0)) [1; 2; 3; 4; 5] 510 1024)
    as (c1 & c2 & d' & _ & E & _ & _ & R); [reflexivity|done|done|vm_compute; discriminate|reflexivity|vm_compute; discriminate|].
  exists c1, c2, d'. split; [exact E|]. apply R. vm_compute. left. reflexivity.
Defined.
