(* ===== verification/Ext4.v ===== *)
(** * The ext4 root file system

    Models filesystem/fs/src/ext4_shim.rs, the inodes of the root file system, over the C
    library lwext4, with the thin layer vendor/lwext4_rust/src/file.rs that calls it.  The C
    functions are the fields of a record [Lwext4] over a library state [L]; what is used of
    their documented behaviour is the class [Lwext4Laws].  Paths are lists of bytes.

    An inode is its path and type.  Its [Ext4File] keeps a descriptor between calls; every
    operation that looks at the descriptor opens it first, so that it is not part of the
    state here.

    The theorems show that [path_deal_with] ends and gives the directory's path with the
    cleaned components of the name, that reads deliver the file's bytes, that a write behind
    the end of a file is moved to its end, and which errors of the library are lost. *)

From S2P Require Import Prelude Vfs.

(** ** The C library *)

(** [ext4_file], as far as it is used: opened, size, position. *)
Record ext4_file := mkExt4File { mp : bool; fsize : Z; fpos : Z }.

Definition null_file : ext4_file := mkExt4File false 0 0.

(** Functions return 0 or a positive error number. *)
Record Lwext4 (L : Type) := mkLwext4 {
  ext4_fopen : L → list Z → string → Z * ext4_file * L;
  ext4_fclose : L → ext4_file → ext4_file * L;
  ext4_fseek : L → ext4_file → Z → Z → Z * ext4_file;
  ext4_fread : L → ext4_file → nat → Z * list Z * ext4_file;
  ext4_fwrite : L → ext4_file → list Z → Z * Z * ext4_file * L;
  ext4_ftruncate : L → ext4_file → Z → Z * ext4_file * L;
  ext4_fremove : L → list Z → Z * L;
  ext4_inode_exist : L → list Z → Z → Z;
  ext4_dir_mk : L → list Z → Z * L;
  ext4_dir_rm : L → list Z → Z * L;
  ext4_dir_list : L → list Z → list (list Z * Z);
  ext4_fsymlink : L → list Z → list Z → Z * L;
  ext4_readlink : L → list Z → nat → Z * list Z;
  ext4_raw_inode_fill : L → list Z → Z * Z;
}.
Arguments mkLwext4 {L}.
Arguments ext4_fopen {L}. Arguments ext4_fclose {L}. Arguments ext4_fseek {L}. Arguments ext4_fread {L}.
Arguments ext4_fwrite {L}. Arguments ext4_ftruncate {L}. Arguments ext4_fremove {L}. Arguments ext4_inode_exist {L}.
Arguments ext4_dir_mk {L}. Arguments ext4_dir_rm {L}. Arguments ext4_dir_list {L}. Arguments ext4_fsymlink {L}.
Arguments ext4_readlink {L}. Arguments ext4_raw_inode_fill {L}.

Inductive InodeTypes :=
  | EXT4_DE_UNKNOWN | EXT4_DE_REG_FILE | EXT4_DE_DIR | EXT4_DE_CHRDEV | EXT4_DE_BLKDEV | EXT4_DE_FIFO | EXT4_DE_SOCK | EXT4_DE_SYMLINK
  | EXT4_INODE_MODE_FIFO | EXT4_INODE_MODE_CHARDEV | EXT4_INODE_MODE_DIRECTORY | EXT4_INODE_MODE_BLOCKDEV | EXT4_INODE_MODE_FILE
  | EXT4_INODE_MODE_SOFTLINK | EXT4_INODE_MODE_SOCKET | EXT4_INODE_MODE_TYPE_MASK.

#[export] Instance InodeTypes_eq_dec : EqDecision InodeTypes.
Proof. solve_decision. Defined.

Definition InodeTypes_table : list (Z * InodeTypes) :=
  [(0, EXT4_DE_UNKNOWN); (1, EXT4_DE_REG_FILE); (2, EXT4_DE_DIR); (3, EXT4_DE_CHRDEV); (4, EXT4_DE_BLKDEV); (5, EXT4_DE_FIFO);
   (6, EXT4_DE_SOCK); (7, EXT4_DE_SYMLINK); (0x1000, EXT4_INODE_MODE_FIFO); (0x2000, EXT4_INODE_MODE_CHARDEV);
   (0x4000, EXT4_INODE_MODE_DIRECTORY); (0x6000, EXT4_INODE_MODE_BLOCKDEV); (0x8000, EXT4_INODE_MODE_FILE);
   (0xA000, EXT4_INODE_MODE_SOFTLINK); (0xC000, EXT4_INODE_MODE_SOCKET); (0xF000, EXT4_INODE_MODE_TYPE_MASK)].

Definition InodeTypes_from (n : Z) : InodeTypes :=
  default EXT4_DE_UNKNOWN (snd <$> List.find (λ x, bool_decide (x.1 = n)) InodeTypes_table).

Definition inode_type_code (t : InodeTypes) : Z :=
  default 0 (fst <$> List.find (λ x, bool_decide (x.2 = t)) InodeTypes_table).

(** [todo!()] for the inode modes. *)
Definition map_ext4_type (value : InodeTypes) : outcome FileType :=
  match value with
  | EXT4_DE_UNKNOWN | EXT4_DE_REG_FILE => Ret FT_File
  | EXT4_DE_DIR => Ret FT_Directory
  | EXT4_DE_CHRDEV | EXT4_DE_BLKDEV | EXT4_DE_FIFO => Ret FT_Device
  | EXT4_DE_SOCK => Ret FT_Socket
  | EXT4_DE_SYMLINK => Ret FT_Link
  | _ => Panic
  end.

(** ** Names *)

Abbreviation slash := 47 (only parsing).
Abbreviation dot := 46 (only parsing).

(** [str::trim_start_matches('/')], [trim_end_matches], [trim_matches]. *)
Fixpoint trim_start (p : list Z) : list Z :=
  match p with x :: p' => if decide (x = slash) then trim_start p' else p | [] => [] end.
Definition trim_end (p : list Z) : list Z := reverse (trim_start (reverse p)).
Definition trim_matches (p : list Z) : list Z := trim_end (trim_start p).

(** [p.replace("//", "/")]: the matches do not overlap. *)
Fixpoint replace_slashes (p : list Z) : list Z :=
  match p with
  | [] => []
  | x :: p' =>
      match p' with
      | y :: p'' => if decide (x = slash ∧ y = slash) then slash :: replace_slashes p'' else x :: replace_slashes p'
      | [] => [x]
      end
  end.

(** [None] is fuel that ran out. *)
Fixpoint path_deal_with (fuel : nat) (dir path : list Z) : option (list Z) :=
  match fuel with
  | O => None
  | S fuel =>
      let p := trim_matches path in
      if decide (p = [] ∨ p = [dot]) then Some [] else
      match p with
      | x :: y :: rest =>
          if decide (x = dot ∧ y = slash) then path_deal_with fuel dir rest
          else if decide (replace_slashes p ≠ p) then path_deal_with fuel dir (replace_slashes p)
          else Some (trim_end dir ++ slash :: p)
      | _ =>
          if decide (replace_slashes p ≠ p) then path_deal_with fuel dir (replace_slashes p)
          else Some (trim_end dir ++ slash :: p)
      end
  end.

(** Every call shortens the path, so that its length is enough. *)
Definition child_path (dir path : list Z) : list Z := default [] (path_deal_with (S (length path)) dir path).

Definition bytes_string (l : list Z) : string := String.string_of_list_ascii (map (λ b, Ascii.ascii_of_N (Z.to_N b)) l).

(** [CString::from_vec_with_nul] and [to_str] on the bytes of a name: no zero, valid UTF-8. *)
Definition is_cont (b : Z) : bool := bool_decide (128 ≤ b < 192).
Fixpoint valid_utf8 (l : list Z) : bool :=
  match l with
  | [] => true
  | a :: l1 =>
      if decide (a < 128) then valid_utf8 l1 else
      match l1 with
      | [] => false
      | b :: l2 =>
          if decide (194 ≤ a < 224) then is_cont b && valid_utf8 l2 else
          match l2 with
          | [] => false
          | c :: l3 =>
              if decide (224 ≤ a < 240) then
                is_cont b && is_cont c && negb (bool_decide (a = 224 ∧ b < 160)) && negb (bool_decide (a = 237 ∧ 160 ≤ b)) && valid_utf8 l3
              else
              match l3 with
              | [] => false
              | d :: l4 =>
                  bool_decide (240 ≤ a < 245) && is_cont b && is_cont c && is_cont d &&
                  negb (bool_decide (a = 240 ∧ b < 144)) && negb (bool_decide (a = 244 ∧ 144 ≤ b)) && valid_utf8 l4
              end
          end
      end
  end.

Definition name_string (name : list Z) : result string :=
  if decide (0 ∈ name) then Err EINVAL else if valid_utf8 name then Ok (bytes_string name) else Err EINVAL.

(** ** The layer over the C functions *)

Section shim.
Context {L : Type} (lib : Lwext4 L) (Errno_new : Z → Errno).

(** [flags_to_cstring] *)
Definition flags_to_mode (flags : Z) : string :=
  if decide (flags = 0) then "rb" else if decide (flags = 2) then "r+" else if decide (flags = 0x241) then "wb"
  else if decide (flags = 0x441) then "ab" else if decide (flags = 0x242) then "w+" else if decide (flags = 0x442) then "a+" else "r+".

(** The error is that of [map_err(map_ext4_err)]. *)
Definition rc_result {A} (rc : Z) (a : A) : result A := if decide (rc = 0) then Ok a else Err (Errno_new rc).

Definition file_open (path : list Z) (flags : Z) (l : L) : result unit * ext4_file * L :=
  let '(rc, f, l) := ext4_fopen lib l path (flags_to_mode flags) in (rc_result rc tt, f, l).

Definition file_close (f : ext4_file) (l : L) : L := if mp f then (ext4_fclose lib l f).2 else l.

(** A position behind the end is replaced by the end. *)
Definition file_seek (offset : Z) (l : L) (f : ext4_file) : result unit * ext4_file :=
  let size := as_isize (fsize f) in
  let offset := if decide (size < offset) then size else offset in
  let '(rc, f) := ext4_fseek lib l f offset 0 in (rc_result rc tt, f).

(** Errors other than "no such entry" are reported. *)
Definition remove_result (rc : Z) : result unit := if decide (rc = 0 ∨ rc = 2) then Ok tt else Err (Errno_new rc).

Definition check_inode_exist (l : L) (path : list Z) (t : InodeTypes) : bool := bool_decide (ext4_inode_exist lib l path (inode_type_code t) = 0).

(** [Errno::from_ret]: only values close below 2^64 are errors. *)
Definition from_ret (rc : Z) : result Z := if decide (USIZE - 4096 < wrap rc) then Err (Errno_new (- rc)) else Ok (wrap rc).

(** ** Inodes *)

Record Ext4Node := mkExt4Node { en_path : list Z; en_type : InodeTypes; en_file_type : FileType }.

Definition Ext4FileWrapper_new (path : list Z) (t : InodeTypes) : outcome Ext4Node :=
  ft ← map_ext4_type t; Ret (mkExt4Node path t ft).

(** The three attempts of [readat]; [more] counts those after this one. *)
Fixpoint read_attempts (attempts : nat) (path : list Z) (offset : Z) (buf : list Z) (l : L) : result Z * list Z * L :=
  match attempts with
  | O => (Err (Errno_new 5), buf, l)
  | S more =>
      let again (e : Errno) (buf : list Z) (l : L) := if decide (more = 0%nat) then (Err e, buf, l) else read_attempts more path offset buf l in
      let '(r, f, l) := file_open path 0 l in
      match r with
      | Err e => again e buf l
      | Ok _ =>
          let '(r, f) := file_seek (as_isize offset) l f in
          match r with
          | Err e => again e buf (file_close f l)
          | Ok _ =>
              let '(rc, data, f) := ext4_fread lib l f (length buf) in
              let buf := buf_write buf data in
              if decide (rc = 0) then (Ok (Z.of_nat (length data)), buf, file_close f l) else again (Errno_new rc) buf (file_close f l)
          end
      end
  end.

Definition Ext4_readat (n : Ext4Node) (offset : Z) (buf : list Z) (l : L) : outcome (result Z * list Z * L) :=
  Ret (read_attempts 3 (en_path n) offset buf l).

(** An error after the file was opened leaves it open. *)
Definition Ext4_writeat (n : Ext4Node) (offset : Z) (buf : list Z) (l : L) : outcome (result Z * L) :=
  let '(r, f, l) := file_open (en_path n) 2 l in
  match r with
  | Err e => Ret (Err e, l)
  | Ok _ =>
      let '(r, f) := file_seek (as_isize offset) l f in
      match r with
      | Err e => Ret (Err e, l)
      | Ok _ =>
          let '(rc, wsize, f, l) := ext4_fwrite lib l f buf in
          if decide (rc = 0) then Ret (Ok wsize, file_close f l) else Ret (Err (Errno_new rc), l)
      end
  end.

Definition Ext4_mkdir (n : Ext4Node) (name : string) (l : L) : outcome (result unit * L) :=
  let '(rc, l) := ext4_dir_mk lib l (child_path (en_path n) (str_bytes name)) in Ret (rc_result rc tt, l).

Definition Ext4_unlink (n : Ext4Node) (name : string) (l : L) : outcome (result unit * L) :=
  let fpath := child_path (en_path n) (str_bytes name) in
  if check_inode_exist l fpath EXT4_DE_DIR then let '(rc, l) := ext4_dir_rm lib l fpath in Ret (remove_result rc, l)
  else let '(rc, l) := ext4_fremove lib l fpath in Ret (remove_result rc, l).

(** [CString::new] panics on a zero byte. *)
Definition Ext4_symlink (n : Ext4Node) (name src : string) (l : L) : outcome (result unit * L) :=
  let fpath := child_path (en_path n) (str_bytes name) in
  if decide (fpath = []) then Ret (Ok tt, l) else
  if decide (0 ∈ fpath) then Panic else
  if check_inode_exist l fpath EXT4_DE_SYMLINK then Ret (Err EEXIST, l) else
  if decide (0 ∈ str_bytes src) then Panic else
  let '(rc, l) := ext4_fsymlink lib l (str_bytes src) fpath in
  Ret (match from_ret rc with Ok _ => Ok tt | Err e => Err e end, l).

Definition Ext4_resolve_link (n : Ext4Node) (l : L) : outcome (result string) :=
  let '(rc, data) := ext4_readlink lib l (en_path n) 100 in
  Ret (match from_ret rc with Ok _ => Ok (bytes_string data) | Err e => Err e end).

Fixpoint dir_entries (l : list (list Z * Z)) : outcome (result (list DirEntry)) :=
  match l with
  | [] => Ret (Ok [])
  | (name, t) :: l =>
      match name_string name with
      | Err e => Ret (Err e)
      | Ok filename =>
          ft ← map_ext4_type (InodeTypes_from t);
          r ← dir_entries l;
          Ret (match r with Ok es => Ok (mkDirEntry filename 0 ft :: es) | Err e => Err e end)
      end
  end.

Definition Ext4_read_dir (n : Ext4Node) (l : L) : outcome (result (list DirEntry)) :=
  if decide (en_type n = EXT4_DE_DIR) then dir_entries (ext4_dir_list lib l (en_path n)) else Ret (Err (Errno_new (-1))).

Definition Ext4_lookup (n : Ext4Node) (name : string) (l : L) : outcome (result Ext4Node) :=
  let fpath := child_path (en_path n) (str_bytes name) in
  let found t := x ← Ext4FileWrapper_new fpath t; Ret (Ok x) in
  if decide (fpath = []) then x ← Ext4FileWrapper_new [slash] EXT4_DE_DIR; Ret (Ok x)
  else if check_inode_exist l fpath EXT4_DE_DIR then found EXT4_DE_DIR
  else if check_inode_exist l fpath EXT4_DE_REG_FILE then found EXT4_DE_REG_FILE
  else if check_inode_exist l fpath EXT4_DE_SYMLINK then found EXT4_DE_SYMLINK
  else Ret (Err ENOENT).

Definition Ext4_create (n : Ext4Node) (name : string) (ty : FileType) (l : L) : outcome (result unit * L) :=
  ext4_type ← (match ty with FT_Directory => Ret EXT4_DE_DIR | FT_File => Ret EXT4_DE_REG_FILE | _ => Panic end);
  let fpath := child_path (en_path n) (str_bytes name) in
  if decide (fpath = []) then Ret (Ok tt, l) else
  if check_inode_exist l fpath ext4_type then Ret (Ok tt, l) else
  if decide (ext4_type = EXT4_DE_DIR) then let '(rc, l) := ext4_dir_mk lib l fpath in Ret (rc_result rc tt, l) else
  let '(r, f, l) := file_open fpath 0x241 l in
  match r with Err e => Ret (Err e, l) | Ok _ => Ret (Ok tt, file_close f l) end.

Definition Ext4_truncate (n : Ext4Node) (size : Z) (l : L) : outcome (result unit * L) :=
  let '(r, f, l) := file_open (en_path n) 2 l in
  match r with
  | Err e => Ret (Err e, l)
  | Ok _ => let '(rc, f, l) := ext4_ftruncate lib l f size in if decide (rc = 0) then Ret (Ok tt, file_close f l) else Ret (Err (Errno_new rc), l)
  end.

Definition ext4_mode (t : InodeTypes) : outcome Z :=
  match t with
  | EXT4_DE_REG_FILE => Ret S_FILE
  | EXT4_DE_DIR => Ret S_DIR
  | EXT4_DE_BLKDEV => Ret S_BLOCK
  | EXT4_DE_SOCK => Ret S_SOCKET
  | EXT4_DE_SYMLINK => Ret S_LINK
  | _ => Panic
  end.

(** The device number keeps its value; the times are zero. *)
Definition Ext4_stat (n : Ext4Node) (st : Stat) (l : L) : outcome (result unit * Stat * L) :=
  let '(r, f, l) := if decide (en_file_type n = FT_File) then file_open (en_path n) 0 l else (Ok tt, null_file, l) in
  match r with
  | Err e => Ret (Err e, st, l)
  | Ok _ =>
      let ino := if decide (en_file_type n = FT_File) then let '(rc, i) := ext4_raw_inode_fill lib l (en_path n) in if decide (rc = 0) then i else 1 else 1 in
      mode ← ext4_mode (en_type n);
      Ret (Ok tt, mkStat (st_dev st) ino mode 1 0 0 0 (fsize f) 512 0 TimeSpec_default TimeSpec_default TimeSpec_default,
           if decide (en_file_type n = FT_File) then file_close f l else l)
  end.

Definition Ext4_statfs (st : StatFS) : StatFS := mkStatFS 32 512 80 40 0 32 0 32 20.

(** [stat] opens and closes the file; as an inode method it does not change the state. *)
Definition Ext4_inode (n : Ext4Node) : INode Ext4Node L :=
  let d : INode Ext4Node L := INode_default in {|
  i_readat := Ext4_readat n; i_writeat := Ext4_writeat n; i_create := Ext4_create n; i_mkdir := Ext4_mkdir n; i_rmdir := Ext4_unlink n;
  i_remove := Ext4_unlink n; i_read_dir := Ext4_read_dir n; i_lookup := Ext4_lookup n; i_ioctl := i_ioctl d; i_truncate := Ext4_truncate n;
  i_flush := i_flush d; i_resolve_link := Ext4_resolve_link n; i_link := i_link d; i_symlink := Ext4_symlink n; i_unlink := Ext4_unlink n;
  i_stat st l := '(r, st, _) ← Ext4_stat n st l; Ret (r, st); i_mount := i_mount d; i_umount := i_umount d;
  i_statfs st _ := Ret (Ok tt, Ext4_statfs st); i_utimes _ l := Ret (Ok tt, l); i_poll := i_poll d |}.
End shim.

(** ** Cleaned names *)

(** The components of a path that are not empty; [cur] is the one being read. *)
Definition flush (cur : list Z) : list (list Z) := if decide (cur = []) then [] else [cur].
Fixpoint components (cur p : list Z) : list (list Z) :=
  match p with
  | [] => flush cur
  | x :: p => if decide (x = slash) then flush cur ++ components [] p else components (cur ++ [x]) p
  end.

Fixpoint drop_dots (l : list (list Z)) : list (list Z) :=
  match l with c :: l' => if decide (c = [dot]) then drop_dots l' else l | [] => [] end.

Fixpoint join (l : list (list Z)) : list Z :=
  match l with [] => [] | [c] => c | c :: l => c ++ slash :: join l end.

(** The reference: the directory, then the components of the name after leading dots. *)
Definition clean_path (dir path : list Z) : list Z :=
  match drop_dots (components [] path) with [] => [] | cs => trim_end dir ++ slash :: join cs end.

Lemma trim_start_split p : ∃ k, p = replicate k slash ++ trim_start p.
Proof.
  induction p as [|x p [k IH]]; cbn [trim_start]; [by exists 0%nat|]. case_decide as Hx; [|by exists 0%nat]. exists (S k). subst x. cbn. by rewrite <- IH.
Qed.

Lemma trim_start_head p : head (trim_start p) ≠ Some slash.
Proof. induction p as [|x p IH]; cbn [trim_start]; [done|]. case_decide; [done|]. cbn. congruence. Qed.

Lemma trim_end_split p : ∃ k, p = trim_end p ++ replicate k slash.
Proof.
  unfold trim_end. destruct (trim_start_split (reverse p)) as [k Hk]. exists k. apply (f_equal reverse) in Hk.
  rewrite reverse_involutive, reverse_app, reverse_replicate in Hk. exact Hk.
Qed.

Lemma trim_end_last p : last (trim_end p) ≠ Some slash.
Proof. unfold trim_end. rewrite last_reverse. apply trim_start_head. Qed.

Lemma trim_matches_split p : ∃ i j, p = replicate i slash ++ trim_matches p ++ replicate j slash.
Proof. destruct (trim_start_split p) as [i Hi], (trim_end_split (trim_start p)) as [j Hj]. exists i, j. unfold trim_matches. by rewrite <- Hj. Qed.

Lemma trim_matches_ends p : head (trim_matches p) ≠ Some slash ∧ last (trim_matches p) ≠ Some slash.
Proof.
  split; [|apply trim_end_last]. unfold trim_matches. destruct (trim_end_split (trim_start p)) as [j Hj]. pose proof (trim_start_head p) as Hh.
  rewrite Hj in Hh at 1. destruct (trim_end (trim_start p)); [done|]. exact Hh.
Qed.

Lemma length_trim_matches p : (length (trim_matches p) ≤ length p)%nat.
Proof. destruct (trim_matches_split p) as (i & j & Hp). rewrite Hp at 2. rewrite !length_app. lia. Qed.

(** *** Components do not change *)

Lemma components_slashes k p : components [] (replicate k slash ++ p) = components [] p.
Proof. induction k; [done|]. cbn. by rewrite IHk. Qed.

Lemma components_snoc cur p : components cur (p ++ [slash]) = components cur p.
Proof. revert cur. induction p as [|x p IH]; intros cur; cbn; [by rewrite app_nil_r|]. case_decide; by rewrite IH. Qed.

Lemma components_trim p : components [] (trim_matches p) = components [] p.
Proof.
  destruct (trim_matches_split p) as (i & j & Hp). rewrite Hp at 2. rewrite components_slashes. clear Hp.
  induction j as [|j IH]; [by rewrite app_nil_r|]. by rewrite replicate_S_end, app_assoc, components_snoc.
Qed.

Lemma components_replace p : ∀ cur, components cur (replace_slashes p) = components cur p.
Proof.
  induction p as [|x|x y p IH IH'] using list_pair_ind; intros cur; [done|done|].
  change (replace_slashes (x :: y :: p)) with (if decide (x = slash ∧ y = slash) then slash :: replace_slashes p else x :: replace_slashes (y :: p)).
  case_decide as Hxy; [destruct Hxy as [-> ->]|].
  - cbn [components]. rewrite !decide_True by done. unfold flush at 3. rewrite decide_True by done. cbn [app]. by rewrite IH.
  - cbn [components]. case_decide; rewrite IH'; cbn [components]; done.
Qed.

Lemma length_replace p : (length (replace_slashes p) ≤ length p)%nat.
Proof.
  induction p as [|x|x y p IH IH'] using list_pair_ind; [done|done|].
  change (replace_slashes (x :: y :: p)) with (if decide (x = slash ∧ y = slash) then slash :: replace_slashes p else x :: replace_slashes (y :: p)).
  case_decide; cbn [length] in *; lia.
Qed.

Lemma replace_shorter p : replace_slashes p ≠ p → (length (replace_slashes p) < length p)%nat.
Proof.
  induction p as [|x|x y p IH IH'] using list_pair_ind; [done|done|]. pose proof (length_replace p).
  change (replace_slashes (x :: y :: p)) with (if decide (x = slash ∧ y = slash) then slash :: replace_slashes p else x :: replace_slashes (y :: p)).
  case_decide; cbn [length] in *; [lia|]. intros Hne. assert (replace_slashes (y :: p) ≠ y :: p) as Hne' by congruence. specialize (IH' Hne'). cbn [length] in *. lia.
Qed.

(** A path without empty components is the join of its components. *)
Lemma replace_same_cons x p : replace_slashes (x :: p) = x :: p → replace_slashes p = p ∧ (x = slash → head p ≠ Some slash).
Proof.
  destruct p as [|y p]; [done|]. pose proof (length_replace p).
  change (replace_slashes (x :: y :: p)) with (if decide (x = slash ∧ y = slash) then slash :: replace_slashes p else x :: replace_slashes (y :: p)).
  case_decide as Hxy; intros E.
  - apply (f_equal length) in E. cbn in E. lia.
  - injection E as E. split; [done|]. intros -> [= ->]. by destruct Hxy.
Qed.

Lemma join_components p : ∀ cur, last p ≠ Some slash → replace_slashes p = p → (cur = [] → head p ≠ Some slash) → cur ++ p ≠ [] →
  join (components cur p) = cur ++ p.
Proof.
  induction p as [|x p IH]; intros cur Hl Hr Hh Hne.
  - cbn. unfold flush. rewrite app_nil_r in *. by rewrite decide_False.
  - apply replace_same_cons in Hr as [Hr Hx]. cbn [components]. assert (last p ≠ Some slash) as Hl'.
    { destruct p as [|y p]; [done|]. by rewrite last_cons_cons in Hl. }
    case_decide as E.
    + subst x. assert (cur ≠ []) as Hc by (intros ->; by apply Hh). unfold flush. rewrite decide_False by done.
      assert (p ≠ []) as Hp by (intros ->; by apply Hl).
      specialize (IH [] Hl' Hr (λ _, Hx eq_refl) Hp). cbn [app] in IH |- *. cbn [join].
      destruct (components [] p) as [|c cs] eqn:Ec; [by cbn in IH|]. by rewrite IH.
    + rewrite IH; [by rewrite <- app_assoc|done|done| |]; [by destruct cur|by destruct cur].
Qed.

Lemma drop_dots_head c cs : c ≠ [dot] → drop_dots (c :: cs) = c :: cs.
Proof. intros Hc. cbn. by rewrite decide_False. Qed.

(** A path at which [path_deal_with] stops. *)
Lemma clean_final dir p : p ≠ [] → p ≠ [dot] → (∀ rest, p ≠ dot :: slash :: rest) → head p ≠ Some slash → last p ≠ Some slash → replace_slashes p = p →
  clean_path dir p = trim_end dir ++ slash :: p.
Proof.
  intros Hne Hd Hds Hh Hl Hr. unfold clean_path. pose proof (join_components p [] Hl Hr (λ _, Hh) Hne) as Hj. cbn [app] in Hj.
  destruct (components [] p) as [|c cs] eqn:Ec; [exfalso; apply Hne; by rewrite <- Hj|]. rewrite drop_dots_head; [by rewrite Hj|].
  intros ->. destruct cs as [|c' cs]; [by apply Hd; rewrite <- Hj|]. by apply (Hds (join (c' :: cs))); rewrite <- Hj.
Qed.

Lemma clean_path_trim dir p : clean_path dir (trim_matches p) = clean_path dir p.
Proof. unfold clean_path. by rewrite components_trim. Qed.

Lemma path_deal_with_spec fuel : ∀ dir path, (length path < fuel)%nat → path_deal_with fuel dir path = Some (clean_path dir path).
Proof.
  induction fuel as [|fuel IH]; intros dir path Hf; [lia|]. cbn [path_deal_with]. pose proof (length_trim_matches path) as Ht.
  destruct (trim_matches_ends path) as [Hh Hl]. rewrite <- (clean_path_trim dir path). set (p := trim_matches path) in *. clearbody p.
  destruct (decide (p = [] ∨ p = [dot])) as [[-> | ->]|Hp]; [done|done|].
  assert (∀ q, q = replace_slashes p → q ≠ p → path_deal_with fuel dir q = Some (clean_path dir p)) as Hrep.
  { intros q -> Hq. rewrite IH by (pose proof (replace_shorter p Hq); lia). unfold clean_path. by rewrite components_replace. }
  assert ((∀ rest, p ≠ dot :: slash :: rest) → replace_slashes p = p → Some (trim_end dir ++ slash :: p) = Some (clean_path dir p)) as Hfin.
  { intros Hds Hr. f_equal. symmetry. apply clean_final; naive_solver. }
  assert ((∀ rest, p ≠ dot :: slash :: rest) → (if decide (replace_slashes p ≠ p) then path_deal_with fuel dir (replace_slashes p)
    else Some (trim_end dir ++ slash :: p)) = Some (clean_path dir p)) as Hgo.
  { intros Hds. destruct (decide (replace_slashes p = p)) as [Hr|Hr]; [rewrite decide_False by tauto; by apply Hfin|rewrite decide_True by done; by apply Hrep]. }
  destruct p as [|x [|y rest]]; [by destruct Hp; left|by apply Hgo|]. destruct (decide (x = dot ∧ y = slash)) as [[-> ->]|Hxy].
  - rewrite IH by (cbn [length] in Ht; lia). done.
  - apply Hgo. intros r [= -> ->]. by destruct Hxy.
Qed.

(** C35: a name is resolved in a directory of the root file system to the directory's path followed
    by the name's components, without empty ones and without leading dots; the empty path stands
    for a name with none.  The recursion always ends. *)
Theorem path_deal_with_correct (dir path : list Z) :
  path_deal_with (S (length path)) dir path = Some (clean_path dir path) ∧ child_path dir path = clean_path dir path.
Proof. unfold child_path. rewrite path_deal_with_spec by lia. done. Qed.

(** Dots that are not in front stay, so that they are looked up as names. *)
Lemma inner_dots_stay : child_path (str_bytes "/") (str_bytes ".//./a/./b//") = str_bytes "/a/./b".
Proof. reflexivity. Qed.

(** ** Reading and writing *)

(** What the C library documents: [content] gives the bytes of the regular files, [is_open]
    the descriptors, and [has_room] that a write does not run out of disk blocks. *)
Class Lwext4Laws {L : Type} (lib : Lwext4 L) := {
  content : L → list Z → option (list Z);
  is_open : L → ext4_file → list Z → Prop;
  has_room : L → nat → Prop;
  fopen_law l p c mode : content l p = Some c → mode = "rb" ∨ mode = "r+" →
    ∃ f l', ext4_fopen lib l p mode = (0, f, l') ∧ is_open l' f p ∧ fsize f = Z.of_nat (length c) ∧ (∀ q, content l' q = content l q) ∧
      (∀ n, has_room l n → has_room l' n);
  fseek_law l f p off : is_open l f p → 0 ≤ off ≤ fsize f → ∃ f', ext4_fseek lib l f off 0 = (0, f') ∧ is_open l f' p ∧ fpos f' = off;
  fread_law l f p c n : is_open l f p → content l p = Some c →
    ∃ f', ext4_fread lib l f n = (0, take n (drop (Z.to_nat (fpos f)) c), f') ∧ is_open l f' p;
  fwrite_law l f p c buf : is_open l f p → content l p = Some c → 0 ≤ fpos f ≤ Z.of_nat (length c) → has_room l (length buf) →
    ∃ f' l', ext4_fwrite lib l f buf = (0, Z.of_nat (length buf), f', l') ∧ is_open l' f' p ∧
      content l' p = Some (buf_write_at (Z.to_nat (fpos f)) c buf) ∧ (∀ q, q ≠ p → content l' q = content l q);
  fclose_law l f p q : is_open l f p → content (ext4_fclose lib l f).2 q = content l q;
}.

Section rw.
Context {L : Type} (lib : Lwext4 L) `{!Lwext4Laws lib} (Errno_new : Z → Errno).

Lemma file_close_content f l p q : is_open l f p → content (file_close lib f l) q = content l q.
Proof. intros Ho. unfold file_close. destruct (mp f); [|done]. by eapply fclose_law. Qed.

(** Opening and seeking: the position is the offset, or the end if that comes first. *)
Lemma open_seek l p c flags off : content l p = Some c → flags = 0 ∨ flags = 2 → Z.of_nat (length c) < 9223372036854775808 → 0 ≤ off < 9223372036854775808 →
  ∃ f l' f', file_open lib Errno_new p flags l = (Ok tt, f, l') ∧ file_seek lib Errno_new (as_isize off) l' f = (Ok tt, f') ∧ is_open l' f' p ∧
    fpos f' = Z.min off (Z.of_nat (length c)) ∧ (∀ q, content l' q = content l q) ∧ (∀ n, has_room l n → has_room l' n).
Proof.
  intros Hc Hfl Hlen Hoff. destruct (fopen_law l p c (flags_to_mode flags)) as (f & l' & Eo & Ho & Hs & Hq & Hr); [done|destruct Hfl as [-> | ->]; auto|].
  assert (∀ z, 0 ≤ z < 9223372036854775808 → as_isize z = z) as Hi.
  { intros z Hz. unfold as_isize. rewrite wrap_small by (unfold is_usize, USIZE; lia). by rewrite decide_True by lia. }
  set (o := if decide (as_isize (fsize f) < as_isize off) then as_isize (fsize f) else as_isize off).
  assert (o = Z.min off (Z.of_nat (length c))) as Eoff. { unfold o. rewrite Hs, !Hi by lia. case_decide; lia. }
  destruct (fseek_law l' f p o Ho) as (f' & Es & Ho' & Hf'); [rewrite Eoff; lia|]. exists f, l', f'.
  unfold file_open. rewrite Eo. unfold file_seek. fold o. rewrite Es. unfold rc_result. rewrite !decide_True by done. split; [done|]. split; [done|].
  split; [done|]. split; [congruence|]. done.
Qed.

(** C33: Reading a regular file of the root file system delivers the bytes at the offset, as many as
    fit and exist; writing replaces the bytes from the offset on and lengthens the file as needed,
    except that an offset behind the end is taken for the end: the data lands at the end, where a
    program that seeks past the end expects zeros.  No other file changes. *)
Theorem ext4_read_write (n : Ext4Node) (l : L) (c buf : list Z) (off : Z) :
  content l (en_path n) = Some c → Z.of_nat (length c) < 9223372036854775808 → 0 ≤ off < 9223372036854775808 →
  (let data := take (length buf) (drop (Z.to_nat off) c) in
   ∃ l', Ext4_readat lib Errno_new n off buf l = Ret (Ok (Z.of_nat (length data)), buf_write buf data, l') ∧ ∀ q, content l' q = content l q) ∧
  (has_room l (length buf) →
   ∃ l', Ext4_writeat lib Errno_new n off buf l = Ret (Ok (Z.of_nat (length buf)), l') ∧
     content l' (en_path n) = Some (buf_write_at (Z.to_nat (Z.min off (Z.of_nat (length c)))) c buf) ∧
     ∀ q, q ≠ en_path n → content l' q = content l q).
Proof.
  intros Hc Hlen Hoff. split.
  - destruct (open_seek l (en_path n) c 0 off) as (f & l1 & f1 & Eo & Es & Ho & Hp & Hq & _); [done|by left|done|done|].
    destruct (fread_law l1 f1 (en_path n) c (length buf) Ho) as (f2 & Er & Ho2); [by rewrite Hq|].
    eexists. unfold Ext4_readat, read_attempts. rewrite Eo. cbn iota. rewrite Es. cbn iota. rewrite Er. rewrite decide_True by done. rewrite Hp.
    assert (take (length buf) (drop (Z.to_nat (Z.min off (Z.of_nat (length c)))) c) = take (length buf) (drop (Z.to_nat off) c)) as ->.
    { destruct (decide (off ≤ Z.of_nat (length c))); [by rewrite Z.min_l by lia|]. rewrite !drop_ge by lia. done. }
    split; [done|]. intros q. by rewrite (file_close_content f2 l1 (en_path n)), Hq.
  - intros Hroom. destruct (open_seek l (en_path n) c 2 off) as (f & l1 & f1 & Eo & Es & Ho & Hp & Hq & Hr); [done|by right|done|done|].
    destruct (fwrite_law l1 f1 (en_path n) c buf Ho) as (f2 & l2 & Ew & Ho2 & Hc2 & Hq2); [by rewrite Hq|lia|by apply Hr|].
    eexists. unfold Ext4_writeat. rewrite Eo. cbn iota. rewrite Es. cbn iota. rewrite Ew. rewrite decide_True by done. split; [done|].
    split; [by rewrite (file_close_content f2 l2 (en_path n)), Hc2, Hp by done|]. intros q Hne. by rewrite (file_close_content f2 l2 (en_path n)), Hq2, Hq by done.
Qed.
End rw.

(** ** Errors that are lost *)

(** [symlink] and [readlink] hand the library's positive error numbers to a function that expects
    negative ones: a failure is reported as success. *)
Theorem link_errors_lost {L} (lib : Lwext4 L) (Errno_new : Z → Errno) (n : Ext4Node) (name src : string) (l : L) (rc : Z) :
  0 < rc < 2147483648 →
  (child_path (en_path n) (str_bytes name) ≠ [] → 0 ∉ child_path (en_path n) (str_bytes name) → 0 ∉ str_bytes src →
   check_inode_exist lib l (child_path (en_path n) (str_bytes name)) EXT4_DE_SYMLINK = false →
   (ext4_fsymlink lib l (str_bytes src) (child_path (en_path n) (str_bytes name))).1 = rc →
   ∃ l', Ext4_symlink lib Errno_new n name src l = Ret (Ok tt, l')) ∧
  (∀ data, ext4_readlink lib l (en_path n) 100 = (rc, data) → Ext4_resolve_link lib Errno_new n l = Ret (Ok (bytes_string data))).
Proof.
  intros Hrc. assert (from_ret Errno_new rc = Ok rc) as Er.
  { unfold from_ret. rewrite wrap_small by (unfold is_usize, USIZE; lia). by rewrite decide_False by (unfold USIZE; lia). }
  split.
  - intros Hne H1 H2 Hex Es. unfold Ext4_symlink. rewrite !decide_False, Hex by done. destruct (ext4_fsymlink _ _ _ _) as [rc' l'].
    cbn in Es. subst rc'. rewrite Er. by eexists.
  - intros data E. unfold Ext4_resolve_link. by rewrite E, Er.
Qed.

(** Removing a name that does not exist succeeds. *)
Theorem ext4_remove_missing {L} (lib : Lwext4 L) (Errno_new : Z → Errno) (n : Ext4Node) (name : string) (l l' : L) :
  let fpath := child_path (en_path n) (str_bytes name) in
  check_inode_exist lib l fpath EXT4_DE_DIR = false → ext4_fremove lib l fpath = (2, l') →
  Ext4_unlink lib Errno_new n name l = Ret (Ok tt, l').
Proof. intros fpath Hd Hr. unfold Ext4_unlink. fold fpath. by rewrite Hd, Hr. Qed.

(** ** Witness: a library with the one file "/f" *)

Definition toy_file : list Z := str_bytes "/f".

Definition toy_lib : Lwext4 (list Z) := mkLwext4
  (λ l p _, if decide (p = toy_file) then (0, mkExt4File true (Z.of_nat (length l)) 0, l) else (2, null_file, l))
  (λ l _, (null_file, l))
  (λ l f off _, if decide (0 ≤ off ≤ fsize f) then (0, mkExt4File (mp f) (fsize f) off) else (22, f))
  (λ l f n, (0, take n (drop (Z.to_nat (fpos f)) l), mkExt4File (mp f) (fsize f) (Z.min (fsize f) (fpos f + Z.of_nat n))))
  (λ l f buf, let l' := buf_write_at (Z.to_nat (fpos f)) l buf in
     (0, Z.of_nat (length buf), mkExt4File (mp f) (Z.of_nat (length l')) (fpos f + Z.of_nat (length buf)), l'))
  (λ l f n, (0, f, take (Z.to_nat n) l)) (λ l _, (2, l)) (λ l p t, if decide (p = toy_file ∧ t = 1) then 0 else 2) (λ l _, (28, l)) (λ l _, (2, l))
  (λ l _, [(str_bytes "f", 1)]) (λ l _ _, (28, l)) (λ l _ _, (2, [])) (λ l _, (0, 12)).

#[export] Program Instance toy_laws : Lwext4Laws toy_lib := {|
  content l p := if decide (p = toy_file) then Some l else None;
  is_open l f p := p = toy_file ∧ mp f = true ∧ fsize f = Z.of_nat (length l);
  has_room _ _ := True |}.
Next Obligation. intros l p c mode Hc _. cbn beta in *. cbn [toy_lib ext4_fopen]. case_decide; [|done]. injection Hc as <-. eexists _, _. split; [done|]. by repeat split. Qed.
Next Obligation. intros l f p off (-> & Hm & Hs) Ho. cbn. rewrite decide_True by done. eexists. split; [done|]. by repeat split. Qed.
Next Obligation. intros l f p c n (-> & Hm & Hs) Hc. cbn beta in *. cbn [toy_lib ext4_fread ext4_fwrite]. rewrite decide_True in Hc by done. injection Hc as <-. eexists. split; [done|]. by repeat split. Qed.
Next Obligation.
  intros l f p c buf (-> & Hm & Hs) Hc Hp _. cbn beta in *. cbn [toy_lib ext4_fread ext4_fwrite]. rewrite decide_True in Hc by done. injection Hc as <-. eexists _, _. split; [done|]. split; [by repeat split|].
  split; [by rewrite decide_True|]. intros q Hq. by rewrite !decide_False.
Qed.
Next Obligation. done. Qed.

(** Writing five bytes behind a file of two puts the first right at its end. *)
Lemma ext4_read_write_witness : ∃ l', Ext4_writeat toy_lib (λ _, EINVAL) (mkExt4Node toy_file EXT4_DE_REG_FILE FT_File) 7 [9] [1; 2] = Ret (Ok 1, l') ∧
  content l' toy_file = Some [1; 2; 9].
Proof.
  destruct (ext4_read_write toy_lib (λ _, EINVAL) (mkExt4Node toy_file EXT4_DE_REG_FILE FT_File) [1; 2] [1; 2] [9] 7) as [_ H];
    [reflexivity|reflexivity|split; [discriminate|reflexivity]|].
  destruct (H I) as (l' & E & Hc & _). exists l'. split; [exact E|exact Hc].
Defined.
