(* ===== verification/FatFs.v ===== *)
(** * The FAT file system

    Models the inodes of filesystem/fs/src/fatfs_shim.rs over the library fatfs (the disk
    below the library is in Disk).  The file is not part of the build: it follows an older
    interface with errors of its own, which are kept here.  What the library does is the
    record [Fatfs]; what the theorems need of it is the class [FatLaws], with an instance.
    They show that a FAT file is a byte sequence for reads and writes up to its end, and what
    becomes of a write behind the end. *)

From S2P Require Import Prelude Vfs Disk.

(** ** The library *)

Inductive FatError :=
  | F_Io | F_UnexpectedEof | F_WriteZero | F_InvalidInput | F_NotFound | F_AlreadyExists | F_DirectoryIsNotEmpty
  | F_CorruptedFileSystem | F_NotEnoughSpace | F_InvalidFileNameLength | F_UnsupportedFileNameCharacter.

Inductive fat_result (A E : Type) := FOk (a : A) | FErr (e : E).
Arguments FOk {A E} a.
Arguments FErr {A E} e.

(** An entry of a directory listing: what it is and the objects that can be made of it. *)
Record FatEntry (F D : Type) := mkFatEntry { fe_name : string; fe_is_dir : bool; fe_is_file : bool; fe_len : Z; fe_dir : D; fe_file : F }.
Arguments mkFatEntry {F D}.
Arguments fe_name {F D} _.
Arguments fe_is_dir {F D} _.
Arguments fe_is_file {F D} _.
Arguments fe_len {F D} _.
Arguments fe_dir {F D} _.
Arguments fe_file {F D} _.

(** Files [F] and directories [D] of a mounted file system with state [L]. *)
Record Fatfs (L F D : Type) := mkFatfs {
  fat_seek : L → F → FatSeekFrom → fat_result Z FatError * F;
  fat_read_exact : L → F → nat → fat_result (list Z) FatError * F;
  fat_write : L → F → list Z → fat_result Z FatError * F * L;
  fat_write_all : L → F → list Z → fat_result unit FatError * F * L;
  fat_truncate : L → F → fat_result unit FatError * F * L;
  fat_flush : L → F → fat_result unit FatError * L;
  fat_create_dir : L → D → string → fat_result D FatError * L;
  fat_create_file : L → D → string → fat_result F FatError * L;
  fat_remove : L → D → string → fat_result unit FatError * L;
  fat_iter : L → D → list (fat_result (FatEntry F D) FatError);
  fat_flush_fs_info : L → fat_result unit FatError * L;
  fat_root_dir : L → D;
}.
Arguments mkFatfs {L F D}.
Arguments fat_seek {L F D} _.
Arguments fat_read_exact {L F D} _.
Arguments fat_write {L F D} _.
Arguments fat_write_all {L F D} _.
Arguments fat_truncate {L F D} _.
Arguments fat_flush {L F D} _.
Arguments fat_create_dir {L F D} _.
Arguments fat_create_file {L F D} _.
Arguments fat_remove {L F D} _.
Arguments fat_iter {L F D} _.
Arguments fat_flush_fs_info {L F D} _.
Arguments fat_root_dir {L F D} _.

(** ** Errors *)

Inductive VfsError := V_AlreadyExists | V_InvalidData | V_DirectoryNotEmpty | V_InvalidInput | V_StorageFull | V_FileNotFound | V_UnexpectedEof | V_WriteZero | V_Io.

Definition as_vfs_err (err : FatError) : VfsError :=
  match err with
  | F_AlreadyExists => V_AlreadyExists
  | F_CorruptedFileSystem => V_InvalidData
  | F_DirectoryIsNotEmpty => V_DirectoryNotEmpty
  | F_InvalidInput | F_InvalidFileNameLength | F_UnsupportedFileNameCharacter => V_InvalidInput
  | F_NotEnoughSpace => V_StorageFull
  | F_NotFound => V_FileNotFound
  | F_UnexpectedEof => V_UnexpectedEof
  | F_WriteZero => V_WriteZero
  | F_Io => V_Io
  end.

Abbreviation VfsResult A := (fat_result A VfsError).

(** [map_err(as_vfs_err)] *)
Definition map_err {A} (r : fat_result A FatError) : VfsResult A := match r with FOk a => FOk a | FErr e => FErr (as_vfs_err e) end.

Section shim.
Context {L F D : Type} (lib : Fatfs L F D).

(** ** Files *)

(** [FatFile] with its [FatFileInner]: the size is a copy of the one on the disk. *)
Record FatFile := mkFatFile { ff_name : string; ff_inner : F; ff_size : Z }.

Definition with_inner (x : FatFile) (f : F) : FatFile := mkFatFile (ff_name x) f (ff_size x).

Definition FatFile_readat (x : FatFile) (offset : Z) (buffer : list Z) (l : L) : VfsResult Z * list Z * FatFile :=
  if decide (ff_size x ≤ offset) then (FOk 0, buffer, x) else
  let '(r, f) := fat_seek lib l (ff_inner x) (Start offset) in
  match r with
  | FErr e => (FErr (as_vfs_err e), buffer, with_inner x f)
  | FOk _ =>
      let '(r, f) := fat_seek lib l f (Start offset) in
      match r with
      | FErr e => (FErr (as_vfs_err e), buffer, with_inner x f)
      | FOk _ =>
          let rlen := Z.min (Z.of_nat (length buffer)) (ff_size x - offset) in
          let '(r, f) := fat_read_exact lib l f (Z.to_nat rlen) in
          match r with
          | FErr e => (FErr (as_vfs_err e), buffer, with_inner x f)
          | FOk bytes => (FOk rlen, buf_write buffer bytes, with_inner x f)
          end
      end
  end.

(** The loop that fills a gap: [None] is out of fuel. *)
Fixpoint fill_gap (fuel : nat) (offset : Z) (x : FatFile) (l : L) : option (VfsResult unit * FatFile * L) :=
  let wlen := Z.min (offset -u ff_size x) 512 in
  if decide (wlen = 0) then Some (FOk tt, x, l)
  else
    match fuel with
    | O => None
    | S fuel =>
        let '(r, f, l) := fat_write lib l (ff_inner x) (replicate 512 0) in
        match r with
        | FErr e => Some (FErr (as_vfs_err e), with_inner x f, l)
        | FOk real_wlen => fill_gap fuel offset (mkFatFile (ff_name x) f (ff_size x +u real_wlen)) l
        end
    end.

Definition FatFile_writeat (fuel : nat) (x : FatFile) (offset : Z) (buffer : list Z) (l : L) : option (VfsResult Z * FatFile * L) :=
  let '(r, f) := fat_seek lib l (ff_inner x) (Start offset) in
  match r with
  | FErr e => Some (FErr (as_vfs_err e), with_inner x f, l)
  | FOk curr_off =>
      '(r, x, l) ← (if decide (offset ≠ curr_off) then fill_gap fuel offset (with_inner x f) l else Some (FOk tt, with_inner x f, l));
      match r with
      | FErr e => Some (FErr e, x, l)
      | FOk _ =>
          let '(r, f, l) := fat_write_all lib l (ff_inner x) buffer in
          match r with
          | FErr e => Some (FErr (as_vfs_err e), with_inner x f, l)
          | FOk _ =>
              let n := Z.of_nat (length buffer) in
              Some (FOk n, mkFatFile (ff_name x) f (if decide (ff_size x < offset +u n) then offset +u n else ff_size x), l)
          end
      end
  end.

Definition FatFile_flush (x : FatFile) (l : L) : VfsResult unit * L := let '(r, l) := fat_flush lib l (ff_inner x) in (map_err r, l).

(** What is not set has the largest value of its type. *)
Record Metadata := mkMetadata { md_filename : string; md_inode : Z; md_file_type : FileType; md_size : Z; md_childrens : Z }.

Definition FatFile_metadata (x : FatFile) : Metadata := mkMetadata (ff_name x) (USIZE - 1) FT_File (ff_size x) (USIZE - 1).

(** The copy of the size stays as it is. *)
Definition FatFile_truncate (x : FatFile) (size : Z) (l : L) : VfsResult unit * FatFile * L :=
  let '(r, f) := fat_seek lib l (ff_inner x) (Start size) in
  match r with
  | FErr e => (FErr (as_vfs_err e), with_inner x f, l)
  | FOk _ => let '(r, f, l) := fat_truncate lib l f in (map_err r, with_inner x f, l)
  end.

Definition FatFile_stat (x : FatFile) (st : Stat) : Stat :=
  mkStat (st_dev st) 1 S_FILE 1 0 0 0 (md_size (FatFile_metadata x)) 512 (md_size (FatFile_metadata x) / 512) TimeSpec_default TimeSpec_default TimeSpec_default.

(** ** Directories *)

Record FatDir := mkFatDir { fd_name : string; fd_inner : D }.
Inductive FatNode := N_dir (d : FatDir) | N_file (f : FatFile).

Definition FatDir_mkdir (d : FatDir) (name : string) (l : L) : VfsResult FatNode * L :=
  let '(r, l) := fat_create_dir lib l (fd_inner d) name in
  (match r with FOk dir => FOk (N_dir (mkFatDir name dir)) | FErr e => FErr (as_vfs_err e) end, l).

(** A file that existed already is opened with the size zero. *)
Definition FatDir_touch (d : FatDir) (name : string) (l : L) : VfsResult FatNode * L :=
  let '(r, l) := fat_create_file lib l (fd_inner d) name in
  (match r with FOk file => FOk (N_file (mkFatFile name file 0)) | FErr e => FErr (as_vfs_err e) end, l).

Definition FatDir_lookup (d : FatDir) (name : string) : outcome (VfsResult FatNode) := Panic.

(** [iter().find(..)], which unwraps every entry up to the one it finds. *)
Fixpoint find_entry (es : list (fat_result (FatEntry F D) FatError)) (name : string) : outcome (option (FatEntry F D)) :=
  match es with
  | [] => Ret None
  | FErr _ :: _ => Panic
  | FOk x :: es => if decide (fe_name x = name) then Ret (Some x) else find_entry es name
  end.

Definition FatDir_open (d : FatDir) (name : string) (l : L) : outcome (VfsResult FatNode) :=
  o ← find_entry (fat_iter lib l (fd_inner d)) name;
  match o with
  | None => Ret (FErr V_FileNotFound)
  | Some file =>
      if fe_is_dir file then Ret (FOk (N_dir (mkFatDir name (fe_dir file))))
      else if fe_is_file file then Ret (FOk (N_file (mkFatFile name (fe_file file) (fe_len file))))
      else Panic
  end.

Definition FatDir_remove (d : FatDir) (name : string) (l : L) : VfsResult unit * L :=
  let '(r, l) := fat_remove lib l (fd_inner d) name in (map_err r, l).
Definition FatDir_rmdir := FatDir_remove.

Fixpoint fat_entries (es : list (fat_result (FatEntry F D) FatError)) : outcome (list DirEntry) :=
  match es with
  | [] => Ret []
  | FErr _ :: _ => Panic
  | FOk x :: es =>
      if decide (fe_name x = "."%string ∨ fe_name x = ".."%string) then fat_entries es
      else
        file_type ← (if fe_is_file x then Ret FT_File else if fe_is_dir x then Ret FT_Directory else Panic);
        rest ← fat_entries es;
        Ret (mkDirEntry (fe_name x) (fe_len x) file_type :: rest)
  end.

Definition FatDir_read_dir (d : FatDir) (l : L) : outcome (VfsResult (list DirEntry)) :=
  es ← fat_entries (fat_iter lib l (fd_inner d)); Ret (FOk es).

Definition FatDir_metadata (d : FatDir) (l : L) : Metadata :=
  mkMetadata (fd_name d) (USIZE - 1) FT_Directory 0 (Z.of_nat (length (fat_iter lib l (fd_inner d)))).

Definition FatDir_stat (st : Stat) : Stat := mkStat (st_dev st) 1 S_DIR 1 0 0 0 0 512 0 TimeSpec_default TimeSpec_default TimeSpec_default.
Definition FatDir_statfs : StatFS := mkStatFS 32 512 80 40 0 32 0 32 20.
Definition FatDir_link (d : FatDir) (name : string) (src : FatNode) : outcome (VfsResult unit) := Panic.

(** ** The file system *)

(** [Fat32FileSystem::new]: [open] is what the library makes of the disk. *)
Definition Fat32FileSystem_new (open : DiskCursor → fat_result L FatError) (device_id : Z) : outcome L :=
  match open (mkDiskCursor 0 0 device_id) with FOk l => Ret l | FErr _ => Panic end.

Definition Fat32_root_dir (l : L) : FatDir := mkFatDir EmptyString (fat_root_dir lib l).
Definition Fat32_flush (l : L) : VfsResult unit * L := let '(r, l) := fat_flush_fs_info lib l in (map_err r, l).
End shim.

(** ** What the library promises *)

(** [f_data] are the bytes of an open file, [f_pos] its position; no file grows beyond
    [f_room].  Seeking does not go behind the end; one write ends at the next sector. *)
Class FatLaws {L F D : Type} (lib : Fatfs L F D) := {
  f_data : L → F → list Z;
  f_pos : F → Z;
  f_room : L → F → Z;
  f_open : L → F → Prop;
  f_bounds l f : f_open l f → 0 ≤ f_pos f ≤ Z.of_nat (length (f_data l f)) ∧ Z.of_nat (length (f_data l f)) ≤ f_room l f ∧ f_room l f < 4294967296 ∧ f_room l f mod 512 = 0;
  seek_law l f n : f_open l f → 0 ≤ n < 4294967296 → ∃ f', fat_seek lib l f (Start n) = (FOk (f_pos f'), f') ∧ f_open l f' ∧
    f_data l f' = f_data l f ∧ f_room l f' = f_room l f ∧ f_pos f' = Z.min n (Z.of_nat (length (f_data l f)));
  read_law l f n : f_open l f →
    if decide (f_pos f + Z.of_nat n ≤ Z.of_nat (length (f_data l f))) then
      ∃ f', fat_read_exact lib l f n = (FOk (take n (drop (Z.to_nat (f_pos f)) (f_data l f))), f') ∧ f_open l f' ∧ f_data l f' = f_data l f ∧ f_room l f' = f_room l f
    else ∃ f', fat_read_exact lib l f n = (FErr F_UnexpectedEof, f');
  write_law l f buf : f_open l f → buf ≠ [] →
    if decide (f_pos f < f_room l f) then
      let k := Z.min (Z.of_nat (length buf)) (512 - f_pos f mod 512) in
      ∃ f' l', fat_write lib l f buf = (FOk k, f', l') ∧ f_open l' f' ∧ f_room l' f' = f_room l f ∧ f_pos f' = f_pos f + k ∧
        f_data l' f' = buf_write_at (Z.to_nat (f_pos f)) (f_data l f) (take (Z.to_nat k) buf)
    else fat_write lib l f buf = (FErr F_NotEnoughSpace, f, l);
  write_all_law l f buf : f_open l f → f_pos f + Z.of_nat (length buf) ≤ f_room l f →
    ∃ f' l', fat_write_all lib l f buf = (FOk tt, f', l') ∧ f_open l' f' ∧ f_room l' f' = f_room l f ∧
      f_data l' f' = buf_write_at (Z.to_nat (f_pos f)) (f_data l f) buf;
  truncate_law l f : f_open l f → ∃ f' l', fat_truncate lib l f = (FOk tt, f', l') ∧ f_open l' f' ∧ f_data l' f' = take (Z.to_nat (f_pos f)) (f_data l f);
}.

Section theory.
Context {L F D : Type} (lib : Fatfs L F D) `{FL : !FatLaws lib}.

(** The copy of the size agrees with the file. *)
Definition fat_ok (x : FatFile (F := F)) (l : L) : Prop := f_open l (ff_inner x) ∧ ff_size x = Z.of_nat (length (f_data l (ff_inner x))).
Definition fat_data (x : FatFile (F := F)) (l : L) : list Z := f_data l (ff_inner x).

Lemma overwrite_end c buf : buf_write_at (length c) c buf = c ++ buf.
Proof. unfold buf_write_at. by rewrite take_ge, drop_ge, app_nil_r by lia. Qed.

Lemma length_overwrite pos c buf : (pos ≤ length c)%nat → length (buf_write_at pos c buf) = Nat.max (length c) (pos + length buf).
Proof. intros H. unfold buf_write_at. rewrite !length_app, length_take, length_drop. lia. Qed.

Lemma read_overwrite pos c buf : (pos ≤ length c)%nat → take (length buf) (drop pos (buf_write_at pos c buf)) = buf.
Proof. intros H. unfold buf_write_at. rewrite drop_app_ge, length_take, Nat.min_l, Nat.sub_diag, drop_0 by (rewrite ?length_take; lia). by rewrite take_app_length. Qed.

(** Reading delivers the bytes at the offset, up to the end of the file. *)
Theorem fat_read_exact_bytes x offset buffer l : fat_ok x l → 0 ≤ offset →
  ∃ x', let got := take (length buffer) (drop (Z.to_nat offset) (fat_data x l)) in
    FatFile_readat lib x offset buffer l = (FOk (Z.of_nat (length got)), buf_write buffer got, x') ∧ fat_ok x' l ∧ fat_data x' l = fat_data x l.
Proof.
  intros [Ho Es] H0. unfold FatFile_readat, fat_data in *. destruct (f_bounds l (ff_inner x) Ho) as (_ & Hlr & Hr & _). rewrite Es. case_decide as Hc.
  { exists x. rewrite drop_ge by lia. rewrite take_nil. done. }
  destruct (seek_law l (ff_inner x) offset Ho) as (f1 & -> & Ho1 & Ed1 & Er1 & Ep1); [lia|]. destruct (seek_law l f1 offset Ho1) as (f2 & -> & Ho2 & Ed2 & Er2 & Ep2); [lia|].
  pose proof (read_law l f2 (Z.to_nat (Z.min (Z.of_nat (length buffer)) (Z.of_nat (length (f_data l (ff_inner x))) - offset))) Ho2) as Hread.
  rewrite Ep2, Ed2, Ed1, Z.min_l in Hread by lia. rewrite decide_True in Hread by lia. destruct Hread as (f3 & -> & Ho3 & Ed3 & Er3).
  set (got := take (length buffer) (drop (Z.to_nat offset) (f_data l (ff_inner x)))).
  assert (take (Z.to_nat (Z.min (Z.of_nat (length buffer)) (Z.of_nat (length (f_data l (ff_inner x))) - offset))) (drop (Z.to_nat offset) (f_data l (ff_inner x))) = got) as ->.
  { unfold got. destruct (decide (Z.of_nat (length buffer) ≤ Z.of_nat (length (f_data l (ff_inner x))) - offset)); [f_equal; lia|].
    rewrite !take_ge; [done|rewrite length_drop; lia..]. }
  exists (mkFatFile (ff_name x) f3 (ff_size x)). split_and!; [|split|]; cbn [ff_inner ff_size].
  - unfold with_inner, got. cbn [ff_name ff_size]. do 3 f_equal. rewrite length_take, length_drop. lia.
  - done.
  - by rewrite Ed3.
  - done.
Qed.

(** A write inside the file or at its end replaces the bytes there and extends the file. *)
Theorem fat_write_overwrites fuel x offset buffer l : fat_ok x l → 0 ≤ offset ≤ ff_size x → offset + Z.of_nat (length buffer) ≤ f_room l (ff_inner x) →
  ∃ x' l', FatFile_writeat lib fuel x offset buffer l = Some (FOk (Z.of_nat (length buffer)), x', l') ∧ fat_ok x' l' ∧
    fat_data x' l' = buf_write_at (Z.to_nat offset) (fat_data x l) buffer.
Proof.
  intros [Ho Es] H0 Hroom. unfold FatFile_writeat, fat_data in *. destruct (f_bounds l (ff_inner x) Ho) as (_ & Hlr & Hr & _).
  destruct (seek_law l (ff_inner x) offset Ho) as (f1 & -> & Ho1 & Ed1 & Er1 & Ep1); [lia|]. rewrite Z.min_l in Ep1 by lia. rewrite decide_False by lia. cbn [mbind option_bind with_inner ff_inner].
  destruct (write_all_law l f1 buffer Ho1) as (f2 & l2 & -> & Ho2 & Er2 & Ed2); [lia|]. rewrite Ep1, Ed1 in Ed2. eexists _, _. split; [reflexivity|]. unfold fat_ok. cbn [ff_inner ff_size ff_name].
  split; [|done]. split; [done|]. rewrite Ed2, length_overwrite by lia. rewrite wrap_small by (unfold is_usize, USIZE; lia). change (ff_size (with_inner x f1)) with (ff_size x). case_decide; lia.
Qed.

(** What was written is read back. *)
Theorem fat_roundtrip fuel x offset buffer old l : fat_ok x l → 0 ≤ offset ≤ ff_size x → offset + Z.of_nat (length buffer) ≤ f_room l (ff_inner x) →
  length old = length buffer →
  ∃ x1 l1 x2, FatFile_writeat lib fuel x offset buffer l = Some (FOk (Z.of_nat (length buffer)), x1, l1) ∧
    FatFile_readat lib x1 offset old l1 = (FOk (Z.of_nat (length buffer)), buffer, x2).
Proof.
  intros Hok H0 Hroom Hl. destruct (fat_write_overwrites fuel x offset buffer l Hok H0 Hroom) as (x1 & l1 & E1 & Hok1 & Ed1).
  destruct (fat_read_exact_bytes x1 offset old l1 Hok1 ltac:(lia)) as (x2 & E2 & _). exists x1, l1, x2. split; [done|]. rewrite E2, Ed1, Hl. destruct Hok as [_ Es].
  unfold fat_data. rewrite read_overwrite by lia. unfold buf_write, buf_write_at. by rewrite take_0, drop_ge, app_nil_r by (cbn; lia).
Qed.

(** *** A write behind the end *)

(** One turn: zeros up to the end of the sector, or a refusal when there is no room. *)
Lemma fill_turn fuel offset x l : fat_ok x l → f_pos (ff_inner x) = ff_size x → offset -u ff_size x ≠ 0 →
  if decide (ff_size x < f_room l (ff_inner x)) then
    let k := 512 - ff_size x mod 512 in
    ∃ x' l', fill_gap lib (S fuel) offset x l = fill_gap lib fuel offset x' l' ∧ fat_ok x' l' ∧ f_pos (ff_inner x') = ff_size x' ∧
      ff_size x' = ff_size x + k ∧ f_room l' (ff_inner x') = f_room l (ff_inner x) ∧ fat_data x' l' = fat_data x l ++ replicate (Z.to_nat k) 0
  else ∃ x', fill_gap lib (S fuel) offset x l = Some (FErr V_StorageFull, x', l) ∧ ff_inner x' = ff_inner x.
Proof.
  intros [Ho Es] Ep Hne. destruct (f_bounds l (ff_inner x) Ho) as (_ & Hlr & Hr & _). assert (0 ≤ offset -u ff_size x) as Hw by apply wrap_range.
  cbn [fill_gap]. rewrite (decide_False (P := Z.min (offset -u ff_size x) 512 = 0)) by lia. pose proof (write_law l (ff_inner x) (replicate 512 0) Ho ltac:(done)) as Hwr. rewrite Ep in Hwr. case_decide as Hroom.
  2:{ rewrite Hwr. eexists. split; [done|done]. }
  rewrite length_replicate in Hwr. pose proof (Z.mod_pos_bound (ff_size x) 512 ltac:(done)) as Hm. rewrite Z.min_r in Hwr by lia.
  destruct Hwr as (f' & l' & -> & Ho' & Er' & Ep' & Ed'). eexists _, _. split; [reflexivity|]. unfold fat_ok, fat_data in *. cbn [ff_inner ff_size].
  rewrite wrap_small by (unfold is_usize, USIZE; lia). replace (Z.to_nat (ff_size x)) with (length (f_data l (ff_inner x))) in Ed' by lia. rewrite overwrite_end, take_replicate, Nat.min_l in Ed' by lia.
  assert (Z.of_nat (length (f_data l' f')) = ff_size x + (512 - ff_size x mod 512)) as El by (rewrite Ed', length_app, length_replicate; lia).
  by split_and!.
Qed.

Lemma fill_done fuel x l : fill_gap lib fuel (ff_size x) x l = Some (FOk tt, x, l).
Proof. destruct fuel; cbn [fill_gap]; by rewrite (decide_True (P := Z.min (ff_size x -u ff_size x) 512 = 0)) by (rewrite Z.sub_diag; done). Qed.

Lemma gap_filled fuel : ∀ offset x l, fat_ok x l → f_pos (ff_inner x) = ff_size x → offset mod 512 = 0 →
  ff_size x ≤ offset ≤ f_room l (ff_inner x) → offset - ff_size x ≤ 512 * Z.of_nat fuel →
  ∃ x' l', fill_gap lib fuel offset x l = Some (FOk tt, x', l') ∧ fat_ok x' l' ∧ f_pos (ff_inner x') = ff_size x' ∧ ff_size x' = offset ∧
    f_room l' (ff_inner x') = f_room l (ff_inner x) ∧ fat_data x' l' = fat_data x l ++ replicate (Z.to_nat (offset - ff_size x)) 0.
Proof.
  induction fuel as [|fuel IH]; intros offset x l Hok Ep Hm Hb Hf; (destruct (decide (ff_size x = offset)) as [<-|Hne];
    [exists x, l; rewrite fill_done, Z.sub_diag, app_nil_r; by split_and!|]); [lia|].
  destruct Hok as [Ho Es]. destruct (f_bounds l (ff_inner x) Ho) as (_ & Hlr & Hr & _).
  assert (offset -u ff_size x ≠ 0) as Hw by (rewrite wrap_small by (unfold is_usize, USIZE; lia); lia).
  pose proof (fill_turn fuel offset x l (conj Ho Es) Ep Hw) as Ht. rewrite decide_True in Ht by lia. destruct Ht as (x1 & l1 & -> & Hok1 & Ep1 & Es1 & Er1 & Ed1).
  pose proof (Z.div_mod (ff_size x) 512 ltac:(done)). pose proof (Z.div_mod offset 512 ltac:(done)). pose proof (Z.mod_pos_bound (ff_size x) 512 ltac:(done)).
  destruct (IH offset x1 l1 Hok1 Ep1 Hm) as (x2 & l2 & -> & Hok2 & Ep2 & Es2 & Er2 & Ed2); [lia..|].
  exists x2, l2. split_and!; [done|done|done|done|congruence|]. rewrite Ed2, Ed1, <- app_assoc, <- replicate_add. do 2 f_equal. lia.
Qed.

Lemma gap_overfilled fuel : ∀ offset x l, fat_ok x l → f_pos (ff_inner x) = ff_size x → offset mod 512 ≠ 0 → 0 ≤ offset < 4294967296 →
  ff_size x < offset ∨ ff_size x mod 512 = 0 → f_room l (ff_inner x) - ff_size x ≤ 512 * Z.of_nat fuel →
  ∃ x' l', fill_gap lib (S fuel) offset x l = Some (FErr V_StorageFull, x', l') ∧ Z.of_nat (length (fat_data x' l')) = f_room l (ff_inner x).
Proof.
  induction fuel as [|fuel IH]; intros offset x l Hok Ep Hm Hb Hs Hf; pose proof Hok as [Ho Es]; destruct (f_bounds l (ff_inner x) Ho) as (_ & Hlr & Hr & Hrm);
    (assert (offset -u ff_size x ≠ 0) as Hw by (unfold wrap, USIZE; intros E; destruct Hs as [Hs|Hs];
      [rewrite Z.mod_small in E by lia; lia|assert (offset = ff_size x) as -> by (Z.to_euclidean_division_equations; lia); done])).
  - pose proof (fill_turn 0 offset x l Hok Ep Hw) as Ht. rewrite decide_False in Ht by lia. destruct Ht as (x1 & -> & Ei). exists x1, l. split; [done|]. unfold fat_data. rewrite Ei. lia.
  - pose proof (fill_turn (S fuel) offset x l Hok Ep Hw) as Ht. case_decide.
    + destruct Ht as (x1 & l1 & -> & Hok1 & Ep1 & Es1 & Er1 & _). rewrite <- Er1. apply IH; [done..|right|rewrite Er1]; pose proof (Z.div_mod (ff_size x) 512 ltac:(done)); pose proof (Z.mod_pos_bound (ff_size x) 512 ltac:(done)).
      * rewrite Es1. replace (ff_size x + (512 - ff_size x mod 512)) with ((ff_size x / 512 + 1) * 512) by lia. by apply Z.mod_mul.
      * pose proof (Z.div_mod (f_room l (ff_inner x)) 512 ltac:(done)). lia.
    + destruct Ht as (x1 & -> & Ei). exists x1, l. split; [done|]. unfold fat_data. rewrite Ei. lia.
Qed.

(** A write behind the end at a multiple of the sector size fills the gap with zeros. *)
Theorem fat_write_gap fuel x offset buffer l : fat_ok x l → ff_size x < offset → offset mod 512 = 0 → offset + Z.of_nat (length buffer) ≤ f_room l (ff_inner x) →
  offset - ff_size x ≤ 512 * Z.of_nat fuel →
  ∃ x' l', FatFile_writeat lib fuel x offset buffer l = Some (FOk (Z.of_nat (length buffer)), x', l') ∧ fat_ok x' l' ∧
    fat_data x' l' = fat_data x l ++ replicate (Z.to_nat (offset - ff_size x)) 0 ++ buffer.
Proof.
  intros [Ho Es] Hlt Hm Hroom Hf. unfold FatFile_writeat. destruct (f_bounds l (ff_inner x) Ho) as (_ & Hlr & Hr & _).
  destruct (seek_law l (ff_inner x) offset Ho) as (f1 & -> & Ho1 & Ed1 & Er1 & Ep1); [lia|]. rewrite Z.min_r in Ep1 by lia. rewrite decide_True by lia.
  assert (fat_ok (with_inner x f1) l) as Hok1 by (split; [done|cbn [with_inner ff_inner ff_size]; by rewrite Ed1]).
  destruct (gap_filled fuel offset (with_inner x f1) l Hok1) as (x2 & l2 & -> & [Ho2 Es2] & Ep2 & Eo2 & Er2 & Ed2); cbn [with_inner ff_inner ff_size] in *; [lia..|].
  cbn [mbind option_bind]. destruct (write_all_law l2 (ff_inner x2) buffer Ho2) as (f3 & l3 & -> & Ho3 & Er3 & Ed3); [lia|].
  replace (Z.to_nat (f_pos (ff_inner x2))) with (length (f_data l2 (ff_inner x2))) in Ed3 by lia. rewrite overwrite_end in Ed3.
  eexists _, _. split; [reflexivity|]. unfold fat_ok, fat_data in *. cbn [with_inner ff_inner ff_size] in *. rewrite Ed3, Ed2, Ed1, <- app_assoc. split; [|done]. split; [done|].
  rewrite !length_app, length_replicate, wrap_small by (unfold is_usize, USIZE; lia). case_decide; lia.
Qed.

(** At any other offset behind the end the gap is never hit: the write fills the file with
    zeros until the file system refuses, and fails. *)
Theorem fat_write_gap_fills_disk fuel x offset buffer l : fat_ok x l → ff_size x < offset < 4294967296 → offset mod 512 ≠ 0 →
  f_room l (ff_inner x) - ff_size x ≤ 512 * Z.of_nat fuel →
  ∃ x' l', FatFile_writeat lib (S fuel) x offset buffer l = Some (FErr V_StorageFull, x', l') ∧ Z.of_nat (length (fat_data x' l')) = f_room l (ff_inner x).
Proof.
  intros [Ho Es] Hlt Hm Hf. unfold FatFile_writeat. destruct (f_bounds l (ff_inner x) Ho) as (_ & Hlr & Hr & _).
  destruct (seek_law l (ff_inner x) offset Ho) as (f1 & -> & Ho1 & Ed1 & Er1 & Ep1); [lia|]. rewrite Z.min_r in Ep1 by lia. rewrite decide_True by lia.
  assert (fat_ok (with_inner x f1) l) as Hok1 by (split; [done|cbn [with_inner ff_inner ff_size]; by rewrite Ed1]).
  destruct (gap_overfilled fuel offset (with_inner x f1) l Hok1) as (x2 & l2 & -> & E2); cbn [with_inner ff_inner ff_size] in *; [lia..|].
  exists x2, l2. split; [done|]. by rewrite E2, Er1.
Qed.

(** After a truncation the copy of the size is wrong: a read behind the new end fails. *)
Theorem fat_truncate_stale x size n buffer l : fat_ok x l → 0 ≤ size ≤ n → n < ff_size x → buffer ≠ [] →
  ∃ x' l', FatFile_truncate lib x size l = (FOk tt, x', l') ∧ fat_data x' l' = take (Z.to_nat size) (fat_data x l) ∧
    ∃ x'', FatFile_readat lib x' n buffer l' = (FErr V_UnexpectedEof, buffer, x'').
Proof.
  intros [Ho Es] Hs Hn Hb. unfold FatFile_truncate. destruct (f_bounds l (ff_inner x) Ho) as (_ & Hlr & Hr & _).
  destruct (seek_law l (ff_inner x) size Ho) as (f1 & -> & Ho1 & Ed1 & Er1 & Ep1); [lia|]. rewrite Z.min_l in Ep1 by lia.
  destruct (truncate_law l f1 Ho1) as (f2 & l2 & -> & Ho2 & Ed2). rewrite Ep1, Ed1 in Ed2. eexists _, l2. split; [reflexivity|]. unfold fat_data. cbn [ff_inner with_inner]. split; [done|].
  unfold FatFile_readat. cbn [ff_size ff_inner with_inner]. rewrite decide_False by lia. assert (Z.of_nat (length (f_data l2 f2)) = size) as El by (rewrite Ed2, length_take; lia).
  destruct (seek_law l2 f2 n Ho2) as (f3 & -> & Ho3 & Ed3 & Er3 & Ep3); [lia|]. destruct (seek_law l2 f3 n Ho3) as (f4 & -> & Ho4 & Ed4 & Er4 & Ep4); [lia|].
  assert (0 < length buffer)%nat by (destruct buffer; [done|cbn; lia]).
  pose proof (read_law l2 f4 (Z.to_nat (Z.min (Z.of_nat (length buffer)) (ff_size x - n))) Ho4) as Hread. rewrite decide_False in Hread by (rewrite Ep4, Ed4, Ed3, El; lia).
  destruct Hread as (f5 & ->). by eexists.
Qed.
End theory.

(** ** A library for one file of at most eight sectors *)

Definition toy_room : Z := 4096.

Definition toy_fat : Fatfs (list Z) Z unit := {|
  fat_seek l f pos := match pos with Start n => let p := Z.min n (Z.of_nat (length l)) in (FOk p, p) | _ => (FErr F_InvalidInput, f) end;
  fat_read_exact l f n :=
    if decide (f + Z.of_nat n ≤ Z.of_nat (length l)) then (FOk (take n (drop (Z.to_nat f) l)), f + Z.of_nat n) else (FErr F_UnexpectedEof, f);
  fat_write l f buf :=
    if decide (f < toy_room) then
      let k := Z.min (Z.of_nat (length buf)) (512 - f mod 512) in (FOk k, f + k, buf_write_at (Z.to_nat f) l (take (Z.to_nat k) buf))
    else (FErr F_NotEnoughSpace, f, l);
  fat_write_all l f buf :=
    if decide (f + Z.of_nat (length buf) ≤ toy_room) then (FOk tt, f + Z.of_nat (length buf), buf_write_at (Z.to_nat f) l buf) else (FErr F_NotEnoughSpace, f, l);
  fat_truncate l f := (FOk tt, f, take (Z.to_nat f) l);
  fat_flush l f := (FOk tt, l);
  fat_create_dir l d name := (FErr F_NotEnoughSpace, l);
  fat_create_file l d name := if decide (name = "f"%string) then (FOk 0, l) else (FErr F_NotEnoughSpace, l);
  fat_remove l d name := (FErr F_NotFound, l);
  fat_iter l d := [FOk (mkFatEntry "f"%string false true (Z.of_nat (length l)) tt 0)];
  fat_flush_fs_info l := (FOk tt, l);
  fat_root_dir l := tt;
|}.

#[export] Instance toy_fat_laws : FatLaws toy_fat.
Proof.
  refine {| f_data l f := l; f_pos f := f; f_room l f := toy_room; f_open l f := 0 ≤ f ≤ Z.of_nat (length l) ∧ Z.of_nat (length l) ≤ toy_room |}.
  - intros l f [? ?]. split_and!; (done || lia).
  - intros l f n [? ?] ?. eexists. split; [reflexivity|]. split_and!; (done || lia).
  - intros l f n [? ?]. case_decide as Hc; cbn [toy_fat fat_read_exact]; [rewrite decide_True by done|rewrite decide_False by done]; eexists; [|done]. split; [reflexivity|]. split_and!; (done || lia).
  - intros l f buf [? ?] Hb. case_decide as Hc; cbn [toy_fat fat_write]; [rewrite decide_True by done|by rewrite decide_False by done].
    eexists _, _. split; [reflexivity|]. split; [|by split_and!]. assert (0 < length buf)%nat by (destruct buf; [done|cbn; lia]).
    pose proof (Z.mod_pos_bound f 512 ltac:(done)). pose proof (Z.div_mod f 512 ltac:(done)). rewrite length_overwrite, length_take by lia. unfold toy_room in *. lia.
  - intros l f buf [? ?] Hr. cbn [toy_fat fat_write_all]. rewrite decide_True by done. eexists _, _. split; [reflexivity|]. split; [|done]. rewrite length_overwrite by lia. unfold toy_room in *. lia.
  - intros l f [? ?]. eexists _, _. split; [reflexivity|]. split; [|done]. rewrite length_take. lia.
Defined.

(** A write at byte 1024 of an empty file leaves zeros before it; one at byte 700 fails and
    leaves eight sectors of zeros. *)
Example toy_gap_filled : FatFile_writeat toy_fat 8 (mkFatFile "f" 0 0) 1024 [1; 2] [] = Some (FOk 2, mkFatFile "f" 1026 1026, replicate 1024 0 ++ [1; 2]).
Proof. vm_compute. reflexivity. Qed.
Example toy_gap_missed : FatFile_writeat toy_fat 9 (mkFatFile "f" 0 0) 700 [1; 2] [] = Some (FErr V_StorageFull, mkFatFile "f" 4096 4096, replicate 4096 0).
Proof. vm_compute. reflexivity. Qed.
