(* ===== verification/Pipe.v ===== *)
(** * Pipes and socket pairs

    Models filesystem/fs/src/pipe.rs, kernel/src/user/socket_pair.rs and the two
    blocking futures of filesystem/fs/src/lib.rs.  A pipe is a byte queue shared by a
    sender and a receiver and the number of strong references to the sender.  The
    theorems show that a pipe is a FIFO channel, when its operations block, and that
    a blocked reader is woken by a write or by the sender going away. *)

From S2P Require Import Prelude Vfs.

Definition PIPE_BUFFER_SIZE : Z := 0x10000.

Record Pipe := mkPipe { queue : list Z; senders : nat }.

Definition qlen (q : list Z) : Z := Z.of_nat (length q).

(** ** [PipeSender] *)

Definition PipeSender_writeat (p : Pipe) (buffer : list Z) : result Z * Pipe :=
  let len := qlen buffer in
  if decide (buffer = []) then (Ok 0, p)
  else if decide (len ≤ 16) then (Ok len, mkPipe (queue p ++ buffer) (senders p))
  else if decide (qlen (queue p) + len ≤ PIPE_BUFFER_SIZE) then
    (Ok len, mkPipe (queue p ++ buffer) (senders p))
  else (Err EWOULDBLOCK, p).

Definition PipeSender_poll (p : Pipe) (events : Z) : Z :=
  if contains events POLLOUT then
    if decide (qlen (queue p) ≤ PIPE_BUFFER_SIZE) then Z.lor POLL_NONE POLLOUT else POLL_NONE
  else POLL_NONE.

(** ** [PipeReceiver] *)

Definition PipeReceiver_readat (p : Pipe) (buffer : list Z) : result Z * list Z * Pipe :=
  if decide (buffer = []) then (Ok 0, buffer, p)
  else if decide (0 < qlen (queue p)) then
    let rlen := Nat.min (length (queue p)) (length buffer) in
    (Ok (Z.of_nat rlen), buf_write buffer (take rlen (queue p)), mkPipe (drop rlen (queue p)) (senders p))
  else if decide (0 < senders p)%nat then (Err EWOULDBLOCK, buffer, p)
  else (Ok 0, buffer, p).

Definition PipeReceiver_poll (p : Pipe) (events : Z) : Z :=
  let sender_alive := bool_decide (0 < senders p)%nat in
  let empty := bool_decide (queue p = []) in
  let res := POLL_NONE in
  let res := if contains events POLLIN then
               if negb empty then Z.lor res POLLIN
               else if negb sender_alive then Z.lor res POLLERR else res
             else res in
  if contains events POLLERR then
    if empty && negb sender_alive then Z.lor res POLLERR else res
  else res.

Definition pipe_stat (stat : Stat) : Stat :=
  mkStat (st_dev stat) (st_ino stat) S_FIFO (st_nlink stat) (st_uid stat) (st_gid stat) (st_rdev stat)
    (st_size stat) (st_blksize stat) (st_blocks stat) (st_atime stat) (st_mtime stat) (st_ctime stat).

(** A new pipe is empty and has one sender. *)
Definition create_pipe : Pipe := mkPipe [] 1.

(** The two ends as inodes over the shared pipe; every method they do not define is the
    trait's default. *)
Definition pipe_default : INode Empty_set Pipe := INode_default.

Definition PipeSender_inode : INode Empty_set Pipe := {|
  i_readat := i_readat pipe_default;
  i_writeat _ buf p := Ret (PipeSender_writeat p buf);
  i_create := i_create pipe_default;
  i_mkdir := i_mkdir pipe_default;
  i_rmdir := i_rmdir pipe_default;
  i_remove := i_remove pipe_default;
  i_read_dir := i_read_dir pipe_default;
  i_lookup := i_lookup pipe_default;
  i_ioctl := i_ioctl pipe_default;
  i_truncate := i_truncate pipe_default;
  i_flush := i_flush pipe_default;
  i_resolve_link := i_resolve_link pipe_default;
  i_link := i_link pipe_default;
  i_symlink := i_symlink pipe_default;
  i_unlink := i_unlink pipe_default;
  i_stat st _ := Ret (Ok tt, pipe_stat st);
  i_mount := i_mount pipe_default;
  i_umount := i_umount pipe_default;
  i_statfs := i_statfs pipe_default;
  i_utimes := i_utimes pipe_default;
  i_poll ev p := Ret (Ok (PipeSender_poll p ev), p);
|}.

Definition PipeReceiver_inode : INode Empty_set Pipe := {|
  i_readat _ buf p := Ret (PipeReceiver_readat p buf);
  i_writeat := i_writeat pipe_default;
  i_create := i_create pipe_default;
  i_mkdir := i_mkdir pipe_default;
  i_rmdir := i_rmdir pipe_default;
  i_remove := i_remove pipe_default;
  i_read_dir := i_read_dir pipe_default;
  i_lookup := i_lookup pipe_default;
  i_ioctl := i_ioctl pipe_default;
  i_truncate := i_truncate pipe_default;
  i_flush := i_flush pipe_default;
  i_resolve_link := i_resolve_link pipe_default;
  i_link := i_link pipe_default;
  i_symlink := i_symlink pipe_default;
  i_unlink := i_unlink pipe_default;
  i_stat st _ := Ret (Ok tt, pipe_stat st);
  i_mount := i_mount pipe_default;
  i_umount := i_umount pipe_default;
  i_statfs := i_statfs pipe_default;
  i_utimes := i_utimes pipe_default;
  i_poll ev p := Ret (Ok (PipeReceiver_poll p ev), p);
|}.

(** ** [SocketPair]: both descriptors share one queue *)

Definition SocketPair_writeat (q buffer : list Z) : result Z * list Z :=
  if decide (0x50000 < qlen q) then (Err EWOULDBLOCK, q) else (Ok (qlen buffer), q ++ buffer).

Definition SocketPair_readat (q buffer : list Z) : result Z * list Z * list Z :=
  let rlen := Nat.min (length q) (length buffer) in
  let res := buf_write buffer (take rlen q) in
  if decide (rlen = 0%nat) then (Err EWOULDBLOCK, res, drop rlen q)
  else (Ok (Z.of_nat rlen), res, drop rlen q).

Definition SocketPair_poll (q : list Z) (events : Z) : Z :=
  let res := if contains events POLLOUT then
               if decide (qlen q ≤ 0x50000) then Z.lor POLL_NONE POLLOUT else POLL_NONE
             else POLL_NONE in
  if contains events POLLIN then if decide (0 < qlen q) then Z.lor res POLLIN else res else res.

Definition create_socket_pair : list Z := [].

(** ** The blocking futures *)

Inductive Poll (A : Type) := Ready (a : A) | Pending.
Arguments Ready {A} a.
Arguments Pending {A}.

(** One poll of [WaitBlockingRead]: the retry counter is the future's own state. *)
Definition WaitBlockingRead_poll {N W} (file : INode N W) (offset : Z) (st : list Z * Z) (w : W)
    : outcome (Poll (result Z) * (list Z * Z) * W) :=
  '(r, buffer, w) ← i_readat file offset st.1 w;
  match r with
  | Ok rsize => Ret (Ready (Ok rsize), (buffer, st.2), w)
  | Err EWOULDBLOCK => Ret (Pending, (buffer, (st.2 + 1) mod 4294967296), w)
  | Err err => Ret (Ready (Err err), (buffer, st.2), w)
  end.

Definition WaitBlockingWrite_poll {N W} (file : INode N W) (offset : Z) (buffer : list Z) (retry : Z) (w : W)
    : outcome (Poll (result Z) * Z * W) :=
  '(r, w) ← i_writeat file offset buffer w;
  match r with
  | Ok wsize => Ret (Ready (Ok wsize), retry, w)
  | Err EWOULDBLOCK => Ret (Pending, (retry + 1) mod 4294967296, w)
  | Err err => Ret (Ready (Err err), retry, w)
  end.

(** ** A pipe is a FIFO channel *)

(** One operation on the pipe, with the bytes accepted from writers and the bytes
    handed to readers so far. *)
Inductive pipe_step : Pipe * list Z * list Z → Pipe * list Z * list Z → Prop :=
  | step_write p p' buf n sent got :
      PipeSender_writeat p buf = (Ok n, p') → pipe_step (p, sent, got) (p', sent ++ take (Z.to_nat n) buf, got)
  | step_write_blocked p p' buf sent got :
      PipeSender_writeat p buf = (Err EWOULDBLOCK, p') → pipe_step (p, sent, got) (p', sent, got)
  | step_read p p' buf buf' n sent got :
      PipeReceiver_readat p buf = (Ok n, buf', p') → pipe_step (p, sent, got) (p', sent, got ++ take (Z.to_nat n) buf')
  | step_read_blocked p p' buf buf' sent got :
      PipeReceiver_readat p buf = (Err EWOULDBLOCK, buf', p') → pipe_step (p, sent, got) (p', sent, got)
  | step_dup_sender p sent got :
      pipe_step (p, sent, got) (mkPipe (queue p) (S (senders p)), sent, got)
  | step_drop_sender p sent got :
      pipe_step (p, sent, got) (mkPipe (queue p) (pred (senders p)), sent, got).

Definition pipe_inv (st : Pipe * list Z * list Z) : Prop := st.1.2 = st.2 ++ queue st.1.1.

Lemma pipe_write_ok p buf n p' : PipeSender_writeat p buf = (Ok n, p') →
  n = qlen buf ∧ queue p' = queue p ++ buf ∧ senders p' = senders p.
Proof.
  unfold PipeSender_writeat. repeat case_decide; intros [= <- <-]; subst; [|done..].
  by rewrite app_nil_r.
Qed.

Lemma pipe_read_ok p buf n buf' p' : PipeReceiver_readat p buf = (Ok n, buf', p') →
  take (Z.to_nat n) buf' ++ queue p' = queue p ∧ n = Z.of_nat (Nat.min (length (queue p)) (length buf)) ∧
  length buf' = length buf.
Proof.
  unfold PipeReceiver_readat, qlen. repeat case_decide; intros [= <- <- <-]; subst; cbn [queue length].
  - by rewrite Nat.min_0_r.
  - rewrite Nat2Z.id. assert (Nat.min (length (queue p)) (length buf) = length (take (Nat.min (length (queue p)) (length buf)) (queue p))) as E.
    { rewrite length_take. lia. }
    rewrite E at 1. rewrite (take_buf_write_n _ _ _ eq_refl), take_drop, length_buf_write by (rewrite <- E; lia). done.
  - by destruct (queue p); [|cbn in *; lia].
Qed.

Lemma pipe_blocked_write p buf p' : PipeSender_writeat p buf = (Err EWOULDBLOCK, p') → p' = p.
Proof. unfold PipeSender_writeat. repeat case_decide; by intros [= <-]. Qed.

Lemma pipe_read_eagain p buf buf' p' : PipeReceiver_readat p buf = (Err EWOULDBLOCK, buf', p') →
  buf ≠ [] ∧ queue p = [] ∧ (0 < senders p)%nat.
Proof.
  unfold PipeReceiver_readat, qlen. repeat case_decide; try done. intros _.
  destruct (queue p); [done|cbn in *; lia].
Qed.

Lemma pipe_read_nonempty p buf : buf ≠ [] → queue p ≠ [] →
  let n := Nat.min (length (queue p)) (length buf) in
  PipeReceiver_readat p buf =
    (Ok (Z.of_nat n), buf_write buf (take n (queue p)), mkPipe (drop n (queue p)) (senders p)) ∧ (0 < n)%nat.
Proof.
  intros Hb Hq. unfold PipeReceiver_readat, qlen. rewrite decide_False by done.
  destruct (queue p) as [|x q], buf as [|b buf]; try done. rewrite decide_True by (cbn; lia).
  split; [done|cbn; lia].
Qed.

Lemma pipe_write_fits p buf : qlen (queue p) + qlen buf ≤ PIPE_BUFFER_SIZE →
  PipeSender_writeat p buf = (Ok (qlen buf), mkPipe (queue p ++ buf) (senders p)).
Proof.
  intros. unfold PipeSender_writeat. repeat case_decide; subst; try done.
  rewrite app_nil_r. by destruct p.
Qed.

Lemma pipe_blocked_read p buf buf' p' : PipeReceiver_readat p buf = (Err EWOULDBLOCK, buf', p') → p' = p ∧ buf' = buf.
Proof. unfold PipeReceiver_readat. repeat case_decide; by intros [= <- <-]. Qed.

Lemma pipe_inv_step st st' : pipe_inv st → pipe_step st st' → pipe_inv st'.
Proof.
  unfold pipe_inv. intros Hi Hs. destruct Hs as [p p' buf n sent got E|p p' buf sent got E|p p' buf buf' n sent got E
    |p p' buf buf' sent got E|p sent got|p sent got]; cbn [fst snd queue] in *; subst.
  - apply pipe_write_ok in E as (-> & -> & _). unfold qlen. by rewrite Nat2Z.id, firstn_all, app_assoc.
  - by apply pipe_blocked_write in E as ->.
  - apply pipe_read_ok in E as (E & _ & _). by rewrite <- app_assoc, E.
  - by apply pipe_blocked_read in E as [-> _].
  - done.
  - done.
Qed.

(** C18: a pipe is a FIFO channel: in every reachable state the bytes handed to readers
    so far, followed by the bytes still queued, are exactly the bytes writers were told
    were accepted, in order; nothing is lost, duplicated or reordered. *)
Theorem pipe_fifo (p : Pipe) (sent got : list Z) :
  rtc pipe_step (create_pipe, [], []) (p, sent, got) → sent = got ++ queue p.
Proof.
  intros Hs. assert (pipe_inv (create_pipe, [], [])) as Hi by done.
  change (pipe_inv (p, sent, got)). revert Hi. generalize (create_pipe, [] : list Z, [] : list Z) as st, Hs.
  intros st Hs'. induction Hs'; eauto using pipe_inv_step.
Qed.

(** What a read returns: it blocks exactly when the caller's buffer is not empty,
    the queue is empty and a sender is alive; it reports end of file (0 bytes) exactly
    when the buffer is empty or the queue is empty with no sender left; otherwise it
    returns the longest available prefix that fits; and [poll] announces [POLLIN]
    exactly when a read into a non-empty buffer returns data. *)
Theorem pipe_read_outcomes (p : Pipe) (buf : list Z) :
  let '(r, buf', p') := PipeReceiver_readat p buf in
  (r = Err EWOULDBLOCK ↔ buf ≠ [] ∧ queue p = [] ∧ (0 < senders p)%nat) ∧
  (r = Ok 0 ↔ buf = [] ∨ (queue p = [] ∧ senders p = 0%nat)) ∧
  (∀ n, r = Ok n → n = Z.of_nat (Nat.min (length (queue p)) (length buf)) ∧
     take (Z.to_nat n) buf' = take (Z.to_nat n) (queue p) ∧ queue p' = drop (Z.to_nat n) (queue p)) ∧
  (buf ≠ [] → (contains (PipeReceiver_poll p POLLIN) POLLIN = true ↔ ∃ n, r = Ok n ∧ 0 < n)).
Proof.
  destruct (PipeReceiver_readat p buf) as [[r buf'] p'] eqn:E.
  assert (contains (PipeReceiver_poll p POLLIN) POLLIN = bool_decide (queue p ≠ [])) as Hpoll.
  { unfold PipeReceiver_poll. change (contains POLLIN POLLIN) with true. change (contains POLLIN POLLERR) with false.
    destruct (queue p); [|done]. rewrite bool_decide_eq_true_2 by done. by case_bool_decide. }
  rewrite Hpoll. pose proof E as E'. unfold PipeReceiver_readat, qlen in E'. repeat case_decide; simplify_eq.
  - split_and!; [naive_solver|naive_solver|..|done]. intros n [= <-]. by rewrite Nat.min_0_r.
  - destruct (queue p) as [|x q] eqn:Eq; [cbn in *; lia|]. destruct buf as [|b buf]; [done|].
    split_and!.
    + naive_solver.
    + split; [|naive_solver]. by intros [= Hn].
    + intros n [= <-]. rewrite Nat2Z.id. split_and!; [done| |done].
      apply take_buf_write_n. rewrite length_take. cbn [length]. lia.
    + intros _. split; [|done]. intros _. eexists. split; [done|]. cbn. lia.
  - assert (queue p' = []) as Hq by (destruct (queue p'); [done|cbn in *; lia]). rewrite Hq.
    split_and!; [naive_solver lia..|]. intros _. split; [done|naive_solver].
  - assert (queue p' = []) as Hq by (destruct (queue p'); [done|cbn in *; lia]). rewrite Hq.
    split_and!; [naive_solver lia|naive_solver lia|by intros n [= <-]|].
    intros _. split; [done|]. intros (n & [= <-] & ?). lia.
Qed.

(** ** Blocking and waking up *)

(** A reader blocked on an empty pipe is pending without touching the pipe or its
    buffer, and its next poll is ready once any sender has written at least one byte (it
    then gets a prefix of what was written) or the last sender has gone away (it then
    gets end of file). *)
Theorem pipe_blocked_reader_wakes (p p' : Pipe) (buf : list Z) (offset retry : Z)
    (Hblocked : WaitBlockingRead_poll PipeReceiver_inode offset (buf, retry) p =
                Ret (Pending, (buf, (retry + 1) mod 4294967296), p')) :
  p' = p ∧ queue p = [] ∧
  (∀ data, data ≠ [] → qlen data ≤ PIPE_BUFFER_SIZE →
     let '(w, q) := PipeSender_writeat p data in
     w = Ok (qlen data) ∧
     ∃ n buf', WaitBlockingRead_poll PipeReceiver_inode offset (buf, retry) q =
       Ret (Ready (Ok (Z.of_nat n)), (buf', retry), mkPipe (drop n data) (senders p)) ∧
       (0 < n)%nat ∧ take n buf' = take n data) ∧
  WaitBlockingRead_poll PipeReceiver_inode offset (buf, retry) (mkPipe (queue p) 0) =
    Ret (Ready (Ok 0), (buf, retry), mkPipe (queue p) 0).
Proof.
  revert Hblocked. unfold WaitBlockingRead_poll. cbn [i_readat PipeReceiver_inode fst snd].
  repeat change (Ret ?a ≫= ?f) with (f a). cbn beta.
  destruct (PipeReceiver_readat p buf) as [[r b'] q] eqn:E. intros H.
  assert (r = Err EWOULDBLOCK) as -> by (destruct r as [|[]]; simplify_eq; done).
  apply pipe_read_eagain in E as Hq. destruct Hq as (Hb & Hq & Hs).
  apply pipe_blocked_read in E as [-> ->]. cbn beta iota in H. simplify_eq. split_and!; try done.
  - intros data Hd Hl. rewrite pipe_write_fits by (rewrite Hq; unfold qlen in *; cbn; lia). rewrite Hq. cbn [app].
    split; [done|]. destruct (pipe_read_nonempty (mkPipe data (senders p')) buf) as [-> Hn]; [done..|].
    eexists _, _. split_and!; [done|done|]. apply take_buf_write_n. rewrite length_take. cbn [queue]. lia.
  - unfold PipeReceiver_readat. cbn [queue senders]. rewrite Hq. by rewrite decide_False.
Qed.

Lemma pipe_blocked_reader_wakes_witness :
  let p := mkPipe [] 1 in
  ∃ n buf', WaitBlockingRead_poll PipeReceiver_inode 0 ([0; 0], 5) (PipeSender_writeat p [7; 8; 9]).2 =
    Ret (Ready (Ok (Z.of_nat n)), (buf', 5), mkPipe (drop n [7; 8; 9]) 1).
Proof.
  destruct (pipe_blocked_reader_wakes (mkPipe [] 1) (mkPipe [] 1) [0; 0] 0 5 eq_refl) as (_ & _ & H & _).
  destruct (H [7; 8; 9]) as (_ & n & b & Hb & _); [done|vm_compute; discriminate|]. by exists n, b.
Defined.

(** How full a pipe gets, and which writes can never finish: an accepted write
    leaves at most 64 KiB or 16 bytes more than before in the queue, so only small writes
    pass the limit, and they pass it without any bound; and a blocking write of more than
    64 KiB is pending at every poll, in every state of the pipe, even an empty one. *)
Theorem pipe_capacity :
  (∀ p buf n p', PipeSender_writeat p buf = (Ok n, p') →
     qlen (queue p') ≤ Z.max PIPE_BUFFER_SIZE (qlen (queue p) + 16)) ∧
  (∀ bound, ∃ p sent, rtc pipe_step (create_pipe, [], []) (p, sent, []) ∧ bound < qlen (queue p)) ∧
  (∀ p buf offset retry, PIPE_BUFFER_SIZE < qlen buf →
     WaitBlockingWrite_poll PipeSender_inode offset buf retry p =
       Ret (Pending, (retry + 1) mod 4294967296, p)).
Proof.
  split_and!.
  - intros p buf n p'. unfold PipeSender_writeat, qlen. repeat case_decide; intros [= <- <-]; cbn [queue];
      rewrite ?length_app; lia.
  - intros bound. assert (∀ n, ∃ p sent, rtc pipe_step (create_pipe, [], []) (p, sent, []) ∧ qlen (queue p) = Z.of_nat n) as H.
    { induction n as [|n (p & sent & Hs & Hn)]; [by eexists _, _; split; [apply rtc_refl|]|].
      exists (mkPipe (queue p ++ [0]) (senders p)), (sent ++ [0]). split.
      - eapply rtc_r; [exact Hs|]. by apply (step_write p _ [0] 1).
      - unfold qlen in *. cbn [queue]. rewrite length_app. cbn [length]. lia. }
    destruct (H (S (Z.to_nat bound))) as (p & sent & Hs & Hn). exists p, sent. split; [done|lia].
  - intros p buf offset retry Hb. unfold WaitBlockingWrite_poll. cbn [i_writeat PipeSender_inode].
    repeat change (Ret ?a ≫= ?f) with (f a). cbn beta. unfold PipeSender_writeat.
    assert (0 ≤ qlen (queue p)) by (unfold qlen; lia). unfold PIPE_BUFFER_SIZE in *.
    rewrite decide_False by (intros ->; unfold qlen in Hb; cbn [length] in Hb; lia). by rewrite !decide_False by lia.
Qed.

Lemma pipe_fifo_witness : [1; 2; 3] = [1; 2] ++ queue (mkPipe [3] 1).
Proof.
  apply (pipe_fifo (mkPipe [3] 1) [1; 2; 3] [1; 2]).
  eapply rtc_l; [by apply (step_write _ (mkPipe [1; 2; 3] 1) [1; 2; 3] 3)|].
  eapply rtc_l; [by apply (step_read _ (mkPipe [3] 1) [0; 0] [1; 2] 2)|]. apply rtc_refl.
Defined.

(** A socket pair is one queue behind both descriptors: what is written is read back in
    order, also by the descriptor that wrote it. *)
Lemma socket_pair_roundtrip q data buf : qlen q ≤ 0x50000 → (length q + length data ≤ length buf)%nat →
  q ++ data ≠ [] →
  let '(w, q') := SocketPair_writeat q data in
  w = Ok (qlen data) ∧
  SocketPair_readat q' buf = (Ok (qlen (q ++ data)), buf_write buf (q ++ data), []).
Proof.
  intros Hq Hb Hne. unfold SocketPair_writeat. rewrite decide_False by lia. split; [done|].
  unfold SocketPair_readat. rewrite length_app, Nat.min_l by lia. rewrite <- length_app, firstn_all, drop_all.
  rewrite decide_False; [done|]. by destruct (q ++ data).
Qed.
