(* ===== verification/File.v ===== *)
(** * Open files

    Models filesystem/fs/src/file.rs over any implementation of the inode trait: opening
    by path through the mount table, reads and writes at the file's offset, seeking and
    directory listings.  The theorems are proved against the interface [reads_as], what
    an inode that holds a byte sequence promises to its readers. *)

From S2P Require Import Prelude Path Vfs Pipe.

(** ** Encoding of directory records *)

(** [size_of::<Dirent64>()]; the name starts at byte 19 of the record. *)
Definition size_of_Dirent64 : nat := 24.

Definition dirent_len (x : DirEntry) : nat := size_of_Dirent64 + length (str_bytes (de_filename x)) + 1.

(** The bytes [getdents] stores for an entry: [ino], [off], [reclen], [ftype], the name
    and its terminator; the rest of the record keeps the bytes of the caller's buffer. *)
Definition dirent_bytes (x : DirEntry) : list Z :=
  le_bytes 8 0 ++ le_bytes 8 (Z.of_nat (dirent_len x)) ++ le_bytes 2 (Z.of_nat (dirent_len x)) ++ [0] ++
  str_bytes (de_filename x) ++ [0].

(** The loop of [getdents]: [written] is [ptr - buf_ptr]. *)
Fixpoint getdents_loop (es : list (nat * DirEntry)) (processed_count : nat) (buffer : list Z)
    (written finished : nat) : list Z * nat * nat :=
  match es with
  | [] => (buffer, written, finished)
  | (i, x) :: es =>
      if decide (50 < S processed_count)%nat then (buffer, written, finished)
      else if decide (length buffer - written < dirent_len x)%nat then (buffer, written, finished)
      else getdents_loop es (S processed_count) (buf_write_at written buffer (dirent_bytes x))
             (written + dirent_len x) (i + 1)
  end.

Section file.
Context {N W : Type} (ops : N → INode N W).

Record File := mkFile { f_inner : N; f_path_buf : PathBuf; f_offset : Z; f_flags : Z }.

Definition set_offset (f : File) (o : Z) : File := mkFile (f_inner f) (f_path_buf f) o (f_flags f).

(** The [lookup] loop of [open]. *)
Fixpoint walk (names : list string) (file : N) (w : W) : outcome (result N) :=
  match names with
  | [] => Ret (Ok file)
  | name :: names =>
      r ← i_lookup (ops file) name w;
      match r with Ok file => walk names file w | Err e => Ret (Err e) end
  end.

Definition File_open (mounted : MountTable N) (path_buf : PathBuf) (flags : Z) (w : W)
    : outcome (result File * W) :=
  '(de, path) ← get_mounted mounted path_buf;
  let opened file := mkFile file path_buf 0 flags in
  if decide (0 < PathBuf_levels path)%nat then
    r ← walk (PathBuf_dir path) de w;
    match r with
    | Err e => Ret (Err e, w)
    | Ok dir =>
        '(c, w) ← (if contains flags O_CREAT then
                     i_create (ops dir) (PathBuf_filename path)
                       (if contains flags O_DIRECTORY then FT_Directory else FT_File) w
                   else Ret (Ok tt, w));
        match c with
        | Err e => Ret (Err e, w)
        | Ok _ =>
            l ← i_lookup (ops dir) (PathBuf_filename path) w;
            match l with Ok file => Ret (Ok (opened file), w) | Err e => Ret (Err e, w) end
        end
    end
  else Ret (Ok (opened de), w).

Definition File_new_dev (inner : N) : File := mkFile inner PathBuf_new 0 O_RDWR.

Definition remove_self (mounted : MountTable N) (f : File) (w : W) : outcome (result unit * W) :=
  '(r, w) ← File_open mounted (PathBuf_dir (f_path_buf f)) O_DIRECTORY w;
  match r with
  | Err e => Ret (Err e, w)
  | Ok dir => i_remove (ops (f_inner dir)) (PathBuf_filename (f_path_buf f)) w
  end.

Definition check_writeable (f : File) : result unit :=
  if contains (f_flags f) O_RDWR || contains (f_flags f) O_WRONLY then Ok tt else Err EPERM.

Definition file_size (f : File) (w : W) : outcome (result Z) :=
  '(r, stat) ← i_stat (ops (f_inner f)) Stat_default w;
  match r with Ok _ => Ret (Ok (st_size stat)) | Err e => Ret (Err e) end.

Definition file_type (f : File) (w : W) : outcome (result FileType) :=
  '(r, stat) ← i_stat (ops (f_inner f)) Stat_default w;
  match r with
  | Ok _ => t ← FileType_from_mode (st_mode stat); Ret (Ok t)
  | Err e => Ret (Err e)
  end.

(** [stat] clears the device number the inode reported. *)
Definition File_stat (f : File) (stat : Stat) (w : W) : outcome (result unit * Stat) :=
  '(r, st) ← i_stat (ops (f_inner f)) stat w;
  match r with
  | Ok _ => Ret (Ok tt, mkStat 0 (st_ino st) (st_mode st) (st_nlink st) (st_uid st) (st_gid st) (st_rdev st)
                   (st_size st) (st_blksize st) (st_blocks st) (st_atime st) (st_mtime st) (st_ctime st))
  | Err e => Ret (Err e, st)
  end.

(** Errors of [read_dir] are reported as an empty listing. *)
Definition getdents (f : File) (buffer : list Z) (w : W) : outcome (result Z * list Z * File) :=
  r ← i_read_dir (ops (f_inner f)) w;
  match r with
  | Err _ => Ret (Ok 0, buffer, f)
  | Ok dir_entries =>
      let es := drop (Z.to_nat (f_offset f)) (imap pair dir_entries) in
      let '(buffer, written, finished) := getdents_loop es 0 buffer 0 0 in
      Ret (Ok (Z.of_nat written), buffer, set_offset f (Z.of_nat finished))
  end.

Definition File_readat (f : File) (offset : Z) (buffer : list Z) (w : W) : outcome (result Z * list Z * W) :=
  i_readat (ops (f_inner f)) offset buffer w.

Definition File_writeat (f : File) (offset : Z) (buffer : list Z) (w : W) : outcome (result Z * W) :=
  match check_writeable f with
  | Err e => Ret (Err e, w)
  | Ok _ => if decide (buffer = []) then Ret (Ok 0, w) else i_writeat (ops (f_inner f)) offset buffer w
  end.

(** [.map(|x| { *self.offset.lock() += x; x })] *)
Definition advance (f : File) (r : result Z) : File :=
  match r with Ok x => set_offset f (f_offset f +u x) | Err _ => f end.

Definition File_read (f : File) (buffer : list Z) (w : W) : outcome (result Z * list Z * File * W) :=
  '(r, buffer, w) ← i_readat (ops (f_inner f)) (f_offset f) buffer w;
  Ret (r, buffer, advance f r, w).

Definition File_write (f : File) (buffer : list Z) (w : W) : outcome (result Z * File * W) :=
  match check_writeable f with
  | Err e => Ret (Err e, f, w)
  | Ok _ =>
      if decide (buffer = []) then Ret (Ok 0, f, w)
      else '(r, w) ← i_writeat (ops (f_inner f)) (f_offset f) buffer w;
           Ret (r, advance f r, w)
  end.

(** One poll of [async_read], whose future keeps the offset it started at, the caller's
    buffer and the retry counter. *)
Definition async_read_poll (f : File) (offset : Z) (st : list Z * Z) (w : W)
    : outcome (Poll (result Z) * (list Z * Z) * File * W) :=
  if contains (f_flags f) O_NONBLOCK then
    '(r, buffer, w) ← i_readat (ops (f_inner f)) offset st.1 w;
    Ret (Ready r, (buffer, st.2), advance f r, w)
  else
    '(p, st, w) ← WaitBlockingRead_poll (ops (f_inner f)) offset st w;
    match p with
    | Ready r => Ret (Ready r, st, advance f r, w)
    | Pending => Ret (Pending, st, f, w)
    end.

(** One poll of [async_write]; its check for writeability is commented out. *)
Definition async_write_poll (f : File) (offset : Z) (buffer : list Z) (retry : Z) (w : W)
    : outcome (Poll (result Z) * Z * File * W) :=
  if decide (buffer = []) then Ret (Ready (Ok 0), retry, f, w)
  else
    '(p, retry, w) ← WaitBlockingWrite_poll (ops (f_inner f)) offset buffer retry w;
    match p with
    | Ready r => Ret (Ready r, retry, advance f r, w)
    | Pending => Ret (Pending, retry, f, w)
    end.

Definition File_seek (f : File) (seek_from : SeekFrom) (w : W) : outcome (result Z * File) :=
  '(r, stat) ← i_stat (ops (f_inner f)) Stat_default w;
  match r with
  | Err e => Ret (Err e, f)
  | Ok _ =>
      let new_off := match seek_from with
                     | SET off => as_isize off
                     | CURRENT off => as_isize (as_isize (f_offset f) + off)
                     | END_ off => as_isize (as_isize (st_size stat) + off)
                     end in
      let new_off := if decide (new_off < 0) then 0 else new_off in
      Ret (Ok new_off, set_offset f new_off)
  end.

(** ** The contract of a readable inode *)

(** Node [n] of world [w] is a regular file holding the bytes [c]. *)
Definition reads_as (n : N) (w : W) (c : list Z) : Prop :=
  ∀ off buf, 0 ≤ off →
    i_readat (ops n) off buf w =
      Ret (Ok (Z.of_nat (length (take (length buf) (drop (Z.to_nat off) c)))),
           buf_write buf (take (length buf) (drop (Z.to_nat off) c)), w).

(** A sequence of [read] calls; the bytes they deliver, concatenated. *)
Fixpoint read_seq (f : File) (bufs : list (list Z)) (w : W) : outcome (list Z * File * W) :=
  match bufs with
  | [] => Ret ([], f, w)
  | b :: bufs =>
      '(r, b', f', w') ← File_read f b w;
      match r with
      | Err _ => Ret ([], f', w')
      | Ok n => '(rest, f'', w'') ← read_seq f' bufs w'; Ret (take (Z.to_nat n) b' ++ rest, f'', w'')
      end
  end.

Lemma File_read_spec f w c buf : reads_as (f_inner f) w c → is_usize (f_offset f) → Z.of_nat (length c) < USIZE →
  let data := take (length buf) (drop (Z.to_nat (f_offset f)) c) in
  File_read f buf w =
    Ret (Ok (Z.of_nat (length data)), buf_write buf data,
         set_offset f (f_offset f + Z.of_nat (length data)), w) ∧
  is_usize (f_offset f + Z.of_nat (length data)).
Proof.
  intros Hc Ho Hl data. assert (is_usize (f_offset f + Z.of_nat (length data))) as Hu.
  { unfold data, is_usize in *. rewrite length_take, length_drop. lia. }
  split; [|done]. unfold File_read. rewrite Hc by apply Ho. fold data.
  step_ret. unfold advance. by rewrite wrap_small.
Qed.

Lemma walk_app l1 l2 n w :
  walk (l1 ++ l2) n w =
    (r ← walk l1 n w; match r with Ok n' => walk l2 n' w | Err e => Ret (Err e) end).
Proof.
  revert n. induction l1 as [|x l1 IH]; intros n; [done|]. cbn [walk app].
  destruct (i_lookup (ops n) x w) as [[n'|e]|]; try done. apply IH.
Qed.
End file.

(** ** Sequential reads *)

Lemma read_seq_spec {N W} (ops : N → INode N W) (f : File) (c : list Z) (bufs : list (list Z)) (w : W) :
  reads_as ops (f_inner f) w c → is_usize (f_offset f) → Z.of_nat (length c) < USIZE →
  let data := take (sum_list (length <$> bufs)) (drop (Z.to_nat (f_offset f)) c) in
  read_seq ops f bufs w = Ret (data, set_offset f (f_offset f + Z.of_nat (length data)), w).
Proof.
  revert f. induction bufs as [|b bufs IH]; intros f Hc Ho Hl.
  - cbn. rewrite Z.add_0_r. by destruct f.
  - cbn [read_seq]. destruct (File_read_spec ops f w c b) as [E Ho']; [done..|]. rewrite E.
    step_ret. rewrite IH by done.
    step_ret. rewrite Nat2Z.id, take_buf_write_n by done.
    cbn [f_offset set_offset fmap list_fmap sum_list]. change (list_fmap _ _ length bufs) with (length <$> bufs).
    set (d := drop (Z.to_nat (f_offset f)) c) in *. set (m := sum_list (length <$> bufs)).
    rewrite Z2Nat.inj_add, Nat2Z.id, <- drop_drop by (destruct Ho; lia). fold d.
    rewrite drop_length_take, take_take_drop.
    rewrite <- Z.add_assoc, <- Nat2Z.inj_add, <- length_app. by rewrite take_take_drop.
Qed.

(** C22: reading through an open file is reading a stream: for an inode that holds the
    bytes [c], any sequence of [read] calls from offset [o] delivers, put together, the
    next bytes of [c] after [o], as many as the buffers have room for or the file has
    left, and leaves the offset right after the last byte delivered. *)
Theorem file_read_sequential {N W} (ops : N → INode N W) (f : File) (c : list Z) (bufs : list (list Z)) (w : W) :
  reads_as ops (f_inner f) w c → is_usize (f_offset f) → Z.of_nat (length c) < USIZE →
  let data := take (sum_list (length <$> bufs)) (drop (Z.to_nat (f_offset f)) c) in
  read_seq ops f bufs w = Ret (data, set_offset f (f_offset f + Z.of_nat (length data)), w).
Proof. apply read_seq_spec. Qed.

(** ** Directory listings *)

(** How a program reads the records: the length of a record is its bytes 16 and 17, its
    name the bytes from 19 up to the first zero. *)
Fixpoint c_string (l : list Z) : list Z :=
  match l with [] => [] | x :: l => if decide (x = 0) then [] else x :: c_string l end.

Fixpoint parse_dirents (fuel : nat) (bs : list Z) : list (list Z) :=
  match fuel, bs with
  | S fuel, _ :: _ =>
      c_string (drop 19 bs) :: parse_dirents fuel (drop (Z.to_nat (bs !!! 16%nat + 256 * bs !!! 17%nat)) bs)
  | _, _ => []
  end.

(** A name the records can carry: no zero byte, and short enough for a 16-bit length. *)
Definition name_ok (x : DirEntry) : Prop :=
  Forall (λ b, b ≠ 0) (str_bytes (de_filename x)) ∧ Z.of_nat (dirent_len x) < 65536.

(** A sequence of records for the given entries. *)
Inductive records : list Z → list DirEntry → Prop :=
  | records_nil : records [] []
  | records_cons x pad bs es : length pad = 5%nat → records bs es →
      records (dirent_bytes x ++ pad ++ bs) (x :: es).

Fixpoint enum_from (i : nat) (l : list DirEntry) : list (nat * DirEntry) :=
  match l with [] => [] | x :: l => (i, x) :: enum_from (S i) l end.

Lemma imap_enum (l : list DirEntry) (g : nat → DirEntry → nat * DirEntry) i :
  (∀ k x, g k x = ((i + k)%nat, x)) → imap g l = enum_from i l.
Proof.
  revert g i. induction l as [|x l IH]; intros g i Hg; [done|]. cbn [imap enum_from].
  rewrite Hg, Nat.add_0_r. f_equal. apply IH. intros k y. cbn. rewrite Hg. f_equal. lia.
Qed.

Lemma drop_enum o i l : drop o (enum_from i l) = enum_from (o + i) (drop o l).
Proof.
  revert i l. induction o as [|o IH]; intros i [|x l]; try done. cbn [drop enum_from].
  rewrite IH. f_equal. lia.
Qed.

Lemma c_string_zero l r : Forall (λ b, b ≠ 0) l → c_string (l ++ 0 :: r) = l.
Proof. induction 1 as [|x l Hx _ IH]; [done|]. cbn. by rewrite decide_False, IH. Qed.

Lemma length_dirent_bytes x : length (dirent_bytes x) = (20 + length (str_bytes (de_filename x)))%nat.
Proof. unfold dirent_bytes. rewrite !length_app. cbn [length le_bytes]. lia. Qed.

Lemma parse_record fuel x pad rest : name_ok x → length pad = 5%nat →
  parse_dirents (S fuel) (dirent_bytes x ++ pad ++ rest) =
    str_bytes (de_filename x) :: parse_dirents fuel rest.
Proof.
  intros [Hz Hl] Hp. assert (drop 19 (dirent_bytes x ++ pad ++ rest) = str_bytes (de_filename x) ++ 0 :: pad ++ rest) as E19.
  { unfold dirent_bytes. cbn [le_bytes app drop]. by rewrite <- app_assoc. }
  assert ((dirent_bytes x ++ pad ++ rest) !!! 16%nat + 256 * (dirent_bytes x ++ pad ++ rest) !!! 17%nat =
    Z.of_nat (dirent_len x)) as El.
  { unfold dirent_bytes. cbn [le_bytes app lookup_total list_lookup_total].
    rewrite (Z.mod_small (_ / 256)); [pose proof (Z.div_mod (Z.of_nat (dirent_len x)) 256); lia|].
    split; [apply Z.div_pos; lia|]. apply Z.div_lt_upper_bound; lia. }
  unfold parse_dirents; fold parse_dirents. rewrite El, E19, c_string_zero, Nat2Z.id by done.
  destruct (dirent_bytes x ++ pad ++ rest) eqn:E; [discriminate E|]. rewrite <- E. f_equal. f_equal.
  rewrite app_assoc. apply drop_app_length'. rewrite length_app, length_dirent_bytes, Hp. unfold dirent_len, size_of_Dirent64. lia.
Qed.

Lemma parse_records bs es fuel : records bs es → Forall name_ok es → (length es ≤ fuel)%nat →
  parse_dirents fuel bs = (λ x, str_bytes (de_filename x)) <$> es.
Proof.
  intros Hr. revert fuel. induction Hr as [|x pad bs es Hp _ IH]; intros fuel Ho Hf; [by destruct fuel|].
  apply Forall_cons in Ho as [Hx Ho]. destruct fuel as [|fuel]; [cbn in Hf; lia|].
  rewrite parse_record by done. rewrite IH; [done|done|cbn in Hf; lia].
Qed.

(** Storing one record after [written] bytes. *)
Lemma take_write_record written buf x : (written + dirent_len x ≤ length buf)%nat →
  ∃ pad, length pad = 5%nat ∧
    take (written + dirent_len x) (buf_write_at written buf (dirent_bytes x)) =
    take written buf ++ dirent_bytes x ++ pad.
Proof.
  intros Hl. exists (take 5 (drop (written + length (dirent_bytes x)) buf)).
  pose proof (length_dirent_bytes x) as Hd. unfold dirent_len, size_of_Dirent64 in *.
  split; [rewrite length_take, length_drop; lia|]. unfold buf_write_at.
  rewrite take_app_add' by (rewrite length_take; lia). f_equal.
  replace (24 + length (str_bytes (de_filename x)) + 1)%nat with (length (dirent_bytes x) + 5)%nat by lia.
  apply take_app_add.
Qed.

Lemma getdents_loop_spec es i pc buf written fin : (written ≤ length buf)%nat →
  ∃ buf' k bs, (k ≤ length es)%nat ∧
    getdents_loop (enum_from i es) pc buf written fin =
      (buf', written + length bs, if decide (k = 0) then fin else i + k)%nat ∧
    length buf' = length buf ∧ take (written + length bs) buf' = take written buf ++ bs ∧
    records bs (take k es) ∧
    (es ≠ [] → (pc < 50)%nat → Forall (λ x, written + dirent_len x ≤ length buf)%nat es → (0 < k)%nat).
Proof.
  revert i pc buf written fin. induction es as [|x es IH]; intros i pc buf written fin Hw.
  { exists buf, 0%nat, []. cbn. rewrite app_nil_r, Nat.add_0_r. split_and!; try done; constructor. }
  assert (∃ buf' k bs, (k ≤ length (x :: es))%nat ∧
    (buf, written, fin) = (buf', written + length bs, if decide (k = 0) then fin else i + k)%nat ∧
    length buf' = length buf ∧ take (written + length bs) buf' = take written buf ++ bs ∧
    records bs (take k (x :: es)) ∧ k = 0%nat) as Hstop.
  { exists buf, 0%nat, []. cbn. rewrite app_nil_r, Nat.add_0_r. split_and!; try done; try constructor. lia. }
  cbn [enum_from getdents_loop]. case_decide as Hpc; [|case_decide as Hfit].
  - destruct Hstop as (b & k & bs & ? & ? & ? & ? & ? & ?). exists b, k, bs. split_and!; try done. lia.
  - destruct Hstop as (b & k & bs & ? & ? & ? & ? & ? & ?). exists b, k, bs. split_and!; try done.
    intros _ _ Hall. apply Forall_cons in Hall as [? _]. lia.
  - destruct (take_write_record written buf x) as (pad & Hp & Et); [lia|].
    assert (length (buf_write_at written buf (dirent_bytes x)) = length buf) as Hlen.
    { apply length_buf_write_at. rewrite length_dirent_bytes. unfold dirent_len, size_of_Dirent64 in *. lia. }
    destruct (IH (S i) (S pc) (buf_write_at written buf (dirent_bytes x)) (written + dirent_len x)%nat (i + 1)%nat)
      as (buf' & k & bs & Hk & E & Hl & Ht & Hr & _); [lia|].
    assert (length (dirent_bytes x ++ pad ++ bs) = (dirent_len x + length bs)%nat) as Hlb.
    { rewrite !length_app, length_dirent_bytes, Hp. unfold dirent_len, size_of_Dirent64. lia. }
    exists buf', (S k), (dirent_bytes x ++ pad ++ bs). rewrite Hlb. split_and!.
    + cbn. lia.
    + rewrite E, (decide_False (P := S k = 0%nat)), Nat.add_assoc by lia. f_equal. case_decide; lia.
    + lia.
    + rewrite Nat.add_assoc, Ht, Et. by rewrite <- !app_assoc.
    + cbn [take]. by constructor.
    + lia.
Qed.

Lemma records_length_nat bs es : records bs es → (length es ≤ length bs)%nat.
Proof.
  induction 1; [done|]. rewrite !length_app, length_dirent_bytes. cbn. lia.
Qed.

Section listing.
Context {N W : Type} (ops : N → INode N W).

(** A program listing a directory: [getdents] into one buffer after the other until a
    call returns 0; [None] when the buffers run out first. *)
Fixpoint list_dir (f : File) (bufs : list (list Z)) (w : W) : outcome (option (list (list Z)) * File) :=
  match bufs with
  | [] => Ret (None, f)
  | b :: bufs =>
      '(r, b', f') ← getdents ops f b w;
      match r with
      | Ok n =>
          if decide (n = 0) then Ret (Some [], f')
          else '(o, f'') ← list_dir f' bufs w;
               Ret (option_map (app (parse_dirents (Z.to_nat n) (take (Z.to_nat n) b'))) o, f'')
      | Err _ => Ret (None, f')
      end
  end.

Lemma getdents_spec f w entries buf : i_read_dir (ops (f_inner f)) w = Ret (Ok entries) → 0 ≤ f_offset f →
  let rest := drop (Z.to_nat (f_offset f)) entries in
  Forall (λ x, dirent_len x ≤ length buf)%nat entries →
  ∃ buf' k bs, (k ≤ length rest)%nat ∧
    getdents ops f buf w =
      Ret (Ok (Z.of_nat (length bs)), buf', set_offset f (if decide (k = 0%nat) then 0 else f_offset f + Z.of_nat k)) ∧
    take (length bs) buf' = bs ∧ records bs (take k rest) ∧ (rest ≠ [] → (0 < k)%nat).
Proof.
  intros He Ho rest Hfit. unfold getdents. rewrite He. step_ret.
  rewrite (imap_enum _ _ 0) by done. rewrite drop_enum, Nat.add_0_r. fold rest.
  destruct (getdents_loop_spec rest (Z.to_nat (f_offset f)) 0 buf 0 0) as (buf' & k & bs & Hk & E & _ & Ht & Hr & Hpos); [lia|].
  exists buf', k, bs. rewrite E. cbn [plus] in *. split_and!; try done.
  - repeat f_equal. case_decide; lia.
  - intros Hne. apply Hpos; [done|lia|]. apply Forall_drop. exact Hfit.
Qed.

Lemma list_dir_spec w entries f bufs : i_read_dir (ops (f_inner f)) w = Ret (Ok entries) →
  Forall name_ok entries → Forall (λ b, Forall (λ x, dirent_len x ≤ length b)%nat entries) bufs →
  0 ≤ f_offset f → let rest := drop (Z.to_nat (f_offset f)) entries in
  (length rest < length bufs)%nat →
  list_dir f bufs w = Ret (Some ((λ x, str_bytes (de_filename x)) <$> rest), set_offset f 0).
Proof.
  intros He Hn. revert f He. induction bufs as [|b bufs IH]; intros f He Hb Ho rest Hl; [cbn in Hl; lia|].
  apply Forall_cons in Hb as [Hb Hbs]. cbn [list_dir].
  destruct (getdents_spec f w entries b He Ho Hb) as (buf' & k & bs & Hk & E & Ht & Hr & Hpos). fold rest in Hk, Hr, Hpos.
  rewrite E. step_ret. destruct (decide (rest = [])) as [Hnil|Hne].
  - rewrite Hnil in *. assert (k = 0%nat) as -> by (cbn in Hk; lia). inversion Hr; subst. done.
  - specialize (Hpos Hne). pose proof (records_length_nat _ _ Hr) as Hbl. rewrite length_take in Hbl.
    rewrite decide_False, decide_False by lia. set (f' := set_offset f (f_offset f + Z.of_nat k)).
    assert (drop (Z.to_nat (f_offset f')) entries = drop k rest) as Ed.
    { unfold rest. rewrite drop_drop. f_equal. cbn. lia. }
    rewrite IH; [|done|done|cbn; lia|]; rewrite Ed; [|rewrite length_drop; cbn in Hl; lia].
    step_ret. rewrite Nat2Z.id, Ht.
    rewrite (parse_records bs (take k rest)); [|done| |rewrite length_take; lia].
    + cbn [option_map]. by rewrite <- fmap_app, take_drop.
    + apply Forall_take, Forall_drop. exact Hn.
Qed.
End listing.

(** C28: listing a directory with [getdents] is complete and exact: with buffers that
    each have room for any single entry, and one call more than there are entries, the
    calls terminate with a 0 result, the records read back are the names of all entries
    in order, each once, and the offset is back at the start of the directory. *)
Theorem directory_listing_complete {N W} (ops : N → INode N W) (f : File) (w : W) (entries : list DirEntry)
    (bufs : list (list Z)) :
  i_read_dir (ops (f_inner f)) w = Ret (Ok entries) → f_offset f = 0 → Forall name_ok entries →
  Forall (λ b, Forall (λ x, dirent_len x ≤ length b)%nat entries) bufs → (length entries < length bufs)%nat →
  list_dir ops f bufs w = Ret (Some ((λ x, str_bytes (de_filename x)) <$> entries), set_offset f 0).
Proof. intros He Ho Hn Hb Hl. rewrite (list_dir_spec ops w entries) by (rewrite ?Ho; done). by rewrite Ho. Qed.

(** ** Opening *)

Lemma last_removelast (p : PathBuf) : (0 < length p)%nat → p = PathBuf_dir p ++ [PathBuf_filename p].
Proof.
  intros Hl. unfold PathBuf_dir, pop, PathBuf_filename.
  destruct (exists_last (l := p)) as (q & x & ->); [by intros ->; cbn in Hl; lia|].
  by rewrite List.removelast_last, last_snoc.
Qed.

(** Opening an existing file is a walk: without [O_CREAT], [open] changes nothing
    and resolves the path, below the file system it is mounted on, by one [lookup] per
    component; it fails exactly when one of the lookups fails, with that error.  With
    [O_CREAT] the parent directory is asked to create the name on every open, and its
    error is the result. *)
Theorem file_open_walks {N W} (ops : N → INode N W) (mounted : MountTable N) (p rel : PathBuf) (root : N) (flags : Z) (w : W) :
  get_mounted mounted p = Ret (root, rel) →
  (contains flags O_CREAT = false →
     File_open ops mounted p flags w =
       (r ← walk ops rel root w;
        Ret (match r with Ok n => Ok (mkFile n p 0 flags) | Err e => Err e end, w))) ∧
  (contains flags O_CREAT = true → ∀ dir, rel ≠ [] → walk ops (PathBuf_dir rel) root w = Ret (Ok dir) →
     ∀ c w', i_create (ops dir) (PathBuf_filename rel)
               (if contains flags O_DIRECTORY then FT_Directory else FT_File) w = Ret (c, w') →
     File_open ops mounted p flags w =
       match c with
       | Err e => Ret (Err e, w')
       | Ok _ => r ← i_lookup (ops dir) (PathBuf_filename rel) w';
                 Ret (match r with Ok n => Ok (mkFile n p 0 flags) | Err e => Err e end, w')
       end).
Proof.
  intros Hm. unfold File_open. rewrite Hm. step_ret. split.
  - intros ->. case_decide as Hl; unfold PathBuf_levels in Hl.
    + assert (walk ops rel root w = walk ops (PathBuf_dir rel ++ [PathBuf_filename rel]) root w) as ->
        by (by rewrite <- last_removelast).
      rewrite walk_app.
      destruct (walk ops (PathBuf_dir rel) root w) as [[dir|e]|]; try done.
      cbn [walk]. step_ret.
      by destruct (i_lookup (ops dir) (PathBuf_filename rel) w) as [[n|e]|].
    + destruct rel; [done|cbn in Hl; lia].
  - intros -> dir Hne Hw c w' Hc. rewrite decide_True by (destruct rel; [done|cbn; lia]). rewrite Hw.
    step_ret. rewrite Hc. step_ret.
    destruct c as [[]|e]; [|done]. by destruct (i_lookup (ops dir) (PathBuf_filename rel) w') as [[n|e]|].
Qed.

(** ** Seeking and write permission *)

(** [seek] moves the offset to the requested position, counted from the start, the
    current offset or the end of the file, clamps a negative position to 0, and touches
    nothing else (for positions that fit an [isize]). *)
Theorem file_seek_positions {N W} (ops : N → INode N W) (f : File) (w : W) (stat : Stat) (s : SeekFrom) :
  i_stat (ops (f_inner f)) Stat_default w = Ret (Ok tt, stat) →
  let target := match s with SET o => o | CURRENT o => f_offset f + o | END_ o => st_size stat + o end in
  0 ≤ f_offset f < 9223372036854775808 → 0 ≤ st_size stat < 9223372036854775808 →
  - 9223372036854775808 ≤ target < 9223372036854775808 → (∀ o, s = SET o → 0 ≤ o) →
  File_seek ops f s w = Ret (Ok (Z.max 0 target), set_offset f (Z.max 0 target)).
Proof.
  intros Hs target Ho Hz Ht Hset. unfold File_seek. rewrite Hs. step_ret.
  assert (∀ z, - 9223372036854775808 ≤ z < 9223372036854775808 → as_isize z = z) as Hi.
  { intros z Hz'. unfold as_isize, wrap, USIZE. destruct (decide (0 ≤ z)).
    - rewrite Z.mod_small by lia. by rewrite decide_True by lia.
    - rewrite <- (Z_mod_plus_full z 1), Z.mod_small by lia. rewrite decide_False by lia. lia. }
  destruct s as [o|o|o]; subst target; cbn in *; rewrite ?(Hi (f_offset f)), ?(Hi (st_size stat)), Hi by lia;
    case_decide; rewrite ?Z.max_l, ?Z.max_r by lia; done.
Qed.

(** [writeat] and [write] refuse a file opened read-only with [EPERM] and no effect,
    but [async_write], the path of the write system call, does not look at the access
    mode: it writes through a read-only descriptor exactly as through a writable one. *)
Theorem async_write_ignores_access_mode {N W} (ops : N → INode N W) (f : File) (buf : list Z) (off retry : Z) (w : W) :
  contains (f_flags f) O_RDWR = false → contains (f_flags f) O_WRONLY = false →
  File_write ops f buf w = Ret (Err EPERM, f, w) ∧ File_writeat ops f off buf w = Ret (Err EPERM, w) ∧
  ∀ flags, let g := mkFile (f_inner f) (f_path_buf f) (f_offset f) flags in
    async_write_poll ops f off buf retry w =
      ('(p, r, g', w') ← async_write_poll ops g off buf retry w;
       Ret (p, r, set_offset f (f_offset g'), w')).
Proof.
  intros H1 H2. unfold File_write, File_writeat, check_writeable. rewrite H1, H2. split_and!; [done..|].
  intros flags. unfold async_write_poll. cbn [f_inner]. case_decide; [by destruct f|].
  destruct (WaitBlockingWrite_poll (ops (f_inner f)) off buf retry w) as [[[[[n|e]|] r] w']|]; try done;
    destruct f; done.
Qed.

(** ** Witnesses: a directory of two entries whose nodes are one constant file *)

Definition demo_entries : list DirEntry := [mkDirEntry "a.txt" 3 FT_File; mkDirEntry "bin" 0 FT_Directory].

Definition demo_ops (n : nat) : INode nat (list Z) :=
  let d : INode nat (list Z) := INode_default in {|
  i_readat off buf w :=
    let data := take (length buf) (drop (Z.to_nat off) w) in
    Ret (Ok (Z.of_nat (length data)), buf_write buf data, w);
  i_writeat := i_writeat d; i_create := i_create d; i_mkdir := i_mkdir d; i_rmdir := i_rmdir d;
  i_remove := i_remove d;
  i_read_dir _ := Ret (Ok demo_entries);
  i_lookup name _ := if decide (name = "a.txt") then Ret (Ok (S n)) else Ret (Err ENOENT);
  i_ioctl := i_ioctl d; i_truncate := i_truncate d; i_flush := i_flush d; i_resolve_link := i_resolve_link d;
  i_link := i_link d; i_symlink := i_symlink d; i_unlink := i_unlink d;
  i_stat st w := Ret (Ok tt, mkStat 0 0 S_FILE 1 0 0 0 (Z.of_nat (length w)) 0 0 TimeSpec_default TimeSpec_default TimeSpec_default);
  i_mount := i_mount d; i_umount := i_umount d; i_statfs := i_statfs d; i_utimes := i_utimes d; i_poll := i_poll d;
|}.

Definition demo_file : @File nat := mkFile 0%nat [] 0 O_RDONLY.

Lemma file_read_sequential_witness :
  read_seq demo_ops demo_file [[0; 0]; [0]; [0; 0; 0]] [10; 20; 30; 40] =
    Ret ([10; 20; 30; 40], set_offset demo_file 4, [10; 20; 30; 40]).
Proof. apply (file_read_sequential demo_ops demo_file [10; 20; 30; 40]); [intros off buf Ho; reflexivity|done|done]. Defined.

Lemma directory_listing_complete_witness :
  list_dir demo_ops demo_file [repeat 7 40; repeat 7 40; repeat 7 40] [] =
    Ret (Some [str_bytes "a.txt"; str_bytes "bin"], set_offset demo_file 0).
Proof.
  apply (directory_listing_complete demo_ops demo_file [] demo_entries [repeat 7 40; repeat 7 40; repeat 7 40]).
  - reflexivity.
  - reflexivity.
  - repeat constructor; vm_compute; try discriminate; reflexivity.
  - repeat constructor; vm_compute; repeat constructor.
  - vm_compute. repeat constructor.
Defined.

Lemma file_open_walks_witness :
  File_open demo_ops [([], 5%nat)] ["a.txt"] O_RDONLY [] = Ret (Ok (mkFile 6%nat ["a.txt"] 0 O_RDONLY), []).
Proof.
  destruct (file_open_walks demo_ops [([], 5%nat)] ["a.txt"] ["a.txt"] 5%nat O_RDONLY [] eq_refl) as [H _].
  rewrite H by reflexivity. reflexivity.
Defined.

Lemma file_seek_positions_witness :
  File_seek demo_ops demo_file (END_ (-1)) [10; 20; 30] = Ret (Ok 2, set_offset demo_file 2).
Proof.
  apply (file_seek_positions demo_ops demo_file [10; 20; 30]
    (mkStat 0 0 S_FILE 1 0 0 0 3 0 0 TimeSpec_default TimeSpec_default TimeSpec_default) (END_ (-1)));
    [reflexivity|cbn; lia|cbn; lia|cbn; lia|intros o H; discriminate H].
Defined.

Lemma async_write_ignores_access_mode_witness :
  File_write demo_ops demo_file [1] [] = Ret (Err EPERM, demo_file, []).
Proof. apply (async_write_ignores_access_mode demo_ops demo_file [1] 0 0 []); reflexivity. Defined.
