(* ===== verification/Ext4Rs.v ===== *)
(** * The ext4 file system of ext4_rs

    Models the inodes of filesystem/fs/src/ext4_rs_shim.rs over the library ext4_rs (the disk
    below the library is in Disk); a build may choose it for the root file system in place of
    Ext4.  Inodes are numbers; what the library does is the record [Ext4Lib].  The file system
    can be read and takes new directories; the theorems show what its other methods, which
    stop the kernel or do nothing, mean for open files. *)

From S2P Require Import Prelude Path Vfs Pipe File.

(** ** The library *)

(** [InodeFileType] *)
Inductive InodeFileType := S_IFREG | S_IFDIR | S_IFBLK | S_IFSOCK | S_IFLNK | S_IFCHR | S_IFIFO | S_IFother.

(** Methods on a file system with state [L]; errors are numbers.  [er_inode] gives the kind
    and the size of an inode. *)
Record Ext4Lib (L : Type) := mkExt4Lib {
  er_generic_open : L → string → Z → Z + Z;
  er_create : L → Z → string → InodeFileType → option Z * L;
  er_read_at : L → Z → Z → nat → list Z + Z;
  er_inode : L → Z → InodeFileType * Z;
}.
Arguments mkExt4Lib {L}.
Arguments er_generic_open {L} _.
Arguments er_create {L} _.
Arguments er_read_at {L} _.
Arguments er_inode {L} _.

Section shim.
Context {L : Type} (lib : Ext4Lib L) (Errno_new : Z → Errno).

Definition map_ext4_err (err : Z) : Errno := Errno_new err.

(** ** Inodes *)

Definition load_root : Z := 2.

(** The listing that [lookup] reads first is not used. *)
Definition Rs_lookup (inode : Z) (name : string) (l : L) : outcome (result Z) :=
  Ret (match er_generic_open lib l name inode with inl i => Ok i | inr e => Err (Errno_new e) end).

Definition Rs_mkdir (inode : Z) (path : string) (l : L) : outcome (result unit * L) :=
  let '(e, l) := er_create lib l inode path S_IFDIR in Ret (match e with None => Ok tt | Some e => Err (map_ext4_err e) end, l).

Definition Rs_readat (inode offset : Z) (buffer : list Z) (l : L) : outcome (result Z * list Z * L) :=
  Ret (match er_read_at lib l inode offset (length buffer) with
       | inl data => (Ok (Z.of_nat (length data)), buf_write buffer data, l)
       | inr e => (Err (map_ext4_err e), buffer, l)
       end).

Definition Rs_create (name : string) (ty : FileType) (l : L) : outcome (result unit * L) := Panic.
Definition Rs_writeat (offset : Z) (buffer : list Z) (l : L) : outcome (result Z * L) := Panic.
Definition Rs_rmdir (name : string) (l : L) : outcome (result unit * L) := Panic.
Definition Rs_remove (name : string) (l : L) : outcome (result unit * L) := Panic.
Definition Rs_read_dir (l : L) : outcome (result (list DirEntry)) := Panic.
Definition Rs_truncate (size : Z) (l : L) : outcome (result unit * L) := Ret (Ok tt, l).
Definition Rs_unlink (name : string) (l : L) : outcome (result unit * L) := Ret (Ok tt, l).

Definition Rs_mode (t : InodeFileType) : outcome Z :=
  match t with
  | S_IFREG => Ret S_FILE
  | S_IFDIR => Ret S_DIR
  | S_IFBLK => Ret S_BLOCK
  | S_IFSOCK => Ret S_SOCKET
  | S_IFLNK => Ret S_LINK
  | S_IFCHR => Ret S_CHAR
  | S_IFIFO => Ret S_FIFO
  | S_IFother => Panic
  end.

Definition Rs_stat (inode : Z) (st : Stat) (l : L) : outcome (result unit * Stat) :=
  let '(t, size) := er_inode lib l inode in
  mode ← Rs_mode t;
  Ret (Ok tt, mkStat (st_dev st) 1 mode 1 0 0 0 size 4096 0 TimeSpec_default TimeSpec_default TimeSpec_default).

Definition Rs_statfs (st : StatFS) : StatFS := mkStatFS 32 4096 80 40 0 32 0 32 20.

Definition Rs_inode (inode : Z) : INode Z L :=
  let d : INode Z L := INode_default in {|
  i_readat := Rs_readat inode; i_writeat := Rs_writeat; i_create := Rs_create; i_mkdir := Rs_mkdir inode; i_rmdir := Rs_rmdir;
  i_remove := Rs_remove; i_read_dir := Rs_read_dir; i_lookup := Rs_lookup inode; i_ioctl := i_ioctl d; i_truncate := Rs_truncate;
  i_flush := i_flush d; i_resolve_link _ := Ret (Err EPERM); i_link _ _ l := Ret (Err EPERM, l); i_symlink _ _ l := Ret (Err EPERM, l);
  i_unlink := Rs_unlink; i_stat := Rs_stat inode; i_mount := i_mount d; i_umount := i_umount d;
  i_statfs st _ := Ret (Ok tt, Rs_statfs st); i_utimes _ l := Ret (Ok tt, l); i_poll := i_poll d |}.

(** ** Open files *)

(** Opening an existing file works and changes nothing, and its reads are those of the
    library; opening with [O_CREAT], a write of at least a byte, a directory listing and the
    removal of a name stop the kernel. *)
Theorem rs_reads mounted path inode (flags : Z) l rel : get_mounted mounted path = Ret (inode, rel) → contains flags O_CREAT = false →
  match File_open Rs_inode mounted path flags l with
  | Ret (Ok f, l') => l' = l ∧ ∀ buf data, er_read_at lib l (f_inner f) 0 (length buf) = inl data →
      File_read Rs_inode f buf l = Ret (Ok (Z.of_nat (length data)), buf_write buf data, set_offset f (0 +u Z.of_nat (length data)), l)
  | Ret (Err _, l') => l' = l
  | Panic => False
  end.
Proof.
  intros Hm Hc. assert (∀ names n, ∃ r, walk Rs_inode names n l = Ret r) as Hw.
  { induction names as [|name names IH]; intros n; [by eexists|]. cbn [walk Rs_inode i_lookup]. unfold Rs_lookup. step_ret. destruct (er_generic_open lib l name n); [apply IH|by eexists]. }
  assert (∀ n, ∀ buf data, er_read_at lib l n 0 (length buf) = inl data → File_read Rs_inode (mkFile n path 0 flags) buf l =
    Ret (Ok (Z.of_nat (length data)), buf_write buf data, set_offset (mkFile n path 0 flags) (0 +u Z.of_nat (length data)), l)) as Hr.
  { intros n buf data E. unfold File_read. cbn [f_inner f_offset Rs_inode i_readat]. unfold Rs_readat. rewrite E. step_ret. done. }
  unfold File_open. rewrite Hm. step_ret. case_decide; [|split; [done|apply Hr]]. destruct (Hw (PathBuf_dir rel) inode) as [r ->]. step_ret. destruct r as [dir|e]; [|done].
  rewrite Hc. step_ret. cbn [Rs_inode i_lookup]. unfold Rs_lookup. step_ret. destruct (er_generic_open lib l (PathBuf_filename rel) dir); [split; [done|apply Hr]|done].
Qed.

Theorem rs_writes_panic (f : File (N := Z)) buf l : check_writeable f = Ok tt → buf ≠ [] → File_write Rs_inode f buf l = Panic.
Proof. intros Hf Hb. unfold File_write. by rewrite Hf, decide_False. Qed.

Theorem rs_create_panics mounted path inode flags l name : get_mounted mounted path = Ret (inode, [name]) → contains flags O_CREAT = true →
  File_open Rs_inode mounted path flags l = Panic.
Proof. intros Hm Hc. unfold File_open. rewrite Hm. step_ret. cbn [PathBuf_levels PathBuf_dir length Nat.sub take walk]. rewrite decide_True by (cbn; lia). step_ret. by rewrite Hc. Qed.

Theorem rs_listing_panics (f : File (N := Z)) buf l : getdents Rs_inode f buf l = Panic.
Proof. done. Qed.
End shim.
