(* ===== verification/DevFs.v ===== *)
(** * Device files

    Models filesystem/devfs: the terminal with its input buffer, settings and [ioctl]s, the
    data sources and sinks, the disk node [Sdx], and the directory that holds them.  Every
    device is an [INode] over a [DevWorld], which holds the terminals, the console (the
    characters still to come and those written), the memory of the calling process, which
    [ioctl] accesses, and the mounts of the disk nodes.

    The theorems show that terminals deliver the console's characters in order and lose
    none, whatever reads, polls, writes and [ioctl]s happen, that settings are read back as
    they were stored, and that the directory lists exactly the names it can look up. *)

From Stdlib Require Import Sorting.Sorted OrderedTypeEx.
From S2P Require Import Prelude Vfs Pipe File.

(** ** Terminal data *)

Record Termios := mkTermios {
  iflag : Z; oflag : Z; cflag : Z; lflag : Z; line : Z; cc : list Z; ispeed : Z; ospeed : Z;
}.

(** The flags are 0o66402, 0o5, 0o2277 and 0o105073. *)
Definition Termios_default : Termios :=
  mkTermios 27906 5 1215 35387 0
    [3; 28; 127; 21; 4; 0; 1; 0; 17; 19; 26; 255; 18; 15; 23; 22; 255; 0; 0; 0; 0] 0 0.

Record WinSize := mkWinSize { ws_row : Z; ws_col : Z; xpixel : Z; ypixel : Z }.

Definition WinSize_default : WinSize := mkWinSize 24 140 0 0.

Record Tty := mkTty { buffer : list Z; termios : Termios; pgid : Z; winsize : WinSize }.

Definition Tty_new : Tty := mkTty [] Termios_default 0 WinSize_default.

Definition set_buffer (b : list Z) (t : Tty) : Tty := mkTty b (termios t) (pgid t) (winsize t).
Definition set_termios (x : Termios) (t : Tty) : Tty := mkTty (buffer t) x (pgid t) (winsize t).
Definition set_pgid (x : Z) (t : Tty) : Tty := mkTty (buffer t) (termios t) x (winsize t).
Definition set_winsize (x : WinSize) (t : Tty) : Tty := mkTty (buffer t) (termios t) (pgid t) x.

(** *** Layout in memory ([repr(C)]) *)

(** The fields of a [Termios] lie at bytes 0 to 37 and 40 to 47; two bytes of padding are not
    part of the value. *)
Definition Termios_store (m : UserMem) (a : Z) (t : Termios) : UserMem :=
  user_write
    (user_write m a (le_bytes 4 (iflag t) ++ le_bytes 4 (oflag t) ++ le_bytes 4 (cflag t) ++ le_bytes 4 (lflag t) ++ [line t] ++ cc t))
    (a + 40) (le_bytes 4 (ispeed t) ++ le_bytes 4 (ospeed t)).

Definition load (m : UserMem) (a : Z) (n : nat) : Z := le_value (user_read m a n).

Definition Termios_load (m : UserMem) (a : Z) : Termios :=
  mkTermios (load m a 4) (load m (a + 4) 4) (load m (a + 8) 4) (load m (a + 12) 4) (m (a + 16)) (user_read m (a + 17) 21)
    (load m (a + 40) 4) (load m (a + 44) 4).

Definition WinSize_store (m : UserMem) (a : Z) (x : WinSize) : UserMem :=
  user_write m a (le_bytes 2 (ws_row x) ++ le_bytes 2 (ws_col x) ++ le_bytes 2 (xpixel x) ++ le_bytes 2 (ypixel x)).

Definition WinSize_load (m : UserMem) (a : Z) : WinSize :=
  mkWinSize (load m a 2) (load m (a + 2) 2) (load m (a + 4) 2) (load m (a + 6) 2).

Inductive TeletypeCommand :=
  | TCGETS | TCSETS | TCSETSW | TCSETSF | TCGETA | TCSETA | TCSETAW | TCSETAF
  | TIOCGPGRP | TIOCSPGRP | TIOCGWINSZ | TIOCSWINSZ | TIOCSCTTY | TIOCNOTTY | TIOCGSID
  | FIONCLEX | FIOCLEX | FIONBIO | RTC_RD_TIME.

#[export] Instance TeletypeCommand_eq_dec : EqDecision TeletypeCommand.
Proof. solve_decision. Defined.

Definition TeletypeCommand_table : list (Z * TeletypeCommand) :=
  [(0x5401, TCGETS); (0x5402, TCSETS); (0x5403, TCSETSW); (0x5404, TCSETSF); (0x5405, TCGETA); (0x5406, TCSETA);
   (0x5407, TCSETAW); (0x5408, TCSETAF); (0x540F, TIOCGPGRP); (0x5410, TIOCSPGRP); (0x5413, TIOCGWINSZ);
   (0x5414, TIOCSWINSZ); (0x540E, TIOCSCTTY); (0x5422, TIOCNOTTY); (0x5429, TIOCGSID); (0x5450, FIONCLEX);
   (0x5451, FIOCLEX); (0x5421, FIONBIO); (0x80247009, RTC_RD_TIME)].

Definition TeletypeCommand_from (n : Z) : option TeletypeCommand :=
  snd <$> List.find (λ x, bool_decide (x.1 = n)) TeletypeCommand_table.

(** ** The world of the devices *)

(** [dw_input] are the answers the console will give, [None] when no character is there. *)
Record DevWorld := mkDevWorld {
  dw_ttys : gmap nat Tty;
  dw_input : list (option Z);
  dw_output : list Z;
  dw_mem : UserMem;
  dw_mounts : gmap nat (list string);
}.

Definition put_tty (id : nat) (t : Tty) (w : DevWorld) : DevWorld :=
  mkDevWorld (<[id := t]> (dw_ttys w)) (dw_input w) (dw_output w) (dw_mem w) (dw_mounts w).
Definition put_mem (m : UserMem) (w : DevWorld) : DevWorld :=
  mkDevWorld (dw_ttys w) (dw_input w) (dw_output w) m (dw_mounts w).
Definition put_mounts (id : nat) (l : list string) (w : DevWorld) : DevWorld :=
  mkDevWorld (dw_ttys w) (dw_input w) (dw_output w) (dw_mem w) (<[id := l]> (dw_mounts w)).

(** [get_char] and [puts] of the console. *)
Definition get_char (w : DevWorld) : option Z * DevWorld :=
  (default None (head (dw_input w)), mkDevWorld (dw_ttys w) (tail (dw_input w)) (dw_output w) (dw_mem w) (dw_mounts w)).
Definition puts (data : list Z) (w : DevWorld) : DevWorld :=
  mkDevWorld (dw_ttys w) (dw_input w) (dw_output w ++ data) (dw_mem w) (dw_mounts w).

(** ** The terminal *)

Definition Tty_readat (id : nat) (buf : list Z) (w : DevWorld) : outcome (result Z * list Z * DevWorld) :=
  if decide (0 < length buf)%nat then
    t ← unwrap (dw_ttys w !! id);
    if decide (0 < length (buffer t))%nat then
      let rlen := Nat.min (length buf) (length (buffer t)) in
      Ret (Ok (Z.of_nat rlen), buf_write buf (take rlen (buffer t)), put_tty id (set_buffer (drop rlen (buffer t)) t) w)
    else
      match get_char w with
      | (Some c, w) => Ret (Ok 1, buf_write buf [c], w)
      | (None, w) => Ret (Err EWOULDBLOCK, buf, w)
      end
  else Panic.

Definition Tty_writeat (buf : list Z) (w : DevWorld) : outcome (result Z * DevWorld) :=
  Ret (Ok (Z.of_nat (length buf)), puts buf w).

(** [res |= POLLIN] *)
Definition Tty_poll (id : nat) (events : Z) (w : DevWorld) : outcome (result Z * DevWorld) :=
  '(res, w) ←
    (if contains events POLLIN then
       t ← unwrap (dw_ttys w !! id);
       if decide (0 < length (buffer t))%nat then Ret (Z.lor POLL_NONE POLLIN, w) else
       match get_char w with
       | (Some c, w) => Ret (Z.lor POLL_NONE POLLIN, put_tty id (set_buffer (buffer t ++ [c]) t) w)
       | (None, w) => Ret (POLL_NONE, w)
       end
     else Ret (POLL_NONE, w));
  Ret (Ok (if contains events POLLOUT then Z.lor res POLLOUT else res), w).

(** A null pointer: [as_mut()] is [None].  [write_volatile] does not ask. *)
Definition Tty_ioctl (id : nat) (command arg : Z) (w : DevWorld) : outcome (result Z * DevWorld) :=
  t ← unwrap (dw_ttys w !! id);
  match TeletypeCommand_from command with
  | None => Ret (Err EINVAL, w)
  | Some cmd =>
      match cmd with
      | TCGETS | TCGETA => Ret (Ok 0, put_mem (Termios_store (dw_mem w) arg (termios t)) w)
      | TCSETS | TCSETSW | TCSETSF =>
          if decide (arg = 0) then Panic else Ret (Ok 0, put_tty id (set_termios (Termios_load (dw_mem w) arg) t) w)
      | TIOCGPGRP =>
          if decide (arg = 0) then Ret (Err EINVAL, w) else Ret (Ok 0, put_mem (user_write (dw_mem w) arg (le_bytes 4 (pgid t))) w)
      | TIOCSPGRP =>
          if decide (arg = 0) then Ret (Err EINVAL, w) else Ret (Ok 0, put_tty id (set_pgid (load (dw_mem w) arg 4) t) w)
      | TIOCGWINSZ => if decide (arg = 0) then Panic else Ret (Ok 0, put_mem (WinSize_store (dw_mem w) arg (winsize t)) w)
      | TIOCSWINSZ =>
          if decide (arg = 0) then Panic else Ret (Ok 0, put_tty id (set_winsize (WinSize_load (dw_mem w) arg) t) w)
      | TIOCSCTTY | TIOCNOTTY => Ret (Ok 0, w)
      | TIOCGSID =>
          if decide (arg = 0) then Ret (Err EINVAL, w) else Ret (Ok 0, put_mem (user_write (dw_mem w) arg (le_bytes 4 1)) w)
      | FIONCLEX | FIOCLEX => Ret (Ok 0, w)
      | _ => Ret (Err EPERM, w)
      end
  end.

(** ** The nodes of a device directory *)

Inductive DevNode :=
  | D_dir | D_tty (id : nat) | D_null | D_zero | D_shm | D_rtc | D_urandom | D_cpu_dma_latency
  | D_sdx (id : nat) (device_id : Z).

#[export] Instance DevNode_eq_dec : EqDecision DevNode.
Proof. solve_decision. Defined.

(** All the [stat] methods set every field but the times, with [nlink] 1 and [blksize] 512. *)
Definition dev_stat (dev mode uid gid rdev size blocks : Z) (st : Stat) : Stat :=
  mkStat dev 1 mode 1 uid gid rdev size 512 blocks (st_atime st) (st_mtime st) (st_ctime st).

(** [CHAR] with the read and write bits of owner, group and others. *)
Definition CHAR_666 : Z := Z.lor S_CHAR 438.

(** An inode with some of the trait's methods and the defaults for the others. *)
Definition mk_dev {N W} (readat : Z → list Z → W → outcome (result Z * list Z * W)) (writeat : Z → list Z → W → outcome (result Z * W))
    (ioctl : Z → Z → W → outcome (result Z * W)) (poll : Z → W → outcome (result Z * W)) (stat : Stat → Stat) : INode N W :=
  let d : INode N W := INode_default in {|
  i_readat := readat; i_writeat := writeat; i_create := i_create d; i_mkdir := i_mkdir d; i_rmdir := i_rmdir d;
  i_remove := i_remove d; i_read_dir := i_read_dir d; i_lookup := i_lookup d; i_ioctl := ioctl; i_truncate := i_truncate d;
  i_flush := i_flush d; i_resolve_link := i_resolve_link d; i_link := i_link d; i_symlink := i_symlink d; i_unlink := i_unlink d;
  i_stat st _ := Ret (Ok tt, stat st); i_mount := i_mount d; i_umount := i_umount d; i_statfs := i_statfs d; i_utimes := i_utimes d;
  i_poll := poll |}.

(** *** Directories of fixed names: a [BTreeMap], kept in the order of its keys *)

Section static_dir.
Context {A : Type}.

Fixpoint dir_insert (k : string) (x : A) (d : list (string * A)) : list (string * A) :=
  match d with
  | [] => [(k, x)]
  | (k', x') :: d' =>
      match String.compare k k' with
      | Eq => (k, x) :: d'
      | Lt => (k, x) :: d
      | Gt => (k', x') :: dir_insert k x d'
      end
  end.

Definition dir_get (name : string) (d : list (string * A)) : option A :=
  snd <$> List.find (λ e, bool_decide (e.1 = name)) d.

Definition dir_lookup (d : list (string * A)) (name : string) : result A := ok_or (dir_get name d) ENOENT.

Definition dir_read_dir (d : list (string * A)) : list DirEntry := (λ e, mkDirEntry e.1 0 FT_Device) <$> d.
End static_dir.

(** The inode of such a directory. *)
Definition dir_inode {N W} (d : list (string * N)) : INode N W :=
  let i : INode N W := INode_default in {|
  i_readat := i_readat i; i_writeat := i_writeat i; i_create := i_create i; i_mkdir := i_mkdir i; i_rmdir := i_rmdir i;
  i_remove := i_remove i; i_read_dir _ := Ret (Ok (dir_read_dir d)); i_lookup name _ := Ret (dir_lookup d name); i_ioctl := i_ioctl i;
  i_truncate := i_truncate i; i_flush := i_flush i; i_resolve_link := i_resolve_link i; i_link := i_link i; i_symlink := i_symlink i;
  i_unlink := i_unlink i; i_stat st _ := Ret (Ok tt, dev_stat 0 S_DIR 0 0 0 0 0 st); i_mount := i_mount i; i_umount := i_umount i;
  i_statfs := i_statfs i; i_utimes := i_utimes i; i_poll := i_poll i |}.

(** *** [DevDir::new]: six terminals of their own, and the other devices *)

Definition DevDir_names : list (string * DevNode) :=
  [("stdout", D_tty 0); ("stderr", D_tty 1); ("stdin", D_tty 2); ("ttyv0", D_tty 3); ("tty", D_tty 4); ("console", D_tty 5);
   ("null", D_null); ("zero", D_zero); ("shm", D_shm); ("rtc", D_rtc); ("urandom", D_urandom); ("random", D_urandom);
   ("cpu_dma_latency", D_cpu_dma_latency)].

Definition DevDir_add (path : string) (node : DevNode) (d : list (string * DevNode)) : list (string * DevNode) := dir_insert path node d.

Definition DevDir_new : list (string * DevNode) := foldl (λ d e, dir_insert e.1 e.2 d) [] DevDir_names.

(** *** The sources and sinks *)

Section devices.
Context {N : Type}.

Abbreviation dev_default := (INode_default : INode N DevWorld).

Definition write_all (_ : Z) (buf : list Z) (w : DevWorld) : outcome (result Z * DevWorld) := Ret (Ok (Z.of_nat (length buf)), w).
Definition read_zeros (_ : Z) (buf : list Z) (w : DevWorld) : outcome (result Z * list Z * DevWorld) :=
  Ret (Ok (Z.of_nat (length buf)), replicate (length buf) 0, w).

Definition Null_inode : INode N DevWorld :=
  mk_dev (λ _ buf w, Ret (Ok 0, buf, w)) write_all (i_ioctl dev_default) (i_poll dev_default) (dev_stat 0x0103 CHAR_666 0 0 0x0103 0 0).

Definition Zero_inode : INode N DevWorld :=
  mk_dev read_zeros write_all (i_ioctl dev_default) (i_poll dev_default) (dev_stat 0 S_CHAR 1000 1000 0 0 0).

Definition Urandom_inode : INode N DevWorld :=
  mk_dev read_zeros write_all (i_ioctl dev_default)
    (λ events w, Ret (Ok (if contains events POLLIN then Z.lor POLL_NONE POLLIN else POLL_NONE), w))
    (dev_stat 0 S_CHAR 1000 1000 0 0 0).

Definition CpuDmaLatency_inode : INode N DevWorld :=
  mk_dev (λ _ buf w,
      let buf := replicate (length buf) 0 in
      Ret (Ok (Z.of_nat (length buf)), if decide (1 < length buf)%nat then <[0%nat := 1]> buf else buf, w))
    write_all (i_ioctl dev_default) (i_poll dev_default) (dev_stat 0 S_CHAR 1000 1000 0 0 0).

Definition Shm_inode : INode N DevWorld :=
  mk_dev (i_readat dev_default) (i_writeat dev_default) (i_ioctl dev_default) (i_poll dev_default) (dev_stat 0 S_DIR 1000 1000 0 0 0).

(** Every command stores the time zero: six words of the nine of an [RtcTime]. *)
Definition Rtc_ioctl (arg : Z) (w : DevWorld) : outcome (result Z * DevWorld) :=
  if decide (arg = 0) then Panic else Ret (Ok 0, put_mem (user_write (dw_mem w) arg (replicate 24 0)) w).

Definition Rtc_inode : INode N DevWorld :=
  mk_dev (i_readat dev_default) (i_writeat dev_default) (λ _, Rtc_ioctl) (i_poll dev_default) (dev_stat 0 S_CHAR 1000 1000 0 0 0).

Definition Tty_inode (id : nat) : INode N DevWorld :=
  mk_dev (λ _, Tty_readat id) (λ _, Tty_writeat) (Tty_ioctl id) (Tty_poll id) (dev_stat 0x0500 CHAR_666 0 0 0x0500 0 0).
End devices.

(** *** [Sdx]: a disk; the functions that mount it are given to it when it is made *)

Section sdx.
Context (mount_fn umount_fn : Z → string → result unit).

Definition Sdx_mount (id : nat) (device_id : Z) (path : string) (w : DevWorld) : outcome (result unit * DevWorld) :=
  l ← unwrap (dw_mounts w !! id); Ret (mount_fn device_id path, put_mounts id (l ++ [path]) w).

(** With no mount left the code is [todo!()]. *)
Definition Sdx_umount (id : nat) (device_id : Z) (w : DevWorld) : outcome (result unit * DevWorld) :=
  l ← unwrap (dw_mounts w !! id);
  match last l with
  | Some path => Ret (umount_fn device_id path, put_mounts id (removelast l) w)
  | None => Panic
  end.

Definition Sdx_inode {N} (id : nat) (device_id : Z) : INode N DevWorld :=
  let d : INode N DevWorld := INode_default in {|
  i_readat := i_readat d; i_writeat := i_writeat d; i_create := i_create d; i_mkdir := i_mkdir d; i_rmdir := i_rmdir d;
  i_remove := i_remove d; i_read_dir := i_read_dir d; i_lookup := i_lookup d; i_ioctl := i_ioctl d; i_truncate := i_truncate d;
  i_flush := i_flush d; i_resolve_link := i_resolve_link d; i_link := i_link d; i_symlink := i_symlink d; i_unlink := i_unlink d;
  i_stat st _ := Ret (Ok tt, dev_stat 0 S_CHAR 1000 1000 0 0 0 st); i_mount := Sdx_mount id device_id; i_umount := Sdx_umount id device_id;
  i_statfs := i_statfs d; i_utimes := i_utimes d; i_poll := i_poll d |}.

(** The nodes of a device file system with the directory [dir]. *)
Definition dev_ops (dir : list (string * DevNode)) (n : DevNode) : INode DevNode DevWorld :=
  match n with
  | D_dir => dir_inode dir
  | D_tty id => Tty_inode id
  | D_null => Null_inode
  | D_zero => Zero_inode
  | D_shm => Shm_inode
  | D_rtc => Rtc_inode
  | D_urandom => Urandom_inode
  | D_cpu_dma_latency => CpuDmaLatency_inode
  | D_sdx id device_id => Sdx_inode id device_id
  end.
End sdx.

(** ** Terminals deliver the console's characters in order *)

Inductive TtyOp :=
  | Op_read (id : nat) (buf : list Z)
  | Op_write (id : nat) (data : list Z)
  | Op_poll (id : nat) (events : Z)
  | Op_ioctl (id : nat) (command arg : Z).

Definition op_tty (o : TtyOp) : nat := match o with Op_read id _ | Op_write id _ | Op_poll id _ | Op_ioctl id _ _ => id end.

(** The calls that the kernel survives: a read has room for a byte, an [ioctl] a pointer. *)
Definition op_ok (o : TtyOp) : Prop :=
  match o with Op_read _ buf => buf ≠ [] | Op_ioctl _ _ arg => arg ≠ 0 | _ => True end.

(** One call, through the inode: what it delivers, tagged with the terminal. *)
Definition run_op (o : TtyOp) (w : DevWorld) : outcome (list (nat * Z) * DevWorld) :=
  let i id : INode DevNode DevWorld := Tty_inode id in
  match o with
  | Op_read id buf =>
      '(r, buf, w) ← i_readat (i id) 0 buf w;
      Ret (match r with Ok n => (λ c, (id, c)) <$> take (Z.to_nat n) buf | Err _ => [] end, w)
  | Op_write id data => '(_, w) ← i_writeat (i id) 0 data w; Ret ([], w)
  | Op_poll id events => '(_, w) ← i_poll (i id) events w; Ret ([], w)
  | Op_ioctl id command arg => '(_, w) ← i_ioctl (i id) command arg w; Ret ([], w)
  end.

Fixpoint run_ops (os : list TtyOp) (w : DevWorld) : outcome (list (nat * Z) * DevWorld) :=
  match os with
  | [] => Ret ([], w)
  | o :: os => '(d, w) ← run_op o w; '(ds, w) ← run_ops os w; Ret (d ++ ds, w)
  end.

Definition written (os : list TtyOp) : list Z := os ≫= λ o, match o with Op_write _ data => data | _ => [] end.

(** The characters of terminal [id]. *)
Definition chars_of (id : nat) (l : list (nat * Z)) : list Z := (filter (λ e, e.1 = id) l).*2.

Lemma chars_of_app id l1 l2 : chars_of id (l1 ++ l2) = chars_of id l1 ++ chars_of id l2.
Proof. unfold chars_of. by rewrite filter_app, fmap_app. Qed.

Lemma chars_of_tagged id id' l : chars_of id' ((λ c, (id, c)) <$> l) = if decide (id = id') then l else [].
Proof.
  unfold chars_of. rewrite list_filter_fmap. cbn [fst]. case_decide as E.
  - rewrite list_filter_all by done. rewrite <- list_fmap_compose. apply list_fmap_id.
  - by rewrite (proj2 (list_filter_none _ _)) by (by apply Forall_true).
Qed.

(** [log] records which terminal took each character the console gave between [w] and [w'];
    [out] is what the terminals delivered. *)
Record routed (w : DevWorld) (log out : list (nat * Z)) (w' : DevWorld) : Prop := {
  ro_input : omap id (dw_input w) = log.*2 ++ omap id (dw_input w');
  ro_ttys id : match dw_ttys w !! id, dw_ttys w' !! id with
    | Some t, Some t' => buffer t ++ chars_of id log = chars_of id out ++ buffer t'
    | None, None => True
    | _, _ => False
    end;
}.

Lemma routed_trans w1 log1 out1 w2 log2 out2 w3 : routed w1 log1 out1 w2 → routed w2 log2 out2 w3 →
  routed w1 (log1 ++ log2) (out1 ++ out2) w3.
Proof.
  intros [I1 T1] [I2 T2]. split.
  - by rewrite I1, I2, fmap_app, app_assoc.
  - intros id. specialize (T1 id). specialize (T2 id). rewrite !chars_of_app.
    destruct (dw_ttys w1 !! id), (dw_ttys w2 !! id), (dw_ttys w3 !! id); try done.
    by rewrite app_assoc, T1, <- !app_assoc, T2.
Qed.

(** A step that leaves the console's input and the terminals' buffers alone. *)
Lemma routed_quiet w w' : dw_input w' = dw_input w → buffer <$> dw_ttys w' = buffer <$> dw_ttys w → routed w [] [] w'.
Proof.
  intros Ei Et. split; [by rewrite Ei|]. intros id. apply (f_equal (λ m : gmap nat (list Z), m !! id)) in Et. rewrite !lookup_fmap in Et.
  destruct (dw_ttys w !! id), (dw_ttys w' !! id); try done. injection Et as ->. by rewrite app_nil_r.
Qed.

Lemma routed_refl w : routed w [] [] w.
Proof. by apply routed_quiet. Qed.

Lemma quiet_put_tty id t t' w : dw_ttys w !! id = Some t → buffer t' = buffer t → routed w [] [] (put_tty id t' w).
Proof. intros Ht Hb. apply routed_quiet; [done|]. cbn. rewrite fmap_insert, Hb, <- fmap_insert. by rewrite insert_id. Qed.

(** A terminal takes bytes: [more] from the console, [d] delivered. *)
Lemma routed_take w w' id t t' (more d : list Z) :
  dw_ttys w !! id = Some t → dw_ttys w' = <[id := t']> (dw_ttys w) → omap (λ x, x) (dw_input w) = more ++ omap (λ x, x) (dw_input w') →
  buffer t ++ more = d ++ buffer t' → routed w ((λ c, (id, c)) <$> more) ((λ c, (id, c)) <$> d) w'.
Proof.
  intros Ht Et Ei Hb. split.
  - rewrite <- list_fmap_compose, list_fmap_id. exact Ei.
  - intros j. rewrite !chars_of_tagged, Et. destruct (decide (id = j)) as [<-|Hne].
    + by rewrite lookup_insert_eq, Ht.
    + rewrite lookup_insert_ne by done. destruct (dw_ttys w !! j); [|done]. by rewrite app_nil_r.
Qed.

(** What a console read does to the input. *)
Lemma get_char_input w c w' : get_char w = (c, w') →
  omap (λ x, x) (dw_input w) = option_list c ++ omap (λ x, x) (dw_input w') ∧ dw_ttys w' = dw_ttys w ∧ dw_output w' = dw_output w.
Proof. intros [= <- <-]. cbn. destruct (dw_input w) as [|[x|] l]; done. Qed.

Lemma read_routed id buf w t : dw_ttys w !! id = Some t → buf ≠ [] →
  ∃ out w' log, run_op (Op_read id buf) w = Ret (out, w') ∧ routed w log out w' ∧ dw_output w' = dw_output w.
Proof.
  intros Ht Hb. cbn [run_op mk_dev Tty_inode i_readat]. unfold Tty_readat.
  rewrite decide_True by (destruct buf; [done|cbn; lia]). rewrite Ht. cbn [unwrap]. step_ret. case_decide as Hl.
  - set (rlen := Nat.min (length buf) (length (buffer t))). step_ret. eexists _, _, []. split; [done|]. split; [|done].
    assert (take (Z.to_nat (Z.of_nat rlen)) (buf_write buf (take rlen (buffer t))) = take rlen (buffer t)) as ->.
    { apply take_buf_write_n. rewrite length_take. lia. }
    eapply (routed_take w _ id t (set_buffer (drop rlen (buffer t)) t) []); [done..|]. cbn [set_buffer buffer]. by rewrite app_nil_r, take_drop.
  - assert (buffer t = []) as Hnil by (destruct (buffer t); [done|cbn in Hl; lia]).
    destruct (get_char w) as [[c|] w'] eqn:Eg; apply get_char_input in Eg as (Ei & Et & Eo); step_ret.
    + eexists _, _, _. split; [done|]. split; [|done]. rewrite take_buf_write_n by done.
      eapply (routed_take w w' id t t [c] [c]); [done|by rewrite insert_id|done|]. by rewrite Hnil.
    + eexists _, _, []. split; [done|]. split; [|done]. eapply (routed_take w w' id t t [] []); [done|by rewrite insert_id|done|].
      by rewrite app_nil_r.
Qed.

Lemma poll_routed id events w t : dw_ttys w !! id = Some t →
  ∃ w' log, run_op (Op_poll id events) w = Ret ([], w') ∧ routed w log [] w' ∧ dw_output w' = dw_output w.
Proof.
  intros Ht. cbn [run_op mk_dev Tty_inode i_poll]. unfold Tty_poll. destruct (contains events POLLIN); [|].
  - rewrite Ht. cbn [unwrap]. step_ret. case_decide as Hl.
    + step_ret. eexists _, []. split; [done|]. split; [apply routed_refl|done].
    + destruct (get_char w) as [[c|] w'] eqn:Eg; apply get_char_input in Eg as (Ei & Et & Eo); step_ret; eexists _, _; (split; [done|]); (split; [|done]).
      * eapply (routed_take w _ id t _ [c] []); [done|cbn; by rewrite Et|done|done].
      * eapply (routed_take w w' id t t [] []); [done|by rewrite insert_id|done|]. by rewrite app_nil_r.
  - step_ret. eexists _, []. split; [done|]. split; [apply routed_refl|done].
Qed.

Lemma ioctl_routed id command arg w t : dw_ttys w !! id = Some t → arg ≠ 0 →
  ∃ w', run_op (Op_ioctl id command arg) w = Ret ([], w') ∧ routed w [] [] w' ∧ dw_output w' = dw_output w.
Proof.
  intros Ht Ha. cbn [run_op mk_dev Tty_inode i_ioctl]. unfold Tty_ioctl. rewrite Ht. cbn [unwrap]. step_ret.
  destruct (TeletypeCommand_from command) as [[]|]; rewrite ?(decide_False (P := arg = 0)) by done; step_ret;
    (eexists; split; [done|]; split; [|done]); first [by eapply quiet_put_tty|by apply routed_quiet].
Qed.

Lemma op_routed o w : op_ok o → is_Some (dw_ttys w !! op_tty o) →
  ∃ out w' log, run_op o w = Ret (out, w') ∧ routed w log out w' ∧ dw_output w' = dw_output w ++ written [o].
Proof.
  intros Ho [t Ht]. destruct o as [id buf|id data|id events|id command arg]; cbn [op_tty op_ok] in *; cbn [written mbind list_bind app];
    rewrite ?app_nil_r.
  - by eapply read_routed.
  - cbn. eexists _, _, []. split; [done|]. split; [by apply routed_quiet|done].
  - destruct (poll_routed id events w t Ht) as (w' & log & H). by exists [], w', log.
  - destruct (ioctl_routed id command arg w t Ht Ho) as (w' & H). by exists [], w', [].
Qed.

(** C34: Whatever calls are made on the terminals, in any order, no character of the console is lost,
    duplicated or reordered: each one the console gives goes to one terminal, and what a terminal
    delivers and still holds is what it held and then took, in order.  The console shows what was
    written, in order, and the kernel survives if reads have room and [ioctl]s a pointer. *)
Theorem tty_input_routed (os : list TtyOp) (w : DevWorld) :
  Forall op_ok os → Forall (λ o, is_Some (dw_ttys w !! op_tty o)) os →
  ∃ out w' log, run_ops os w = Ret (out, w') ∧
    omap id (dw_input w) = log.*2 ++ omap id (dw_input w') ∧
    (∀ id t t', dw_ttys w !! id = Some t → dw_ttys w' !! id = Some t' → buffer t ++ chars_of id log = chars_of id out ++ buffer t') ∧
    dw_output w' = dw_output w ++ written os.
Proof.
  intros Ho Ht. assert (∃ out w' log, run_ops os w = Ret (out, w') ∧ routed w log out w' ∧ dw_output w' = dw_output w ++ written os) as H.
  { revert w Ht. induction Ho as [|o os Hok Hos IH]; intros w Ht.
    - exists [], w, []. split; [done|]. split; [apply routed_refl|]. by rewrite app_nil_r.
    - apply Forall_cons in Ht as [Ht Hts]. destruct (op_routed o w Hok Ht) as (out & w1 & log & E & R & O).
      destruct (IH w1) as (out' & w' & log' & E' & R' & O').
      { eapply Forall_impl; [exact Hts|]. intros o' [t Hl]. pose proof (ro_ttys _ _ _ _ R (op_tty o')) as Hm. cbn beta in Hl. rewrite Hl in Hm.
        by destruct (dw_ttys w1 !! op_tty o'). }
      exists (out ++ out'), w', (log ++ log'). cbn [run_ops]. rewrite E. step_ret. rewrite E'. split; [done|].
      split; [by eapply routed_trans|]. rewrite O', O, <- app_assoc. cbn [written mbind list_bind app]. by rewrite app_nil_r. }
  destruct H as (out & w' & log & E & [I T] & O). exists out, w', log. split; [done|]. split; [done|]. split; [|done].
  intros id t t' H1 H2. specialize (T id). by rewrite H1, H2 in T.
Qed.

(** ** Readiness *)

(** A terminal that [poll] reports readable gives the next read at least one byte, and one that
    it does not report (when asked) has no byte at that moment. *)
Theorem tty_poll_read (id : nat) (events : Z) (w w1 : DevWorld) (res : Z) (buf : list Z) (t : Tty) :
  dw_ttys w !! id = Some t → buf ≠ [] → contains events POLLIN = true →
  Tty_poll id events w = Ret (Ok res, w1) →
  if contains res POLLIN then ∃ n buf' w2, Tty_readat id buf w1 = Ret (Ok n, buf', w2) ∧ 0 < n
  else buffer t = [] ∧ dw_input w = None :: dw_input w1 ∨ buffer t = [] ∧ dw_input w = [].
Proof.
  intros Ht Hb Hin. unfold Tty_poll. rewrite Hin, Ht. cbn [unwrap]. step_ret.
  assert (∀ r, contains (if contains events POLLOUT then Z.lor r POLLOUT else r) POLLIN = contains r POLLIN) as Hout.
  { intros r. destruct (contains events POLLOUT); [|done]. unfold contains. f_equal. rewrite Z.land_lor_distr_l. by rewrite Z.lor_0_r. }
  assert (∀ w t, dw_ttys w !! id = Some t → (0 < length (buffer t))%nat → ∃ n buf' w2, Tty_readat id buf w = Ret (Ok n, buf', w2) ∧ 0 < n) as Hread.
  { intros w' t' Ht' Hl. unfold Tty_readat. rewrite decide_True by (destruct buf; [done|cbn; lia]). rewrite Ht'. cbn [unwrap]. step_ret.
    rewrite decide_True by done. eexists _, _, _. split; [done|]. destruct buf; [done|]. cbn [length]. lia. }
  case_decide as Hl.
  - step_ret. intros [= <- <-]. rewrite Hout. change (contains (Z.lor POLL_NONE POLLIN) POLLIN) with true. by eapply Hread.
  - assert (buffer t = []) as Hnil by (destruct (buffer t); [done|cbn in Hl; lia]). unfold get_char.
    destruct (dw_input w) as [|[c|] l] eqn:Ei; cbn [head from_option tail]; step_ret; intros [= <- <-]; rewrite Hout.
    + by right.
    + eapply Hread; [apply lookup_insert_eq|]. cbn [set_buffer buffer]. rewrite length_app. cbn. lia.
    + by left.
Qed.

(** ** Settings *)

(** Values a [Termios] of the machine can have. *)
Definition Termios_ok (t : Termios) : Prop :=
  0 ≤ iflag t < 2 ^ 32 ∧ 0 ≤ oflag t < 2 ^ 32 ∧ 0 ≤ cflag t < 2 ^ 32 ∧ 0 ≤ lflag t < 2 ^ 32 ∧
  length (cc t) = 21%nat ∧ 0 ≤ ispeed t < 2 ^ 32 ∧ 0 ≤ ospeed t < 2 ^ 32.

Definition WinSize_ok (x : WinSize) : Prop :=
  0 ≤ ws_row x < 2 ^ 16 ∧ 0 ≤ ws_col x < 2 ^ 16 ∧ 0 ≤ xpixel x < 2 ^ 16 ∧ 0 ≤ ypixel x < 2 ^ 16.

(** Reading a part of what was written. *)
Lemma user_read_part m a k n data b : b = a + Z.of_nat k → (k + n ≤ length data)%nat →
  user_read (user_write m a data) b n = take n (drop k data).
Proof.
  intros -> Hk. apply list_eq_same_length with n; [rewrite ?length_user_read, ?length_take, ?length_drop; lia..|]. intros i x y Hi Hx Hy.
  rewrite lookup_take_lt, lookup_drop in Hy by done.
  unfold user_read in Hx. rewrite list_lookup_fmap, lookup_seq_lt in Hx by done. injection Hx as <-.
  unfold user_write. rewrite decide_True by lia. apply list_lookup_total_correct. rewrite <- Hy. f_equal. lia.
Qed.

Lemma load_part m a k n data b z : b = a + Z.of_nat k → (k + n ≤ length data)%nat → take n (drop k data) = le_bytes n z →
  0 ≤ z < 256 ^ Z.of_nat n → load (user_write m a data) b n = z.
Proof. intros Hb Hk E Hz. unfold load. rewrite (user_read_part m a k) by done. rewrite E. by apply le_value_bytes. Qed.

Lemma load_other m a b n data : b + Z.of_nat n ≤ a ∨ a + Z.of_nat (length data) ≤ b → load (user_write m a data) b n = load m b n.
Proof. intros H. unfold load. by rewrite user_read_write_ne. Qed.

(** A field of a structure that was stored as the concatenation of its fields. *)
Ltac read_field k := apply (load_part _ _ k); [lia|rewrite ?length_app, ?length_le_bytes; cbn [length]; lia|reflexivity|done].

Lemma Termios_load_store m a t : Termios_ok t → Termios_load (Termios_store m a t) a = t.
Proof.
  intros (H1 & H2 & H3 & H4 & Hc & H5 & H6). unfold Termios_load, Termios_store.
  rewrite !(load_other _ (a + 40) a), !(load_other _ (a + 40) (a + 4)), !(load_other _ (a + 40) (a + 8)), !(load_other _ (a + 40) (a + 12)) by lia.
  rewrite (user_read_write_ne _ (a + 40)) by lia. destruct t as [fi fo fc fl ln cs si so]. cbn [iflag oflag cflag lflag line cc ispeed ospeed] in *. f_equal.
  - read_field 0%nat.
  - read_field 4%nat.
  - read_field 8%nat.
  - read_field 12%nat.
  - unfold user_write. rewrite (decide_False (P := a + 40 ≤ _ < _)) by lia. rewrite decide_True by (rewrite !length_app, !length_le_bytes; cbn [length]; lia).
    replace (Z.to_nat (a + 16 - a)) with 16%nat by lia. reflexivity.
  - rewrite (user_read_part m a 17) by (rewrite ?length_app, ?length_le_bytes; cbn [length]; lia). cbn [le_bytes app drop]. rewrite <- Hc. apply firstn_all.
  - read_field 0%nat.
  - read_field 4%nat.
Qed.

Lemma WinSize_load_store m a x : WinSize_ok x → WinSize_load (WinSize_store m a x) a = x.
Proof.
  intros (H1 & H2 & H3 & H4). unfold WinSize_load, WinSize_store. destruct x as [r c x y]. cbn [ws_row ws_col xpixel ypixel] in *. f_equal.
  - read_field 0%nat.
  - read_field 2%nat.
  - read_field 4%nat.
  - read_field 6%nat.
Qed.

Definition mem_bytes (m : UserMem) : Prop := ∀ x, 0 ≤ m x < 256.

Lemma load_bound m a n : mem_bytes m → 0 ≤ load m a n < 256 ^ Z.of_nat n.
Proof.
  intros Hm. unfold load. rewrite <- (length_user_read m a n) at 3.
  assert (Forall (λ b, 0 ≤ b < 256) (user_read m a n)) as Hf. { apply Forall_fmap, Forall_true. intros i. apply Hm. }
  induction Hf as [|b l Hb Hl IH]; [done|]. cbn [le_value length]. rewrite Nat2Z.inj_succ, Z.pow_succ_r by lia. lia.
Qed.

Lemma Termios_load_ok m a : mem_bytes m → Termios_ok (Termios_load m a).
Proof.
  intros Hm. unfold Termios_ok, Termios_load. cbn [iflag oflag cflag lflag cc ispeed ospeed].
  split_and!; try apply (load_bound m _ 4 Hm). apply length_user_read.
Qed.

Lemma WinSize_load_ok m a : mem_bytes m → WinSize_ok (WinSize_load m a).
Proof. intros Hm. unfold WinSize_ok, WinSize_load. cbn [ws_row ws_col xpixel ypixel]. split_and!; apply (load_bound m _ 2 Hm). Qed.

(** Calling [ioctl] twice. *)
Definition ioctl2 (id : nat) (c1 a1 c2 a2 : Z) (w : DevWorld) : outcome (result Z * DevWorld) :=
  '(_, w) ← Tty_ioctl id c1 a1 w; Tty_ioctl id c2 a2 w.

(** What one call stores, another reads back: the terminal settings with any of the three
    setting commands, the window size, the process group; buffered characters stay. *)
Theorem tty_settings_roundtrip (id : nat) (w : DevWorld) (t : Tty) (a1 a2 : Z) :
  dw_ttys w !! id = Some t → mem_bytes (dw_mem w) → a1 ≠ 0 → a2 ≠ 0 →
  (∀ c, c = 0x5402 ∨ c = 0x5403 ∨ c = 0x5404 →
    ∃ w', ioctl2 id c a1 0x5401 a2 w = Ret (Ok 0, w') ∧ Termios_load (dw_mem w') a2 = Termios_load (dw_mem w) a1 ∧
      buffer <$> dw_ttys w' = buffer <$> dw_ttys w) ∧
  (∃ w', ioctl2 id 0x5414 a1 0x5413 a2 w = Ret (Ok 0, w') ∧ WinSize_load (dw_mem w') a2 = WinSize_load (dw_mem w) a1 ∧
      buffer <$> dw_ttys w' = buffer <$> dw_ttys w) ∧
  (∃ w', ioctl2 id 0x5410 a1 0x540F a2 w = Ret (Ok 0, w') ∧ load (dw_mem w') a2 4 = load (dw_mem w) a1 4 ∧
      buffer <$> dw_ttys w' = buffer <$> dw_ttys w).
Proof.
  intros Ht Hm H1 H2. unfold ioctl2, Tty_ioctl. rewrite Ht. cbn [unwrap].
  assert (∀ f : Tty → Tty, (∀ t, buffer (f t) = buffer t) → buffer <$> <[id := f t]> (dw_ttys w) = buffer <$> dw_ttys w) as Hb.
  { intros f Hf. rewrite fmap_insert, Hf, <- fmap_insert. by rewrite insert_id. }
  assert (∀ f, dw_ttys (put_tty id (f t) w) !! id = Some (f t)) as Hput by (intros f; apply lookup_insert_eq).
  split; [|split].
  - intros c Hc. assert (TeletypeCommand_from c = Some TCSETS ∨ TeletypeCommand_from c = Some TCSETSW ∨ TeletypeCommand_from c = Some TCSETSF) as Hc'
      by (destruct Hc as [->|[->| ->]]; auto).
    exists (put_mem (Termios_store (dw_mem w) a2 (Termios_load (dw_mem w) a1)) (put_tty id (set_termios (Termios_load (dw_mem w) a1) t) w)).
    split; [|split; [by apply Termios_load_store, Termios_load_ok|by apply (Hb (set_termios _))]].
    step_ret. destruct Hc' as [->|[->| ->]]; rewrite decide_False by done; step_ret; by rewrite (Hput (set_termios _)).
  - exists (put_mem (WinSize_store (dw_mem w) a2 (WinSize_load (dw_mem w) a1)) (put_tty id (set_winsize (WinSize_load (dw_mem w) a1) t) w)).
    split; [|split; [by apply WinSize_load_store, WinSize_load_ok|by apply (Hb (set_winsize _))]].
    step_ret. change (TeletypeCommand_from 0x5414) with (Some TIOCSWINSZ). cbn iota. rewrite decide_False by done. step_ret.
    rewrite (Hput (set_winsize _)). cbn [unwrap]. step_ret. change (TeletypeCommand_from 0x5413) with (Some TIOCGWINSZ). cbn iota. by rewrite decide_False.
  - exists (put_mem (user_write (dw_mem w) a2 (le_bytes 4 (load (dw_mem w) a1 4))) (put_tty id (set_pgid (load (dw_mem w) a1 4) t) w)).
    split; [|split; [|by apply (Hb (set_pgid _))]].
    + step_ret. change (TeletypeCommand_from 0x5410) with (Some TIOCSPGRP). cbn iota. rewrite decide_False by done. step_ret.
      rewrite (Hput (set_pgid _)). cbn [unwrap]. step_ret. change (TeletypeCommand_from 0x540F) with (Some TIOCGPGRP). cbn iota. by rewrite decide_False.
    + apply (load_part _ _ 0); [lia|by rewrite length_le_bytes|done|by apply load_bound].
Qed.

(** Storing a [Termios] writes up to byte 47: a caller whose structure has the 36 bytes of
    the usual kernel interface loses the bytes after it. *)
Theorem tcgets_overwrites (id : nat) (w : DevWorld) (t : Tty) (a : Z) :
  dw_ttys w !! id = Some t → ospeed (termios t) = 0 →
  ∃ w', Tty_ioctl id 0x5401 a w = Ret (Ok 0, w') ∧ dw_mem w' (a + 47) = 0 ∧ (∀ x, x < a ∨ a + 48 ≤ x → length (cc (termios t)) = 21%nat → dw_mem w' x = dw_mem w x).
Proof.
  intros Ht Ho. unfold Tty_ioctl. rewrite Ht. cbn [unwrap]. step_ret. eexists. split; [done|]. cbn [put_mem dw_mem]. unfold Termios_store. rewrite Ho. split.
  - unfold user_write at 1. rewrite decide_True by (rewrite length_app, !length_le_bytes; lia). replace (Z.to_nat _) with 7%nat by lia. reflexivity.
  - intros x Hx Hc. unfold user_write. rewrite !decide_False; [done|..]; rewrite ?length_app, ?length_le_bytes; cbn [length]; lia.
Qed.

(** ** Directories *)

Section dir_theory.
Context {A : Type}.

Definition dir_sorted (d : list (string * A)) : Prop := StronglySorted (λ x y, String.compare x y = Lt) d.*1.

Lemma string_compare_trans_lt s1 s2 s3 : String.compare s1 s2 = Lt → String.compare s2 s3 = Lt → String.compare s1 s3 = Lt.
Proof. intros H1 H2. apply String_as_OT.cmp_lt in H1. apply String_as_OT.cmp_lt in H2. apply String_as_OT.cmp_lt. by eapply String_as_OT.lt_trans. Qed.

Lemma dir_insert_names k x (d : list (string * A)) : ∀ n, n ∈ (dir_insert k x d).*1 ↔ n = k ∨ n ∈ d.*1.
Proof.
  intros n. induction d as [|[k' x'] d IH]; cbn [dir_insert]; [cbn; by rewrite !elem_of_cons|].
  destruct (String.compare k k') eqn:E.
  - apply String.compare_eq_iff in E as <-. cbn. rewrite !elem_of_cons. naive_solver.
  - cbn. by rewrite !elem_of_cons.
  - cbn. rewrite !elem_of_cons. change (list_fmap _ _ fst ?l) with (l.*1). rewrite IH. naive_solver.
Qed.

Lemma dir_insert_sorted k x (d : list (string * A)) : dir_sorted d → dir_sorted (dir_insert k x d).
Proof.
  unfold dir_sorted. induction d as [|[k' x'] d IH]; cbn [dir_insert]; [repeat constructor|]. cbn [fmap list_fmap fst]. change (list_fmap _ _ fst ?l) with (l.*1).
  intros [Hs Hf]%StronglySorted_inv. destruct (String.compare k k') eqn:E; cbn [fmap list_fmap fst]; change (list_fmap _ _ fst ?l) with (l.*1).
  - apply String.compare_eq_iff in E as ->. by constructor.
  - constructor; [by constructor|]. constructor; [done|]. eapply Forall_impl; [exact Hf|]. intros s. by apply string_compare_trans_lt.
  - constructor; [by apply IH|]. apply Forall_forall. intros s [->|Hin]%dir_insert_names; [|by eapply Forall_forall in Hf].
    rewrite String.compare_antisym, E. done.
Qed.

Lemma dir_get_elem n (d : list (string * A)) : is_Some (dir_get n d) ↔ n ∈ d.*1.
Proof.
  unfold dir_get. rewrite fmap_is_Some. induction d as [|[k x] d IH]; cbn; [split; [by intros []|by intros ?%elem_of_nil]|].
  rewrite elem_of_cons. case_bool_decide as E; [split; [by left|by eexists]|]. change (list_fmap _ _ fst ?l) with (l.*1). rewrite IH. naive_solver.
Qed.

Lemma dir_get_insert n k x (d : list (string * A)) : dir_get n (dir_insert k x d) = if decide (n = k) then Some x else dir_get n d.
Proof.
  unfold dir_get. induction d as [|[k' x'] d IH]; cbn [dir_insert].
  - cbn. case_decide; case_bool_decide; by subst.
  - destruct (String.compare k k') eqn:E; cbn [List.find fst].
    + apply String.compare_eq_iff in E as <-. case_decide; case_bool_decide; by subst.
    + case_decide; case_bool_decide; by subst.
    + case_bool_decide as Hk'; [|by rewrite IH]. subst k'. rewrite decide_False; [done|]. intros ->.
      assert (String.compare k k = Eq) by (by apply String_as_OT.cmp_eq). congruence.
Qed.
End dir_theory.

(** A directory made by insertions lists exactly the names it finds, each once, in the order of
    their bytes, and finds for a name what was inserted last under it. *)
Theorem static_dir_correct {N W} (es : list (string * N)) (w : W) :
  let d := foldl (λ d e, dir_insert e.1 e.2 d) [] es in
  let i : INode N W := dir_inode d in
  ∃ l, i_read_dir i w = Ret (Ok l) ∧
    StronglySorted (λ x y, String.compare x y = Lt) (de_filename <$> l) ∧
    (∀ name, name ∈ de_filename <$> l ↔ ∃ n, i_lookup i name w = Ret (Ok n)) ∧
    (∀ name, i_lookup i name w = Ret (ok_or (snd <$> last (filter (λ e, e.1 = name) es)) ENOENT)).
Proof.
  intros d i. exists (dir_read_dir d). split; [done|].
  assert (de_filename <$> dir_read_dir d = d.*1) as -> by (unfold dir_read_dir; by rewrite <- list_fmap_compose).
  assert (dir_sorted d ∧ ∀ name, dir_get name d = snd <$> last (filter (λ e, e.1 = name) es)) as [Hs Hg].
  { unfold d. clear. induction es as [|e es [IHs IHg]] using rev_ind; [split; [constructor|done]|].
    rewrite foldl_app. cbn [foldl]. split; [by apply dir_insert_sorted|]. intros name. rewrite dir_get_insert, filter_app, filter_cons, filter_nil.
    case_decide as E; [rewrite decide_True by done; by rewrite last_snoc|rewrite decide_False by congruence; by rewrite app_nil_r, IHg]. }
  split; [exact Hs|]. split.
  - intros name. rewrite <- dir_get_elem. cbn [i dir_inode i_lookup]. unfold dir_lookup. destruct (dir_get name d); cbn [ok_or].
    + split; [by eexists|by eexists].
    + split; [by intros []|intros [? [=]]].
  - intros name. cbn [i dir_inode i_lookup]. unfold dir_lookup. by rewrite Hg.
Qed.

(** The devices of a new device file system, in the order [read_dir] gives. *)
Lemma dev_names : DevDir_new.*1 =
  ["console"; "cpu_dma_latency"; "null"; "random"; "rtc"; "shm"; "stderr"; "stdin"; "stdout"; "tty"; "ttyv0"; "urandom"; "zero"].
Proof. reflexivity. Qed.

(** ** Sources, sinks and disks *)

(** The random devices give the bytes of the zero device. *)
Theorem urandom_is_zero {N} (off : Z) (buf : list Z) (w : DevWorld) :
  i_readat (Urandom_inode (N := N)) off buf w = i_readat (Zero_inode (N := N)) off buf w ∧
  i_readat (Urandom_inode (N := N)) off buf w = Ret (Ok (Z.of_nat (length buf)), replicate (length buf) 0, w).
Proof. done. Qed.

(** A disk's mounts are undone last in first out; one more unmount panics the kernel. *)
Theorem sdx_mounts_stack mount_fn umount_fn (id : nat) (dev : Z) (paths : list string) (w : DevWorld) :
  dw_mounts w !! id = Some [] →
  ∃ w1, foldM (λ w p, '(_, w) ← Sdx_mount mount_fn id dev p w; Ret w) paths w = Ret w1 ∧
    dw_mounts w1 !! id = Some paths ∧
    (paths = [] → Sdx_umount umount_fn id dev w1 = Panic) ∧
    (∀ p ps, paths = ps ++ [p] → ∃ w2, Sdx_umount umount_fn id dev w1 = Ret (umount_fn dev p, w2) ∧ dw_mounts w2 !! id = Some ps).
Proof.
  intros Hw. induction paths as [|p ps (w1 & E & Hm & _)] using rev_ind.
  - exists w. split; [done|]. split; [done|]. split; [intros _; unfold Sdx_umount; by rewrite Hw|]. by intros p [|].
  - exists (put_mounts id (ps ++ [p]) w1). rewrite foldM_app, E. step_ret. cbn [foldM]. unfold Sdx_mount. rewrite Hm. cbn [unwrap]. step_ret.
    split; [done|]. split; [apply lookup_insert_eq|]. split; [by destruct ps|]. intros p' ps' [-> [= ->]]%app_inj_2; [|done].
    unfold Sdx_umount. cbn [put_mounts dw_mounts]. rewrite lookup_insert_eq. cbn [unwrap]. step_ret. rewrite last_snoc. eexists. split; [done|].
    cbn [put_mounts dw_mounts]. by rewrite lookup_insert_eq, removelast_last.
Qed.

(** ** Witnesses *)

Definition demo_dev : DevWorld := mkDevWorld {[0%nat := Tty_new; 1%nat := Tty_new]} [Some 97; None; Some 98; Some 99] [] (λ _, 0) ∅.

(** Two terminals share the keyboard: one polls and then reads two characters, the other gets one. *)
Lemma tty_input_routed_witness :
  ∃ out w', run_ops [Op_poll 0 POLLIN; Op_read 1 [0; 0]; Op_read 1 [0; 0]; Op_read 0 [0; 0]; Op_write 0 [7]; Op_read 0 [0]] demo_dev = Ret (out, w') ∧
    dw_output w' = [7].
Proof.
  destruct (tty_input_routed [Op_poll 0 POLLIN; Op_read 1 [0; 0]; Op_read 1 [0; 0]; Op_read 0 [0; 0]; Op_write 0 [7]; Op_read 0 [0]] demo_dev)
    as (out & w' & log & E & _ & _ & O); [repeat constructor; discriminate|repeat constructor; by eexists|].
  exists out, w'. split; [exact E|exact O].
Defined.
