(* ===== verification/ProcFs.v ===== *)
(** * Files about the system

    Models filesystem/procfs: the text files of the process file system and the directory
    that holds them, as inodes that have no state.  The theorems show that reading a file in
    any way gives its text and that the size it reports is the length of the text; and that a
    read of the interrupt file behind its start panics the kernel. *)

From S2P Require Import Prelude Vfs Pipe File DevFs.

(** ** Texts *)

(** Lines with their ends. *)
Definition unlines (l : list string) : list Z := l ≫= λ s, str_bytes s ++ [10].

(** [CpuInfo::generate_content] *)
Definition cpuinfo_lines : list string :=
  ["processor	: 0";
   "vendor_id	: MonkeyOS";
   "cpu family	: 0";
   "model		: 0";
   "model name	: MonkeyOS Virtual CPU";
   "stepping	: 0";
   "microcode	: 0x1";
   "cpu MHz		: 1000.000";
   "cache size	: 256 KB";
   "physical id	: 0";
   "siblings	: 1";
   "core id		: 0";
   "cpu cores	: 1";
   "apicid		: 0";
   "initial apicid	: 0";
   "fpu		: yes";
   "fpu_exception	: yes";
   "cpuid level	: 1";
   "wp		: yes";
   "flags		: fpu de pse tsc msr pae mce cx8 apic sep mtrr pge mca cmov pat pse36 clflush mmx fxsr sse sse2";
   "bogomips	: 2000.00";
   "clflush size	: 64";
   "cache_alignment	: 64";
   "address sizes	: 32 bits physical, 32 bits virtual";
   "power management:";
   EmptyString].

(** [Stat::generate_content] *)
Definition stat_lines : list string :=
  ["cpu  0 0 0 0 0 0 0 0 0 0";
   "cpu0 0 0 0 0 0 0 0 0 0 0";
   "intr 0";
   "ctxt 0";
   "btime 1640995200";
   "processes 1";
   "procs_running 1";
   "procs_blocked 0";
   "softirq 0 0 0 0 0 0 0 0 0 0 0"].

(** [Version::generate_content] *)
Definition version_lines : list string :=
  ["Linux version 5.10.0-7-riscv64 (MonkeyOS) (gcc version 9.4.0) #1 SMP PREEMPT Mon Jan 1 00:00:00 UTC 2024"].

(** The text [MemInfo::readat] formats. *)
Definition meminfo_lines : list string :=
  ["MemTotal:        8388608 kB";
   "MemFree:         4194304 kB";
   "MemAvailable:    6291456 kB";
   "Buffers:           65536 kB";
   "Cached:          1048576 kB";
   "SwapCached:            0 kB";
   "Active:          2097152 kB";
   "Inactive:         524288 kB";
   "Active(anon):    1572864 kB";
   "Inactive(anon):   262144 kB";
   "Active(file):     524288 kB";
   "Inactive(file):   262144 kB";
   "Unevictable:           0 kB";
   "Mlocked:               0 kB";
   "SwapTotal:             0 kB";
   "SwapFree:              0 kB";
   "Dirty:                 0 kB";
   "Writeback:             0 kB";
   "AnonPages:       1572864 kB";
   "Mapped:           262144 kB";
   "Shmem:             65536 kB";
   "KReclaimable:     131072 kB";
   "Slab:             262144 kB";
   "SReclaimable:     131072 kB";
   "SUnreclaim:       131072 kB";
   "KernelStack:       16384 kB";
   "PageTables:        32768 kB";
   "NFS_Unstable:          0 kB";
   "Bounce:                0 kB";
   "WritebackTmp:          0 kB";
   "CommitLimit:     4194304 kB";
   "Committed_AS:    2097152 kB";
   "VmallocTotal:   34359738367 kB";
   "VmallocUsed:      131072 kB";
   "VmallocChunk:          0 kB";
   "Percpu:            65536 kB";
   "HardwareCorrupted:     0 kB";
   "AnonHugePages:         0 kB";
   "ShmemHugePages:        0 kB";
   "ShmemPmdMapped:        0 kB";
   "FileHugePages:         0 kB";
   "FilePmdMapped:         0 kB";
   "HugePages_Total:       0";
   "HugePages_Free:        0";
   "HugePages_Rsvd:        0";
   "HugePages_Surp:        0";
   "Hugepagesize:       2048 kB";
   "Hugetlb:               0 kB";
   "DirectMap4k:     2097152 kB";
   "DirectMap2M:     6291456 kB";
   "DirectMap1G:           0 kB"].

(** The text [MemInfo::stat] measures. *)
Definition meminfo_stat_lines : list string :=
  ["MemTotal:        8388608 kB";
   "MemFree:         4194304 kB";
   "MemAvailable:    6291456 kB";
   "Buffers:           65536 kB";
   "Cached:          1048576 kB";
   "SwapCached:            0 kB";
   "Active:          2097152 kB";
   "Inactive:         524288 kB";
   "Active(anon):    1572864 kB";
   "Inactive(anon):   262144 kB";
   "Active(file):     524288 kB";
   "Inactive(file):   262144 kB";
   "Unevictable:           0 kB";
   "Mlocked:               0 kB";
   "SwapTotal:             0 kB";
   "SwapFree:              0 kB";
   "Dirty:                 0 kB";
   "Writeback:             0 kB";
   "AnonPages:       1572864 kB";
   "Mapped:           262144 kB";
   "Shmem:             65536 kB";
   "KReclaimable:     131072 kB";
   "Slab:             262144 kB";
   "SReclaimable:     131072 kB";
   "SUnreclaim:       131072 kB";
   "KernelStack:       16384 kB";
   "PageTables:        32768 kB";
   "NFS_Unstable:          0 kB";
   "Bounce:                0 kB";
   "WritebackTmp:          0 kB";
   "CommitLimit:     4194304 kB";
   "Committed_AS:    2097152 kB";
   "VmallocTotal:   34359738367 kB";
   "VmallocUsed:      131072 kB";
   "VmallocChunk:          0 kB";
   "Percpu:            65536 kB";
   "HardwareCorrupted:     0 kB";
   "AnonHugePages:         0 kB";
   "ShmemHugePages:        0 kB";
   "ShmemPmdMapped:        0 kB";
   "FileHugePages:         0 kB";
   "FilePmdMapped:         0 kB";
   "HugePages_Total:       0";
   "HugePages_Free:        0";
   "HugePages_Rsvd:        0";
   "HugePages_Surp:        0";
   "Hugepagesize:       2048 kB";
   "Hugetlb:               0 kB";
   "DirectMap4k:     2097152 kB";
   "DirectMap2M:     6291456 kB";
   "DirectMap1G:           0 kB"].

(** ** The files *)

Inductive ProcNode := P_dir | P_mounts | P_meminfo | P_interrupts | P_version | P_stat | P_cpuinfo.

#[export] Instance ProcNode_eq_dec : EqDecision ProcNode.
Proof. solve_decision. Defined.

(** The [readat] of [CpuInfo], [Stat] and [Version]. *)
Definition text_readat {W} (bytes : list Z) (offset : Z) (buf : list Z) (w : W) : outcome (result Z * list Z * W) :=
  if decide (Z.of_nat (length bytes) ≤ offset) then Ret (Ok 0, buf, w) else
  let remaining := Z.of_nat (length bytes) - offset in
  let copy_len := Z.min remaining (Z.of_nat (length buf)) in
  Ret (Ok copy_len, buf_write buf (take (Z.to_nat copy_len) (drop (Z.to_nat offset) bytes)), w).

(** A slice is shorter than 2^63 bytes, so that [offset + buffer.len()] does not wrap. *)
Definition MemInfo_readat {W} (offset : Z) (buf : list Z) (w : W) : outcome (result Z * list Z * W) :=
  let content_bytes := unlines meminfo_lines in
  if decide (Z.of_nat (length content_bytes) ≤ offset) then Ret (Ok 0, buf, w) else
  let end_ := Z.min (offset + Z.of_nat (length buf)) (Z.of_nat (length content_bytes)) in
  let copy_len := end_ - offset in
  Ret (Ok copy_len, buf_write buf (take (Z.to_nat copy_len) (drop (Z.to_nat offset) content_bytes)), w).

(** The text is empty; the subtraction wraps, and [bytes[offset..offset + rsize]] panics
    unless the range lies in it. *)
Definition Interrupts_readat {W} (offset : Z) (buf : list Z) (w : W) : outcome (result Z * list Z * W) :=
  let bytes : list Z := [] in
  let rsize := Z.min (Z.of_nat (length bytes) -u offset) (Z.of_nat (length buf)) in
  if decide (offset ≤ offset +u rsize ∧ offset +u rsize ≤ Z.of_nat (length bytes)) then
    Ret (Ok rsize, buf_write buf (take (Z.to_nat rsize) (drop (Z.to_nat offset) bytes)), w)
  else Panic.

(** [stat.size] and [stat.blocks] of a text; character devices, as the code has it. *)
Definition text_stat (size : Z) : Stat → Stat := dev_stat 0 S_CHAR 1000 1000 0 size ((size + 511) / 512).

Section files.
Context {W : Type}.

Abbreviation proc_default := (INode_default : INode ProcNode W).

Definition text_inode (readat : Z → list Z → W → outcome (result Z * list Z * W)) (stat : Stat → Stat) : INode ProcNode W :=
  mk_dev readat (i_writeat proc_default) (i_ioctl proc_default) (i_poll proc_default) stat.

Definition CpuInfo_inode : INode ProcNode W :=
  text_inode (text_readat (unlines cpuinfo_lines)) (text_stat (Z.of_nat (length (unlines cpuinfo_lines)))).
Definition ProcStat_inode : INode ProcNode W :=
  text_inode (text_readat (unlines stat_lines)) (text_stat (Z.of_nat (length (unlines stat_lines)))).
Definition Version_inode : INode ProcNode W :=
  text_inode (text_readat (unlines version_lines)) (text_stat (Z.of_nat (length (unlines version_lines)))).
Definition MemInfo_inode : INode ProcNode W := text_inode MemInfo_readat (text_stat (Z.of_nat (length (unlines meminfo_stat_lines)))).
Definition Mounts_inode : INode ProcNode W := text_inode (λ _ buf w, Ret (Ok 0, buf, w)) (dev_stat 0 S_CHAR 1000 1000 0 0 0).
Definition Interrupts_inode : INode ProcNode W := text_inode Interrupts_readat (dev_stat 0 S_CHAR 1000 1000 0 0 0).

Definition ProcDir_names : list (string * ProcNode) :=
  [("mounts", P_mounts); ("meminfo", P_meminfo); ("interrupts", P_interrupts); ("version", P_version); ("stat", P_stat); ("cpuinfo", P_cpuinfo)].

Definition ProcDir_new : list (string * ProcNode) := foldl (λ d e, dir_insert e.1 e.2 d) [] ProcDir_names.

Definition proc_ops (n : ProcNode) : INode ProcNode W :=
  match n with
  | P_dir => dir_inode ProcDir_new
  | P_mounts => Mounts_inode
  | P_meminfo => MemInfo_inode
  | P_interrupts => Interrupts_inode
  | P_version => Version_inode
  | P_stat => ProcStat_inode
  | P_cpuinfo => CpuInfo_inode
  end.

(** What a reader is to see. *)
Definition proc_text (n : ProcNode) : option (list Z) :=
  match n with
  | P_mounts => Some []
  | P_meminfo => Some (unlines meminfo_lines)
  | P_version => Some (unlines version_lines)
  | P_stat => Some (unlines stat_lines)
  | P_cpuinfo => Some (unlines cpuinfo_lines)
  | P_dir | P_interrupts => None
  end.

(** ** Reading *)

Lemma text_readat_spec bytes offset buf (w : W) : 0 ≤ offset →
  text_readat bytes offset buf w =
    Ret (Ok (Z.of_nat (length (take (length buf) (drop (Z.to_nat offset) bytes)))), buf_write buf (take (length buf) (drop (Z.to_nat offset) bytes)), w).
Proof.
  intros Ho. unfold text_readat. case_decide as Hl.
  - rewrite (drop_ge bytes) by lia. rewrite take_nil. cbn [length]. unfold buf_write. by rewrite buf_write_at_nil.
  - assert (take (Z.to_nat (Z.min (Z.of_nat (length bytes) - offset) (Z.of_nat (length buf)))) (drop (Z.to_nat offset) bytes) =
      take (length buf) (drop (Z.to_nat offset) bytes)) as ->.
    { destruct (decide (Z.of_nat (length bytes) - offset ≤ Z.of_nat (length buf))).
      - rewrite !take_ge; [done|rewrite length_drop; lia|rewrite length_drop; lia].
      - f_equal. lia. }
    rewrite length_take, length_drop. do 4 f_equal. lia.
Qed.

(** The two ways to copy agree. *)
Lemma MemInfo_readat_text offset buf (w : W) : MemInfo_readat offset buf w = text_readat (unlines meminfo_lines) offset buf w.
Proof.
  unfold MemInfo_readat, text_readat. case_decide; [done|].
  replace (Z.min (offset + Z.of_nat (length buf)) (Z.of_nat (length (unlines meminfo_lines))) - offset)
    with (Z.min (Z.of_nat (length (unlines meminfo_lines)) - offset) (Z.of_nat (length buf))) by lia. done.
Qed.

Lemma proc_reads_as n c (w : W) : proc_text n = Some c → reads_as proc_ops n w c.
Proof.
  intros Hn off buf Ho. destruct n; try discriminate Hn; injection Hn as <-; cbn [proc_ops text_inode mk_dev i_readat
    CpuInfo_inode ProcStat_inode Version_inode MemInfo_inode Mounts_inode].
  - rewrite drop_nil, take_nil. cbn [length]. unfold buf_write. by rewrite buf_write_at_nil.
  - rewrite MemInfo_readat_text. by apply text_readat_spec.
  - by apply text_readat_spec.
  - by apply text_readat_spec.
  - by apply text_readat_spec.
Qed.

Lemma proc_text_size n c st (w : W) : proc_text n = Some c →
  ∃ st', i_stat (proc_ops n) st w = Ret (Ok tt, st') ∧ st_size st' = Z.of_nat (length c) ∧ Z.of_nat (length c) < 4096.
Proof. intros Hn. destruct n; try discriminate Hn; injection Hn as <-; (eexists; split; [reflexivity|]; split; vm_compute; reflexivity). Qed.
End files.

(** An open file of the process file system reads as its text: any sequence of reads delivers the
    next bytes of the text, as many as there is room for, and the size [stat] reports is the
    length of the text. *)
Theorem proc_file_contents {W} (n : ProcNode) (c : list Z) (f : File) (bufs : list (list Z)) (st : Stat) (w : W) :
  proc_text n = Some c → f_inner f = n → is_usize (f_offset f) →
  let data := take (sum_list (length <$> bufs)) (drop (Z.to_nat (f_offset f)) c) in
  read_seq proc_ops f bufs w = Ret (data, set_offset f (f_offset f + Z.of_nat (length data)), w) ∧
  ∃ st', i_stat (proc_ops n) st w = Ret (Ok tt, st') ∧ st_size st' = Z.of_nat (length c).
Proof.
  intros Hn Hf Ho data. destruct (proc_text_size n c st w Hn) as (st' & Es & Hs & Hl). split; [|by exists st'].
  apply read_seq_spec; [rewrite Hf; by apply proc_reads_as|done|]. unfold USIZE. lia.
Qed.

(** A read of the interrupt file delivers nothing at its start and panics the kernel behind it. *)
Theorem interrupts_panics {W} (offset : Z) (buf : list Z) (w : W) : 0 ≤ offset → is_usize (Z.of_nat (length buf)) → is_usize offset →
  Interrupts_readat offset buf w = if decide (offset = 0) then Ret (Ok 0, buf, w) else Panic.
Proof.
  intros Ho Hb Hu. unfold Interrupts_readat. cbn [length]. destruct (decide (offset = 0)) as [->|E0].
  - change (Z.of_nat 0 -u 0) with 0. rewrite Z.min_l by (destruct Hb; lia). change (0 +u 0) with 0. rewrite decide_True by lia.
    cbn [Z.to_nat take drop]. unfold buf_write. by rewrite buf_write_at_nil.
  - rewrite decide_False; [done|]. intros [H1 H2]. change (Z.of_nat 0) with 0 in H1, H2. lia.
Qed.

(** The names of a new process file system. *)
Lemma proc_names : ProcDir_new.*1 = ["cpuinfo"; "interrupts"; "meminfo"; "mounts"; "stat"; "version"].
Proof. reflexivity. Qed.

(** Reading the version in two calls. *)
Lemma proc_file_contents_witness :
  ∃ f', read_seq (proc_ops (W := unit)) (mkFile P_version [] 0 O_RDONLY) [[0; 0; 0]; [0; 0]] tt = Ret (str_bytes "Linux", f', tt).
Proof.
  destruct (proc_file_contents P_version (unlines version_lines) (mkFile P_version [] 0 O_RDONLY) [[0; 0; 0]; [0; 0]] Stat_default tt)
    as [E _]; [reflexivity|reflexivity|vm_compute; split; [discriminate|reflexivity]|].
  eexists. exact E.
Defined.
