(* ===== verification/Memory.v ===== *)
(** * Physical memory

    The bytes behind the page frames: reads and writes of slices at physical addresses
    (polyhal's [PhysAddr::slice_with_len], [slice_mut_with_len] and [clear_len]) and the
    destructor of [FrameTracker] (crates/runtime/src/frame.rs), which clears a frame and
    gives it back to the frame source.  The invariant [world_ok] says that free frames are
    all zero. *)

From S2P Require Import Prelude Frame.

Definition PhysMem : Type := Z → Z.

Definition mem_read (m : PhysMem) (a : Z) (n : nat) : list Z := (λ i, m (a + Z.of_nat i)) <$> seq 0 n.

Definition mem_write (m : PhysMem) (a : Z) (data : list Z) : PhysMem := λ x,
  if decide (a ≤ x < a + Z.of_nat (length data)) then data !!! Z.to_nat (x - a) else m x.

Definition clear_len (m : PhysMem) (a n : Z) : PhysMem := λ x,
  if decide (a ≤ x < a + n) then 0 else m x.

(** [FrameTracker::clear] *)
Definition FrameTracker_clear (m : PhysMem) (p : Z) : PhysMem := clear_len m p PAGE_SIZE.

Record World (FS : Type) := mkWorld { w_frames : FS; w_mem : PhysMem }.
Arguments mkWorld {FS}.
Arguments w_frames {FS}.
Arguments w_mem {FS}.

Section memory.
Context {FS : Type} `{FL : FrameSourceLaws FS}.

(** [Drop for FrameTracker] *)
Definition FrameTracker_drop (w : World FS) (p : Z) : outcome (World FS) :=
  let m := FrameTracker_clear (w_mem w) p in
  fs ← frame_unalloc (w_frames w) p;
  Ret (mkWorld fs m).

(** Dropping a vector of trackers, front to back. *)
Definition drop_trackers (w : World FS) (l : list Z) : outcome (World FS) := foldM FrameTracker_drop l w.

(** The frame source is well-formed and its free frames hold zeros. *)
Definition world_ok (w : World FS) : Prop :=
  source_ok (w_frames w) ∧
  ∀ p i, p ∈ free_frames (w_frames w) → 0 ≤ i < PAGE_SIZE → w_mem w (p + i) = 0.

Lemma length_mem_read m a n : length (mem_read m a n) = n.
Proof. unfold mem_read. by rewrite length_fmap, length_seq. Qed.

Lemma lookup_mem_read m a n i : (i < n)%nat → mem_read m a n !! i = Some (m (a + Z.of_nat i)).
Proof. intros. unfold mem_read. by rewrite list_lookup_fmap, lookup_seq_lt. Qed.

(** Distinct page frames do not overlap. *)
Lemma page_disjoint p q x : p mod PAGE_SIZE = 0 → q mod PAGE_SIZE = 0 →
  p ≤ x < p + PAGE_SIZE → q ≤ x < q + PAGE_SIZE → p = q.
Proof.
  intros Hp Hq Hxp Hxq. pose proof (page_div_mul p Hp). pose proof (page_div_mul q Hq).
  unfold PAGE_SIZE in *. lia.
Qed.

Lemma page_offset_inj p q i j : p mod PAGE_SIZE = 0 → q mod PAGE_SIZE = 0 →
  0 ≤ i < PAGE_SIZE → 0 ≤ j < PAGE_SIZE → p + i = q + j → p = q ∧ i = j.
Proof. intros Hp Hq Hi Hj E. assert (p = q); [apply (page_disjoint p q (p + i)); lia|lia]. Qed.

(** Dropping an owned frame keeps the world well-formed, frees the frame and changes no
    byte of any other frame. *)
Lemma FrameTracker_drop_ok w p : world_ok w → p ∈ managed_frames (w_frames w) →
  ∃ w', FrameTracker_drop w p = Ret w' ∧ world_ok w' ∧
    managed_frames (w_frames w') = managed_frames (w_frames w) ∧
    free_frames (w_frames w') = {[p]} ∪ free_frames (w_frames w) ∧
    ∀ x, ¬ (p ≤ x < p + PAGE_SIZE) → w_mem w' x = w_mem w x.
Proof.
  intros [Hok Hz] Hp. destruct (frame_unalloc_law _ p Hok Hp) as (fs & E & Hok' & Hm & Hf).
  exists (mkWorld fs (FrameTracker_clear (w_mem w) p)). unfold FrameTracker_drop. rewrite E.
  unfold world_ok, FrameTracker_clear, clear_len. cbn [w_frames w_mem]. split_and!; try done.
  - intros q i Hq Hi. rewrite Hf in Hq. case_decide as Hc; [done|]. apply Hz; [|done].
    destruct (decide (q = p)) as [->|]; [lia|set_solver].
  - intros x Hx. by rewrite decide_False.
Qed.

Lemma drop_trackers_ok l w : world_ok w → list_to_set l ⊆ managed_frames (w_frames w) →
  ∃ w', drop_trackers w l = Ret w' ∧ world_ok w' ∧
    managed_frames (w_frames w') = managed_frames (w_frames w) ∧
    free_frames (w_frames w') = list_to_set l ∪ free_frames (w_frames w) ∧
    ∀ x, (∀ p, p ∈ l → ¬ (p ≤ x < p + PAGE_SIZE)) → w_mem w' x = w_mem w x.
Proof.
  revert w. induction l as [|p l IH]; intros w Hw Hl.
  { exists w. split_and!; try done. set_solver. }
  destruct (FrameTracker_drop_ok w p Hw) as (w1 & E1 & Hw1 & Hm1 & Hf1 & Hx1); [set_solver|].
  destruct (IH w1 Hw1) as (w2 & E2 & Hw2 & Hm2 & Hf2 & Hx2); [rewrite Hm1; set_solver|].
  exists w2. unfold drop_trackers. cbn [foldM]. rewrite E1. split_and!; [exact E2|done|congruence|..].
  - rewrite Hf2, Hf1. set_solver.
  - intros x Hx. rewrite Hx2, Hx1; [done|apply Hx; by left|]. intros q Hq. apply Hx. by right.
Qed.

(** Allocating a frame from a well-formed world: the frame is zero and no longer free. *)
Lemma world_alloc_ok fs m : world_ok (mkWorld fs m) →
  ∃ o fs', frame_alloc fs = Ret (o, fs') ∧ world_ok (mkWorld fs' m) ∧ managed_frames fs' = managed_frames fs ∧
    match o with
    | Some p => p ∈ free_frames fs ∧ free_frames fs' = free_frames fs ∖ {[p]} ∧ p mod PAGE_SIZE = 0 ∧ is_usize p ∧
                ∀ i, 0 ≤ i < PAGE_SIZE → m (p + i) = 0
    | None => free_frames fs = ∅ ∧ free_frames fs' = ∅
    end.
Proof.
  intros [Hok Hz]. cbn in *. destruct (frame_alloc_law fs Hok) as (o & fs' & E & Hok' & Hm & Ho).
  exists o, fs'. split_and!; try done.
  - split; [done|]. cbn. intros p i Hp Hi. apply Hz; [|done]. destruct o as [q|]; [|set_solver].
    destruct Ho as [_ Ho]. set_solver.
  - destruct o as [p|]; [|done]. destruct Ho as [Hp Hf].
    destruct (managed_aligned fs p Hok) as [Hu Ha]; [by apply free_managed|]. split_and!; try done. auto.
Qed.
End memory.
