(* ===== verification/RamFs.v ===== *)
(** * The RAM file system

    Models filesystem/ramfs/src/lib.rs: files whose bytes live in page frames taken from
    the frame source, directories as vectors of named children, and links.  The theorems
    show that a file refines a byte sequence ([RamFile_readat], [RamFile_writeat] and
    [RamFile_truncate] against [write_at] and friends), that operations on one file leave
    the others alone, what directory operations do, and how a write past the end of memory
    breaks the file. *)

From S2P Require Import Prelude Frame Memory Path Vfs Pipe File.

(** ** Files *)

Record RamFileInner := mkRamFile {
  rf_name : string; rf_len : Z; rf_pages : list Z; rf_times : TimeSpec * TimeSpec * TimeSpec (* ctime, atime, mtime *)
}.

Definition page_at (pages : list Z) (index : Z) : outcome Z := unwrap (pages !! Z.to_nat index).

(** The copy loop of [readat]; every turn but the last copies at least one byte. *)
Fixpoint read_loop (fuel : nat) (pages : list Z) (m : PhysMem) (offset last_len buffer_off : Z) (buffer : list Z)
    : outcome (list Z) :=
  match fuel with
  | O => Panic
  | S fuel =>
      let curr_size := Z.min (PAGE_SIZE - offset mod PAGE_SIZE) last_len in
      if decide (curr_size = 0) then Ret buffer
      else
        p ← page_at pages (offset / PAGE_SIZE);
        read_loop fuel pages m (offset + curr_size) (last_len - curr_size) (buffer_off + curr_size)
          (buf_write_at (Z.to_nat buffer_off) buffer (mem_read m (p + offset mod PAGE_SIZE) (Z.to_nat curr_size)))
  end.

Definition RamFile_readat (f : RamFileInner) (m : PhysMem) (offset : Z) (buffer : list Z) : outcome (result Z * list Z) :=
  let file_size := rf_len f in
  if decide (file_size ≤ offset) then Ret (Ok 0, buffer)
  else
    let read_len := Z.min (Z.of_nat (length buffer)) (file_size - offset) in
    buffer ← read_loop (S (Z.to_nat read_len)) (rf_pages f) m offset read_len 0 buffer;
    Ret (Ok read_len, buffer).

(** The copy loop of [writeat]: the memory and the final [write_offset]. *)
Fixpoint write_loop (fuel : nat) (pages : list Z) (m : PhysMem) (write_offset wsize buffer_off : Z) (buffer : list Z)
    : outcome (PhysMem * Z) :=
  match fuel with
  | O => Panic
  | S fuel =>
      let curr_size := Z.min (PAGE_SIZE - write_offset mod PAGE_SIZE) wsize in
      if decide (curr_size = 0) then Ret (m, write_offset)
      else
        let index := write_offset / PAGE_SIZE in
        if decide (Z.of_nat (length pages) ≤ index) then Ret (m, write_offset)
        else
          p ← page_at pages index;
          write_loop fuel pages
            (mem_write m (p + write_offset mod PAGE_SIZE)
               (take (Z.to_nat curr_size) (drop (Z.to_nat buffer_off) buffer)))
            (write_offset + curr_size) (wsize - curr_size) (buffer_off + curr_size) buffer
  end.

(** What [truncate] clears: the pages past the target, and the rest of the page [size]
    falls into. *)
Definition truncate_clear (pages : list Z) (m : PhysMem) (size : Z) : PhysMem :=
  let m := foldl FrameTracker_clear m (drop (Z.to_nat (div_ceil size PAGE_SIZE)) pages) in
  if decide (size mod PAGE_SIZE ≠ 0) then
    match pages !! Z.to_nat (size / PAGE_SIZE) with
    | Some page => clear_len m (page + size mod PAGE_SIZE) (PAGE_SIZE - size mod PAGE_SIZE)
    | None => m
    end
  else m.

Section ramfile.
Context {FS : Type} `{FL : FrameSourceLaws FS}.

(** The page allocation loop of [writeat], [n] turns left. *)
Fixpoint write_alloc (n : nat) (inner : list Z) (allocated_pages : Z) (fs : FS)
    : outcome (result unit * list Z * FS) :=
  match n with
  | O => Ret (Ok tt, inner, fs)
  | S n =>
      '(o, fs) ← frame_alloc fs;
      match o with
      | Some frame => write_alloc n (inner ++ [frame]) (allocated_pages + 1) fs
      | None => if decide (0 < allocated_pages) then Ret (Ok tt, inner, fs) else Ret (Err ENOMEM, inner, fs)
      end
  end.

Definition RamFile_writeat (f : RamFileInner) (w : World FS) (offset : Z) (buffer : list Z)
    : outcome (result Z * RamFileInner * World FS) :=
  let pages := div_ceil (offset +u Z.of_nat (length buffer)) PAGE_SIZE in
  '(r, inner, fs) ← write_alloc (Z.to_nat (pages - Z.of_nat (length (rf_pages f)))) (rf_pages f) 0 (w_frames w);
  match r with
  | Err e => Ret (Err e, mkRamFile (rf_name f) (rf_len f) inner (rf_times f), mkWorld fs (w_mem w))
  | Ok _ =>
      let available_space := Z.of_nat (length inner) *u PAGE_SIZE in
      let max_writable := if decide (offset < available_space) then available_space - offset else 0 in
      let actual_write_size := Z.min (Z.of_nat (length buffer)) max_writable in
      '(m, write_offset) ← write_loop (S (Z.to_nat actual_write_size)) inner (w_mem w) offset actual_write_size 0 buffer;
      let len := if decide (rf_len f < write_offset) then write_offset else rf_len f in
      Ret (Ok actual_write_size, mkRamFile (rf_name f) len inner (rf_times f), mkWorld fs m)
  end.

(** The page allocation loop of [truncate]. *)
Fixpoint truncate_alloc (n : nat) (inner : list Z) (fs : FS) : outcome (result unit * list Z * FS) :=
  match n with
  | O => Ret (Ok tt, inner, fs)
  | S n =>
      '(o, fs) ← frame_alloc fs;
      match o with
      | Some frame => truncate_alloc n (inner ++ [frame]) fs
      | None => Ret (Err ENOMEM, inner, fs)
      end
  end.

Definition RamFile_truncate (f : RamFileInner) (w : World FS) (size : Z) : outcome (result unit * RamFileInner * World FS) :=
  let pages := Z.of_nat (length (rf_pages f)) in
  let target_pages := div_ceil size PAGE_SIZE in
  let m := truncate_clear (rf_pages f) (w_mem w) size in
  '(r, inner, fs) ← truncate_alloc (Z.to_nat (target_pages - pages)) (rf_pages f) (w_frames w);
  Ret (r, mkRamFile (rf_name f) size inner (rf_times f), mkWorld fs m).

(** [String::ends_with] for the suffix [".s"]. *)
Definition ends_with_dot_s (name : string) : bool :=
  bool_decide (String.substring (String.length name - 2) 2 name = ".s").

Definition RamFile_stat (f : RamFileInner) (stat : Stat) : Stat :=
  mkStat (st_dev stat) (if ends_with_dot_s (rf_name f) then 2 else 1) S_FILE 1 0 0 0
    (rf_len f) 512 0 (rf_times f).1.2 (rf_times f).2 (st_ctime stat).

Definition RamFile_utimes (f : RamFileInner) (times : list TimeSpec) : outcome RamFileInner :=
  t0 ← unwrap (times !! 0%nat);
  let '(ctime, atime, mtime) := rf_times f in
  let atime := if decide (ts_nsec t0 ≠ UTIME_OMIT) then t0 else atime in
  t1 ← unwrap (times !! 1%nat);
  let mtime := if decide (ts_nsec t1 ≠ UTIME_OMIT) then t1 else mtime in
  Ret (mkRamFile (rf_name f) (rf_len f) (rf_pages f) (ctime, atime, mtime)).

(** Dropping the last reference to a file drops its frames. *)
Definition RamFile_drop (f : RamFileInner) (w : World FS) : outcome (World FS) := drop_trackers w (rf_pages f).
End ramfile.

(** ** Bytes of a file *)

(** Byte [k] of the page sequence. *)
Definition file_byte (pages : list Z) (m : PhysMem) (k : Z) : Z :=
  m (pages !!! Z.to_nat (k / PAGE_SIZE) + k mod PAGE_SIZE).

Definition capacity (pages : list Z) : Z := Z.of_nat (length pages) * PAGE_SIZE.

(** The abstract contents: the first [len] bytes. *)
Definition contents (f : RamFileInner) (m : PhysMem) : list Z := file_byte (rf_pages f) m <$> seqZ 0 (rf_len f).

Definition pages_ok (pages : list Z) : Prop := NoDup pages ∧ Forall (λ p, p mod PAGE_SIZE = 0) pages.

(** Address [x] lies in one of the pages. *)
Definition in_pages (pages : list Z) (x : Z) : Prop := ∃ p, p ∈ pages ∧ p ≤ x < p + PAGE_SIZE.

#[export] Instance in_pages_dec pages x : Decision (in_pages pages x).
Proof.
  refine (cast_if (decide (Exists (λ p, p ≤ x < p + PAGE_SIZE) pages))); unfold in_pages; by rewrite <- Exists_exists.
Defined.

Lemma page_index k n : 0 ≤ k < n * PAGE_SIZE → 0 ≤ k / PAGE_SIZE < n.
Proof. intros. split; [apply Z.div_pos; unfold PAGE_SIZE in *; lia|]. apply Z.div_lt_upper_bound; unfold PAGE_SIZE in *; lia. Qed.

Lemma page_mod k : 0 ≤ k mod PAGE_SIZE < PAGE_SIZE.
Proof. by apply Z.mod_pos_bound. Qed.

(** Positions within one page chunk. *)
Lemma page_chunk off k : 0 ≤ off → off ≤ k < off + (PAGE_SIZE - off mod PAGE_SIZE) →
  k / PAGE_SIZE = off / PAGE_SIZE ∧ k mod PAGE_SIZE = off mod PAGE_SIZE + (k - off).
Proof.
  intros H0 Hk. pose proof (page_mod off). pose proof (Z.div_mod off PAGE_SIZE ltac:(done)).
  assert (k = PAGE_SIZE * (off / PAGE_SIZE) + (off mod PAGE_SIZE + (k - off))) as E by lia. split.
  - symmetry. apply (Z.div_unique_pos _ _ _ (off mod PAGE_SIZE + (k - off))); lia.
  - symmetry. apply (Z.mod_unique_pos _ _ (off / PAGE_SIZE)); lia.
Qed.

Lemma lookup_page pages k : 0 ≤ k < capacity pages →
  pages !! Z.to_nat (k / PAGE_SIZE) = Some (pages !!! Z.to_nat (k / PAGE_SIZE)).
Proof. intros Hk. apply list_lookup_lookup_total_lt. apply page_index in Hk. lia. Qed.

Lemma page_at_spec pages k : 0 ≤ k < capacity pages →
  page_at pages (k / PAGE_SIZE) = Ret (pages !!! Z.to_nat (k / PAGE_SIZE)).
Proof. intros Hk. unfold page_at. by rewrite lookup_page. Qed.

Lemma page_at_none pages k : capacity pages ≤ k → page_at pages (k / PAGE_SIZE) = Panic.
Proof.
  intros Hk. unfold page_at. rewrite lookup_ge_None_2; [done|].
  assert (Z.of_nat (length pages) ≤ k / PAGE_SIZE); [|lia].
  apply Z.div_le_lower_bound; [done|]. unfold capacity in Hk. lia.
Qed.

Lemma mem_read_file_byte pages m off n : 0 ≤ off → 0 ≤ n ≤ PAGE_SIZE - off mod PAGE_SIZE →
  mem_read m (pages !!! Z.to_nat (off / PAGE_SIZE) + off mod PAGE_SIZE) (Z.to_nat n) =
  file_byte pages m <$> seqZ off n.
Proof.
  intros Ho Hn. apply list_eq. intros i. rewrite list_lookup_fmap.
  destruct (decide (Z.of_nat i < n)) as [Hi|Hi].
  - rewrite lookup_mem_read by lia. rewrite (lookup_seqZ_lt off n i) by lia. cbn [fmap option_fmap option_map].
    f_equal. unfold file_byte. destruct (page_chunk off (off + Z.of_nat i)) as [-> ->]; [lia|lia|].
    f_equal. lia.
  - rewrite lookup_seqZ_ge by lia. apply lookup_ge_None_2. rewrite length_mem_read. lia.
Qed.

Lemma curr_size_pos off last : 0 < last → 0 < Z.min (PAGE_SIZE - off mod PAGE_SIZE) last.
Proof. intros. pose proof (page_mod off). lia. Qed.

Lemma read_loop_spec fuel pages m off last bo buf :
  0 ≤ off → 0 ≤ last → 0 ≤ bo → bo + last ≤ Z.of_nat (length buf) → off + last ≤ capacity pages → last < Z.of_nat fuel →
  read_loop fuel pages m off last bo buf = Ret (buf_write_at (Z.to_nat bo) buf (file_byte pages m <$> seqZ off last)).
Proof.
  revert off last bo buf. induction fuel as [|fuel IH]; intros off last bo buf Ho Hl Hb Hbl Hc Hf; [lia|].
  cbn [read_loop]. case_decide as Hz.
  - assert (last = 0) as -> by (pose proof (curr_size_pos off last); lia). by rewrite buf_write_at_nil.
  - pose proof (page_mod off). set (c := Z.min (PAGE_SIZE - off mod PAGE_SIZE) last) in *.
    rewrite page_at_spec by lia. step_ret. rewrite mem_read_file_byte by lia.
    set (d := file_byte pages m <$> seqZ off c). assert (length d = Z.to_nat c) as Hd.
    { unfold d. by rewrite length_fmap, length_seqZ. }
    rewrite IH; try lia; [|rewrite length_buf_write_at; lia]. f_equal.
    replace (Z.to_nat (bo + c)) with (Z.to_nat bo + length d)%nat by lia.
    rewrite buf_write_at_app by lia. f_equal. unfold d. rewrite <- fmap_app. f_equal.
    rewrite <- seqZ_app by lia. f_equal. lia.
Qed.

(** Storing [data] inside page [i] changes exactly the bytes it covers. *)
Lemma file_byte_write pages m i o data k : pages_ok pages →
  0 ≤ i < Z.of_nat (length pages) → 0 ≤ o → o + Z.of_nat (length data) ≤ PAGE_SIZE → 0 ≤ k < capacity pages →
  file_byte pages (mem_write m (pages !!! Z.to_nat i + o) data) k =
    if decide (i * PAGE_SIZE + o ≤ k < i * PAGE_SIZE + o + Z.of_nat (length data))
    then data !!! Z.to_nat (k - (i * PAGE_SIZE + o)) else file_byte pages m k.
Proof.
  intros [Hnd Hal] Hi Ho Hd Hk. unfold file_byte, mem_write.
  set (p := pages !!! Z.to_nat i). set (q := pages !!! Z.to_nat (k / PAGE_SIZE)).
  assert (pages !! Z.to_nat i = Some p) as Hp by (apply list_lookup_lookup_total_lt; lia).
  pose proof (lookup_page pages k Hk) as Hq. fold q in Hq. pose proof (page_mod k). pose proof (page_index k _ Hk).
  pose proof (Forall_lookup_1 _ _ _ _ Hal Hp) as Ap. pose proof (Forall_lookup_1 _ _ _ _ Hal Hq) as Aq. cbn in Ap, Aq.
  pose proof (Z.div_mod k PAGE_SIZE ltac:(done)) as Ek.
  destruct (decide (i * PAGE_SIZE + o ≤ k < i * PAGE_SIZE + o + Z.of_nat (length data))) as [Hin|Hout].
  - assert (k / PAGE_SIZE = i) as Ei by (symmetry; apply (Z.div_unique_pos _ _ _ (k - i * PAGE_SIZE)); lia).
    assert (q = p) as -> by (unfold p, q; by rewrite Ei). rewrite decide_True by lia. f_equal. lia.
  - rewrite decide_False; [done|]. intros Hx. apply Hout.
    assert (q = p) as E by (apply (page_disjoint q p (q + k mod PAGE_SIZE)); try done; lia).
    assert (Z.to_nat (k / PAGE_SIZE) = Z.to_nat i) as Ei by (eapply NoDup_lookup; [done|exact Hq|by rewrite E]).
    assert (k / PAGE_SIZE = i) as Ei' by lia. rewrite E in Hx. lia.
Qed.

Lemma mem_write_outside pages m i o data x :
  0 ≤ i < Z.of_nat (length pages) → 0 ≤ o → o + Z.of_nat (length data) ≤ PAGE_SIZE → ¬ in_pages pages x →
  mem_write m (pages !!! Z.to_nat i + o) data x = m x.
Proof.
  intros Hi Ho Hd Hx. unfold mem_write. rewrite decide_False; [done|]. intros Hin. apply Hx.
  exists (pages !!! Z.to_nat i). split; [|lia]. apply list_elem_of_lookup_total_2. lia.
Qed.

Lemma write_loop_spec fuel pages m off ws bo buf : pages_ok pages →
  0 ≤ off → 0 ≤ ws → 0 ≤ bo → bo + ws ≤ Z.of_nat (length buf) → off + ws ≤ capacity pages → ws < Z.of_nat fuel →
  ∃ m', write_loop fuel pages m off ws bo buf = Ret (m', off + ws) ∧
    (∀ k, 0 ≤ k < capacity pages → file_byte pages m' k =
       if decide (off ≤ k < off + ws) then buf !!! Z.to_nat (bo + (k - off)) else file_byte pages m k) ∧
    (∀ x, ¬ in_pages pages x → m' x = m x).
Proof.
  intros Hok. revert m off ws bo. induction fuel as [|fuel IH]; intros m off ws bo Ho Hl Hb Hbl Hc Hf; [lia|].
  cbn [write_loop]. case_decide as Hz.
  - assert (ws = 0) as -> by (pose proof (curr_size_pos off ws); lia). exists m. rewrite Z.add_0_r.
    split_and!; try done. intros k Hk. by rewrite decide_False by lia.
  - pose proof (page_mod off). set (c := Z.min (PAGE_SIZE - off mod PAGE_SIZE) ws) in *.
    assert (0 ≤ off / PAGE_SIZE < Z.of_nat (length pages)) as Hix by (apply page_index; unfold capacity in Hc; lia).
    rewrite decide_False by lia. rewrite page_at_spec by lia. step_ret.
    set (data := take (Z.to_nat c) (drop (Z.to_nat bo) buf)).
    assert (Z.of_nat (length data) = c) as Hd by (unfold data; rewrite length_take, length_drop; lia).
    pose proof (Z.div_mod off PAGE_SIZE ltac:(done)) as Eo.
    destruct (IH (mem_write m (pages !!! Z.to_nat (off / PAGE_SIZE) + off mod PAGE_SIZE) data) (off + c) (ws - c) (bo + c))
      as (m' & E & Hin & Hout); try lia. exists m'. split_and!.
    + rewrite E. do 2 f_equal. lia.
    + intros k Hk. rewrite Hin by done. rewrite file_byte_write by (try done; lia).
      replace (off / PAGE_SIZE * PAGE_SIZE + off mod PAGE_SIZE) with off by lia. rewrite Hd.
      repeat case_decide; try lia; try done; [f_equal; lia|].
      unfold data. rewrite !list_lookup_total_alt, lookup_take_lt, lookup_drop by lia. do 2 f_equal. lia.
    + intros x Hx. rewrite Hout by done. by apply mem_write_outside; try done; lia.
Qed.

Lemma clear_pages_spec l m x :
  (in_pages l x → foldl FrameTracker_clear m l x = 0) ∧ (¬ in_pages l x → foldl FrameTracker_clear m l x = m x).
Proof.
  revert m. induction l as [|p l IH]; intros m; cbn [foldl].
  { split; [|done]. intros (p & Hp & _). by apply elem_of_nil in Hp. }
  destruct (IH (FrameTracker_clear m p)) as [H1 H2]. split.
  - intros (q & Hq & Hx). destruct (decide (in_pages l x)) as [Hin|Hin]; [by apply H1|].
    rewrite H2 by done. unfold FrameTracker_clear, clear_len. apply elem_of_cons in Hq as [->|Hq]; [by rewrite decide_True|].
    destruct Hin. by exists q.
  - intros Hx. rewrite H2 by (intros (q & Hq & ?); apply Hx; exists q; split; [by right|done]).
    unfold FrameTracker_clear, clear_len. rewrite decide_False; [done|]. intros ?. apply Hx. exists p. split; [by left|done].
Qed.

Lemma truncate_clear_spec pages m size : pages_ok pages → 0 ≤ size →
  (∀ k, 0 ≤ k < capacity pages → file_byte pages (truncate_clear pages m size) k =
     if decide (k < size) then file_byte pages m k else 0) ∧
  (∀ x, ¬ in_pages pages x → truncate_clear pages m size x = m x).
Proof.
  intros [Hnd Hal] Hs. unfold truncate_clear. set (t := div_ceil size PAGE_SIZE).
  set (m1 := foldl FrameTracker_clear m (drop (Z.to_nat t) pages)).
  pose proof (Z.div_mod size PAGE_SIZE ltac:(done)) as Es. pose proof (page_mod size) as Hm.
  assert (0 ≤ size / PAGE_SIZE) by (apply Z.div_pos; done).
  assert (∀ x, ¬ in_pages pages x → m1 x = m x) as Hout1.
  { intros x Hx. apply clear_pages_spec. intros (p & Hp & Hpx). apply Hx. exists p. split; [|done].
    rewrite <- (take_drop (Z.to_nat t) pages). apply elem_of_app. by right. }
  assert (∀ k, 0 ≤ k < capacity pages → file_byte pages m1 k = if decide (k < t * PAGE_SIZE) then file_byte pages m k else 0) as Hin1.
  { intros k Hk. pose proof (lookup_page pages k Hk) as Hl. pose proof (page_mod k). pose proof (page_index k _ Hk).
    pose proof (Z.div_mod k PAGE_SIZE ltac:(done)) as Ek. unfold file_byte. set (q := pages !!! Z.to_nat (k / PAGE_SIZE)) in *.
    case_decide as Hlt.
    - apply clear_pages_spec. intros (p & Hp & Hpx). apply list_elem_of_lookup in Hp as (j & Hj). rewrite lookup_drop in Hj.
      assert (q = p) as Eq.
      { eapply page_disjoint; [by eapply Forall_lookup_1 in Hal|by eapply Forall_lookup_1 in Hal| |exact Hpx]. lia. }
      rewrite Eq in Hl. pose proof (NoDup_lookup _ _ _ _ Hnd Hl Hj).
      unfold PAGE_SIZE in *. lia.
    - apply clear_pages_spec. exists q. split; [|lia]. apply list_elem_of_lookup.
      exists (Z.to_nat (k / PAGE_SIZE) - Z.to_nat t)%nat. rewrite lookup_drop, <- Hl. f_equal.
      assert (t ≤ k / PAGE_SIZE) by (apply Z.div_le_lower_bound; [done|lia]). lia. }
  assert (t = size / PAGE_SIZE + (if decide (size mod PAGE_SIZE ≠ 0) then 1 else 0)) as Et.
  { unfold t, div_ceil. repeat case_decide; lia. }
  clearbody t m1. case_decide as Hz.
  - destruct (pages !! Z.to_nat (size / PAGE_SIZE)) as [p|] eqn:Ep.
    + assert (pages !!! Z.to_nat (size / PAGE_SIZE) = p) as Ep' by by apply list_lookup_total_correct.
      apply lookup_lt_Some in Ep. split.
      * intros k Hk. assert (file_byte pages (clear_len m1 (p + size mod PAGE_SIZE) (PAGE_SIZE - size mod PAGE_SIZE)) k =
          file_byte pages (mem_write m1 (pages !!! Z.to_nat (size / PAGE_SIZE) + size mod PAGE_SIZE)
            (replicate (Z.to_nat (PAGE_SIZE - size mod PAGE_SIZE)) 0)) k) as ->.
        { unfold file_byte, clear_len, mem_write. rewrite Ep', length_replicate, Z2Nat.id by lia. case_decide; [|done].
          rewrite list_lookup_total_alt, lookup_replicate_2 by lia. done. }
        rewrite file_byte_write; [|done|lia|lia|rewrite length_replicate; lia|done].
        rewrite length_replicate, Hin1, Z2Nat.id by lia. repeat case_decide; try lia; try done.
        rewrite list_lookup_total_alt, lookup_replicate_2 by lia. done.
      * intros x Hx. unfold clear_len. rewrite decide_False; [by apply Hout1|]. intros ?. apply Hx.
        exists p. split; [rewrite <- Ep'; apply list_elem_of_lookup_total_2; lia|lia].
    + split; [|done]. intros k Hk. rewrite Hin1 by done. apply lookup_ge_None_1 in Ep. unfold capacity in Hk.
      rewrite !decide_True; [done|..]; unfold PAGE_SIZE in *; lia.
  - split; [|done]. intros k Hk. rewrite Hin1 by done. repeat case_decide; lia || done.
Qed.

(** ** The abstract file *)

(** A write to a byte sequence: a gap before [off] is filled with zeros. *)
Definition write_at (c : list Z) (off : nat) (data : list Z) : list Z :=
  take off (c ++ replicate off 0) ++ data ++ drop (off + length data) c.

(** A truncation: cut, or extend with zeros. *)
Definition resize_to (c : list Z) (n : nat) : list Z := take n (c ++ replicate n 0).

Lemma lookup_resize_to c n i :
  resize_to c n !! i = if decide (i < n)%nat then Some (default 0 (c !! i)) else None.
Proof.
  unfold resize_to. case_decide as Hi.
  - rewrite lookup_take_lt by done. destruct (c !! i) as [x|] eqn:E.
    + by rewrite (lookup_app_l_Some _ _ _ _ E).
    + apply lookup_ge_None_1 in E. rewrite lookup_app_r by done. apply lookup_replicate_2. lia.
  - apply lookup_ge_None_2. rewrite length_take. lia.
Qed.

Lemma lookup_write_at c off data i :
  write_at c off data !! i =
    if decide (i < off)%nat then Some (default 0 (c !! i))
    else if decide (i < off + length data)%nat then data !! (i - off)%nat else c !! i.
Proof.
  unfold write_at. fold (resize_to c off). assert (length (resize_to c off) = off) as Hl.
  { unfold resize_to. rewrite length_take, length_app, length_replicate. lia. }
  case_decide as H1.
  - rewrite lookup_app_l by lia. rewrite lookup_resize_to. by rewrite decide_True.
  - rewrite lookup_app_r by lia. rewrite Hl. case_decide as H2.
    + by rewrite lookup_app_l by lia.
    + rewrite lookup_app_r by lia. rewrite lookup_drop. f_equal. lia.
Qed.

Lemma lookup_contents f m i :
  contents f m !! i = if decide (Z.of_nat i < rf_len f) then Some (file_byte (rf_pages f) m (Z.of_nat i)) else None.
Proof.
  unfold contents. rewrite list_lookup_fmap. case_decide.
  - by rewrite lookup_seqZ_lt by lia.
  - by rewrite lookup_seqZ_ge by lia.
Qed.

Lemma length_contents f m : length (contents f m) = Z.to_nat (rf_len f).
Proof. unfold contents. by rewrite length_fmap, length_seqZ. Qed.

Lemma file_byte_app_l pages new m k : 0 ≤ k < capacity pages → file_byte (pages ++ new) m k = file_byte pages m k.
Proof.
  intros Hk. unfold file_byte. apply page_index in Hk. rewrite lookup_total_app_l by lia. done.
Qed.

Lemma capacity_app pages new : capacity (pages ++ new) = capacity pages + capacity new.
Proof. unfold capacity. rewrite length_app. lia. Qed.

Section refinement.
Context {FS : Type} `{FL : FrameSourceLaws FS}.

Record file_ok (w : World FS) (f : RamFileInner) : Prop := {
  fo_len : 0 ≤ rf_len f ≤ capacity (rf_pages f);
  fo_cap : capacity (rf_pages f) < USIZE;
  fo_nodup : NoDup (rf_pages f);
  fo_owned p : p ∈ rf_pages f → p ∈ managed_frames (w_frames w) ∧ p ∉ free_frames (w_frames w);
  fo_tail k : rf_len f ≤ k < capacity (rf_pages f) → file_byte (rf_pages f) (w_mem w) k = 0;
}.

Lemma file_pages_ok w f : world_ok w → file_ok w f → pages_ok (rf_pages f).
Proof.
  intros [Hok _] Hf. split; [apply Hf|]. apply Forall_forall. intros p Hp.
  apply (fo_owned w f Hf) in Hp as [Hp _]. by apply (managed_aligned _ p Hok) in Hp as [_ ?].
Qed.

(** What an allocation loop of [n] turns does: it appends new, zero frames, and stops
    short exactly when the source is exhausted. *)
Definition alloc_effect (n : nat) (inner : list Z) (fs : FS) (m : PhysMem) (new : list Z) (fs' : FS) : Prop :=
  (length new ≤ n)%nat ∧ NoDup new ∧ list_to_set new ⊆ free_frames fs ∧
  free_frames fs' = free_frames fs ∖ list_to_set new ∧ managed_frames fs' = managed_frames fs ∧
  world_ok (mkWorld fs' m) ∧ ((length new < n)%nat → free_frames fs' = ∅) ∧
  (∀ p i, p ∈ new → 0 ≤ i < PAGE_SIZE → m (p + i) = 0).

Lemma alloc_effect_nil n inner fs m fs' : world_ok (mkWorld fs' m) → managed_frames fs' = managed_frames fs →
  free_frames fs' = free_frames fs → ((0 < n)%nat → free_frames fs' = ∅) → alloc_effect n inner fs m [] fs'.
Proof. intros Hw Hm Hf He. repeat split; try done; try apply NoDup_nil_2; cbn; try lia; try set_solver; apply Hw. Qed.

Lemma alloc_effect_cons n inner fs m p fs1 new fs' :
  p ∈ free_frames fs → free_frames fs1 = free_frames fs ∖ {[p]} → managed_frames fs1 = managed_frames fs →
  (∀ i, 0 ≤ i < PAGE_SIZE → m (p + i) = 0) →
  alloc_effect n (inner ++ [p]) fs1 m new fs' → alloc_effect (S n) inner fs m (p :: new) fs'.
Proof.
  intros Hp Hf1 Hm1 Hz (Hl & Hnd & Hsub & Hf & Hm & Hw & He & Hz'). split_and!.
  - cbn. lia.
  - constructor; [|done]. set_solver.
  - set_solver.
  - rewrite Hf, Hf1. set_solver.
  - congruence.
  - done.
  - cbn. intros. apply He. lia.
  - intros q i Hq Hi. apply elem_of_cons in Hq as [->|Hq]; auto.
Qed.

Lemma write_alloc_spec n inner a fs m : world_ok (mkWorld fs m) → 0 ≤ a →
  ∃ r new fs', write_alloc n inner a fs = Ret (r, inner ++ new, fs') ∧ alloc_effect n inner fs m new fs' ∧
    r = (if decide (length new = n ∨ 0 < a + Z.of_nat (length new)) then Ok tt else Err ENOMEM).
Proof.
  revert inner a fs. induction n as [|n IH]; intros inner a fs Hw Ha; cbn [write_alloc].
  { exists (Ok tt), [], fs. rewrite app_nil_r. rewrite decide_True by (by left).
    split_and!; try done. apply alloc_effect_nil; try done. lia. }
  destruct (world_alloc_ok fs m Hw) as (o & fs1 & E & Hw1 & Hm1 & Ho). rewrite E. step_ret. destruct o as [p|].
  - destruct Ho as (Hp & Hf1 & _ & _ & Hz).
    destruct (IH (inner ++ [p]) (a + 1) fs1 Hw1) as (r & new & fs' & E' & Heff & ->); [lia|].
    exists (if decide (length (p :: new) = S n ∨ 0 < a + Z.of_nat (length (p :: new))) then Ok tt else Err ENOMEM), (p :: new), fs'.
    split_and!; [|by eapply alloc_effect_cons|done]. rewrite E', <- app_assoc. cbn [app length].
    repeat case_decide; try done; lia.
  - exists (if decide (0 < a) then Ok tt else Err ENOMEM), [], fs1. rewrite app_nil_r. destruct Ho as [He He1].
    split_and!; [by case_decide| |].
    + apply alloc_effect_nil; try done. congruence.
    + cbn [length]. repeat case_decide; try done; lia.
Qed.

Lemma truncate_alloc_spec n inner fs m : world_ok (mkWorld fs m) →
  ∃ r new fs', truncate_alloc n inner fs = Ret (r, inner ++ new, fs') ∧ alloc_effect n inner fs m new fs' ∧
    r = (if decide (length new = n) then Ok tt else Err ENOMEM).
Proof.
  revert inner fs. induction n as [|n IH]; intros inner fs Hw; cbn [truncate_alloc].
  { exists (Ok tt), [], fs. rewrite app_nil_r. split_and!; try done. apply alloc_effect_nil; try done. lia. }
  destruct (world_alloc_ok fs m Hw) as (o & fs1 & E & Hw1 & Hm1 & Ho). rewrite E. step_ret. destruct o as [p|].
  - destruct Ho as (Hp & Hf1 & _ & _ & Hz). destruct (IH (inner ++ [p]) fs1 Hw1) as (r & new & fs' & E' & Heff & ->).
    exists (if decide (length (p :: new) = S n) then Ok tt else Err ENOMEM), (p :: new), fs'.
    split_and!; [|by eapply alloc_effect_cons|done]. rewrite E', <- app_assoc. cbn [app length].
    repeat case_decide; try done; lia.
  - exists (Err ENOMEM), [], fs1. rewrite app_nil_r. destruct Ho as [He He1]. split_and!; try done.
    apply alloc_effect_nil; try done. congruence.
Qed.

(** With enough free frames the loop allocates all it was asked for. *)
Lemma alloc_effect_full n inner fs m new fs' : (n ≤ size (free_frames fs))%nat →
  alloc_effect n inner fs m new fs' → length new = n.
Proof.
  intros Hn (Hl & Hnd & Hsub & Hf & _ & _ & He & _). destruct (decide (length new = n)) as [|Hne]; [done|].
  assert (free_frames fs' = ∅) as E by (apply He; lia). rewrite E in Hf.
  assert (size (free_frames fs) ≤ size (list_to_set new : gset Z))%nat; [apply subseteq_size; set_solver|].
  rewrite size_list_to_set in * by done. lia.
Qed.

(** Memory changed only inside pages that are not free stays well-formed. *)
Lemma world_ok_mem fs m m' pages : world_ok (mkWorld fs m) → Forall (λ p, p mod PAGE_SIZE = 0) pages →
  (∀ p, p ∈ pages → p ∉ free_frames fs) → (∀ x, ¬ in_pages pages x → m' x = m x) → world_ok (mkWorld fs m').
Proof.
  intros [Hok Hz] Hal Hnf Hm. split; [done|]. cbn in *. intros p i Hp Hi. rewrite Hm; [by apply Hz|].
  intros (q & Hq & Hx). assert (p = q) as ->; [|by apply (Hnf q)].
  apply (page_disjoint p q (p + i)); [|by eapply Forall_forall in Hal|lia|done].
  apply (managed_aligned fs p Hok). by apply free_managed.
Qed.

(** A file none of whose pages is touched is unaffected. *)
Lemma file_ok_frame fs m fs' m' pages g : world_ok (mkWorld fs m) → file_ok (mkWorld fs m) g →
  Forall (λ p, p mod PAGE_SIZE = 0) pages → (∀ x, ¬ in_pages pages x → m' x = m x) →
  (∀ p, p ∈ pages → p ∉ rf_pages g) →
  free_frames fs' ⊆ free_frames fs → managed_frames fs' = managed_frames fs →
  file_ok (mkWorld fs' m') g ∧ contents g m' = contents g m.
Proof.
  intros Hw Hg Hal Hm Hd Hf Hmg. pose proof (file_pages_ok _ _ Hw Hg) as [Hnd Hgal].
  assert (∀ k, 0 ≤ k < capacity (rf_pages g) → file_byte (rf_pages g) m' k = file_byte (rf_pages g) m k) as Hb.
  { intros k Hk. unfold file_byte. apply Hm. intros (q & Hq & Hx). apply (Hd q Hq).
    pose proof (lookup_page _ _ Hk) as Hl. pose proof (page_mod k).
    replace q with (rf_pages g !!! Z.to_nat (k / PAGE_SIZE)); [by eapply list_elem_of_lookup_2|].
    eapply page_disjoint; [by eapply Forall_lookup_1 in Hgal|by eapply Forall_forall in Hal| |exact Hx]. lia. }
  destruct Hg as [Hl Hc Hn Ho Ht]. split.
  - split; try done.
    + intros p Hp. destruct (Ho p Hp). cbn in *. rewrite Hmg. split; [done|set_solver].
    + intros k Hk. cbn [w_mem w_frames] in *. rewrite Hb by lia. by apply Ht.
  - unfold contents. apply list_fmap_ext. intros i k Hi. apply lookup_seqZ in Hi. apply Hb. lia.
Qed.

Lemma new_byte_zero inner new m k : capacity inner ≤ k < capacity (inner ++ new) →
  (∀ p i, p ∈ new → 0 ≤ i < PAGE_SIZE → m (p + i) = 0) → file_byte (inner ++ new) m k = 0.
Proof.
  intros Hk Hz. unfold file_byte. apply Hz; [|apply page_mod].
  assert (Z.of_nat (length inner) ≤ k / PAGE_SIZE) as Hlo
    by (apply Z.div_le_lower_bound; [done|unfold capacity in Hk; lia]).
  assert (0 ≤ k / PAGE_SIZE < Z.of_nat (length (inner ++ new))) as Hhi
    by (apply page_index; unfold capacity, PAGE_SIZE in *; lia).
  rewrite lookup_total_app_r by lia. apply list_elem_of_lookup_total_2. rewrite length_app in Hhi. lia.
Qed.

(** New pages extend a file's capacity and nothing else. *)
Lemma alloc_file_ok n w f new fs' : world_ok w → file_ok w f → capacity (rf_pages f ++ new) < USIZE →
  alloc_effect n (rf_pages f) (w_frames w) (w_mem w) new fs' →
  let f' := mkRamFile (rf_name f) (rf_len f) (rf_pages f ++ new) (rf_times f) in
  file_ok (mkWorld fs' (w_mem w)) f' ∧ contents f' (w_mem w) = contents f (w_mem w).
Proof.
  intros Hw [Hl Hc Hn Ho Ht] Hcap (_ & Hnd & Hsub & Hf & Hm & Hw' & _ & Hz) f'.
  assert (0 ≤ capacity new) by (unfold capacity; unfold PAGE_SIZE; lia). split; [split|]; cbn [f' rf_pages rf_len].
  - rewrite capacity_app. lia.
  - done.
  - apply NoDup_app. split_and!; [done| |done]. intros p Hp Hp'. destruct (Ho p Hp). set_solver.
  - intros p Hp. cbn. rewrite Hm, Hf. apply elem_of_app in Hp as [Hp|Hp]; [destruct (Ho p Hp); set_solver|].
    split; [|set_solver]. apply free_managed; [apply Hw|]. set_solver.
  - intros k Hk. cbn [w_mem]. destruct (decide (k < capacity (rf_pages f))).
    + rewrite file_byte_app_l by lia. apply Ht. lia.
    + apply new_byte_zero; [lia|done].
  - unfold contents. cbn [rf_pages rf_len]. apply list_fmap_ext. intros i k Hi. apply lookup_seqZ in Hi. apply file_byte_app_l. lia.
Qed.

Lemma RamFile_readat_spec w f off buf : file_ok w f → 0 ≤ off →
  let data := take (length buf) (drop (Z.to_nat off) (contents f (w_mem w))) in
  RamFile_readat f (w_mem w) off buf = Ret (Ok (Z.of_nat (length data)), buf_write buf data).
Proof.
  intros Hf Ho data. unfold RamFile_readat. case_decide as Hc.
  - assert (data = []) as ->; [|by unfold buf_write; rewrite buf_write_at_nil].
    unfold data. rewrite drop_ge; [by rewrite take_nil|]. rewrite length_contents. lia.
  - pose proof (fo_len w f Hf). set (n := Z.min (Z.of_nat (length buf)) (rf_len f - off)).
    assert (data = file_byte (rf_pages f) (w_mem w) <$> seqZ off n) as ->.
    { unfold data, contents. rewrite <- fmap_drop, <- fmap_take. f_equal.
      replace (rf_len f) with (off + (rf_len f - off)) by lia. rewrite seqZ_app by lia.
      rewrite drop_app_length' by (rewrite length_seqZ; lia). cbn [Z.add].
      destruct (decide (Z.of_nat (length buf) ≤ rf_len f - off)).
      - replace (rf_len f - off) with (n + (rf_len f - off - n)) by lia. rewrite seqZ_app by lia.
        apply take_app_length'. rewrite length_seqZ. lia.
      - rewrite take_ge by (rewrite length_seqZ; lia). f_equal. lia. }
    rewrite read_loop_spec by lia. step_ret. rewrite length_fmap, length_seqZ. do 3 f_equal. lia.
Qed.

(** Writing inside the capacity of a file. *)
Lemma write_in_place w f off buf : world_ok w → file_ok w f → 0 ≤ off → off + Z.of_nat (length buf) ≤ capacity (rf_pages f) →
  let len' := if decide (rf_len f < off + Z.of_nat (length buf)) then off + Z.of_nat (length buf) else rf_len f in
  let f' := mkRamFile (rf_name f) len' (rf_pages f) (rf_times f) in
  ∃ m', write_loop (S (length buf)) (rf_pages f) (w_mem w) off (Z.of_nat (length buf)) 0 buf =
      Ret (m', off + Z.of_nat (length buf)) ∧
    (∀ x, ¬ in_pages (rf_pages f) x → m' x = w_mem w x) ∧
    file_ok (mkWorld (w_frames w) m') f' ∧
    contents f' m' = write_at (contents f (w_mem w)) (Z.to_nat off) buf.
Proof.
  intros Hw Hf Ho Hc len' f'. pose proof (file_pages_ok w f Hw Hf) as Hok.
  destruct (write_loop_spec (S (length buf)) (rf_pages f) (w_mem w) off (Z.of_nat (length buf)) 0 buf)
    as (m' & E & Hin & Hout); try done; try lia.
  exists m'. destruct Hf as [Hl Hcap Hnd Hown Ht]. split_and!; try done.
  - split; cbn [f' rf_pages rf_len]; try done; [unfold len'; case_decide; lia|]. intros k Hk. cbn [w_mem].
    rewrite Hin by (unfold len' in *; case_decide; lia).
    rewrite decide_False by (unfold len' in *; case_decide; lia). apply Ht. unfold len' in *; case_decide; lia.
  - apply list_eq. intros i. rewrite lookup_write_at, !lookup_contents. cbn [f' rf_pages rf_len].
    assert (len' = Z.max (rf_len f) (off + Z.of_nat (length buf))) as -> by (unfold len'; case_decide; lia).
    destruct (decide (Z.of_nat i < Z.max (rf_len f) (off + Z.of_nat (length buf)))) as [Hi|Hi].
    + rewrite Hin by lia. destruct (decide (off ≤ Z.of_nat i < off + Z.of_nat (length buf))) as [Hb|Hb].
      * rewrite decide_False, decide_True by lia. rewrite list_lookup_lookup_total_lt by lia. do 2 f_equal. lia.
      * case_decide as Hlt; [|rewrite decide_False, decide_True by lia; done]. f_equal. case_decide; [done|].
        cbn. apply Ht. lia.
    + rewrite !decide_False by lia. done.
Qed.

(** The pages a write asks for cover it and do not overflow. *)
Lemma write_capacity x len : 0 ≤ x → x + PAGE_SIZE ≤ USIZE → 0 ≤ len * PAGE_SIZE < USIZE →
  x ≤ Z.max len (div_ceil x PAGE_SIZE) * PAGE_SIZE < USIZE.
Proof.
  intros Hx Hu Hl. pose proof (div_ceil_ge x PAGE_SIZE Hx ltac:(done)).
  destruct (div_ceil_bounds x PAGE_SIZE Hx ltac:(done)) as [Hb|[Hb0 Hb1]]; unfold PAGE_SIZE in *; lia.
Qed.

(** The effect of [writeat] when the frame source has enough frames. *)
Lemma RamFile_writeat_spec w f off buf : world_ok w → file_ok w f → 0 ≤ off →
  off + Z.of_nat (length buf) + PAGE_SIZE ≤ USIZE →
  div_ceil (off + Z.of_nat (length buf)) PAGE_SIZE - Z.of_nat (length (rf_pages f)) ≤
    Z.of_nat (size (free_frames (w_frames w))) →
  ∃ f' w', RamFile_writeat f w off buf = Ret (Ok (Z.of_nat (length buf)), f', w') ∧ world_ok w' ∧ file_ok w' f' ∧
    contents f' (w_mem w') = write_at (contents f (w_mem w)) (Z.to_nat off) buf ∧
    (∀ p, p ∈ rf_pages f' → p ∈ rf_pages f ∨ p ∈ free_frames (w_frames w)) ∧
    free_frames (w_frames w') ⊆ free_frames (w_frames w) ∧
    managed_frames (w_frames w') = managed_frames (w_frames w) ∧
    (∀ x, ¬ in_pages (rf_pages f') x → w_mem w' x = w_mem w x).
Proof.
  intros Hw Hf Ho Hu Hfree. unfold RamFile_writeat. rewrite (wrap_small (off + _)) by (unfold is_usize, PAGE_SIZE in *; lia).
  set (need := div_ceil (off + Z.of_nat (length buf)) PAGE_SIZE) in *. set (n := Z.to_nat (need - Z.of_nat (length (rf_pages f)))).
  destruct w as [fs m]. cbn [w_frames w_mem] in *.
  destruct (write_alloc_spec n (rf_pages f) 0 fs m Hw) as (r & new & fs' & E & Heff & ->); [lia|].
  assert (length new = n) as Hnew by (eapply alloc_effect_full; [|exact Heff]; unfold n; lia).
  rewrite E, decide_True by (by left). step_ret. pose proof (fo_cap _ _ Hf) as Hcap.
  destruct (write_capacity (off + Z.of_nat (length buf)) (Z.of_nat (length (rf_pages f)))) as [Hfit Hcap'];
    [lia|lia|unfold capacity, PAGE_SIZE in *; lia|]. fold need in Hfit, Hcap'.
  replace (Z.max _ need * PAGE_SIZE) with (capacity (rf_pages f ++ new)) in *
    by (unfold capacity; rewrite length_app, Hnew; unfold n, PAGE_SIZE; lia).
  destruct (alloc_file_ok n (mkWorld fs m) f new fs' Hw Hf Hcap' Heff) as [Hf1 Hc1].
  destruct Heff as (_ & _ & Hsub & Hfr & Hm & Hw' & _ & _).
  set (f1 := mkRamFile (rf_name f) (rf_len f) (rf_pages f ++ new) (rf_times f)) in *.
  fold (capacity (rf_pages f ++ new)). rewrite (wrap_small (capacity _)) by (unfold is_usize; lia).
  replace (Z.min _ _) with (Z.of_nat (length buf)) by (destruct (decide (off < capacity (rf_pages f ++ new))); lia). rewrite Nat2Z.id.
  destruct (write_in_place (mkWorld fs' m) f1 off buf Hw' Hf1 Ho Hfit) as (m' & Ew & Hout & Hf' & Hc').
  cbn [f1 rf_pages rf_len rf_name rf_times w_mem w_frames] in *. rewrite Ew. step_ret.
  eexists _, _. split; [done|]. cbn [rf_pages w_frames w_mem]. split_and!; try done.
  - eapply world_ok_mem; [exact Hw'|apply (file_pages_ok _ _ Hw' Hf1)| |exact Hout].
    intros p Hp. apply (fo_owned _ _ Hf1 p Hp).
  - rewrite Hc'. by f_equal.
  - intros p Hp%elem_of_app. set_solver.
  - rewrite Hfr. set_solver.
Qed.

(** Clearing keeps the file well-formed at its new, not larger than capacity, length. *)
Lemma truncate_clear_file_ok fs m f size : world_ok (mkWorld fs m) → file_ok (mkWorld fs m) f → 0 ≤ size →
  let m' := truncate_clear (rf_pages f) m size in
  let len' := Z.min size (capacity (rf_pages f)) in
  let f' := mkRamFile (rf_name f) len' (rf_pages f) (rf_times f) in
  world_ok (mkWorld fs m') ∧ file_ok (mkWorld fs m') f' ∧
  contents f' m' = resize_to (contents f m) (Z.to_nat len').
Proof.
  intros Hw Hf Hs m' len' f'. pose proof (file_pages_ok _ _ Hw Hf) as Hok.
  destruct (truncate_clear_spec (rf_pages f) m size Hok Hs) as [Hin Hout]. fold m' in Hin, Hout.
  destruct Hf as [Hl Hcap Hnd Hown Ht]. split_and!.
  - eapply world_ok_mem; [exact Hw|apply Hok| |exact Hout]. intros p Hp. apply (Hown p Hp).
  - split; cbn [f' rf_pages rf_len]; try done; [lia|]. intros k Hk. cbn [w_mem]. rewrite Hin by lia.
    by rewrite decide_False by lia.
  - apply list_eq. intros i. rewrite lookup_resize_to, !lookup_contents. cbn [f' rf_pages rf_len].
    destruct (decide (Z.of_nat i < len')) as [Hi|Hi].
    + rewrite Hin, !decide_True by lia. f_equal. case_decide; [done|]. cbn. apply Ht. lia.
    + by rewrite decide_False by lia.
Qed.

Lemma resize_to_resize c n k : (n ≤ k)%nat → (length c ≤ n)%nat ∨ n = k → resize_to (resize_to c n) k = resize_to c k.
Proof.
  intros Hnk Hc. apply list_eq. intros i. rewrite !lookup_resize_to. case_decide; [|done]. f_equal.
  case_decide; [done|]. rewrite lookup_ge_None_2; [done|lia].
Qed.

(** Raising the length of a file within its capacity appends zeros. *)
Lemma file_grow w f size : file_ok w f → rf_len f ≤ size ≤ capacity (rf_pages f) →
  let f' := mkRamFile (rf_name f) size (rf_pages f) (rf_times f) in
  file_ok w f' ∧ contents f' (w_mem w) = resize_to (contents f (w_mem w)) (Z.to_nat size).
Proof.
  intros [Hl Hcap Hnd Hown Ht] Hs f'. split.
  - split; cbn [f' rf_pages rf_len]; try done; [lia|]. intros k Hk. apply Ht. lia.
  - apply list_eq. intros i. rewrite lookup_resize_to, !lookup_contents. cbn [f' rf_pages rf_len].
    destruct (decide (Z.of_nat i < size)); [rewrite decide_True by lia|by rewrite decide_False by lia].
    f_equal. case_decide; [done|]. cbn. apply Ht. lia.
Qed.

(** [truncate]: the new length is set in any case; the file is well-formed when there were
    enough frames, and too short for its length otherwise. *)
Lemma RamFile_truncate_spec w f size : world_ok w → file_ok w f → 0 ≤ size → size + PAGE_SIZE ≤ USIZE →
  ∃ r f' w', RamFile_truncate f w size = Ret (r, f', w') ∧ world_ok w' ∧ rf_len f' = size ∧
    (div_ceil size PAGE_SIZE - Z.of_nat (length (rf_pages f)) ≤ Z.of_nat (base.size (free_frames (w_frames w))) →
       r = Ok tt ∧ file_ok w' f' ∧ contents f' (w_mem w') = resize_to (contents f (w_mem w)) (Z.to_nat size)) ∧
    (Z.of_nat (base.size (free_frames (w_frames w))) < div_ceil size PAGE_SIZE - Z.of_nat (length (rf_pages f)) →
       r = Err ENOMEM ∧ capacity (rf_pages f') < size).
Proof.
  destruct w as [fs m]. intros Hw Hf Hs Hu. unfold RamFile_truncate. cbn [w_frames w_mem].
  destruct (truncate_clear_file_ok fs m f size Hw Hf Hs) as (Hw1 & Hf1 & Hc1). pose proof (fo_len _ _ Hf) as Hlen.
  set (m1 := truncate_clear (rf_pages f) m size) in *. set (len1 := Z.min size (capacity (rf_pages f))) in *.
  set (f1 := mkRamFile (rf_name f) len1 (rf_pages f) (rf_times f)) in *.
  set (need := div_ceil size PAGE_SIZE). set (n := Z.to_nat (need - Z.of_nat (length (rf_pages f)))).
  destruct (truncate_alloc_spec n (rf_pages f) fs m1 Hw1) as (r & new & fs' & E & Heff & Hr). rewrite E. step_ret.
  eexists _, _, _. split; [done|]. cbn [rf_len rf_pages w_frames w_mem]. split; [apply Heff|]. split; [done|].
  pose proof (fo_cap _ _ Hf) as Hcap.
  destruct (write_capacity size (Z.of_nat (length (rf_pages f))) Hs Hu) as [Hfit Hmax];
    [unfold capacity, PAGE_SIZE in *; lia|]. fold need in Hfit, Hmax. split.
  - intros Hn. assert (length new = n) as Hnew by (eapply alloc_effect_full; [|exact Heff]; unfold n; lia).
    replace (Z.max _ need * PAGE_SIZE) with (capacity (rf_pages f ++ new)) in *
      by (unfold capacity; rewrite length_app, Hnew; unfold n, PAGE_SIZE; lia).
    rewrite decide_True in Hr by done. split; [done|].
    destruct (alloc_file_ok n (mkWorld fs m1) f1 new fs' Hw1 Hf1 Hmax Heff) as [Hf2 Hc2].
    destruct (file_grow _ _ size Hf2) as [Hf3 Hc3]; [cbn [rf_len rf_pages f1]; lia|].
    cbn [f1 rf_name rf_pages rf_times rf_len w_mem w_frames] in *. split; [done|]. rewrite Hc3, Hc2, Hc1.
    apply resize_to_resize; rewrite ?length_contents; lia.
  - intros Hn. destruct Heff as (Hlen' & Hnd & Hsub & _). apply subseteq_size in Hsub.
    rewrite size_list_to_set in Hsub by done. rewrite decide_False in Hr by (unfold n; lia). split; [done|].
    unfold capacity. rewrite length_app.
    destruct (div_ceil_bounds size PAGE_SIZE Hs ltac:(done)) as [Hb|[_ Hb]]; fold need in Hb; unfold PAGE_SIZE in *; lia.
Qed.

(** Reading where a file has a length but no page panics. *)
Lemma readat_past_pages f m off buf : 0 ≤ off → capacity (rf_pages f) ≤ off < rf_len f → buf ≠ [] →
  RamFile_readat f m off buf = Panic.
Proof.
  intros Ho Hc Hb. unfold RamFile_readat. rewrite decide_False by lia.
  set (n := Z.min (Z.of_nat (length buf)) (rf_len f - off)). assert (0 < n) as Hn.
  { destruct buf; [done|]. cbn [length] in *. lia. }
  cbn [read_loop]. rewrite decide_False by (pose proof (curr_size_pos off n Hn); lia).
  by rewrite page_at_none by lia.
Qed.
End refinement.

(** ** Directories

    The shared nodes ([Arc<RamFileInner>], [Arc<RamDirInner>], [Arc<RamLinkInner>]) are
    entries of a store; a child of a directory and an inode handle are node numbers. *)

Inductive RamNode :=
  | NFile (f : RamFileInner)
  | NDir (name : string) (children : list nat)
  | NLink (name : string) (link_file : nat).

Record RamState (FS : Type) := mkRamState { rs_nodes : gmap nat RamNode; rs_next : nat; rs_world : World FS }.
Arguments mkRamState {FS}.
Arguments rs_nodes {FS}.
Arguments rs_next {FS}.
Arguments rs_world {FS}.

(** [FileContainer::filename] *)
Definition node_name (n : RamNode) : string :=
  match n with NFile f => rf_name f | NDir name _ => name | NLink name _ => name end.

Definition has_name (nodes : gmap nat RamNode) (name : string) (id : nat) : bool :=
  match nodes !! id with Some n => bool_decide (node_name n = name) | None => false end.

Definition is_dir (nodes : gmap nat RamNode) (id : nat) : bool :=
  match nodes !! id with Some (NDir _ _) => true | _ => false end.

(** [children.iter().find(|x| x.filename() == name)] *)
Definition find_child (nodes : gmap nat RamNode) (children : list nat) (name : string) : option nat :=
  List.find (has_name nodes name) children.

Section ramdir.
Context {FS : Type} `{FL : FrameSourceLaws FS}.

(** [children.push]: the new node enters the store and the directory's vector. *)
Definition push_child (st : RamState FS) (d : nat) (dname : string) (children : list nat) (n : RamNode) : RamState FS :=
  mkRamState (<[d := NDir dname (children ++ [rs_next st])]> (<[rs_next st := n]> (rs_nodes st)))
    (S (rs_next st)) (rs_world st).

(** The children that [extract_if] leaves. *)
Definition keep_children (st : RamState FS) (d : nat) (dname : string) (children : list nat) (drop : nat → bool) : RamState FS :=
  mkRamState (<[d := NDir dname (List.filter (λ c, negb (drop c)) children)]> (rs_nodes st)) (rs_next st) (rs_world st).

Definition RamFs_new (w : World FS) : RamState FS := mkRamState {[0%nat := NDir "" []]} 1 w.

Definition RamDir_mkdir (d : nat) (dname : string) (children : list nat) (name : string) (st : RamState FS)
    : result unit * RamState FS :=
  match find_child (rs_nodes st) children name with
  | Some _ => (Err EEXIST, st)
  | None => (Ok tt, push_child st d dname children (NDir name []))
  end.

Definition RamDir_lookup (children : list nat) (name : string) (st : RamState FS) : result nat :=
  ok_or (find_child (rs_nodes st) children name) ENOENT.

Definition RamDir_create (d : nat) (dname : string) (children : list nat) (name : string) (ty : FileType) (st : RamState FS)
    : outcome (result unit * RamState FS) :=
  if decide (ty = FT_Directory) then Ret (Ok tt, push_child st d dname children (NDir name []))
  else if decide (ty = FT_File) then
    Ret (Ok tt, push_child st d dname children
                  (NFile (mkRamFile name 0 [] (TimeSpec_default, TimeSpec_default, TimeSpec_default))))
  else Panic.

Definition RamDir_rmdir (d : nat) (dname : string) (children : list nat) (name : string) (st : RamState FS)
    : result unit * RamState FS :=
  let drop c := is_dir (rs_nodes st) c && has_name (rs_nodes st) name c in
  let len := length (List.filter drop children) in
  (if decide (0 < len)%nat then Ok tt else Err ENOENT, keep_children st d dname children drop).

Definition RamDir_remove (d : nat) (dname : string) (children : list nat) (name : string) (st : RamState FS)
    : result unit * RamState FS :=
  let drop c := negb (is_dir (rs_nodes st) c) && has_name (rs_nodes st) name c in
  let len := length (List.filter drop children) in
  (if decide (0 < len)%nat then Ok tt else Err ENOENT, keep_children st d dname children drop).

Definition node_entry (n : RamNode) : DirEntry :=
  match n with
  | NFile f => mkDirEntry (rf_name f) (rf_len f) FT_File
  | NDir name _ => mkDirEntry name 0 FT_Directory
  | NLink name _ => mkDirEntry name 0 FT_Link
  end.

Definition RamDir_read_dir (children : list nat) (st : RamState FS) : list DirEntry :=
  node_entry <$> omap (λ c, rs_nodes st !! c) children.

Definition RamDir_link (d : nat) (dname : string) (children : list nat) (name : string) (src : nat) (st : RamState FS)
    : result unit * RamState FS :=
  match find_child (rs_nodes st) children name with
  | Some _ => (Err EEXIST, st)
  | None => (Ok tt, push_child st d dname children (NLink name src))
  end.

Definition RamDir_stat (stat : Stat) : Stat :=
  mkStat (st_dev stat) 1 S_DIR 1 0 0 0 0 512 0 TimeSpec_default TimeSpec_default TimeSpec_default.

(** [addr] is the address of the [RamLink] object. *)
Definition RamLink_stat (addr : Z) (stat : Stat) : Stat :=
  mkStat (st_dev stat) addr S_LINK (st_nlink stat) 0 0 (st_rdev stat) 3 4096 8 (st_atime stat) (st_mtime stat) (st_ctime stat).

(** The node that reads, writes and truncations of [id] end at, following links. *)
Fixpoint resolve_link (fuel : nat) (nodes : gmap nat RamNode) (id : nat) : nat :=
  match fuel, nodes !! id with
  | S fuel, Some (NLink _ target) => resolve_link fuel nodes target
  | _, _ => id
  end.

Definition put_file (st : RamState FS) (id : nat) (f : RamFileInner) (w : World FS) : RamState FS :=
  mkRamState (<[id := NFile f]> (rs_nodes st)) (rs_next st) w.

Definition ram_default : INode nat (RamState FS) := INode_default.

(** The inode operations of node [id], dispatched on its kind as [to_inode] does. *)
Definition ramfs_readat (id : nat) (off : Z) (buf : list Z) (st : RamState FS)
    : outcome (result Z * list Z * RamState FS) :=
  match rs_nodes st !! resolve_link (S id) (rs_nodes st) id with
  | Some (NFile f) => '(r, buf) ← RamFile_readat f (w_mem (rs_world st)) off buf; Ret (r, buf, st)
  | _ => i_readat ram_default off buf st
  end.

Definition ramfs_writeat (id : nat) (off : Z) (buf : list Z) (st : RamState FS) : outcome (result Z * RamState FS) :=
  let t := resolve_link (S id) (rs_nodes st) id in
  match rs_nodes st !! t with
  | Some (NFile f) => '(r, f, w) ← RamFile_writeat f (rs_world st) off buf; Ret (r, put_file st t f w)
  | _ => i_writeat ram_default off buf st
  end.

Definition ramfs_truncate (id : nat) (size : Z) (st : RamState FS) : outcome (result unit * RamState FS) :=
  let t := resolve_link (S id) (rs_nodes st) id in
  match rs_nodes st !! t with
  | Some (NFile f) => '(r, f, w) ← RamFile_truncate f (rs_world st) size; Ret (r, put_file st t f w)
  | _ => i_truncate ram_default size st
  end.

(** Runs a directory method when [id] is a directory, the trait's default otherwise. *)
Definition on_dir {A} (id : nat) (st : RamState FS) (f : string → list nat → A) (otherwise : A) : A :=
  match rs_nodes st !! id with Some (NDir name children) => f name children | _ => otherwise end.

Definition ramfs_ops (addr : nat → Z) (id : nat) : INode nat (RamState FS) := {|
  i_readat := ramfs_readat id;
  i_writeat := ramfs_writeat id;
  i_create name ty st := on_dir id st (λ dn ch, RamDir_create id dn ch name ty st) (i_create ram_default name ty st);
  i_mkdir name st := on_dir id st (λ dn ch, Ret (RamDir_mkdir id dn ch name st)) (i_mkdir ram_default name st);
  i_rmdir name st := on_dir id st (λ dn ch, Ret (RamDir_rmdir id dn ch name st)) (i_rmdir ram_default name st);
  i_remove name st := on_dir id st (λ dn ch, Ret (RamDir_remove id dn ch name st)) (i_remove ram_default name st);
  i_read_dir st := on_dir id st (λ _ ch, Ret (Ok (RamDir_read_dir ch st))) (i_read_dir ram_default st);
  i_lookup name st := on_dir id st (λ _ ch, Ret (RamDir_lookup ch name st)) (i_lookup ram_default name st);
  i_ioctl := i_ioctl ram_default;
  i_truncate := ramfs_truncate id;
  i_flush := i_flush ram_default;
  i_resolve_link := i_resolve_link ram_default;
  i_link name src st := on_dir id st (λ dn ch, Ret (RamDir_link id dn ch name src st)) (i_link ram_default name src st);
  i_symlink := i_symlink ram_default;
  i_unlink name st := on_dir id st (λ dn ch, Ret (RamDir_remove id dn ch name st)) (i_unlink ram_default name st);
  i_stat stat st := match rs_nodes st !! id with
    | Some (NFile f) => Ret (Ok tt, RamFile_stat f stat)
    | Some (NDir _ _) => Ret (Ok tt, RamDir_stat stat)
    | Some (NLink _ _) => Ret (Ok tt, RamLink_stat (addr id) stat)
    | None => i_stat ram_default stat st
    end;
  i_mount := i_mount ram_default;
  i_umount := i_umount ram_default;
  i_statfs := i_statfs ram_default;
  i_utimes times st := match rs_nodes st !! id with
    | Some (NFile f) => f ← RamFile_utimes f times; Ret (Ok tt, put_file st id f (rs_world st))
    | _ => i_utimes ram_default times st
    end;
  i_poll := i_poll ram_default;
|}.

(** A store is well-formed when numbers from [rs_next] on are unused. *)
Record ram_ok (st : RamState FS) : Prop := {
  ro_fresh id : is_Some (rs_nodes st !! id) → (id < rs_next st)%nat;
  ro_children d name children c : rs_nodes st !! d = Some (NDir name children) → c ∈ children → (c < rs_next st)%nat;
}.

(** The RAM file system discharges the contract of readable inodes. *)
Lemma ramfs_reads_as addr st id f : rs_nodes st !! id = Some (NFile f) → file_ok (rs_world st) f →
  reads_as (ramfs_ops addr) id st (contents f (w_mem (rs_world st))).
Proof.
  intros Hid Hf off buf Ho. cbn [i_readat ramfs_ops]. unfold ramfs_readat.
  assert (resolve_link (S id) (rs_nodes st) id = id) as -> by (cbn [resolve_link]; by rewrite Hid).
  rewrite Hid, RamFile_readat_spec by done. by step_ret.
Qed.
End ramdir.

(** ** Theorems about files *)

Section theorems.
Context {FS : Type} `{FL : FrameSourceLaws FS}.

Lemma resolve_file (nodes : gmap nat RamNode) id f : nodes !! id = Some (NFile f) → resolve_link (S id) nodes id = id.
Proof. intros Hf. cbn [resolve_link]. by rewrite Hf. Qed.

(** A write touches only pages of the file and free frames, so other files keep their bytes. *)
Lemma writeat_frame w f f' w' g : world_ok w → file_ok w g → world_ok w' → file_ok w' f' →
  (∀ p, p ∈ rf_pages f → p ∉ rf_pages g) →
  (∀ p, p ∈ rf_pages f' → p ∈ rf_pages f ∨ p ∈ free_frames (w_frames w)) →
  free_frames (w_frames w') ⊆ free_frames (w_frames w) →
  managed_frames (w_frames w') = managed_frames (w_frames w) →
  (∀ x, ¬ in_pages (rf_pages f') x → w_mem w' x = w_mem w x) →
  file_ok w' g ∧ contents g (w_mem w') = contents g (w_mem w).
Proof.
  intros Hw Hg Hw' Hf' Hd Hp Hfr Hm Hx. destruct w as [fs m], w' as [fs' m']. cbn [w_frames w_mem] in *.
  apply (file_ok_frame fs m fs' m' (rf_pages f')); try done.
  - apply (file_pages_ok _ _ Hw' Hf').
  - intros p Hpf Hpg. destruct (Hp p Hpf) as [H1|H1]; [by apply (Hd p)|].
    by apply (fo_owned _ _ Hg p Hpg).
Qed.
End theorems.

(** C14: a write to a RAM file refines a write to a byte sequence: while the frame source
    has the frames it needs, [writeat] accepts all bytes, and every later read of the
    file sees its old bytes overlaid with the new ones at the offset, a gap being filled
    with zeros; every other file whose pages are disjoint still reads as before; and the
    frame source, the cleared state of free frames and the file invariant are kept. *)
Theorem ramfs_write_refines {FS} `{FL : FrameSourceLaws FS} (addr : nat → Z) (st : RamState FS) (id : nat)
    (f : RamFileInner) (off : Z) (buf : list Z) :
  rs_nodes st !! id = Some (NFile f) → world_ok (rs_world st) → file_ok (rs_world st) f → 0 ≤ off →
  off + Z.of_nat (length buf) + PAGE_SIZE ≤ USIZE →
  div_ceil (off + Z.of_nat (length buf)) PAGE_SIZE - Z.of_nat (length (rf_pages f)) ≤ get_free_pages (w_frames (rs_world st)) →
  ∃ st' f', i_writeat (ramfs_ops addr id) off buf st = Ret (Ok (Z.of_nat (length buf)), st') ∧
    rs_nodes st' = <[id := NFile f']> (rs_nodes st) ∧ world_ok (rs_world st') ∧ file_ok (rs_world st') f' ∧
    reads_as (ramfs_ops addr) id st' (write_at (contents f (w_mem (rs_world st))) (Z.to_nat off) buf) ∧
    ∀ id' g, id' ≠ id → rs_nodes st !! id' = Some (NFile g) → file_ok (rs_world st) g →
      (∀ p, p ∈ rf_pages f → p ∉ rf_pages g) →
      reads_as (ramfs_ops addr) id' st' (contents g (w_mem (rs_world st))).
Proof.
  intros Hid Hw Hf Ho Hu Hfree. rewrite get_free_pages_law in Hfree by apply Hw.
  destruct (RamFile_writeat_spec _ f off buf Hw Hf Ho Hu Hfree) as (f' & w' & E & Hw' & Hf' & Hc & Hp & Hfr & Hm & Hx).
  exists (put_file st id f' w'), f'. cbn [i_writeat ramfs_ops]. unfold ramfs_writeat. rewrite (resolve_file _ _ f Hid), Hid, E. step_ret.
  split_and!; try done.
  - rewrite <- Hc. apply ramfs_reads_as; [|done]. cbn. by rewrite lookup_insert_eq.
  - intros id' g Hne Hg Hgok Hd. destruct (writeat_frame _ f f' w' g Hw Hgok Hw' Hf' Hd Hp Hfr Hm Hx) as [Hg' Hcg].
    rewrite <- Hcg. apply ramfs_reads_as; [|done]. cbn. by rewrite lookup_insert_ne.
Qed.

(** [truncate] refines cutting a byte sequence or extending it with zeros, when the
    frame source has the frames the new length needs. *)
Theorem ramfs_truncate_refines {FS} `{FL : FrameSourceLaws FS} (addr : nat → Z) (st : RamState FS) (id : nat)
    (f : RamFileInner) (size : Z) :
  rs_nodes st !! id = Some (NFile f) → world_ok (rs_world st) → file_ok (rs_world st) f → 0 ≤ size → size + PAGE_SIZE ≤ USIZE →
  div_ceil size PAGE_SIZE - Z.of_nat (length (rf_pages f)) ≤ get_free_pages (w_frames (rs_world st)) →
  ∃ st', i_truncate (ramfs_ops addr id) size st = Ret (Ok tt, st') ∧ world_ok (rs_world st') ∧
    reads_as (ramfs_ops addr) id st' (resize_to (contents f (w_mem (rs_world st))) (Z.to_nat size)).
Proof.
  intros Hid Hw Hf Hs Hu Hfree. rewrite get_free_pages_law in Hfree by apply Hw.
  destruct (RamFile_truncate_spec _ f size Hw Hf Hs Hu) as (r & f' & w' & E & Hw' & _ & Hok & _).
  destruct (Hok Hfree) as (-> & Hf' & Hc). exists (put_file st id f' w'). cbn [i_truncate ramfs_ops].
  unfold ramfs_truncate. rewrite (resolve_file _ _ f Hid), Hid, E. step_ret. split_and!; try done.
  rewrite <- Hc. apply ramfs_reads_as; [|done]. cbn. by rewrite lookup_insert_eq.
Qed.

(** Two ways to a file that panics the kernel when it is read.  A [truncate] that runs
    out of frames answers [ENOMEM] but has already set the new length, so any read between
    the pages it has and that length indexes past the page vector.  And a [writeat] whose
    end wraps around to 0 writes nothing, answers [Ok 0], yet sets the length to its offset
    [2^64 - n], with the same consequence. *)
Theorem ramfs_broken_length {FS} `{FL : FrameSourceLaws FS} (f : RamFileInner) (w : World FS) :
  world_ok w → file_ok w f →
  (∀ size, 0 ≤ size → size + PAGE_SIZE ≤ USIZE →
     get_free_pages (w_frames w) < div_ceil size PAGE_SIZE - Z.of_nat (length (rf_pages f)) →
     ∃ f' w', RamFile_truncate f w size = Ret (Err ENOMEM, f', w') ∧ capacity (rf_pages f') < size ∧
       ∀ off b buf, capacity (rf_pages f') ≤ off < size → RamFile_readat f' (w_mem w') off (b :: buf) = Panic) ∧
  (∀ buf, 0 < Z.of_nat (length buf) → capacity (rf_pages f) < USIZE - Z.of_nat (length buf) →
     ∃ f' w', RamFile_writeat f w (USIZE - Z.of_nat (length buf)) buf = Ret (Ok 0, f', w') ∧
       ∀ b rest, RamFile_readat f' (w_mem w') (capacity (rf_pages f)) (b :: rest) = Panic).
Proof.
  intros Hw Hf. pose proof (fo_len _ _ Hf) as Hl. pose proof (fo_cap _ _ Hf) as Hcap.
  assert (0 ≤ capacity (rf_pages f)) by lia. split.
  - intros size Hs Hu Hlow. rewrite get_free_pages_law in Hlow by apply Hw.
    destruct (RamFile_truncate_spec _ f size Hw Hf Hs Hu) as (r & f' & w' & E & _ & Hlen & _ & Herr).
    destruct (Herr Hlow) as [-> Hc]. exists f', w'. split_and!; try done. intros off b buf Ho.
    apply readat_past_pages; [|lia|done]. pose proof (Nat2Z.is_nonneg (length (rf_pages f'))). unfold capacity, PAGE_SIZE in *. lia.
  - intros buf Hb Hroom. unfold RamFile_writeat.
    replace (wrap (USIZE - Z.of_nat (length buf) + Z.of_nat (length buf))) with 0
      by (replace (USIZE - _ + _) with USIZE by lia; reflexivity).
    replace (div_ceil 0 PAGE_SIZE) with 0 by reflexivity. replace (Z.to_nat (0 - _)) with 0%nat by lia.
    cbn [write_alloc]. step_ret. fold (capacity (rf_pages f)). rewrite (wrap_small (capacity _)) by (unfold is_usize; lia).
    rewrite decide_False, Z.min_r by lia. cbn [Z.to_nat write_loop]. rewrite decide_True by (pose proof (page_mod (USIZE - Z.of_nat (length buf))); lia).
    step_ret. eexists _, _. split; [done|]. intros b rest. cbn [w_mem].
    apply readat_past_pages; [lia| |done]. cbn [rf_pages rf_len]. case_decide; lia.
Qed.

(** ** Theorems about directories *)

Section namespace.
Context {FS : Type} `{FL : FrameSourceLaws FS}.
Variables (st : RamState FS) (d : nat) (dname : string) (children : list nat).
Hypothesis Hd : rs_nodes st !! d = Some (NDir dname children).
Hypothesis Hok : ram_ok st.

Lemma child_fresh c : c ∈ children → (c < rs_next st)%nat.
Proof. intros Hc. by eapply ro_children. Qed.

Lemma dir_fresh : (d < rs_next st)%nat.
Proof. apply (ro_fresh st Hok). rewrite Hd. by eexists. Qed.

Lemma has_name_push n name c : (c < rs_next st)%nat →
  has_name (rs_nodes (push_child st d dname children n)) name c = has_name (rs_nodes st) name c.
Proof.
  intros Hc. unfold has_name, push_child. cbn [rs_nodes]. destruct (decide (c = d)) as [->|].
  - by rewrite lookup_insert_eq, Hd.
  - by rewrite !lookup_insert_ne by lia.
Qed.

Lemma has_name_keep drp name c :
  has_name (rs_nodes (keep_children st d dname children drp)) name c = has_name (rs_nodes st) name c.
Proof.
  unfold has_name, keep_children. cbn [rs_nodes]. destruct (decide (c = d)) as [->|].
  - by rewrite lookup_insert_eq, Hd.
  - by rewrite lookup_insert_ne.
Qed.

Lemma find_ext (p q : nat → bool) l : (∀ x, x ∈ l → p x = q x) → List.find p l = List.find q l.
Proof.
  induction l as [|x l IH]; intros Hl; [done|]. cbn [List.find]. rewrite Hl by (by left).
  rewrite IH; [done|]. intros y Hy. apply Hl. by right.
Qed.

(** Lookup after a push: old names as before, the new name if it was free. *)
Lemma find_child_push n name :
  find_child (rs_nodes (push_child st d dname children n)) (children ++ [rs_next st]) name =
    match find_child (rs_nodes st) children name with
    | Some c => Some c
    | None => if decide (node_name n = name) then Some (rs_next st) else None
    end.
Proof.
  unfold find_child. rewrite find_app. cbn [List.find].
  rewrite (find_ext _ (has_name (rs_nodes st) name)) by (intros x Hx; apply has_name_push; by apply child_fresh).
  destruct (List.find _ children); [done|]. unfold has_name, push_child. cbn [rs_nodes].
  pose proof dir_fresh. rewrite lookup_insert_ne, lookup_insert_eq by lia. by case_bool_decide; case_decide.
Qed.

(** Lookup after extracting children. *)
Lemma find_child_keep drp name : (∀ c, c ∈ children → drp c = true → has_name (rs_nodes st) name c = false) →
  find_child (rs_nodes (keep_children st d dname children drp)) (List.filter (λ c, negb (drp c)) children) name =
    find_child (rs_nodes st) children name.
Proof.
  intros Hdrp. unfold find_child. rewrite (find_ext _ (has_name (rs_nodes st) name)) by (intros; apply has_name_keep).
  clear Hd. assert (∀ l, l ⊆ children → List.find (has_name (rs_nodes st) name) (List.filter (λ c, negb (drp c)) l) =
    List.find (has_name (rs_nodes st) name) l) as Hl; [|by apply Hl].
  induction l as [|x l IH]; intros Hsub; [done|]. cbn [List.filter List.find].
  assert (l ⊆ children) as Hl by set_solver. destruct (drp x) eqn:E; cbn [negb].
  - rewrite Hdrp by (done || set_solver). by apply IH.
  - cbn [List.find]. by rewrite IH.
Qed.

Lemma ram_ok_push n : match n with NFile _ => True | NDir _ ch => ch = [] | NLink _ _ => True end →
  ram_ok (push_child st d dname children n).
Proof.
  intros Hn. pose proof dir_fresh. split; cbn [push_child rs_nodes rs_next].
  - intros id Hid. destruct (decide (id = d)) as [->|]; [lia|]. rewrite lookup_insert_ne in Hid by done.
    destruct (decide (id = rs_next st)) as [->|]; [lia|]. rewrite lookup_insert_ne in Hid by done.
    apply (ro_fresh st Hok) in Hid. lia.
  - intros d' nm ch c Hd' Hc. destruct (decide (d' = d)) as [->|].
    + rewrite lookup_insert_eq in Hd'. injection Hd' as <- <-. apply elem_of_app in Hc as [Hc|Hc].
      * apply child_fresh in Hc. lia.
      * apply list_elem_of_singleton in Hc. lia.
    + rewrite lookup_insert_ne in Hd' by done. destruct (decide (d' = rs_next st)) as [->|].
      * rewrite lookup_insert_eq in Hd'. injection Hd' as ->. rewrite Hn in Hc. by apply elem_of_nil in Hc.
      * rewrite lookup_insert_ne in Hd' by done. pose proof (ro_children st Hok _ _ _ _ Hd' Hc). lia.
Qed.

Lemma ram_ok_keep drp : ram_ok (keep_children st d dname children drp).
Proof.
  pose proof dir_fresh. split; cbn [keep_children rs_nodes rs_next].
  - intros id Hid. destruct (decide (id = d)) as [->|]; [done|]. rewrite lookup_insert_ne in Hid by done.
    by apply (ro_fresh st Hok).
  - intros d' nm ch c Hd' Hc. destruct (decide (d' = d)) as [->|].
    + rewrite lookup_insert_eq in Hd'. injection Hd' as <- <-. apply child_fresh. apply list_elem_of_In, filter_In in Hc as [Hc _].
      by apply list_elem_of_In.
    + rewrite lookup_insert_ne in Hd' by done. by eapply ro_children.
Qed.

Lemma lookup_after_push addr n name :
  i_lookup (ramfs_ops addr d) name (push_child st d dname children n) =
    Ret (ok_or (match find_child (rs_nodes st) children name with
                | Some c => Some c
                | None => if decide (node_name n = name) then Some (rs_next st) else None
                end) ENOENT).
Proof.
  cbn [i_lookup ramfs_ops]. unfold on_dir. cbn [push_child rs_nodes]. rewrite lookup_insert_eq.
  unfold RamDir_lookup. by rewrite <- find_child_push.
Qed.
End namespace.

(** A directory is a name space.  [mkdir] refuses an existing name with [EEXIST] and no
    effect, and otherwise makes the name resolve to a new empty directory; [remove] makes
    the name resolve to no file or link any more and succeeds exactly when there was one;
    neither changes what other names resolve to, and the store stays well-formed.
    [create] does not look for an existing name: on one it succeeds, adds a second entry
    with the same name to the listing, and the name keeps resolving to the old node. *)
Theorem ramdir_namespace {FS} `{FL : FrameSourceLaws FS} (addr : nat → Z) (st : RamState FS) (d : nat)
    (dname : string) (children : list nat) (name : string) :
  rs_nodes st !! d = Some (NDir dname children) → ram_ok st →
  let op := ramfs_ops addr d in
  let look s n := i_lookup op n s in
  (∀ c, look st name = Ret (Ok c) → i_mkdir op name st = Ret (Err EEXIST, st)) ∧
  (look st name = Ret (Err ENOENT) → ∃ st', i_mkdir op name st = Ret (Ok tt, st') ∧ ram_ok st' ∧
     look st' name = Ret (Ok (rs_next st)) ∧ rs_nodes st' !! rs_next st = Some (NDir name []) ∧
     ∀ n, n ≠ name → look st' n = look st n) ∧
  (∃ r st', i_remove op name st = Ret (r, st') ∧ ram_ok st' ∧
     (r = Ok tt ↔ ∃ c, c ∈ children ∧ has_name (rs_nodes st) name c = true ∧ is_dir (rs_nodes st) c = false) ∧
     (∀ c, look st' name = Ret (Ok c) → is_dir (rs_nodes st) c = true) ∧
     ∀ n, n ≠ name → look st' n = look st n) ∧
  (∀ c, look st name = Ret (Ok c) → ∃ st', i_create op name FT_File st = Ret (Ok tt, st') ∧
     look st' name = Ret (Ok c) ∧ rs_nodes st' !! d = Some (NDir dname (children ++ [rs_next st]))).
Proof.
  intros Hd Hok op look. assert (∀ n, look st n = Ret (ok_or (find_child (rs_nodes st) children n) ENOENT)) as Hlook.
  { intros n. unfold look, op. cbn [i_lookup ramfs_ops]. unfold on_dir. by rewrite Hd. }
  split_and!.
  - intros c Hc. rewrite Hlook in Hc. unfold op. cbn [i_mkdir ramfs_ops]. unfold on_dir, RamDir_mkdir. rewrite Hd.
    by destruct (find_child (rs_nodes st) children name).
  - intros Hn. rewrite Hlook in Hn. exists (push_child st d dname children (NDir name [])). split_and!.
    + unfold op. cbn [i_mkdir ramfs_ops]. unfold on_dir, RamDir_mkdir. rewrite Hd.
      by destruct (find_child (rs_nodes st) children name).
    + by apply ram_ok_push.
    + unfold look, op. rewrite lookup_after_push by done. destruct (find_child _ _ name); [done|]. cbn [node_name].
      by rewrite decide_True.
    + pose proof (dir_fresh st d dname children Hd Hok). cbn [push_child rs_nodes].
      by rewrite lookup_insert_ne, lookup_insert_eq by lia.
    + intros n Hne. rewrite Hlook. unfold look, op. rewrite lookup_after_push by done.
      destruct (find_child _ _ n); [done|]. cbn [node_name]. by rewrite decide_False.
  - set (drp := λ c, negb (is_dir (rs_nodes st) c) && has_name (rs_nodes st) name c).
    exists (if decide (0 < length (List.filter drp children))%nat then Ok tt else Err ENOENT), (keep_children st d dname children drp).
    assert (∀ n, look (keep_children st d dname children drp) n =
      Ret (ok_or (find_child (rs_nodes (keep_children st d dname children drp)) (List.filter (λ c, negb (drp c)) children) n) ENOENT)) as Hlook'.
    { intros n. unfold look, op. cbn [i_lookup ramfs_ops]. unfold on_dir. cbn [keep_children rs_nodes]. by rewrite lookup_insert_eq. }
    split_and!.
    + unfold op. cbn [i_remove ramfs_ops]. unfold on_dir. by rewrite Hd.
    + by eapply ram_ok_keep.
    + transitivity (∃ c, c ∈ List.filter drp children).
      * destruct (List.filter drp children) as [|c l]; [split; [done|by intros (c & Hc%elem_of_nil)]|].
        rewrite decide_True by (cbn; lia). split; [|done]. intros _. exists c. by left.
      * apply exist_proper. intros c. rewrite list_elem_of_In, List.filter_In, <- list_elem_of_In. unfold drp.
        rewrite andb_true_iff, negb_true_iff. naive_solver.
    + intros c Hc. rewrite Hlook' in Hc. destruct (find_child _ _ name) as [c'|] eqn:E; [|done]. injection Hc as ->.
      apply List.find_some in E as [Hin Hname]. apply List.filter_In in Hin as [_ Hneg].
      rewrite (has_name_keep st d dname children Hd) in Hname. unfold drp in Hneg. rewrite Hname, andb_true_r, negb_involutive in Hneg. done.
    + intros n Hne. rewrite Hlook, Hlook'. rewrite find_child_keep; [done..|]. intros c _ Hdrp.
      apply andb_true_iff in Hdrp as [_ Hn]. unfold has_name in *. destruct (rs_nodes st !! c); [|done].
      apply bool_decide_eq_true in Hn. apply bool_decide_eq_false. congruence.
  - intros c Hc. rewrite Hlook in Hc. eexists. split_and!.
    + unfold op. cbn [i_create ramfs_ops]. unfold on_dir. rewrite Hd. unfold RamDir_create. by rewrite decide_False, decide_True.
    + unfold look, op. rewrite lookup_after_push by done. by destruct (find_child _ _ name).
    + cbn [push_child rs_nodes]. by rewrite lookup_insert_eq.
Qed.

(** ** Witnesses: a root directory with one empty file, two free frames *)

Definition demo_world : World FrameAllocator := mkWorld [demo_region] (λ _, 0).

Definition demo_inner : RamFileInner := mkRamFile "a" 0 [] (TimeSpec_default, TimeSpec_default, TimeSpec_default).

Definition demo_ram : RamState FrameAllocator :=
  mkRamState {[0%nat := NDir "" [1%nat]; 1%nat := NFile demo_inner]} 2 demo_world.

Lemma demo_world_ok : world_ok demo_world.
Proof. split; [exact demo_fa_wf|]. intros p i _ _. done. Qed.

Lemma demo_file_ok : file_ok demo_world demo_inner.
Proof.
  split.
  - split; reflexivity || discriminate.
  - reflexivity.
  - apply NoDup_nil_2.
  - intros p Hp. by apply elem_of_nil in Hp.
  - intros k Hk. unfold capacity in Hk. cbn in Hk. lia.
Qed.

Lemma demo_ram_ok : ram_ok demo_ram.
Proof.
  split.
  - intros id [n Hn]. unfold demo_ram in *. cbn [rs_nodes rs_next] in *.
    apply lookup_insert_Some in Hn as [[<- _]|[_ Hn]]; [lia|]. apply lookup_singleton_Some in Hn as [<- _]. lia.
  - intros d name ch c Hn Hc. unfold demo_ram in *. cbn [rs_nodes rs_next] in *.
    apply lookup_insert_Some in Hn as [[<- E]|[_ Hn]].
    + injection E as <- <-. apply list_elem_of_singleton in Hc as ->. lia.
    + apply lookup_singleton_Some in Hn as [_ E]. discriminate E.
Qed.

Lemma ramfs_write_refines_witness : ∃ st',
  i_writeat (ramfs_ops (λ _, 0) 1%nat) 2 [5; 6] demo_ram = Ret (Ok 2, st') ∧
  reads_as (ramfs_ops (λ _, 0)) 1%nat st' [0; 0; 5; 6].
Proof.
  destruct (ramfs_write_refines (λ _, 0) demo_ram 1%nat demo_inner 2 [5; 6]) as (st' & f' & E & _ & _ & _ & R & _).
  - reflexivity.
  - exact demo_world_ok.
  - exact demo_file_ok.
  - lia.
  - vm_compute. discriminate.
  - vm_compute. discriminate.
  - exists st'. split; [exact E|exact R].
Defined.

Lemma ramfs_truncate_refines_witness : ∃ st',
  i_truncate (ramfs_ops (λ _, 0) 1%nat) 3 demo_ram = Ret (Ok tt, st') ∧ reads_as (ramfs_ops (λ _, 0)) 1%nat st' [0; 0; 0].
Proof.
  destruct (ramfs_truncate_refines (λ _, 0) demo_ram 1%nat demo_inner 3) as (st' & E & _ & R).
  - reflexivity.
  - exact demo_world_ok.
  - exact demo_file_ok.
  - lia.
  - vm_compute. discriminate.
  - vm_compute. discriminate.
  - exists st'. split; [exact E|exact R].
Defined.

Lemma ramfs_broken_length_witness : ∃ f' w',
  RamFile_truncate demo_inner demo_world 16384 = Ret (Err ENOMEM, f', w') ∧
  RamFile_readat f' (w_mem w') 16383 [0] = Panic.
Proof.
  destruct (ramfs_broken_length demo_inner demo_world demo_world_ok demo_file_ok) as [H _].
  destruct (H 16384) as (f' & w' & E & _ & Hp); [lia|vm_compute; discriminate|reflexivity|].
  exists f', w'. split; [exact E|]. apply Hp. vm_compute in E. injection E as <- <-. vm_compute. split; [discriminate|reflexivity].
Defined.

Lemma ramdir_namespace_witness :
  i_mkdir (ramfs_ops (λ _, 0) 0%nat) "a" demo_ram = Ret (Err EEXIST, demo_ram).
Proof. apply (ramdir_namespace (λ _, 0) demo_ram 0%nat "" [1%nat] "a" eq_refl demo_ram_ok) with (c := 1%nat). reflexivity. Defined.
