(* ===== verification/MemSet.v ===== *)
(** * Memory areas of a process

    Models kernel/src/tasks/memset.rs: the areas of an address space, the subtraction of
    a range from them, which [munmap] and fixed mappings perform, and the write-back of
    file pages.  A page table maps page addresses to frames and permissions
    ([PageTableWrapper] of polyhal, whose table pages are in PageTables); [unmap_page]
    clears one entry.  Frames are counted references ([Arc<FrameTracker>]): an operation reports the
    trackers it drops.  The theorems show that subtraction removes exactly the requested
    addresses, that cutting an end of an area unmaps and releases exactly the cut pages,
    and that splitting an area does neither. *)

From S2P Require Import Prelude Frame.

Inductive MemType := CodeSection | Stack | Mmap | Shared | ShareFile.

#[export] Instance MemType_eq_dec : EqDecision MemType.
Proof. solve_decision. Defined.

Record MapTrack := mkTrack { vaddr : Z; tracker : Z; rwx : Z }.

#[export] Instance MapTrack_eq_dec : EqDecision MapTrack.
Proof. solve_decision. Defined.

(** [F] are the inodes of mapped files. *)
Record MemArea (F : Type) := mkArea {
  mtype : MemType; mtrackers : list MapTrack; afile : option F; aoffset : Z; astart : Z; alen : Z
}.
Arguments mkArea {F}.
Arguments mtype {F}. Arguments mtrackers {F}. Arguments afile {F}.
Arguments aoffset {F}. Arguments astart {F}. Arguments alen {F}.

(** [MappingFlags]: user, readable, writable, executable. *)
Definition MF_U : Z := 2.
Definition MF_R : Z := 4.
Definition MF_W : Z := 8.
Definition MF_X : Z := 16.
Definition URW : Z := 14.
Definition URX : Z := 22.
Definition URWX : Z := 30.

Abbreviation PageTable := (gmap Z (Z * Z)).

Definition unmap_page (pt : PageTable) (va : Z) : PageTable := delete va pt.

(** [UserTask::map], with its alignment assertions. *)
Definition task_map (pt : PageTable) (paddr va flags : Z) : outcome PageTable :=
  if decide (paddr mod PAGE_SIZE = 0 ∧ va mod PAGE_SIZE = 0) then Ret (<[va := (paddr, flags)]> pt) else Panic.

(** [(start..end).contains(&x)] and [(start..end).len()]. *)
Definition range_contains (start end_ x : Z) : bool := bool_decide (start ≤ x < end_).
Definition range_len (start end_ : Z) : Z := if decide (start < end_) then end_ - start else 0.

Section areas.
Context {F : Type}.
Implicit Types (a : MemArea F) (pt : PageTable).

(** A page written back to its file: the file, the offset, the frame and the length. *)
Definition WriteBack : Type := F * Z * Z * Z.

Definition aend a : Z := astart a +u alen a.

Definition area_overlapping a (start end_ : Z) : bool :=
  negb (bool_decide (start ≤ astart a ∧ end_ ≤ astart a) || bool_decide (aend a ≤ start ∧ aend a ≤ end_)).

Definition area_contains a (addr : Z) : bool := bool_decide (astart a ≤ addr ∧ addr < aend a).

(** [assert!(self.file.is_some())] and the write-back of one page. *)
Definition write_page a (x : MapTrack) : outcome (list WriteBack) :=
  match afile a with
  | None => Panic
  | Some file => Ret [(file, (vaddr x +u aoffset a) -u astart a, tracker x, PAGE_SIZE)]
  end.

(** The write-backs of the tracked pages in a range, when the area has a file. *)
Definition write_back a (start end_ : Z) : outcome (list WriteBack) :=
  match afile a with
  | None => Ret []
  | Some _ => foldM (λ acc x, wb ← write_page a x; Ret (acc ++ wb))
                (filter (λ x, range_contains start end_ (vaddr x) = true) (mtrackers a)) []
  end.

Definition set_len a (len : Z) : MemArea F := mkArea (mtype a) (mtrackers a) (afile a) (aoffset a) (astart a) len.
Definition set_range a (start len : Z) : MemArea F := mkArea (mtype a) (mtrackers a) (afile a) (aoffset a) start len.
Definition set_trackers a (l : list MapTrack) : MemArea F := mkArea (mtype a) l (afile a) (aoffset a) (astart a) (alen a).

(** What [sub] leaves behind: the split-off area, the area itself, the page table, the
    pages written back and the trackers dropped. *)
Record SubResult := mkSub {
  sub_new : option (MemArea F); sub_area_ : MemArea F; sub_pt : PageTable; sub_wb : list WriteBack; sub_dropped : list MapTrack
}.

Definition area_sub a (start end_ : Z) pt : outcome SubResult :=
  if negb (area_overlapping a start end_) then Ret (mkSub None a pt [] [])
  else
    let rend := aend a in
    let in_range x := range_contains (astart a) rend x in
    let in_jrange x := range_contains start end_ x in
    if in_range start && in_range end_ then
      let a1 := set_len a (start -u astart a) in
      let in_new x := range_contains end_ rend (vaddr x) in
      wb ← write_back a1 start end_;
      (* [retain] drops the trackers of the new area before [extract_if] looks for them *)
      let dropped := filter (λ x, in_new x = true) (mtrackers a1) in
      let kept := filter (λ x, in_new x = false) (mtrackers a1) in
      let extracted := filter (λ x, in_new x = true) kept in
      let a2 := set_trackers a1 (filter (λ x, in_new x = false) kept) in
      Ret (mkSub (Some (mkArea (mtype a) extracted (afile a) (end_ -u astart a) end_ (range_len end_ rend)))
             a2 pt wb dropped)
    else if in_jrange (astart a) && in_jrange rend then
      let a1 := set_len a 0 in
      wb ← write_back a1 start end_;
      Ret (mkSub None (set_trackers a1 []) (foldl (λ pt x, unmap_page pt (vaddr x)) pt (mtrackers a1)) wb (mtrackers a1))
    else
      let a1 := if in_range start then set_len a (start -u astart a)
                else if in_jrange (astart a) then set_range a end_ ((astart a +u alen a) -u end_)
                else a in
      wb ← write_back a1 start end_;
      let in_self x := range_contains (astart a1) (aend a1) (vaddr x) in
      let removed := filter (λ x, in_self x = false) (mtrackers a1) in
      Ret (mkSub None (set_trackers a1 (filter (λ x, in_self x = true) (mtrackers a1)))
             (foldl (λ pt x, unmap_page pt (vaddr x)) pt removed) wb removed).

(** [Drop for MemArea]: a file-backed shared area writes back the pages nobody else
    holds; [count] is [Arc::strong_count]. *)
Definition area_drop (count : Z → nat) a : outcome (list WriteBack) :=
  match mtype a with
  | ShareFile =>
      mapfile ← unwrap (afile a);
      Ret (omap (λ x, if decide (1 < count (tracker x))%nat then None
                      else let offset := vaddr x -u astart a in
                           Some (mapfile, offset, tracker x, Z.min (alen a -u offset) PAGE_SIZE)) (mtrackers a))
  | _ => Ret []
  end.

(** ** [MemSet] *)

Definition MemSet : Type := list (MemArea F).

Definition set_overlapping (s : MemSet) (start end_ : Z) : bool :=
  match List.find (λ a, area_overlapping a start end_) s with Some _ => true | None => false end.

(** One turn of [retain_mut]; an area of length 0 is removed and dropped. *)
Definition sub_step (count : Z → nat) (start end_ : Z) (acc : MemSet * MemSet * PageTable * list WriteBack * list MapTrack)
    (a : MemArea F) : outcome (MemSet * MemSet * PageTable * list WriteBack * list MapTrack) :=
  let '(kept, new_set, pt, wb, dropped) := acc in
  r ← area_sub a start end_ pt;
  let new_set := match sub_new r with Some n => new_set ++ [n] | None => new_set end in
  if decide (alen (sub_area_ r) ≠ 0) then
    Ret (kept ++ [sub_area_ r], new_set, sub_pt r, wb ++ sub_wb r, dropped ++ sub_dropped r)
  else
    wb' ← area_drop count (sub_area_ r);
    Ret (kept, new_set, sub_pt r, wb ++ sub_wb r ++ wb', dropped ++ sub_dropped r ++ mtrackers (sub_area_ r)).

Definition sub_area (count : Z → nat) (s : MemSet) (start end_ : Z) pt
    : outcome (MemSet * PageTable * list WriteBack * list MapTrack) :=
  '(kept, new_set, pt, wb, dropped) ← foldM (sub_step count start end_) s ([], [], pt, [], []);
  Ret (kept ++ new_set, pt, wb, dropped).

Definition set_clear (s : MemSet) : MemSet := [].
End areas.

(** ** Subtraction removes the requested addresses *)

Section theory.
Context {F : Type}.
Implicit Types (a : MemArea F) (pt : PageTable).

Record area_ok a : Prop := {
  ao_start : 0 ≤ astart a;
  ao_len : 0 ≤ alen a;
  ao_end : astart a + alen a < USIZE;
  ao_file : mtype a = ShareFile → is_Some (afile a);
}.

Lemma aend_eq a : area_ok a → aend a = astart a + alen a.
Proof. intros [??? _]. apply wrap_small. split; lia. Qed.

Lemma area_contains_spec a x : area_ok a → area_contains a x = true ↔ astart a ≤ x < astart a + alen a.
Proof. intros Ha. unfold area_contains. rewrite bool_decide_eq_true, aend_eq by done. lia. Qed.

Lemma area_overlapping_spec a start end_ : area_ok a →
  area_overlapping a start end_ = false ↔
  (start ≤ astart a ∧ end_ ≤ astart a) ∨ (astart a + alen a ≤ start ∧ astart a + alen a ≤ end_).
Proof.
  intros Ha. unfold area_overlapping. rewrite negb_false_iff, orb_true_iff, !bool_decide_eq_true, aend_eq by done. done.
Qed.

Lemma write_back_ret a start end_ : ∃ wb, write_back a start end_ = Ret wb.
Proof.
  unfold write_back. destruct (afile a) as [file|] eqn:E; [|by eexists].
  destruct (foldM_inv (λ acc x, wb ← write_page a x; Ret (acc ++ wb)) (λ _, True)
    (filter (λ x, range_contains start end_ (vaddr x) = true) (mtrackers a)) []) as (wb & Hwb & _); [done| |by exists wb].
  intros x acc _ _. unfold write_page. rewrite E. by eexists.
Qed.

Lemma range_contains_spec s e x : range_contains s e x = true ↔ s ≤ x < e.
Proof. apply bool_decide_eq_true. Qed.

Lemma range_contains_false s e x : range_contains s e x = false ↔ ¬ (s ≤ x < e).
Proof. apply bool_decide_eq_false. Qed.

(** Which of the four ways of cutting [sub] takes, with the ranges it computes. *)
Inductive cut_case a (start end_ : Z) pt : SubResult → Prop :=
  | cut_none : area_overlapping a start end_ = false → cut_case a start end_ pt (mkSub None a pt [] [])
  | cut_split wb : astart a ≤ start → end_ < astart a + alen a →
      cut_case a start end_ pt
        (mkSub (Some (mkArea (mtype a) [] (afile a) (end_ - astart a) end_ (astart a + alen a - end_)))
           (set_trackers (set_len a (start - astart a))
              (filter (λ x, range_contains end_ (astart a + alen a) (vaddr x) = false) (mtrackers a)))
           pt wb (filter (λ x, range_contains end_ (astart a + alen a) (vaddr x) = true) (mtrackers a)))
  | cut_all wb : start ≤ astart a → astart a + alen a < end_ →
      cut_case a start end_ pt
        (mkSub None (set_trackers (set_len a 0) [])
           (foldl (λ pt x, unmap_page pt (vaddr x)) pt (mtrackers a)) wb (mtrackers a))
  | cut_end s l wb : area_overlapping a start end_ = true →
      (astart a ≤ start < astart a + alen a ∧ astart a + alen a ≤ end_ ∧ s = astart a ∧ l = start - astart a ∨
       start < astart a ∧ astart a < end_ ≤ astart a + alen a ∧ s = end_ ∧ l = astart a + alen a - end_) →
      cut_case a start end_ pt
        (mkSub None (set_trackers (set_range a s l) (filter (λ x, range_contains s (s + l) (vaddr x) = true) (mtrackers a)))
           (foldl (λ pt x, unmap_page pt (vaddr x)) pt (filter (λ x, range_contains s (s + l) (vaddr x) = false) (mtrackers a)))
           wb (filter (λ x, range_contains s (s + l) (vaddr x) = false) (mtrackers a))).

Lemma filter_neg_pos (p : MapTrack → bool) (l : list MapTrack) : filter (λ x, p x = true) (filter (λ x, p x = false) l) = [].
Proof. apply list_filter_none, Forall_forall. intros x Hx. apply list_elem_of_filter in Hx as [-> _]. done. Qed.

Lemma filter_neg_neg (p : MapTrack → bool) (l : list MapTrack) : filter (λ x, p x = false) (filter (λ x, p x = false) l) = filter (λ x, p x = false) l.
Proof. rewrite list_filter_filter. apply list_filter_iff. naive_solver. Qed.

(** The tail of [sub] on an area already cut to [s..s + l]. *)
Lemma cut_tail a start end_ pt s l : is_usize (s + l) → ∃ wb,
  (let a1 := set_range a s l in
   wb ← write_back a1 start end_;
   let in_self x := range_contains (astart a1) (aend a1) (vaddr x) in
   let removed := filter (λ x, in_self x = false) (mtrackers a1) in
   Ret (mkSub None (set_trackers a1 (filter (λ x, in_self x = true) (mtrackers a1)))
          (foldl (λ pt x, unmap_page pt (vaddr x)) pt removed) wb removed)) =
  Ret (mkSub None (set_trackers (set_range a s l) (filter (λ x, range_contains s (s + l) (vaddr x) = true) (mtrackers a)))
         (foldl (λ pt x, unmap_page pt (vaddr x)) pt (filter (λ x, range_contains s (s + l) (vaddr x) = false) (mtrackers a)))
         wb (filter (λ x, range_contains s (s + l) (vaddr x) = false) (mtrackers a))).
Proof.
  intros Hu. destruct (write_back_ret (set_range a s l) start end_) as [wb E]. exists wb. cbn zeta. rewrite E. step_ret.
  unfold aend. cbn [astart alen set_range mtrackers]. by rewrite wrap_small.
Qed.

Lemma area_sub_cases a start end_ pt : area_ok a → 0 ≤ start ≤ end_ → end_ < USIZE →
  ∃ r, area_sub a start end_ pt = Ret r ∧ cut_case a start end_ pt r.
Proof.
  intros Ha Hs He. pose proof Ha as [Hst Hl Hend Hfile]. unfold area_sub.
  destruct (area_overlapping a start end_) eqn:Eo; cbn [negb]; [|eexists; split; [done|by constructor]].
  pose proof Eo as Eo'. rewrite <- not_false_iff_true, area_overlapping_spec in Eo' by done. cbn zeta. rewrite !aend_eq by done.
  destruct (range_contains (astart a) (astart a + alen a) start &&
            range_contains (astart a) (astart a + alen a) end_) eqn:E12.
  { apply andb_true_iff in E12 as [E1%range_contains_spec E2%range_contains_spec].
    destruct (write_back_ret (set_len a (start -u astart a)) start end_) as [wb ->]. step_ret.
    unfold range_len. rewrite decide_True, !wrap_small by (unfold is_usize; lia).
    cbn [mtrackers set_len]. rewrite filter_neg_pos, filter_neg_neg. eexists. split; [done|]. apply cut_split; lia. }
  destruct (range_contains start end_ (astart a) && range_contains start end_ (astart a + alen a)) eqn:E34.
  { apply andb_true_iff in E34 as [E3%range_contains_spec E4%range_contains_spec].
    destruct (write_back_ret (set_len a 0) start end_) as [wb ->]. step_ret. eexists. split; [done|].
    cbn [mtrackers set_len]. apply cut_all; lia. }
  apply andb_false_iff in E12. apply andb_false_iff in E34. rewrite !range_contains_false in E12, E34.
  destruct (range_contains (astart a) (astart a + alen a) start) eqn:E1;
    [apply range_contains_spec in E1|apply range_contains_false in E1].
  - rewrite wrap_small by (unfold is_usize; lia). destruct (cut_tail a start end_ pt (astart a) (start - astart a)) as [wb E];
      [unfold is_usize; lia|]. eexists. split; [exact E|]. apply cut_end; [done|]. left. lia.
  - destruct (range_contains start end_ (astart a)) eqn:E3; [apply range_contains_spec in E3|apply range_contains_false in E3; lia].
    rewrite !wrap_small by (unfold is_usize; rewrite ?wrap_small by (unfold is_usize; lia); lia).
    destruct (cut_tail a start end_ pt end_ (astart a + alen a - end_)) as [wb E];
      [unfold is_usize; lia|]. eexists. split; [exact E|]. apply cut_end; [done|]. right. lia.
Qed.

(** The addresses of an area and of a set of areas. *)
Definition in_area a (x : Z) : Prop := astart a ≤ x < astart a + alen a.
Definition in_set (s : list (MemArea F)) (x : Z) : Prop := ∃ a, a ∈ s ∧ in_area a x.

Lemma in_set_app s1 s2 x : in_set (s1 ++ s2) x ↔ in_set s1 x ∨ in_set s2 x.
Proof. unfold in_set. setoid_rewrite elem_of_app. naive_solver. Qed.

Lemma in_set_singleton a x : in_set [a] x ↔ in_area a x.
Proof. unfold in_set. setoid_rewrite list_elem_of_singleton. naive_solver. Qed.

Definition opt_list {A} (o : option A) : list A := match o with Some x => [x] | None => [] end.

Lemma cut_case_covers a start end_ pt r : area_ok a → 0 ≤ start ≤ end_ → end_ < USIZE → cut_case a start end_ pt r →
  area_ok (sub_area_ r) ∧ Forall area_ok (opt_list (sub_new r)) ∧
  ∀ x, in_area (sub_area_ r) x ∨ in_set (opt_list (sub_new r)) x ↔ in_area a x ∧ ¬ (start ≤ x < end_).
Proof.
  intros Ha Hs He Hc. pose proof Ha as [Hst Hl Hend Hfile].
  assert (∀ x, ¬ in_set [] x) as Hnil by (intros x (b & Hb%elem_of_nil & _); done).
  destruct Hc as [Ho|wb H1 H2|wb H1 H2|s l wb Ho Hsl]; cbn [sub_area_ sub_new opt_list]; unfold in_area;
    cbn [astart alen set_trackers set_len set_range].
  - split_and!; [done|by constructor|]. intros x. specialize (Hnil x).
    apply area_overlapping_spec in Ho; [|done]. split; [intros [?|?]; [lia|done]|]. intros ?. left. lia.
  - split_and!; [split; cbn; try done; lia|repeat constructor; cbn; try done; lia|].
    intros x. rewrite in_set_singleton. unfold in_area. cbn. lia.
  - split_and!; [split; cbn; try done; lia|by constructor|]. intros x. specialize (Hnil x). split; [intros [?|?]; [lia|done]|lia].
  - split_and!; [split; cbn; try done; lia|by constructor|]. intros x. specialize (Hnil x).
    split; [intros [?|?]; [lia|done]|]. intros ?. left. lia.
Qed.

Lemma area_drop_ret count a : area_ok a → ∃ wb, area_drop count a = Ret wb.
Proof.
  intros Ha. unfold area_drop. destruct (mtype a) eqn:E; try by eexists.
  destruct (ao_file a Ha E) as [f ->]. cbn [unwrap]. step_ret. by eexists.
Qed.

(** The loop of [sub_area] keeps, of the areas seen so far, the addresses outside the range. *)
Lemma sub_steps_cover count start end_ s kept new pt wb dr : 0 ≤ start ≤ end_ → end_ < USIZE →
  Forall area_ok s → Forall area_ok kept → Forall area_ok new →
  ∃ kept' new' pt' wb' dr', foldM (sub_step count start end_) s (kept, new, pt, wb, dr) = Ret (kept', new', pt', wb', dr') ∧
    Forall area_ok kept' ∧ Forall area_ok new' ∧
    ∀ x, in_set kept' x ∨ in_set new' x ↔ in_set kept x ∨ in_set new x ∨ (in_set s x ∧ ¬ (start ≤ x < end_)).
Proof.
  intros Hs He. revert kept new pt wb dr. induction s as [|a s IH]; intros kept new pt wb dr Hok Hk Hn.
  { exists kept, new, pt, wb, dr. split_and!; try done. intros x. split; [naive_solver|].
    intros [?|[?|[(b & Hb%elem_of_nil & _) _]]]; auto. done. }
  apply Forall_cons in Hok as [Ha Hok]. destruct (area_sub_cases a start end_ pt Ha Hs He) as (r & E & Hc).
  destruct (cut_case_covers _ _ _ _ _ Ha Hs He Hc) as (Ha' & Hn' & Hx). cbn [foldM sub_step]. rewrite E. step_ret.
  assert (match sub_new r with Some n => new ++ [n] | None => new end = new ++ opt_list (sub_new r)) as ->
    by (destruct (sub_new r); [done|by rewrite app_nil_r]).
  assert (∀ x, in_set (a :: s) x ↔ in_area a x ∨ in_set s x) as Hcons.
  { intros x. change (a :: s) with ([a] ++ s). by rewrite in_set_app, in_set_singleton. }
  case_decide as Hz.
  - destruct (IH (kept ++ [sub_area_ r]) (new ++ opt_list (sub_new r)) (sub_pt r) (wb ++ sub_wb r) (dr ++ sub_dropped r))
      as (k' & n' & pt' & wb' & dr' & E' & Hk' & Hn'' & Hx'); [done|by apply Forall_app; auto|by apply Forall_app; auto|].
    exists k', n', pt', wb', dr'. split_and!; try done. intros x. rewrite Hx', Hcons, !in_set_app, in_set_singleton.
    specialize (Hx x). clear -Hx. tauto.
  - destruct (area_drop_ret count (sub_area_ r) Ha') as [wbd ->]. step_ret.
    edestruct (IH kept (new ++ opt_list (sub_new r)) (sub_pt r)) as (k' & n' & pt' & wb' & dr' & E' & Hk' & Hn'' & Hx');
      [done|done|by apply Forall_app; auto|].
    exists k', n', pt', wb', dr'. split_and!; try done. intros x. rewrite Hx', Hcons, !in_set_app.
    specialize (Hx x). assert (¬ in_area (sub_area_ r) x) as Hno by (unfold in_area; lia). clear -Hx Hno. tauto.
Qed.

Lemma foldl_unmap_lookup (l : list MapTrack) pt va :
  foldl (λ pt x, unmap_page pt (vaddr x)) pt l !! va = if decide (va ∈ vaddr <$> l) then None else pt !! va.
Proof.
  revert pt. induction l as [|x l IH]; intros pt; cbn [foldl]; [done|]. rewrite IH. unfold unmap_page.
  change (vaddr <$> x :: l) with (vaddr x :: (vaddr <$> l)).
  destruct (decide (va = vaddr x)) as [->|Hne].
  - rewrite lookup_delete_eq. rewrite (decide_True (P := vaddr x ∈ vaddr x :: _)) by (by left). by case_decide.
  - rewrite lookup_delete_ne by done. repeat case_decide; try done; exfalso; set_solver.
Qed.
End theory.


(** Cutting the head or the tail off an area, or all of it, is exact for its pages: the
    area keeps exactly the trackers outside the range, the others are released, and exactly
    their pages are unmapped; no area is split off. *)
Theorem area_cut_unmaps {F} (a : MemArea F) (start end_ : Z) (pt : PageTable) :
  area_ok a → 0 ≤ start < end_ → end_ < USIZE → Forall (λ x, area_contains a (vaddr x) = true) (mtrackers a) →
  start ≤ astart a ∨ astart a + alen a ≤ end_ → ¬ (astart a = start ∧ end_ < astart a + alen a) →
  ∃ r, area_sub a start end_ pt = Ret r ∧ sub_new r = None ∧
    mtrackers (sub_area_ r) = filter (λ x, range_contains start end_ (vaddr x) = false) (mtrackers a) ∧
    sub_dropped r = filter (λ x, range_contains start end_ (vaddr x) = true) (mtrackers a) ∧
    ∀ va, sub_pt r !! va = if decide (va ∈ vaddr <$> sub_dropped r) then None else pt !! va.
Proof.
  intros Ha Hs He Ht Hend Hne. destruct (area_sub_cases a start end_ pt Ha ltac:(lia) He) as (r & E & Hc).
  exists r. split; [done|]. rewrite Forall_forall in Ht. setoid_rewrite area_contains_spec in Ht; [|done].
  destruct Hc as [Ho|wb H1 H2|wb H1 H2|s l wb Ho Hsl]; [|exfalso; lia| |];
    cbn [sub_new sub_area_ sub_dropped sub_pt mtrackers set_trackers]; (split; [done|]).
  - apply area_overlapping_spec in Ho; [|done]. split_and!.
    + symmetry. apply list_filter_all. intros x Hx. apply range_contains_false. specialize (Ht x Hx). lia.
    + symmetry. apply list_filter_none, Forall_forall. intros x Hx. rewrite range_contains_spec. specialize (Ht x Hx). lia.
    + intros va. by rewrite decide_False by (by intros Hv%elem_of_nil).
  - split_and!.
    + symmetry. apply list_filter_none, Forall_forall. intros x Hx. rewrite range_contains_false. specialize (Ht x Hx). lia.
    + symmetry. apply list_filter_all. intros x Hx. apply range_contains_spec. specialize (Ht x Hx). lia.
    + intros va. apply foldl_unmap_lookup.
  - assert (∀ x, x ∈ mtrackers a → range_contains s (s + l) (vaddr x) = negb (range_contains start end_ (vaddr x))) as Hx.
    { intros x Hx. specialize (Ht x Hx). unfold range_contains. repeat case_bool_decide; try done; exfalso; lia. }
    split_and!.
    + apply list_filter_ext. intros x Hin. rewrite Hx by done. by destruct (range_contains start end_ (vaddr x)).
    + apply list_filter_ext. intros x Hin. rewrite Hx by done. by destruct (range_contains start end_ (vaddr x)).
    + intros va. apply foldl_unmap_lookup.
Qed.

(** Splitting an area does not unmap anything and loses pages: when the range lies
    inside an area and does not reach its end, the page table is left as it was, so every
    page of the range stays mapped and tracked; and every tracker above the range is
    dropped, so no area tracks those pages any more although the page table still maps them
    to the released frames. *)
Theorem area_split_dangles {F} (a : MemArea F) (start end_ : Z) (pt : PageTable) :
  area_ok a → astart a ≤ start < end_ → end_ < astart a + alen a →
  Forall (λ x, area_contains a (vaddr x) = true ∧ fst <$> pt !! vaddr x = Some (tracker x)) (mtrackers a) →
  ∃ r n, area_sub a start end_ pt = Ret r ∧ sub_new r = Some n ∧ mtrackers n = [] ∧ sub_pt r = pt ∧
    (∀ x, x ∈ mtrackers a → end_ ≤ vaddr x →
       area_contains n (vaddr x) = true ∧ x ∈ sub_dropped r ∧ (x ∉ mtrackers (sub_area_ r)) ∧ fst <$> sub_pt r !! vaddr x = Some (tracker x)) ∧
    (∀ x, x ∈ mtrackers a → start ≤ vaddr x < end_ →
       x ∈ mtrackers (sub_area_ r) ∧ fst <$> sub_pt r !! vaddr x = Some (tracker x)).
Proof.
  intros Ha Hs He Ht. pose proof Ha as [Hst Hl Hend _].
  destruct (area_sub_cases a start end_ pt Ha ltac:(lia) ltac:(lia)) as (r & E & Hc). exists r.
  rewrite Forall_forall in Ht. destruct Hc as [Ho|wb H1 H2|wb H1 H2|s l wb Ho Hsl]; [|clear Hs|lia|lia].
  { apply area_overlapping_spec in Ho; [|done]. lia. }
  eexists. split; [done|]. cbn [sub_new sub_area_ sub_dropped sub_pt mtrackers set_trackers]. split_and!; try done.
  - intros x Hx Hv. destruct (Ht x Hx) as [Hin Hpt]. apply area_contains_spec in Hin; [|done].
    rewrite !list_elem_of_filter, range_contains_spec, range_contains_false. split_and!; try done; try lia.
    unfold area_contains, aend. cbn [astart alen]. rewrite bool_decide_eq_true, wrap_small by (unfold is_usize; lia). lia.
  - intros x Hx Hv. destruct (Ht x Hx) as [Hin Hpt]. rewrite list_elem_of_filter, range_contains_false. split_and!; try done; lia.
Qed.

(** Cutting the head off a file mapping writes its dirty pages back to the wrong place:
    the area's start has already moved to the end of the range when the file offset is
    computed, so a page of the range is written [end_ - vaddr] bytes before offset
    [aoffset], which for a mapping of the start of the file wraps around to an offset near
    the top of the 64-bit range. *)
Theorem head_cut_write_offset {F} (a : MemArea F) (file : F) (start end_ : Z) (pt : PageTable) (x : MapTrack) :
  area_ok a → 0 ≤ start < astart a → astart a < end_ < astart a + alen a → afile a = Some file →
  mtrackers a = [x] → astart a ≤ vaddr x < end_ → 0 ≤ aoffset a → vaddr x + aoffset a < end_ →
  ∃ r, area_sub a start end_ pt = Ret r ∧
    sub_wb r = [(file, USIZE - (end_ - vaddr x - aoffset a), tracker x, PAGE_SIZE)].
Proof.
  intros [Hst Hl Hend _] Hs He Hf Hx Hv Ho Hlow. unfold area_sub, area_overlapping, aend.
  rewrite (wrap_small (astart a + alen a)) by (unfold is_usize; lia).
  rewrite !bool_decide_eq_false_2 by lia. cbn [orb negb].
  assert (range_contains (astart a) (astart a + alen a) start = false) as -> by (apply range_contains_false; lia).
  assert (range_contains start end_ (astart a + alen a) = false) as -> by (apply range_contains_false; lia).
  assert (range_contains start end_ (astart a) = true) as -> by (apply range_contains_spec; lia). cbn [andb].
  unfold write_back, write_page. cbn [afile set_range mtrackers aoffset astart]. rewrite Hf, Hx.
  rewrite (list_filter_all (λ x, range_contains start end_ (vaddr x) = true))
    by (intros y ->%list_elem_of_singleton; apply range_contains_spec; lia).
  cbn [foldM]. step_ret. cbn [app].
  eexists. split; [done|]. cbn [sub_wb]. rewrite (wrap_small (vaddr x + aoffset a)) by (unfold is_usize; lia).
  assert (wrap (vaddr x + aoffset a - end_) = USIZE - (end_ - vaddr x - aoffset a)) as ->; [|done].
  unfold wrap. rewrite <- (Z_mod_plus_full (vaddr x + aoffset a - end_) 1 USIZE), Z.mod_small; lia.
Qed.

(** ** Witnesses *)

Definition demo_area : MemArea unit :=
  mkArea Mmap [mkTrack 0x1000 0x80000 7; mkTrack 0x2000 0x81000 7; mkTrack 0x3000 0x82000 7] None 0 0x1000 0x3000.

Definition demo_pt : PageTable := {[0x1000 := (0x80000, URWX); 0x2000 := (0x81000, URWX); 0x3000 := (0x82000, URWX)]}.

Lemma demo_area_ok : area_ok demo_area.
Proof. split; cbn; [lia|lia|reflexivity|discriminate]. Qed.


Lemma area_cut_unmaps_witness : ∃ r, area_sub demo_area 0x2000 0x5000 demo_pt = Ret r ∧
  mtrackers (sub_area_ r) = [mkTrack 0x1000 0x80000 7].
Proof.
  destruct (area_cut_unmaps demo_area 0x2000 0x5000 demo_pt) as (r & E & _ & Ht & _).
  - exact demo_area_ok.
  - lia.
  - reflexivity.
  - repeat constructor.
  - right. cbn. lia.
  - cbn. lia.
  - exists r. split; [exact E|]. rewrite Ht. reflexivity.
Defined.

Lemma area_split_dangles_witness : ∃ r n, area_sub demo_area 0x2000 0x3000 demo_pt = Ret r ∧ sub_new r = Some n ∧
  mtrackers n = [] ∧ fst <$> sub_pt r !! 0x3000 = Some 0x82000.
Proof.
  destruct (area_split_dangles demo_area 0x2000 0x3000 demo_pt) as (r & n & E & Hn & Hm & Hpt & _).
  - exact demo_area_ok.
  - cbn. lia.
  - cbn. lia.
  - repeat constructor; reflexivity.
  - exists r, n. split_and!; try done. rewrite Hpt. reflexivity.
Defined.

Lemma head_cut_write_offset_witness : ∃ r,
  area_sub (mkArea ShareFile [mkTrack 0x1000 0x80000 7] (Some tt) 0 0x1000 0x3000) 0 0x2000 demo_pt = Ret r ∧
  sub_wb r = [(tt, 0xFFFFFFFFFFFFF000, 0x80000, 0x1000)].
Proof.
  destruct (head_cut_write_offset (mkArea ShareFile [mkTrack 0x1000 0x80000 7] (Some tt) 0 0x1000 0x3000) tt 0 0x2000 demo_pt
    (mkTrack 0x1000 0x80000 7)) as (r & E & H).
  - split; cbn; [lia|lia|reflexivity|eauto].
  - cbn. lia.
  - cbn. lia.
  - reflexivity.
  - reflexivity.
  - cbn. lia.
  - cbn. lia.
  - cbn. lia.
  - exists r. split; [exact E|]. exact H.
Defined.
