(* ===== verification/Executor.v ===== *)
(** * The task executor

    Models crates/executor: the FIFO run queue, one turn of the executor loop, task
    numbers and the task map, the [Yield] and [Select] futures.  A future is a value of
    type [T] with a poll function over the rest of the kernel state [W]; a poll may spawn
    tasks, which go to the end of the queue before a pending future does. *)

From S2P Require Import Prelude Vfs Pipe.

(** ** Futures *)

(** [Yield(bool)] *)
Definition Yield_new : bool := false.

Definition Yield_poll (polled : bool) : Poll unit * bool :=
  if polled then (Ready tt, polled) else (Pending, true).

Inductive Either (A B : Type) := Left (a : A) | Right (b : B).
Arguments Left {A B} a.
Arguments Right {A B} b.

(** [Select] over two futures with outputs [OA] and [OB]; [None] is the state after the
    futures have been taken out. *)
Definition Select_poll {A B OA OB W} (poll_a : A → W → outcome (Poll OA * A * W)) (poll_b : B → W → outcome (Poll OB * B * W))
    (inner : option (A * B)) (w : W) : outcome (Poll (Either (OA * B) (OB * A)) * option (A * B) * W) :=
  match inner with
  | None => Panic
  | Some (a, b) =>
      '(pa, a, w) ← poll_a a w;
      match pa with
      | Ready va => Ret (Ready (Left (va, b)), None, w)
      | Pending =>
          '(pb, b, w) ← poll_b b w;
          match pb with
          | Ready vb => Ret (Ready (Right (vb, a)), None, w)
          | Pending => Ret (Pending, Some (a, b), w)
          end
      end
  end.

Section executor.
Context {T W : Type}.

(** A queued task: its number and its future. *)
Record AsyncTaskItem := mkItem { item_task : Z; item_future : T }.

(** What a poll of a task's future returns: its state when pending, the new kernel state,
    and the tasks it spawned. *)
Variable poll : Z → T → W → outcome (option T * W * list AsyncTaskItem).

Record Exec := mkExec {
  task_queue : list AsyncTaskItem;
  task_map : gset Z;              (* the keys of [TASK_MAP] *)
  last_task_id : Z;
  current : option Z;             (* the task on this core *)
  kernel : W;
}.

Definition task_id_alloc (e : Exec) : Z * Exec :=
  let id := last_task_id e +u 1 in
  (id, mkExec (task_queue e) (task_map e) id (current e) (kernel e)).

Definition spawn (e : Exec) (item : AsyncTaskItem) : Exec :=
  mkExec (task_queue e ++ [item]) ({[item_task item]} ∪ task_map e) (last_task_id e) (current e) (kernel e).

Definition spawn_blank (e : Exec) (future : T) : Exec :=
  let '(id, e) := task_id_alloc e in spawn e (mkItem id future).

(** [upgrade] succeeds when the task object is still alive. *)
Definition tid2task (alive : Z → bool) (e : Exec) (tid : Z) : option Z :=
  if decide (tid ∈ task_map e) then if alive tid then Some tid else None else None.

Definition release_task (e : Exec) (tid : Z) : Exec :=
  mkExec (task_queue e) (task_map e ∖ {[tid]}) (last_task_id e) (current e) (kernel e).

Definition current_task (e : Exec) : outcome Z := unwrap (current e).

(** One turn of the loop of [run]. *)
Definition run_ready_task (e : Exec) : outcome Exec :=
  match task_queue e with
  | [] => Ret e
  | item :: queue =>
      '(r, w, spawned) ← poll (item_task item) (item_future item) (kernel e);
      let e1 := mkExec queue (task_map e) (last_task_id e) (Some (item_task item)) w in
      let e2 := foldl spawn e1 spawned in
      match r with
      | None => Ret e2
      | Some future =>
          Ret (mkExec (task_queue e2 ++ [mkItem (item_task item) future]) (task_map e2) (last_task_id e2) (current e2) (kernel e2))
      end
  end.

(** [n] turns of the loop. *)
Fixpoint run (n : nat) (e : Exec) : outcome Exec :=
  match n with O => Ret e | S n => e ← run_ready_task e; run n e end.

Lemma foldl_spawn_queue l e : task_queue (foldl spawn e l) = task_queue e ++ l.
Proof. revert e. induction l as [|x l IH]; intros e; cbn [foldl]; [by rewrite app_nil_r|]. rewrite IH. cbn. by rewrite <- app_assoc. Qed.

(** A turn removes the front of the queue and only appends to the rest. *)
Lemma run_ready_task_queue e e' item queue : task_queue e = item :: queue → run_ready_task e = Ret e' →
  ∃ more, task_queue e' = queue ++ more.
Proof.
  intros Hq. unfold run_ready_task. rewrite Hq. destruct (poll _ _ _) as [[[r w] spawned]|]; [|done]. step_ret.
  destruct r as [future|]; intros [= <-]; cbn [task_queue]; rewrite foldl_spawn_queue; cbn [task_queue]; rewrite <- ?app_assoc; by eexists.
Qed.

Lemma run_queue n e e' front rest : length front = n → task_queue e = front ++ rest → run n e = Ret e' →
  ∃ more, task_queue e' = rest ++ more.
Proof.
  revert e front rest. induction n as [|n IH]; intros e front rest Hn Hq Hr; cbn [run] in Hr.
  - destruct front; [|done]. injection Hr as <-. exists []. by rewrite app_nil_r, Hq.
  - destruct front as [|item front]; [done|]. destruct (run_ready_task e) as [e1|] eqn:E1; [|done].
    destruct (run_ready_task_queue e e1 item (front ++ rest)) as [more Hmore]; [done|done|].
    rewrite <- app_assoc in Hmore. destruct (IH e1 front (rest ++ more)) as [more' H']; [cbn in Hn; lia|done|done|].
    exists (more ++ more'). by rewrite H', <- app_assoc.
Qed.

Lemma run_app n m e : run (n + m) e = (e ← run n e; run m e).
Proof. revert e. induction n as [|n IH]; intros e; [done|]. cbn [run plus]. destruct (run_ready_task e); [apply IH|done]. Qed.
End executor.
Arguments AsyncTaskItem : clear implicits.
Arguments Exec : clear implicits.

(** C20: the executor is fair: as long as no poll panics, the task at position [i] of the
    run queue is polled at exactly the turn [i + 1], whatever the tasks before it do and
    however many tasks they spawn; and a task whose poll is pending is queued again behind
    the tasks that were waiting, so it is polled again within the next [queue length]
    turns. *)
Theorem executor_round_robin {T W} (poll : Z → T → W → outcome (option T * W * list (AsyncTaskItem T)))
    (e e' : Exec T W) (i : nat) (item : AsyncTaskItem T) :
  task_queue e !! i = Some item → run poll i e = Ret e' →
  ∃ rest, task_queue e' = item :: rest ∧ drop (S i) (task_queue e) `prefix_of` rest ∧
    ∀ r w spawned e'', poll (item_task item) (item_future item) (kernel e') = Ret (r, w, spawned) →
      run poll (S i) e = Ret e'' →
      current e'' = Some (item_task item) ∧ kernel e'' = w ∧
      task_queue e'' = rest ++ spawned ++ match r with Some future => [mkItem (item_task item) future] | None => [] end.
Proof.
  intros Hi Hr. pose proof (take_drop_middle _ _ _ Hi) as Hq.
  destruct (run_queue poll i e e' (take i (task_queue e)) (item :: drop (S i) (task_queue e))) as [more Hm]; [|done|done|].
  { rewrite length_take. apply lookup_lt_Some in Hi. lia. }
  exists (drop (S i) (task_queue e) ++ more). split_and!; [done|by apply prefix_app_r|].
  intros r w spawned e'' Hp Hrun. replace (S i) with (i + 1)%nat in Hrun by lia. rewrite run_app, Hr in Hrun.
  cbn [run] in Hrun. revert Hrun. unfold run_ready_task. step_ret. cbn [run]. unfold run_ready_task.
  rewrite Hm. cbn [app]. rewrite Hp. step_ret.
  set (e2 := foldl spawn _ spawned). assert (current e2 = Some (item_task item) ∧ kernel e2 = w) as [Hc Hk].
  { unfold e2. assert (∀ l (x : Exec T W), current (foldl spawn x l) = current x ∧ kernel (foldl spawn x l) = kernel x) as H.
    { induction l as [|y l IH]; intros x; [done|]. cbn [foldl]. destruct (IH (spawn x y)) as [-> ->]. done. }
    destruct (H spawned (mkExec (drop (S i) (task_queue e) ++ more) (task_map e') (last_task_id e') (Some (item_task item)) w)) as [-> ->]. done. }
  assert (task_queue e2 = (drop (S i) (task_queue e) ++ more) ++ spawned) as Hqq by apply foldl_spawn_queue.
  destruct r as [future|]; intros [= <-]; cbn [current kernel task_queue]; rewrite ?Hqq, ?app_nil_r, <- ?app_assoc; done.
Qed.

(** Task numbers are handed out in increasing order, so they are distinct until the counter
    wraps around. *)
Lemma task_ids_increase {T W} (e : Exec T W) : 0 ≤ last_task_id e < usize_max →
  let '(id, e') := task_id_alloc e in last_task_id e < id ∧ last_task_id e' = id ∧ task_queue e' = task_queue e.
Proof. intros. unfold task_id_alloc. unfold usize_max in *. cbn. rewrite wrap_small by (unfold is_usize, USIZE; lia). split_and!; try done; lia. Qed.

(** A spawned task is found by its number until it is released or its object is gone. *)
Lemma spawn_release {T W} (e : Exec T W) (item : AsyncTaskItem T) (alive : Z → bool) :
  tid2task alive (spawn e item) (item_task item) = (if alive (item_task item) then Some (item_task item) else None) ∧
  tid2task alive (release_task (spawn e item) (item_task item)) (item_task item) = None.
Proof. unfold tid2task. cbn. by rewrite decide_True, decide_False by set_solver. Qed.

(** ** Witness: two tasks, the first of which spawns a third and stays pending *)

Definition demo_poll (id : Z) (t : nat) (w : list Z) : outcome (option nat * list Z * list (AsyncTaskItem nat)) :=
  Ret (if decide (t = 0%nat) then None else Some (pred t), w ++ [id], if decide (t = 2%nat) then [mkItem 9 0%nat] else []).

Lemma executor_round_robin_witness : ∃ rest,
  task_queue (mkExec [mkItem 2 0%nat; mkItem 9 0%nat; mkItem 1 1%nat] {[9]} 2 (Some 1) [1]) = mkItem 2 0%nat :: rest ∧
  [] `prefix_of` rest.
Proof.
  destruct (executor_round_robin demo_poll (mkExec [mkItem 1 2%nat; mkItem 2 0%nat] ∅ 2 None [])
    (mkExec [mkItem 2 0%nat; mkItem 9 0%nat; mkItem 1 1%nat] {[9]} 2 (Some 1) [1]) 1 (mkItem 2 0%nat)) as (rest & Hq & Hp & _).
  - reflexivity.
  - vm_compute. reflexivity.
  - exists rest. split; [exact Hq|exact Hp].
Defined.
