(* ===== verification/Futex.v ===== *)
(** * Futexes and waiting

    Models kernel/src/tasks/async_ops.rs and [sys_futex] of kernel/src/syscall/task.rs.
    The futex table maps addresses to queues of waiting task numbers; it is a BTreeMap, so
    its values are visited in the order of the addresses.  A waiting system call is the
    future [FutexWait], polled with the table, the signal state and the clock. *)

From Stdlib Require Import Sorted.
From S2P Require Import Prelude Vfs Pipe Executor.

(** ** The table: an association list sorted by address *)

Definition FutexTable : Type := list (Z * list Z).

Fixpoint ft_get (t : FutexTable) (k : Z) : option (list Z) :=
  match t with
  | [] => None
  | (k', q) :: t => if decide (k = k') then Some q else ft_get t k
  end.

(** [insert], and storing through [get_mut]. *)
Fixpoint ft_insert (t : FutexTable) (k : Z) (q : list Z) : FutexTable :=
  match t with
  | [] => [(k, q)]
  | (k', q') :: t' =>
      if decide (k = k') then (k, q) :: t'
      else if decide (k < k') then (k, q) :: t
      else (k', q') :: ft_insert t' k q
  end.

Definition contains_id (task_id : Z) (q : list Z) : bool := bool_decide (task_id ∈ q).

Definition in_futex (t : FutexTable) (task_id : Z) : bool :=
  match List.find (λ e, contains_id task_id e.2) t with Some _ => true | None => false end.

(** [values_mut().find(..).map(|x| x.retain(..))]: only the first queue is changed. *)
Fixpoint remove_first (t : FutexTable) (task_id : Z) : FutexTable :=
  match t with
  | [] => []
  | (k, q) :: t => if contains_id task_id q then (k, filter (λ x, x ≠ task_id) q) :: t else (k, q) :: remove_first t task_id
  end.

(** ** Futures *)

Definition NextTick_poll (deadline curr : Z) : Poll unit := if decide (curr < deadline) then Pending else Ready tt.

Definition WaitUntilsec_poll (deadline ns : Z) : Poll unit := if decide (deadline < ns) then Ready tt else Pending.

(** [WaitFutex]: [has_signal] is whether the current task has a pending signal. *)
Definition WaitFutex_poll (task_id : Z) (has_signal : bool) (t : FutexTable) : Poll (result Z) * FutexTable :=
  if in_futex t task_id then
    if has_signal then (Ready (Err EINTR), remove_first t task_id) else (Pending, t)
  else (Ready (Ok 0), t).

(** [WaitPid]: the children with their exit codes, in order. *)
Definition WaitPid_poll (children : list (Z * option Z)) (pid : Z) : Poll (result Z) :=
  match List.find (λ c, bool_decide ((pid = -1 ∨ c.1 = wrap pid) ∧ is_Some c.2)) children with
  | Some c => Ready (Ok c.1)
  | None => Pending
  end.

(** ** Wake and requeue *)

(** [drain(..n)] panics when the vector is shorter. *)
Definition drain (q : list Z) (n : Z) : outcome (list Z * list Z) :=
  if decide (n ≤ Z.of_nat (length q)) then Ret (take (Z.to_nat n) q, drop (Z.to_nat n) q) else Panic.

Definition futex_wake (t : FutexTable) (uaddr wake_count : Z) : outcome (Z * FutexTable) :=
  let que_size := match ft_get t uaddr with Some q => Z.of_nat (length q) | None => 0 end in
  if decide (que_size = 0) then Ret (0, t)
  else
    match ft_get t uaddr with
    | Some q => '(woken, rest) ← drain q (Z.min wake_count que_size); Ret (Z.of_nat (length woken), ft_insert t uaddr rest)
    | None => Ret (0, t)
    end.

Definition futex_requeue (t : FutexTable) (uaddr wake_count uaddr2 reque_count : Z) : outcome (Z * FutexTable) :=
  '(waked_size, t) ← match ft_get t uaddr with
    | Some q => '(woken, rest) ← drain q wake_count; Ret (Z.of_nat (length woken), ft_insert t uaddr rest)
    | None => Ret (0, t)
    end;
  '(reque, t) ← match ft_get t uaddr with
    | Some q => '(moved, rest) ← drain q reque_count; Ret (Some moved, ft_insert t uaddr rest)
    | None => Ret (None, t)
    end;
  match reque with
  | Some reque =>
      let t := match ft_get t uaddr2 with Some _ => t | None => ft_insert t uaddr2 [] end in
      q2 ← unwrap (ft_get t uaddr2);
      Ret (waked_size, ft_insert t uaddr2 (q2 ++ reque))
  | None => Ret (waked_size, t)
  end.

(** ** [sys_futex] *)

(** The low 32 bits of a word as a signed number, [value as i32]. *)
Definition as_i32 (z : Z) : Z := let m := z mod 4294967296 in if decide (m < 2147483648) then m else m - 4294967296.

Inductive FutexFlags := FWait | FWake | FRequeue.

Definition futex_flags (op : Z) : result FutexFlags :=
  let op := if decide (0x80 ≤ op) then op - 0x80 else op in
  if decide (op = 0) then Ok FWait
  else if decide (op = 1) then Ok FWake
  else if decide (op = 3) then Ok FRequeue
  else if decide (op ≤ 10) then Ok FWake
  else Err ENOSYS.

(** A futex system call after its first steps: finished, or waiting with an optional
    deadline. *)
Inductive FutexCall := FDone (r : result Z) | FutexWait (deadline : option Z).

(** [uval] is the word at [uaddr]; [timeout] the user's [TimeSpec] when [value2] is not null. *)
Definition sys_futex_start (tid uaddr uval op value value2 uaddr2 now : Z) (timeout : TimeSpec) (t : FutexTable)
    : outcome (FutexCall * FutexTable) :=
  if decide (uaddr = 0) then Ret (FDone (Err EFAULT), t)
  else
    match futex_flags op with
    | Err e => Ret (FDone (Err e), t)
    | Ok FWait =>
        if decide (uval = as_i32 value) then
          let t := match ft_get t uaddr with
                   | Some q => ft_insert t uaddr (q ++ [tid])
                   | None => ft_insert t uaddr [tid]
                   end in
          Ret (FutexWait (if decide (value2 ≠ 0) then Some (now +u TimeSpec_to_nsec timeout) else None), t)
        else Ret (FDone (Err EAGAIN), t)
    | Ok FWake => '(count, t) ← futex_wake t uaddr value; Ret (FDone (Ok count), t)
    | Ok FRequeue => '(count, t) ← futex_requeue t uaddr value uaddr2 value2; Ret (FDone (Ok count), t)
    end.

(** One poll of the waiting call: [select(wait_func, WaitUntilsec(..))] or [wait_func] alone. *)
Definition sys_futex_poll (tid : Z) (deadline : option Z) (has_signal : bool) (now : Z) (t : FutexTable)
    : Poll (result Z) * FutexTable :=
  match deadline with
  | None => WaitFutex_poll tid has_signal t
  | Some d =>
      match WaitFutex_poll tid has_signal t with
      | (Ready r, t) => (Ready r, t)
      | (Pending, t) => match WaitUntilsec_poll d now with
                        | Ready _ => (Ready (Err ETIMEDOUT), t)
                        | Pending => (Pending, t)
                        end
      end
  end.

(** ** Facts about the table *)

Definition ft_ok (t : FutexTable) : Prop := StronglySorted Z.lt t.*1.

Lemma ft_get_insert t k q k' : ft_get (ft_insert t k q) k' = if decide (k' = k) then Some q else ft_get t k'.
Proof.
  induction t as [|[j p] t IH]; cbn [ft_insert ft_get]; [done|].
  destruct (decide (k = j)) as [->|]; [cbn [ft_get]; by case_decide|].
  destruct (decide (k < j)); cbn [ft_get]; [by case_decide|]. rewrite IH. repeat case_decide; congruence || done.
Qed.

Lemma ft_insert_keys t k q j : j ∈ (ft_insert t k q).*1 → j = k ∨ j ∈ t.*1.
Proof.
  induction t as [|[i p] t IH]; cbn [ft_insert fmap list_fmap]; [set_solver|].
  repeat case_decide; cbn [fmap list_fmap fst]; intros Hj; subst; set_solver.
Qed.

Lemma ft_insert_ok t k q : ft_ok t → ft_ok (ft_insert t k q).
Proof.
  unfold ft_ok. induction t as [|[i p] t IH]; cbn [ft_insert]; [repeat constructor|].
  intros Hs. apply StronglySorted_inv in Hs as Hs'. destruct Hs' as [Ht Hall]. repeat case_decide; subst; cbn [fmap list_fmap fst].
  - done.
  - constructor; [done|]. constructor; [done|]. eapply Forall_impl; [exact Hall|]. cbn. lia.
  - constructor; [by apply IH|]. apply Forall_forall. intros j Hj%ft_insert_keys.
    destruct Hj as [->|Hj]; [lia|]. by eapply Forall_forall in Hall.
Qed.

Lemma ft_get_elem t k q : ft_ok t → (k, q) ∈ t ↔ ft_get t k = Some q.
Proof.
  unfold ft_ok. induction t as [|[i p] t IH]; intros Hs; cbn [ft_get]; [split; [by intros ?%elem_of_nil|done]|].
  apply StronglySorted_inv in Hs as [Ht Hall]. rewrite elem_of_cons. case_decide as E; [subst i|rewrite <- (IH Ht)].
  - split; [|intros [= ->]; by left]. intros [[= ->]|Hin]; [done|].
    assert (k ∈ t.*1) as Hk by (apply list_elem_of_fmap; by exists (k, q)).
    rewrite Forall_forall in Hall. specialize (Hall k Hk). cbn in Hall. lia.
  - split; [intros [[= -> ->]|Hin]; done|by right].
Qed.

Lemma in_futex_spec t id : ft_ok t → in_futex t id = true ↔ ∃ k q, ft_get t k = Some q ∧ id ∈ q.
Proof.
  intros Ht. unfold in_futex. destruct (List.find _ t) as [[k q]|] eqn:E.
  - apply List.find_some in E as [Hin Hc]. apply list_elem_of_In in Hin. apply bool_decide_eq_true in Hc. cbn in Hc.
    split; [|done]. intros _. exists k, q. by rewrite <- ft_get_elem.
  - split; [done|]. intros (k & q & Hg & Hid). rewrite find_None_Forall, Forall_forall in E.
    rewrite <- ft_get_elem in Hg by done. specialize (E _ Hg). by apply bool_decide_eq_false in E.
Qed.

(** Every task waits at most once. *)
Definition waiting_once (t : FutexTable) : Prop :=
  (∀ k q, ft_get t k = Some q → NoDup q) ∧
  (∀ id k1 q1 k2 q2, ft_get t k1 = Some q1 → ft_get t k2 = Some q2 → id ∈ q1 → id ∈ q2 → k1 = k2).

Lemma futex_wake_spec t uaddr n q : ft_get t uaddr = Some q → 0 ≤ n →
  let k := Nat.min (Z.to_nat n) (length q) in
  ∃ t', futex_wake t uaddr n = Ret (Z.of_nat k, t') ∧ (ft_ok t → ft_ok t') ∧
    ∀ a, ft_get t' a = if decide (a = uaddr) then Some (drop k q) else ft_get t a.
Proof.
  intros Hq Hn k. unfold futex_wake. rewrite Hq. case_decide as Hz.
  - exists t. assert (q = []) as -> by (destruct q; [done|cbn in Hz; lia]). assert (k = 0%nat) as -> by (unfold k; cbn; lia).
    split_and!; try done. intros a. case_decide; by subst.
  - exists (ft_insert t uaddr (drop k q)). unfold drain. rewrite decide_True by lia. step_ret.
    replace (Z.to_nat (Z.min n (Z.of_nat (length q)))) with k by (unfold k; lia).
    rewrite length_take, Nat.min_l by (unfold k; lia). split_and!; [done|apply ft_insert_ok|apply ft_get_insert].
Qed.

(** Polling after a wake: a task of the queue is ready exactly when it was woken. *)
Lemma wake_poll t t' uaddr q k id : ft_ok t' → waiting_once t → ft_get t uaddr = Some q → id ∈ q →
  (∀ a, ft_get t' a = if decide (a = uaddr) then Some (drop k q) else ft_get t a) →
  in_futex t' id = bool_decide (id ∈ drop k q).
Proof.
  intros Ht' [Hnd Honce] Hq Hid Hget. apply eq_bool_prop_intro. rewrite Is_true_true, in_futex_spec, bool_decide_spec by done. split.
  - intros (a & qa & Ha & Hina). rewrite Hget in Ha. case_decide as E; [by injection Ha as <-|].
    destruct E. by apply (Honce id a qa uaddr q).
  - intros Hin. exists uaddr, (drop k q). by rewrite Hget, decide_True.
Qed.

Lemma NoDup_take_drop (q : list Z) k id : NoDup q → id ∈ q → id ∈ drop k q ↔ id ∉ take k q.
Proof.
  intros Hnd Hid. rewrite <- (take_drop k q) in Hnd, Hid. apply NoDup_app in Hnd as (_ & Hd & _).
  apply elem_of_app in Hid. specialize (Hd id). naive_solver.
Qed.


(** A timed-out wait leaves its task in the queue, and the next wake-up is lost on it:
    the poll that times out changes nothing in the table, so a later wake of one task pops
    the task that is no longer waiting, reports one task woken, and the next task in the
    queue stays blocked. *)
Theorem futex_timeout_loses_wakeup (t : FutexTable) (uaddr tid other deadline now : Z) (rest : list Z) :
  ft_ok t → waiting_once t → ft_get t uaddr = Some (tid :: other :: rest) → deadline < now →
  sys_futex_poll tid (Some deadline) false now t = (Ready (Err ETIMEDOUT), t) ∧
  ∃ t', futex_wake t uaddr 1 = Ret (1, t') ∧ sys_futex_poll other None false now t' = (Pending, t').
Proof.
  intros Ht Honce Hq Hd. split.
  - assert (in_futex t tid = true) as Hin by (apply in_futex_spec; [done|]; exists uaddr, (tid :: other :: rest); split; [done|by left]).
    unfold sys_futex_poll, WaitFutex_poll, WaitUntilsec_poll. rewrite Hin. by rewrite decide_True.
  - destruct (futex_wake_spec t uaddr 1 _ Hq ltac:(lia)) as (t' & E & Hok & Hget). exists t'. split; [done|].
    cbn [sys_futex_poll]. unfold WaitFutex_poll.
    rewrite (wake_poll t t' uaddr (tid :: other :: rest) 1 other); [|by apply Hok|done|done|by right; left|done].
    by rewrite bool_decide_eq_true_2 by (by left).
Qed.

(** [futex_requeue] moves waiters only when the queue is long enough: with [wake] and
    [move] counts the queue can serve, it removes [wake] waiters, appends the next [move] to
    the other queue in order and reports [wake]; otherwise it drains past the end of a
    vector and panics the kernel, for instance for the usual call that moves all waiters by
    passing the largest count. *)
Theorem futex_requeue_bounds (t : FutexTable) (uaddr uaddr2 wake move : Z) (q : list Z) :
  ft_get t uaddr = Some q → uaddr ≠ uaddr2 → 0 ≤ wake → 0 ≤ move →
  if decide (wake + move ≤ Z.of_nat (length q)) then
    ∃ t', futex_requeue t uaddr wake uaddr2 move = Ret (wake, t') ∧
      ft_get t' uaddr = Some (drop (Z.to_nat (wake + move)) q) ∧
      ft_get t' uaddr2 = Some (default [] (ft_get t uaddr2) ++ take (Z.to_nat move) (drop (Z.to_nat wake) q))
  else futex_requeue t uaddr wake uaddr2 move = Panic.
Proof.
  intros Hq Hne Hw Hm. unfold futex_requeue. rewrite Hq. unfold drain.
  destruct (decide (wake ≤ Z.of_nat (length q))) as [H1|H1]; [|rewrite decide_False by lia; done].
  step_ret. rewrite ft_get_insert, (decide_True (P := uaddr = uaddr)) by done. rewrite length_drop, length_take.
  destruct (decide (wake + move ≤ Z.of_nat (length q))) as [H2|H2]; [|rewrite decide_False by lia; done].
  rewrite decide_True by lia. step_ret. set (t2 := ft_insert (ft_insert t uaddr _) uaddr _).
  assert (∀ a, a ≠ uaddr → ft_get t2 a = ft_get t a) as Ht2.
  { intros a Ha. unfold t2. by rewrite !ft_get_insert, !decide_False. }
  assert (ft_get t2 uaddr = Some (drop (Z.to_nat (wake + move)) q)) as Hu.
  { unfold t2. rewrite ft_get_insert, decide_True, drop_drop by done. do 2 f_equal. lia. }
  exists (ft_insert (match ft_get t2 uaddr2 with Some _ => t2 | None => ft_insert t2 uaddr2 [] end) uaddr2
    (default [] (ft_get t uaddr2) ++ take (Z.to_nat move) (drop (Z.to_nat wake) q))).
  rewrite Ht2 by done. split_and!.
  - destruct (ft_get t uaddr2) as [q2|] eqn:E2.
    + rewrite Ht2, E2 by done. cbn [unwrap default]. step_ret. do 2 f_equal. lia.
    + rewrite ft_get_insert, decide_True by done. cbn [unwrap default]. step_ret. do 2 f_equal. lia.
  - rewrite ft_get_insert, decide_False by done. destruct (ft_get t uaddr2); [done|]. by rewrite ft_get_insert, decide_False.
  - by rewrite ft_get_insert, decide_True.
Qed.

(** ** Witnesses *)

Definition demo_table : FutexTable := [(100, [1; 2; 3]); (200, [4])].

Lemma demo_table_ok : ft_ok demo_table.
Proof. unfold ft_ok. cbn. repeat constructor; lia. Qed.

Lemma demo_table_once : waiting_once demo_table.
Proof.
  split.
  - intros k q Hq. unfold demo_table in Hq. cbn [ft_get] in Hq. repeat case_decide; simplify_eq;
      apply (bool_decide_unpack _); vm_compute; done.
  - intros id k1 q1 k2 q2 H1 H2 Hi1 Hi2. unfold demo_table in *. cbn [ft_get] in *. repeat case_decide; simplify_eq; set_solver.
Qed.


Lemma futex_timeout_loses_wakeup_witness :
  ∃ t', futex_wake demo_table 100 1 = Ret (1, t') ∧ sys_futex_poll 2 None false 9 t' = (Pending, t').
Proof. apply (futex_timeout_loses_wakeup demo_table 100 1 2 8 9 [3] demo_table_ok demo_table_once eq_refl). lia. Defined.

Lemma futex_requeue_bounds_witness : futex_requeue demo_table 100 1 200 2147483647 = Panic.
Proof. apply (futex_requeue_bounds demo_table 100 200 1 2147483647 [1; 2; 3]); [reflexivity|lia|lia|lia]. Defined.
