(* ===== verification/Ipc.v ===== *)
(** * System V inter-process communication

    Models kernel/src/syscall/shm.rs and kernel/src/tasks/shm.rs: semaphores, message queues
    and shared memory.  The global tables are finite maps from identifiers; user memory is a
    function from addresses to bytes.  The theorems show the message queue's invariant and
    which message a receive takes, that a send to a full queue can lose its message while
    reporting success, and how shared segments are created and never released. *)

From S2P Require Import Prelude Frame MemSet Futex.

(** [keys().cloned().max().unwrap_or(d) + 1] *)
Definition fresh_key {A} (t : gmap Z A) (d : Z) : Z :=
  match map_to_list t with
  | [] => d +u 1
  | (k, _) :: l => foldl Z.max k l.*1 +u 1
  end.

(** ** Semaphores *)

Record Semaphore := mkSem { sem_key : Z; sem_nsems : Z; sem_values : list Z }.

Definition Semaphore_new (key nsems : Z) : Semaphore := mkSem key nsems (replicate (Z.to_nat nsems) 0).

Definition sys_semget (sems : gmap Z Semaphore) (key nsems semflg : Z) : result Z * gmap Z Semaphore :=
  let actual_key := if decide (key = 0) then fresh_key sems 0 else key in
  match sems !! actual_key with
  | Some _ => (Ok actual_key, sems)
  | None => if decide (Z.land semflg 512 ≠ 0) then (Ok actual_key, <[actual_key := Semaphore_new actual_key nsems]> sems)
            else (Err ENOENT, sems)
  end.

Definition sys_semctl (sems : gmap Z Semaphore) (semid semnum cmd arg : Z) : outcome (result Z * gmap Z Semaphore) :=
  match sems !! semid with
  | None => Ret (Err EINVAL, sems)
  | Some sem =>
      if decide (cmd = 16) then
        if decide (semnum < sem_nsems sem) then
          _ ← unwrap (sem_values sem !! Z.to_nat semnum);
          Ret (Ok 0, <[semid := mkSem (sem_key sem) (sem_nsems sem) (<[Z.to_nat semnum := as_i32 arg]> (sem_values sem))]> sems)
        else Ret (Err EINVAL, sems)
      else if decide (cmd = 12) then
        if decide (semnum < sem_nsems sem) then
          v ← unwrap (sem_values sem !! Z.to_nat semnum); Ret (Ok (wrap v), sems)
        else Ret (Err EINVAL, sems)
      else if decide (cmd = 0) then Ret (Ok 0, delete semid sems)
      else Ret (Ok 0, sems)
  end.

Definition sys_semop (sems : gmap Z Semaphore) (semid : Z) : result Z :=
  match sems !! semid with Some _ => Ok 0 | None => Err EINVAL end.

(** ** Message queues *)

Record Message := mkMsg { msg_type : Z; mtext : list Z }.

Record MessageQueue := mkQueue {
  mq_key : Z; messages : list Message; max_bytes : Z; current_bytes : Z; max_messages : Z
}.

Definition MessageQueue_new (key : Z) : MessageQueue := mkQueue key [] 16384 0 40.

Definition can_send (q : MessageQueue) (msg_size : Z) : bool :=
  bool_decide (Z.of_nat (length (messages q)) < max_messages q) && bool_decide (current_bytes q +u msg_size ≤ max_bytes q).

Definition send_message (q : MessageQueue) (mtype : Z) (data : list Z) : bool * MessageQueue :=
  let len := Z.of_nat (length data) in
  if can_send q len then
    (true, mkQueue (mq_key q) (messages q ++ [mkMsg mtype data]) (max_bytes q) (current_bytes q +u len) (max_messages q))
  else (false, q).

(** [min_by_key]: the first index with the least key among those that pass the filter. *)
Definition min_index (p : Message → bool) (l : list Message) : option nat :=
  fst <$> foldl (λ best im, if p im.2 then
                              match best with
                              | Some (_, b) => if decide (msg_type im.2 < msg_type b) then Some im else best
                              | None => Some im
                              end
                            else best) None (imap pair l).

Definition receive_pos (l : list Message) (mtype : Z) (except : bool) : option nat :=
  if decide (mtype = 0) then if decide (l = []) then None else Some 0%nat
  else if decide (0 < mtype) then
    fst <$> list_find (λ m, (if except then negb (bool_decide (msg_type m = mtype)) else bool_decide (msg_type m = mtype)) = true) l
  else min_index (λ m, bool_decide (msg_type m ≤ as_isize (- mtype))) l.

Definition receive_message (q : MessageQueue) (mtype : Z) (except : bool) : outcome (option Message * MessageQueue) :=
  match receive_pos (messages q) mtype except with
  | Some index =>
      msg ← unwrap (messages q !! index);
      Ret (Some msg, mkQueue (mq_key q) (delete index (messages q)) (max_bytes q)
                       (current_bytes q -u Z.of_nat (length (mtext msg))) (max_messages q))
  | None => Ret (None, q)
  end.

Definition sys_msgget (queues : gmap Z MessageQueue) (key msgflg : Z) : result Z * gmap Z MessageQueue :=
  let actual_key := if decide (key = 0) then fresh_key queues 1000 else key in
  match queues !! actual_key with
  | Some _ => (Ok actual_key, queues)
  | None => if decide (Z.land msgflg 512 ≠ 0) then (Ok actual_key, <[actual_key := MessageQueue_new actual_key]> queues)
            else (Err ENOENT, queues)
  end.

Definition sys_msgctl (queues : gmap Z MessageQueue) (msqid cmd : Z) : result Z * gmap Z MessageQueue :=
  match queues !! msqid with
  | Some _ => if decide (cmd = 0) then (Ok 0, delete msqid queues) else (Ok 0, queues)
  | None => (Err EINVAL, queues)
  end.

(** The eight little-endian bytes of a signed word. *)
Definition i64_from_le (l : list Z) : Z := as_isize (le_value l).

Definition sys_msgsnd (queues : gmap Z MessageQueue) (m : UserMem) (msqid msgp msgsz msgflg : Z)
    : result Z * gmap Z MessageQueue :=
  match queues !! msqid with
  | None => (Err EINVAL, queues)
  | Some queue =>
      if decide (msgp = 0) then (Err EFAULT, queues)
      else
        let mtype := i64_from_le (user_read m msgp 8) in
        let msg_data := if decide (0 < msgsz) then user_read m (msgp +u 8) (Z.to_nat msgsz) else [] in
        if can_send queue msgsz then
          let '(_, queue) := send_message queue mtype msg_data in (Ok 0, <[msqid := queue]> queues)
        else if decide (Z.land msgflg 2048 ≠ 0) then (Err EAGAIN, queues)
        else (Ok 0, queues)
  end.


Definition sys_msgrcv (queues : gmap Z MessageQueue) (m : UserMem) (msqid msgp msgsz msgtyp msgflg : Z)
    : outcome (result Z * gmap Z MessageQueue * UserMem) :=
  match queues !! msqid with
  | None => Ret (Err EINVAL, queues, m)
  | Some queue =>
      let except := bool_decide (Z.land msgflg 8192 ≠ 0) in
      '(o, queue) ← receive_message queue msgtyp except;
      match o with
      | None => Ret (Err ENOMSG, queues, m)
      | Some message =>
          let queues := <[msqid := queue]> queues in
          if decide (msgp = 0) then Ret (Err EFAULT, queues, m)
          else
            let m := user_write m msgp (le_bytes 8 (wrap (msg_type message))) in
            let data_len := Z.min (Z.of_nat (length (mtext message))) msgsz in
            let m := if decide (0 < data_len) then user_write m (msgp +u 8) (take (Z.to_nat data_len) (mtext message)) else m in
            if decide (msgsz < Z.of_nat (length (mtext message)) ∧ Z.land msgflg 4096 = 0) then Ret (Err E2BIG, queues, m)
            else Ret (Ok data_len, queues, m)
      end
  end.

(** ** Shared memory *)

(** A segment object ([Arc<SharedMemory>]) is named by [sm_id]. *)
Record SharedMemory := mkShm { sm_id : nat; trackers : list Z; deleted : bool }.

Record MapedSharedMemory := mkMaped { maped_key : Z; maped_id : nat; maped_start : Z; maped_size : Z }.

#[export] Instance MapedSharedMemory_eq_dec : EqDecision MapedSharedMemory.
Proof. solve_decision. Defined.

(** The global table, the mappings of all processes, and the next object name. *)
Record ShmState := mkShmState { shm_table : gmap Z SharedMemory; shm_maps : list MapedSharedMemory; shm_next : nat }.

Section shm.
Context {FS : Type} `{FrameSource FS}.

Definition sys_shmget (st : ShmState) (fs : FS) (key size shmflg : Z) : outcome (result Z * ShmState * FS) :=
  let key := if decide (key = 0) then fresh_key (shm_table st) 0 else key in
  match shm_table st !! key with
  | Some _ => Ret (Ok key, st, fs)
  | None =>
      if decide (0 < Z.land shmflg 1000) then
        '(o, fs) ← frame_alloc_much fs (div_ceil size PAGE_SIZE);
        shm ← unwrap o;
        Ret (Ok key, mkShmState (<[key := mkShm (shm_next st) shm false]> (shm_table st)) (shm_maps st) (S (shm_next st)), fs)
      else Ret (Err ENOENT, st, fs)
  end.
End shm.

(** [last_free] is [get_last_free_addr()] of the calling task, [pt] its page table. *)
Definition sys_shmat (st : ShmState) (pt : PageTable) (last_free shmid shmaddr : Z) : outcome (result Z * ShmState * PageTable) :=
  let vaddr := if decide (shmaddr = 0) then (if decide (0x40000000 ≤ last_free) then last_free else 0x40000000) else shmaddr in
  match shm_table st !! shmid with
  | None => Ret (Err ENOENT, st, pt)
  | Some mem =>
      pt ← foldM (λ pt ix, task_map pt ix.2 (vaddr +u (Z.of_nat ix.1 *u PAGE_SIZE)) URWX) (imap pair (trackers mem)) pt;
      let size := Z.of_nat (length (trackers mem)) *u PAGE_SIZE in
      Ret (Ok vaddr, mkShmState (shm_table st) (shm_maps st ++ [mkMaped shmid (sm_id mem) vaddr size]) (shm_next st), pt)
  end.

Definition sys_shmctl (st : ShmState) (shmid cmd : Z) : result Z * ShmState :=
  if decide (cmd = 0) then
    (Ok 0, mkShmState (alter (λ s, mkShm (sm_id s) (trackers s) true) shmid (shm_table st)) (shm_maps st) (shm_next st))
  else (Err EPERM, st).

(** [Arc::strong_count] of a segment: its mappings and the table's own reference. *)
Definition strong_count (st : ShmState) (id : nat) : nat :=
  length (filter (λ m, maped_id m = id) (shm_maps st)) +
  length (filter (λ kv, sm_id kv.2 = id) (map_to_list (shm_table st))).

Fixpoint remove_one (m : MapedSharedMemory) (l : list MapedSharedMemory) : list MapedSharedMemory :=
  match l with [] => [] | x :: l => if decide (x = m) then l else x :: remove_one m l end.

(** Removing one mapping from its process and running [Drop for MapedSharedMemory]; the
    counter is read while the mapping still holds its reference.  [is_deleted] is the flag
    of the object the mapping holds. *)
Definition drop_maped (st : ShmState) (m : MapedSharedMemory) (is_deleted : bool) : ShmState :=
  let table := if decide (strong_count st (maped_id m) = 1%nat ∧ is_deleted = true) then delete (maped_key m) (shm_table st)
               else shm_table st in
  mkShmState table (remove_one m (shm_maps st)) (shm_next st).

(** ** Message queues: invariant and selection *)

Definition bytes_of (l : list Message) : Z := Z.of_nat (sum_list (length ∘ mtext <$> l)).

Record mq_ok (q : MessageQueue) : Prop := {
  mo_bytes : current_bytes q = bytes_of (messages q);
  mo_max : current_bytes q ≤ max_bytes q;
  mo_count : Z.of_nat (length (messages q)) ≤ max_messages q;
  mo_limits : max_bytes q = 16384 ∧ max_messages q = 40;
}.

Lemma bytes_of_app l1 l2 : bytes_of (l1 ++ l2) = bytes_of l1 + bytes_of l2.
Proof. unfold bytes_of. rewrite fmap_app. induction l1; cbn in *; lia. Qed.

(** The message a receive takes: the oldest; the oldest of the given type (or of any other
    type); or the oldest of the lowest type up to the given bound. *)
Definition eligible (mtype : Z) (except : bool) (m : Message) : bool :=
  if decide (mtype = 0) then true
  else if decide (0 < mtype) then
    if except then negb (bool_decide (msg_type m = mtype)) else bool_decide (msg_type m = mtype)
  else bool_decide (msg_type m ≤ as_isize (- mtype)).

Definition taken (mtype : Z) (except : bool) (l1 : list Message) (m : Message) (l2 : list Message) : Prop :=
  eligible mtype except m = true ∧
  if decide (mtype < 0) then
    (∀ x, x ∈ l1 → eligible mtype except x = true → msg_type m < msg_type x) ∧
    (∀ x, x ∈ l2 → eligible mtype except x = true → msg_type m ≤ msg_type x)
  else ∀ x, x ∈ l1 → eligible mtype except x = false.

Definition min_step (p : Message → bool) (best : option (nat * Message)) (im : nat * Message) : option (nat * Message) :=
  if p im.2 then
    match best with
    | Some (_, b) => if decide (msg_type im.2 < msg_type b) then Some im else best
    | None => Some im
    end
  else best.

Lemma min_index_spec p l :
  match foldl (min_step p) None (imap pair l) with
  | Some (i, m) => ∃ l1 l2, l = l1 ++ m :: l2 ∧ length l1 = i ∧ p m = true ∧
      (∀ x, x ∈ l1 → p x = true → msg_type m < msg_type x) ∧ (∀ x, x ∈ l2 → p x = true → msg_type m ≤ msg_type x)
  | None => ∀ x, x ∈ l → p x = false
  end.
Proof.
  induction l as [|y l IH] using rev_ind; [by intros x ?%elem_of_nil|].
  rewrite imap_app, foldl_app. cbn [imap foldl]. rewrite Nat.add_0_r.
  destruct (foldl (min_step p) None (imap pair l)) as [[i m]|]; unfold min_step; cbn [snd].
  - destruct IH as (l1 & l2 & -> & Hi & Hp & H1 & H2). destruct (p y) eqn:Ey; [case_decide as Hlt|].
    + exists (l1 ++ m :: l2), []. split_and!; [done| |done| |by intros x ?%elem_of_nil].
      * cbn. lia.
      * intros x Hx Hpx. apply elem_of_app in Hx as [Hx|Hx]; [specialize (H1 x Hx Hpx); lia|].
        apply elem_of_cons in Hx as [->|Hx]; [done|]. specialize (H2 x Hx Hpx). lia.
    + exists l1, (l2 ++ [y]). rewrite <- app_assoc. split_and!; try done. intros x Hx Hpx.
      apply elem_of_app in Hx as [Hx|Hx]; [by apply H2|]. apply list_elem_of_singleton in Hx as ->. lia.
    + exists l1, (l2 ++ [y]). rewrite <- app_assoc. split_and!; try done. intros x Hx Hpx.
      apply elem_of_app in Hx as [Hx|Hx]; [by apply H2|]. apply list_elem_of_singleton in Hx as ->. congruence.
  - destruct (p y) eqn:Ey.
    + exists l, []. split_and!; try done; [|by intros x ?%elem_of_nil]. intros x Hx Hpx. rewrite IH in Hpx by done. done.
    + intros x Hx. apply elem_of_app in Hx as [Hx|Hx]; [by apply IH|]. by apply list_elem_of_singleton in Hx as ->.
Qed.

Lemma receive_pos_spec l mtype except :
  match receive_pos l mtype except with
  | Some i => ∃ l1 m l2, l = l1 ++ m :: l2 ∧ length l1 = i ∧ taken mtype except l1 m l2
  | None => ∀ x, x ∈ l → eligible mtype except x = false
  end.
Proof.
  unfold receive_pos, taken, eligible. destruct (decide (mtype = 0)) as [->|Hz].
  - destruct l as [|m l]; [by intros x ?%elem_of_nil|]. cbn. exists [], m, l. split_and!; try done. by intros x ?%elem_of_nil.
  - destruct (decide (0 < mtype)) as [Hpos|Hneg].
    + destruct (list_find _ l) as [[i m]|] eqn:E; cbn [fmap option_fmap option_map fst].
      * apply list_find_Some in E as (Hi & Hm & Hlow). exists (take i l), m, (drop (S i) l).
        split_and!; [by rewrite take_drop_middle|rewrite length_take; apply lookup_lt_Some in Hi; lia|done|].
        rewrite decide_False by lia. intros x Hx. apply list_elem_of_lookup in Hx as [j Hj].
        apply lookup_take_Some in Hj as [Hj Hlt]. specialize (Hlow j x Hj Hlt). by apply not_true_is_false.
      * apply list_find_None in E. intros x Hx. rewrite Forall_forall in E. apply not_true_is_false. by apply E.
    + unfold min_index. pose proof (min_index_spec (λ m, bool_decide (msg_type m ≤ as_isize (- mtype))) l) as Hs.
      fold (min_step (λ m, bool_decide (msg_type m ≤ as_isize (- mtype)))).
      destruct (foldl _ None (imap pair l)) as [[i m]|]; cbn [fmap option_fmap option_map fst].
      * destruct Hs as (l1 & l2 & -> & Hi & Hp & H1 & H2). exists l1, m, l2. split_and!; try done. by rewrite decide_True by lia.
      * exact Hs.
Qed.

(** C23: a message queue keeps its books: sends and receives keep the byte count equal to
    the queued bytes and both limits (40 messages, 16384 bytes); a send is accepted exactly
    when both limits allow it and appends the message; a receive takes the message the
    request selects (the oldest, the oldest of a type or of any other type, or the oldest
    of the lowest type up to a bound), leaving the others in order, and finds nothing
    exactly when no queued message is eligible. *)
Theorem message_queue_sound (q : MessageQueue) : mq_ok q →
  (∀ mtype data, Z.of_nat (length data) < USIZE - 16384 →
     let '(ok, q') := send_message q mtype data in
     mq_ok q' ∧ messages q' = messages q ++ (if ok then [mkMsg mtype data] else []) ∧
     (ok = true ↔ Z.of_nat (length (messages q)) < 40 ∧ bytes_of (messages q) + Z.of_nat (length data) ≤ 16384)) ∧
  (∀ mtype except, ∃ o q', receive_message q mtype except = Ret (o, q') ∧ mq_ok q' ∧
     match o with
     | Some m => ∃ l1 l2, messages q = l1 ++ m :: l2 ∧ messages q' = l1 ++ l2 ∧ taken mtype except l1 m l2
     | None => q' = q ∧ ∀ x, x ∈ messages q → eligible mtype except x = false
     end).
Proof.
  intros [Hb Hm Hc [Lb Lc]]. assert (0 ≤ bytes_of (messages q)) by (unfold bytes_of; lia). split.
  - intros mtype data Hl. unfold send_message, can_send. rewrite wrap_small by (unfold is_usize, USIZE in *; lia).
    destruct (bool_decide _ && bool_decide _) eqn:E.
    + apply andb_true_iff in E as [E1%bool_decide_eq_true E2%bool_decide_eq_true]. split_and!; [|done|lia].
      split; cbn; rewrite ?length_app, ?bytes_of_app; cbn [length]; try lia.
      assert (bytes_of [mkMsg mtype data] = Z.of_nat (length data)) as -> by (unfold bytes_of; cbn; lia). lia.
    + apply andb_false_iff in E. rewrite !bool_decide_eq_false in E. split_and!; [by split|by rewrite app_nil_r|]. split; [done|lia].
  - intros mtype except. unfold receive_message. pose proof (receive_pos_spec (messages q) mtype except) as Hs.
    destruct (receive_pos (messages q) mtype except) as [i|]; [|by eexists _, _; split_and!].
    destruct Hs as (l1 & m & l2 & El & Hi & Ht). assert (messages q !! i = Some m) as Hlk.
    { rewrite El, <- Hi. by rewrite list_lookup_middle. }
    rewrite Hlk. cbn [unwrap]. step_ret. eexists _, _. split; [done|].
    assert (delete i (messages q) = l1 ++ l2) as Hdel by (rewrite El, <- Hi; apply delete_middle).
    assert (bytes_of (messages q) = bytes_of (l1 ++ l2) + Z.of_nat (length (mtext m))) as Hbytes.
    { rewrite El. change (m :: l2) with ([m] ++ l2). rewrite !bytes_of_app.
      assert (bytes_of [m] = Z.of_nat (length (mtext m))) as -> by (unfold bytes_of; cbn; lia). lia. }
    assert (0 ≤ bytes_of (l1 ++ l2)) by (unfold bytes_of; lia).
    split; [|by exists l1, l2]. split; cbn; rewrite ?Hdel; [..|done].
    + rewrite wrap_small by (unfold is_usize, USIZE; lia). lia.
    + rewrite wrap_small by (unfold is_usize, USIZE; lia). lia.
    + rewrite El in Hc. rewrite length_app in *. cbn in Hc. lia.
Qed.

(** Messages get lost behind a success or an error report: a blocking [msgsnd] to a full
    queue returns 0 and drops the message (only with [IPC_NOWAIT] it reports [EAGAIN]), and
    an [msgrcv] whose buffer is too small reports [E2BIG] but has already removed the
    message from the queue. *)
Theorem messages_lost (queues : gmap Z MessageQueue) (q : MessageQueue) (m : UserMem) (msqid msgp msgsz msgflg : Z) :
  queues !! msqid = Some q → msgp ≠ 0 →
  (can_send q msgsz = false →
     sys_msgsnd queues m msqid msgp msgsz msgflg =
       (if decide (Z.land msgflg 2048 ≠ 0) then Err EAGAIN else Ok 0, queues)) ∧
  (∀ x rest, messages q = x :: rest → msgsz < Z.of_nat (length (mtext x)) → Z.land msgflg 4096 = 0 →
     ∃ q' m', sys_msgrcv queues m msqid msgp msgsz 0 msgflg = Ret (Err E2BIG, <[msqid := q']> queues, m') ∧ messages q' = rest).
Proof.
  intros Hq Hp. split.
  - intros Hfull. unfold sys_msgsnd. rewrite Hq, decide_False, Hfull by done. by case_decide.
  - intros x rest Hx Hs Hf. unfold sys_msgrcv, receive_message, receive_pos. rewrite Hq, Hx, !decide_True by done.
    rewrite decide_False by done. cbn [lookup list_lookup unwrap]. step_ret. rewrite (decide_False (P := msgp = 0)) by done.
    rewrite (decide_True (P := msgsz < _ ∧ _)) by done. by eexists _, _.
Qed.

(** Shared segments are created too eagerly and never released.  [shmget] tests the
    decimal mask 1000 instead of the octal [IPC_CREAT], so asking for an existing segment
    with ordinary permission bits (0o666) creates one, and panics when no frames are left;
    and dropping a mapping never removes its segment from the table, deleted or not, because
    the table itself holds a reference. *)
Theorem shm_segments {FS} `{FL : FrameSourceLaws FS} (st : ShmState) (fs : FS) (key size : Z) :
  source_ok fs → key ≠ 0 → 0 ≤ size → shm_table st !! key = None →
  (∃ o fs', frame_alloc_much fs (div_ceil size PAGE_SIZE) = Ret (o, fs') ∧
     match o with
     | Some frames => ∃ st', sys_shmget st fs key size 438 = Ret (Ok key, st', fs') ∧
         ∃ s, shm_table st' !! key = Some s ∧ trackers s = frames
     | None => sys_shmget st fs key size 438 = Panic
     end) ∧
  (∀ m s d, m ∈ shm_maps st → shm_table st !! maped_key m = Some s → sm_id s = maped_id m →
     shm_table (drop_maped st m d) = shm_table st).
Proof.
  intros Hok Hk Hs Hnone. split.
  - destruct (frame_alloc_much_law fs (div_ceil size PAGE_SIZE) Hok) as (o & fs' & E & _); [by apply div_ceil_nonneg|].
    exists o, fs'. split; [done|]. unfold sys_shmget. rewrite decide_False, Hnone, decide_True, E by done. step_ret.
    destruct o as [frames|]; [|done]. cbn [unwrap]. step_ret. eexists. split; [done|]. eexists.
    split; [apply lookup_insert_eq|done].
  - intros m s d Hm Hlk Hid. unfold drop_maped. rewrite decide_False; [done|]. intros [Hc _]. revert Hc. unfold strong_count.
    assert (filter (λ m0, maped_id m0 = maped_id m) (shm_maps st) ≠ []) as H1.
    { intros E%list_filter_none. rewrite Forall_forall in E. by apply (E m). }
    assert (filter (λ kv, sm_id kv.2 = maped_id m) (map_to_list (shm_table st)) ≠ []) as H2.
    { intros E%list_filter_none. rewrite Forall_forall in E. apply (E (maped_key m, s)); [|done]. by apply elem_of_map_to_list. }
    destruct (filter (λ m0, _) (shm_maps st)); [done|]. destruct (filter (λ kv, _) (map_to_list _)); [done|]. cbn. lia.
Qed.

(** ** Witnesses *)

Definition demo_mq : MessageQueue := mkQueue 7 [mkMsg 3 [1; 2]; mkMsg 1 [3]] 16384 3 40.

Lemma demo_mq_ok : mq_ok demo_mq.
Proof. split; cbn; try done; lia. Qed.

Lemma message_queue_sound_witness : ∃ o q', receive_message demo_mq (-2) false = Ret (o, q') ∧ o = Some (mkMsg 1 [3]).
Proof.
  destruct (message_queue_sound demo_mq demo_mq_ok) as [_ H]. destruct (H (-2) false) as (o & q' & E & _).
  exists o, q'. split; [exact E|]. vm_compute in E. injection E as <- <-. reflexivity.
Defined.

Lemma messages_lost_witness :
  sys_msgsnd {[7 := demo_mq]} (λ _, 0) 7 4096 16384 0 = (Ok 0, {[7 := demo_mq]}).
Proof. apply (messages_lost {[7 := demo_mq]} demo_mq (λ _, 0) 7 4096 16384 0); reflexivity || discriminate. Defined.

Lemma shm_segments_witness : ∃ o fs', frame_alloc_much [demo_region] 1 = Ret (o, fs') ∧ o = Some [8192].
Proof.
  destruct (shm_segments (mkShmState ∅ [] 0) [demo_region] 5 4096) as [(o & fs' & E & _) _].
  - exact demo_fa_wf.
  - discriminate.
  - discriminate.
  - reflexivity.
  - exists o, fs'. split; [exact E|]. vm_compute in E. injection E as <- <-. reflexivity.
Defined.
