(* ===== verification/Heap.v ===== *)
(** * The kernel heap

    Models crates/runtime/src/heap.rs: the hybrid global allocator, which serves requests
    from a buddy allocator and, when a large one fails there, from contiguous page frames.
    The buddy allocator is a third-party crate: its two operations are the record [Buddy],
    and what the code relies on is that it answers with addresses of the heap it was given.
    The theorems are proved against the interface of the frame source. *)

From S2P Require Import Prelude Frame Memory.

Definition LARGE_ALLOC_THRESHOLD : Z := 256 * 1024.

(** One record of [LargeAllocator]: address, size and frames. *)
Record LargeAlloc := mkLarge { la_addr : Z; la_size : Z; la_frames : list Z }.

Abbreviation LargeAllocator := (list LargeAlloc).

Section heap.
Context {FS : Type} `{FL : FrameSourceLaws FS}.

(** [(addr + align - 1) & !(align - 1)] on 64-bit words. *)
Definition align_up (addr align : Z) : Z := Z.land ((addr +u align) -u 1) (wrap (Z.lnot (align - 1))).

Definition Large_alloc (self : LargeAllocator) (w : World FS) (size align : Z) : outcome (option Z * LargeAllocator * World FS) :=
  let pages_needed := ((size +u PAGE_SIZE) -u 1) / PAGE_SIZE in
  '(o, fs) ← frame_alloc_much (w_frames w) pages_needed;
  let w := mkWorld fs (w_mem w) in
  match o with
  | Some frame_trackers =>
      ptr_addr ← unwrap (frame_trackers !! 0%nat);
      if decide (align_up ptr_addr align ≠ ptr_addr) then
        w ← drop_trackers w frame_trackers; Ret (None, self, w)
      else Ret (Some ptr_addr, self ++ [mkLarge ptr_addr size frame_trackers], w)
  | None => Ret (None, self, w)
  end.

(** The record a release refers to: an exact match, else one that contains the address. *)
Definition find_record (self : LargeAllocator) (ptr_addr size : Z) : option nat :=
  match list_find (λ a, la_addr a = ptr_addr ∧ la_size a = size) self with
  | Some (i, _) => Some i
  | None => fst <$> list_find (λ a, la_addr a ≤ ptr_addr ∧ ptr_addr < la_addr a +u la_size a) self
  end.

Definition Large_dealloc (self : LargeAllocator) (w : World FS) (ptr_addr size : Z) : outcome (LargeAllocator * World FS) :=
  match find_record self ptr_addr size with
  | Some i =>
      a ← unwrap (self !! i);
      w ← drop_trackers w (la_frames a);
      Ret (delete i self, w)
  | None => Ret (self, w)
  end.

Definition get_allocation_stats (self : LargeAllocator) : Z * Z :=
  (Z.of_nat (length self), Z.of_nat (sum_list (length ∘ la_frames <$> self))).

(** The buddy allocator: [alloc size align] answers 0 for a null pointer. *)
Record Buddy (B : Type) := mkBuddy {
  buddy_alloc : B → Z → Z → Z * B;
  buddy_dealloc : B → Z → Z → Z → B;
}.

Section hybrid.
Context {B : Type} (buddy : Buddy B) (heap_start heap_size : Z).

Record HeapState := mkHeap { h_buddy : B; h_large : LargeAllocator; h_world : World FS }.

Definition heap_alloc (h : HeapState) (size align : Z) : outcome (Z * HeapState) :=
  if decide (LARGE_ALLOC_THRESHOLD < size) then
    let '(ptr, b) := buddy_alloc B buddy (h_buddy h) size align in
    if decide (ptr ≠ 0) then Ret (ptr, mkHeap b (h_large h) (h_world h))
    else
      '(o, large, w) ← Large_alloc (h_large h) (h_world h) size align;
      Ret (default 0 o, mkHeap b large w)
  else
    let '(ptr, b) := buddy_alloc B buddy (h_buddy h) size align in
    Ret (ptr, mkHeap b (h_large h) (h_world h)).

Definition heap_dealloc (h : HeapState) (ptr size align : Z) : outcome HeapState :=
  if decide (ptr = 0) then Ret h
  else if decide (heap_start ≤ ptr ∧ ptr < heap_start +u heap_size) then
    Ret (mkHeap (buddy_dealloc B buddy (h_buddy h) ptr size align) (h_large h) (h_world h))
  else
    '(large, w) ← Large_dealloc (h_large h) (h_world h) ptr size;
    Ret (mkHeap (h_buddy h) large w).
End hybrid.

(** ** Large allocations *)

(** Records own their frames, which are contiguous from the address and cover the size. *)
Definition record_ok (a : LargeAlloc) : Prop :=
  0 < la_size a ∧ (∃ n, la_frames a = frames_from (la_addr a) n ∧ la_size a ≤ n * PAGE_SIZE) ∧ NoDup (la_frames a).

Record large_ok (self : LargeAllocator) (w : World FS) : Prop := {
  lo_records : Forall record_ok self;
  lo_owned a p : a ∈ self → p ∈ la_frames a → p ∈ managed_frames (w_frames w) ∧ p ∉ free_frames (w_frames w);
  lo_distinct i j a b : self !! i = Some a → self !! j = Some b → i ≠ j → la_addr a ≠ la_addr b;
}.

Lemma pages_needed_spec size : 0 < size → size + PAGE_SIZE < USIZE →
  ((size +u PAGE_SIZE) -u 1) / PAGE_SIZE = div_ceil size PAGE_SIZE ∧ 0 < div_ceil size PAGE_SIZE ∧
  size ≤ div_ceil size PAGE_SIZE * PAGE_SIZE.
Proof.
  intros Hs Hu. unfold PAGE_SIZE in *. unwrap_u. rewrite div_ceil_spec by lia.
  split_and!; try done; pose proof (Z.div_mod (size + 4096 - 1) 4096); pose proof (Z.mod_pos_bound (size + 4096 - 1) 4096); lia.
Qed.

Lemma frames_from_head a n : 0 < n → frames_from a n !! 0%nat = Some a.
Proof. intros. unfold frames_from. rewrite list_lookup_fmap, lookup_seqZ_lt by lia. cbn. f_equal. lia. Qed.

Lemma NoDup_frames_from a n : NoDup (frames_from a n).
Proof. unfold frames_from. apply NoDup_fmap_2; [intros i j; unfold PAGE_SIZE; lia|apply NoDup_seqZ]. Qed.

Lemma record_head a : record_ok a → la_frames a !! 0%nat = Some (la_addr a).
Proof. intros (Hs & (n & Hf & Hn) & _). rewrite Hf. apply frames_from_head. unfold PAGE_SIZE in Hn. lia. Qed.

(** A large allocation that succeeds appends one record of free, contiguous, aligned frames. *)
Lemma Large_alloc_spec self w size align : world_ok w → large_ok self w → 0 < size → size + PAGE_SIZE < USIZE →
  ∃ o self' w', Large_alloc self w size align = Ret (o, self', w') ∧ world_ok w' ∧
    match o with
    | None => self' = self ∧ free_frames (w_frames w') = free_frames (w_frames w)
    | Some ptr => ∃ a, self' = self ++ [a] ∧ la_addr a = ptr ∧ la_size a = size ∧ record_ok a ∧ large_ok self' w' ∧
        align_up ptr align = ptr ∧ list_to_set (la_frames a) ⊆ free_frames (w_frames w) ∧
        free_frames (w_frames w') = free_frames (w_frames w) ∖ list_to_set (la_frames a) ∧
        managed_frames (w_frames w') = managed_frames (w_frames w)
    end.
Proof.
  intros Hw Hl Hs Hu. destruct (pages_needed_spec size Hs Hu) as (Hp & Hp0 & Hcov). unfold Large_alloc. rewrite Hp.
  destruct Hw as [Hok Hz]. destruct (frame_alloc_much_law (w_frames w) (div_ceil size PAGE_SIZE) Hok) as (o & fs & E & Hok' & Hm & Ho); [lia|].
  rewrite E. step_ret. destruct o as [l|]; [|subst fs; by eexists _, _, _; split_and!].
  destruct Ho as ((a & Hla) & Hsub & Hf).
  assert (world_ok (mkWorld fs (w_mem w))) as Hw'.
  { split; [done|]. cbn. intros p i Hpf Hi. apply Hz; [set_solver|done]. }
  assert (l !! 0%nat = Some a) as Hhd by (rewrite Hla; by apply frames_from_head). rewrite Hhd. cbn [unwrap]. step_ret. case_decide as Hal.
  - destruct (drop_trackers_ok l (mkWorld fs (w_mem w)) Hw') as (w' & Ed & Hwd & Hmd & Hfd & _).
    { cbn. rewrite Hm. pose proof (free_managed _ Hok). set_solver. }
    rewrite Ed. step_ret. eexists _, _, _. split; [done|]. split; [done|]. split; [done|]. rewrite Hfd. cbn. rewrite Hf.
    apply set_eq. intros x. destruct (decide (x ∈ l)); set_solver.
  - eexists _, _, _. split; [done|]. split; [done|]. exists (mkLarge a size l). cbn [la_addr la_size la_frames w_frames].
    assert (record_ok (mkLarge a size l)) as Hr.
    { split_and!; cbn; [done|by exists (div_ceil size PAGE_SIZE)|rewrite Hla; apply NoDup_frames_from]. }
    split_and!; try done. split; cbn [w_frames].
    + apply Forall_app. split; [apply Hl|by constructor].
    + intros b p Hb Hpb. rewrite Hm, Hf. apply elem_of_app in Hb as [Hb|Hb].
      * destruct (lo_owned _ _ Hl b p Hb Hpb). set_solver.
      * apply list_elem_of_singleton in Hb as ->. cbn in Hpb. split; [|set_solver]. apply (free_managed _ Hok). set_solver.
    + assert (∀ i b, self !! i = Some b → la_addr b ≠ a) as Hnew.
      { intros i b Hb Eab. assert (record_ok b) as Hrb by (eapply Forall_lookup_1; [apply Hl|done]).
        apply record_head in Hrb. destruct (lo_owned _ _ Hl b a) as [_ Hnf].
        - by eapply list_elem_of_lookup_2.
        - rewrite <- Eab. by eapply list_elem_of_lookup_2.
        - apply Hnf, Hsub, elem_of_list_to_set. by eapply list_elem_of_lookup_2. }
      intros i j b c Hb Hc Hij. apply lookup_app_Some in Hb as [Hb|[Hi Hb]], Hc as [Hc|[Hj Hc]].
      * by apply (lo_distinct _ _ Hl i j).
      * apply list_lookup_singleton_Some in Hc as [_ <-]. by eapply Hnew.
      * apply list_lookup_singleton_Some in Hb as [_ <-]. intros ?. by eapply Hnew.
      * apply list_lookup_singleton_Some in Hb as [Hb _], Hc as [Hc _]. lia.
Qed.

(** Releasing the newest record by its address and size. *)
Lemma Large_dealloc_last self a w : world_ok w → large_ok (self ++ [a]) w →
  ∃ w', Large_dealloc (self ++ [a]) w (la_addr a) (la_size a) = Ret (self, w') ∧ world_ok w' ∧
    free_frames (w_frames w') = list_to_set (la_frames a) ∪ free_frames (w_frames w).
Proof.
  intros Hw Hl. unfold Large_dealloc, find_record.
  assert (list_find (λ b, la_addr b = la_addr a ∧ la_size b = la_size a) (self ++ [a]) = Some (length self, a)) as ->.
  { apply list_find_Some. split_and!; [by rewrite list_lookup_middle|done|done|]. intros j b Hb Hlt [Hab _]. revert Hab.
    eapply (lo_distinct _ _ Hl j (length self)); [done|by rewrite list_lookup_middle|lia]. }
  rewrite list_lookup_middle by done. cbn [unwrap]. step_ret.
  destruct (drop_trackers_ok (la_frames a) w Hw) as (w' & E & Hw' & _ & Hf & _).
  { intros p Hp%elem_of_list_to_set. eapply (lo_owned _ _ Hl a); [|done]. apply elem_of_app. right. by left. }
  rewrite E. step_ret. exists w'. rewrite delete_middle, app_nil_r. done.
Qed.
End heap.

(** C25: a large heap request that the buddy allocator cannot serve is sound: it answers
    null with no frame lost, or an address aligned as asked whose bytes all lie in frames
    that were free and are now owned by the new record alone; and releasing that address
    with the same size gives exactly those frames back and restores the records (for a
    kernel heap that does not overlap the frames). *)
Theorem heap_large_roundtrip {FS} `{FL : FrameSourceLaws FS} {B} (buddy : Buddy B) (heap_start heap_size : Z)
    (h : HeapState (FS := FS)) (b : B) (size align : Z) :
  world_ok (h_world h) → large_ok (h_large h) (h_world h) → LARGE_ALLOC_THRESHOLD < size → size + PAGE_SIZE < USIZE →
  (∀ p, p ∈ managed_frames (w_frames (h_world h)) → p ≠ 0 ∧ ¬ (heap_start ≤ p ∧ p < heap_start +u heap_size)) →
  buddy_alloc B buddy (h_buddy h) size align = (0, b) →
  ∃ ptr h', heap_alloc buddy h size align = Ret (ptr, h') ∧ world_ok (h_world h') ∧ h_buddy h' = b ∧
    (ptr = 0 → h_large h' = h_large h ∧ free_frames (w_frames (h_world h')) = free_frames (w_frames (h_world h))) ∧
    (ptr ≠ 0 → align_up ptr align = ptr ∧ large_ok (h_large h') (h_world h') ∧
       (∀ x, ptr ≤ x < ptr + size → ∃ p, p ≤ x < p + PAGE_SIZE ∧ p ∈ free_frames (w_frames (h_world h)) ∧
          (p ∉ free_frames (w_frames (h_world h')))) ∧
       ∃ h'', heap_dealloc buddy heap_start heap_size h' ptr size align = Ret h'' ∧ world_ok (h_world h'') ∧
         h_large h'' = h_large h ∧ free_frames (w_frames (h_world h'')) = free_frames (w_frames (h_world h))).
Proof.
  intros Hw Hl Hs Hu Hheap Hb. unfold heap_alloc. rewrite decide_True, Hb by done. rewrite decide_False by naive_solver.
  destruct (Large_alloc_spec (h_large h) (h_world h) size align Hw Hl) as (o & self' & w' & E & Hw' & Ho);
    [unfold LARGE_ALLOC_THRESHOLD in *; lia|done|]. rewrite E. step_ret. eexists _, _. split; [done|]. cbn [h_world h_buddy h_large].
  destruct o as [ptr|]; cbn [from_option]; unfold id; [|split_and!; naive_solver].
  destruct Ho as (a & -> & Ea & Es & Hr & Hl' & Hal & Hsub & Hf & Hm). destruct Hr as (Hpos & (n & Hfr & Hn) & _).
  assert (ptr ∈ la_frames a) as Hin.
  { eapply list_elem_of_lookup_2. rewrite <- Ea. apply record_head. split_and!; [done|by exists n|rewrite Hfr; apply NoDup_frames_from]. }
  destruct (Hheap ptr) as [Hne Hout]; [apply (free_managed _ (proj1 Hw)); set_solver|].
  split_and!; [done|done|done|]. intros _. split_and!; [done|done| |].
  - intros x Hx. exists (ptr + (x - ptr) / PAGE_SIZE * PAGE_SIZE).
    pose proof (Z.div_mod (x - ptr) PAGE_SIZE ltac:(done)). pose proof (Z.mod_pos_bound (x - ptr) PAGE_SIZE ltac:(done)).
    assert (ptr + (x - ptr) / PAGE_SIZE * PAGE_SIZE ∈ la_frames a) as Hpf.
    { rewrite Hfr. unfold frames_from. apply list_elem_of_fmap. exists ((x - ptr) / PAGE_SIZE). rewrite Ea. split; [done|].
      apply elem_of_seqZ. unfold PAGE_SIZE in *. lia. }
    rewrite Hf. split_and!; [unfold PAGE_SIZE in *; lia|unfold PAGE_SIZE in *; lia|set_solver|set_solver].
  - unfold heap_dealloc. rewrite !decide_False by done. cbn [h_large h_world].
    destruct (Large_dealloc_last (h_large h) a w' Hw' Hl') as (w'' & Ed & Hw'' & Hf''). rewrite Ea, Es in Ed. rewrite Ed. step_ret.
    eexists. split; [done|]. cbn [h_world h_large w_frames]. split_and!; [done|done|]. rewrite Hf'', Hf.
    apply set_eq. intros x. destruct (decide (x ∈ la_frames a)); set_solver.
Qed.

(** ** Witness: a buddy allocator that is always full, 65 free frames *)

Definition full_buddy : Buddy unit := mkBuddy unit (λ b _ _, (0, b)) (λ b _ _ _, b).

Definition big_region : FrameRegionMap := mkRegion [0; 18446744073709551614] 0x80000000 (0x80000000 + 65 * 4096).

Lemma big_region_wf : region_wf big_region.
Proof.
  destruct (region_new_spec 0x80000000 (0x80000000 + 65 * 4096)) as (r & E & Hwf & _); [lia|done|done|done|].
  vm_compute in E. injection E as <-. exact Hwf.
Qed.

Definition big_heap : HeapState (FS := FrameAllocator) (B := unit) := mkHeap tt [] (mkWorld [big_region] (λ _, 0)).

Lemma heap_large_roundtrip_witness : ∃ ptr h', heap_alloc full_buddy big_heap 262145 4096 = Ret (ptr, h') ∧ ptr = 0x80000000.
Proof.
  destruct (heap_large_roundtrip full_buddy 0x90000000 0x1000 big_heap tt 262145 4096) as (ptr & h' & E & _).
  - split; [constructor; [exact big_region_wf|constructor|constructor]|intros p i _ _; reflexivity].
  - split; [constructor|intros a p Ha; by apply elem_of_nil in Ha|intros i j a b Ha; discriminate Ha].
  - reflexivity.
  - reflexivity.
  - intros p Hp. assert (0x80000000 ≤ p < 0x80000000 + 65 * 4096) as Hr.
    { change (p ∈ fa_managed [big_region]) in Hp. rewrite fa_managed_cons, fa_managed_nil in Hp.
      apply elem_of_union in Hp as [Hp|Hp]; [|set_solver]. exact (proj1 (region_frames_range big_region p big_region_wf Hp)). }
    split; [lia|]. change (0x90000000 +u 0x1000) with 0x90001000. lia.
  - reflexivity.
  - exists ptr, h'. split; [exact E|]. vm_compute in E. injection E as <- _. reflexivity.
Defined.
