(* ===== verification/FdTable.v ===== *)
(** * File descriptors

    Models kernel/src/tasks/filetable.rs, the descriptor operations of [UserTask]
    (kernel/src/tasks/task.rs) and [sys_prlimit64] (kernel/src/syscall/sys.rs), which sets
    the limit they check.  [F] are the open files ([Arc<File>]). *)

From S2P Require Import Prelude Path Vfs Pipe File.

Definition FILE_MAX : Z := 255.
Definition AT_CWD : Z := -100.

Definition rlimits_new : list Z := [0; 0; 0; 0; usize_max; 0; 0; FILE_MAX].

Section fds.
Context {F : Type}.

Abbreviation FileTable := (list (option F)).

(** The first three descriptors share one open terminal. *)
Definition FileTable_new (tty : F) : FileTable := replicate 3 (Some tty) ++ replicate 252 None.

Record Fds := mkFds { fd_table : FileTable; rlimits : list Z }.

(** [rlimits[i]], an index that panics. *)
Definition rlimit (p : Fds) (i : nat) : outcome Z := unwrap (rlimits p !! i).

Definition get_fd (p : Fds) (index : Z) : outcome (option F) :=
  lim ← rlimit p 7;
  if decide (lim ≤ index) then Ret None else unwrap (fd_table p !! Z.to_nat index).

Definition set_fd (p : Fds) (index : Z) (value : F) : outcome Fds :=
  lim ← rlimit p 7;
  if decide (lim ≤ index) then Ret p
  else
    _ ← unwrap (fd_table p !! Z.to_nat index);
    Ret (mkFds (<[Z.to_nat index := Some value]> (fd_table p)) (rlimits p)).

Definition clear_fd (p : Fds) (index : Z) : Fds :=
  if decide (Z.of_nat (length (fd_table p)) ≤ index) then p
  else mkFds (<[Z.to_nat index := None]> (fd_table p)) (rlimits p).

Definition alloc_fd (p : Fds) : outcome (option Z * Fds) :=
  lim ← rlimit p 7;
  let index := (λ e, Z.of_nat e.1) <$>
    List.find (λ e, match e.2 with None => bool_decide (Z.of_nat e.1 < lim) | Some _ => false end) (imap pair (fd_table p)) in
  match index with
  | None =>
      if decide (Z.of_nat (length (fd_table p)) < lim) then
        let table := fd_table p ++ [None] in Ret (Some (Z.of_nat (length table) - 1), mkFds table (rlimits p))
      else Ret (None, p)
  | Some i => Ret (Some i, p)
  end.

(** Every descriptor set to [None], as [simple_cleanup] does. *)
Definition simple_cleanup (p : Fds) : Fds := mkFds (replicate (length (fd_table p)) None) (rlimits p).

(** A user's [Rlimit] structure: current and maximal value. *)
Record Rlimit := mkRlimit { rl_curr : Z; rl_max : Z }.

(** Setting and then reporting one limit of the vector. *)
Definition prlimit_one (p : Fds) (umem : gmap Z Rlimit) (i : nat) (new_limit old_limit : Z) (missing : option Z)
    : outcome (Fds * gmap Z Rlimit) :=
  p ← (if decide (new_limit ≠ 0) then
         l ← unwrap (umem !! new_limit);
         let lims := match missing with Some _ => if decide (length (rlimits p) ≤ i)%nat then resize 8 0 (rlimits p) else rlimits p
                                      | None => rlimits p end in
         _ ← unwrap (lims !! i);
         Ret (mkFds (fd_table p) (<[i := rl_max l]> lims))
       else Ret p);
  if decide (old_limit ≠ 0) then
    v ← match missing with
        | Some d => if decide (length (rlimits p) ≤ i)%nat then Ret d else rlimit p i
        | None => rlimit p i
        end;
    Ret (p, <[old_limit := mkRlimit v v]> umem)
  else Ret (p, umem).

Definition sys_prlimit64 (p : Fds) (umem : gmap Z Rlimit) (resource new_limit old_limit : Z)
    : outcome (result Z * Fds * gmap Z Rlimit) :=
  '(p, umem) ← (if decide (resource = 3) then prlimit_one p umem 3 new_limit old_limit None
                else if decide (resource = 4) then prlimit_one p umem 4 new_limit old_limit (Some usize_max)
                else if decide (resource = 7) then prlimit_one p umem 7 new_limit old_limit None
                else Ret (p, umem));
  Ret (Ok 0, p, umem).

(** [fd_resolve]: [path_of] is [File::path_buf]; a negative descriptor is a huge index. *)
Definition fd_resolve (path_of : F → PathBuf) (p : Fds) (curr_dir : F) (fd : Z) (filename : string) : result PathBuf :=
  if starts_with_slash filename then Ok (PathBuf_from filename)
  else if decide (fd = AT_CWD) then Ok (PathBuf_join (path_of curr_dir) filename)
  else match mjoin (fd_table p !! Z.to_nat (wrap fd)) with
       | Some parent => Ok (PathBuf_join (path_of parent) filename)
       | None => Err EBADF
       end.

(** ** Allocation *)

Definition limit_of (p : Fds) (lim : Z) : Prop := rlimits p !! 7%nat = Some lim ∧ 0 ≤ lim.

Lemma alloc_find (l : FileTable) (lim : Z) (k : nat) (g : nat → option F → nat * option F) :
  (∀ i x, g i x = ((k + i)%nat, x)) →
  match List.find (λ e : nat * option F, match e.2 with None => bool_decide (Z.of_nat e.1 < lim) | Some _ => false end) (imap g l) with
  | Some (i, _) => (k ≤ i < k + length l)%nat ∧ l !! (i - k)%nat = Some None ∧ Z.of_nat i < lim ∧
      ∀ j, (j < i - k)%nat → l !! j ≠ Some None
  | None => ∀ i, Z.of_nat (k + i) < lim → l !! i ≠ Some None
  end.
Proof.
  revert k g. induction l as [|x l IH]; intros k g Hg; [done|]. cbn [imap List.find]. rewrite Hg, Nat.add_0_r. cbn [fst snd].
  assert (∀ i x, (g ∘ S) i x = ((S k + i)%nat, x)) as Hg' by (intros; cbn; rewrite Hg; f_equal; lia).
  specialize (IH (S k) (g ∘ S) Hg'). destruct (match x with Some _ => false | None => _ end) eqn:Hx.
  - destruct x; [done|]. apply bool_decide_eq_true in Hx. rewrite Nat.sub_diag. cbn. split_and!; [lia|lia|done|done|lia].
  - assert (x = None → lim ≤ Z.of_nat k) as Hx' by (intros ->; apply bool_decide_eq_false in Hx; lia).
    destruct (List.find _ _) as [[i o]|].
    + destruct IH as (Hi & Hl & Hlim & Hlow). replace (i - k)%nat with (S (i - S k)) by lia. cbn [length]. split_and!; [lia|lia|done|done|].
      intros [|j] Hj; cbn; [|apply Hlow; lia]. intros [= ->]. specialize (Hx' eq_refl). lia.
    + intros [|i] Hi; cbn; [|apply IH; lia]. intros [= ->]. specialize (Hx' eq_refl). lia.
Qed.
End fds.


