(* ===== verification/Mm.v ===== *)
(** * Address spaces: mapping, unmapping and the program break

    Models the memory operations of [UserTask] (kernel/src/tasks/task.rs: [map],
    [frame_alloc], [map_frames], [sbrk], [get_last_free_addr]) and the memory system calls
    (kernel/src/syscall/mm.rs) for the riscv64 build.  An address space has its areas, its
    page table, the frames and bytes behind them, the program break and the attached shared
    segments.  Reading the mapped file is the parameter [file_read] and storing its bytes at a
    user address [fill] (FileMap gives it); [count] gives the references to a tracked frame. *)

From S2P Require Import Prelude Frame Memory Path Vfs Pipe File MemSet FdTable.

Definition MAP_AREA_START : Z := 0x200000000.

Definition MAP_SHARED : Z := 0x01.
Definition MAP_FIXED : Z := 0x10.
Definition MAP_ANONYMOUS : Z := 0x20.

(** The union of the declared flags, for [from_bits_truncate]. *)
Definition MapFlags_all : Z := 0x1ff93f.

(** [MmapProt::from_bits_truncate] and [Into<MappingFlags>]: the permission of a mapping. *)
Definition prot_flags (prot : Z) : Z :=
  let res := MF_U in
  let res := if Z.testbit prot 0 then Z.lor res MF_R else res in
  let res := if Z.testbit prot 1 then Z.lor res MF_W else res in
  if Z.testbit prot 2 then Z.lor res MF_X else res.

(** An attached shared segment ([MapedSharedMemory]) with the frames it holds. *)
Record ShmMap := mkShmMap { sh_start : Z; sh_size : Z; sh_frames : list Z }.

Section mm.
Context {FS : Type} `{FL : FrameSourceLaws FS} {F : Type}.
Context (count : Z → nat) (file_read : F → Z → Z → result (list Z)).

Record AddrSpace := mkSpace {
  as_memset : list (MemArea F);
  as_pt : PageTable;
  as_heap : Z;
  as_shms : list ShmMap;
  as_world : World FS;
}.

(** Storing bytes at a user address. *)
Context (fill : AddrSpace → Z → list Z → outcome AddrSpace).

Definition with_world (s : AddrSpace) (w : World FS) : AddrSpace := mkSpace (as_memset s) (as_pt s) (as_heap s) (as_shms s) w.
Definition push_area (s : AddrSpace) (a : MemArea F) : AddrSpace :=
  mkSpace (as_memset s ++ [a]) (as_pt s) (as_heap s) (as_shms s) (as_world s).

Definition with_pt (s : AddrSpace) (pt : PageTable) : AddrSpace := mkSpace (as_memset s) pt (as_heap s) (as_shms s) (as_world s).

(** The trackers of freshly allocated frames at consecutive pages (all at 0 for address 0). *)
Definition make_trackers (va : Z) (frames : list Z) : list MapTrack :=
  imap (λ i x, mkTrack (if decide (va = 0) then va else va +u (Z.of_nat i *u PAGE_SIZE)) x 0) frames.

Definition map_trackers (s : AddrSpace) (l : list MapTrack) (flags : Z) : outcome AddrSpace :=
  pt ← foldM (λ pt x, task_map pt (tracker x) (vaddr x) flags) (filter (λ x, vaddr x ≠ 0) l) (as_pt s);
  Ret (with_pt s pt).

(** Extends the first stack area, or pushes the area of the whole stack. *)
Fixpoint extend_stack (l : list (MemArea F)) (trackers : list MapTrack) : option (list (MemArea F)) :=
  match l with
  | [] => None
  | a :: l => if decide (mtype a = Stack) then Some (set_trackers a (mtrackers a ++ trackers) :: l)
              else cons a <$> extend_stack l trackers
  end.

Definition add_area (s : AddrSpace) (ty : MemType) (trackers : list MapTrack) (file : option F) (offset start len : Z) : AddrSpace :=
  if decide (ty = Stack) then
    match extend_stack (as_memset s) trackers with
    | Some l => mkSpace l (as_pt s) (as_heap s) (as_shms s) (as_world s)
    | None => push_area s (mkArea ty trackers None 0 0x70000000 0x10000000)
    end
  else push_area s (mkArea ty trackers file offset start len).

Definition map_frames (s : AddrSpace) (va : Z) (ty : MemType) (cnt : Z) (file : option F) (offset start len mapping_flags : Z)
    : outcome (option Z * AddrSpace) :=
  if decide (cnt ≤ 0) then Panic
  else
    '(o, fs) ← frame_alloc_much (w_frames (as_world s)) cnt;
    let s := with_world s (mkWorld fs (w_mem (as_world s))) in
    match o with
    | None => Ret (None, s)
    | Some frames =>
        let trackers := make_trackers va frames in
        s ← (if decide (va ≠ 0) then map_trackers s trackers mapping_flags else Ret s);
        ppn ← unwrap (frames !! 0%nat);
        Ret (Some ppn, add_area s ty trackers file offset start len)
    end.

(** The segmented fallback of [frame_alloc]: the trackers allocated so far, or [None] with
    all of them dropped. *)
Fixpoint alloc_segments (fuel : nat) (w : World FS) (acc : list MapTrack) (remaining current_vaddr : Z)
    : outcome (option (list MapTrack) * World FS) :=
  match fuel with
  | O => Panic
  | S fuel =>
      if decide (remaining ≤ 0) then Ret (Some acc, w)
      else
        let segment_size := Z.min (Z.max (remaining / 2) 1) 16 in
        '(o, fs) ← frame_alloc_much (w_frames w) segment_size;
        let w := mkWorld fs (w_mem w) in
        match o with
        | Some frames =>
            alloc_segments fuel w (acc ++ make_trackers current_vaddr frames) (remaining - segment_size)
              (if decide (current_vaddr ≠ 0) then current_vaddr +u (segment_size *u PAGE_SIZE) else current_vaddr)
        | None => w ← drop_trackers w (tracker <$> acc); Ret (None, w)
        end
  end.

(** The permissions [frame_alloc] maps with. *)
Definition alloc_flags (ty : MemType) : Z := if decide (ty = ShareFile) then URW else URWX.

Definition frame_alloc_area (s : AddrSpace) (va : Z) (ty : MemType) (cnt : Z) : outcome (option Z * AddrSpace) :=
  if decide (ty = Mmap ∧ 1 < cnt) then
    '(o, fs) ← frame_alloc_much (w_frames (as_world s)) cnt;
    let w := mkWorld fs (w_mem (as_world s)) in
    '(o, w) ← match o with
              | Some frames => Ret (Some (make_trackers va frames), w)
              | None => alloc_segments (S (Z.to_nat cnt)) w [] cnt va
              end;
    let s := with_world s w in
    match o with
    | None => Ret (None, s)
    | Some trackers =>
        first ← unwrap (trackers !! 0%nat);
        s ← (if decide (va ≠ 0) then map_trackers s trackers (alloc_flags ty) else Ret s);
        Ret (Some (tracker first), push_area s (mkArea ty trackers None 0 va (cnt *u PAGE_SIZE)))
    end
  else map_frames s va ty cnt None 0 va (cnt *u PAGE_SIZE) (alloc_flags ty).

Definition sbrk (s : AddrSpace) (addr : Z) : outcome (Z * AddrSpace) :=
  let curr_page := div_ceil (as_heap s) PAGE_SIZE in
  let after_page := div_ceil addr PAGE_SIZE in
  s ← foldM (λ s i, '(_, s) ← frame_alloc_area s (i *u PAGE_SIZE) Mmap 1; Ret s) (seqZ curr_page (after_page - curr_page)) s;
  Ret (addr, mkSpace (as_memset s) (as_pt s) addr (as_shms s) (as_world s)).

Definition get_last_free_addr (s : AddrSpace) : Z :=
  let map_last := foldl (λ acc a, Z.max acc (astart a +u alen a)) 0 (filter (λ a, mtype a ≠ Stack) (as_memset s)) in
  let shm_last := foldl (λ acc v, Z.max (sh_start v +u sh_size v) acc) 0 (as_shms s) in
  Z.max map_last shm_last.

(** Dropped trackers give their frame back when they held the last reference. *)
Definition release (w : World FS) (dropped : list MapTrack) : outcome (World FS) :=
  foldM (λ w x, if decide (count (tracker x) = 1%nat) then FrameTracker_drop w (tracker x) else Ret w) dropped w.

Definition space_sub (s : AddrSpace) (start end_ : Z) : outcome AddrSpace :=
  '(memset, pt, _, dropped) ← sub_area count (as_memset s) start end_ (as_pt s);
  w ← release (as_world s) dropped;
  Ret (mkSpace memset pt (as_heap s) (as_shms s) w).

Definition sys_brk (s : AddrSpace) (addr : Z) : outcome (result Z * AddrSpace) :=
  if decide (addr = 0) then Ret (Ok (as_heap s), s)
  else '(r, s) ← sbrk s addr; Ret (Ok r, s).

(** [sys_mmap] after the choice of the file and the address. *)
Definition mmap_at (s : AddrSpace) (file : option F) (addr len prot flags off : Z) : outcome (result Z * AddrSpace) :=
  let pages := ((len +u PAGE_SIZE) -u 1) / PAGE_SIZE in
  '(r, s) ← (if contains flags MAP_SHARED then
               match file with
               | Some f =>
                   '(o, s) ← map_frames s addr ShareFile pages (Some f) off addr len (prot_flags prot);
                   match o with Some _ => Ret (Ok tt, s) | None => Ret (Err EFAULT, s) end
               | None =>
                   '(o, s) ← frame_alloc_area s addr Shared (div_ceil len PAGE_SIZE);
                   match o with
                   | None => Ret (Err EFAULT, s)
                   | Some paddr =>
                       pt ← foldM (λ pt i, task_map pt (paddr +u (i *u PAGE_SIZE)) (addr +u (i *u PAGE_SIZE)) (prot_flags prot))
                              (seqZ 0 pages) (as_pt s);
                       Ret (Ok tt, with_pt s pt)
                   end
               end
             else
               match file with
               | Some _ =>
                   '(o, s) ← frame_alloc_area s addr Mmap (div_ceil len PAGE_SIZE);
                   match o with Some _ => Ret (Ok tt, s) | None => Ret (Err EFAULT, s) end
               | None => Ret (Ok tt, push_area s (mkArea Mmap [] None 0 addr len))
               end);
  match r with
  | Err e => Ret (Err e, s)
  | Ok _ =>
      match file with
      | None => Ret (Ok addr, s)
      | Some f =>
          match file_read f off len with
          | Ok data => s ← fill s addr data; Ret (Ok addr, s)
          | Err e => s ← space_sub s addr (addr +u len); Ret (Err e, s)
          end
      end
  end.

Definition sys_mmap (fds : Fds (F := F)) (s : AddrSpace) (start len prot flags fd off : Z) : outcome (result Z * AddrSpace) :=
  let flags := Z.land (flags mod 4294967296) MapFlags_all in
  let len := alignup len PAGE_SIZE in
  file ← (if decide (fd = usize_max ∨ contains flags MAP_ANONYMOUS = true) then Ret None else get_fd fds fd);
  let addr := get_last_free_addr s in
  let addr := if decide (start = 0) then (if decide (MAP_AREA_START ≤ addr) then addr else MAP_AREA_START) else start in
  if decide (len = 0) then Ret (Ok addr, s)
  else if contains flags MAP_FIXED then
    s ← (if set_overlapping (as_memset s) addr (addr +u len) then space_sub s addr (addr +u len) else Ret s);
    mmap_at s file addr len prot flags off
  else if set_overlapping (as_memset s) addr (addr +u len) then Ret (Err EINVAL, s)
  else mmap_at s file addr len prot flags off.

Definition sys_munmap (s : AddrSpace) (start len : Z) : outcome (result Z * AddrSpace) :=
  s ← space_sub s start (start +u len); Ret (Ok 0, s).

Definition sys_mprotect (s : AddrSpace) : result Z * AddrSpace := (Ok 0, s).
Definition sys_msync (s : AddrSpace) : result Z * AddrSpace := (Ok 0, s).

(** The robust list of a thread: head and length; [mapped] is [translate(..).is_some()]. *)
Definition sys_set_robust_list (mapped : Z → bool) (tcb : Z * Z) (head len : Z) : result Z * (Z * Z) :=
  if decide (len ≠ 24) then (Err EINVAL, tcb)
  else if decide (head ≠ 0 ∧ 0x8000000000000000 ≤ head) then (Err EFAULT, tcb)
  else if decide (head ≠ 0 ∧ mapped head = false) then (Err EFAULT, tcb)
  else (Ok 0, (head, len)).

(** Both results are written as 0; the words written so far stay written on an error. *)
Definition sys_get_robust_list (mapped : Z → bool) (umem : gmap Z Z) (head_ptr len_ptr : Z) : result Z * gmap Z Z :=
  let store (m : gmap Z Z) (p : Z) : option (gmap Z Z) :=
    if decide (p = 0) then Some m
    else if decide (0x8000000000000000 ≤ p) then None
    else if mapped p then Some (<[p := 0]> m) else None in
  match store umem head_ptr with
  | None => (Err EFAULT, umem)
  | Some m => match store m len_ptr with
              | None => (Err EFAULT, m)
              | Some m => (Ok 0, m)
              end
  end.
End mm.

(** ** Placement of new mappings *)

Lemma foldl_max_ge {A} (f : A → Z) (l : list A) (z : Z) :
  z ≤ foldl (λ acc a, Z.max acc (f a)) z l ∧ ∀ x, x ∈ l → f x ≤ foldl (λ acc a, Z.max acc (f a)) z l.
Proof.
  revert z. induction l as [|y l IH]; intros z; cbn [foldl]; [split; [lia|by intros x ?%elem_of_nil]|].
  destruct (IH (Z.max z (f y))) as [H1 H2]. split; [lia|]. intros x [->|Hx]%elem_of_cons; [lia|by apply H2].
Qed.

Section placement.
Context {FS : Type} `{FL : FrameSourceLaws FS} {F : Type}.
Implicit Types (s : AddrSpace (FS := FS) (F := F)).

Lemma last_free_ge s a : a ∈ as_memset s → area_ok a → mtype a ≠ Stack → astart a + alen a ≤ get_last_free_addr s.
Proof.
  intros Ha Hok Ht. unfold get_last_free_addr.
  destruct (foldl_max_ge (λ a : MemArea F, astart a +u alen a) (filter (λ a, mtype a ≠ Stack) (as_memset s)) 0) as [_ H'].
  specialize (H' a). rewrite <- (aend_eq a Hok). unfold aend. etransitivity; [apply H'; by apply list_elem_of_filter|]. lia.
Qed.

Lemma set_overlapping_false (l : list (MemArea F)) start end_ :
  Forall (λ a, area_overlapping a start end_ = false) l → set_overlapping l start end_ = false.
Proof. intros Hl. unfold set_overlapping. by rewrite (proj2 (find_None_Forall _ _) Hl). Qed.

Lemma sub_step_disjoint count start end_ (kept new : list (MemArea F)) pt wb dr a :
  area_overlapping a start end_ = false → alen a ≠ 0 →
  sub_step count start end_ (kept, new, pt, wb, dr) a = Ret (kept ++ [a], new, pt, wb, dr).
Proof.
  intros Ho Hl. unfold sub_step, area_sub. rewrite Ho. cbn [negb]. step_ret. cbn [sub_new sub_area_ sub_pt sub_wb sub_dropped].
  rewrite decide_True by done. by rewrite !app_nil_r.
Qed.

Lemma sub_steps_disjoint count start end_ (l kept new : list (MemArea F)) pt wb dr :
  Forall (λ a, area_overlapping a start end_ = false ∧ alen a ≠ 0) l →
  foldM (sub_step count start end_) l (kept, new, pt, wb, dr) = Ret (kept ++ l, new, pt, wb, dr).
Proof.
  intros Hl. revert kept. induction Hl as [|a l [Ho Hn] _ IH]; intros kept; [by rewrite app_nil_r|].
  cbn [foldM]. rewrite sub_step_disjoint by done. rewrite IH. by rewrite <- app_assoc.
Qed.

(** Removing exactly an untouched anonymous area. *)
Lemma sub_area_exact count (l : list (MemArea F)) a pt : area_ok a → 0 < alen a → mtrackers a = [] → afile a = None → mtype a = Mmap →
  Forall (λ b, area_overlapping b (astart a) (astart a + alen a) = false ∧ alen b ≠ 0) l →
  sub_area count (l ++ [a]) (astart a) (astart a + alen a) pt = Ret (l, pt, [], []).
Proof.
  intros Ha Hlen Ht Hf Hm Hl. pose proof Ha as [Hst _ Hend _]. unfold sub_area. rewrite foldM_app, sub_steps_disjoint by done. cbn [app]. step_ret.
  cbn [foldM]. unfold sub_step, area_sub, area_overlapping. rewrite !aend_eq by done. rewrite !bool_decide_eq_false_2 by lia. cbn [orb negb].
  assert (range_contains (astart a) (astart a + alen a) (astart a) = true) as -> by (apply range_contains_spec; lia).
  assert (range_contains (astart a) (astart a + alen a) (astart a + alen a) = false) as -> by (apply range_contains_false; lia).
  cbn [andb]. unfold write_back. cbn [afile set_len]. rewrite Hf. step_ret. cbn [mtrackers set_len]. rewrite Ht.
  cbn [filter list_filter foldl sub_new sub_area_ sub_pt sub_wb sub_dropped alen set_trackers].
  rewrite Z.sub_diag. rewrite decide_False by (intros E; by apply E). unfold area_drop. cbn [mtype set_trackers set_len]. rewrite Hm. step_ret.
  cbn [mtrackers set_trackers]. by rewrite app_nil_r.
Qed.
End placement.

(** ** Segmented allocation *)

Section segments.
Context {FS : Type} `{FL : FrameSourceLaws FS}.

Definition frames_of (l : list MapTrack) : gset Z := list_to_set (tracker <$> l).

Lemma make_trackers_frames va l : tracker <$> make_trackers va l = l.
Proof.
  unfold make_trackers. apply list_eq. intros i. rewrite list_lookup_fmap, list_lookup_imap. by destruct (l !! i).
Qed.

Lemma length_make_trackers va l : length (make_trackers va l) = length l.
Proof. unfold make_trackers. by rewrite length_imap. Qed.

Lemma page_add_wrap va n : va mod PAGE_SIZE = 0 → (va +u (n *u PAGE_SIZE)) mod PAGE_SIZE = 0.
Proof.
  intros Hva. unfold wrap. change USIZE with (4503599627370496 * PAGE_SIZE). rewrite Z.mul_mod_distr_r by done.
  rewrite <- (page_div_mul va Hva), <- Z.mul_add_distr_r, Z.mul_mod_distr_r by done. by apply Z.mod_mul.
Qed.

Lemma make_trackers_aligned va l : va mod PAGE_SIZE = 0 → Forall (λ x, vaddr x mod PAGE_SIZE = 0) (make_trackers va l).
Proof.
  intros Hva. apply Forall_forall. intros x (i & Hi)%list_elem_of_lookup. unfold make_trackers in Hi. rewrite list_lookup_imap in Hi.
  destruct (l !! i); [|done]. injection Hi as <-. cbn [vaddr]. case_decide; [done|]. by apply page_add_wrap.
Qed.

(** Allocating a run of frames keeps the world well-formed. *)
Lemma world_alloc_much_ok w n : world_ok w → 0 ≤ n → ∃ o fs, frame_alloc_much (w_frames w) n = Ret (o, fs) ∧
  world_ok (mkWorld fs (w_mem w)) ∧ managed_frames fs = managed_frames (w_frames w) ∧
  match o with
  | Some l => Z.of_nat (length l) = n ∧ list_to_set l ⊆ free_frames (w_frames w) ∧ free_frames fs = free_frames (w_frames w) ∖ list_to_set l
  | None => fs = w_frames w
  end.
Proof.
  intros [Hok Hz] Hn. destruct (frame_alloc_much_law (w_frames w) n Hok Hn) as (o & fs & E & Hok' & Hm & Ho).
  exists o, fs. split_and!; [done| |done|].
  - split; [done|]. cbn [w_frames w_mem]. intros p i Hp. apply Hz. destruct o as [l|]; [|by subst]. destruct Ho as (_ & _ & Hf). set_solver.
  - destruct o as [l|]; [|done]. destruct Ho as ((a & ->) & Hsub & Hf). split_and!; try done.
    unfold frames_from. rewrite length_fmap, length_seqZ. lia.
Qed.

(** The loop ends within its fuel, and either gets all the frames or gives every one back. *)
Lemma alloc_segments_spec fuel w acc remaining va : world_ok w → frames_of acc ⊆ managed_frames (w_frames w) →
  0 ≤ remaining < Z.of_nat fuel → va mod PAGE_SIZE = 0 →
  ∃ o w', alloc_segments fuel w acc remaining va = Ret (o, w') ∧ world_ok w' ∧
    managed_frames (w_frames w') = managed_frames (w_frames w) ∧
    match o with
    | Some l => ∃ new, l = acc ++ new ∧ Z.of_nat (length new) = remaining ∧ Forall (λ x, vaddr x mod PAGE_SIZE = 0) new ∧ frames_of new ⊆ free_frames (w_frames w) ∧
        free_frames (w_frames w') = free_frames (w_frames w) ∖ frames_of new
    | None => free_frames (w_frames w') = frames_of acc ∪ free_frames (w_frames w)
    end.
Proof.
  revert w acc remaining va. induction fuel as [|fuel IH]; intros w acc remaining va Hw Hacc Hfuel Hva; [lia|].
  cbn [alloc_segments]. case_decide as Hrem.
  { exists (Some acc), w. split_and!; try done. exists []. rewrite app_nil_r. split_and!; [done|cbn; lia|constructor|set_solver|set_solver]. }
  set (n := Z.min (Z.max (remaining / 2) 1) 16). pose proof (Z.div_le_upper_bound remaining 2 remaining ltac:(lia) ltac:(lia)).
  destruct (world_alloc_much_ok w n Hw ltac:(lia)) as (o & fs & -> & Hw1 & Hm1 & Ho). step_ret. destruct o as [l|].
  - destruct Ho as (Hlen & Hsub & Hf).
    destruct (IH (mkWorld fs (w_mem w)) (acc ++ make_trackers va l) (remaining - n)
      (if decide (va ≠ 0) then va +u (n *u PAGE_SIZE) else va)) as (o & w' & -> & Hw' & Hm' & Ho); [done| |lia|case_decide; [|done]; by apply page_add_wrap|].
    { unfold frames_of. rewrite fmap_app, make_trackers_frames, list_to_set_app_L. cbn [w_frames]. rewrite Hm1.
      pose proof (free_managed _ (proj1 Hw)). set_solver. }
    cbn [w_frames] in *. exists o, w'. split_and!; [done|done|congruence|]. destruct o as [l'|].
    + destruct Ho as (new & -> & Hnl & Hna & Hns & Hnf). exists (make_trackers va l ++ new). rewrite <- app_assoc.
      unfold frames_of in *. rewrite fmap_app, make_trackers_frames, list_to_set_app_L, length_app, length_make_trackers.
      split_and!; [done|lia| |set_solver|set_solver]. apply Forall_app. split; [by apply make_trackers_aligned|done].
    + unfold frames_of in *. rewrite fmap_app, make_trackers_frames, list_to_set_app_L in Ho. rewrite Ho, Hf.
      apply set_eq. intros x. rewrite !elem_of_union, elem_of_difference. destruct (decide (x ∈ (list_to_set l : gset Z))); set_solver.
  - subst fs. destruct (drop_trackers_ok (tracker <$> acc) (mkWorld (w_frames w) (w_mem w))) as (w' & -> & Hw' & Hm' & Hf' & _); [by destruct w|done|].
    step_ret. by exists None, w'.
Qed.

Lemma map_trackers_ok {F} (s : AddrSpace (FS := FS) (F := F)) l flags : source_ok (w_frames (as_world s)) →
  frames_of l ⊆ managed_frames (w_frames (as_world s)) → Forall (λ x, vaddr x mod PAGE_SIZE = 0) l →
  ∃ pt, map_trackers s l flags = Ret (with_pt s pt).
Proof.
  intros Hok Hsub Hal. unfold map_trackers. generalize (as_pt s). intros pt. revert pt. induction Hal as [|x l Hx Hal IH]; intros pt.
  { cbn [filter list_filter foldM]. step_ret. eauto. }
  assert (frames_of l ⊆ managed_frames (w_frames (as_world s))) as Hl by (unfold frames_of in *; cbn [fmap list_fmap list_to_set] in Hsub; set_solver).
  specialize (IH Hl). rewrite filter_cons. case_decide; [|apply IH]. cbn [foldM]. unfold task_map at 1. rewrite decide_True; [step_ret; apply IH|].
  split; [|done]. apply (managed_aligned _ _ Hok), Hsub. unfold frames_of. cbn. set_solver.
Qed.
End segments.

(** A multi-page allocation for a task takes all its frames or none: a contiguous run if
    there is one, else smaller runs (the loop of halves of at most 16 pages always ends);
    on success one area tracks exactly the requested number of pages, on frames that were
    free; on failure the frames taken so far are free again and the address space is
    unchanged. *)
Theorem frame_alloc_all_or_nothing {FS} `{FL : FrameSourceLaws FS} {F} (s : AddrSpace (FS := FS) (F := F)) (va cnt : Z) :
  world_ok (as_world s) → 1 < cnt → cnt * PAGE_SIZE < USIZE → va mod PAGE_SIZE = 0 →
  ∃ o s', frame_alloc_area s va Mmap cnt = Ret (o, s') ∧ world_ok (as_world s') ∧ as_heap s' = as_heap s ∧
    match o with
    | Some _ => ∃ l, as_memset s' = as_memset s ++ [mkArea Mmap l None 0 va (cnt * PAGE_SIZE)] ∧ Z.of_nat (length l) = cnt ∧
        frames_of l ⊆ free_frames (w_frames (as_world s)) ∧
        free_frames (w_frames (as_world s')) = free_frames (w_frames (as_world s)) ∖ frames_of l
    | None => as_memset s' = as_memset s ∧ as_pt s' = as_pt s ∧ free_frames (w_frames (as_world s')) = free_frames (w_frames (as_world s))
    end.
Proof.
  intros Hw Hcnt Hu Hva. unfold frame_alloc_area. rewrite decide_True by done.
  destruct (world_alloc_much_ok (as_world s) cnt Hw ltac:(lia)) as (o & fs & -> & Hw1 & Hm1 & Ho). step_ret.
  assert (∃ o' w', match o with Some frames => Ret (Some (make_trackers va frames), mkWorld fs (w_mem (as_world s)))
                 | None => alloc_segments (S (Z.to_nat cnt)) (mkWorld fs (w_mem (as_world s))) [] cnt va end = Ret (o', w') ∧ world_ok w' ∧
    managed_frames (w_frames w') = managed_frames (w_frames (as_world s)) ∧
    match o' with
    | Some l => Z.of_nat (length l) = cnt ∧ Forall (λ x, vaddr x mod PAGE_SIZE = 0) l ∧ frames_of l ⊆ free_frames (w_frames (as_world s)) ∧
        free_frames (w_frames w') = free_frames (w_frames (as_world s)) ∖ frames_of l
    | None => free_frames (w_frames w') = free_frames (w_frames (as_world s))
    end) as (o' & w' & -> & Hw' & Hm' & Ho').
  { destruct o as [frames|].
    - eexists _, _. split; [done|]. destruct Ho as (Hl & Hsub & Hf). unfold frames_of. rewrite length_make_trackers, make_trackers_frames.
      split_and!; try done. by apply make_trackers_aligned.
    - subst fs. destruct (alloc_segments_spec (S (Z.to_nat cnt)) (mkWorld (w_frames (as_world s)) (w_mem (as_world s))) [] cnt va Hw1) as (o & w' & -> & H1 & H2 & H3);
        [unfold frames_of; set_solver|lia|done|]. cbn [w_frames] in *. exists o, w'. split_and!; try done. destruct o as [l|].
      + by destruct H3 as (new & -> & ? & ? & ? & ?).
      + rewrite H3. unfold frames_of. set_solver. }
  step_ret. destruct o' as [l|].
  - destruct Ho' as (Hl & Hal & Hsub & Hf). destruct l as [|x l]; [cbn in Hl; lia|]. cbn [lookup list_lookup unwrap]. step_ret.
    set (s1 := with_world s w').
    assert (∃ s2, (if decide (va ≠ 0) then map_trackers s1 (x :: l) (alloc_flags Mmap) else Ret s1) = Ret s2 ∧
      as_memset s2 = as_memset s ∧ as_world s2 = w' ∧ as_heap s2 = as_heap s) as (s2 & -> & Hms & Hws & Hh).
    { case_decide; [|by eexists]. destruct (map_trackers_ok s1 (x :: l) (alloc_flags Mmap)) as (pt & ->); [apply Hw'| |done|by eexists].
      cbn [s1 with_world as_world]. rewrite Hm'. pose proof (free_managed _ (proj1 Hw)). set_solver. }
    step_ret. eexists _, _. split; [done|]. cbn [push_area as_memset as_world as_heap]. rewrite Hws, Hms. split_and!; try done.
    eexists. split; [|done]. by rewrite (wrap_small (cnt * PAGE_SIZE)) by (unfold is_usize, PAGE_SIZE in *; lia).
  - eexists None, _. split; [done|]. by split_and!.
Qed.

(** ** Growing the program break *)

(** The one-page area [sbrk] adds for a frame. *)
Definition page_area {F} (va p : Z) : MemArea F := mkArea Mmap [mkTrack va p 0] None 0 va PAGE_SIZE.

Section brk.
Context {FS : Type} `{FL : FrameSourceLaws FS} {F : Type}.
Implicit Types (s : AddrSpace (FS := FS) (F := F)).

Definition space_free s : gset Z := free_frames (w_frames (as_world s)).

Lemma brk_page s va : source_ok (w_frames (as_world s)) → 0 < va → va mod PAGE_SIZE = 0 → is_usize va →
  ∃ o s', frame_alloc_area s va Mmap 1 = Ret (o, s') ∧ source_ok (w_frames (as_world s')) ∧
    as_shms s' = as_shms s ∧ w_mem (as_world s') = w_mem (as_world s) ∧
    match o with
    | Some p => p ∈ space_free s ∧ space_free s' = space_free s ∖ {[p]} ∧
                as_memset s' = as_memset s ++ [page_area va p] ∧ as_pt s' = <[va := (p, URWX)]> (as_pt s)
    | None => space_free s = ∅ ∧ s' = s
    end.
Proof.
  intros Hok Hva Hal Hu. unfold frame_alloc_area. rewrite decide_False by lia. unfold map_frames. rewrite decide_False by lia.
  destruct (frame_alloc_much_law (w_frames (as_world s)) 1 Hok) as (o & fs & E & Hok' & _ & Ho); [lia|]. rewrite E. step_ret.
  destruct o as [l|].
  - destruct Ho as ((p & ->) & Hsub & Hf). change (frames_from p 1) with [p + 0 * PAGE_SIZE] in *. rewrite Z.mul_0_l, Z.add_0_r in *.
    assert (p ∈ free_frames (w_frames (as_world s))) as Hp by set_solver.
    destruct (managed_aligned _ p Hok) as [_ Hpa]; [by apply free_managed|].
    rewrite decide_True by lia. unfold make_trackers. cbn [imap]. rewrite (decide_False (P := va = 0)) by lia.
    replace (va +u (Z.of_nat 0 *u PAGE_SIZE)) with va by (rewrite (wrap_small (Z.of_nat 0 * _)) by done; rewrite wrap_small; [lia|by rewrite Z.add_0_r]).
    unfold map_trackers. rewrite filter_cons_True by (cbn; lia). cbn [filter list_filter foldM]. unfold task_map. cbn [tracker vaddr].
    rewrite decide_True by done. step_ret. cbn [lookup list_lookup unwrap]. step_ret. unfold add_area. rewrite decide_False by done.
    eexists (Some p), _. split; [done|]. unfold space_free. cbn [push_area with_world with_pt as_memset as_pt as_shms as_world w_frames w_mem].
    split_and!; try done. rewrite Hf. set_solver.
  - subst fs. exists None, s. split; [by destruct s as [? ? ? ? []]|]. split_and!; try done.
    by apply (frame_alloc_one_law _ _ Hok E).
Qed.

Lemma brk_pages n s curr : source_ok (w_frames (as_world s)) → 0 < curr → (curr + Z.of_nat n) * PAGE_SIZE < USIZE →
  ∃ frames s', foldM (λ s i, '(_, s) ← frame_alloc_area s (i *u PAGE_SIZE) Mmap 1; Ret s) (seqZ curr (Z.of_nat n)) s = Ret s' ∧
    source_ok (w_frames (as_world s')) ∧ as_shms s' = as_shms s ∧ w_mem (as_world s') = w_mem (as_world s) ∧
    length frames = (n `min` size (space_free s))%nat ∧ NoDup frames ∧ list_to_set frames ⊆ space_free s ∧
    space_free s' = space_free s ∖ list_to_set frames ∧
    as_memset s' = as_memset s ++ imap (λ k p, page_area ((curr + Z.of_nat k) * PAGE_SIZE) p) frames ∧
    (∀ k p, frames !! k = Some p → as_pt s' !! ((curr + Z.of_nat k) * PAGE_SIZE) = Some (p, URWX)) ∧
    (∀ va, (∀ k, (k < length frames)%nat → va ≠ (curr + Z.of_nat k) * PAGE_SIZE) → as_pt s' !! va = as_pt s !! va).
Proof.
  revert s curr. induction n as [|n IH]; intros s curr Hok Hc Hu.
  { exists [], s. split; [done|]. split_and!; try done; try constructor; try set_solver; by rewrite ?app_nil_r. }
  replace (Z.of_nat (S n)) with (Z.succ (Z.of_nat n)) in * by lia. rewrite seqZ_cons by lia. rewrite Z.pred_succ. cbn [foldM].
  assert (is_usize (curr * PAGE_SIZE)) as Hva by (unfold is_usize, PAGE_SIZE in *; lia). rewrite (wrap_small _ Hva).
  destruct (brk_page s (curr * PAGE_SIZE)) as (o & s1 & -> & Hok1 & Hsh1 & Hm1 & Ho); [done|unfold PAGE_SIZE; lia|by apply Z.mod_mul|done|].
  step_ret. destruct (IH s1 (Z.succ curr) Hok1) as (fr & s2 & -> & Hok2 & Hsh2 & Hm2 & Hlen & Hnd & Hsub & Hf & Hms & Hpt & Hpt'); [lia|lia|].
  destruct o as [p|].
  - destruct Ho as (Hp & Hf1 & Hms1 & Hpt1). rewrite Hf1 in *.
    exists (p :: fr), s2. split; [done|]. split_and!; [done|congruence|congruence|..].
    + cbn [length]. rewrite Hlen, size_difference by set_solver. rewrite size_singleton.
      assert (size (space_free s) ≠ 0%nat) by (apply size_non_empty_iff; set_solver). lia.
    + constructor; [|done]. intros Hin. assert (p ∈ (list_to_set fr : gset Z)) by (by apply elem_of_list_to_set). set_solver.
    + set_solver.
    + rewrite Hf. set_solver.
    + rewrite Hms, Hms1, <- app_assoc. f_equal. cbn [imap app]. rewrite Z.add_0_r. f_equal. apply imap_ext. intros k x _. cbn. do 2 f_equal; lia.
    + intros [|k] x; cbn [lookup list_lookup].
      * intros [= <-]. rewrite Z.add_0_r. rewrite Hpt', Hpt1; [apply lookup_insert_eq|]. intros k _. unfold PAGE_SIZE; lia.
      * intros Hx. rewrite <- (Hpt k x Hx). f_equal. lia.
    + intros va Hne. rewrite Hpt', Hpt1; [apply lookup_insert_ne; intros E|intros k Hk E].
      * apply (Hne 0%nat); [cbn; lia|]. by rewrite Z.add_0_r.
      * apply (Hne (S k)); [cbn; lia|]. rewrite E. f_equal. lia.
  - destruct Ho as [He ->]. rewrite He in *. rewrite size_empty in *. assert (fr = []) as -> by (apply length_zero_iff_nil; lia).
    exists [], s2. split; [done|]. cbn [imap length] in *. split_and!; try done; try lia; try constructor; [congruence..|].
    intros va _. apply Hpt'. intros k Hk. lia.
Qed.
End brk.


Definition demo_space : AddrSpace (FS := FrameAllocator) (F := unit) :=
  mkSpace [mkArea CodeSection [] None 0 0x10000 0x3000] ∅ 0x13000 [] (mkWorld [demo_region] (λ _, 0)).
Definition demo_fds : Fds (F := unit) := mkFds (FileTable_new tt) rlimits_new.


(** C27: an anonymous private mapping gets fresh addresses and can be undone: [mmap] with no
    address hint returns an address at or above the mapping area such that none of the
    mapped addresses belonged to an area before, and adds one area of the rounded length;
    unmapping exactly that range gives back the very same address space (for non-empty
    well-formed areas and a stack below the mapping area). *)
Theorem mmap_munmap_roundtrip {FS} `{FL : FrameSourceLaws FS} {F} (count : Z → nat) (file_read : F → Z → Z → result (list Z))
    (fill : AddrSpace → Z → list Z → outcome AddrSpace) (fds : Fds) (s : AddrSpace (FS := FS)) (len prot fd off : Z) :
  Forall (λ a, area_ok a ∧ 0 < alen a ∧ (mtype a = Stack → astart a + alen a ≤ MAP_AREA_START)) (as_memset s) →
  0 < len → 0 ≤ get_last_free_addr s → Z.max (get_last_free_addr s) MAP_AREA_START + len + PAGE_SIZE < USIZE →
  ∃ addr s', sys_mmap count file_read fill fds s 0 len prot (Z.lor MAP_ANONYMOUS 2) fd off = Ret (Ok addr, s') ∧
    MAP_AREA_START ≤ addr ∧ as_memset s' = as_memset s ++ [mkArea Mmap [] None 0 addr (alignup len PAGE_SIZE)] ∧
    (∀ x, addr ≤ x < addr + alignup len PAGE_SIZE → existsb (λ a, area_contains a x) (as_memset s) = false) ∧
    sys_munmap count s' addr (alignup len PAGE_SIZE) = Ret (Ok 0, s).
Proof.
  intros Hok Hlen Hlast Hu. set (addr := Z.max (get_last_free_addr s) MAP_AREA_START) in *.
  destruct (alignup_spec len) as [Hal _]; [lia|unfold addr, MAP_AREA_START in *; lia|]. set (n := alignup len PAGE_SIZE) in *.
  assert (0 ≤ addr) as Hpos by (unfold addr, MAP_AREA_START; lia).
  assert (∀ a, a ∈ as_memset s → area_ok a ∧ 0 < alen a ∧ astart a + alen a ≤ addr) as Hbelow.
  { intros a Ha. rewrite Forall_forall in Hok. destruct (Hok a Ha) as (H1 & H2 & H3). split_and!; [done|done|].
    destruct (decide (mtype a = Stack)) as [E|E]; [specialize (H3 E); unfold addr; lia|].
    pose proof (last_free_ge s a Ha H1 E). unfold addr. lia. }
  assert (∀ e, addr ≤ e → Forall (λ a, area_overlapping a addr e = false ∧ alen a ≠ 0) (as_memset s)) as Hno.
  { intros e He. apply Forall_forall. intros a Ha. destruct (Hbelow a Ha) as (H1 & H2 & H3). split; [|lia].
    apply area_overlapping_spec; [done|]. lia. }
  exists addr, (push_area s (mkArea Mmap [] None 0 addr n)). split_and!.
  - unfold sys_mmap. change (Z.land (Z.lor MAP_ANONYMOUS 2 mod 4294967296) MapFlags_all) with 34.
    rewrite (decide_True (P := fd = usize_max ∨ contains 34 MAP_ANONYMOUS = true)) by (by right). step_ret. fold n. rewrite (decide_True (P := 0 = 0)) by done.
    replace (if decide (MAP_AREA_START ≤ get_last_free_addr s) then _ else _) with addr
      by (unfold addr; case_decide; lia). rewrite decide_False by lia.
    change (contains 34 MAP_FIXED) with false. cbn iota. rewrite wrap_small by (unfold is_usize; lia).
    rewrite set_overlapping_false by (eapply Forall_impl; [apply (Hno (addr + n)); lia|by intros a [? _]]).
    unfold mmap_at. change (contains 34 MAP_SHARED) with false. cbn iota. by step_ret.
  - unfold addr. lia.
  - done.
  - intros x Hx. apply not_true_is_false. intros (a & Ha & Hc)%existsb_exists. apply list_elem_of_In in Ha.
    destruct (Hbelow a Ha) as (H1 & _ & H3). apply area_contains_spec in Hc; [lia|done].
  - unfold sys_munmap, space_sub. rewrite wrap_small by (unfold is_usize; lia). cbn [push_area as_memset as_pt as_heap as_shms as_world].
    rewrite (sub_area_exact count (as_memset s) (mkArea Mmap [] None 0 addr n)); [|split; cbn [astart alen mtrackers]; try done; try lia|cbn [alen]; lia|done|done|done|cbn [astart alen]; apply Hno; lia].
    step_ret. unfold release. cbn [foldM]. step_ret. by destruct s.
Qed.

Lemma mmap_munmap_roundtrip_witness : ∃ s', sys_mmap (λ _, 1%nat) (λ _ _ _, Ok []) (λ s _ _, Ret s) demo_fds demo_space 0 5000 3 0x22 usize_max 0 =
    Ret (Ok 0x200000000, s') ∧ sys_munmap (λ _, 1%nat) s' 0x200000000 0x2000 = Ret (Ok 0, demo_space).
Proof.
  destruct (mmap_munmap_roundtrip (λ _, 1%nat) (λ _ _ _, Ok []) (λ s _ _, Ret s) demo_fds demo_space 5000 3 usize_max 0) as (addr & s' & E & _ & _ & _ & H).
  - constructor; [|constructor]. split_and!; [split; vm_compute; done || lia|done|done].
  - lia.
  - done.
  - vm_compute. reflexivity.
  - exists s'. assert (addr = 0x200000000) as ->.
    { vm_compute in E. congruence. }
    split; [exact E|exact H].
Defined.


(** A caller-chosen unaligned address reaches the alignment assertion of [UserTask::map]. *)
Example mmap_unaligned_panics :
  sys_mmap (λ _, 1%nat) (λ _ _ _, Ok []) (λ s _ _, Ret s) demo_fds demo_space 0x200000001 100 3 (Z.lor MAP_SHARED MAP_ANONYMOUS) usize_max 0 = Panic.
Proof. vm_compute. reflexivity. Qed.

(** With both frames taken, the break still moves and no page is mapped. *)
Example brk_without_memory : ∃ s1 s2, sys_brk demo_space 0x15000 = Ret (Ok 0x15000, s1) ∧
  sys_brk s1 0x99000 = Ret (Ok 0x99000, s2) ∧ as_memset s2 = as_memset s1 ∧ as_pt s2 = as_pt s1.
Proof. do 2 eexists. split; [vm_compute; reflexivity|]. split; [vm_compute; reflexivity|]. done. Qed.

Lemma frame_alloc_all_or_nothing_witness : ∃ s', frame_alloc_area demo_space 0x20000 Mmap 3 = Ret (None, s') ∧
  free_frames (w_frames (as_world s')) = free_frames (w_frames (as_world demo_space)).
Proof.
  destruct (frame_alloc_all_or_nothing demo_space 0x20000 3) as (o & s' & E & _ & _ & H); [|lia|done|done|].
  - split; [exact demo_fa_wf|]. intros. reflexivity.
  - assert (match frame_alloc_area demo_space 0x20000 Mmap 3 with Ret (None, _) => true | _ => false end = true) as Hn by (vm_compute; reflexivity).
    rewrite E in Hn. destruct o; [discriminate Hn|]. exists s'. split; [exact E|apply H].
Defined.
