(* ===== verification/Cow.v ===== *)
(** * Page faults and copy-on-write

    Models the page-fault handler [user_cow_int] and [task_ilegal] (kernel/src/user/mod.rs),
    [get_elf_segment_for_addr] and the memory part of [cow_fork]
    (kernel/src/tasks/task.rs).  Reading a mapped file and asking its size are the
    parameters [file_read] and [file_size]; [count] is [Arc::strong_count] of a frame.  The
    main theorem shows that the handler and fork together implement private memories: fork
    copies a memory, a store changes the memory of one process, a fault changes none. *)

From S2P Require Import Prelude Frame Signal Memory MemSet Mm.

Definition page_floor (va : Z) : Z := va / PAGE_SIZE * PAGE_SIZE.

Section faults.
Context {FS : Type} `{FL : FrameSourceLaws FS} {F : Type}.
Context (file_read : F → Z → Z → result (list Z)) (file_size : F → option Z) (count : Z → nat).
Implicit Types (s : AddrSpace (FS := FS) (F := F)) (w : World FS) (a : MemArea F).

(** What a fault changes: the address space (and the frames behind it), the pending
    signals of the thread, the counters of the thread-local-storage branch, and the exit
    code when the handler ends the task. *)
Record Fault := mkFault { ft_space : AddrSpace (FS := FS) (F := F); ft_signal : Z; ft_tls : Z * Z; ft_exit : option Z }.

(** Replaces the frame of the first tracker of a page. *)
Fixpoint set_tracker (l : list MapTrack) (page p : Z) : list MapTrack :=
  match l with
  | [] => []
  | x :: l => if decide (vaddr x = page) then mkTrack (vaddr x) p (rwx x) :: l else x :: set_tracker l page p
  end.

Definition find_tracker a (page : Z) : option MapTrack := List.find (λ x, bool_decide (vaddr x = page)) (mtrackers a).

(** The frame for a page of an area, copied or allocated when needed; [None] stands for the
    branches that post [SIGSEGV]. *)
Definition cow_page w a (va : Z) : outcome (option (Z * MemArea F) * World FS) :=
  let page := page_floor va in
  match find_tracker a page with
  | Some x =>
      if decide (mtype a = Shared ∨ mtype a = ShareFile) then Ret (Some (tracker x, a), w)
      else if decide (1 < count (tracker x))%nat then
        '(o, fs) ← frame_alloc (w_frames w);
        match o with
        | None => Ret (None, mkWorld fs (w_mem w))
        | Some dst =>
            let m := mem_write (w_mem w) dst (mem_read (w_mem w) (tracker x) (Z.to_nat PAGE_SIZE)) in
            Ret (Some (dst, set_trackers a (set_tracker (mtrackers a) page dst)), mkWorld fs m)
        end
      else Ret (Some (tracker x, a), w)
  | None =>
      if decide (get_free_pages (w_frames w) < 10) then Ret (None, w)
      else
        '(o, fs) ← frame_alloc (w_frames w);
        match o with
        | None => Ret (None, mkWorld fs (w_mem w))
        | Some p =>
            let file_offset := aoffset a +u (page -u astart a) in
            let m := match afile a with
                     | Some file => match file_read file file_offset PAGE_SIZE with
                                    | Ok data => mem_write (w_mem w) p data
                                    | Err _ => w_mem w
                                    end
                     | None => w_mem w
                     end in
            Ret (Some (p, set_trackers a (mtrackers a ++ [mkTrack page p 7])), mkWorld fs m)
        end
  end.

Definition cow_flags a (va : Z) : Z := if decide (mtype a = Mmap ∧ 0x200000000 ≤ va) then URW else URWX.

(** The gap between two neighbouring areas that holds the address, for an area with a file. *)
Fixpoint elf_gap (l : list (MemArea F)) (va : Z) : option (F * Z * Z) :=
  match l with
  | [] => None
  | current :: l =>
      match (next ← head l;
             let gap_start := astart current +u alen current in
             let gap_end := astart next in
             if decide (gap_start < gap_end ∧ gap_start ≤ va < gap_end) then
               file ← afile current; Some (file, aoffset current +u (va -u astart current), gap_end - gap_start)
             else None) with
      | Some r => Some r
      | None => elf_gap l va
      end
  end.

Definition get_elf_segment_for_addr (l : list (MemArea F)) (va : Z) : option (F * Z * Z) :=
  match elf_gap l va with
  | Some r => Some r
  | None =>
      a ← List.find (λ a, area_contains a va && bool_decide (is_Some (afile a))) l;
      file ← afile a;
      Some (file, aoffset a +u (page_floor va -u astart a), alen a)
  end.

(** Loading a page of the program file; [true] when the handler returns there. *)
Definition load_elf_page s (va : Z) : outcome (bool * AddrSpace (FS := FS) (F := F)) :=
  match get_elf_segment_for_addr (as_memset s) va with
  | None => Ret (false, s)
  | Some (file, file_offset, _) =>
      match file_size file with
      | None => Ret (true, s)
      | Some size =>
          if decide (size ≤ file_offset) then Ret (true, s)
          else
            '(o, s) ← frame_alloc_area s (page_floor va) Mmap 1;
            match o with
            | None => Ret (false, s)
            | Some ppn =>
                let read_size := Z.min PAGE_SIZE (size - file_offset) in
                if decide (0 < read_size) then
                  match file_read file file_offset read_size with
                  | Ok data => Ret (true, with_world s (mkWorld (w_frames (as_world s)) (mem_write (w_mem (as_world s)) ppn data)))
                  | Err _ => Ret (false, s)
                  end
                else Ret (false, s)
            end
      end
  end.

(** The page from the program file, or else a blank page, or else [SIGSEGV]. *)
Definition elf_or_blank s (sig : Z) (tls : Z * Z) (va : Z) : outcome Fault :=
  '(loaded, s) ← load_elf_page s va;
  if (loaded : bool) then Ret (mkFault s sig tls None)
  else
    '(o, s) ← frame_alloc_area s (page_floor va) Mmap 1;
    match o with
    | Some _ => Ret (mkFault s sig tls None)
    | None => Ret (mkFault s (add_signal sig SIGSEGV) tls None)
    end.

(** A fault outside every area, by address range. *)
Definition fault_outside s (sig : Z) (tls : Z * Z) (va : Z) : outcome Fault :=
  '(grown, s) ← (if decide (0x70000000 ≤ va < 0x80000000) then
                   '(o, s) ← frame_alloc_area s (page_floor va) Stack 1; Ret (bool_decide (is_Some o), s)
                 else Ret (false, s));
  if (grown : bool) then Ret (mkFault s sig tls None)
  else if decide (va < 0x1000) then
    if has_sig sig SIGSEGV then Ret (mkFault s sig tls (Some (128 + num SIGSEGV)))
    else Ret (mkFault s (add_signal sig SIGSEGV) tls None)
  else if decide (0x10000 ≤ va < 0x100000) then elf_or_blank s sig tls va
  else if decide (0x1000000 ≤ va < 0x2000000) then
    '(o, s) ← frame_alloc_area s (page_floor va) Mmap 12;
    match o with
    | Some _ => Ret (mkFault s sig tls None)
    | None => Ret (mkFault s (add_signal sig SIGSEGV) tls None)
    end
  else if decide (0x200000000 ≤ va < 0x300000000) then
    let tls := if decide (tls.1 = page_floor va) then (tls.1, tls.2 +u 1) else (page_floor va, 1) in
    if decide (3 < tls.2) then Ret (mkFault s sig tls (Some 1))
    else
      '(o, s) ← frame_alloc_area s (page_floor va) Mmap 1;
      match o with
      | Some ppn =>
          Ret (mkFault (with_world s (mkWorld (w_frames (as_world s)) (clear_len (w_mem (as_world s)) ppn PAGE_SIZE))) sig (tls.1, 0) None)
      | None => Ret (mkFault s (add_signal (add_signal sig SIGSEGV) SIGSEGV) tls None)
      end
  else if decide (0x200a0000 ≤ va < 0x300b0000) then elf_or_blank s sig tls va
  else Ret (mkFault s (add_signal sig SIGSEGV) tls None).

Definition user_cow_int s (sig : Z) (tls : Z * Z) (va : Z) : outcome Fault :=
  match list_find (λ a, area_contains a va = true) (as_memset s) with
  | Some (i, area) =>
      '(o, w) ← cow_page (as_world s) area va;
      let s := with_world s w in
      match o with
      | None => Ret (mkFault s (add_signal sig SIGSEGV) tls None)
      | Some (ppn, area') =>
          pt ← task_map (as_pt s) ppn (page_floor va) (cow_flags area va);
          Ret (mkFault (mkSpace (<[i := area']> (as_memset s)) pt (as_heap s) (as_shms s) w) sig tls None)
      end
  | None => fault_outside s sig tls va
  end.

(** [task_ilegal]: skips a two-byte instruction on a tracked address, or posts [SIGILL]. *)
Definition task_ilegal s (sig sepc va : Z) : Z * Z :=
  match List.find (λ a, area_contains a va) (as_memset s) with
  | Some area => match find_tracker area va with
                 | Some _ => (sig, sepc +u 2)
                 | None => (add_signal sig SIGILL, sepc)
                 end
  | None => (add_signal sig SIGILL, sepc)
  end.

(** The permission fork leaves on the pages of an area, in both processes. *)
Definition fork_flags a : Z := if decide (mtype a = Shared ∨ mtype a = ShareFile) then URWX else URX.

(** One area: every tracked page mapped in the child and again in the parent. *)
Definition fork_area (pts : PageTable * PageTable) a : outcome (PageTable * PageTable) :=
  foldM (λ pts x,
    child ← task_map pts.1 (tracker x) (vaddr x) (fork_flags a);
    parent ← task_map pts.2 (tracker x) (vaddr x) (fork_flags a);
    Ret (child, parent)) (mtrackers a) pts.

(** The attached segments, mapped in the child. *)
Definition fork_shm (pt : PageTable) (shm : ShmMap) : outcome PageTable :=
  foldM (λ pt ix, task_map pt ix.2 (sh_start shm +u (Z.of_nat ix.1 *u PAGE_SIZE)) URWX) (imap pair (sh_frames shm)) pt.

(** The memory of [cow_fork]: the child's address space and the parent's. *)
Definition cow_fork_memory s : outcome (AddrSpace (FS := FS) (F := F) * AddrSpace (FS := FS) (F := F)) :=
  '(child, parent) ← foldM fork_area (as_memset s) (∅, as_pt s);
  child ← foldM fork_shm (as_shms s) child;
  Ret (mkSpace (as_memset s) child (as_heap s) (as_shms s) (as_world s), with_pt s parent).
End faults.

(** ** Systems of processes *)

Section system.
Context {FS : Type} `{FL : FrameSourceLaws FS} {F : Type}.
Context (file_read : F → Z → Z → result (list Z)) (file_size : F → option Z).
Implicit Types (s : AddrSpace (FS := FS) (F := F)) (w : World FS) (a : MemArea F).

Record Sys := mkSys { sy_procs : gmap Z (AddrSpace (FS := FS) (F := F)); sy_world : World FS }.
Implicit Types (sys : Sys).

Definition space_trackers s : list MapTrack := concat (mtrackers <$> as_memset s).

Definition all_trackers sys : list (Z * MapTrack) :=
  concat ((λ ps, (λ x, (ps.1, x)) <$> space_trackers ps.2) <$> map_to_list (sy_procs sys)).

(** [Arc::strong_count] of a frame: the trackers of all processes that hold it. *)
Definition frame_refs sys (p : Z) : nat := length (filter (λ y, tracker y.2 = p) (all_trackers sys)).

Lemma elem_space_trackers s x : x ∈ space_trackers s ↔ ∃ a, a ∈ as_memset s ∧ x ∈ mtrackers a.
Proof.
  unfold space_trackers. rewrite list_elem_of_In, in_concat. split.
  - intros (l & Hl & Hx). apply list_elem_of_In in Hl, Hx. apply list_elem_of_fmap in Hl as (a & -> & Ha). eauto.
  - intros (a & Ha & Hx). exists (mtrackers a). split; apply list_elem_of_In; [|done]. by apply list_elem_of_fmap_2.
Qed.

Lemma elem_all_trackers sys pid x :
  (pid, x) ∈ all_trackers sys ↔ ∃ s, sy_procs sys !! pid = Some s ∧ x ∈ space_trackers s.
Proof.
  unfold all_trackers. rewrite list_elem_of_In, in_concat. split.
  - intros (l & Hl & Hx). apply list_elem_of_In in Hl, Hx. apply list_elem_of_fmap in Hl as ([q s] & -> & Hs).
    apply list_elem_of_fmap in Hx as (y & [= -> ->] & Hy). exists s. split; [by apply elem_of_map_to_list|done].
  - intros (s & Hs & Hx). exists ((λ x, (pid, x)) <$> space_trackers s). split; apply list_elem_of_In.
    + apply list_elem_of_fmap. exists (pid, s). split; [done|]. by apply elem_of_map_to_list.
    + by apply list_elem_of_fmap_2.
Qed.

Lemma filter_two {A} (P : A → Prop) `{∀ x, Decision (P x)} (l : list A) y z :
  y ∈ l → z ∈ l → y ≠ z → P y → P z → (2 ≤ length (filter P l))%nat.
Proof.
  intros Hy Hz Hne Py Pz. assert (y ∈ filter P l ∧ z ∈ filter P l) as [Hy' Hz'] by (rewrite !list_elem_of_filter; done).
  destruct (filter P l) as [|a [|b l']]; cbn; [by apply elem_of_nil in Hy'| |lia].
  apply list_elem_of_singleton in Hy', Hz'. congruence.
Qed.

(** A frame with one reference is held by one tracker. *)
Lemma frame_refs_unique sys p y z : (frame_refs sys p ≤ 1)%nat →
  y ∈ all_trackers sys → z ∈ all_trackers sys → tracker y.2 = p → tracker z.2 = p → y = z.
Proof.
  intros Hc Hy Hz Py Pz. destruct (decide (y.1 = z.1 ∧ y.2 = z.2)) as [[H1 H2]|Hne]; [by apply injective_projections|].
  assert (2 ≤ frame_refs sys p)%nat; [|lia]. unfold frame_refs. apply (filter_two _ _ y z); try done. intros ->. by apply Hne.
Qed.

(** ** The invariant *)

Record space_ok s : Prop := {
  so_area : ∀ a, a ∈ as_memset s → area_ok a ∧ mtype a ≠ Shared ∧ mtype a ≠ ShareFile ∧ afile a = None ∧
    astart a mod PAGE_SIZE = 0 ∧ alen a mod PAGE_SIZE = 0;
  so_disjoint : ∀ i j a b va, as_memset s !! i = Some a → as_memset s !! j = Some b →
    area_contains a va = true → area_contains b va = true → i = j;
  so_tracker : ∀ a x, a ∈ as_memset s → x ∈ mtrackers a → vaddr x mod PAGE_SIZE = 0 ∧ area_contains a (vaddr x) = true;
  so_once : ∀ a, a ∈ as_memset s → NoDup (vaddr <$> mtrackers a);
  so_pt : ∀ v p fl, as_pt s !! v = Some (p, fl) → ∃ x, x ∈ space_trackers s ∧ vaddr x = v ∧ tracker x = p;
  so_shms : as_shms s = [];
}.

Definition writable (fl : Z) : bool := Z.testbit fl 3.

(** The copy-on-write invariant: tracked frames are allocated, and a frame some page table
    maps writable has no second tracker. *)
Record cow_inv sys : Prop := {
  ci_world : world_ok (sy_world sys);
  ci_space : ∀ pid s, sy_procs sys !! pid = Some s → space_ok s;
  ci_owned : ∀ pid x, (pid, x) ∈ all_trackers sys →
    tracker x ∈ managed_frames (w_frames (sy_world sys)) ∧ tracker x ∉ free_frames (w_frames (sy_world sys));
  ci_write : ∀ pid s v p fl, sy_procs sys !! pid = Some s → as_pt s !! v = Some (p, fl) → writable fl = true →
    ∀ q x, (q, x) ∈ all_trackers sys → tracker x = p → q = pid ∧ vaddr x = v;
}.

(** ** What a process sees *)

(** The byte of an area at an address: that of its page, or zero while the page is absent. *)
Definition area_byte w a (va : Z) : Z :=
  match find_tracker a (page_floor va) with
  | Some x => w_mem w (tracker x + va mod PAGE_SIZE)
  | None => 0
  end.

Definition memory sys (pid va : Z) : option Z :=
  s ← sy_procs sys !! pid;
  a ← List.find (λ a, area_contains a va) (as_memset s);
  Some (area_byte (sy_world sys) a va).

Inductive cow_event := Fork (parent child : Z) | Touch (pid va : Z) | Store (pid va b : Z).

(** [cow_fork], a page fault inside an area, and a store through a writable mapping. *)
Inductive cow_step sys : cow_event → Sys → Prop :=
  | step_fork parent child s cs ps :
      sy_procs sys !! parent = Some s → sy_procs sys !! child = None →
      cow_fork_memory (with_world s (sy_world sys)) = Ret (cs, ps) →
      cow_step sys (Fork parent child) (mkSys (<[child := cs]> (<[parent := ps]> (sy_procs sys))) (sy_world sys))
  | step_fault pid s va sig tls r :
      sy_procs sys !! pid = Some s → existsb (λ a, area_contains a va) (as_memset s) = true →
      user_cow_int file_read file_size (frame_refs sys) (with_world s (sy_world sys)) sig tls va = Ret r →
      cow_step sys (Touch pid va) (mkSys (<[pid := ft_space r]> (sy_procs sys)) (as_world (ft_space r)))
  | step_store pid s va b p fl :
      sy_procs sys !! pid = Some s → as_pt s !! page_floor va = Some (p, fl) → writable fl = true →
      cow_step sys (Store pid va b)
        (mkSys (sy_procs sys) (mkWorld (w_frames (sy_world sys)) (mem_write (w_mem (sy_world sys)) (p + va mod PAGE_SIZE) [b]))).

(** The specification: every process has a memory of its own. *)
Definition private_effect (M M' : Z → Z → option Z) (e : cow_event) : Prop :=
  match e with
  | Fork parent child => (∀ va, M' child va = M parent va) ∧ ∀ q va, q ≠ child → M' q va = M q va
  | Touch _ _ => ∀ q va, M' q va = M q va
  | Store pid va b => ∀ q v, M' q v = if decide (q = pid ∧ v = va) then Some b else M q v
  end.

(** ** Pages and areas *)

Lemma page_floor_spec va : page_floor va mod PAGE_SIZE = 0 ∧ page_floor va ≤ va < page_floor va + PAGE_SIZE ∧
  va = page_floor va + va mod PAGE_SIZE.
Proof.
  unfold page_floor. pose proof (Z.div_mod va PAGE_SIZE ltac:(done)). pose proof (Z.mod_pos_bound va PAGE_SIZE ltac:(done)).
  rewrite Z.mod_mul by done. lia.
Qed.

Lemma aligned_page v va : v mod PAGE_SIZE = 0 → v ≤ va < v + PAGE_SIZE → page_floor va = v.
Proof. intros Hv Hva. pose proof (page_div_mul v Hv). unfold page_floor. rewrite <- (Z.div_unique va PAGE_SIZE (v / PAGE_SIZE) (va - v)); lia. Qed.

(** The pages of an area are inside it. *)
Lemma area_page s a va : space_ok s → a ∈ as_memset s → area_contains a (page_floor va) = area_contains a va.
Proof.
  intros Hs Ha. destruct (so_area s Hs a Ha) as (Hok & _ & _ & _ & Hal & Hle). pose proof (page_floor_spec va) as (H1 & H2 & _).
  pose proof (page_div_mul _ Hal). pose proof (page_div_mul _ Hle). pose proof (page_div_mul _ H1).
  destruct (area_contains a va) eqn:E.
  - apply area_contains_spec in E; [|done]. apply area_contains_spec; [done|]. unfold PAGE_SIZE in *. lia.
  - apply not_true_is_false. intros E'. apply not_true_iff_false in E. apply E.
    apply area_contains_spec in E'; [|done]. apply area_contains_spec; [done|]. unfold PAGE_SIZE in *. lia.
Qed.

Lemma find_tracker_Some s a page x : space_ok s → a ∈ as_memset s →
  find_tracker a page = Some x ↔ x ∈ mtrackers a ∧ vaddr x = page.
Proof.
  intros Hs Ha. pose proof (so_once s Hs a Ha) as Hnd. unfold find_tracker. split.
  - intros [Hx%list_elem_of_In E%bool_decide_eq_true]%List.find_some. done.
  - intros [Hx <-]. revert Hx Hnd. generalize (mtrackers a). clear. intros l. induction l as [|y l IH]; intros Hx Hnd; [by apply elem_of_nil in Hx|].
    cbn [List.find]. apply NoDup_cons in Hnd as [Hy Hnd]. apply elem_of_cons in Hx as [->|Hx]; [by rewrite bool_decide_eq_true_2|].
    rewrite bool_decide_eq_false_2; [by apply IH|]. intros E. apply Hy. rewrite E. by apply list_elem_of_fmap_2.
Qed.

Lemma find_tracker_None a page : find_tracker a page = None → ∀ x, x ∈ mtrackers a → vaddr x ≠ page.
Proof.
  intros Hf x Hx. unfold find_tracker in Hf. apply find_None_Forall in Hf. rewrite Forall_forall in Hf.
  apply Hf in Hx. by apply bool_decide_eq_false in Hx.
Qed.

(** The area [find] returns is the only one with the address. *)
Lemma find_area s i a va : space_ok s → as_memset s !! i = Some a → area_contains a va = true →
  List.find (λ a, area_contains a va) (as_memset s) = Some a ∧ list_find (λ a, area_contains a va = true) (as_memset s) = Some (i, a).
Proof.
  intros Hs Hi Hc. split.
  - destruct (List.find _ _) as [b|] eqn:E.
    + apply List.find_some in E as [Hb Hcb]. apply list_elem_of_In, list_elem_of_lookup in Hb as [j Hj].
      pose proof (so_disjoint s Hs _ _ _ _ _ Hi Hj Hc Hcb) as ->. congruence.
    + apply find_None_Forall in E. rewrite Forall_lookup in E. specialize (E i a Hi). cbn in E. congruence.
  - apply list_find_Some. split_and!; [done|done|]. intros j b Hj Hlt Hcb.
    pose proof (so_disjoint s Hs _ _ _ _ _ Hi Hj Hc Hcb). lia.
Qed.

Lemma find_area_None s va : existsb (λ a, area_contains a va) (as_memset s) = false →
  List.find (λ a, area_contains a va) (as_memset s) = None.
Proof.
  intros He. apply find_None_Forall, Forall_forall. intros a Ha. apply not_true_is_false. intros Hc.
  assert (existsb (λ a, area_contains a va) (as_memset s) = true); [|congruence]. apply existsb_exists. exists a. split; [by apply list_elem_of_In|done].
Qed.

(** ** Loads *)

Lemma load_sees_memory sys pid s va p fl : cow_inv sys → sy_procs sys !! pid = Some s → as_pt s !! page_floor va = Some (p, fl) →
  memory sys pid va = Some (w_mem (sy_world sys) (p + va mod PAGE_SIZE)).
Proof.
  intros Hi Hs Hpt. pose proof (ci_space sys Hi pid s Hs) as Hok.
  destruct (so_pt s Hok _ _ _ Hpt) as (x & Hx & Hv & <-). apply elem_space_trackers in Hx as (a & Ha & Hx).
  pose proof (so_tracker s Hok a x Ha Hx) as [_ Hc]. rewrite Hv, (area_page s) in Hc by done.
  apply list_elem_of_lookup in Ha as Hl. destruct Hl as [i Hl].
  unfold memory. rewrite Hs. cbn [mbind option_bind]. rewrite (proj1 (find_area s i a va Hok Hl Hc)). cbn [mbind option_bind].
  unfold area_byte. by rewrite (proj2 (find_tracker_Some s a _ x Hok Ha)).
Qed.

(** ** Stores *)

Lemma mem_write_one m x b y : mem_write m x [b] y = if decide (y = x) then b else m y.
Proof.
  unfold mem_write. cbn [length]. destruct (decide (y = x)) as [->|].
  - rewrite decide_True by lia. by rewrite Z.sub_diag.
  - by rewrite decide_False by lia.
Qed.

Lemma mod_page_range va : 0 ≤ va mod PAGE_SIZE < PAGE_SIZE.
Proof. by apply Z.mod_pos_bound. Qed.

(** Bytes of a frame that is not free can change without breaking the frame source. *)
Lemma world_ok_store w p i b : world_ok w → p ∈ managed_frames (w_frames w) → p ∉ free_frames (w_frames w) → 0 ≤ i < PAGE_SIZE →
  world_ok (mkWorld (w_frames w) (mem_write (w_mem w) (p + i) [b])).
Proof.
  intros [Hok Hz] Hm Hf Hi. split; [done|]. cbn [w_frames w_mem]. intros f j Hfree Hj. rewrite mem_write_one.
  case_decide as E; [|by apply Hz]. exfalso.
  destruct (managed_aligned _ p Hok Hm) as [_ Hp]. destruct (managed_aligned _ f Hok (free_managed _ Hok _ Hfree)) as [_ Hfa].
  destruct (page_offset_inj f p j i) as [-> _]; done.
Qed.

(** The tracker behind a page-table entry. *)
Lemma entry_tracker sys pid s v p fl : cow_inv sys → sy_procs sys !! pid = Some s → as_pt s !! v = Some (p, fl) →
  ∃ x, (pid, x) ∈ all_trackers sys ∧ vaddr x = v ∧ tracker x = p.
Proof.
  intros Hi Hs Hpt. destruct (so_pt s (ci_space sys Hi pid s Hs) _ _ _ Hpt) as (x & Hx & Hv & Hp). exists x.
  split; [|done]. apply elem_all_trackers. eauto.
Qed.

Lemma store_step sys pid s va b p fl : cow_inv sys → sy_procs sys !! pid = Some s → as_pt s !! page_floor va = Some (p, fl) →
  writable fl = true →
  let sys' := mkSys (sy_procs sys) (mkWorld (w_frames (sy_world sys)) (mem_write (w_mem (sy_world sys)) (p + va mod PAGE_SIZE) [b])) in
  cow_inv sys' ∧ private_effect (memory sys) (memory sys') (Store pid va b).
Proof.
  intros Hi Hs Hpt Hw sys'. destruct (entry_tracker _ _ _ _ _ _ Hi Hs Hpt) as (x & Hx & Hv & Ht).
  destruct (ci_owned sys Hi pid x Hx) as [Hm Hf]. rewrite Ht in Hm, Hf.
  assert (cow_inv sys') as Hi'.
  { split; [|exact (ci_space sys Hi)|exact (ci_owned sys Hi)|exact (ci_write sys Hi)].
    apply world_ok_store; [apply (ci_world sys Hi)|done|done|apply mod_page_range]. }
  split; [done|]. intros q v. case_decide as Hqv.
  - destruct Hqv as [-> ->]. rewrite (load_sees_memory sys' pid s va p fl Hi' Hs Hpt). cbn [sys' sy_world w_mem].
    by rewrite mem_write_one, decide_True.
  - unfold memory. cbn [sys' sy_procs sy_world]. destruct (sy_procs sys !! q) as [s2|] eqn:Hq; [|done]. cbn [mbind option_bind].
    destruct (List.find _ _) as [a|] eqn:Ha; [|done]. cbn [mbind option_bind]. f_equal. unfold area_byte.
    destruct (find_tracker a (page_floor v)) as [y|] eqn:Hy; [|done]. cbn [w_mem]. rewrite mem_write_one.
    case_decide as E; [exfalso|done]. pose proof (ci_space sys Hi q s2 Hq) as Hok2.
    apply List.find_some in Ha as [Ha _]. apply list_elem_of_In in Ha. apply (find_tracker_Some s2) in Hy as [Hy Hyv]; [|done|done].
    assert ((q, y) ∈ all_trackers sys) as Hyq by (apply elem_all_trackers; exists s2; split; [done|apply elem_space_trackers; eauto]).
    destruct (ci_world sys Hi) as [Hsrc _]. destruct (managed_aligned _ p Hsrc Hm) as [_ Hpa].
    destruct (managed_aligned _ _ Hsrc (proj1 (ci_owned sys Hi q y Hyq))) as [_ Hya].
    destruct (page_offset_inj _ _ _ _ Hya Hpa (mod_page_range v) (mod_page_range va) E) as [E1 E2].
    destruct (ci_write sys Hi pid s _ p fl Hs Hpt Hw q y Hyq E1) as [-> Hvv]. apply Hqv. split; [done|].
    pose proof (page_floor_spec v) as (_ & _ & ->). pose proof (page_floor_spec va) as (_ & _ & ->). congruence.
Qed.

(** ** Fork *)

Definition insert_ro (pt : PageTable) (x : MapTrack) : PageTable := <[vaddr x := (tracker x, URX)]> pt.

Lemma insert_ro_lookup l pt v : 
  (∃ x, x ∈ l ∧ vaddr x = v ∧ foldl insert_ro pt l !! v = Some (tracker x, URX)) ∨
  ((∀ x, x ∈ l → vaddr x ≠ v) ∧ foldl insert_ro pt l !! v = pt !! v).
Proof.
  revert pt. induction l as [|x l IH] using rev_ind; intros pt; [right; split; [by intros x ?%elem_of_nil|done]|].
  rewrite foldl_snoc. unfold insert_ro at 1 3. destruct (decide (vaddr x = v)) as [<-|Hne].
  - left. exists x. split; [set_solver|]. by rewrite lookup_insert_eq.
  - rewrite lookup_insert_ne by done. destruct (IH pt) as [(y & Hy & Hv & E)|[Hn E]].
    + left. exists y. split; [set_solver|done].
    + right. split; [|done]. intros y [Hy|Hy]%elem_of_app; [by apply Hn|]. apply list_elem_of_singleton in Hy as ->. done.
Qed.

Lemma fork_tables (l : list (MemArea F)) c p : (∀ a x, a ∈ l → x ∈ mtrackers a → vaddr x mod PAGE_SIZE = 0 ∧ tracker x mod PAGE_SIZE = 0) →
  (∀ a, a ∈ l → mtype a ≠ Shared ∧ mtype a ≠ ShareFile) →
  foldM fork_area l (c, p) = Ret (foldl insert_ro c (concat (mtrackers <$> l)), foldl insert_ro p (concat (mtrackers <$> l))).
Proof.
  revert c p. induction l as [|a l IH]; intros c p Hal Hty; [done|]. cbn [foldM fmap list_fmap concat]. rewrite !foldl_app.
  assert (∀ c p, fork_area (c, p) a = Ret (foldl insert_ro c (mtrackers a), foldl insert_ro p (mtrackers a))) as ->.
  { assert (∀ x, x ∈ mtrackers a → vaddr x mod PAGE_SIZE = 0 ∧ tracker x mod PAGE_SIZE = 0) as Ht by (intros x Hx; apply (Hal a x); [by left|done]).
    destruct (Hty a) as [H1 H2]; [by left|]. unfold fork_area, fork_flags. rewrite decide_False by tauto. clear - Ht.
    induction (mtrackers a) as [|x l IH]; intros c p; [done|]. cbn [foldM fst snd foldl]. unfold task_map at 1 2.
    destruct (Ht x) as [Hv Hx]; [by left|]. rewrite !decide_True by done. step_ret. apply IH. intros y Hy. apply Ht. by right. }
  step_ret. apply IH; [|]; intros; [eapply Hal; [by right|done]|apply Hty; by right].
Qed.

Lemma space_ok_same s s' : space_ok s → as_memset s' = as_memset s → as_shms s' = [] →
  (∀ v p fl, as_pt s' !! v = Some (p, fl) → ∃ x, x ∈ space_trackers s ∧ vaddr x = v ∧ tracker x = p) → space_ok s'.
Proof.
  intros Hs Hm Hsh Hpt. unfold space_trackers in *. rewrite <- Hm in Hpt. split; rewrite ?Hm.
  - exact (so_area s Hs).
  - exact (so_disjoint s Hs).
  - exact (so_tracker s Hs).
  - exact (so_once s Hs).
  - exact Hpt.
  - done.
Qed.

(** Both page tables of a fork map the tracked pages and nothing writable. *)
Lemma fork_memory_spec sys pid s : cow_inv sys → sy_procs sys !! pid = Some s →
  ∃ cs ps, cow_fork_memory (with_world s (sy_world sys)) = Ret (cs, ps) ∧
    ∀ s', s' = cs ∨ s' = ps → as_memset s' = as_memset s ∧ as_shms s' = [] ∧
      ∀ v p fl, as_pt s' !! v = Some (p, fl) → writable fl = false ∧ ∃ x, x ∈ space_trackers s ∧ vaddr x = v ∧ tracker x = p.
Proof.
  intros Hi Hs. pose proof (ci_space sys Hi pid s Hs) as Hok. destruct (ci_world sys Hi) as [Hsrc _].
  unfold cow_fork_memory. cbn [with_world as_memset as_pt as_shms as_heap as_world].
  rewrite fork_tables.
  - step_ret. rewrite (so_shms s Hok). cbn [foldM]. step_ret. do 2 eexists. split; [done|].
    fold (space_trackers s). intros s' Hs'. assert (∀ v p fl pt, pt = ∅ ∨ pt = as_pt s →
      foldl insert_ro pt (space_trackers s) !! v = Some (p, fl) → writable fl = false ∧ ∃ x, x ∈ space_trackers s ∧ vaddr x = v ∧ tracker x = p) as Hpt.
    { intros v p fl pt Hpt E. destruct (insert_ro_lookup (space_trackers s) pt v) as [(x & Hx & Hv & E')|[Hn E']].
      - rewrite E in E'. injection E' as -> ->. split; [done|]. eauto.
      - rewrite E in E'. destruct Hpt as [-> | ->]; [done|]. symmetry in E'. destruct (so_pt s Hok _ _ _ E') as (x & Hx & Hv & _).
        by destruct (Hn x Hx). }
    destruct Hs' as [-> | ->]; cbn [as_memset as_shms as_pt with_pt with_world]; split_and!; try done; try apply (so_shms s Hok); intros v p fl; apply Hpt; eauto.
  - intros a x Ha Hx. destruct (so_tracker s Hok a x Ha Hx) as [Hv _]. split; [done|].
    apply (managed_aligned (w_frames (sy_world sys))); [done|]. apply (ci_owned sys Hi pid x), elem_all_trackers.
    exists s. split; [done|]. apply elem_space_trackers. eauto.
  - intros a Ha. destruct (so_area s Hok a Ha) as (_ & H1 & H2 & _). done.
Qed.

Lemma fork_step sys parent child s cs ps : cow_inv sys → sy_procs sys !! parent = Some s → sy_procs sys !! child = None →
  cow_fork_memory (with_world s (sy_world sys)) = Ret (cs, ps) →
  let sys' := mkSys (<[child := cs]> (<[parent := ps]> (sy_procs sys))) (sy_world sys) in
  cow_inv sys' ∧ private_effect (memory sys) (memory sys') (Fork parent child).
Proof.
  intros Hi Hs Hc E sys'. pose proof (ci_space sys Hi parent s Hs) as Hok.
  destruct (fork_memory_spec sys parent s Hi Hs) as (cs' & ps' & E' & Hforked). rewrite E in E'. injection E' as <- <-.
  assert (child ≠ parent) as Hne by congruence.
  assert (∀ q s', sy_procs sys' !! q = Some s' →
    ((q = child ∨ q = parent) ∧ (s' = cs ∨ s' = ps)) ∨ (q ≠ child ∧ q ≠ parent ∧ sy_procs sys !! q = Some s')) as Hcase.
  { intros q s'. cbn [sys' sy_procs]. destruct (decide (q = child)) as [->|]; [rewrite lookup_insert_eq; intros [= <-]; tauto|].
    rewrite lookup_insert_ne by done. destruct (decide (q = parent)) as [->|]; [rewrite lookup_insert_eq; intros [= <-]; tauto|].
    rewrite lookup_insert_ne by done. tauto. }
  assert (∀ q x, (q, x) ∈ all_trackers sys' → ∃ q0, (q0, x) ∈ all_trackers sys ∧ (q0 = q ∨ q = child ∧ q0 = parent)) as Hall.
  { intros q x (s' & Hq & Hx)%elem_all_trackers. destruct (Hcase q s' Hq) as [[Hq' Hs']|(_ & _ & Hq')].
    - destruct (Hforked s' Hs') as (Hm & _). exists parent. split; [apply elem_all_trackers; exists s; split; [done|]|destruct Hq'; subst; tauto].
      unfold space_trackers in *. by rewrite <- Hm.
    - exists q. split; [apply elem_all_trackers; eauto|by left]. }
  split.
  - split; cbn [sys' sy_world].
    + apply (ci_world sys Hi).
    + intros q s' Hq. destruct (Hcase q s' Hq) as [[_ Hs']|(_ & _ & Hq')]; [|by apply (ci_space sys Hi q)].
      destruct (Hforked s' Hs') as (Hm & Hsh & Hpt). apply (space_ok_same s); try done. intros v p fl Hl. by apply (Hpt v p fl).
    + intros q x (q0 & Hx & _)%Hall. by apply (ci_owned sys Hi q0).
    + intros q s' v p fl Hq Hpt Hw q2 x Hx2 Htr. destruct (Hcase q s' Hq) as [[_ Hs']|(Hn1 & Hn2 & Hq')].
      { destruct (Hforked s' Hs') as (_ & _ & Hro). destruct (Hro v p fl Hpt). congruence. }
      apply Hall in Hx2 as (q0 & Hx & Hq0). destruct (ci_write sys Hi q s' v p fl Hq' Hpt Hw q0 x Hx Htr) as [-> Hv].
      split; [|done]. destruct Hq0 as [->|[-> ->]]; done.
  - assert (∀ s' va, s' = cs ∨ s' = ps → (a ← List.find (λ a, area_contains a va) (as_memset s'); Some (area_byte (sy_world sys) a va)) =
      memory sys parent va) as Hsame.
    { intros s' va Hs'. destruct (Hforked s' Hs') as (Hm & _). unfold memory. rewrite Hs, Hm. done. }
    split.
    + intros va. rewrite <- (Hsame cs va) by tauto. unfold memory at 1. cbn [sys' sy_procs sy_world]. by rewrite lookup_insert_eq.
    + intros q va Hq. destruct (decide (q = parent)) as [->|].
      * rewrite <- (Hsame ps va) by tauto. unfold memory. cbn [sys' sy_procs sy_world]. by rewrite lookup_insert_ne, lookup_insert_eq by done.
      * unfold memory. cbn [sys' sy_procs sy_world]. by rewrite !lookup_insert_ne by done.
Qed.

(** ** Faults *)

Lemma set_tracker_vaddr l page p : vaddr <$> set_tracker l page p = vaddr <$> l.
Proof. induction l as [|x l IH]; [done|]. cbn [set_tracker]. case_decide; cbn; [done|]. by f_equal. Qed.

Lemma elem_set_tracker l page p y : NoDup (vaddr <$> l) → y ∈ set_tracker l page p →
  (y ∈ l ∧ vaddr y ≠ page) ∨ (vaddr y = page ∧ tracker y = p).
Proof.
  induction l as [|x l IH]; cbn [set_tracker fmap list_fmap]; [by intros _ ?%elem_of_nil|]. intros [Hx Hnd]%NoDup_cons. case_decide as E.
  - intros [->|Hy]%elem_of_cons; [by right|]. left. split; [by right|]. intros Hv. apply Hx. rewrite E, <- Hv. by apply list_elem_of_fmap_2.
  - intros [->|Hy]%elem_of_cons; [left; split; [by left|done]|]. destruct (IH Hnd Hy) as [[? ?]|?]; [left; split; [by right|done]|by right].
Qed.

Lemma set_tracker_keeps l page p y : y ∈ l → vaddr y ≠ page → y ∈ set_tracker l page p.
Proof.
  induction l as [|x l IH]; [by intros ?%elem_of_nil|]. cbn [set_tracker]. intros [->|Hy]%elem_of_cons Hv.
  - rewrite decide_False by done. by left.
  - case_decide; right; [done|by apply IH].
Qed.

Lemma set_tracker_sets l page p x : x ∈ l → vaddr x = page → ∃ y, y ∈ set_tracker l page p ∧ vaddr y = page ∧ tracker y = p.
Proof.
  induction l as [|z l IH]; [by intros ?%elem_of_nil|]. cbn [set_tracker]. intros Hx Hv. case_decide as E.
  - exists (mkTrack (vaddr z) p (rwx z)). split; [by left|done].
  - apply elem_of_cons in Hx as [->|Hx]; [done|]. destruct (IH Hx Hv) as (y & Hy & ?). exists y. split; [by right|done].
Qed.

(** What serving a page of area [a] of process [pid] with frame [p] does: the new tracker
    list [l] and the new world [w']. *)
Record fault_effect sys (pid : Z) a (page p : Z) (l : list MapTrack) w' : Prop := {
  fe_world : world_ok w';
  fe_managed : managed_frames (w_frames w') = managed_frames (w_frames (sy_world sys));
  fe_free : free_frames (w_frames w') ⊆ free_frames (w_frames (sy_world sys));
  fe_in : ∀ y, y ∈ l → (y ∈ mtrackers a ∧ vaddr y ≠ page) ∨ (vaddr y = page ∧ tracker y = p);
  fe_old : ∀ y, y ∈ mtrackers a → vaddr y ≠ page → y ∈ l;
  fe_new : ∃ y, y ∈ l ∧ vaddr y = page ∧ tracker y = p;
  fe_once : NoDup (vaddr <$> l);
  fe_own : p ∈ managed_frames (w_frames (sy_world sys)) ∧ p ∉ free_frames (w_frames w');
  fe_excl : ∀ q x, (q, x) ∈ all_trackers sys → tracker x = p → q = pid ∧ vaddr x = page;
  fe_mem : ∀ q x i, (q, x) ∈ all_trackers sys → 0 ≤ i < PAGE_SIZE → tracker x ≠ p →
    w_mem w' (tracker x + i) = w_mem (sy_world sys) (tracker x + i);
  fe_bytes : ∀ i, 0 ≤ i < PAGE_SIZE → w_mem w' (p + i) =
    match find_tracker a page with Some x => w_mem (sy_world sys) (tracker x + i) | None => 0 end;
}.

Lemma mem_write_page m dst src x : mem_write m dst (mem_read m src (Z.to_nat PAGE_SIZE)) x =
  if decide (dst ≤ x < dst + PAGE_SIZE) then m (src + (x - dst)) else m x.
Proof.
  unfold mem_write. rewrite length_mem_read, Z2Nat.id by done. case_decide; [|done].
  rewrite (list_lookup_total_correct _ _ (m (src + (x - dst)))); [done|]. rewrite lookup_mem_read by (unfold PAGE_SIZE in *; lia). do 2 f_equal. lia.
Qed.

(** Filling a fresh frame: everything but its content and the tracker list. *)
Lemma fresh_frame sys fs p m : cow_inv sys → source_ok fs → managed_frames fs = managed_frames (w_frames (sy_world sys)) →
  p ∈ free_frames (w_frames (sy_world sys)) → free_frames fs = free_frames (w_frames (sy_world sys)) ∖ {[p]} →
  (∀ x, ¬ (p ≤ x < p + PAGE_SIZE) → m x = w_mem (sy_world sys) x) →
  world_ok (mkWorld fs m) ∧ p ∈ managed_frames (w_frames (sy_world sys)) ∧
  (∀ q x, (q, x) ∈ all_trackers sys → tracker x ≠ p ∧ ∀ i, 0 ≤ i < PAGE_SIZE → m (tracker x + i) = w_mem (sy_world sys) (tracker x + i)).
Proof.
  intros Hi Hok Hm Hp Hf Hout. destruct (ci_world sys Hi) as [Hsrc Hz].
  assert (p ∈ managed_frames (w_frames (sy_world sys))) as Hpm by (by apply free_managed).
  destruct (managed_aligned _ p Hsrc Hpm) as [_ Hpa].
  assert (∀ r i, r ∈ managed_frames (w_frames (sy_world sys)) → r ≠ p → 0 ≤ i < PAGE_SIZE → m (r + i) = w_mem (sy_world sys) (r + i)) as Hother.
  { intros r i Hr Hne Hri. apply Hout. intros Hin. destruct (managed_aligned _ r Hsrc Hr) as [_ Hra].
    apply Hne, (page_disjoint r p (r + i)); try done; lia. }
  split_and!; [|done|].
  - split; [done|]. cbn [w_frames w_mem]. intros r i Hr Hri. rewrite Hf in Hr. rewrite Hother; [apply Hz; set_solver|apply free_managed; [done|set_solver]|set_solver|done].
  - intros q x Hx. destruct (ci_owned sys Hi q x Hx) as [Hxm Hxf]. assert (tracker x ≠ p) by congruence. split; [done|]. intros i Hri. by apply Hother.
Qed.

(** Serving a page with a fresh frame. *)
Lemma fresh_effect sys pid a page fs p l m : cow_inv sys → source_ok fs → managed_frames fs = managed_frames (w_frames (sy_world sys)) →
  p ∈ free_frames (w_frames (sy_world sys)) → free_frames fs = free_frames (w_frames (sy_world sys)) ∖ {[p]} →
  (∀ x, ¬ (p ≤ x < p + PAGE_SIZE) → m x = w_mem (sy_world sys) x) →
  (∀ i, 0 ≤ i < PAGE_SIZE → m (p + i) = match find_tracker a page with Some x => w_mem (sy_world sys) (tracker x + i) | None => 0 end) →
  (∀ y, y ∈ l → (y ∈ mtrackers a ∧ vaddr y ≠ page) ∨ (vaddr y = page ∧ tracker y = p)) →
  (∀ y, y ∈ mtrackers a → vaddr y ≠ page → y ∈ l) → (∃ y, y ∈ l ∧ vaddr y = page ∧ tracker y = p) → NoDup (vaddr <$> l) →
  fault_effect sys pid a page p l (mkWorld fs m).
Proof.
  intros Hi Hok Hm Hp Hf Hout Hin H1 H2 H3 H4. destruct (fresh_frame sys fs p m) as (Hw & Hpm & Hoth); try done.
  split; cbn [w_frames w_mem]; try done.
  - rewrite Hf. set_solver.
  - split; [done|]. rewrite Hf. set_solver.
  - intros q x Hx E. by destruct (Hoth q x Hx).
  - intros q x i Hx Hri _. by destruct (Hoth q x Hx) as [_ ->].
Qed.

Lemma cow_page_spec sys pid s i a va : cow_inv sys → sy_procs sys !! pid = Some s → as_memset s !! i = Some a →
  ∃ o w', cow_page file_read (frame_refs sys) (sy_world sys) a va = Ret (o, w') ∧
    match o with
    | None => world_ok w' ∧ w_mem w' = w_mem (sy_world sys) ∧
        managed_frames (w_frames w') = managed_frames (w_frames (sy_world sys)) ∧
        free_frames (w_frames w') ⊆ free_frames (w_frames (sy_world sys)) ∧ get_free_pages (w_frames (sy_world sys)) < 10
    | Some (p, a') => ∃ l, a' = set_trackers a l ∧ fault_effect sys pid a (page_floor va) p l w'
    end.
Proof.
  intros Hi Hs Hia. pose proof (ci_space sys Hi pid s Hs) as Hok. pose proof (list_elem_of_lookup_2 _ _ _ Hia) as Ha.
  destruct (so_area s Hok a Ha) as (_ & Hty1 & Hty2 & Hfile & _). pose proof (so_once s Hok a Ha) as Hnd.
  destruct (ci_world sys Hi) as [Hsrc Hz]. pose proof (get_free_pages_law _ Hsrc) as Hfree.
  destruct (world_alloc_ok (w_frames (sy_world sys)) (w_mem (sy_world sys))) as (o & fs & Ealloc & Hwok & Hman & Ho); [split; done|].
  assert (o = None → get_free_pages (w_frames (sy_world sys)) < 10) as Hlow by (intros ->; rewrite Hfree, (proj1 Ho), size_empty; lia).
  unfold cow_page. destruct (find_tracker a (page_floor va)) as [x|] eqn:Hx.
  - rewrite decide_False by tauto. pose proof (proj1 (find_tracker_Some s a _ x Hok Ha) Hx) as [Hxa Hxv].
    assert ((pid, x) ∈ all_trackers sys) as Hxall by (apply elem_all_trackers; exists s; split; [done|apply elem_space_trackers; eauto]).
    destruct (ci_owned sys Hi pid x Hxall) as [Hxm Hxf]. case_decide as Hc.
    + rewrite Ealloc. step_ret. destruct o as [dst|].
      * destruct Ho as (Hd & Hdf & Hda & _ & _). eexists _, _. split; [done|]. eexists. split; [done|].
        apply fresh_effect; try done.
        -- by destruct Hwok.
        -- intros y Hy. rewrite mem_write_page. by rewrite decide_False.
        -- intros j Hj. rewrite mem_write_page, decide_True, Hx by lia. f_equal. lia.
        -- intros y Hy. by apply elem_set_tracker.
        -- intros y Hy Hv. by apply set_tracker_keeps.
        -- by eapply set_tracker_sets.
        -- by rewrite set_tracker_vaddr.
      * eexists None, _. split; [done|]. cbn [w_frames w_mem]. split_and!; try done; [|by apply Hlow]. rewrite (proj2 Ho). set_solver.
    + eexists (Some (tracker x, a)), _. split; [done|]. exists (mtrackers a). split; [by destruct a|]. split; try done.
      * intros y Hy. destruct (decide (vaddr y = page_floor va)) as [E|E]; [right|by left]. split; [done|].
        pose proof (proj2 (find_tracker_Some s a _ y Hok Ha) (conj Hy E)). congruence.
      * eauto.
      * intros q y Hy Et. assert ((q, y) = (pid, x)) as [= -> ->]; [|done]. apply (frame_refs_unique sys (tracker x)); try done. lia.
      * intros j _. by rewrite Hx.
  - case_decide as Hc; [eexists None, _; split; [done|]; split_and!; done|]. rewrite Ealloc. step_ret. destruct o as [p|].
    + destruct Ho as (Hd & Hdf & Hda & _ & Hzero). rewrite Hfile. eexists _, _. split; [done|]. eexists. split; [done|].
      pose proof (find_tracker_None a _ Hx) as Hno. apply fresh_effect; try done.
      * by destruct Hwok.
      * intros j Hj. rewrite Hx. by apply Hzero.
      * intros y [Hy|Hy]%elem_of_app; [left; split; [done|by apply Hno]|]. apply list_elem_of_singleton in Hy as ->. by right.
      * intros y Hy _. set_solver.
      * exists (mkTrack (page_floor va) p 7). split; [set_solver|done].
      * rewrite fmap_app. apply NoDup_app. split_and!; [done| |apply NoDup_singleton]. intros v Hv Hv'. apply list_elem_of_singleton in Hv' as ->.
        apply list_elem_of_fmap in Hv as (y & E & Hy). by apply (Hno y Hy).
    + eexists None, _. split; [done|]. specialize (Hlow eq_refl). lia.
Qed.

Section served.
Context sys (pid : Z) s (i : nat) a (page p : Z) (l : list MapTrack) w' (fl : Z).
Context (Hi : cow_inv sys) (Hs : sy_procs sys !! pid = Some s) (Hia : as_memset s !! i = Some a) (Hpa : area_contains a page = true).
Context (Hpg : page mod PAGE_SIZE = 0) (He : fault_effect sys pid a page p l w').

(** The process and the system after the page was served. *)
Definition served_space : AddrSpace (FS := FS) (F := F) :=
  mkSpace (<[i := set_trackers a l]> (as_memset s)) (<[page := (p, fl)]> (as_pt s)) (as_heap s) (as_shms s) w'.
Definition served_sys : Sys := mkSys (<[pid := served_space]> (sy_procs sys)) w'.

Let Hok : space_ok s := ci_space sys Hi pid s Hs.

Lemma served_lookup j b : as_memset served_space !! j = Some b →
  (j = i ∧ b = set_trackers a l) ∨ (j ≠ i ∧ as_memset s !! j = Some b).
Proof.
  cbn [served_space as_memset]. intros Hj. destruct (decide (j = i)) as [->|Hne]; [left|right].
  - rewrite list_lookup_insert_eq in Hj by (by eapply lookup_lt_Some). split; congruence.
  - by rewrite list_lookup_insert_ne in Hj by done.
Qed.

Lemma served_elem b : b ∈ as_memset served_space → b = set_trackers a l ∨ b ∈ as_memset s.
Proof. intros [j Hj]%list_elem_of_lookup. destruct (served_lookup j b Hj) as [[_ ->]|[_ Hb]]; [by left|right]. by eapply list_elem_of_lookup_2. Qed.

(** Another area does not track the page. *)
Lemma other_area_tracker j b x : j ≠ i → as_memset s !! j = Some b → x ∈ mtrackers b → vaddr x ≠ page.
Proof.
  intros Hne Hj Hx E. destruct (so_tracker s Hok b x) as [_ Hc]; [by eapply list_elem_of_lookup_2|done|].
  rewrite E in Hc. apply Hne. symmetry. eapply (so_disjoint s Hok); done.
Qed.

Lemma served_trackers x : x ∈ space_trackers served_space →
  (x ∈ space_trackers s ∧ vaddr x ≠ page) ∨ (vaddr x = page ∧ tracker x = p).
Proof.
  intros (b & [j Hj]%list_elem_of_lookup & Hx)%elem_space_trackers. destruct (served_lookup j b Hj) as [[-> ->]|[Hne Hb]].
  - cbn [set_trackers mtrackers] in Hx. destruct (fe_in _ _ _ _ _ _ _ He x Hx) as [[Hxa Hv]|H']; [left|by right].
    split; [|done]. apply elem_space_trackers. exists a. split; [by eapply list_elem_of_lookup_2|done].
  - left. split; [|by eapply other_area_tracker]. apply elem_space_trackers. exists b. split; [by eapply list_elem_of_lookup_2|done].
Qed.

Lemma served_keeps x : x ∈ space_trackers s → vaddr x ≠ page → x ∈ space_trackers served_space.
Proof.
  intros (b & [j Hj]%list_elem_of_lookup & Hx)%elem_space_trackers Hv. apply elem_space_trackers.
  destruct (decide (j = i)) as [->|Hne].
  - exists (set_trackers a l). split; [|apply (fe_old _ _ _ _ _ _ _ He); congruence].
    apply (list_elem_of_lookup_2 _ i). cbn [served_space as_memset]. apply list_lookup_insert_eq. by eapply lookup_lt_Some.
  - exists b. split; [|done]. apply (list_elem_of_lookup_2 _ j). cbn [served_space as_memset]. by rewrite list_lookup_insert_ne.
Qed.

Lemma served_space_ok : space_ok served_space.
Proof.
  pose proof (list_elem_of_lookup_2 _ _ _ Hia) as Ha. split.
  - intros b [->|Hb]%served_elem; [|by apply (so_area s Hok)]. destruct (so_area s Hok a Ha) as ([H1 H2 H3 H4] & ?). by split.
  - intros j k b c va Hj Hk Hb Hc. destruct (served_lookup j b Hj) as [[-> ->]|[_ Hj']], (served_lookup k c Hk) as [[-> ->]|[_ Hk']]; [done|..].
    + by apply (so_disjoint s Hok _ _ a c va).
    + by apply (so_disjoint s Hok _ _ b a va).
    + by apply (so_disjoint s Hok _ _ b c va).
  - intros b x [->|Hb]%served_elem Hx; [|by apply (so_tracker s Hok)]. cbn [set_trackers mtrackers] in Hx.
    change (area_contains (set_trackers a l) (vaddr x)) with (area_contains a (vaddr x)).
    destruct (fe_in _ _ _ _ _ _ _ He x Hx) as [[Hxa _]|[-> _]]; [by apply (so_tracker s Hok)|done].
  - intros b [->|Hb]%served_elem; [apply (fe_once _ _ _ _ _ _ _ He)|by apply (so_once s Hok)].
  - intros v r f. cbn [served_space as_pt]. destruct (decide (v = page)) as [->|Hv].
    + rewrite lookup_insert_eq. intros [= <- <-]. destruct (fe_new _ _ _ _ _ _ _ He) as (y & Hy & ?). exists y. split; [|done].
      apply elem_space_trackers. exists (set_trackers a l). split; [|done]. apply (list_elem_of_lookup_2 _ i). cbn [served_space as_memset].
      apply list_lookup_insert_eq. by eapply lookup_lt_Some.
    + rewrite lookup_insert_ne by done. intros (x & Hx & <- & Ht)%(so_pt s Hok). exists x. split; [by apply served_keeps|done].
  - apply (so_shms s Hok).
Qed.

Lemma served_all q x : (q, x) ∈ all_trackers served_sys →
  ((q, x) ∈ all_trackers sys ∧ (q = pid → vaddr x ≠ page)) ∨ (q = pid ∧ vaddr x = page ∧ tracker x = p).
Proof.
  intros (s2 & Hq & Hx)%elem_all_trackers. cbn [served_sys sy_procs] in Hq. destruct (decide (q = pid)) as [->|Hne].
  - rewrite lookup_insert_eq in Hq. injection Hq as <-. destruct (served_trackers x Hx) as [[Hx' Hv]|?]; [left|by right].
    split; [|done]. apply elem_all_trackers. eauto.
  - rewrite lookup_insert_ne in Hq by done. left. split; [|done]. apply elem_all_trackers. eauto.
Qed.

Lemma served_inv : cow_inv served_sys.
Proof.
  destruct (fe_own _ _ _ _ _ _ _ He) as [Hpm Hpf]. split.
  - apply (fe_world _ _ _ _ _ _ _ He).
  - intros q s2. cbn [served_sys sy_procs]. destruct (decide (q = pid)) as [->|Hne].
    + rewrite lookup_insert_eq. intros [= <-]. apply served_space_ok.
    + rewrite lookup_insert_ne by done. apply (ci_space sys Hi).
  - intros q x Hx. cbn [served_sys sy_world]. rewrite (fe_managed _ _ _ _ _ _ _ He).
    destruct (served_all q x Hx) as [[Hx' _]|(_ & _ & ->)]; [|done]. destruct (ci_owned sys Hi q x Hx') as [H1 H2]. split; [done|].
    pose proof (fe_free _ _ _ _ _ _ _ He). set_solver.
  - intros q s2 v r f Hq Hpt Hw q2 x Hx Ht. cbn [served_sys sy_procs] in Hq.
    assert (q = pid ∧ v = page ∧ r = p ∨ ∃ s0, sy_procs sys !! q = Some s0 ∧ as_pt s0 !! v = Some (r, f) ∧ (q = pid → v ≠ page)) as Hentry.
    { destruct (decide (q = pid)) as [->|Hne]; [|rewrite lookup_insert_ne in Hq by done; right; by exists s2].
      rewrite lookup_insert_eq in Hq. injection Hq as <-. cbn [served_space as_pt] in Hpt. destruct (decide (v = page)) as [->|Hv].
      - rewrite lookup_insert_eq in Hpt. injection Hpt as <- <-. by left.
      - rewrite lookup_insert_ne in Hpt by done. right. by exists s. }
    destruct Hentry as [(-> & -> & ->)|(s0 & Hs0 & Hpt0 & Hv0)].
    + destruct (served_all q2 x Hx) as [[Hx' Hv]|(-> & Hv & _)]; [|done]. by apply (fe_excl _ _ _ _ _ _ _ He).
    + destruct (served_all q2 x Hx) as [[Hx' Hv]|(-> & Hv & Hp)]; [by apply (ci_write sys Hi q s0 v r f)|].
      destruct (entry_tracker _ _ _ _ _ _ Hi Hs0 Hpt0) as (y & Hy & Hyv & Hyt).
      destruct (fe_excl _ _ _ _ _ _ _ He q y Hy) as [-> Hyp]; [congruence|]. destruct (Hv0 eq_refl). congruence.
Qed.

(** An area whose pages are not the served one keeps its bytes. *)
Lemma other_bytes q s2 b va : sy_procs sys !! q = Some s2 → b ∈ as_memset s2 →
  (q = pid → ∀ x, x ∈ mtrackers b → vaddr x = page_floor va → vaddr x ≠ page) →
  area_byte w' b va = area_byte (sy_world sys) b va.
Proof.
  intros Hq Hb Hv. unfold area_byte. destruct (find_tracker b (page_floor va)) as [x|] eqn:Hx; [|done].
  apply (find_tracker_Some s2 b) in Hx as [Hx Hxv]; [|by apply (ci_space sys Hi q)|done].
  assert ((q, x) ∈ all_trackers sys) as Hall by (apply elem_all_trackers; exists s2; split; [done|apply elem_space_trackers; eauto]).
  apply (fe_mem _ _ _ _ _ _ _ He q x); [done|apply mod_page_range|]. intros Hp.
  destruct (fe_excl _ _ _ _ _ _ _ He q x Hall Hp) as [-> Hvp]. by apply (Hv eq_refl x).
Qed.

(** The served area keeps its bytes. *)
Lemma served_bytes va : area_byte w' (set_trackers a l) va = area_byte (sy_world sys) a va.
Proof.
  pose proof (list_elem_of_lookup_2 _ _ _ Hia) as Ha.
  assert (set_trackers a l ∈ as_memset served_space) as Ha'.
  { apply (list_elem_of_lookup_2 _ i). cbn [served_space as_memset]. apply list_lookup_insert_eq. by eapply lookup_lt_Some. }
  unfold area_byte. destruct (decide (page_floor va = page)) as [Hpage|Hne].
  - destruct (fe_new _ _ _ _ _ _ _ He) as (y & Hy & Hyv & Hyp). rewrite Hpage.
    rewrite (proj2 (find_tracker_Some served_space _ page y served_space_ok Ha')) by done.
    rewrite Hyp, (fe_bytes _ _ _ _ _ _ _ He); [done|apply mod_page_range].
  - destruct (find_tracker a (page_floor va)) as [x|] eqn:Hx.
    + pose proof (proj1 (find_tracker_Some s a _ x Hok Ha) Hx) as [Hxa Hxv].
      rewrite (proj2 (find_tracker_Some served_space _ _ x served_space_ok Ha')) by (split; [apply (fe_old _ _ _ _ _ _ _ He); congruence|done]).
      apply (fe_mem _ _ _ _ _ _ _ He pid x); [|apply mod_page_range|].
      * apply elem_all_trackers. exists s. split; [done|]. apply elem_space_trackers. eauto.
      * intros Hp. destruct (fe_excl _ _ _ _ _ _ _ He pid x) as [_ Hvp]; [|done|congruence].
        apply elem_all_trackers. exists s. split; [done|]. apply elem_space_trackers. eauto.
    + destruct (find_tracker (set_trackers a l) (page_floor va)) as [y|] eqn:Hy; [|done]. exfalso.
      apply (find_tracker_Some served_space) in Hy as [Hy Hyv]; [|apply served_space_ok|done].
      destruct (fe_in _ _ _ _ _ _ _ He y Hy) as [[Hya _]|[Hv _]]; [by apply (find_tracker_None a _ Hx y)|congruence].
Qed.

Lemma served_memory q va : memory served_sys q va = memory sys q va.
Proof.
  unfold memory. cbn [served_sys sy_procs sy_world]. destruct (decide (q = pid)) as [->|Hne].
  - rewrite lookup_insert_eq, Hs. cbn [mbind option_bind].
    destruct (List.find (λ a, area_contains a va) (as_memset s)) as [b|] eqn:Hb.
    + apply List.find_some in Hb as [Hb Hc]. apply list_elem_of_In, list_elem_of_lookup in Hb as [j Hj]. cbn [mbind option_bind].
      destruct (decide (j = i)) as [->|Hji].
      * rewrite Hia in Hj. injection Hj as <-.
        rewrite (proj1 (find_area served_space i (set_trackers a l) va served_space_ok
          ltac:(cbn [served_space as_memset]; apply list_lookup_insert_eq; by eapply lookup_lt_Some) Hc)).
        cbn [mbind option_bind]. by rewrite served_bytes.
      * rewrite (proj1 (find_area served_space j b va served_space_ok
          ltac:(cbn [served_space as_memset]; by rewrite list_lookup_insert_ne) Hc)).
        cbn [mbind option_bind]. f_equal. apply (other_bytes pid s); [done|by eapply list_elem_of_lookup_2|].
        intros _ x Hx _. by eapply other_area_tracker.
    + destruct (List.find _ (as_memset served_space)) as [b|] eqn:Hb'; [|done]. exfalso.
      apply List.find_some in Hb' as [Hb' Hc]. apply list_elem_of_In, served_elem in Hb'.
      apply find_None_Forall in Hb. rewrite Forall_forall in Hb. destruct Hb' as [->|Hb'].
      * specialize (Hb a (list_elem_of_lookup_2 _ _ _ Hia)). change (area_contains a va = true) in Hc. cbn in Hb. congruence.
      * specialize (Hb b Hb'). cbn in Hb. congruence.
  - rewrite lookup_insert_ne by done. destruct (sy_procs sys !! q) as [s2|] eqn:Hq; [|done]. cbn [mbind option_bind].
    destruct (List.find _ _) as [b|] eqn:Hb; [|done]. cbn [mbind option_bind]. f_equal.
    apply List.find_some in Hb as [Hb _]. apply list_elem_of_In in Hb. by apply (other_bytes q s2).
Qed.
End served.

(** A world that only lost free frames. *)
Lemma shrink_inv sys w' pid s s' : cow_inv sys → sy_procs sys !! pid = Some s → world_ok w' → w_mem w' = w_mem (sy_world sys) →
  managed_frames (w_frames w') = managed_frames (w_frames (sy_world sys)) →
  free_frames (w_frames w') ⊆ free_frames (w_frames (sy_world sys)) →
  as_memset s' = as_memset s → as_pt s' = as_pt s → as_shms s' = as_shms s →
  cow_inv (mkSys (<[pid := s']> (sy_procs sys)) w') ∧
  ∀ q va, memory (mkSys (<[pid := s']> (sy_procs sys)) w') q va = memory sys q va.
Proof.
  intros Hi Hs Hw Hm Hman Hfree Hset Hpt Hsh. pose proof (ci_space sys Hi pid s Hs) as Hok.
  assert (∀ q s2, <[pid := s']> (sy_procs sys) !! q = Some s2 → ∃ s0, sy_procs sys !! q = Some s0 ∧
    as_memset s2 = as_memset s0 ∧ as_pt s2 = as_pt s0 ∧ as_shms s2 = as_shms s0) as Hlk.
  { intros q s2. destruct (decide (q = pid)) as [->|]; [rewrite lookup_insert_eq; intros [= <-]; by exists s|].
    rewrite lookup_insert_ne by done. eauto. }
  assert (∀ q x, (q, x) ∈ all_trackers (mkSys (<[pid := s']> (sy_procs sys)) w') → (q, x) ∈ all_trackers sys) as Hall.
  { intros q x (s2 & Hq & Hx)%elem_all_trackers. destruct (Hlk q s2 Hq) as (s0 & Hs0 & Hm0 & _). apply elem_all_trackers.
    exists s0. split; [done|]. unfold space_trackers in *. by rewrite <- Hm0. }
  split.
  - split; cbn [sy_world]; [done|..].
    + intros q s2 Hq. destruct (Hlk q s2 Hq) as (s0 & Hs0 & Hm0 & Hp0 & Hsh0). pose proof (ci_space sys Hi q s0 Hs0) as Hok0.
      apply (space_ok_same s0); [done|done|by rewrite Hsh0, (so_shms s0)|]. rewrite Hp0. apply (so_pt s0 Hok0).
    + intros q x Hx%Hall. destruct (ci_owned sys Hi q x Hx). rewrite Hman. split; [done|set_solver].
    + intros q s2 v p fl Hq Hp Hwr q2 x Hx%Hall Ht. destruct (Hlk q s2 Hq) as (s0 & Hs0 & _ & Hp0 & _). rewrite Hp0 in Hp.
      by apply (ci_write sys Hi q s0 v p fl).
  - intros q va. unfold memory. cbn [sy_procs sy_world]. destruct (decide (q = pid)) as [->|].
    + rewrite lookup_insert_eq, Hs. cbn [mbind option_bind]. rewrite Hset. unfold area_byte. by rewrite Hm.
    + rewrite lookup_insert_ne by done. unfold area_byte. by rewrite Hm.
Qed.

Lemma fault_spec sys pid s i a va sig tls : cow_inv sys → sy_procs sys !! pid = Some s → as_memset s !! i = Some a →
  area_contains a va = true →
  ∃ r, user_cow_int file_read file_size (frame_refs sys) (with_world s (sy_world sys)) sig tls va = Ret r ∧
    let sys' := mkSys (<[pid := ft_space r]> (sy_procs sys)) (as_world (ft_space r)) in
    cow_inv sys' ∧ (∀ q v, memory sys' q v = memory sys q v) ∧ ft_exit r = None ∧
    ((ft_signal r = sig ∧ ∃ p fl, as_pt (ft_space r) !! page_floor va = Some (p, fl) ∧ writable fl = true) ∨
     (ft_signal r = add_signal sig SIGSEGV ∧ get_free_pages (w_frames (sy_world sys)) < 10)).
Proof.
  intros Hi Hs Hia Hc. pose proof (ci_space sys Hi pid s Hs) as Hok. pose proof (list_elem_of_lookup_2 _ _ _ Hia) as Ha.
  unfold user_cow_int. change (as_memset (with_world s (sy_world sys))) with (as_memset s).
  rewrite (proj2 (find_area s i a va Hok Hia Hc)). change (as_world (with_world s (sy_world sys))) with (sy_world sys).
  destruct (cow_page_spec sys pid s i a va Hi Hs Hia) as (o & w' & -> & Ho). step_ret. destruct o as [[p a']|].
  - destruct Ho as (l & -> & He). destruct (fe_own _ _ _ _ _ _ _ He) as [Hpm _]. destruct (ci_world sys Hi) as [Hsrc _].
    destruct (managed_aligned _ p Hsrc Hpm) as [_ Hpa]. pose proof (page_floor_spec va) as (Hpg & _ & _).
    unfold task_map. rewrite decide_True by done. step_ret. eexists. split; [done|]. cbn [ft_space ft_signal ft_exit as_world as_pt].
    assert (area_contains a (page_floor va) = true) as Hcp by (by rewrite (area_page s)).
    split; [exact (served_inv sys pid s i a _ p l w' _ Hi Hs Hia Hcp Hpg He)|].
    split; [exact (served_memory sys pid s i a _ p l w' _ Hi Hs Hia Hcp Hpg He)|]. split; [done|]. left. split; [done|].
    eexists p, _. split; [apply lookup_insert_eq|]. unfold cow_flags. by case_decide.
  - destruct Ho as (Hw & Hm & Hman & Hfree & Hlow). eexists. split; [done|]. cbn [ft_space ft_signal ft_exit as_world].
    destruct (shrink_inv sys w' pid s (with_world (with_world s (sy_world sys)) w') Hi Hs Hw Hm Hman Hfree) as [H1 H2]; [done..|].
    split_and!; [done|done|done|]. by right.
Qed.

Lemma cow_step_effect sys e sys' : cow_inv sys → cow_step sys e sys' → cow_inv sys' ∧ private_effect (memory sys) (memory sys') e.
Proof.
  intros Hi [parent child s cs ps Hs Hc E|pid s va sig tls r Hs Hex E|pid s va b p fl Hs Hpt Hw].
  - by apply (fork_step sys parent child s).
  - apply existsb_exists in Hex as (a & Ha & Hc). apply list_elem_of_In, list_elem_of_lookup in Ha as [i Ha].
    destruct (fault_spec sys pid s i a va sig tls Hi Hs Ha Hc) as (r' & E' & H1 & H2 & _). rewrite E in E'. by injection E' as <-.
  - by apply (store_step sys pid s va b p fl).
Qed.
End system.

(** C9: copy-on-write implements private memories.  In every system of processes with
    disjoint private anonymous areas that satisfies the copy-on-write invariant, each step
    of the kernel or of a process keeps the invariant and has exactly the effect that eager
    copying would have: a fork gives the child a copy of the parent's memory, a page fault
    inside an area changes no byte any process sees (untouched pages read as zero), and a
    store through a writable mapping changes one byte of one process; a load through any
    mapping reads that memory. *)
Theorem cow_private_memories {FS} `{FL : FrameSourceLaws FS} {F} (file_read : F → Z → Z → result (list Z)) (file_size : F → option Z)
    (sys sys' : Sys (FS := FS)) (e : cow_event) :
  cow_inv sys → cow_step file_read file_size sys e sys' →
  cow_inv sys' ∧ private_effect (memory sys) (memory sys') e ∧
  ∀ pid s va p fl, sy_procs sys' !! pid = Some s → as_pt s !! page_floor va = Some (p, fl) →
    memory sys' pid va = Some (w_mem (sy_world sys') (p + va mod PAGE_SIZE)).
Proof.
  intros Hi Hs. destruct (cow_step_effect file_read file_size sys e sys' Hi Hs) as [Hi' He]. split_and!; [done|done|].
  intros. by eapply load_sees_memory.
Qed.


(** ** Witnesses: one process with a two-page area, one page of it present *)

Definition demo_cow_frames : FrameAllocator := [mkRegion [0xFFFFFFFFFFFF0001] 0x80000000 0x80010000].
Definition demo_cow_world : World FrameAllocator := mkWorld demo_cow_frames (λ x, if decide (x = 0x80000000) then 7 else 0).
Definition demo_cow_space : AddrSpace (FS := FrameAllocator) (F := unit) :=
  mkSpace [mkArea Mmap [mkTrack 0x10000 0x80000000 7] None 0 0x10000 0x2000] {[0x10000 := (0x80000000, URWX)]} 0 [] demo_cow_world.
Definition demo_cow_sys : Sys (FS := FrameAllocator) (F := unit) := mkSys {[1 := demo_cow_space]} demo_cow_world.

Lemma demo_cow_frames_wf : fa_wf demo_cow_frames ∧ fa_free demo_cow_frames = fa_managed demo_cow_frames ∖ {[0x80000000]}.
Proof.
  destruct (region_new_spec 0x80000000 0x80010000) as (r & E & Hwf & _); [lia|done|done|done|]. vm_compute in E. injection E as <-.
  destruct (fa_alloc_spec [mkRegion [0xFFFFFFFFFFFF0000] 0x80000000 0x80010000]) as (o & fa & E & Hfa & _).
  { constructor; [exact Hwf|done|constructor]. }
  vm_compute in E. injection E as <- <-. split; [exact Hfa|]. vm_compute. reflexivity.
Qed.

Lemma demo_cow_inv : cow_inv demo_cow_sys.
Proof.
  destruct demo_cow_frames_wf as [Hwf Hfree].
  assert (∀ q x, (q, x) ∈ all_trackers demo_cow_sys → q = 1 ∧ x = mkTrack 0x10000 0x80000000 7) as Hall.
  { intros q x Hx. change (all_trackers demo_cow_sys) with [(1, mkTrack 0x10000 0x80000000 7)] in Hx.
    apply list_elem_of_singleton in Hx. by injection Hx as -> ->. }
  split.
  - split; [exact Hwf|]. intros p i Hp Hi. change (p ∈ fa_free demo_cow_frames) in Hp. rewrite Hfree in Hp. cbn [demo_cow_sys sy_world demo_cow_world w_mem].
    rewrite decide_False; [done|]. intros E. assert (p ∈ fa_managed demo_cow_frames) as Hm by set_solver.
    destruct (fa_managed_aligned _ p Hwf Hm) as [_ Ha]. destruct (page_offset_inj p 0x80000000 i 0) as [-> _]; [done|done|done|done|lia|set_solver].
  - intros q s Hq. cbn [demo_cow_sys sy_procs] in Hq. apply lookup_singleton_Some in Hq as [<- <-]. split.
    + intros a ->%list_elem_of_singleton. split_and!; try done; split; cbn; done || lia.
    + intros [|i] [|j] a b va; cbn; done.
    + intros a x ->%list_elem_of_singleton. intros ->%list_elem_of_singleton. by split.
    + intros a ->%list_elem_of_singleton. cbn. apply NoDup_singleton.
    + intros v p fl Hpt. cbn [demo_cow_space as_pt] in Hpt. apply lookup_singleton_Some in Hpt as [<- [= <- <-]]. exists (mkTrack 0x10000 0x80000000 7). split; [|done]. change (space_trackers demo_cow_space) with [mkTrack 0x10000 0x80000000 7]. by left.
    + done.
  - intros q x [-> ->]%Hall. cbn [tracker]. split; [apply (bool_decide_unpack (0x80000000 ∈ fa_managed demo_cow_frames)); vm_compute; exact I|]. change (0x80000000 ∉ fa_free demo_cow_frames). rewrite Hfree. set_solver.
  - intros q s v p fl Hq Hpt _ q2 x [-> ->]%Hall _. cbn [demo_cow_sys sy_procs] in Hq. apply lookup_singleton_Some in Hq as [<- <-].
    cbn [demo_cow_space as_pt] in Hpt. apply lookup_singleton_Some in Hpt as [<- _]. done.
Qed.

Lemma cow_private_memories_witness : ∃ sys', cow_step (λ _ _ _, Ok []) (λ _, None) demo_cow_sys (Fork 1 2) sys' ∧ memory sys' 2 0x10000 = Some 7.
Proof.
  assert (∃ cs ps, cow_fork_memory (with_world demo_cow_space demo_cow_world) = Ret (cs, ps)) as (cs & ps & E).
  { do 2 eexists. reflexivity. }
  eexists. assert (Hstep : cow_step (λ _ _ _, Ok []) (λ _, None) demo_cow_sys (Fork 1 2)
    (mkSys (<[2 := cs]> (<[1 := ps]> (sy_procs demo_cow_sys))) (sy_world demo_cow_sys))).
  { by apply (step_fork _ _ _ 1 2 demo_cow_space cs ps). }
  split; [exact Hstep|].
  destruct (cow_private_memories (λ _ _ _, Ok []) (λ _, None) demo_cow_sys _ (Fork 1 2) demo_cow_inv Hstep) as (_ & [Hc _] & _).
  rewrite Hc. reflexivity.
Defined.

