(* ===== verification/Process.v ===== *)
(** * Processes and threads

    Models the life cycle of [UserTask] (kernel/src/tasks/task.rs: [new], [cow_fork],
    [thread_clone], [exit], [exit_with_signal], [thread_exit], [release]) and the system
    calls built on it (kernel/src/syscall/task.rs: clone, exit, exit_group, wait4, setsid,
    the process numbers and the signal-sending calls).  Tasks are named by their number;
    the threads of a process share its control block, kept under the process number.
    [Arc] and [Weak] references to tasks are modelled by reachability: a weak reference can
    be upgraded exactly when the task is held by the executor, by a suspended call, or by
    the children list of a live task.  Clocks and timers of the control block are not part
    of the model.  Opening the working directory and the terminal are parameters. *)

From S2P Require Import Prelude Frame Signal Path Vfs Pipe File Memory MemSet Futex FdTable Mm Cow.

(** The registers of a [TrapFrame] the calls set, and the others. *)
Record TrapFrame := mkCx { cx_ret : Z; cx_sp : Z; cx_tls : Z; cx_regs : list Z }.

Record Tcb := mkTcb {
  t_cx : TrapFrame; t_sig : ThreadSignals; t_clear_child_tid : Z; t_set_child_tid : Z;
  t_exit_signal : Z; t_thread_exit_code : option Z; t_robust_list : Z * Z;
}.

Definition Tcb_new (cx : TrapFrame) (mask : SigProcMask) : Tcb :=
  mkTcb cx (mkThread mask SignalList_new (replicate (Z.to_nat REAL_TIME_SIGNAL_NUM) 0)) 0 0 0 None (0, 0).

Definition cx_new : TrapFrame := mkCx 0 0 0 [].

Record Task := mkTask { t_process : Z; t_parent : option Z; t_tcb : Tcb }.

Definition tcb_post (sig : Z) (t : Tcb) : Tcb :=
  mkTcb (t_cx t) (set_signal (t_sig t) (add_signal (signal (t_sig t)) sig)) (t_clear_child_tid t) (t_set_child_tid t)
    (t_exit_signal t) (t_thread_exit_code t) (t_robust_list t).
Definition tcb_thread_exit (code : Z) (t : Tcb) : Tcb :=
  mkTcb (t_cx t) (t_sig t) (t_clear_child_tid t) (t_set_child_tid t) (t_exit_signal t) (Some code) (t_robust_list t).
Definition tcb_sig (s : ThreadSignals) (t : Tcb) : Tcb :=
  mkTcb (t_cx t) s (t_clear_child_tid t) (t_set_child_tid t) (t_exit_signal t) (t_thread_exit_code t) (t_robust_list t).

Section process.
Context {FS : Type} `{FL : FrameSourceLaws FS} {F D : Type}.

Record Pcb := mkPcb {
  p_space : AddrSpace (FS := FS) (F := F); p_fds : Fds (F := D); p_curr_dir : D; p_children : list Z; p_threads : list Z;
  p_entry : Z; p_sigaction : list SigAction; p_futex : FutexTable; p_exit_code : option Z; p_exit_signal : option Z;
  p_core_dumped : bool; p_umask : Z;
}.

(** [k_queue] are the tasks with a future in the executor, [k_held] those held by local
    variables of suspended calls, [k_running] the task the core holds, [k_map] the keys of
    [TASK_MAP], [k_written] the file pages written back. *)
Record Kernel := mkKernel {
  k_last_id : Z; k_tasks : gmap Z Task; k_pcbs : gmap Z Pcb; k_queue : list Z; k_held : list Z; k_running : option Z;
  k_map : gset Z; k_world : World FS; k_written : list (WriteBack (F := F));
}.

Definition set_tasks (k : Kernel) (ts : gmap Z Task) : Kernel :=
  mkKernel (k_last_id k) ts (k_pcbs k) (k_queue k) (k_held k) (k_running k) (k_map k) (k_world k) (k_written k).
Definition set_pcbs (k : Kernel) (ps : gmap Z Pcb) : Kernel :=
  mkKernel (k_last_id k) (k_tasks k) ps (k_queue k) (k_held k) (k_running k) (k_map k) (k_world k) (k_written k).
Definition set_world (k : Kernel) (w : World FS) : Kernel :=
  mkKernel (k_last_id k) (k_tasks k) (k_pcbs k) (k_queue k) (k_held k) (k_running k) (k_map k) w (k_written k).
Definition upd_tcb (k : Kernel) (t : Z) (f : Tcb → Tcb) : Kernel :=
  set_tasks k (alter (λ u, mkTask (t_process u) (t_parent u) (f (t_tcb u))) t (k_tasks k)).
Definition upd_pcb (k : Kernel) (pid : Z) (f : Pcb → Pcb) : Kernel := set_pcbs k (alter f pid (k_pcbs k)).

Definition set_children (l : list Z) (p : Pcb) : Pcb :=
  mkPcb (p_space p) (p_fds p) (p_curr_dir p) l (p_threads p) (p_entry p) (p_sigaction p) (p_futex p) (p_exit_code p)
    (p_exit_signal p) (p_core_dumped p) (p_umask p).
Definition set_threads (l : list Z) (p : Pcb) : Pcb :=
  mkPcb (p_space p) (p_fds p) (p_curr_dir p) (p_children p) l (p_entry p) (p_sigaction p) (p_futex p) (p_exit_code p)
    (p_exit_signal p) (p_core_dumped p) (p_umask p).
Definition set_exit_code (c : option Z) (p : Pcb) : Pcb :=
  mkPcb (p_space p) (p_fds p) (p_curr_dir p) (p_children p) (p_threads p) (p_entry p) (p_sigaction p) (p_futex p) c
    (p_exit_signal p) (p_core_dumped p) (p_umask p).
Definition set_killed (sig : Z) (core : bool) (p : Pcb) : Pcb :=
  mkPcb (p_space p) (p_fds p) (p_curr_dir p) (p_children p) (p_threads p) (p_entry p) (p_sigaction p) (p_futex p) (Some 0)
    (Some sig) core (p_umask p).
Definition set_space (s : AddrSpace (FS := FS) (F := F)) (p : Pcb) : Pcb :=
  mkPcb s (p_fds p) (p_curr_dir p) (p_children p) (p_threads p) (p_entry p) (p_sigaction p) (p_futex p) (p_exit_code p)
    (p_exit_signal p) (p_core_dumped p) (p_umask p).
Definition set_futex (t : FutexTable) (p : Pcb) : Pcb :=
  mkPcb (p_space p) (p_fds p) (p_curr_dir p) (p_children p) (p_threads p) (p_entry p) (p_sigaction p) t (p_exit_code p)
    (p_exit_signal p) (p_core_dumped p) (p_umask p).
Definition set_fds (f : Fds (F := D)) (p : Pcb) : Pcb :=
  mkPcb (p_space p) f (p_curr_dir p) (p_children p) (p_threads p) (p_entry p) (p_sigaction p) (p_futex p) (p_exit_code p)
    (p_exit_signal p) (p_core_dumped p) (p_umask p).

(** A task with its control block. *)
Definition task_of (k : Kernel) (t : Z) : outcome (Task * Pcb) :=
  u ← unwrap (k_tasks k !! t); p ← unwrap (k_pcbs k !! t_process u); Ret (u, p).

(** ** Live tasks *)

Definition task_children (k : Kernel) (t : Z) : list Z :=
  match k_tasks k !! t with
  | Some u => match k_pcbs k !! t_process u with Some p => p_children p | None => [] end
  | None => []
  end.

Definition roots (k : Kernel) : gset Z := list_to_set (k_queue k ++ k_held k ++ option_list (k_running k)).
Definition grow (k : Kernel) (s : gset Z) : gset Z := s ∪ list_to_set (concat (task_children k <$> elements s)).
Definition alive (k : Kernel) : gset Z := Nat.iter (size (k_tasks k)) (grow k) (roots k).

(** [Weak::upgrade] succeeds. *)
Definition upgrade (k : Kernel) (t : Z) : bool := bool_decide (t ∈ alive k).

(** ** Creation *)

Section creation.
Context (path_of : D → PathBuf) (open_dir : PathBuf → option D) (tty : D).

Definition UserTask_new (k : Kernel) (parent : option Z) (work_dir : PathBuf) : outcome (Z * Kernel) :=
  let id := k_last_id k +u 1 in
  dir ← unwrap (open_dir work_dir);
  let pcb := mkPcb (mkSpace [] ∅ 0 [] (k_world k)) (mkFds (FileTable_new tty) rlimits_new) dir [] [id] 0 (replicate 65 SigAction_new) []
               None None false 18 in
  let task := mkTask id parent (Tcb_new cx_new SigProcMask_new) in
  Ret (id, mkKernel id (<[id := task]> (k_tasks k)) (<[id := pcb]> (k_pcbs k)) (k_queue k) (k_held k ++ [id]) (k_running k) (k_map k)
             (k_world k) (k_written k)).

Definition with_ret0 (cx : TrapFrame) : TrapFrame := mkCx 0 (cx_sp cx) (cx_tls cx) (cx_regs cx).

(** The new task is held by the caller until it is spawned. *)
Definition cow_fork (k : Kernel) (t : Z) : outcome (Z * Kernel) :=
  '(u, p) ← task_of k t;
  '(id, k) ← UserTask_new k (Some t) (path_of (p_curr_dir p));
  '(child, parent) ← cow_fork_memory (with_world (p_space p) (k_world k));
  let k := upd_pcb k (t_process u) (λ p, set_space parent (set_children (p_children p ++ [id]) p)) in
  let k := upd_pcb k id (λ c, mkPcb child (mkFds (fd_table (p_fds p)) (rlimits (p_fds c))) (p_curr_dir p) (p_children c) (p_threads c)
                                (p_entry c) (p_sigaction c) (p_futex c) (p_exit_code c) (p_exit_signal c) (p_core_dumped c) (p_umask c)) in
  Ret (id, upd_tcb k id (λ c, mkTcb (with_ret0 (t_cx (t_tcb u))) (t_sig c) (t_clear_child_tid c) (t_set_child_tid c) (t_exit_signal c)
                                (t_thread_exit_code c) (t_robust_list c))).

Definition thread_clone (k : Kernel) (t : Z) : outcome (Z * Kernel) :=
  '(u, p) ← task_of k t;
  let id := k_last_id k +u 1 in
  let task := mkTask (t_process u) (t_parent u) (Tcb_new (with_ret0 (t_cx (t_tcb u))) (sigmask (t_sig (t_tcb u)))) in
  let threads := filter (λ x, upgrade k x = true) (p_threads p) ++ [id] in
  Ret (id, mkKernel id (<[id := task]> (k_tasks k)) (alter (set_threads threads) (t_process u) (k_pcbs k)) (k_queue k) (k_held k ++ [id])
             (k_running k) (k_map k) (k_world k) (k_written k)).

(** [sys_clone] up to its [yield_now]; the list are the stores to user memory. *)
Definition sys_clone (k : Kernel) (t flags stack ptid tls ctid : Z) : outcome (Z * list (Z * Z) * Kernel) :=
  let sig := Z.land flags 0xff in
  '(id, k) ← (if Z.testbit flags 16 then thread_clone k t else cow_fork k t);
  let clear := if Z.testbit flags 21 then ctid else 0 in
  let k := upd_tcb k id (λ c,
    let cx := t_cx c in
    let cx := if decide (stack ≠ 0) then mkCx (cx_ret cx) stack (cx_tls cx) (cx_regs cx) else cx in
    let cx := if Z.testbit flags 19 then mkCx (cx_ret cx) (cx_sp cx) tls (cx_regs cx) else cx in
    mkTcb cx (t_sig c) clear (t_set_child_tid c) sig (t_thread_exit_code c) (t_robust_list c)) in
  let stores := (if Z.testbit flags 20 then [(ptid, id)] else []) ++
                (if Z.testbit flags 24 && bool_decide (ctid ≠ 0) then [(ctid, id)] else []) in
  Ret (id, stores, k).

Fixpoint remove_one_task (t : Z) (l : list Z) : list Z :=
  match l with [] => [] | x :: l => if decide (x = t) then l else x :: remove_one_task t l end.

(** The rest of [sys_clone]: the task is spawned. *)
Definition clone_spawn (k : Kernel) (id : Z) : result Z * Kernel :=
  (Ok id, mkKernel (k_last_id k) (k_tasks k) (k_pcbs k) (k_queue k ++ [id]) (remove_one_task id (k_held k)) (k_running k) ({[id]} ∪ k_map k)
            (k_world k) (k_written k)).
End creation.

(** ** Exit *)

(** References to a frame from the areas of a list, and from all processes but one. *)
Definition area_refs (l : list (MemArea F)) (p : Z) : nat := length (filter (λ x, tracker x = p) (concat (mtrackers <$> l))).
Definition other_refs (k : Kernel) (pid p : Z) : nat :=
  area_refs (concat ((λ e, as_memset (p_space e.2)) <$> map_to_list (delete pid (k_pcbs k)))) p.

(** Dropping trackers front to back; a frame goes back with its last reference. *)
Fixpoint drop_tracks (others : Z → nat) (l : list MapTrack) (w : World FS) : outcome (World FS) :=
  match l with
  | [] => Ret w
  | x :: l =>
      w ← (if decide (others (tracker x) = 0%nat ∧ tracker x ∉ (tracker <$> l)) then FrameTracker_drop w (tracker x) else Ret w);
      drop_tracks others l w
  end.

(** [memset.clear()]: the areas are dropped in order, each after writing its file pages. *)
Fixpoint clear_areas (others : Z → nat) (l : list (MemArea F)) (w : World FS) : outcome (list (WriteBack (F := F)) * World FS) :=
  match l with
  | [] => Ret ([], w)
  | a :: l =>
      let rest p := (others p + area_refs l p)%nat in
      wb ← area_drop (λ p, (rest p + area_refs [a] p)%nat) a;
      w ← drop_tracks rest (mtrackers a) w;
      '(wbs, w) ← clear_areas others l w;
      Ret (wb ++ wbs, w)
  end.

(** Clearing [clear_child_tid] and waking one waiter on it. *)
Definition clear_child_tid (k : Kernel) (t : Z) : outcome Kernel :=
  '(u, p) ← task_of k t;
  let uaddr := t_clear_child_tid (t_tcb u) in
  if decide (uaddr ≠ 0) then
    match as_pt (p_space p) !! page_floor uaddr with
    | Some (frame, _) =>
        let m := mem_write (w_mem (k_world k)) (frame + uaddr mod PAGE_SIZE) [0; 0; 0; 0] in
        '(_, table) ← futex_wake (p_futex p) uaddr 1;
        Ret (upd_pcb (set_world k (mkWorld (w_frames (k_world k)) m)) (t_process u) (set_futex table))
    | None => Ret k
    end
  else Ret k.

(** Removing the thread, and dead threads, from the thread list. *)
Definition retain_threads (k : Kernel) (pid t : Z) : Kernel :=
  upd_pcb k pid (λ p, set_threads (filter (λ x, upgrade k x = true ∧ x ≠ t) (p_threads p)) p).

(** The end of a process: its memory, descriptors and children are dropped, the exit code
    is set and the parent is signalled. *)
Definition process_cleanup (k : Kernel) (t exit_code : Z) : outcome Kernel :=
  '(u, p) ← task_of k t;
  let pid := t_process u in
  '(wbs, w) ← clear_areas (other_refs k pid) (as_memset (p_space p)) (k_world k);
  let space := mkSpace [] (as_pt (p_space p)) (as_heap (p_space p)) (as_shms (p_space p)) w in
  let k := upd_pcb k pid (λ p, set_exit_code (Some exit_code) (set_children [] (set_fds (mkFds [] (rlimits (p_fds p))) (set_space space p)))) in
  let k := mkKernel (k_last_id k) (k_tasks k) (k_pcbs k) (k_queue k) (k_held k) (k_running k) (k_map k) w (k_written k ++ wbs) in
  match t_parent u with
  | Some q =>
      if upgrade k q then
        let sig := t_exit_signal (t_tcb u) in
        Ret (upd_tcb k q (tcb_post (if decide (sig ≠ 0) then from_num sig else SIGCHLD)))
      else Ret k
  | None => Ret k
  end.

(** Only the main thread, when no other thread is left, ends the process. *)
Definition exit_tail (k : Kernel) (t exit_code : Z) : outcome Kernel :=
  '(u, _) ← task_of k t;
  let k := retain_threads k (t_process u) t in
  '(_, p) ← task_of k t;
  if decide (t = t_process u ∧ p_threads p = []) then process_cleanup k t exit_code else Ret k.

Definition thread_exit (k : Kernel) (t exit_code : Z) : outcome Kernel :=
  k ← clear_child_tid k t;
  exit_tail (upd_tcb k t (tcb_thread_exit (exit_code mod 4294967296))) t exit_code.

Definition task_exit (k : Kernel) (t exit_code : Z) : outcome Kernel :=
  k ← clear_child_tid k t;
  '(u, _) ← task_of k t;
  exit_tail (upd_pcb k (t_process u) (set_exit_code (Some exit_code))) t exit_code.

Definition dumps_core (sig : Z) : bool := bool_decide (sig ∈ [3; 4; 5; 6; 8; 10; 11]).

Definition exit_with_signal (k : Kernel) (t sig : Z) : outcome Kernel :=
  '(u, _) ← task_of k t;
  task_exit (upd_pcb k (t_process u) (set_killed sig (dumps_core sig))) t 0.

Definition sys_exit (k : Kernel) (t exit_code : Z) : outcome (result Z * Kernel) := k ← thread_exit k t (wrap exit_code); Ret (Ok 0, k).
Definition sys_exit_group (k : Kernel) (t exit_code : Z) : outcome (result Z * Kernel) := k ← task_exit k t exit_code; Ret (Ok 0, k).

Definition check_thread_exit (k : Kernel) (t : Z) : outcome (option Z) :=
  '(u, p) ← task_of k t; Ret (match p_exit_code p with Some c => Some c | None => t_thread_exit_code (t_tcb u) end).

(** The future of a task that saw its exit code ends, and the executor drops it. *)
Definition task_done (k : Kernel) (t : Z) : Kernel :=
  mkKernel (k_last_id k) (k_tasks k) (k_pcbs k) (filter (λ x, x ≠ t) (k_queue k)) (k_held k) (k_running k) (k_map k) (k_world k) (k_written k).

(** ** Wait *)

Definition task_exit_code (k : Kernel) (t : Z) : option Z :=
  u ← k_tasks k !! t; p ← k_pcbs k !! t_process u; p_exit_code p.

(** [UserTask::release] *)
Definition task_release (k : Kernel) (t : Z) : outcome Kernel :=
  '(u, p) ← task_of k t;
  if decide (is_Some (p_exit_code p) ∨ is_Some (t_thread_exit_code (t_tcb u))) then
    Ret (mkKernel (k_last_id k) (k_tasks k) (k_pcbs k) (k_queue k) (k_held k) (k_running k) (k_map k ∖ {[t]}) (k_world k) (k_written k))
  else Panic.

(** The status word, as the 32 bits stored: killed by a signal (with the core flag), or the
    exit code shifted by eight. *)
Definition wait_status (p : Pcb) : Z :=
  match p_exit_signal p with
  | Some sig => if p_core_dumped p then Z.lor (sig mod 4294967296) 0x80 else sig mod 4294967296
  | None => (default 0 (p_exit_code p) * 256) mod 4294967296
  end.

(** Reaping a child: out of the children list and of [TASK_MAP], its status stored. *)
Definition reap (k : Kernel) (pid child status : Z) : outcome (list (Z * Z) * Kernel) :=
  let k := upd_pcb k pid (λ p, set_children (filter (λ x, x ≠ child) (p_children p)) p) in
  k ← task_release k child;
  '(_, cp) ← task_of k child;
  Ret (if decide (status ≠ 0) then [(status, wait_status cp)] else [], k).

(** How a call to [wait4] goes on: done, or polling [WaitPid]. *)
Inductive WaitCall := WaitDone (r : result Z) | WaitPolling.

Definition sys_wait4 (k : Kernel) (t pid status options : Z) : outcome (WaitCall * list (Z * Z) * Kernel) :=
  '(u, p) ← task_of k t;
  if decide (p_children p = []) then Ret (WaitDone (Err ECHILD), [], k)
  else if decide (pid ≠ -1 ∧ wrap pid ∉ p_children p) then Ret (WaitDone (Err ECHILD), [], k)
  else if decide (options ∈ [0; 2; 3; 10]) then Ret (WaitPolling, [], k)
  else if decide (options = 1) then
    match List.find (λ x, bool_decide (x = wrap pid ∨ pid = -1)) (p_children p) with
    | Some child =>
        match task_exit_code k child with
        | Some _ => '(stores, k) ← reap k (t_process u) child status; Ret (WaitDone (Ok child), stores, k)
        | None => Ret (WaitDone (Ok 0), [], k)
        end
    | None => Ret (WaitDone (Ok 0), [], k)
    end
  else Ret (WaitDone (Err EPERM), [], k).

(** One poll of a waiting [wait4]. *)
Definition wait4_poll (k : Kernel) (t pid status : Z) : outcome (Poll (result Z) * list (Z * Z) * Kernel) :=
  '(u, p) ← task_of k t;
  match WaitPid_poll ((λ c, (c, task_exit_code k c)) <$> p_children p) pid with
  | Ready (Ok child) => '(stores, k) ← reap k (t_process u) child status; Ret (Ready (Ok child), stores, k)
  | Ready (Err e) => Ret (Ready (Err e), [], k)
  | Pending => Ret (Pending, [], k)
  end.

(** ** Numbers, sessions, signals *)

Definition sys_getpid (k : Kernel) (t : Z) : outcome (result Z) := '(u, _) ← task_of k t; Ret (Ok (t_process u)).
Definition sys_gettid (t : Z) : result Z := Ok t.
Definition sys_getppid (k : Kernel) (t : Z) : outcome (result Z) :=
  '(u, _) ← task_of k t;
  match t_parent u with
  | Some q => if upgrade k q then '(v, _) ← task_of k q; Ret (Ok (t_process v)) else Ret (Err EPERM)
  | None => Ret (Err EPERM)
  end.

Definition sys_set_tid_address (k : Kernel) (t tid_ptr : Z) : result Z * Kernel :=
  (Ok t, upd_tcb k t (λ c, mkTcb (t_cx c) (t_sig c) tid_ptr (t_set_child_tid c) (t_exit_signal c) (t_thread_exit_code c) (t_robust_list c))).

Definition sys_setsid (k : Kernel) (t : Z) : outcome (result Z * Kernel) :=
  '(u, _) ← task_of k t;
  match t_parent u with
  | Some q =>
      if upgrade k q then
        '(v, _) ← task_of k q;
        let k := upd_pcb k (t_process v) (λ p, set_children (filter (λ x, x ≠ t) (p_children p)) p) in
        Ret (Ok t, set_tasks k (alter (λ u, mkTask (t_process u) None (t_tcb u)) t (k_tasks k)))
      else Ret (Ok t, k)
  | None => Ret (Ok t, k)
  end.

Definition post_to (k : Kernel) (t signum : Z) : outcome Kernel :=
  '(u, _) ← task_of k t;
  s ← post_signal (t_sig (t_tcb u)) signum;
  Ret (upd_tcb k t (tcb_sig s)).

Definition sys_tkill (k : Kernel) (t tid signum : Z) : outcome (result Z * Kernel) :=
  '(_, p) ← task_of k t;
  let child := if decide (tid = t) then Some t else List.find (λ x, upgrade k x && bool_decide (x = tid)) (p_threads p) in
  match child with
  | Some child => if upgrade k child then k ← post_to k child signum; Ret (Ok 0, k) else Panic
  | None => Ret (Err ECHILD, k)
  end.

Definition sys_tgkill (k : Kernel) (t tgid tid signum : Z) : outcome (result Z * Kernel) :=
  '(u, p) ← task_of k t;
  let target := if decide (tid = t ∧ tgid = t_process u) then Some t
                else List.find (λ x, upgrade k x && bool_decide (x = tid ∧ t_process <$> k_tasks k !! x = Some tgid)) (p_threads p) in
  match target with
  | Some x => k ← post_to k x signum; Ret (Ok 0, k)
  | None => Ret (Err ESRCH, k)
  end.

Definition kill_task (k : Kernel) (pid signum : Z) : result Z * Kernel :=
  if decide (pid ∈ k_map k ∧ upgrade k pid = true) then (Ok 0, upd_tcb k pid (tcb_post (from_num signum))) else (Err ESRCH, k).

(** ** Dropping the memory of a process *)

Lemma area_refs_zero l p : area_refs l p = 0%nat ↔ p ∉ (tracker <$> concat (mtrackers <$> l)).
Proof.
  unfold area_refs. rewrite length_zero_iff_nil. split.
  - intros Hf (x & -> & Hx)%list_elem_of_fmap. assert (x ∈ filter (λ y, tracker y = tracker x) (concat (mtrackers <$> l))) as Hin
      by (by apply list_elem_of_filter). rewrite Hf in Hin. by apply elem_of_nil in Hin.
  - intros Hn. apply list_filter_none. apply Forall_forall. intros x Hx E. apply Hn. rewrite <- E. by apply list_elem_of_fmap_2.
Qed.

(** Frames freed by dropping [l], everything else as before. *)
Definition freed (others : Z → nat) (l : list Z) (w w' : World FS) : Prop :=
  world_ok w' ∧ managed_frames (w_frames w') = managed_frames (w_frames w) ∧
  (∀ p, p ∈ free_frames (w_frames w') ↔ p ∈ free_frames (w_frames w) ∨ (p ∈ l ∧ others p = 0%nat)) ∧
  ∀ x, (∀ p, p ∈ l → others p = 0%nat → ¬ (p ≤ x < p + PAGE_SIZE)) → w_mem w' x = w_mem w x.

Lemma drop_tracks_spec others l w : world_ok w → Forall (λ x, tracker x ∈ managed_frames (w_frames w)) l →
  ∃ w', drop_tracks others l w = Ret w' ∧ freed others (tracker <$> l) w w'.
Proof.
  revert w. induction l as [|x l IH]; intros w Hw Hl.
  { exists w. split; [done|]. split_and!; try done. intros p. rewrite elem_of_nil. tauto. }
  apply Forall_cons in Hl as [Hx Hl]. cbn [drop_tracks fmap list_fmap]. case_decide as Hc.
  - destruct (FrameTracker_drop_ok w (tracker x) Hw Hx) as (w1 & -> & Hw1 & Hm1 & Hf1 & Hx1). step_ret.
    destruct (IH w1 Hw1) as (w2 & -> & Hw2 & Hm2 & Hf2 & Hx2); [by rewrite Hm1|]. exists w2. split; [done|]. split_and!; [done|congruence|..].
    + intros p. rewrite Hf2, Hf1, elem_of_union, elem_of_singleton, elem_of_cons. destruct Hc as [Hc _]. split.
      * intros [[->|?]|[? ?]]; tauto.
      * intros [?|[[->|?] ?]]; tauto.
    + intros y Hy. rewrite Hx2, Hx1; [done|apply Hy; [by left|by destruct Hc]|]. intros p Hp. apply Hy. by right.
  - step_ret. destruct (IH w Hw Hl) as (w2 & -> & Hw2 & Hm2 & Hf2 & Hx2). exists w2. split; [done|]. split_and!; [done|done|..].
    + intros p. rewrite Hf2, elem_of_cons. split; [tauto|]. intros [?|[[->|?] Ho]]; [tauto| |tauto]. right. split; [|done].
      destruct (decide (tracker x ∈ tracker <$> l)); [done|]. by destruct Hc.
    + intros y Hy. apply Hx2. intros p Hp. apply Hy. by right.
Qed.

Lemma clear_areas_spec others l w : world_ok w →
  Forall (λ a, (mtype a = ShareFile → is_Some (afile a)) ∧ Forall (λ x, tracker x ∈ managed_frames (w_frames w)) (mtrackers a)) l →
  ∃ wbs w', clear_areas others l w = Ret (wbs, w') ∧ freed others (tracker <$> concat (mtrackers <$> l)) w w'.
Proof.
  revert w. induction l as [|a l IH]; intros w Hw Hl.
  { exists [], w. split; [done|]. split_and!; try done. intros p. cbn. rewrite elem_of_nil. tauto. }
  apply Forall_cons in Hl as [[Hfile Ha] Hl]. cbn [clear_areas].
  assert (∀ c, ∃ wb, area_drop c a = Ret wb) as Hdrop.
  { intros c. unfold area_drop. destruct (mtype a); eauto. destruct (Hfile eq_refl) as [f ->]. cbn [unwrap]. step_ret. eauto. }
  destruct (Hdrop (λ p, (others p + area_refs l p + area_refs [a] p)%nat)) as [wb ->]. step_ret.
  destruct (drop_tracks_spec (λ p, (others p + area_refs l p)%nat) (mtrackers a) w Hw Ha) as (w1 & -> & Hw1 & Hm1 & Hf1 & Hx1). step_ret.
  destruct (IH w1 Hw1) as (wbs & w2 & -> & Hw2 & Hm2 & Hf2 & Hx2).
  { eapply Forall_impl; [exact Hl|]. intros b. by rewrite Hm1. }
  step_ret. exists (wb ++ wbs), w2. split; [done|]. cbn [fmap list_fmap concat]. rewrite fmap_app. split_and!; [done|congruence|..].
  - intros p. rewrite Hf2, Hf1, elem_of_app. pose proof (area_refs_zero l p) as Hz. unfold fmap in *. split.
    + intros [[?|[? ?]]|[? ?]]; [tauto| |tauto]. right. split; [tauto|lia].
    + intros [?|[Hp Ho]]; [tauto|]. destruct (decide (p ∈ list_fmap _ _ tracker (concat (list_fmap _ _ mtrackers l)))) as [Hin|Hn]; [tauto|].
      left. right. split; [tauto|]. apply Hz in Hn. lia.
  - intros y Hy. rewrite Hx2, Hx1; [done|..].
    + intros p Hp Ho. apply Hy; [set_solver|lia].
    + intros p Hp Ho. apply Hy; [set_solver|done].
Qed.

(** ** Updates *)

Implicit Types (k : Kernel).

Lemma lookup_upd_pcb k pid f q : k_pcbs (upd_pcb k pid f) !! q = if decide (q = pid) then f <$> k_pcbs k !! q else k_pcbs k !! q.
Proof. unfold upd_pcb. cbn [k_pcbs set_pcbs]. case_decide as E; [subst; apply lookup_alter_eq|by rewrite lookup_alter_ne]. Qed.

Lemma lookup_upd_tcb k t f q : k_tasks (upd_tcb k t f) !! q =
  if decide (q = t) then (λ u, mkTask (t_process u) (t_parent u) (f (t_tcb u))) <$> k_tasks k !! q else k_tasks k !! q.
Proof. unfold upd_tcb. cbn [k_tasks set_tasks]. case_decide as E; [subst; apply lookup_alter_eq|by rewrite lookup_alter_ne]. Qed.

Lemma task_of_Ret k t u p : k_tasks k !! t = Some u → k_pcbs k !! t_process u = Some p → task_of k t = Ret (u, p).
Proof. intros Hu Hp. unfold task_of. rewrite Hu. cbn [unwrap]. step_ret. rewrite Hp. cbn [unwrap]. by step_ret. Qed.

(** ** Reachability *)

Lemma roots_alive k t : t ∈ roots k → upgrade k t = true.
Proof.
  intros Ht. unfold upgrade. rewrite bool_decide_eq_true. unfold alive. induction (size (k_tasks k)) as [|n IH]; [done|].
  cbn [Nat.iter nat_rect]. unfold grow. set_solver.
Qed.

(** Liveness depends on the roots, the task table and the children lists only. *)
Lemma upgrade_same k k' t : roots k' = roots k → size (k_tasks k') = size (k_tasks k) →
  (∀ x, task_children k' x = task_children k x) → upgrade k' t = upgrade k t.
Proof.
  intros Hr Hs Hc. unfold upgrade, alive. rewrite Hr, Hs. f_equal.
  assert (∀ s, grow k' s = grow k s) as Hg by (intros s; unfold grow; do 3 f_equal; apply list_fmap_ext; intros i x _; apply Hc).
  assert (∀ n, Nat.iter n (grow k') (roots k) = Nat.iter n (grow k) (roots k)) as ->; [|done].
  induction n as [|n IH]; [done|]. cbn [Nat.iter nat_rect]. rewrite Hg. f_equal. exact IH.
Qed.

(** ** What exit leaves alone *)

(** The parts of a control block that decide about exit and wait. *)
Definition life (p : Pcb) : list Z * list Z * option Z * option Z * bool * AddrSpace (FS := FS) (F := F) :=
  (p_children p, p_threads p, p_exit_code p, p_exit_signal p, p_core_dumped p, p_space p).

Record same_life k k' : Prop := {
  sl_tasks : k_tasks k' = k_tasks k;
  sl_pcbs : ∀ q, life <$> k_pcbs k' !! q = life <$> k_pcbs k !! q;
  sl_roots : roots k' = roots k;
  sl_map : k_map k' = k_map k;
  sl_frames : w_frames (k_world k') = w_frames (k_world k);
  sl_world : world_ok (k_world k) → world_ok (k_world k');
}.

Lemma same_life_pcb k k' q p : same_life k k' → k_pcbs k !! q = Some p → ∃ p', k_pcbs k' !! q = Some p' ∧ life p' = life p.
Proof. intros Hl Hp. pose proof (sl_pcbs k k' Hl q) as E. rewrite Hp in E. destruct (k_pcbs k' !! q) as [p'|]; [|done]. injection E as E. exists p'. split; [done|]. unfold life. congruence. Qed.

Lemma world_ok_zeros w x : world_ok w → world_ok (mkWorld (w_frames w) (mem_write (w_mem w) x [0; 0; 0; 0])).
Proof.
  intros [Hok Hz]. split; [done|]. cbn [w_frames w_mem]. intros p i Hp Hi. unfold mem_write. case_decide as Hc; [|by apply Hz].
  set (j := Z.to_nat _). assert (j < 4)%nat as Hj by (cbn in Hc; unfold j; lia). by destruct j as [|[|[|[|j]]]]; [..|lia].
Qed.

Lemma futex_wake_ret t uaddr n : 0 ≤ n → ∃ c t', futex_wake t uaddr n = Ret (c, t').
Proof.
  intros Hn. unfold futex_wake. case_decide; [eauto|]. destruct (ft_get t uaddr) as [q|]; [|eauto]. unfold drain.
  rewrite decide_True by lia. step_ret. eauto.
Qed.

Lemma clear_child_tid_spec k t u p : k_tasks k !! t = Some u → k_pcbs k !! t_process u = Some p →
  ∃ k', clear_child_tid k t = Ret k' ∧ same_life k k'.
Proof.
  intros Hu Hp. assert (same_life k k) as Hrefl by (split; done).
  unfold clear_child_tid. rewrite (task_of_Ret k t u p) by done. step_ret. case_decide; [|eauto].
  destruct (as_pt (p_space p) !! _) as [[frame fl]|]; [|eauto].
  destruct (futex_wake_ret (p_futex p) (t_clear_child_tid (t_tcb u)) 1) as (c & tab & ->); [done|]. step_ret.
  eexists. split; [done|]. split; try done.
  - intros q. rewrite lookup_upd_pcb. case_decide; [|done]. cbn [set_world k_pcbs]. by destruct (k_pcbs k !! q).
  - apply world_ok_zeros.
Qed.

(** Memory conditions under which the areas of a process can be dropped. *)
Definition droppable k (p : Pcb) : Prop :=
  Forall (λ a, (mtype a = ShareFile → is_Some (afile a)) ∧
               Forall (λ x, tracker x ∈ managed_frames (w_frames (k_world k))) (mtrackers a)) (as_memset (p_space p)).

Definition exit_notice (u : Task) : Z := let sig := t_exit_signal (t_tcb u) in if decide (sig ≠ 0) then from_num sig else SIGCHLD.

(** The end of a process whose parent is scheduled. *)
Lemma process_cleanup_spec k t u p q code : k_tasks k !! t = Some u → k_pcbs k !! t_process u = Some p → t_parent u = Some q → q ∈ roots k →
  droppable k p → world_ok (k_world k) →
  ∃ k', process_cleanup k t code = Ret k' ∧ roots k' = roots k ∧ k_map k' = k_map k ∧
    k_tasks k' = k_tasks (upd_tcb k q (tcb_post (exit_notice u))) ∧
    (∀ x, x ≠ t_process u → k_pcbs k' !! x = k_pcbs k !! x) ∧
    (∃ p', k_pcbs k' !! t_process u = Some p' ∧ p_exit_code p' = Some code ∧ p_exit_signal p' = p_exit_signal p ∧
       p_core_dumped p' = p_core_dumped p ∧ p_children p' = [] ∧ fd_table (p_fds p') = [] ∧ as_memset (p_space p') = []) ∧
    freed (other_refs k (t_process u)) (tracker <$> concat (mtrackers <$> as_memset (p_space p))) (k_world k) (k_world k').
Proof.
  intros Hu Hp Hq Hroot Hd Hw. unfold process_cleanup. rewrite (task_of_Ret k t u p) by done. step_ret.
  destruct (clear_areas_spec (other_refs k (t_process u)) (as_memset (p_space p)) (k_world k) Hw Hd) as (wbs & w' & -> & Hfreed). step_ret.
  rewrite Hq. rewrite roots_alive by done. eexists. split; [done|]. split_and!; try done.
  - intros x Hx. cbn [upd_tcb set_tasks k_pcbs upd_pcb set_pcbs]. by rewrite lookup_alter_ne.
  - cbn [upd_tcb set_tasks k_pcbs upd_pcb set_pcbs]. rewrite lookup_alter_eq, Hp. eexists. split; [done|]. done.
Qed.

(** The memory, task and thread conditions under which task [c] can exit and be reaped by
    its scheduled parent [T]. *)
Record reapable k (T c : Z) (u v : Task) (p pp : Pcb) : Prop := {
  re_child : k_tasks k !! c = Some u ∧ t_process u = c ∧ k_pcbs k !! c = Some p ∧ is_usize c;
  re_parent : k_tasks k !! T = Some v ∧ k_pcbs k !! t_process v = Some pp ∧ T ∈ roots k;
  re_linked : t_parent u = Some T ∧ c ∈ p_children pp ∧ t_process v ≠ c ∧ T ≠ c;
  re_last : ∀ x, x ∈ p_threads p → x = c ∨ upgrade k x = false;
  re_memory : droppable k p ∧ world_ok (k_world k);
}.

Lemma task_children_same k k' x : k_tasks k' = k_tasks k → (∀ q, p_children <$> k_pcbs k' !! q = p_children <$> k_pcbs k !! q) →
  task_children k' x = task_children k x.
Proof.
  intros Ht Hp. unfold task_children. rewrite Ht. destruct (k_tasks k !! x) as [u|]; [|done]. specialize (Hp (t_process u)).
  destruct (k_pcbs k' !! t_process u), (k_pcbs k !! t_process u); try done. by injection Hp.
Qed.

(** Steps of exit that keep the links between tasks. *)
Lemma upgrade_links k k' t : k_tasks k' = k_tasks k → roots k' = roots k →
  (∀ q, p_children <$> k_pcbs k' !! q = p_children <$> k_pcbs k !! q) → upgrade k' t = upgrade k t.
Proof. intros Ht Hr Hp. apply upgrade_same; [done|by rewrite Ht|]. intros x. by apply task_children_same. Qed.

Lemma same_life_children k k' : same_life k k' → ∀ q, p_children <$> k_pcbs k' !! q = p_children <$> k_pcbs k !! q.
Proof.
  intros Hl q. pose proof (sl_pcbs k k' Hl q) as E. destruct (k_pcbs k' !! q) as [p'|], (k_pcbs k !! q) as [p|]; try done.
  injection E as E. cbn. congruence.
Qed.

Lemma upd_children_same k pid f : (∀ p, p_children (f p) = p_children p) →
  ∀ q, p_children <$> k_pcbs (upd_pcb k pid f) !! q = p_children <$> k_pcbs k !! q.
Proof. intros Hf q. rewrite lookup_upd_pcb. case_decide; [|done]. destruct (k_pcbs k !! q); [|done]. cbn. by rewrite Hf. Qed.

(** Changing the control block of the child, not its threads or memory, keeps it reapable. *)
Lemma reapable_upd k T c u v p pp f : reapable k T c u v p pp →
  (∀ p, p_children (f p) = p_children p ∧ p_threads (f p) = p_threads p ∧ p_space (f p) = p_space p) →
  reapable (upd_pcb k c f) T c u v (f p) pp.
Proof.
  intros [(Hu & Hpid & Hp & Hc) (Hv & Hpp & Hr) (Hpar & Hch & Hne & HTc) Hlast [Hd Hw]] Hf. split.
  - split_and!; try done. rewrite lookup_upd_pcb, decide_True by done. by rewrite Hp.
  - split_and!; try done. by rewrite lookup_upd_pcb, decide_False.
  - done.
  - intros x. rewrite (proj1 (proj2 (Hf p))). rewrite (upgrade_links k (upd_pcb k c f) x); [apply Hlast|done|done|].
    apply upd_children_same. intros q. apply Hf.
  - split; [|done]. unfold droppable. rewrite (proj2 (proj2 (Hf p))). exact Hd.
Qed.

Lemma reapable_same k k' T c u v p pp : reapable k T c u v p pp → same_life k k' →
  ∃ p' pp', reapable k' T c u v p' pp' ∧ life p' = life p ∧ life pp' = life pp.
Proof.
  intros [(Hu & Hpid & Hp & Hc) (Hv & Hpp & Hr) (Hpar & Hch & Hne & HTc) Hlast [Hd Hw]] Hl.
  destruct (same_life_pcb k k' c p Hl Hp) as (p' & Hp' & Elp). destruct (same_life_pcb k k' _ pp Hl Hpp) as (pp' & Hpp' & Elpp).
  exists p', pp'. split; [|done]. pose proof Elp as Elp0. pose proof Elpp as Elpp0. unfold life in Elp0, Elpp0.
  injection Elp0 as E1 E2 E3 E4 E5 E6. injection Elpp0 as F1 F2 F3 F4 F5 F6. split.
  - rewrite (sl_tasks k k' Hl). done.
  - rewrite (sl_tasks k k' Hl), (sl_roots k k' Hl). done.
  - rewrite F1. done.
  - intros x. rewrite E2. rewrite (upgrade_links k k' x); [apply Hlast|apply Hl|apply Hl|]. by apply same_life_children.
  - split; [|by apply (sl_world k k' Hl)]. unfold droppable. rewrite E6, (sl_frames k k' Hl). exact Hd.
Qed.

Lemma other_refs_same k k' pid f : (∀ q, q ≠ pid → p_space <$> k_pcbs k' !! q = p_space <$> k_pcbs k !! q) →
  other_refs k' pid f = other_refs k pid f.
Proof.
  intros Hs. assert (p_space <$> delete pid (k_pcbs k') = p_space <$> delete pid (k_pcbs k)) as E.
  { apply map_eq. intros q. rewrite !lookup_fmap. destruct (decide (q = pid)) as [->|]; [by rewrite !lookup_delete_eq|].
    rewrite !lookup_delete_ne by done. by apply Hs. }
  unfold other_refs. f_equal. f_equal.
  assert (∀ m : gmap Z Pcb, (λ e : Z * Pcb, as_memset (p_space e.2)) <$> map_to_list m =
    (λ e : Z * AddrSpace (FS := FS) (F := F), as_memset e.2) <$> map_to_list (p_space <$> m)) as Hm.
  { intros m. rewrite map_to_list_fmap, <- list_fmap_compose. apply list_fmap_ext. by intros i [? ?] _. }
  by rewrite !Hm, E.
Qed.

(** What an exited child leaves for its parent to find. *)
Record exited k k' (T c : Z) (u : Task) (p : Pcb) (code : Z) : Prop := {
  ex_roots : roots k' = roots k;
  ex_map : k_map k' = k_map k;
  ex_tasks : k_tasks k' = k_tasks (upd_tcb k T (tcb_post (exit_notice u)));
  ex_others : ∀ x, x ≠ c → life <$> k_pcbs k' !! x = life <$> k_pcbs k !! x;
  ex_pcb : ∃ p', k_pcbs k' !! c = Some p' ∧ p_exit_code p' = Some code ∧ p_exit_signal p' = p_exit_signal p ∧
    p_core_dumped p' = p_core_dumped p ∧ p_children p' = [] ∧ fd_table (p_fds p') = [] ∧ as_memset (p_space p') = [];
  ex_memory : world_ok (k_world k') ∧ ∀ f, f ∈ free_frames (w_frames (k_world k')) ↔ f ∈ free_frames (w_frames (k_world k)) ∨
    (f ∈ (tracker <$> concat (mtrackers <$> as_memset (p_space p))) ∧ other_refs k c f = 0%nat);
}.

(** The main thread is the last one: the process ends. *)
Lemma exit_tail_last k T c u v p pp code : reapable k T c u v p pp → ∃ k', exit_tail k c code = Ret k' ∧ exited k k' T c u p code.
Proof.
  intros Hr. pose proof Hr as [(Hu & Hpid & Hp & Hc) (Hv & Hpp & Hroot) (Hpar & _) Hlast _].
  unfold exit_tail. rewrite (task_of_Ret k c u p) by (done || by rewrite Hpid). step_ret. rewrite Hpid.
  set (f := λ p, set_threads (filter (λ x, upgrade k x = true ∧ x ≠ c) (p_threads p)) p).
  change (retain_threads k c c) with (upd_pcb k c f). set (k1 := upd_pcb k c f).
  assert (k_pcbs k1 !! c = Some (f p)) as Hp1 by (unfold k1; rewrite lookup_upd_pcb, decide_True, Hp by done; done).
  rewrite (task_of_Ret k1 c u (f p)) by (done || by rewrite Hpid). step_ret.
  assert (p_threads (f p) = []) as Hth.
  { cbn. apply list_filter_none, Forall_forall. intros x Hx [Ha Hne]. destruct (Hlast x Hx); congruence. }
  rewrite decide_True by done.
  destruct (process_cleanup_spec k1 c u (f p) T code) as (k' & E & H1 & H2 & H3 & H4 & H5 & H6 & _ & H7 & _);
    [done|by rewrite Hpid|done|done|exact (proj1 (re_memory _ _ _ _ _ _ _ Hr))|exact (proj2 (re_memory _ _ _ _ _ _ _ Hr))|].
  rewrite Hpid in *. exists k'. split; [done|]. split; try done.
  - intros x Hx. rewrite H4 by done. unfold k1. by rewrite lookup_upd_pcb, decide_False.
  - split; [done|]. intros fr. rewrite H7. cbn [f set_threads p_space]. rewrite (other_refs_same k k1); [done|].
    intros q Hq. unfold k1. by rewrite lookup_upd_pcb, decide_False.
Qed.

Lemma exited_task_exit k T c u v p pp code : reapable k T c u v p pp → ∃ k', task_exit k c code = Ret k' ∧ exited k k' T c u p code.
Proof.
  intros Hr. pose proof Hr as [(Hu & Hpid & Hp & _) _ _ _ _].
  destruct (clear_child_tid_spec k c u p) as (k1 & E1 & Hl1); [done|by rewrite Hpid|].
  destruct (reapable_same k k1 T c u v p pp Hr Hl1) as (p1 & pp1 & Hr1 & Elp & _).
  pose proof Hr1 as [(Hu1 & _ & Hp1 & _) _ _ _ _]. unfold task_exit. rewrite E1. step_ret.
  rewrite (task_of_Ret k1 c u p1) by (done || by rewrite Hpid). step_ret. rewrite Hpid.
  destruct (exit_tail_last (upd_pcb k1 c (set_exit_code (Some code))) T c u v (set_exit_code (Some code) p1) pp1 code)
    as (k' & -> & [H1 H2 H3 H4 H5 H6]); [by apply reapable_upd|].
  exists k'. split; [done|]. unfold life in Elp. injection Elp as _ _ _ L4 L5 L6. split.
  - rewrite H1. apply (sl_roots k k1 Hl1).
  - rewrite H2. apply (sl_map k k1 Hl1).
  - rewrite H3. unfold upd_tcb. cbn [k_tasks set_tasks upd_pcb set_pcbs]. by rewrite (sl_tasks k k1 Hl1).
  - intros x Hx. rewrite H4 by done. rewrite lookup_upd_pcb, decide_False by done. apply (sl_pcbs k k1 Hl1).
  - destruct H5 as (p' & ? & ? & Hs & Hc & ?). exists p'. cbn [set_exit_code p_exit_signal p_core_dumped] in Hs, Hc. rewrite <- L4, <- L5. done.
  - destruct H6 as [Hw Hf]. split; [done|]. intros fr. rewrite Hf. cbn [set_exit_code p_space upd_pcb set_pcbs k_world]. rewrite L6, (sl_frames k k1 Hl1).
    rewrite (other_refs_same k _); [done|]. intros q Hq. rewrite lookup_upd_pcb, decide_False by done.
    pose proof (sl_pcbs k k1 Hl1 q) as E. destruct (k_pcbs k1 !! q), (k_pcbs k !! q); try done. injection E as E. cbn. congruence.
Qed.

Lemma WaitPid_ready (f : Z → option Z) l c : c ∈ l → is_Some (f c) → is_usize c → WaitPid_poll ((λ x, (x, f x)) <$> l) c = Ready (Ok c).
Proof.
  intros Hc Hf Hu. unfold WaitPid_poll. destruct (List.find _ _) as [e|] eqn:E.
  - apply List.find_some in E as [_ E]. apply bool_decide_eq_true in E as [[?|E] _]; [unfold is_usize in *; lia|]. by rewrite E, wrap_small.
  - apply find_None_Forall in E. rewrite Forall_forall in E. specialize (E (c, f c) (list_elem_of_fmap_2 _ _ _ Hc)).
    apply bool_decide_eq_false in E. destruct E. cbn. split; [right; by rewrite wrap_small|done].
Qed.

(** The parent reaps the exited child. *)
Lemma wait_exited k k1 T c u v p pp code status : reapable k T c u v p pp → exited k k1 T c u p code → status ≠ 0 →
  ∃ k2, wait4_poll k1 T c status = Ret (Ready (Ok c), [(status, wait_status (set_exit_code (Some code) p))], k2) ∧
    k_map k2 = k_map k ∖ {[c]} ∧ k_world k2 = k_world k1 ∧
    ∃ pp2, k_pcbs k2 !! t_process v = Some pp2 ∧ p_children pp2 = filter (λ x, x ≠ c) (p_children pp).
Proof.
  intros [(Hu & Hpid & Hp & Hc) (Hv & Hpp & Hroot) (Hpar & Hch & Hne & HTc) _ _] [_ Hmap Htasks Hoth (p' & Hp' & Hcode & Hsig & Hcore & _) _] Hst.
  assert (∃ v1, k_tasks k1 !! T = Some v1 ∧ t_process v1 = t_process v) as (v1 & Hv1 & Hpv).
  { rewrite Htasks, lookup_upd_tcb, decide_True, Hv by done. by eexists. }
  assert (k_tasks k1 !! c = Some u) as Hu1 by (by rewrite Htasks, lookup_upd_tcb, decide_False).
  assert (∃ pp1, k_pcbs k1 !! t_process v = Some pp1 ∧ p_children pp1 = p_children pp) as (pp1 & Hpp1 & Hch1).
  { pose proof (Hoth (t_process v) Hne) as E. rewrite Hpp in E. destruct (k_pcbs k1 !! t_process v) as [pp1|]; [|done].
    injection E as E. exists pp1. split; [done|congruence]. }
  unfold wait4_poll. rewrite (task_of_Ret k1 T v1 pp1) by (done || by rewrite Hpv). step_ret.
  rewrite WaitPid_ready; [|by rewrite Hch1| |done].
  2:{ unfold task_exit_code. rewrite Hu1. cbn [mbind option_bind]. rewrite Hpid, Hp'. cbn [mbind option_bind]. by rewrite Hcode. }
  unfold reap. rewrite Hpv. set (f := λ p, set_children _ p). set (k2 := upd_pcb k1 (t_process v) f).
  assert (k_pcbs k2 !! c = Some p') as Hp2 by (unfold k2; rewrite lookup_upd_pcb, decide_False by done; done).
  unfold task_release. rewrite (task_of_Ret k2 c u p') by (done || by rewrite Hpid). step_ret.
  rewrite decide_True by (left; by rewrite Hcode). step_ret. rewrite (task_of_Ret _ c u p') by (done || by rewrite Hpid). step_ret.
  rewrite decide_True by done. eexists. split.
  - do 4 f_equal. unfold wait_status. cbn [set_exit_code p_exit_signal p_core_dumped p_exit_code]. by rewrite Hsig, Hcore, Hcode.
  - split_and!; [change (k_map k1 ∖ {[c]} = k_map k ∖ {[c]}); by rewrite Hmap|done|]. exists (f pp1). split.
    + change (k_pcbs k2 !! t_process v = Some (f pp1)). unfold k2. rewrite lookup_upd_pcb, decide_True by done. by rewrite Hpp1.
    + unfold f. cbn. by rewrite Hch1.
Qed.

(** The parent was told, the child is gone, and its memory is back. *)
Definition reaped k k1 k2 (T c : Z) (u v : Task) (p pp : Pcb) : Prop :=
  (∃ v1, k_tasks k1 !! T = Some v1 ∧ signal (t_sig (t_tcb v1)) = add_signal (signal (t_sig (t_tcb v))) (exit_notice u)) ∧
  (c ∉ k_map k2) ∧
  (∃ pp2, k_pcbs k2 !! t_process v = Some pp2 ∧ p_children pp2 = filter (λ x, x ≠ c) (p_children pp)) ∧
  ∀ f, f ∈ free_frames (w_frames (k_world k2)) ↔ f ∈ free_frames (w_frames (k_world k)) ∨
    (f ∈ (tracker <$> concat (mtrackers <$> as_memset (p_space p))) ∧ other_refs k c f = 0%nat).

Lemma exit_reaped k k1 T c u v p pp code status : reapable k T c u v p pp → exited k k1 T c u p code → status ≠ 0 →
  ∃ k2, wait4_poll k1 T c status = Ret (Ready (Ok c), [(status, wait_status (set_exit_code (Some code) p))], k2) ∧ reaped k k1 k2 T c u v p pp.
Proof.
  intros Hr He Hst. destruct (wait_exited k k1 T c u v p pp code status Hr He Hst) as (k2 & E & Hmap & Hw & Hpp). exists k2.
  pose proof Hr as [_ (Hv & _) _ _ _]. destruct He as [_ _ Htasks _ _ [_ Hf]]. split; [done|]. split_and!.
  - rewrite Htasks, lookup_upd_tcb, decide_True, Hv by done. by eexists.
  - rewrite Hmap. set_solver.
  - done.
  - intros fr. by rewrite Hw.
Qed.

Lemma exit_tail_stays k t u p code : k_tasks k !! t = Some u → k_pcbs k !! t_process u = Some p →
  t ≠ t_process u ∨ (∃ x, x ∈ p_threads p ∧ x ≠ t ∧ upgrade k x = true) →
  exit_tail k t code = Ret (retain_threads k (t_process u) t).
Proof.
  intros Hu Hp Hstay. unfold exit_tail. rewrite (task_of_Ret k t u p) by done. step_ret.
  set (f := λ p, set_threads (filter (λ x, upgrade k x = true ∧ x ≠ t) (p_threads p)) p).
  change (retain_threads k (t_process u) t) with (upd_pcb k (t_process u) f).
  rewrite (task_of_Ret _ t u (f p)); [|done|by rewrite lookup_upd_pcb, decide_True, Hp]. step_ret.
  rewrite decide_False; [done|]. intros [Ht Hnil]. destruct Hstay as [?|(x & Hx & Hne & Ha)]; [done|].
  assert (x ∈ p_threads (f p)) as Hin by (cbn; by apply list_elem_of_filter). rewrite Hnil in Hin. by apply elem_of_nil in Hin.
Qed.

(** A thread that exits while its process goes on. *)
Lemma thread_exit_stays k t u p code : k_tasks k !! t = Some u → k_pcbs k !! t_process u = Some p →
  t ≠ t_process u ∨ (∃ x, x ∈ p_threads p ∧ x ≠ t ∧ upgrade k x = true) →
  ∃ k', thread_exit k t code = Ret k' ∧ roots k' = roots k ∧
    k_tasks k' = k_tasks (upd_tcb k t (tcb_thread_exit (code mod 4294967296))) ∧
    ∃ p', k_pcbs k' !! t_process u = Some p' ∧ p_exit_code p' = p_exit_code p ∧ p_space p' = p_space p ∧
      (∀ x, x ∈ p_threads p' → x ∈ p_threads p ∧ x ≠ t) ∧ (∀ x, x ∈ roots k → x ∈ p_threads p → x ≠ t → x ∈ p_threads p').
Proof.
  intros Hu Hp Hstay. destruct (clear_child_tid_spec k t u p Hu Hp) as (k1 & E1 & Hl). unfold thread_exit. rewrite E1. step_ret.
  destruct (same_life_pcb k k1 _ p Hl Hp) as (p1 & Hp1 & Elp). unfold life in Elp. injection Elp as L1 L2 L3 _ _ L6.
  set (k2 := upd_tcb k1 t (tcb_thread_exit (code mod 4294967296))).
  assert (k_tasks k2 !! t = Some (mkTask (t_process u) (t_parent u) (tcb_thread_exit (code mod 4294967296) (t_tcb u)))) as Hu2.
  { unfold k2. by rewrite lookup_upd_tcb, decide_True, (sl_tasks k k1 Hl), Hu. }
  assert (∀ x, upgrade k2 x = upgrade k x) as Hup.
  { intros x. transitivity (upgrade k1 x); [|apply upgrade_links; [apply Hl|apply Hl|by apply same_life_children]].
    apply upgrade_same; [done|unfold k2, upd_tcb; cbn [k_tasks set_tasks]|].
    - rewrite <- !size_dom. by rewrite dom_alter_L.
    - intros y. unfold task_children, k2. rewrite lookup_upd_tcb. case_decide; [|done]. by destruct (k_tasks k1 !! y). }
  rewrite (exit_tail_stays k2 t _ p1 code Hu2); cbn [t_process].
  - eexists. split; [done|]. split; [exact (sl_roots k k1 Hl)|]. split; [unfold k2, upd_tcb; cbn; by rewrite (sl_tasks k k1 Hl)|].
    unfold retain_threads. rewrite lookup_upd_pcb, decide_True by done. change (k_pcbs k2) with (k_pcbs k1). rewrite Hp1. eexists. split; [done|].
    cbn [set_threads p_exit_code p_space p_threads]. split_and!; [done|done|..].
    + intros x (? & ?)%list_elem_of_filter. rewrite <- L2. tauto.
    + intros x Hx Hth Hne. apply list_elem_of_filter. split; [|by rewrite L2]. split; [|done]. rewrite Hup. by apply roots_alive.
  - done.
  - destruct Hstay as [?|(x & Hx & Hne & Ha)]; [by left|right]. exists x. rewrite L2, Hup. done.
Qed.
End process.

(** C16: exit and wait4 fit together.  For a single-threaded child whose parent is scheduled,
    after exit with any code the parent's wait4 on it is ready, returns its number and a
    status that decodes to "exited" with that code; after termination by a signal the
    status decodes to that signal, with the core flag for exactly the core-dumping signals.
    In both cases the parent has been sent the exit signal ([SIGCHLD] by default), the child
    is gone from the parent's children and from the task table, and exactly the page frames
    that only the child referred to are free again. *)
Theorem exit_wait_roundtrip {FS} `{FL : FrameSourceLaws FS} {F D} (k : Kernel (FS := FS) (F := F) (D := D)) (T c : Z) (u v : Task) (p pp : Pcb) (status : Z) :
  reapable k T c u v p pp → status ≠ 0 →
  (∀ code, p_exit_signal p = None → ∃ k1 k2 st, task_exit k c code = Ret k1 ∧
     wait4_poll k1 T c status = Ret (Ready (Ok c), [(status, st)], k2) ∧
     st mod 256 = 0 ∧ st / 256 mod 256 = code mod 256 ∧ reaped k k1 k2 T c u v p pp) ∧
  (∀ sig, 0 < sig < 128 → ∃ k1 k2 st, exit_with_signal k c sig = Ret k1 ∧
     wait4_poll k1 T c status = Ret (Ready (Ok c), [(status, st)], k2) ∧
     st mod 128 = sig ∧ st / 128 = (if dumps_core sig then 1 else 0) ∧ reaped k k1 k2 T c u v p pp).
Proof.
  intros Hr Hst. split.
  - intros code Hsig. destruct (exited_task_exit k T c u v p pp code Hr) as (k1 & E1 & He).
    destruct (exit_reaped k k1 T c u v p pp code status Hr He Hst) as (k2 & E2 & Hd). eexists k1, k2, _. split; [done|]. split; [done|].
    unfold wait_status. cbn [set_exit_code p_exit_signal p_exit_code]. rewrite Hsig. cbn [default].
    change 4294967296 with (16777216 * 256). rewrite Z.mul_mod_distr_r by done. unfold id. split_and!; [by apply Z.mod_mul| |done].
    rewrite Z.div_mul by done. change 16777216 with (256 * 65536). rewrite Z.rem_mul_r by done. rewrite Z.mul_comm, Z.mod_add by done. by apply Z.mod_mod.
  - intros sig Hsig. pose proof Hr as [(Hu & Hpid & Hp & _) _ _ _ _].
    pose proof (reapable_upd k T c u v p pp (set_killed sig (dumps_core sig)) Hr ltac:(done)) as Hr'.
    destruct (exited_task_exit _ T c u v _ pp 0 Hr') as (k1 & E1 & He).
    destruct (exit_reaped _ k1 T c u v _ pp 0 status Hr' He Hst) as (k2 & E2 & Hd1 & Hd2 & Hd3 & Hd4). eexists k1, k2, _.
    split; [unfold exit_with_signal; rewrite (task_of_Ret k c u p) by (done || by rewrite Hpid); step_ret; rewrite Hpid; exact E1|].
    split; [exact E2|]. unfold wait_status. cbn [set_exit_code set_killed p_exit_signal p_core_dumped].
    rewrite (Z.mod_small sig) by lia. assert (∀ f, other_refs (upd_pcb k c (set_killed sig (dumps_core sig))) c f = other_refs k c f) as Ho.
    { intros f. apply other_refs_same. intros q Hq. by rewrite lookup_upd_pcb, decide_False. }
    assert (sig < 128 → Z.lor sig 128 = sig + 128) as Hlor.
    { intros _. rewrite <- Z.lxor_lor, <- Z.add_nocarry_lxor; [done|..]; apply Z.bits_inj'; intros n Hn; rewrite Z.land_spec, Z.bits_0;
      change 128 with (2 ^ 7); rewrite Z.pow2_bits_eqb by lia; destruct (7 =? n) eqn:E; rewrite ?andb_false_r, ?andb_true_r; try done;
      apply Z.eqb_eq in E as <-; apply Z.bits_above_log2; try lia; apply Z.log2_lt_pow2; lia. }
    split_and!.
    + destruct (dumps_core sig); [|by apply Z.mod_small; lia]. rewrite Hlor by lia. rewrite <- (Z.mul_1_l 128) at 1. rewrite Z.mod_add by done. apply Z.mod_small. lia.
    + destruct (dumps_core sig); [|apply Z.div_small; lia]. rewrite Hlor by lia. rewrite <- (Z.mul_1_l 128) at 1. rewrite Z.div_add by done. rewrite Z.div_small by lia. done.
    + split_and!; [exact Hd1|exact Hd2|exact Hd3|]. intros f. rewrite Hd4, Ho. done.
Qed.


(** A process whose main thread exits first is never reaped: when the main thread calls
    exit while another thread runs, and that thread exits later, both threads are over but
    the process never gets an exit code and keeps its memory, so a parent waiting for it
    stays blocked. *)
Theorem main_thread_exits_first {FS} `{FL : FrameSourceLaws FS} {F D} (k : Kernel (FS := FS) (F := F) (D := D)) (M W : Z) (u uw : Task) (p : Pcb) (c1 c2 : Z) :
  k_tasks k !! M = Some u → t_process u = M → k_tasks k !! W = Some uw → t_process uw = M → W ≠ M →
  k_pcbs k !! M = Some p → p_threads p = [M; W] → W ∈ roots k → p_exit_code p = None →
  ∃ k1 k2 p2, thread_exit k M c1 = Ret k1 ∧ thread_exit k1 W c2 = Ret k2 ∧
    check_thread_exit k2 M = Ret (Some (c1 mod 4294967296)) ∧ check_thread_exit k2 W = Ret (Some (c2 mod 4294967296)) ∧
    k_pcbs k2 !! M = Some p2 ∧ p_threads p2 = [] ∧ p_exit_code p2 = None ∧ p_space p2 = p_space p ∧
    ∀ T v pp status, k_tasks k2 !! T = Some v → k_pcbs k2 !! t_process v = Some pp → p_children pp = [M] →
      wait4_poll k2 T M status = Ret (Pending, [], k2).
Proof.
  intros Hu Hpid Hw Hwp Hne Hp Hth Hroot Hcode.
  destruct (thread_exit_stays k M u p c1) as (k1 & E1 & Hr1 & Ht1 & p1 & Hp1 & Hc1 & Hs1 & Hin1 & Hkeep1);
    [done|by rewrite Hpid|right; exists W; rewrite Hth; split_and!; [set_solver|done|by apply roots_alive]|]. rewrite Hpid in *.
  destruct (thread_exit_stays k1 W uw p1 c2) as (k2 & E2 & Hr2 & Ht2 & p2 & Hp2 & Hc2 & Hs2 & Hin2 & _);
    [by rewrite Ht1, lookup_upd_tcb, decide_False|by rewrite Hwp|left; congruence|]. rewrite Hwp in *.
  assert (∃ u2, k_tasks k2 !! M = Some u2 ∧ t_process u2 = M ∧ t_thread_exit_code (t_tcb u2) = Some (c1 mod 4294967296)) as (u2 & Hu2 & Hup2 & Huc2).
  { rewrite Ht2, lookup_upd_tcb, decide_False, Ht1, lookup_upd_tcb, decide_True, Hu by done. by eexists. }
  assert (∃ w2, k_tasks k2 !! W = Some w2 ∧ t_process w2 = M ∧ t_thread_exit_code (t_tcb w2) = Some (c2 mod 4294967296)) as (w2 & Hw2 & Hwp2 & Hwc2).
  { rewrite Ht2, lookup_upd_tcb, decide_True, Ht1, lookup_upd_tcb, decide_False, Hw by done. by eexists. }
  assert (p_exit_code p2 = None) as Hcode2 by congruence.
  exists k1, k2, p2. split; [done|]. split; [done|].
  assert (∀ t w, k_tasks k2 !! t = Some w → t_process w = M → check_thread_exit k2 t = Ret (t_thread_exit_code (t_tcb w))) as Hcheck.
  { intros t w Ht Htp. unfold check_thread_exit. rewrite (task_of_Ret k2 t w p2) by (done || by rewrite Htp). step_ret. by rewrite Hcode2. }
  split; [by rewrite (Hcheck M u2), Huc2|]. split; [by rewrite (Hcheck W w2), Hwc2|]. split_and!; try done; [|congruence|].
  - destruct (p_threads p2) as [|x l] eqn:E; [done|]. exfalso. destruct (Hin2 x) as [Hx1 HxW]; [by left|]. destruct (Hin1 x Hx1) as [Hx HxM].
    rewrite Hth in Hx. set_solver.
  - intros T v pp status Hv Hpp Hch. unfold wait4_poll. rewrite (task_of_Ret k2 T v pp) by done. step_ret. rewrite Hch. cbn [fmap list_fmap].
    unfold task_exit_code. rewrite Hu2. cbn [mbind option_bind]. rewrite Hup2, Hp2. cbn [mbind option_bind]. rewrite Hcode2.
    unfold WaitPid_poll. cbn [List.find fst snd]. rewrite bool_decide_eq_false_2; [done|]. intros [_ [? ?]]. done.
Qed.

(** [wait4(-1, WNOHANG)] looks at the first child only: while that child runs the call
    reports that no child has exited, although another child has and a blocking [wait4]
    would return it at once. *)
Theorem wnohang_first_child_only {FS} `{FL : FrameSourceLaws FS} {F D} (k : Kernel (FS := FS) (F := F) (D := D)) (T c1 c2 : Z) (v : Task) (pp : Pcb)
    (rest : list Z) (status : Z) :
  k_tasks k !! T = Some v → k_pcbs k !! t_process v = Some pp → p_children pp = c1 :: rest → c2 ∈ rest →
  task_exit_code k c1 = None → is_Some (task_exit_code k c2) →
  sys_wait4 k T (-1) status 1 = Ret (WaitDone (Ok 0), [], k) ∧
  ∃ c, is_Some (task_exit_code k c) ∧ WaitPid_poll ((λ c, (c, task_exit_code k c)) <$> p_children pp) (-1) = Ready (Ok c).
Proof.
  intros Hv Hpp Hch Hc2 H1 H2. split.
  - unfold sys_wait4. rewrite (task_of_Ret k T v pp) by done. step_ret. rewrite Hch. rewrite decide_False by done.
    rewrite decide_False by (intros [? _]; done). rewrite decide_False by set_solver. rewrite decide_True by done. cbn [List.find].
    rewrite bool_decide_eq_true_2 by (by right). by rewrite H1.
  - unfold WaitPid_poll. destruct (List.find _ _) as [e|] eqn:E.
    + exists e.1. apply List.find_some in E as [Hin E]. apply list_elem_of_In, list_elem_of_fmap in Hin as (c & -> & _).
      apply bool_decide_eq_true in E as [_ E]. done.
    + apply find_None_Forall in E. rewrite Forall_forall in E.
      assert ((c2, task_exit_code k c2) ∈ (λ c, (c, task_exit_code k c)) <$> p_children pp) as Hin
        by (rewrite Hch; apply (list_elem_of_fmap_2 (λ c, (c, task_exit_code k c))); by right).
      apply E, bool_decide_eq_false in Hin. destruct Hin. split; [by left|done].
Qed.

(** ** Witnesses: a parent 1 with children 2 and 3, and a thread 4 of process 3 *)

Definition demo_pcb (s : AddrSpace (FS := FrameAllocator) (F := unit)) (children threads : list Z) (code : option Z) :
    Pcb (FS := FrameAllocator) (F := unit) (D := unit) :=
  mkPcb s (mkFds (FileTable_new tt) rlimits_new) tt children threads 0 (replicate 65 SigAction_new) [] code None false 18.
Definition demo_task (pid : Z) (parent : option Z) : Task := mkTask pid parent (Tcb_new cx_new SigProcMask_new).
Definition empty_space : AddrSpace (FS := FrameAllocator) (F := unit) := mkSpace [] ∅ 0 [] demo_cow_world.
Definition demo_kernel : Kernel (FS := FrameAllocator) (F := unit) (D := unit) :=
  mkKernel 4 {[1 := demo_task 1 None; 2 := demo_task 2 (Some 1); 3 := demo_task 3 (Some 1); 4 := demo_task 3 (Some 1)]}
    {[1 := demo_pcb empty_space [2; 3] [1] None; 2 := demo_pcb demo_cow_space [] [2] None; 3 := demo_pcb empty_space [] [3; 4] None]}
    [1; 2; 3; 4] [] None {[1; 2; 3; 4]} demo_cow_world [].

Lemma demo_reapable : reapable demo_kernel 1 2 (demo_task 2 (Some 1)) (demo_task 1 None) (demo_pcb demo_cow_space [] [2] None)
  (demo_pcb empty_space [2; 3] [1] None).
Proof.
  split.
  - split_and!; reflexivity || done.
  - split; [reflexivity|]. split; [reflexivity|]. apply (bool_decide_unpack (1 ∈ roots demo_kernel)). vm_compute. exact I.
  - split_and!; try done. cbn. set_solver.
  - intros x Hx. apply list_elem_of_singleton in Hx. by left.
  - split; [|exact (ci_world _ demo_cow_inv)]. constructor; [|constructor]. split; [done|]. constructor; [|constructor].
    apply (bool_decide_unpack (0x80000000 ∈ fa_managed demo_cow_frames)). vm_compute. exact I.
Qed.

Lemma exit_wait_roundtrip_witness : ∃ k1 k2 st, task_exit demo_kernel 2 7 = Ret k1 ∧
  wait4_poll k1 1 2 4096 = Ret (Ready (Ok 2), [(4096, st)], k2) ∧ st / 256 mod 256 = 7.
Proof.
  destruct (exit_wait_roundtrip demo_kernel 1 2 _ _ _ _ 4096 demo_reapable ltac:(discriminate)) as [H _].
  destruct (H 7 eq_refl) as (k1 & k2 & st & E1 & E2 & _ & E3 & _). exists k1, k2, st. split; [exact E1|]. split; [exact E2|exact E3].
Defined.

Lemma main_thread_exits_first_witness : ∃ k1 k2 p2, thread_exit demo_kernel 3 0 = Ret k1 ∧ thread_exit k1 4 0 = Ret k2 ∧
  k_pcbs k2 !! 3 = Some p2 ∧ p_exit_code p2 = None.
Proof.
  destruct (main_thread_exits_first demo_kernel 3 4 (demo_task 3 (Some 1)) (demo_task 3 (Some 1)) (demo_pcb empty_space [] [3; 4] None) 0 0)
    as (k1 & k2 & p2 & E1 & E2 & _ & _ & E3 & _ & E4 & _).
  1-7: (reflexivity || discriminate).
  - apply (bool_decide_unpack (4 ∈ roots demo_kernel)). vm_compute. exact I.
  - reflexivity.
  - exists k1, k2, p2. split; [exact E1|]. split; [exact E2|]. split; [exact E3|exact E4].
Defined.

Definition demo_two_children : Kernel (FS := FrameAllocator) (F := unit) (D := unit) :=
  set_pcbs demo_kernel (<[3 := demo_pcb empty_space [] [] (Some 9)]> (k_pcbs demo_kernel)).

Lemma wnohang_first_child_only_witness : sys_wait4 demo_two_children 1 (-1) 4096 1 = Ret (WaitDone (Ok 0), [], demo_two_children).
Proof.
  destruct (wnohang_first_child_only demo_two_children 1 2 3 (demo_task 1 None) (demo_pcb empty_space [2; 3] [1] None) [3] 4096) as [H _].
  - reflexivity.
  - reflexivity.
  - reflexivity.
  - apply list_elem_of_singleton. reflexivity.
  - reflexivity.
  - exists 9. reflexivity.
  - exact H.
Defined.
