(* ===== verification/SysFile.v ===== *)
(** * System calls over descriptors

    Models kernel/src/syscall/fd.rs (all but the polling calls, which are in SysPoll) and
    the epoll objects of kernel/src/syscall/types/poll.rs, on top of the descriptor table
    of FdTable, the open files of File, the pipes of Pipe and any file system.

    An open file ([Arc<File>]) is shared: descriptors hold the key of a file in the store
    [sy_files], so that a duplicated descriptor moves the same offset.  A file whose last
    reference goes away is dropped, which takes a sender away from its pipe.  User memory
    appears as values: a buffer argument is the list of bytes the call sees and returns,
    a path is [None] when it is not valid UTF-8, a null pointer is [None]. *)

From S2P Require Import Prelude Path Vfs Pipe File FdTable.

(** [from_bits_truncate]. *)
Definition bits_truncate (table : list (string * Z)) (bits : Z) : Z :=
  Z.land bits (foldr (λ e acc, Z.lor e.2 acc) 0 table).

Definition OpenFlags_truncate (bits : Z) : Z := bits_truncate OpenFlags_table bits.

(** ** Epoll objects *)

Record EpollEvent := mkEpollEvent { ee_events : Z; ee_data : Z }.

Definition EpollEventType_table : list (string * Z) :=
  [("EPOLLIN", 0x001); ("EPOLLOUT", 0x004); ("EPOLLERR", 0x008); ("EPOLLHUP", 0x010); ("EPOLLPRI", 0x002);
   ("EPOLLRDNORM", 0x040); ("EPOLLRDBAND", 0x080); ("EPOLLWRNORM", 0x100); ("EPOLLWRBAND", 0x200); ("EPOLLMSG", 0x400);
   ("EPOLLRDHUP", 0x2000); ("EPOLLEXCLUSIVE", 0x10000000); ("EPOLLWAKEUP", 0x20000000); ("EPOLLONESHOT", 0x40000000);
   ("EPOLLET", 0x80000000)].

(** [self.bits() as u16], then the bits that are poll events. *)
Definition to_poll (events : Z) : Z := bits_truncate PollEvent_table (events mod 65536).

Record EpollFile := mkEpollFile { ep_data : gmap Z EpollEvent; ep_flags : Z }.

Definition EpollFile_new (flags : Z) : EpollFile := mkEpollFile ∅ flags.

Inductive EpollCtl := ADD | DEL | MOD.

Definition EpollCtl_from (op : Z) : option EpollCtl :=
  if decide (op = 1) then Some ADD else if decide (op = 2) then Some DEL else if decide (op = 3) then Some MOD else None.

Definition EpollFile_ctl (e : EpollFile) (ctl : EpollCtl) (fd : Z) (ev : EpollEvent) : EpollFile :=
  mkEpollFile
    match ctl with
    | ADD => <[fd := ev]> (ep_data e)
    | DEL => delete fd (ep_data e)
    | MOD => alter (λ _, ev) fd (ep_data e)
    end (ep_flags e).

(** ** Control commands *)

Inductive FcntlCmd := DUPFD | GETFD | SETFD | GETFL | SETFL | GETLK | SETLK | SETLKW | DUPFDCLOEXEC.

Definition FcntlCmd_from (cmd : Z) : option FcntlCmd :=
  if decide (cmd = 0) then Some DUPFD else if decide (cmd = 1) then Some GETFD else if decide (cmd = 2) then Some SETFD
  else if decide (cmd = 3) then Some GETFL else if decide (cmd = 4) then Some SETFL else if decide (cmd = 5) then Some GETLK
  else if decide (cmd = 6) then Some SETLK else if decide (cmd = 7) then Some SETLKW
  else if decide (cmd = 0x406) then Some DUPFDCLOEXEC else None.

(** ** Structures filled for the caller; padding fields are left out *)

Record KStat := mkKStat {
  ks_dev : Z; ks_ino : Z; ks_mode : Z; ks_nlink : Z; ks_uid : Z; ks_gid : Z; ks_rdev : Z; ks_size : Z; ks_blksize : Z;
  ks_blocks : Z; ks_atime_sec : Z; ks_atime_nsec : Z; ks_mtime_sec : Z; ks_mtime_nsec : Z; ks_ctime_sec : Z; ks_ctime_nsec : Z;
}.

Record StatxTimestamp := mkStatxTimestamp { tv_sec : Z; tv_nsec : Z }.

Record Statx := mkStatx {
  stx_mask : Z; stx_blksize : Z; stx_attributes : Z; stx_nlink : Z; stx_uid : Z; stx_gid : Z; stx_mode : Z; stx_ino : Z;
  stx_size : Z; stx_blocks : Z; stx_attributes_mask : Z; stx_atime : StatxTimestamp; stx_btime : StatxTimestamp;
  stx_ctime : StatxTimestamp; stx_mtime : StatxTimestamp; stx_rdev_major : Z; stx_rdev_minor : Z; stx_dev_major : Z;
  stx_dev_minor : Z;
}.

Definition STATX_ALL : Z := 0xfff.

Definition as_u32 (z : Z) : Z := z mod 4294967296.

(** [((d >> 8) & 0xfff) as u32 | ((d >> 32) & !0xfff) as u32] on a 64-bit [d]. *)
Definition dev_major (d : Z) : Z :=
  Z.lor (as_u32 (Z.land (Z.shiftr d 8) 0xfff)) (as_u32 (Z.ldiff (Z.shiftr d 32) 0xfff)).
Definition dev_minor (d : Z) : Z :=
  Z.lor (as_u32 (Z.land d 0xff)) (as_u32 (Z.ldiff (Z.shiftr d 12) 0xff)).

Definition KStat_of (stat : Stat) : KStat :=
  mkKStat (st_dev stat) (st_ino stat) (st_mode stat) (st_nlink stat) (st_uid stat) (st_gid stat) (st_rdev stat)
    (st_size stat) (st_blksize stat) (st_blocks stat)
    (as_isize (ts_sec (st_atime stat))) (as_isize (ts_nsec (st_atime stat)))
    (as_isize (ts_sec (st_mtime stat))) (as_isize (ts_nsec (st_mtime stat)))
    (as_isize (ts_sec (st_ctime stat))) (as_isize (ts_nsec (st_ctime stat))).

Definition statx_time (t : TimeSpec) : StatxTimestamp := mkStatxTimestamp (as_isize (ts_sec t)) (as_u32 (ts_nsec t)).

Definition Statx_of (stat : Stat) : Statx :=
  mkStatx STATX_ALL (st_blksize stat) 0 (as_u32 (st_nlink stat)) (st_uid stat) (st_gid stat) (st_mode stat mod 65536)
    (st_ino stat) (st_size stat) (st_blocks stat) 0 (statx_time (st_atime stat)) (statx_time (st_ctime stat))
    (statx_time (st_ctime stat)) (statx_time (st_mtime stat)) (dev_major (st_rdev stat)) (dev_minor (st_rdev stat))
    (dev_major (st_dev stat)) (dev_minor (st_dev stat)).

(** ** Inodes of every kind *)

(** What an [Arc<dyn INodeInterface>] can be: a node of the file systems, an end of a pipe
    or an epoll object. *)
Inductive Node (N : Type) := N_fs (n : N) | N_rx (p : nat) | N_tx (p : nat) | N_epoll (e : nat).
Arguments N_fs {N} n.
Arguments N_rx {N} p.
Arguments N_tx {N} p.
Arguments N_epoll {N} e.

#[export] Instance Node_eq_dec {N} `{EqDecision N} : EqDecision (Node N).
Proof. solve_decision. Defined.

Record NodeWorld (W : Type) := mkNodeWorld { nw_fs : W; nw_pipes : gmap nat Pipe; nw_epolls : gmap nat EpollFile }.
Arguments mkNodeWorld {W}.
Arguments nw_fs {W}.
Arguments nw_pipes {W}.
Arguments nw_epolls {W}.

Section nodes.
Context {N W : Type} (ops : N → INode N W).

(** An inode over a part of the world is an inode over the world: [get] and [put] access
    the part, [inj] and [prj] its nodes.  No system call reaches [link]. *)
Section lift.
Context {N' S : Type} (get : NodeWorld W → option S) (put : S → NodeWorld W → NodeWorld W).
Context (inj : N' → Node N) (prj : Node N → option N').

Definition upd {A} (f : S → outcome (A * S)) (w : NodeWorld W) : outcome (A * NodeWorld W) :=
  s ← unwrap (get w); '(a, s) ← f s; Ret (a, put s w).

Definition obs {A} (f : S → outcome A) (w : NodeWorld W) : outcome A := s ← unwrap (get w); f s.

Definition lift_inode (i : INode N' S) : INode (Node N) (NodeWorld W) := {|
  i_readat off buf := upd (i_readat i off buf);
  i_writeat off buf := upd (i_writeat i off buf);
  i_create name ty := upd (i_create i name ty);
  i_mkdir name := upd (i_mkdir i name);
  i_rmdir name := upd (i_rmdir i name);
  i_remove name := upd (i_remove i name);
  i_read_dir := obs (i_read_dir i);
  i_lookup name w :=
    match obs (i_lookup i name) w with Ret (Ok n) => Ret (Ok (inj n)) | Ret (Err e) => Ret (Err e) | Panic => Panic end;
  i_ioctl cmd arg := upd (i_ioctl i cmd arg);
  i_truncate size := upd (i_truncate i size);
  i_flush := upd (i_flush i);
  i_resolve_link := obs (i_resolve_link i);
  i_link name src w := match prj src with Some src => upd (i_link i name src) w | None => Ret (Err EPERM, w) end;
  i_symlink name target := upd (i_symlink i name target);
  i_unlink name := upd (i_unlink i name);
  i_stat st := obs (i_stat i st);
  i_mount path := upd (i_mount i path);
  i_umount := upd (i_umount i);
  i_statfs st := obs (i_statfs i st);
  i_utimes times := upd (i_utimes i times);
  i_poll ev := upd (i_poll i ev);
|}.
End lift.

Definition put_fs (s : W) (w : NodeWorld W) : NodeWorld W := mkNodeWorld s (nw_pipes w) (nw_epolls w).
Definition put_pipe (p : nat) (s : Pipe) (w : NodeWorld W) : NodeWorld W :=
  mkNodeWorld (nw_fs w) (<[p := s]> (nw_pipes w)) (nw_epolls w).
Definition prj_fs (n : Node N) : option N := match n with N_fs n => Some n | _ => None end.

(** An epoll object implements no method of the trait. *)
Definition node_ops (n : Node N) : INode (Node N) (NodeWorld W) :=
  match n with
  | N_fs n => lift_inode (λ w, Some (nw_fs w)) put_fs N_fs prj_fs (ops n)
  | N_rx p => lift_inode (λ w, nw_pipes w !! p) (put_pipe p) (λ x : Empty_set, match x with end) (λ _, None) PipeReceiver_inode
  | N_tx p => lift_inode (λ w, nw_pipes w !! p) (put_pipe p) (λ x : Empty_set, match x with end) (λ _, None) PipeSender_inode
  | N_epoll _ => INode_default
  end.
End nodes.

(** ** The state of the calls *)

(** The open files and who refers to them: the descriptor table, the current directory
    ([curr_dir]) and [sy_held], the references from elsewhere (other processes, calls that
    wait in an [await]). *)
Record Sys (N W : Type) := mkSys {
  sy_files : gmap nat (@File (Node N));
  sy_fds : Fds (F := nat);
  sy_cwd : nat;
  sy_umask : Z;
  sy_held : list nat;
  sy_mounted : MountTable (Node N);
  sy_world : NodeWorld W;
}.
Arguments mkSys {N W}.
Arguments sy_files {N W}. Arguments sy_fds {N W}. Arguments sy_cwd {N W}. Arguments sy_umask {N W}.
Arguments sy_held {N W}. Arguments sy_mounted {N W}. Arguments sy_world {N W}.

(** A system call: it may panic, and otherwise returns a result and the next state. *)
Definition call (N W A : Type) : Type := Sys N W → outcome (result A * Sys N W).

#[export] Instance call_ret {N W} : MRet (call N W) := λ A a s, Ret (Ok a, s).
#[export] Instance call_bind {N W} : MBind (call N W) := λ A B k m s,
  match m s with Ret (Ok a, s) => k a s | Ret (Err e, s) => Ret (Err e, s) | Panic => Panic end.

Section calls.
Context {N W : Type} (ops : N → INode N W).

Abbreviation St := (Sys N W).
Abbreviation C := (call N W).
Abbreviation nops := (node_ops ops).

(** [r?] *)
Definition try {A} (r : result A) : C A := λ s, Ret (r, s).
Definition see {A} (f : St → outcome A) : C A := λ s, a ← f s; Ret (Ok a, s).
Definition on_world {A} (f : NodeWorld W → outcome (A * NodeWorld W)) : C A := λ s,
  '(a, w) ← f (sy_world s);
  Ret (Ok a, mkSys (sy_files s) (sy_fds s) (sy_cwd s) (sy_umask s) (sy_held s) (sy_mounted s) w).
Definition see_world {A} (f : NodeWorld W → outcome A) : C A := see (λ s, f (sy_world s)).

Definition set_files (files : gmap nat (@File (Node N))) (s : St) : St :=
  mkSys files (sy_fds s) (sy_cwd s) (sy_umask s) (sy_held s) (sy_mounted s) (sy_world s).
Definition set_fds (p : Fds (F := nat)) (s : St) : St :=
  mkSys (sy_files s) p (sy_cwd s) (sy_umask s) (sy_held s) (sy_mounted s) (sy_world s).
Definition set_held (l : list nat) (s : St) : St :=
  mkSys (sy_files s) (sy_fds s) (sy_cwd s) (sy_umask s) l (sy_mounted s) (sy_world s).
Definition set_world (w : NodeWorld W) (s : St) : St :=
  mkSys (sy_files s) (sy_fds s) (sy_cwd s) (sy_umask s) (sy_held s) (sy_mounted s) w.

(** The references to the open file [id]. *)
Definition refers (s : St) (id : nat) : Prop :=
  Some id ∈ fd_table (sy_fds s) ∨ id = sy_cwd s ∨ id ∈ sy_held s.

#[export] Instance refers_dec s id : Decision (refers s id).
Proof. unfold refers. apply _. Defined.

(** Dropping the inode of a file takes a sender away from a pipe. *)
Definition drop_node (n : Node N) (w : NodeWorld W) : NodeWorld W :=
  match n with
  | N_tx p => mkNodeWorld (nw_fs w) (alter (λ q, mkPipe (queue q) (pred (senders q))) p (nw_pipes w)) (nw_epolls w)
  | _ => w
  end.

(** What the drop of a reference to [id] does. *)
Definition collect (id : nat) (s : St) : St :=
  if decide (refers s id) then s
  else match sy_files s !! id with
       | Some f => set_world (drop_node (f_inner f) (sy_world s)) (set_files (delete id (sy_files s)) s)
       | None => s
       end.

(** [Arc::new(file)]. *)
Definition new_file (f : @File (Node N)) : C nat := λ s,
  let id := fresh (dom (sy_files s)) in Ret (Ok id, set_files (<[id := f]> (sy_files s)) s).

Definition file_at (id : nat) : C (@File (Node N)) := see (λ s, unwrap (sy_files s !! id)).
Definition put_file (id : nat) (f : @File (Node N)) : C unit := λ s, Ret (Ok tt, set_files (<[id := f]> (sy_files s)) s).

Definition fd_or (fd : Z) (e : Errno) : C nat := o ← see (λ s, get_fd (sy_fds s) fd); try (ok_or o e).

Definition new_fd (e : Errno) : C Z := λ s,
  '(o, p) ← alloc_fd (sy_fds s); Ret (ok_or o e, set_fds p s).

(** [set_fd] drops the reference it replaces, or the new one when the number is out of range. *)
Definition put_fd (fd : Z) (id : nat) : C unit := λ s,
  p ← set_fd (sy_fds s) fd id;
  let s' := set_fds p s in
  Ret (Ok tt, collect id (match mjoin (fd_table (sy_fds s) !! Z.to_nat fd) with Some old => collect old s' | None => s' end)).

Definition fd_resolve_ (dir_fd : Z) (name : string) : C PathBuf := λ s,
  cwd ← unwrap (sy_files s !! sy_cwd s);
  let path_of id := from_option f_path_buf PathBuf_new (sy_files s !! id) in
  Ret (fd_resolve path_of (sy_fds s) (sy_cwd s) dir_fd name, s).

Definition open_path (path : PathBuf) (flags : Z) : C (@File (Node N)) := λ s,
  '(r, w) ← File_open nops (sy_mounted s) path flags (sy_world s); Ret (r, set_world w s).

Definition fd_open (dir_fd : Z) (name : string) (flags : Z) : C (@File (Node N)) :=
  path ← fd_resolve_ dir_fd name; open_path path flags.

(** [path.get_cstr().map_err(|_| EINVAL)?] *)
Definition cstr (path : option string) : C string := try (ok_or path EINVAL).

(** Operations of an open file, on the shared file [id] and on a file of the call's own. *)
Definition file_read (id : nat) (buf : list Z) : C (result Z * list Z) :=
  f ← file_at id; '(r, buf, f) ← on_world (File_read nops f buf); put_file id f;; mret (r, buf).
Definition file_write (id : nat) (buf : list Z) : C (result Z) :=
  f ← file_at id; '(r, f) ← on_world (File_write nops f buf); put_file id f;; mret r.

(** [vec![0u8; n]]: more than [isize::MAX] bytes is a capacity overflow.  That the kernel heap
    has room for the buffer is assumed. *)
Definition zeroed (n : Z) : C (list Z) := λ s,
  if decide (n < 9223372036854775808) then Ret (Ok (replicate (Z.to_nat n) 0), s) else Panic.

(** ** Duplication, transfer, closing *)

Definition sys_dup3 (fd_src fd_dst : Z) : C Z :=
  file ← fd_or fd_src EBADF;
  put_fd fd_dst file;;
  mret fd_dst.

Definition sys_dup (fd : Z) : C Z :=
  fd_dst ← new_fd EMFILE;
  sys_dup3 fd fd_dst.

(** A transfer that may wait: the file is held, the offset is the one at the call. *)
Record Transfer := mkTransfer { tr_file : nat; tr_offset : Z; tr_buf : list Z; tr_retry : Z }.

(** One clone of an [Arc] goes away. *)
Fixpoint remove_one (id : nat) (l : list nat) : list nat :=
  match l with [] => [] | x :: l => if decide (x = id) then l else x :: remove_one id l end.

Definition hold (id : nat) : C unit := λ s, Ret (Ok tt, set_held (id :: sy_held s) s).
Definition release (id : nat) : C unit := λ s, Ret (Ok tt, collect id (set_held (remove_one id (sy_held s)) s)).

Definition start_transfer (fd : Z) (buf : list Z) : C Transfer :=
  id ← fd_or fd EBADF; f ← file_at id; hold id;; mret (mkTransfer id (f_offset f) buf 0).

Definition sys_read (fd : Z) (buf : list Z) : C Transfer := start_transfer fd buf.
Definition sys_write (fd : Z) (buf : list Z) : C Transfer := start_transfer fd buf.

(** One poll of the [await] of [sys_read]; the caller's buffer comes back with the result. *)
Definition sys_read_poll (t : Transfer) : C (Poll (result Z) * Transfer) :=
  f ← file_at (tr_file t);
  '(p, (buf, retry), f) ← on_world (async_read_poll nops f (tr_offset t) (tr_buf t, tr_retry t));
  put_file (tr_file t) f;;
  match p with Ready _ => release (tr_file t) | Pending => mret tt end;;
  mret (p, mkTransfer (tr_file t) (tr_offset t) buf retry).

Definition sys_write_poll (t : Transfer) : C (Poll (result Z) * Transfer) :=
  f ← file_at (tr_file t);
  '(p, retry, f) ← on_world (async_write_poll nops f (tr_offset t) (tr_buf t) (tr_retry t));
  put_file (tr_file t) f;;
  match p with Ready _ => release (tr_file t) | Pending => mret tt end;;
  mret (p, mkTransfer (tr_file t) (tr_offset t) (tr_buf t) retry).

(** The loop of [sys_readv] over the caller's buffers. *)
Fixpoint readv_loop (file : nat) (iov : list (list Z)) (rsize : Z) : C (result Z * list (list Z)) :=
  match iov with
  | [] => mret (Ok rsize, [])
  | io :: iov =>
      '(r, io) ← file_read file io;
      match r with
      | Err e => mret (Err e, io :: iov)
      | Ok n => '(r, iov) ← readv_loop file iov (rsize +u n); mret (r, io :: iov)
      end
  end.

Definition sys_readv (fd : Z) (iov : list (list Z)) : C (result Z * list (list Z)) :=
  file ← fd_or fd EBADF; readv_loop file iov 0.

Fixpoint writev_loop (file : nat) (iov : list (list Z)) (wsize : Z) : C Z :=
  match iov with
  | [] => mret wsize
  | io :: iov => r ← file_write file io; n ← try r; writev_loop file iov (wsize +u n)
  end.

Definition sys_writev (fd : Z) (iov : list (list Z)) : C Z :=
  file ← fd_or fd EBADF; writev_loop file iov 0.

Definition sys_close (fd : Z) : C Z := λ s,
  let s' := set_fds (clear_fd (sy_fds s) fd) s in
  Ret (Ok 0, match mjoin (fd_table (sy_fds s) !! Z.to_nat fd) with Some old => collect old s' | None => s' end).

Definition sys_pread (fd : Z) (buf : list Z) (offset : Z) : C (result Z * list Z) :=
  id ← fd_or fd EBADF; file ← file_at id;
  on_world (File_readat nops file offset buf).

Definition sys_pwrite (fd : Z) (buf : list Z) (offset : Z) : C Z :=
  id ← fd_or fd EBADF; file ← file_at id;
  r ← on_world (File_writeat nops file offset buf); try r.

Definition sys_lseek (fd offset whence : Z) : C Z :=
  seek_from ← try (if decide (whence = 0) then Ok (SET offset)
                   else if decide (whence = 1) then Ok (CURRENT (as_isize offset))
                   else if decide (whence = 2) then Ok (END_ (as_isize offset)) else Err EINVAL);
  id ← fd_or fd EBADF; file ← file_at id;
  '(r, file) ← see_world (File_seek nops file seek_from);
  put_file id file;;
  try r.

(** ** Opening, creating and removing by path *)

(** [Arc::new(file)] installed at the lowest free number. *)
Definition install (file : @File (Node N)) : C Z :=
  fd ← new_fd EMFILE; id ← new_file file; put_fd fd id;; mret fd.

(** The loop of [sys_mkdir_at]: every component is opened, created if need be, and installed. *)
Fixpoint mkdir_loop (current_fd : Z) (components : list string) : C Z :=
  match components with
  | [] => mret 0
  | comp :: components =>
      file ← fd_open current_fd comp (Z.lor O_DIRECTORY O_CREAT);
      new_fd ← install file;
      mkdir_loop (as_isize new_fd) components
  end.

Definition sys_mkdir_at (dir_fd : Z) (path : option string) : C Z :=
  path_str ← cstr path;
  let components := filter (λ c, c ≠ "") (split_slash path_str) in
  if decide (components = []) then try (Err EEXIST)
  else
    current_fd ← (if starts_with_slash path_str then
                    root_file ← fd_open AT_CWD "/" O_DIRECTORY;
                    root_fd ← install root_file;
                    mret (as_isize root_fd)
                  else mret dir_fd);
    mkdir_loop current_fd components.

(** [renameat2] copies; [File::truncate] cuts the target to the length of the copy. *)
Definition sys_renameat2 (olddir_fd : Z) (oldpath : option string) (newdir_fd : Z) (newpath : option string) (flags : Z) : C Z :=
  let flags := OpenFlags_truncate flags in
  old_path ← cstr oldpath;
  old_file ← fd_open olddir_fd old_path flags;
  t ← see_world (file_type nops old_file); old_file_type ← try t;
  new_path ← cstr newpath;
  match old_file_type with
  | FT_File =>
      new_file ← fd_open newdir_fd new_path (Z.lor O_CREAT flags);
      z ← see_world (file_size nops old_file); size ← try z;
      buffer ← zeroed size;
      '(r, buffer, old_file) ← on_world (File_read nops old_file buffer); _ ← try r;
      '(r, new_file) ← on_world (File_write nops new_file buffer); _ ← try r;
      t ← on_world (i_truncate (nops (f_inner new_file)) (qlen buffer)); _ ← try t;
      mret 0
  | FT_Directory =>
      fd_open newdir_fd new_path (Z.lor O_CREAT (Z.lor O_DIRECTORY flags));;
      mret 0
  | _ => see (λ _, Panic)
  end.

Definition sys_unlinkat (dir_fd : Z) (path : option string) (flags : Z) : C Z :=
  path ← cstr path;
  file ← fd_open dir_fd path (OpenFlags_truncate flags);
  mounted ← see (λ s, Ret (sy_mounted s));
  r ← on_world (remove_self nops mounted file); _ ← try r;
  mret 0.

(** A null path is the empty one. *)
Definition path_or_empty (path : option (option string)) : C string :=
  match path with Some p => cstr p | None => mret "" end.

Definition sys_openat (dir_fd : Z) (filename : option (option string)) (flags : Z) : C Z :=
  let flags := OpenFlags_truncate flags in
  filename ← path_or_empty filename;
  file ← fd_open dir_fd filename flags;
  install file.

Definition sys_open (path : option string) (flags : Z) : C Z :=
  path ← cstr path;
  sys_openat AT_CWD (Some (Some path)) flags.

Definition sys_faccess_at (dir_fd : Z) (filename : option (option string)) (flags : Z) : C Z :=
  filename ← path_or_empty filename;
  fd_open dir_fd filename (OpenFlags_truncate flags);;
  mret 0.

Definition O_NOFOLLOW : Z := 131072.

(** Calls that only check that the file exists. *)
Definition sys_fchmodat (dir_fd : Z) (path : option string) : C Z :=
  path ← cstr path; fd_open dir_fd path O_RDONLY;; mret 0.
Definition sys_chown (path : option string) : C Z :=
  path ← cstr path; fd_open AT_CWD path O_RDONLY;; mret 0.
Definition sys_lchown (path : option string) : C Z :=
  path ← cstr path; fd_open AT_CWD path (Z.lor O_RDONLY O_NOFOLLOW);; mret 0.
Definition sys_fchownat (dir_fd : Z) (path : option string) (flags : Z) : C Z :=
  path ← cstr path;
  fd_open dir_fd path (if decide (Z.land flags 0x100 ≠ 0) then Z.lor O_RDONLY O_NOFOLLOW else O_RDONLY);; mret 0.
Definition sys_linkat (olddirfd : Z) (oldpath : option string) (newpath : option string) : C Z :=
  oldpath ← cstr oldpath; cstr newpath;; fd_open olddirfd oldpath O_RDONLY;; mret 0.
Definition sys_fchown (fd : Z) : C Z := fd_or fd EBADF;; mret 0.
Definition sys_fsync (fd : Z) : C Z := fd_or fd EBADF;; mret 0.
Definition sys_fdatasync (fd : Z) : C Z := fd_or fd EBADF;; mret 0.

Definition sys_flock (fd operation : Z) : C Z :=
  fd_or fd EBADF;;
  let base_op := Z.ldiff operation 4 in
  if decide (base_op = 1 ∨ base_op = 2 ∨ base_op = 8) then mret 0 else try (Err EINVAL).

(** [sync] only counts the open descriptors. *)
Definition sys_sync : C Z :=
  see (λ s, foldM (λ n fd, o ← get_fd (sy_fds s) fd; Ret (match o with Some _ => n + 1 | None => n end)) (seqZ 0 256) 0);; mret 0.

Definition sys_umask (mask : Z) : C Z := λ s,
  Ret (Ok (sy_umask s),
       mkSys (sy_files s) (sy_fds s) (sy_cwd s) (Z.land mask 511) (sy_held s) (sy_mounted s) (sy_world s)).

(** ** Status *)

Definition sys_fstat (fd : Z) : C (Z * KStat) :=
  id ← fd_or fd EBADF; file ← file_at id;
  '(r, stat) ← see_world (File_stat nops file Stat_default); _ ← try r;
  mret (0, KStat_of stat).

Definition S_OWNER_MASK : Z := 448.
Definition add_mode (m : Z) (st : Stat) : Stat :=
  mkStat (st_dev st) (st_ino st) (Z.lor (st_mode st) m) (st_nlink st) (st_uid st) (st_gid st) (st_rdev st)
    (st_size st) (st_blksize st) (st_blocks st) (st_atime st) (st_mtime st) (st_ctime st).

(** [stat] is the caller's structure, which the inode may leave partly as it is. *)
Definition sys_fstatat (dir_fd : Z) (path : option string) (stat : Stat) : C (Z * Stat) :=
  path ← cstr path;
  file ← fd_open dir_fd path O_RDONLY;
  '(r, stat) ← see_world (File_stat nops file stat); _ ← try r;
  mret (0, add_mode S_OWNER_MASK stat).

Definition sys_statx (dir_fd : Z) (pathname : option string) : C (Z * Statx) :=
  pathname ← cstr pathname;
  file ← fd_open dir_fd pathname O_RDONLY;
  '(r, stat) ← see_world (File_stat nops file Stat_default); _ ← try r;
  mret (0, Statx_of stat).

Definition sys_statfs (filename : option string) (statfs : StatFS) : C (Z * StatFS) :=
  path ← cstr filename;
  file ← open_path (PathBuf_from path) O_RDONLY;
  '(r, statfs) ← see_world (i_statfs (nops (f_inner file)) statfs); _ ← try r;
  mret (0, statfs).

(** ** Pipes *)

(** [create_pipe]: a new pipe, [rx] and [tx] its two ends. *)
Definition new_pipe : C nat := λ s,
  let p := fresh (dom (nw_pipes (sy_world s))) in
  Ret (Ok p, set_world (put_pipe p create_pipe (sy_world s)) s).

(** Dropping an end that is in no file. *)
Definition drop_end (n : Node N) : C unit := λ s, Ret (Ok tt, set_world (drop_node n (sy_world s)) s).

(** The caller's two numbers come back as the call leaves them. *)
Definition sys_pipe2 (fds : Z * Z) : C (result Z * (Z * Z)) :=
  p ← new_pipe;
  o ← (λ s, '(r, s) ← new_fd ENFILE s; Ret (Ok r, s));
  match o with
  | Err e => drop_end (N_tx p);; mret (Err e, fds)
  | Ok rx_fd =>
      rx ← new_file (File_new_dev (N_rx p)); put_fd rx_fd rx;;
      o ← (λ s, '(r, s) ← new_fd ENFILE s; Ret (Ok r, s));
      match o with
      | Err e => drop_end (N_tx p);; mret (Err e, (as_u32 rx_fd, fds.2))
      | Ok tx_fd =>
          tx ← new_file (File_new_dev (N_tx p)); put_fd tx_fd tx;;
          mret (Ok 0, (as_u32 rx_fd, as_u32 tx_fd))
      end
  end.

(** ** Mounting *)

Fixpoint trim_start_slash (s : string) : string :=
  match s with String c r => if decide (c = slash) then trim_start_slash r else s | EmptyString => s end.

(** Whatever the file system type, the call succeeds once the paths can be read and the root
    directory opened; errors of [mkdir] and [mount] are dropped. *)
Definition sys_mount (special dir fstype : option string) : C Z :=
  special ← cstr special; dir ← cstr dir; fstype ← cstr fstype;
  (if decide (dir = "") then mret tt
   else parent ← open_path PathBuf_new O_RDONLY;
        on_world (i_mkdir (nops (f_inner parent)) (trim_start_slash dir));; mret tt);;
  if decide (fstype ∈ ["tmpfs"; "ramfs"; "proc"; "sysfs"; "devtmpfs"]) then mret 0
  else if decide (special ≠ "" ∧ special ≠ "none") then
    λ s, match open_path (PathBuf_from special) O_RDONLY s with
         | Panic => Panic
         | Ret (Err _, s) => Ret (Ok 0, s)
         | Ret (Ok dev_node, s) => (on_world (i_mount (nops (f_inner dev_node)) dir);; mret 0) s
         end
  else mret 0.

Definition sys_umount2 (special : option string) : C Z :=
  special ← cstr special;
  if decide (special = "") then try (Err EINVAL)
  else if String.prefix "/dev" special then
    λ s, match open_path (PathBuf_from special) O_RDONLY s with
         | Panic => Panic
         | Ret (Err _, s) => Ret (Ok 0, s)
         | Ret (Ok dev, s) => (on_world (i_umount (nops (f_inner dev)));; mret 0) s
         end
  else λ s, Ret (Ok 0, mkSys (sy_files s) (sy_fds s) (sy_cwd s) (sy_umask s) (sy_held s)
                         (umount (sy_mounted s) (PathBuf_from special)).2 (sy_world s)).

(** ** Directories, control, times, links, copies *)

(** [start] and [now] are the clock at the two readings. *)
Definition sys_getdents64 (fd : Z) (buffer : list Z) (start now : Z) : C (Z * list Z) :=
  id ← see (λ s, o ← get_fd (sy_fds s) fd; unwrap o);
  if decide (5000000000 < now -u start) then mret (0, buffer)
  else
    file ← file_at id;
    '(r, buffer, file) ← see_world (getdents nops file buffer);
    put_file id file;;
    mret (match r with Ok n => n | Err _ => 0 end, buffer).

Definition sys_ioctl (fd request arg1 : Z) : C Z :=
  id ← fd_or fd EINVAL; file ← file_at id;
  r ← on_world (i_ioctl (nops (f_inner file)) request arg1);
  try (match r with Ok n => Ok n | Err _ => Err ENOTTY end).

Definition set_flags (f : @File (Node N)) (flags : Z) : @File (Node N) :=
  mkFile (f_inner f) (f_path_buf f) (f_offset f) flags.

Definition sys_fcntl (fd cmd arg : Z) : C Z :=
  cmd ← try (ok_or (FcntlCmd_from cmd) EINVAL);
  id ← fd_or fd EBADF;
  match cmd with
  | DUPFD | DUPFDCLOEXEC => sys_dup fd
  | GETFD => mret 1
  | GETFL => file ← file_at id; mret (f_flags file)
  | SETFL => file ← file_at id; put_file id (set_flags file (OpenFlags_truncate arg));; put_fd fd id;; mret 0
  | _ => mret 0
  end.

(** [times] is [None] for a null pointer; [now] are the readings of the clock. *)
Definition utimens_times (times : option (TimeSpec * TimeSpec)) (now : TimeSpec * TimeSpec) : list TimeSpec :=
  match times with
  | None => [now.1; now.2]
  | Some (a, m) => [if decide (ts_nsec a = UTIME_NOW) then now.1 else a; if decide (ts_nsec m = UTIME_NOW) then now.2 else m]
  end.

Definition sys_utimensat (dir_fd : Z) (path : option (option string)) (times : option (TimeSpec * TimeSpec))
    (now : TimeSpec * TimeSpec) : C Z :=
  let times := utimens_times times now in
  match path with
  | None =>
      id ← fd_or (wrap dir_fd) EBADF; file ← file_at id;
      r ← on_world (i_utimes (nops (f_inner file)) times); _ ← try r; mret 0
  | Some path =>
      path ← cstr path;
      if decide (path = "/dev/null/invalid") then mret 0
      else
        file ← fd_open dir_fd path O_RDONLY;
        r ← on_world (i_utimes (nops (f_inner file)) times); _ ← try r; mret 0
  end.

(** The link is opened a second time, by the name alone. *)
Definition sys_readlinkat (dir_fd : Z) (path : option string) (buffer : list Z) : C (Z * list Z) :=
  filename ← cstr path;
  file ← fd_open dir_fd filename O_RDONLY;
  t ← see_world (file_type nops file); ftype ← try t;
  if decide (ftype = FT_Link) then
    file ← open_path (PathBuf_from filename) O_RDONLY;
    l ← see_world (i_resolve_link (nops (f_inner file))); file_path ← try l;
    let bytes := str_bytes file_path in
    let rlen := Nat.min (length bytes) (length buffer) in
    mret (Z.of_nat rlen, buf_write buffer (take rlen bytes))
  else try (Err EINVAL).

Definition sys_symlinkat (target : option string) (newdir_fd : Z) (linkpath : option string) : C Z :=
  target ← cstr target; linkpath ← cstr linkpath;
  file ← fd_resolve_ newdir_fd linkpath;
  dir ← open_path (PathBuf_dir file) O_DIRECTORY;
  r ← on_world (i_symlink (nops (f_inner dir)) (PathBuf_filename file) target); _ ← try r;
  mret 0.

Definition sys_ftruncate (fields len : Z) : C Z :=
  if decide (fields = usize_max) then try (Err EPERM)
  else
    id ← fd_or fields EINVAL; file ← file_at id;
    r ← on_world (i_truncate (nops (f_inner file)) len); _ ← try r; mret 0.

Definition sys_truncate (pathname : option string) (length : Z) : C Z :=
  pathname ← cstr pathname;
  file ← open_path (PathBuf_from pathname) O_WRONLY;
  r ← on_world (i_truncate (nops (f_inner file)) length); _ ← try r; mret 0.

(** The bytes [read] returns are not looked at: the whole buffer is written. *)
Definition sys_sendfile (out_fd in_fd offset count : Z) : C Z :=
  out_file ← fd_or out_fd EINVAL;
  in_file ← fd_or in_fd EINVAL;
  curr_off ← (if decide (offset ≠ 0) then mret offset
              else f ← file_at in_file;
                   '(r, f) ← see_world (File_seek nops f (CURRENT 0)); put_file in_file f;; try r);
  f ← file_at in_file;
  z ← see_world (file_size nops f); size ← try z;
  buffer ← zeroed (Z.min (size -u curr_off) count);
  buffer ← (if decide (offset = 0) then
              '(r, buffer) ← file_read in_file buffer; _ ← try r; put_fd in_fd in_file;; mret buffer
            else
              f ← file_at in_file;
              '(r, buffer) ← on_world (File_readat nops f offset buffer); _ ← try r; mret buffer);
  r ← file_write out_file buffer; try r.

(** The offsets are the caller's words, [None] for a null pointer. *)
Definition sys_copy_file_range (fd_in : Z) (off_in : option Z) (fd_out : Z) (off_out : option Z) (len flags : Z)
    : C (Z * option Z * option Z) :=
  if decide (flags ≠ 0) then see (λ _, Panic)
  else
    in_file ← fd_or fd_in EBADF;
    out_file ← fd_or fd_out EBADF;
    buffer ← zeroed len;
    '(rsize, buffer, off_in) ←
      match off_in with
      | Some off =>
          f ← file_at in_file; '(r, buffer) ← on_world (File_readat nops f off buffer); n ← try r; mret (n, buffer, Some (off +u n))
      | None => '(r, buffer) ← file_read in_file buffer; n ← try r; mret (n, buffer, None)
      end;
    if decide (rsize = 0) then mret (0, off_in, off_out)
    else
      let data := take (Z.to_nat rsize) buffer in
      off_out ←
        match off_out with
        | Some off => f ← file_at out_file; r ← on_world (File_writeat nops f off data); n ← try r; mret (Some (off +u n))
        | None => r ← file_write out_file data; _ ← try r; mret None
        end;
      mret (rsize, off_in, off_out).

(** ** Epoll objects *)

Definition sys_epoll_create1 (flags : Z) : C Z :=
  fd ← new_fd EMFILE;
  e ← (λ s, let e := fresh (dom (nw_epolls (sy_world s))) in
            Ret (Ok e, set_world (mkNodeWorld (nw_fs (sy_world s)) (nw_pipes (sy_world s))
                                    (<[e := EpollFile_new flags]> (nw_epolls (sy_world s)))) s));
  id ← new_file (File_new_dev (N_epoll e)); put_fd fd id;; mret fd.

(** [downcast_arc::<EpollFile>()]. *)
Definition epoll_of (epfd : Z) : C nat :=
  id ← fd_or epfd EBADF; file ← file_at id;
  match f_inner file with N_epoll e => mret e | _ => try (Err EINVAL) end.

Definition sys_epoll_ctl (epfd op fd : Z) (event : EpollEvent) : C Z :=
  ctl ← try (ok_or (EpollCtl_from op) EINVAL);
  e ← epoll_of epfd;
  fd_or fd EBADF;;
  on_world (λ w, Ret (tt, mkNodeWorld (nw_fs w) (nw_pipes w) (alter (λ ep, EpollFile_ctl ep ctl fd event) e (nw_epolls w))));;
  mret 0.
(** ** The working directory *)

(** [curr_dir = Arc::new(file)] drops the reference to the old directory. *)
Definition put_cwd (id : nat) : C unit := λ s,
  Ret (Ok tt, collect (sy_cwd s) (mkSys (sy_files s) (sy_fds s) id (sy_umask s) (sy_held s) (sy_mounted s) (sy_world s))).
Definition set_cwd (file : @File (Node N)) : C unit := id ← new_file file; put_cwd id.

Definition sys_chdir (path : option string) : C Z :=
  path ← cstr path;
  new_dir ← fd_open AT_CWD path O_RDONLY;
  t ← see_world (file_type nops new_dir); ft ← try t;
  match ft with
  | FT_Directory => set_cwd new_dir;; mret 0
  | _ => try (Err ENOTDIR)
  end.

(** The path, cut to the caller's buffer and filled with zeros; the result is the pointer. *)
Definition sys_getcwd (buf_ptr : Z) (buffer : list Z) : C (Z * list Z) := λ s,
  curr_dir ← unwrap (sy_files s !! sy_cwd s);
  let bytes := str_bytes (PathBuf_path (f_path_buf curr_dir)) in
  let len := Nat.min (length bytes) (length buffer) in
  Ret (Ok (buf_ptr, take len bytes ++ replicate (length buffer - len) 0), s).
End calls.
