(* ===== verification/SysWf.v ===== *)
(** * Well-formed descriptor states

    The invariant [sys_ok] of the state of SysFile and the proof that the descriptor calls
    keep it: references to open files never dangle, dropped files are gone, and the number
    of senders of a pipe is the number of open files on its sending end.  The rules of
    [safe] are a small program logic for the call monad; it also shows that the calls
    return, unless a file system method panics or the root mount is missing. *)

From S2P Require Import Prelude Path Vfs Pipe File FdTable SysFile.

(** ** Well-formed states *)

Section wf.
Context {N W : Type} (ops : N → INode N W).

Definition is_tx (p : nat) (n : Node N) : bool := match n with N_tx p' => bool_decide (p' = p) | _ => false end.

(** The open files that hold the sending end of pipe [p]. *)
Definition tx_count (p : nat) (files : gmap nat (@File (Node N))) : nat :=
  size (filter (λ e : nat * File, is_tx p (f_inner e.2) = true) files).

(** The object behind a node exists. *)
Definition node_live (w : NodeWorld W) (n : Node N) : Prop :=
  match n with
  | N_fs _ => True
  | N_rx p | N_tx p => is_Some (nw_pipes w !! p)
  | N_epoll e => is_Some (nw_epolls w !! e)
  end.

(** No reference dangles and no file is kept without one ([y] is a file whose reference is
    about to be stored or was just removed); a pipe counts one sender for every open file on
    its sending end, and one for [x], an end that is in no file yet; the descriptor limit
    does not exceed the table. *)
Record sys_ok_with (x y : option nat) (s : Sys N W) : Prop := {
  so_refers : ∀ id, refers s id ∨ y = Some id ↔ is_Some (sy_files s !! id);
  so_node : ∀ id f, sy_files s !! id = Some f → node_live (sy_world s) (f_inner f);
  so_senders : ∀ p q, nw_pipes (sy_world s) !! p = Some q →
    senders q = (tx_count p (sy_files s) + if decide (x = Some p) then 1 else 0)%nat;
  so_mounts : Forall (λ m, ∃ n, m.2 = N_fs n) (sy_mounted s);
  so_limit : ∃ lim, rlimits (sy_fds s) !! 7%nat = Some lim ∧ lim ≤ Z.of_nat (length (fd_table (sy_fds s)));
  so_table : fd_table (sy_fds s) ≠ [];
}.

Abbreviation sys_ok := (sys_ok_with None None).

(** ** Counting senders *)

Lemma tx_count_insert p id f files : files !! id = None →
  tx_count p (<[id := f]> files) = ((if is_tx p (f_inner f) then 1 else 0) + tx_count p files)%nat.
Proof.
  intros Hid. unfold tx_count. destruct (is_tx p (f_inner f)) eqn:E.
  - rewrite map_filter_insert_True by done. rewrite map_size_insert_None; [done|]. apply map_lookup_filter_None. by left.
  - rewrite map_filter_insert_False by (cbn; congruence). by rewrite delete_id.
Qed.

Lemma tx_count_delete p id f files : files !! id = Some f →
  tx_count p files = ((if is_tx p (f_inner f) then 1 else 0) + tx_count p (delete id files))%nat.
Proof.
  intros Hid. rewrite <- (insert_delete_id files id f) at 1 by done. apply tx_count_insert, lookup_delete_eq.
Qed.

Lemma tx_count_put p id f f' files : files !! id = Some f → f_inner f' = f_inner f →
  tx_count p (<[id := f']> files) = tx_count p files.
Proof.
  intros Hid E. rewrite (tx_count_delete p id f files) by done. rewrite <- insert_delete_eq, tx_count_insert by apply lookup_delete_eq.
  by rewrite E.
Qed.

(** ** What inode methods may do to the world *)

(** A method of a file system can panic. *)
Inductive method_panics (i : INode N W) : Prop :=
  | mp_readat off b w : i_readat i off b w = Panic → method_panics i
  | mp_writeat off b w : i_writeat i off b w = Panic → method_panics i
  | mp_create a t w : i_create i a t w = Panic → method_panics i
  | mp_mkdir a w : i_mkdir i a w = Panic → method_panics i
  | mp_remove a w : i_remove i a w = Panic → method_panics i
  | mp_read_dir w : i_read_dir i w = Panic → method_panics i
  | mp_lookup a w : i_lookup i a w = Panic → method_panics i
  | mp_ioctl a b w : i_ioctl i a b w = Panic → method_panics i
  | mp_truncate n w : i_truncate i n w = Panic → method_panics i
  | mp_resolve_link w : i_resolve_link i w = Panic → method_panics i
  | mp_symlink a b w : i_symlink i a b w = Panic → method_panics i
  | mp_stat st w : i_stat i st w = Panic → method_panics i
  | mp_mode st w st' : i_stat i st w = Ret (Ok tt, st') → FileType_from_mode (st_mode st') = Panic → method_panics i
  | mp_mount a w : i_mount i a w = Panic → method_panics i
  | mp_umount w : i_umount i w = Panic → method_panics i
  | mp_statfs st w : i_statfs i st w = Panic → method_panics i
  | mp_utimes t w : i_utimes i t w = Panic → method_panics i
  | mp_poll e w : i_poll i e w = Panic → method_panics i.

Definition fs_panics : Prop := ∃ n, method_panics (ops n).

(** The pipes keep their senders and the epoll objects are untouched. *)
Definition same_objects (w w' : NodeWorld W) : Prop :=
  senders <$> nw_pipes w' = senders <$> nw_pipes w ∧ nw_epolls w' = nw_epolls w.

#[export] Instance same_objects_po : PreOrder same_objects.
Proof. split; [done|]. intros w1 w2 w3 [H1 E1] [H2 E2]. split; by etrans. Qed.

Lemma same_objects_live w w' n : same_objects w w' → node_live w n → node_live w' n.
Proof.
  intros [Hp He]. assert (∀ p, is_Some (nw_pipes w !! p) → is_Some (nw_pipes w' !! p)) as Hl.
  { intros p. rewrite <- !(fmap_is_Some senders), <- !lookup_fmap. by rewrite Hp. }
  destruct n; cbn; rewrite ?He; auto.
Qed.

(** [f] changes no object, and panics only with a file system. *)
Definition gentle {A} (n : Node N) (f : NodeWorld W → outcome (A * NodeWorld W)) : Prop :=
  ∀ w, node_live w n → match f w with Ret (_, w') => same_objects w w' | Panic => fs_panics end.

Definition gentle_see {A} (n : Node N) (f : NodeWorld W → outcome A) : Prop :=
  ∀ w, node_live w n → f w = Panic → fs_panics.

Lemma fs_upd_gentle {A} n (f : W → outcome (A * W)) : (∀ w, f w = Panic → fs_panics) →
  gentle n (upd (λ w, Some (nw_fs w)) put_fs f).
Proof.
  intros Hf w _. unfold upd. cbn [unwrap]. step_ret. specialize (Hf (nw_fs w)). destruct (f (nw_fs w)) as [[a s]|]; [done|by apply Hf].
Qed.

Lemma pipe_upd_gentle {A} n p (f : Pipe → outcome (A * Pipe)) :
  (∀ w, node_live w n → is_Some (nw_pipes w !! p)) →
  (∀ q, match f q with Ret (_, q') => senders q' = senders q | Panic => False end) →
  gentle n (upd (λ w, nw_pipes w !! p) (put_pipe p) f).
Proof.
  intros Hn Hf w [q Hq]%Hn. unfold upd. rewrite Hq. cbn [unwrap]. step_ret. specialize (Hf q). destruct (f q) as [[a q']|]; [|done].
  split; [|done]. cbn. rewrite fmap_insert, Hf, <- fmap_insert. by rewrite insert_id.
Qed.

Lemma pipe_writeat_senders p buf r p' : PipeSender_writeat p buf = (r, p') → senders p' = senders p.
Proof. unfold PipeSender_writeat. repeat case_decide; by intros [= <- <-]. Qed.

Lemma pipe_readat_senders p buf r b p' : PipeReceiver_readat p buf = (r, b, p') → senders p' = senders p.
Proof. unfold PipeReceiver_readat. repeat case_decide; by intros [= <- <- <-]. Qed.

(** The method [m] of the node [n], by cases on the node. *)
Ltac node_gentle c :=
  intros n; destruct n as [n|p|p|e];
  [apply fs_upd_gentle; intros w E; exists n; by eapply c
  |apply pipe_upd_gentle; [done|]; intros q; cbn;
     first [done | destruct (PipeReceiver_readat q _) as [[??]?] eqn:E; by eapply pipe_readat_senders]
  |apply pipe_upd_gentle; [done|]; intros q; cbn; first [done | destruct (PipeSender_writeat q _) as [??] eqn:E; by eapply pipe_writeat_senders]
  |intros w _; cbn; reflexivity].

Lemma readat_gentle off b : ∀ n, gentle n (i_readat (node_ops ops n) off b).
Proof. node_gentle mp_readat. Qed.
Lemma writeat_gentle off b : ∀ n, gentle n (i_writeat (node_ops ops n) off b).
Proof. node_gentle mp_writeat. Qed.
Lemma create_gentle a t : ∀ n, gentle n (i_create (node_ops ops n) a t).
Proof. node_gentle mp_create. Qed.
Lemma mkdir_gentle a : ∀ n, gentle n (i_mkdir (node_ops ops n) a).
Proof. node_gentle mp_mkdir. Qed.
Lemma remove_gentle a : ∀ n, gentle n (i_remove (node_ops ops n) a).
Proof. node_gentle mp_remove. Qed.
Lemma ioctl_gentle a b : ∀ n, gentle n (i_ioctl (node_ops ops n) a b).
Proof. node_gentle mp_ioctl. Qed.
Lemma truncate_gentle z : ∀ n, gentle n (i_truncate (node_ops ops n) z).
Proof. node_gentle mp_truncate. Qed.
Lemma symlink_gentle a b : ∀ n, gentle n (i_symlink (node_ops ops n) a b).
Proof. node_gentle mp_symlink. Qed.
Lemma mount_gentle a : ∀ n, gentle n (i_mount (node_ops ops n) a).
Proof. node_gentle mp_mount. Qed.
Lemma umount_gentle : ∀ n, gentle n (i_umount (node_ops ops n)).
Proof. node_gentle mp_umount. Qed.
Lemma utimes_gentle t : ∀ n, gentle n (i_utimes (node_ops ops n) t).
Proof. node_gentle mp_utimes. Qed.

Ltac node_see c :=
  intros n; destruct n as [n|p|p|e]; intros w Hl;
  [unfold node_ops, lift_inode, obs; cbn; intros E; exists n; by eapply c
  |destruct Hl as [q Hq]; unfold node_ops, lift_inode, obs; cbn; by rewrite Hq
  |destruct Hl as [q Hq]; unfold node_ops, lift_inode, obs; cbn; by rewrite Hq
  |done].

Lemma stat_gentle st : ∀ n, gentle_see n (i_stat (node_ops ops n) st).
Proof. node_see mp_stat. Qed.
Lemma read_dir_gentle : ∀ n, gentle_see n (i_read_dir (node_ops ops n)).
Proof. node_see mp_read_dir. Qed.
Lemma resolve_link_gentle : ∀ n, gentle_see n (i_resolve_link (node_ops ops n)).
Proof. node_see mp_resolve_link. Qed.
Lemma statfs_gentle st : ∀ n, gentle_see n (i_statfs (node_ops ops n) st).
Proof. node_see mp_statfs. Qed.
Lemma poll_gentle ev : ∀ n, gentle n (i_poll (node_ops ops n) ev).
Proof. node_gentle mp_poll. Qed.
Lemma lookup_gentle a : ∀ n, gentle_see n (i_lookup (node_ops ops n) a).
Proof.
  intros n; destruct n as [n|p|p|e]; intros w Hl; [|destruct Hl as [q Hq]; cbn; unfold obs; by rewrite Hq..|done].
  cbn. unfold obs. cbn. destruct (i_lookup (ops n) a (nw_fs w)) as [[]|] eqn:E; try done. intros _. exists n. by eapply mp_lookup.
Qed.

(** ** Operations of open files *)

Lemma gentle_bind {A B} n (f : NodeWorld W → outcome (A * NodeWorld W)) (k : A → B) :
  gentle n f → gentle n (λ w, match f w with Ret (a, w) => Ret (k a, w) | Panic => Panic end).
Proof. intros Hf w Hl. specialize (Hf w Hl). by destruct (f w) as [[a w']|]. Qed.

Lemma File_read_gentle f b : gentle (f_inner f) (File_read (node_ops ops) f b).
Proof.
  intros w Hl. unfold File_read. pose proof (readat_gentle (f_offset f) b (f_inner f) w Hl) as Hx.
  by destruct (i_readat _ _ _ w) as [[[r b'] w']|].
Qed.

Lemma File_write_gentle f b : gentle (f_inner f) (File_write (node_ops ops) f b).
Proof.
  intros w Hl. unfold File_write. destruct (check_writeable f); [|reflexivity]. case_decide; [reflexivity|].
  pose proof (writeat_gentle (f_offset f) b (f_inner f) w Hl) as Hx. by destruct (i_writeat _ _ _ w) as [[r w']|].
Qed.

Lemma File_readat_gentle f off b : gentle (f_inner f) (File_readat (node_ops ops) f off b).
Proof. apply readat_gentle. Qed.

Lemma File_writeat_gentle f off b : gentle (f_inner f) (File_writeat (node_ops ops) f off b).
Proof.
  intros w Hl. unfold File_writeat. destruct (check_writeable f); [|reflexivity]. case_decide; [reflexivity|].
  by apply writeat_gentle.
Qed.

Lemma async_read_gentle f off st : gentle (f_inner f) (async_read_poll (node_ops ops) f off st).
Proof.
  intros w Hl. unfold async_read_poll, WaitBlockingRead_poll.
  pose proof (readat_gentle off st.1 (f_inner f) w Hl) as Hx. destruct (contains _ _).
  - by destruct (i_readat _ _ _ w) as [[[r b'] w']|].
  - destruct (i_readat _ _ _ w) as [[[r b'] w']|]; [|done]. step_ret. by destruct r as [|[]].
Qed.

Lemma async_write_gentle f off b retry : gentle (f_inner f) (async_write_poll (node_ops ops) f off b retry).
Proof.
  intros w Hl. unfold async_write_poll, WaitBlockingWrite_poll. case_decide; [reflexivity|].
  pose proof (writeat_gentle off b (f_inner f) w Hl) as Hx. destruct (i_writeat _ _ _ w) as [[r w']|]; [|done].
  step_ret. by destruct r as [|[]].
Qed.

(** The operations that only look at the status. *)
Lemma stat_see {A} n st (k : result unit * Stat → outcome A) :
  (∀ r, k r ≠ Panic) → gentle_see n (λ w, i_stat (node_ops ops n) st w ≫= k).
Proof.
  intros Hk w Hl. pose proof (stat_gentle st n w Hl) as Hx. destruct (i_stat _ _ w) as [r|]; [|by intros _; apply Hx].
  intros E. by destruct (Hk r).
Qed.

Lemma File_seek_gentle f s : gentle_see (f_inner f) (File_seek (node_ops ops) f s).
Proof. apply stat_see. by intros [[] ?]. Qed.
Lemma file_size_gentle f : gentle_see (f_inner f) (file_size (node_ops ops) f).
Proof. apply stat_see. by intros [[] ?]. Qed.
Lemma File_stat_gentle f st : gentle_see (f_inner f) (File_stat (node_ops ops) f st).
Proof. apply stat_see. by intros [[] ?]. Qed.
Lemma getdents_gentle f b : gentle_see (f_inner f) (getdents (node_ops ops) f b).
Proof.
  intros w Hl. pose proof (read_dir_gentle (f_inner f) w Hl) as Hx. unfold getdents.
  destruct (i_read_dir _ w) as [[es|e]|]; [|done|by intros _; apply Hx]. step_ret. by destruct (getdents_loop _ _ _ _ _) as [[??]?].
Qed.

Lemma file_type_gentle f n : f_inner f = N_fs n → gentle_see (f_inner f) (file_type (node_ops ops) f).
Proof.
  intros Hn w Hl. unfold file_type. rewrite Hn. cbn. unfold obs. cbn [unwrap]. step_ret.
  destruct (i_stat (ops n) Stat_default (nw_fs w)) as [[r st]|] eqn:E; [|intros _; exists n; by eapply mp_stat]. step_ret.
  destruct r as [[]|]; [|done]. destruct (FileType_from_mode (st_mode st)) eqn:Et; [done|]. intros _. exists n. by eapply mp_mode.
Qed.

(** Opening a path stays inside the file systems. *)
Lemma walk_fs names n w : match walk (node_ops ops) names (N_fs n) w with
  | Ret (Ok n') => ∃ m, n' = N_fs m | Ret (Err _) => True | Panic => fs_panics end.
Proof.
  revert n. induction names as [|a names IH]; intros n; [by exists n|]. cbn [walk].
  pose proof (lookup_gentle a (N_fs n) w I) as H. cbn in H |- *. unfold obs in *. cbn in H |- *. destruct (i_lookup (ops n) a (nw_fs w)) as [[m|]|] eqn:E; [apply IH|done|by apply H].
Qed.

Definition has_root (mounted : MountTable (Node N)) : Prop := [] ∈ mounted.*1.

Lemma get_mounted_fs mounted path : Forall (λ m : PathBuf * Node N, ∃ n, m.2 = N_fs n) mounted →
  match get_mounted mounted path with Ret (n, _) => ∃ m, n = N_fs m | Panic => ¬ has_root mounted end.
Proof.
  intros Hm. unfold get_mounted. destruct (List.find _ _) as [x|] eqn:E; cbn [unwrap]; step_ret.
  - apply List.find_some in E as [Hin _]. apply in_rev in Hin. rewrite Forall_forall in Hm. apply Hm. by apply list_elem_of_In.
  - intros [x [Hx Hin]]%list_elem_of_fmap. rewrite find_None_Forall, Forall_forall in E. specialize (E x).
    rewrite list_elem_of_In, <- in_rev, <- list_elem_of_In in E. specialize (E Hin). cbn beta in E.
    unfold PathBuf_starts_with in E. rewrite <- Hx in E. apply bool_decide_eq_false in E. apply E. apply prefix_nil.
Qed.

Lemma File_open_fs mounted path flags w : Forall (λ m : PathBuf * Node N, ∃ n, m.2 = N_fs n) mounted →
  match File_open (node_ops ops) mounted path flags w with
  | Ret (Ok f, w') => same_objects w w' ∧ ∃ n, f_inner f = N_fs n
  | Ret (Err _, w') => same_objects w w'
  | Panic => fs_panics ∨ ¬ has_root mounted
  end.
Proof.
  intros Hm. unfold File_open. pose proof (get_mounted_fs mounted path Hm) as Hg.
  destruct (get_mounted mounted path) as [[de rel]|]; [|by right]. destruct Hg as [n ->]. step_ret.
  case_decide; [|split; [done|by eexists]].
  pose proof (walk_fs (PathBuf_dir rel) n w) as Hw. destruct (walk _ _ _ w) as [[dir|e]|]; [|done|by left]. step_ret.
  destruct Hw as [m ->]. assert (match (if contains flags O_CREAT then i_create (node_ops ops (N_fs m)) (PathBuf_filename rel) (if contains flags O_DIRECTORY then FT_Directory else FT_File) w else Ret (Ok (), w)) with Ret (_, w') => same_objects w w' | Panic => fs_panics end) as Hc.
  { destruct (contains flags O_CREAT); [|done]. by apply create_gentle. }
  destruct (if contains flags O_CREAT then _ else _) as [[[[]|e] w']|]; [|done|by left]. step_ret.
  pose proof (walk_fs [PathBuf_filename rel] m w') as Hl. cbn [walk] in Hl.
  destruct (i_lookup _ _ w') as [[l|e]|]; [|done|by left]. step_ret. split; [done|]. exact Hl.
Qed.

Lemma remove_self_gentle mounted f w : Forall (λ m : PathBuf * Node N, ∃ n, m.2 = N_fs n) mounted →
  match remove_self (node_ops ops) mounted f w with Ret (_, w') => same_objects w w' | Panic => fs_panics ∨ ¬ has_root mounted end.
Proof.
  intros Hm. unfold remove_self. pose proof (File_open_fs mounted (PathBuf_dir (f_path_buf f)) O_DIRECTORY w Hm) as Ho.
  destruct (File_open _ _ _ _ w) as [[[d|e] w1]|]; [|done|done]. step_ret. destruct Ho as [Hs [n Hn]].
  rewrite Hn. pose proof (remove_gentle (PathBuf_filename (f_path_buf f)) (N_fs n) w1 I) as Hr.
  destruct (i_remove _ _ w1) as [[r w2]|]; [by etrans|by left].
Qed.

(** ** References *)

Lemma table_pos x y s : sys_ok_with x y s → (0 < length (fd_table (sy_fds s)))%nat.
Proof. intros Hs. pose proof (so_table _ _ _ Hs). by destruct (fd_table (sy_fds s)); cbn; [|lia]. Qed.

Lemma refers_set_files files (s : Sys N W) id : refers (set_files files s) id ↔ refers s id.
Proof. done. Qed.

Lemma collect_noop (s : Sys N W) id : refers s id → collect id s = s.
Proof. intros Hr. unfold collect. by rewrite decide_True. Qed.

Lemma collect_fds (s : Sys N W) id : sy_fds (collect id s) = sy_fds s ∧ sy_cwd (collect id s) = sy_cwd s ∧
  sy_held (collect id s) = sy_held s ∧ sy_mounted (collect id s) = sy_mounted s.
Proof. unfold collect. case_decide; [done|]. by case_match. Qed.

Lemma refers_collect (s : Sys N W) id j : refers (collect id s) j ↔ refers s j.
Proof. unfold refers. by destruct (collect_fds s id) as (-> & -> & -> & _). Qed.

Lemma drop_node_live (m n : Node N) (w : NodeWorld W) : node_live w n → node_live (drop_node m w) n.
Proof.
  assert (∀ p, is_Some (nw_pipes w !! p) → is_Some (nw_pipes (drop_node m w) !! p)) as Hl.
  { intros p. destruct m; cbn; try done. by rewrite lookup_alter_is_Some. }
  destruct n; cbn; auto. intros He. by destruct m.
Qed.

(** Dropping the last reference to a file keeps the state well formed. *)
Lemma collect_ok x id s : sys_ok_with x (Some id) s → sys_ok_with x None (collect id s).
Proof.
  intros Hs. pose proof (collect_fds s id) as (Ef & Ec & Eh & Em). unfold collect in *. case_decide as Hr.
  - destruct Hs; constructor; try done. intros j. rewrite <- so_refers0. naive_solver.
  - destruct (sy_files s !! id) as [f|] eqn:Hf.
    2: { exfalso. pose proof (proj1 (so_refers _ _ _ Hs id) (or_intror eq_refl)) as Hx. rewrite Hf in Hx. by destruct Hx. }
    destruct Hs as [Href Hn Hsend Hm Hl Ht]. constructor; cbn; [| | |done..].
    + intros j. change (refers (set_world (drop_node (f_inner f) (sy_world s)) (set_files (delete id (sy_files s)) s)) j) with (refers s j).
      rewrite lookup_delete_is_Some, <- Href. naive_solver.
    + intros j g [_ Hg]%lookup_delete_Some. by eapply drop_node_live, Hn.
    + intros p q Hq. assert (∃ q0, nw_pipes (sy_world s) !! p = Some q0 ∧
        senders q0 = (senders q + if is_tx p (f_inner f) then 1 else 0)%nat) as (q0 & Hq0 & Hs0).
      { destruct (f_inner f) as [n|p'|p'|e] eqn:Ei; cbn in Hq |- *; [exists q; split; [done|lia]..| |exists q; split; [done|lia]].
        rewrite lookup_alter in Hq. case_bool_decide as Hp; case_decide; try done; [|exists q; split; [done|lia]]. subst p'.
        destruct (nw_pipes (sy_world s) !! p) as [q0|] eqn:E0; [|done]. injection Hq as <-. exists q0. split; [done|]. cbn.
        specialize (Hsend p q0 E0). rewrite (tx_count_delete p id f) in Hsend by done. rewrite Ei in Hsend. cbn in Hsend.
        rewrite bool_decide_true in Hsend by done. lia. }
      specialize (Hsend p q0 Hq0). rewrite (tx_count_delete p id f) in Hsend by done. destruct (is_tx p (f_inner f)); lia.
Qed.

(** A reference to an existing file may be considered as about to be stored. *)
Lemma sys_ok_pend x id s : sys_ok_with x None s → is_Some (sy_files s !! id) → sys_ok_with x (Some id) s.
Proof.
  intros [] Hid. constructor; try done. intros j. rewrite <- so_refers0. split; [|naive_solver].
  intros [?|[= ->]]; [by left|]. by apply so_refers0.
Qed.

Lemma sys_ok_table x y s fd o lim : sys_ok_with x y s → rlimits (sy_fds s) !! 7%nat = Some lim →
  let s' := set_fds (mkFds (<[fd := o]> (fd_table (sy_fds s))) (rlimits (sy_fds s))) s in
  (fd < length (fd_table (sy_fds s)))%nat → (∀ id, o = Some id → y = Some id) → (o = None → y = None) →
  sys_ok_with x (mjoin (fd_table (sy_fds s) !! fd)) s'.
Proof.
  intros [Href Hn Hsend Hm Hl Ht] Hlim s' Hfd Ho Hno. constructor; try done.
  - intros j. change (is_Some (sy_files s' !! j)) with (is_Some (sy_files s !! j)). rewrite <- Href. unfold refers. cbn. split.
    + intros [[Hj|Hj]|Hj]; [|by left; right|].
      * apply list_elem_of_lookup in Hj as [i Hi]. destruct (decide (i = fd)) as [->|Hne].
        -- rewrite list_lookup_insert_eq in Hi by done. injection Hi as ->. right. by apply Ho.
        -- rewrite list_lookup_insert_ne in Hi by done. left. left. by eapply list_elem_of_lookup_2.
      * left. left. apply (list_elem_of_lookup_2 _ fd). destruct (fd_table (sy_fds s) !! fd) as [[]|]; cbn in Hj; congruence.
    + intros [[Hj|Hj]|Hj]; [|by left; right|].
      * apply list_elem_of_lookup in Hj as [i Hi]. destruct (decide (i = fd)) as [->|Hne].
        -- right. by rewrite Hi.
        -- left. left. apply (list_elem_of_lookup_2 _ i). by rewrite list_lookup_insert_ne.
      * left. left. apply (list_elem_of_lookup_2 _ fd). rewrite list_lookup_insert_eq by done. destruct o as [id|]; [|naive_solver].
        specialize (Ho id eq_refl). congruence.
  - destruct Hl as (l & ? & ?). exists l. cbn. by rewrite length_insert.
  - intros E. apply (f_equal length) in E. cbn in E. rewrite length_insert in E. lia.
Qed.

Definition descriptor (s : Sys N W) (fd : Z) (id : nat) : Prop := get_fd (sy_fds s) fd = Ret (Some id).

Lemma get_fd_ok x y s fd : sys_ok_with x y s →
  ∃ lim, rlimits (sy_fds s) !! 7%nat = Some lim ∧ lim ≤ Z.of_nat (length (fd_table (sy_fds s))) ∧
    get_fd (sy_fds s) fd = Ret (if decide (lim ≤ fd) then None else mjoin (fd_table (sy_fds s) !! Z.to_nat fd)).
Proof.
  intros Hs. destruct (so_limit _ _ _ Hs) as (lim & Hl & Hle). pose proof (table_pos _ _ _ Hs) as Hb. exists lim. split; [done|]. split; [done|].
  unfold get_fd, rlimit. rewrite Hl. cbn [unwrap]. step_ret. case_decide; [done|].
  destruct (lookup_lt_is_Some_2 (fd_table (sy_fds s)) (Z.to_nat fd)) as [o ->]; [lia|]. by destruct o.
Qed.

Lemma descriptor_file x s fd id : sys_ok_with x None s → descriptor s fd id → is_Some (sy_files s !! id).
Proof.
  intros Hs Hd. destruct (get_fd_ok _ _ s fd Hs) as (lim & _ & _ & E). unfold descriptor in Hd. rewrite E in Hd. injection Hd as Hd.
  apply (so_refers _ _ _ Hs). left. left. case_decide; [done|]. apply (list_elem_of_lookup_2 _ (Z.to_nat fd)).
  destruct (fd_table (sy_fds s) !! Z.to_nat fd) as [[]|]; cbn in Hd; congruence.
Qed.

(** Storing a reference. *)
Lemma put_fd_ok x id s fd : sys_ok_with x (Some id) s →
  ∃ s', put_fd fd id s = Ret (Ok tt, s') ∧ sys_ok_with x None s' ∧ sy_mounted s' = sy_mounted s ∧
    ∀ n, node_live (sy_world s) n → node_live (sy_world s') n.
Proof.
  intros Hs. destruct (so_limit _ _ _ Hs) as (lim & Hl & Hle). pose proof (table_pos _ _ _ Hs) as Hb. unfold put_fd, set_fd, rlimit. rewrite Hl. cbn [unwrap]. step_ret.
  assert (∀ j (s1 : Sys N W) n, node_live (sy_world s1) n → node_live (sy_world (collect j s1)) n) as Hu.
  { intros j s1 n Hn. unfold collect. case_decide; [done|]. case_match; [|done]. by apply drop_node_live. }
  assert (∀ j (s1 : Sys N W), sy_mounted (collect j s1) = sy_mounted s1) as Hm by (intros j s1; apply collect_fds).
  case_decide as Hfd; step_ret.
  - eexists. split; [done|]. assert (set_fds (sy_fds s) s = s) as -> by (by destruct s).
    destruct (mjoin (fd_table (sy_fds s) !! Z.to_nat fd)) as [old|] eqn:Ho; [|split_and!; [by apply collect_ok|by rewrite Hm|auto]].
    rewrite (collect_noop s old); [split_and!; [by apply collect_ok|by rewrite Hm|auto]|].
    left. apply (list_elem_of_lookup_2 _ (Z.to_nat fd)). destruct (fd_table (sy_fds s) !! Z.to_nat fd) as [[]|]; cbn in Ho; congruence.
  - destruct (lookup_lt_is_Some_2 (fd_table (sy_fds s)) (Z.to_nat fd)) as [o Ho]; [lia|]. rewrite Ho. cbn [unwrap]. step_ret.
    eexists. split; [done|].
    pose proof (sys_ok_table x (Some id) s (Z.to_nat fd) (Some id) lim Hs Hl ltac:(lia) ltac:(naive_solver) ltac:(done)) as H1.
    cbn zeta in H1. set (s1 := set_fds _ s) in *. rewrite Ho in H1. cbn in H1 |- *.
    assert (refers s1 id) as Hr.
    { left. apply (list_elem_of_lookup_2 _ (Z.to_nat fd)). cbn. rewrite list_lookup_insert_eq; [done|lia]. }
    destruct o as [old|]; cbn in H1 |- *.
    + rewrite collect_noop by (by rewrite refers_collect). split_and!; [by apply collect_ok|by rewrite Hm|auto].
    + by rewrite collect_noop.
Qed.

(** ** Steps that keep every reference *)

(** [s'] is a later well-formed state with the same references, files on the same inodes,
    and the same pipes and epoll objects. *)
Record evolves (s s' : Sys N W) : Prop := {
  ev_ok : sys_ok s';
  ev_fds : sy_fds s' = sy_fds s;
  ev_mounted : sy_mounted s' = sy_mounted s;
  ev_files : f_inner <$> sy_files s' = f_inner <$> sy_files s;
}.

(** The open file [id] is on the inode [n]. *)
Definition file_on (s : Sys N W) (id : nat) (n : Node N) : Prop := (f_inner <$> sy_files s) !! id = Some n.

Lemma file_on_evolves s s' id n : evolves s s' → file_on s id n → file_on s' id n.
Proof. intros [_ _ _ E]. unfold file_on. by rewrite E. Qed.

Lemma descriptor_evolves s s' fd id : evolves s s' → descriptor s fd id → descriptor s' fd id.
Proof. intros [_ E _ _]. unfold descriptor. by rewrite E. Qed.

Lemma evolves_refl s : sys_ok s → evolves s s.
Proof. by split. Qed.

Lemma evolves_trans s1 s2 s3 : evolves s1 s2 → evolves s2 s3 → evolves s1 s3.
Proof. intros [] []. split; [done|congruence..]. Qed.

Lemma file_on_live s id n : sys_ok s → file_on s id n → node_live (sy_world s) n.
Proof.
  intros Hs. unfold file_on. rewrite lookup_fmap. destruct (sy_files s !! id) as [f|] eqn:E; [|done].
  intros [= <-]. by eapply so_node.
Qed.

Lemma set_world_evolves s w : sys_ok s → same_objects (sy_world s) w → evolves s (set_world w s).
Proof.
  intros Hs Hw. split; [|done..]. destruct Hs. constructor; try done.
  - intros id f Hf. eapply same_objects_live; [done|]. by eapply so_node0.
  - cbn. intros p q Hq. assert ((senders <$> nw_pipes w) !! p = Some (senders q)) as E by (by rewrite lookup_fmap, Hq).
    rewrite (proj1 Hw), lookup_fmap in E. destruct (nw_pipes (sy_world s) !! p) as [q0|] eqn:E0; [|done].
    injection E as <-. by apply so_senders0.
Qed.

Lemma put_file_evolves s id f : sys_ok s → file_on s id (f_inner f) → evolves s (set_files (<[id := f]> (sy_files s)) s).
Proof.
  intros Hs Hid. unfold file_on in Hid. rewrite lookup_fmap in Hid. destruct (sy_files s !! id) as [f0|] eqn:E0; [|done].
  injection Hid as Hi. assert (f_inner <$> <[id := f]> (sy_files s) = f_inner <$> sy_files s) as Ef.
  { rewrite fmap_insert, <- Hi, <- fmap_insert. by rewrite insert_id. }
  split; [|done..]. destruct Hs. constructor; try done.
  - intros j. cbn. rewrite lookup_insert_is_Some, <- so_refers0. change (refers (set_files (<[id := f]> (sy_files s)) s) j) with (refers s j).
    split; [intros [?|?]; [|done]|]. 
    + destruct (decide (id = j)); [by left|]. right. split; [done|by left].
    + intros [<-|[_ ?]]; [|done]. apply so_refers0. by exists f0.
  - cbn. intros j g [[<- <-]|[_ Hg]]%lookup_insert_Some; [|by eapply so_node0]. rewrite <- Hi. by eapply so_node0.
  - cbn. intros p q Hq. rewrite (tx_count_put p id f0 f) by done. by apply so_senders0.
Qed.

(** ** Weakest preconditions of calls

    [wp M m Q s]: run from [s], the call [m] returns a value and a state in [Q], or an error
    and a well-formed state, or it panics because a file system does or [M] has no root. *)
Definition wp {A} (M : MountTable (Node N)) (m : call N W A) (Q : A → Sys N W → Prop) (s : Sys N W) : Prop :=
  match m s with
  | Ret (Ok a, s') => Q a s'
  | Ret (Err _, s') => sys_ok s'
  | Panic => fs_panics ∨ ¬ has_root M
  end.

Section rules.
Context (M : MountTable (Node N)).

Lemma wp_bind {A B} (m : call N W A) (k : A → call N W B) Q s :
  wp M m (λ a, wp M (k a) Q) s → wp M (m ≫= k) Q s.
Proof. unfold wp, mbind, call_bind. by destruct (m s) as [[[]]|]. Qed.

Lemma wp_mono {A} (m : call N W A) (Q Q' : A → Sys N W → Prop) s :
  wp M m Q s → (∀ a s', Q a s' → Q' a s') → wp M m Q' s.
Proof. unfold wp. intros Hm HQ. destruct (m s) as [[[]]|]; auto. Qed.

Lemma wp_ret {A} (a : A) (Q : A → Sys N W → Prop) s : Q a s → wp M (mret a) Q s.
Proof. done. Qed.

Lemma wp_try {A} (r : result A) (Q : A → Sys N W → Prop) s : sys_ok s → (∀ a, r = Ok a → Q a s) → wp M (try r) Q s.
Proof. intros Hs HQ. unfold wp, try. destruct r; auto. Qed.

Lemma wp_fd_or fd e (Q : nat → Sys N W → Prop) s : sys_ok s →
  (∀ id n, descriptor s fd id → file_on s id n → Q id s) → wp M (fd_or fd e) Q s.
Proof.
  intros Hs HQ. destruct (get_fd_ok _ _ s fd Hs) as (lim & _ & _ & E). unfold wp, fd_or, see, mbind, call_bind. rewrite E.
  unfold descriptor in HQ. rewrite E in HQ. destruct (if decide (lim ≤ fd) then None else _) as [id|] eqn:Eo; cbn; [|done].
  destruct (descriptor_file None s fd id Hs) as [f Hf]; [unfold descriptor; congruence|].
  apply (HQ id (f_inner f)); [done|]. unfold file_on. by rewrite lookup_fmap, Hf.
Qed.

Lemma wp_file_at id n (Q : @File (Node N) → Sys N W → Prop) s : file_on s id n →
  (∀ f, sy_files s !! id = Some f → f_inner f = n → Q f s) → wp M (file_at id) Q s.
Proof.
  unfold file_on. rewrite lookup_fmap. intros Hf HQ. unfold wp, file_at, see. destruct (sy_files s !! id) as [f|]; [|done].
  injection Hf as Hf. by apply HQ.
Qed.

Lemma wp_on_world {A} n (f : NodeWorld W → outcome (A * NodeWorld W)) (Q : A → Sys N W → Prop) s :
  sys_ok s → gentle n f → node_live (sy_world s) n → (∀ a w s', f (sy_world s) = Ret (a, w) → evolves s s' → Q a s') →
  wp M (on_world f) Q s.
Proof.
  intros Hs Hg Hl HQ. specialize (Hg _ Hl). unfold wp, on_world. destruct (f (sy_world s)) as [[a w]|] eqn:E; [|by left].
  eapply HQ; [done|]. by apply set_world_evolves.
Qed.

Lemma wp_see_world {A} n (f : NodeWorld W → outcome A) (Q : A → Sys N W → Prop) s :
  gentle_see n f → node_live (sy_world s) n → (∀ a, f (sy_world s) = Ret a → Q a s) → wp M (see_world f) Q s.
Proof.
  intros Hg Hl HQ. specialize (Hg _ Hl). unfold wp, see_world, see. destruct (f (sy_world s)) as [a|]; [by apply HQ|].
  left. by apply Hg.
Qed.

Lemma wp_put_file id f (Q : unit → Sys N W → Prop) s : sys_ok s → file_on s id (f_inner f) →
  (∀ s', evolves s s' → Q tt s') → wp M (put_file id f) Q s.
Proof. intros Hs Hf HQ. by apply HQ, put_file_evolves. Qed.

Lemma wp_open_path path flags (Q : @File (Node N) → Sys N W → Prop) s : sys_ok s → sy_mounted s = M →
  (∀ f n s', f_inner f = N_fs n → evolves s s' → Q f s') → wp M (open_path ops path flags) Q s.
Proof.
  intros Hs HM HQ. unfold wp, open_path. pose proof (File_open_fs (sy_mounted s) path flags (sy_world s) (so_mounts _ _ _ Hs)) as Ho.
  destruct (File_open _ _ _ _ _) as [[[f|e] w]|]; [| |by rewrite HM in Ho]; step_ret.
  - destruct Ho as [Ho [n Hn]]. eapply HQ; [done|]. by apply set_world_evolves.
  - by apply set_world_evolves.
Qed.

Lemma wp_fd_resolve dir_fd name (Q : PathBuf → Sys N W → Prop) s : sys_ok s →
  (∀ path, Q path s) → wp M (fd_resolve_ dir_fd name) Q s.
Proof.
  intros Hs HQ. unfold wp, fd_resolve_. destruct (proj1 (so_refers _ _ _ Hs (sy_cwd s))) as [f ->]; [left; right; by left|].
  cbn [unwrap]. step_ret. destruct (fd_resolve _ _ _ _ _); [apply HQ|done].
Qed.

Lemma wp_fd_open dir_fd name flags (Q : @File (Node N) → Sys N W → Prop) s : sys_ok s → sy_mounted s = M →
  (∀ f n s', f_inner f = N_fs n → evolves s s' → Q f s') → wp M (fd_open ops dir_fd name flags) Q s.
Proof. intros Hs HM HQ. apply wp_bind, wp_fd_resolve; [done|]. intros path. by apply wp_open_path. Qed.

Lemma wp_cstr path (Q : string → Sys N W → Prop) s : sys_ok s → (∀ p, Q p s) → wp M (cstr path) Q s.
Proof. intros Hs HQ. apply wp_try; auto. Qed.

Lemma wp_new_fd_with x y e (Q : Z → Sys N W → Prop) s : sys_ok_with x y s →
  match new_fd e s with Ret (_, s') => s' = s | Panic => False end.
Proof.
  intros Hs. destruct (so_limit _ _ _ Hs) as (lim & Hl & Hle). unfold new_fd, alloc_fd, rlimit. rewrite Hl. cbn [unwrap]. step_ret.
  destruct (List.find _ _); cbn; [by destruct s|]. rewrite decide_False by lia. by destruct s.
Qed.

Lemma wp_new_fd e (Q : Z → Sys N W → Prop) s : sys_ok s → (∀ fd, Q fd s) → wp M (new_fd e) Q s.
Proof.
  intros Hs HQ. pose proof (wp_new_fd_with None None e Q s Hs) as Hn. unfold wp.
  destruct (new_fd e s) as [[[fd|] s']|]; subst; [apply HQ|done|done].
Qed.

(** A new file, not yet referred to; its inode may be the end that was in no file. *)
Lemma new_file_ok x x' (f : @File (Node N)) s : sys_ok_with x None s → node_live (sy_world s) (f_inner f) →
  (∀ p, (if decide (x = Some p) then 1 else 0) = (if is_tx p (f_inner f) then 1 else 0) + if decide (x' = Some p) then 1 else 0)%nat →
  ∃ id s', new_file f s = Ret (Ok id, s') ∧ sys_ok_with x' (Some id) s' ∧ sy_mounted s' = sy_mounted s ∧ sy_world s' = sy_world s.
Proof.
  intros Hs Hl Hx. unfold new_file. set (id := fresh _). eexists id, _. split; [done|]. split; [|done].
  assert (sy_files s !! id = None) as Hid. { apply not_elem_of_dom. apply is_fresh. }
  clearbody id. destruct Hs. constructor; try done; cbn.
  - intros j. change (refers (set_files (<[id := f]> (sy_files s)) s) j) with (refers s j). rewrite lookup_insert_is_Some, <- so_refers0.
    split; [|destruct (decide (id = j)); naive_solver]. intros [Hj|[= ->]]; [|by left]. right. split; [|by left]. intros ->.
    assert (is_Some (sy_files s !! j)) as Hj' by (apply so_refers0; by left). rewrite Hid in Hj'. by destruct Hj'.
  - intros j g [[<- <-]|[_ Hg]]%lookup_insert_Some; [done|by eapply so_node0].
  - intros p q Hq. rewrite tx_count_insert by done. rewrite (so_senders0 p q Hq), Hx. lia.
Qed.

Lemma wp_add_fd {A} f fd (k : nat → call N W A) Q s : sys_ok s → (∃ n, f_inner f = N_fs n) →
  (∀ id s', sys_ok s' → sy_mounted s' = sy_mounted s → wp M (k id) Q s') → wp M (id ← new_file f; put_fd fd id;; k id) Q s.
Proof.
  intros Hs [n Hn] HQ. destruct (new_file_ok None None f s Hs) as (id & s1 & E1 & H1 & M1 & _); [by rewrite Hn|by rewrite Hn|].
  destruct (put_fd_ok _ id s1 fd H1) as (s2 & E2 & H2 & M2 & _). apply wp_bind. unfold wp. rewrite E1. apply wp_bind. unfold wp. rewrite E2.
  apply HQ; [done|congruence].
Qed.

Lemma wp_install f (Q : Z → Sys N W → Prop) s : sys_ok s → (∃ n, f_inner f = N_fs n) →
  (∀ fd s', sys_ok s' → sy_mounted s' = sy_mounted s → Q fd s') → wp M (install f) Q s.
Proof. intros Hs Hf HQ. apply wp_bind, wp_new_fd; [done|]. intros fd. apply wp_add_fd; [done|done|]. intros id s' H1 H2. apply wp_ret. auto. Qed.

(** Storing a reference that exists, and one that is already there. *)
Lemma wp_put_fd fd id n (Q : unit → Sys N W → Prop) s : sys_ok s → file_on s id n →
  (∀ s', sys_ok s' → sy_mounted s' = sy_mounted s → Q tt s') → wp M (put_fd fd id) Q s.
Proof.
  intros Hs Hid HQ. destruct (put_fd_ok None id s fd) as (s' & E & H' & Hm & _).
  { apply sys_ok_pend; [done|]. unfold file_on in Hid. rewrite lookup_fmap in Hid. by apply (fmap_is_Some f_inner); rewrite Hid. }
  unfold wp. rewrite E. auto.
Qed.

Lemma put_fd_same fd id s : sys_ok s → descriptor s fd id → put_fd fd id s = Ret (Ok tt, s).
Proof.
  intros Hs Hd. destruct (get_fd_ok _ _ s fd Hs) as (lim & Hl & Hle & E). pose proof (table_pos _ _ _ Hs) as Hpos.
  unfold descriptor in Hd. rewrite E in Hd. injection Hd as Hd. unfold put_fd, set_fd, rlimit. rewrite Hl. cbn [unwrap]. step_ret.
  case_decide; [done|]. assert (fd_table (sy_fds s) !! Z.to_nat fd = Some (Some id)) as Ht.
  { destruct (fd_table (sy_fds s) !! Z.to_nat fd) as [[]|]; cbn in Hd; congruence. }
  rewrite Ht. cbn [unwrap]. step_ret. rewrite list_insert_id by done. cbn. assert (refers s id) as Hr.
  { left. by eapply list_elem_of_lookup_2. }
  assert (set_fds (mkFds (fd_table (sy_fds s)) (rlimits (sy_fds s))) s = s) as -> by (destruct s as [? []]; done).
  rewrite (collect_noop s id) by done. by rewrite collect_noop.
Qed.

Lemma wp_put_fd_same fd id (Q : unit → Sys N W → Prop) s : sys_ok s → descriptor s fd id → Q tt s → wp M (put_fd fd id) Q s.
Proof. intros Hs Hd HQ. unfold wp. by rewrite put_fd_same. Qed.

(** ** The file under an operation stays on its inode *)

Lemma advance_inner (f : @File (Node N)) r : f_inner (advance f r) = f_inner f.
Proof. by destruct r. Qed.

Lemma File_read_inner f b w r b' f' w' : File_read (node_ops ops) f b w = Ret (r, b', f', w') → f_inner f' = f_inner f.
Proof. unfold File_read. destruct (i_readat _ _ _ w) as [[[]]|]; [|done]. step_ret. intros [= <- <- <- <-]. apply advance_inner. Qed.

Lemma File_write_inner f b w r f' w' : File_write (node_ops ops) f b w = Ret (r, f', w') → f_inner f' = f_inner f.
Proof.
  unfold File_write. destruct (check_writeable f); [|by intros [= <- <- <-]]. case_decide; [by intros [= <- <- <-]|].
  destruct (i_writeat _ _ _ w) as [[]|]; [|done]. step_ret. intros [= <- <- <-]. apply advance_inner.
Qed.

Lemma async_read_inner f off st w p st' f' w' :
  async_read_poll (node_ops ops) f off st w = Ret (p, st', f', w') → f_inner f' = f_inner f.
Proof.
  unfold async_read_poll. destruct (contains _ _).
  - destruct (i_readat _ _ _ w) as [[[]]|]; [|done]. step_ret. intros [= <- <- <- <-]. apply advance_inner.
  - destruct (WaitBlockingRead_poll _ _ _ w) as [[[[]]]|]; [| |done]; step_ret; intros [= <- <- <- <-]; [apply advance_inner|done].
Qed.

Lemma async_write_inner f off b retry w p r f' w' :
  async_write_poll (node_ops ops) f off b retry w = Ret (p, r, f', w') → f_inner f' = f_inner f.
Proof.
  unfold async_write_poll. case_decide; [by intros [= <- <- <- <-]|].
  destruct (WaitBlockingWrite_poll _ _ _ _ w) as [[[[]]]|]; [| |done]; step_ret; intros [= <- <- <- <-]; [apply advance_inner|done].
Qed.

Lemma File_seek_inner f k w r f' : File_seek (node_ops ops) f k w = Ret (r, f') → f_inner f' = f_inner f.
Proof. unfold File_seek. destruct (i_stat _ _ w) as [[[]]|]; [| |done]; step_ret; by intros [= <- <-]. Qed.

Lemma getdents_inner f b w r b' f' : getdents (node_ops ops) f b w = Ret (r, b', f') → f_inner f' = f_inner f.
Proof.
  unfold getdents. destruct (i_read_dir _ w) as [[]|]; [| |done]; step_ret; [|by intros [= <- <- <-]].
  destruct (getdents_loop _ _ _ _ _) as [[??]?]. by intros [= <- <- <-].
Qed.

(** Moves every fact about [s] to the state it evolved into. *)
Ltac evolve H :=
  let Hok := fresh "Hs" in
  match type of H with evolves ?s ?s' =>
    pose proof (ev_ok _ _ H) as Hok;
    repeat match goal with
    | F : file_on s _ _ |- _ => apply (file_on_evolves _ _ _ _ H) in F
    | F : descriptor s _ _ |- _ => apply (descriptor_evolves _ _ _ _ H) in F
    | F : sy_mounted s = _ |- _ => rewrite <- (ev_mounted _ _ H) in F
    | F : sys_ok s |- _ => clear F
    end; clear H
  end.

Ltac subst_rhs H := try (match type of H with _ = ?x => is_var x; subst x end).

Ltac live :=
  match goal with
  | |- node_live _ ?n => first [eapply file_on_live; eassumption | match goal with E : n = N_fs _ |- _ => rewrite E; exact I end
                          | match goal with E : n = _ |- _ => rewrite E; eapply file_on_live; eassumption end]
  end.

(** One step of a call. *)
Ltac wp_gentle lem := eapply wp_on_world; [eassumption | apply lem | live | let H := fresh "Hev" in intros ? ? ? ? H; evolve H].
Ltac wp_sees lem := eapply wp_see_world; [apply lem | live | intros ? ?].

Ltac wp_step :=
  lazymatch goal with
  | |- wp _ (_ ≫= _) _ _ => apply wp_bind
  | |- wp _ (mret _) _ _ => apply wp_ret
  | |- wp _ (try _) _ _ => apply wp_try; [assumption|intros ? ?]
  | |- wp _ (cstr _) _ _ => apply wp_cstr; [assumption|intros ?]
  | |- wp _ (fd_or _ _) _ _ => apply wp_fd_or; [assumption|intros ? ? ? ?]
  | |- wp _ (file_at _) _ _ => eapply wp_file_at; [eassumption|let E := fresh "Ei" in intros ? ? E; subst_rhs E]
  | |- wp _ (new_fd _) _ _ => apply wp_new_fd; [assumption|intros ?]
  | |- wp _ (fd_open _ _ _ _) _ _ => apply wp_fd_open; [assumption|assumption|let H := fresh "Hev" in intros ? ? ? ? H; evolve H]
  | |- wp _ (open_path _ _ _) _ _ => apply wp_open_path; [assumption|assumption|let H := fresh "Hev" in intros ? ? ? ? H; evolve H]
  | |- wp _ (fd_resolve_ _ _) _ _ => apply wp_fd_resolve; [assumption|intros ?]
  | |- wp _ (put_file _ _) _ _ => apply wp_put_file; [assumption| |let H := fresh "Hev" in intros ? H; evolve H]
  | |- wp _ (on_world (File_readat _ _ _ _)) _ _ => wp_gentle File_readat_gentle
  | |- wp _ (on_world (File_writeat _ _ _ _)) _ _ => wp_gentle File_writeat_gentle
  | |- wp _ (on_world (i_ioctl _ _ _)) _ _ => wp_gentle ioctl_gentle
  | |- wp _ (on_world (i_truncate _ _)) _ _ => wp_gentle truncate_gentle
  | |- wp _ (on_world (i_symlink _ _ _)) _ _ => wp_gentle symlink_gentle
  | |- wp _ (on_world (i_mkdir _ _)) _ _ => wp_gentle mkdir_gentle
  | |- wp _ (on_world (i_mount _ _)) _ _ => wp_gentle mount_gentle
  | |- wp _ (on_world (i_umount _)) _ _ => wp_gentle umount_gentle
  | |- wp _ (on_world (i_utimes _ _)) _ _ => wp_gentle utimes_gentle
  | |- wp _ (see_world (File_seek _ _ _)) _ _ => wp_sees File_seek_gentle
  | |- wp _ (see_world (file_size _ _)) _ _ => wp_sees file_size_gentle
  | |- wp _ (see_world (File_stat _ _ _)) _ _ => wp_sees File_stat_gentle
  | |- wp _ (see_world (getdents _ _ _)) _ _ => wp_sees getdents_gentle
  | |- wp _ (see_world (i_resolve_link _)) _ _ => wp_sees resolve_link_gentle
  | |- wp _ (see_world (i_statfs _ _)) _ _ => wp_sees statfs_gentle
  | |- wp _ (see_world (file_type _ ?f)) _ _ => eapply wp_see_world; [eapply file_type_gentle; eassumption | live | intros ? ?]
  | |- wp _ (if decide ?P then _ else _) _ _ => destruct (decide P)
  | |- wp _ (if ?b then _ else _) _ _ => destruct b
  | |- wp _ (match ?x with _ => _ end) _ _ => destruct x
  end.

Lemma wp_file_read id n buf (Q : result Z * list Z → Sys N W → Prop) s : sys_ok s → file_on s id n →
  (∀ r s', evolves s s' → Q r s') → wp M (file_read ops id buf) Q s.
Proof.
  intros Hs Hid HQ. unfold file_read. do 2 wp_step. wp_step.
  eapply wp_on_world; [done|apply File_read_gentle|live|]. intros [[r b] f'] w s1 E Hev.
  wp_step. apply wp_put_file; [apply Hev| |].
  - erewrite File_read_inner by done. by eapply file_on_evolves.
  - intros s2 H2. wp_step. apply HQ. by eapply evolves_trans.
Qed.

Lemma wp_file_write id n buf (Q : result Z → Sys N W → Prop) s : sys_ok s → file_on s id n →
  (∀ r s', evolves s s' → Q r s') → wp M (file_write ops id buf) Q s.
Proof.
  intros Hs Hid HQ. unfold file_write. do 2 wp_step. wp_step.
  eapply wp_on_world; [done|apply File_write_gentle|live|]. intros [r f'] w s1 E Hev.
  wp_step. apply wp_put_file; [apply Hev| |].
  - erewrite File_write_inner by done. by eapply file_on_evolves.
  - intros s2 H2. wp_step. apply HQ. by eapply evolves_trans.
Qed.

Lemma wp_zeroed n (Q : list Z → Sys N W → Prop) s : n < 9223372036854775808 → (∀ b, Q b s) → wp M (zeroed n) Q s.
Proof. intros Hn HQ. unfold wp, zeroed. rewrite decide_True by done. apply HQ. Qed.

Ltac wp_io :=
  first [wp_step
        | apply wp_zeroed; [lia|intros ?]
        | apply wp_put_fd_same; [assumption|eassumption|]
        | eapply wp_file_read; [eassumption|eassumption|let H := fresh "Hev" in intros ? ? H; evolve H]
        | eapply wp_file_write; [eassumption|eassumption|let H := fresh "Hev" in intros ? ? H; evolve H]].

Abbreviation keeps m s := (wp M m (λ _ s', sys_ok s') s).

Lemma readv_ok file iov : ∀ rsize s n, sys_ok s → file_on s file n → keeps (readv_loop ops file iov rsize) s.
Proof.
  induction iov as [|io iov IH]; intros rsize s n Hs Hf; cbn [readv_loop]; [by wp_step|]. repeat wp_io; try done.
  eapply wp_mono; [by eapply IH|]. intros [] s2 H2. by wp_step.
Qed.

Lemma writev_ok file iov : ∀ wsize s n, sys_ok s → file_on s file n → keeps (writev_loop ops file iov wsize) s.
Proof.
  induction iov as [|io iov IH]; intros wsize s n Hs Hf; cbn [writev_loop]; [by wp_step|]. repeat wp_io; try done. by eapply IH.
Qed.

Lemma mkdir_loop_ok comps : ∀ dir s, sys_ok s → sy_mounted s = M → keeps (mkdir_loop ops dir comps) s.
Proof.
  induction comps as [|c comps IH]; intros dir s Hs HM; cbn [mkdir_loop]; [by wp_step|]. do 3 wp_step.
  apply wp_install; [done|by eexists|]. intros fd s2 H1 H2. apply IH; congruence.
Qed.

Lemma collect_old_ok fd s : sys_ok s → keeps (sys_close fd) s.
Proof.
  intros Hs. destruct (so_limit _ _ _ Hs) as (lim & Hl & Hle). unfold wp, sys_close, clear_fd. case_decide as Hfd.
  - assert (set_fds (sy_fds s) s = s) as -> by (by destruct s). by rewrite lookup_ge_None_2 by lia.
  - pose proof (table_pos _ _ _ Hs). pose proof (sys_ok_table None None s (Z.to_nat fd) None lim Hs Hl ltac:(lia) ltac:(done) ltac:(done)) as H1.
    destruct (mjoin _) as [old|]; [by apply collect_ok|done].
Qed.

Lemma hold_ok id s n : sys_ok s → file_on s id n → sys_ok (set_held (id :: sy_held s) s).
Proof.
  intros Hs Hid. destruct Hs. constructor; try done. intros j. cbn. rewrite <- so_refers0. unfold refers. cbn. rewrite elem_of_cons.
  split; [|naive_solver]. intros [[?|[?|[->|?]]]|?]; [naive_solver..| |naive_solver|done]. apply so_refers0.
  apply (fmap_is_Some f_inner). rewrite <- lookup_fmap, Hid. done.
Qed.

Lemma elem_of_remove_one (l : list nat) id j : id ∈ l → j ∈ remove_one id l ∨ j = id ↔ j ∈ l.
Proof.
  induction l as [|x l IH]; [by intros ?%not_elem_of_nil|]. rewrite elem_of_cons. cbn [remove_one]. case_decide; subst.
  - rewrite elem_of_cons. naive_solver.
  - intros [->|Hl]; [done|]. rewrite !elem_of_cons, <- IH by done. naive_solver.
Qed.

Lemma release_ok id s : sys_ok s → id ∈ sy_held s → keeps (release id) s.
Proof.
  intros Hs Hid. unfold wp, release. apply collect_ok. destruct Hs. constructor; try done. intros j. cbn. rewrite <- so_refers0.
  unfold refers. cbn. pose proof (elem_of_remove_one (sy_held s) id j Hid). naive_solver.
Qed.

Lemma path_or_empty_ok path (Q : string → Sys N W → Prop) s : sys_ok s → (∀ p, Q p s) → wp M (path_or_empty path) Q s.
Proof. intros Hs HQ. unfold path_or_empty. by repeat wp_step. Qed.

Section all_calls.
Context (s : Sys N W) (Hs : sys_ok s) (HM : sy_mounted s = M).

(** Replacing the working directory. *)
Lemma wp_set_cwd f (Q : unit → Sys N W → Prop) s1 : sys_ok s1 → (∃ n, f_inner f = N_fs n) →
  (∀ s', sys_ok s' → sy_mounted s' = sy_mounted s1 → Q tt s') → wp M (set_cwd f) Q s1.
Proof.
  intros Hs1 [n Hn] HQ. destruct (new_file_ok None None f s1 Hs1) as (id & s2 & E & H2 & M2 & _); [by rewrite Hn|by rewrite Hn|].
  apply wp_bind. unfold wp. rewrite E. apply HQ; [|by rewrite (proj2 (proj2 (proj2 (collect_fds _ _))))].
  apply collect_ok. destruct H2 as [Href Hnode Hsend Hmnt Hlim Htab]. constructor; try done. intros j. rewrite <- Href. unfold refers. cbn. naive_solver.
Qed.

Lemma chdir_ok path : keeps (sys_chdir ops path) s.
Proof. unfold sys_chdir. repeat wp_step; try done. apply wp_set_cwd; [done|by eexists|]. intros s1 ??. by wp_step. Qed.

Lemma getcwd_ok a b : keeps (sys_getcwd a b) s.
Proof. unfold wp, sys_getcwd. destruct (proj1 (so_refers _ _ _ Hs (sy_cwd s))) as [f ->]; [left; right; by left|]. done. Qed.

Lemma dup3_ok fd_src fd_dst : keeps (sys_dup3 fd_src fd_dst) s.
Proof. unfold sys_dup3. do 3 wp_step. eapply wp_put_fd; [done..|]. intros s' ??. by wp_step. Qed.

Lemma dup_ok fd : keeps (sys_dup fd) s.
Proof. unfold sys_dup. do 2 wp_step. apply dup3_ok. Qed.

Lemma openat_ok dir path flags : keeps (sys_openat ops dir path flags) s.
Proof. unfold sys_openat. wp_step. apply path_or_empty_ok; [done|]. intros p. do 2 wp_step. by apply wp_install; [|by eexists|]. Qed.

Lemma lseek_ok fd off wh : keeps (sys_lseek ops fd off wh) s.
Proof. unfold sys_lseek. repeat wp_step; try done. by erewrite File_seek_inner. Qed.

Lemma mkdir_at_ok dir path : keeps (sys_mkdir_at ops dir path) s.
Proof.
  unfold sys_mkdir_at. do 2 wp_step. wp_step; [by wp_step|]. wp_step. wp_step; [|wp_step; by apply mkdir_loop_ok].
  do 3 wp_step. apply wp_install; [done|by eexists|]. intros fd s2 H1 H2. wp_step. apply mkdir_loop_ok; [done|congruence].
Qed.

Lemma unlinkat_ok dir path flags : keeps (sys_unlinkat ops dir path flags) s.
Proof.
  unfold sys_unlinkat. do 4 wp_step. wp_step. unfold wp at 1, see at 1. cbn. wp_step.
  unfold wp, on_world. pose proof (remove_self_gentle (sy_mounted s') f (sy_world s') (so_mounts _ _ _ Hs0)) as Hr.
  destruct (remove_self _ _ _ _) as [[r w]|]; [|by rewrite HM in Hr]. step_ret.
  pose proof (set_world_evolves _ w Hs0 Hr) as He. change (keeps (_ ← try r; mret 0) (set_world w s')). evolve He. by repeat wp_step.
Qed.

Lemma fcntl_ok fd cmd arg : keeps (sys_fcntl fd cmd arg) s.
Proof.
  unfold sys_fcntl. do 4 wp_step. destruct a; try (by repeat wp_step); try apply dup_ok. do 3 wp_step. wp_step; [done|].
  wp_step. apply wp_put_fd_same; [done|done|]. by wp_step.
Qed.

Lemma sendfile_ok out_fd in_fd off count : count < 9223372036854775808 → keeps (sys_sendfile ops out_fd in_fd off count) s.
Proof.
  intros Hc. unfold sys_sendfile. repeat wp_io; try done. all: by erewrite File_seek_inner.
Qed.

Lemma copy_file_range_ok fd_in off_in fd_out off_out len : len < 9223372036854775808 →
  keeps (sys_copy_file_range ops fd_in off_in fd_out off_out len 0) s.
Proof.
  intros Hl. unfold sys_copy_file_range. rewrite decide_False by (intros ?; done). repeat wp_io; done.
Qed.

Lemma getdents64_ok fd buf start now id : descriptor s fd id → keeps (sys_getdents64 ops fd buf start now) s.
Proof.
  intros Hd. unfold sys_getdents64. wp_step. unfold wp at 1, see at 1. rewrite Hd. cbn.
  assert (∃ n, file_on s id n) as [n Hn].
  { destruct (descriptor_file _ _ _ _ Hs Hd) as [f Hf]. exists (f_inner f). unfold file_on. by rewrite lookup_fmap, Hf. }
  repeat wp_step; try done. by erewrite getdents_inner.
Qed.

Lemma mount_ok special dir fstype : keeps (sys_mount ops special dir fstype) s.
Proof.
  unfold sys_mount. do 6 wp_step. wp_step.
  assert (∀ s, sys_ok s → sy_mounted s = M → keeps (λ s, match open_path ops (PathBuf_from p) O_RDONLY s with
    | Panic => Panic | Ret (Err _, s) => Ret (Ok 0, s)
    | Ret (Ok dev_node, s) => (on_world (i_mount (node_ops ops (f_inner dev_node)) p0);; mret 0) s end) s) as Hdev.
  { clear dependent s. intros s Hs HM. pose proof (wp_open_path (PathBuf_from p) O_RDONLY
      (λ f s', sys_ok s' ∧ ∃ n, f_inner f = N_fs n) s Hs HM ltac:(intros f n s' Hn He; split; [apply He|by eexists])) as Ho.
    unfold wp in Ho |- *. destruct (open_path _ _ _ s) as [[[f|e] s']|]; [|done|done]. destruct Ho as [H' [n Hn]].
    change (keeps (on_world (i_mount (node_ops ops (f_inner f)) p0);; mret 0) s'). by repeat wp_step. }
  wp_step; repeat wp_step; try done; by apply Hdev.
Qed.

Lemma umount2_ok special : match sys_umount2 ops special s with
  | Ret (_, s') => sys_ok s' | Panic => fs_panics ∨ ¬ has_root M end.
Proof.
  unfold sys_umount2, cstr, try, mbind, call_bind. destruct special as [p|]; cbn; [|done]. case_decide; [done|]. destruct (String.prefix _ _).
  - pose proof (wp_open_path (PathBuf_from p) O_RDONLY
      (λ f s', sys_ok s' ∧ ∃ n, f_inner f = N_fs n) s Hs HM ltac:(intros f n s' Hn He; split; [apply He|by eexists])) as Ho.
    unfold wp in Ho |- *. destruct (open_path _ _ _ s) as [[[f|e] s']|]; [|done|done]. destruct Ho as [H' [n Hn]].
    assert (keeps (on_world (i_umount (node_ops ops (f_inner f)));; mret 0) s') as Hk by (by repeat wp_step).
    unfold wp, mbind, call_bind in Hk. destruct (on_world _ s') as [[[] ?]|]; done.
  - destruct Hs. constructor; try done. cbn. apply Forall_forall. intros m [_ Hm]%list_elem_of_filter.
    rewrite Forall_forall in so_mounts0. by apply so_mounts0.
Qed.

Lemma readv_call_ok fd iov : keeps (sys_readv ops fd iov) s.
Proof. unfold sys_readv. do 2 wp_step. by eapply readv_ok. Qed.

Lemma writev_call_ok fd iov : keeps (sys_writev ops fd iov) s.
Proof. unfold sys_writev. do 2 wp_step. by eapply writev_ok. Qed.

Lemma start_transfer_ok fd buf : keeps (start_transfer fd buf) s.
Proof. unfold start_transfer. do 5 wp_step. unfold wp at 1, hold. wp_step. by eapply hold_ok. Qed.

Lemma held_file id : id ∈ sy_held s → ∃ n, file_on s id n.
Proof.
  intros Hid. destruct (proj1 (so_refers _ _ _ Hs id)) as [f Hf]; [left; right; by right|]. exists (f_inner f).
  unfold file_on. by rewrite lookup_fmap, Hf.
Qed.

(** The end of a poll: the file is stored and, when the transfer is over, released. *)
Lemma poll_tail_ok {A} id f (p : Poll (result Z)) (a : A) s1 : sys_ok s1 → file_on s1 id (f_inner f) → id ∈ sy_held s1 →
  keeps (put_file id f;; match p with Ready _ => release id | Pending => mret tt end;; mret a) s1.
Proof.
  intros H1 Hf Hh. apply wp_bind. unfold wp at 1, put_file. pose proof (put_file_evolves _ _ _ H1 Hf) as He. apply wp_bind. destruct p.
  - eapply wp_mono; [apply release_ok; [apply He|done]|]. intros [] s2 H2. by wp_step.
  - wp_step. wp_step. apply He.
Qed.

Lemma read_poll_ok t : tr_file t ∈ sy_held s → keeps (sys_read_poll ops t) s.
Proof.
  intros Hh. destruct (held_file _ Hh) as [n Hn]. unfold sys_read_poll. do 3 wp_step. unfold wp, on_world.
  pose proof (async_read_gentle f (tr_offset t) (tr_buf t, tr_retry t) (sy_world s) ltac:(live)) as Hg.
  destruct (async_read_poll _ _ _ _ _) as [[[[p [b r]] f'] w]|] eqn:E; [|by left]. step_ret.
  apply poll_tail_ok; [by apply set_world_evolves| |done]. by erewrite (async_read_inner _ _ _ _ _ _ _ _ E).
Qed.

Lemma write_poll_ok t : tr_file t ∈ sy_held s → keeps (sys_write_poll ops t) s.
Proof.
  intros Hh. destruct (held_file _ Hh) as [n Hn]. unfold sys_write_poll. do 3 wp_step. unfold wp, on_world.
  pose proof (async_write_gentle f (tr_offset t) (tr_buf t) (tr_retry t) (sy_world s) ltac:(live)) as Hg.
  destruct (async_write_poll _ _ _ _ _ _) as [[[[p r] f'] w]|] eqn:E; [|by left]. step_ret.
  apply poll_tail_ok; [by apply set_world_evolves| |done]. by erewrite (async_write_inner _ _ _ _ _ _ _ _ _ E).
Qed.

(** A new pipe has one end that is in no file. *)
Lemma new_pipe_ok : ∃ p s', new_pipe s = Ret (Ok p, s') ∧ sys_ok_with (Some p) None s' ∧ sy_mounted s' = sy_mounted s ∧
  nw_pipes (sy_world s') !! p = Some create_pipe.
Proof.
  unfold new_pipe. set (p := fresh _). assert (nw_pipes (sy_world s) !! p = None) as Hp by (apply not_elem_of_dom, is_fresh). clearbody p.
  eexists p, _. split; [done|]. split; [|split; [done|apply lookup_insert_eq]].
  assert (∀ n, node_live (sy_world s) n → node_live (put_pipe p create_pipe (sy_world s)) n) as Hl.
  { intros []; cbn; try done; intros ?; by apply lookup_insert_is_Some'; right. }
  assert (tx_count p (sy_files s) = 0%nat) as H0.
  { apply map_size_empty_iff, map_empty_filter_2. intros id f Hf. cbn. destruct (f_inner f) as [| |p'|] eqn:E; cbn; try done.
    case_bool_decide; [|done]. subst. pose proof (so_node _ _ _ Hs id f Hf) as Hx. rewrite E in Hx. cbn in Hx. rewrite Hp in Hx. by destruct Hx. }
  destruct Hs. constructor; try done; cbn.
  - intros id f Hf. eapply Hl, so_node0, Hf.
  - intros p' q Hq. apply lookup_insert_Some in Hq as [[<- <-]|[Hne Hq]]; [rewrite decide_True by done; by rewrite H0|].
    rewrite decide_False by congruence. rewrite (so_senders0 _ _ Hq). done.
Qed.

Lemma drop_end_ok p s1 : sys_ok_with (Some p) None s1 → keeps (drop_end (N_tx p)) s1.
Proof.
  intros H1. unfold wp, drop_end. destruct H1. constructor; try done; cbn.
  - intros id f Hf. by eapply (drop_node_live (N_tx p)), so_node0.
  - intros p' q. rewrite lookup_alter. case_decide as Hp; [subst p'|].
    + destruct (nw_pipes (sy_world s1) !! p) as [q0|] eqn:E; [|done]. intros [= <-]. cbn. rewrite (so_senders0 _ _ E), decide_True by done.
      rewrite (decide_False (P := None = Some p)) by done. lia.
    + intros Hq. rewrite (so_senders0 _ _ Hq), !decide_False by congruence. done.
Qed.

Lemma pipe2_ok fds : keeps (sys_pipe2 fds) s.
Proof.
  destruct new_pipe_ok as (p & s1 & E1 & H1 & M1 & P1). unfold sys_pipe2. apply wp_bind. unfold wp at 1. rewrite E1.
  apply wp_bind. unfold wp at 1. pose proof (wp_new_fd_with (Some p) None ENFILE (λ _ _, True) s1 H1) as Hn.
  destruct (new_fd ENFILE s1) as [[[rx_fd|e] s1']|]; [| |done]; subst s1'; step_ret; cbn beta iota.
  2: { apply wp_bind. eapply wp_mono; [by apply drop_end_ok|]. intros [] s2 H2. by wp_step. }
  destruct (new_file_ok (Some p) (Some p) (File_new_dev (N_rx p)) s1 H1) as (rx & s2 & E2 & H2 & M2 & W2); [by exists create_pipe|done|].
  apply wp_bind. unfold wp at 1. rewrite E2. destruct (put_fd_ok _ rx s2 rx_fd H2) as (s3 & E3 & H3 & M3 & L3).
  apply wp_bind. unfold wp at 1. rewrite E3. apply wp_bind. unfold wp at 1.
  pose proof (wp_new_fd_with (Some p) None ENFILE (λ _ _, True) s3 H3) as Hn3.
  destruct (new_fd ENFILE s3) as [[[tx_fd|e] s3']|]; [| |done]; subst s3'; step_ret; cbn beta iota.
  2: { apply wp_bind. eapply wp_mono; [by apply drop_end_ok|]. intros [] s4 H4. by wp_step. }
  destruct (new_file_ok (Some p) None (File_new_dev (N_tx p)) s3 H3) as (tx & s4 & E4 & H4 & M4 & _).
  { apply L3. rewrite W2. by exists create_pipe. }
  { intros p'. cbn. case_bool_decide; case_decide; naive_solver. }
  apply wp_bind. unfold wp at 1. rewrite E4. destruct (put_fd_ok _ tx s4 tx_fd H4) as (s5 & E5 & H5 & _).
  apply wp_bind. unfold wp at 1. rewrite E5. by wp_step.
Qed.

Lemma epoll_create1_ok flags : keeps (sys_epoll_create1 flags) s.
Proof.
  unfold sys_epoll_create1. do 3 wp_step. unfold wp at 1. cbn zeta. set (e := fresh _).
  assert (nw_epolls (sy_world s) !! e = None) as He by (apply not_elem_of_dom, is_fresh). clearbody e. set (s1 := set_world _ s).
  assert (sys_ok s1) as H1.
  { destruct Hs. constructor; try done; cbn. intros id f Hf%so_node0. destruct (f_inner f); cbn in Hf |- *; try done.
    by apply lookup_insert_is_Some'; right. }
  assert (node_live (sy_world s1) (N_epoll e)) as L1. { eexists. apply lookup_insert_eq. }
  clearbody s1. apply wp_bind. destruct (new_file_ok None None (File_new_dev (N_epoll e)) s1 H1 L1) as (id & s2 & E2 & H2 & _); [done|].
  unfold wp at 1. rewrite E2. destruct (put_fd_ok _ id s2 fd H2) as (s3 & E3 & H3 & _). apply wp_bind. unfold wp at 1. rewrite E3. by wp_step.
Qed.

Lemma epoll_ctl_ok epfd op fd ev : keeps (sys_epoll_ctl epfd op fd ev) s.
Proof.
  unfold sys_epoll_ctl, epoll_of. repeat wp_step; try done. unfold wp, on_world. step_ret. cbn. apply wp_ret.
  destruct Hs. constructor; try done; cbn. intros j g Hg%so_node0. destruct (f_inner g); cbn in Hg |- *; try done. by rewrite lookup_alter_is_Some.
Qed.

Lemma sync_ok : keeps sys_sync s.
Proof.
  unfold sys_sync. apply wp_bind. unfold wp at 1, see. destruct (foldM_inv (λ n fd, o ← get_fd (sy_fds s) fd; Ret match o with Some _ => n + 1 | None => n end)
    (λ _, True) (seqZ 0 256) 0) as (n & E & _); [done| |by rewrite E].
  intros fd n _ _. destruct (get_fd_ok _ _ s fd Hs) as (lim & _ & _ & ->). by eexists.
Qed.
End all_calls.

(** ** The calls *)

Definition ignore {A} (m : call N W A) : call N W unit := m;; mret tt.

(** The descriptor calls with the arguments they take, in a state: [getdents64] panics unless
    the descriptor is open, a buffer of more than [isize::MAX] bytes panics as it is allocated,
    and a transfer that is polled holds its file.  [renameat2] is treated separately. *)
Inductive fd_call (s : Sys N W) : call N W unit → Prop :=
  | fc_dup fd : fd_call s (ignore (sys_dup fd))
  | fc_dup3 a b : fd_call s (ignore (sys_dup3 a b))
  | fc_read fd b : fd_call s (ignore (sys_read fd b))
  | fc_read_poll t : tr_file t ∈ sy_held s → fd_call s (ignore (sys_read_poll ops t))
  | fc_write fd b : fd_call s (ignore (sys_write fd b))
  | fc_write_poll t : tr_file t ∈ sy_held s → fd_call s (ignore (sys_write_poll ops t))
  | fc_readv fd iov : fd_call s (ignore (sys_readv ops fd iov))
  | fc_writev fd iov : fd_call s (ignore (sys_writev ops fd iov))
  | fc_close fd : fd_call s (ignore (sys_close fd))
  | fc_pread fd b off : fd_call s (ignore (sys_pread ops fd b off))
  | fc_pwrite fd b off : fd_call s (ignore (sys_pwrite ops fd b off))
  | fc_lseek fd off wh : fd_call s (ignore (sys_lseek ops fd off wh))
  | fc_mkdir_at d p : fd_call s (ignore (sys_mkdir_at ops d p))
  | fc_unlinkat d p f : fd_call s (ignore (sys_unlinkat ops d p f))
  | fc_openat d p f : fd_call s (ignore (sys_openat ops d p f))
  | fc_open p f : fd_call s (ignore (sys_open ops p f))
  | fc_faccess_at d p f : fd_call s (ignore (sys_faccess_at ops d p f))
  | fc_fchmodat d p : fd_call s (ignore (sys_fchmodat ops d p))
  | fc_chown p : fd_call s (ignore (sys_chown ops p))
  | fc_lchown p : fd_call s (ignore (sys_lchown ops p))
  | fc_fchownat d p f : fd_call s (ignore (sys_fchownat ops d p f))
  | fc_linkat d p q : fd_call s (ignore (sys_linkat ops d p q))
  | fc_fchown fd : fd_call s (ignore (sys_fchown fd))
  | fc_fsync fd : fd_call s (ignore (sys_fsync fd))
  | fc_fdatasync fd : fd_call s (ignore (sys_fdatasync fd))
  | fc_flock fd op : fd_call s (ignore (sys_flock fd op))
  | fc_sync : fd_call s (ignore sys_sync)
  | fc_umask m : fd_call s (ignore (sys_umask m))
  | fc_chdir p : fd_call s (ignore (sys_chdir ops p))
  | fc_getcwd a b : fd_call s (ignore (sys_getcwd a b))
  | fc_fstat fd : fd_call s (ignore (sys_fstat ops fd))
  | fc_fstatat d p st : fd_call s (ignore (sys_fstatat ops d p st))
  | fc_statx d p : fd_call s (ignore (sys_statx ops d p))
  | fc_statfs p st : fd_call s (ignore (sys_statfs ops p st))
  | fc_pipe2 fds : fd_call s (ignore (sys_pipe2 fds))
  | fc_mount a b c : fd_call s (ignore (sys_mount ops a b c))
  | fc_umount2 p : fd_call s (ignore (sys_umount2 ops p))
  | fc_getdents64 fd b t1 t2 id : descriptor s fd id → fd_call s (ignore (sys_getdents64 ops fd b t1 t2))
  | fc_ioctl fd a b : fd_call s (ignore (sys_ioctl ops fd a b))
  | fc_fcntl fd c a : fd_call s (ignore (sys_fcntl fd c a))
  | fc_utimensat d p t now : fd_call s (ignore (sys_utimensat ops d p t now))
  | fc_readlinkat d p b : fd_call s (ignore (sys_readlinkat ops d p b))
  | fc_symlinkat t d p : fd_call s (ignore (sys_symlinkat ops t d p))
  | fc_ftruncate fd n : fd_call s (ignore (sys_ftruncate ops fd n))
  | fc_truncate p n : fd_call s (ignore (sys_truncate ops p n))
  | fc_sendfile o i off n : n < 9223372036854775808 → fd_call s (ignore (sys_sendfile ops o i off n))
  | fc_copy_file_range i oi o oo n : n < 9223372036854775808 → fd_call s (ignore (sys_copy_file_range ops i oi o oo n 0))
  | fc_epoll_create1 f : fd_call s (ignore (sys_epoll_create1 f))
  | fc_epoll_ctl e op fd ev : fd_call s (ignore (sys_epoll_ctl e op fd ev)).

Lemma ignore_ok {A} (m : call N W A) s : match m s with Ret (_, s') => sys_ok s' | Panic => fs_panics ∨ ¬ has_root M end →
  match ignore m s with Ret (_, s') => sys_ok s' | Panic => fs_panics ∨ ¬ has_root M end.
Proof. unfold ignore, mbind, call_bind. by destruct (m s) as [[[] ?]|]. Qed.

Lemma keeps_ok {A} (m : call N W A) s : keeps m s → match m s with Ret (_, s') => sys_ok s' | Panic => fs_panics ∨ ¬ has_root M end.
Proof. unfold wp. by destruct (m s) as [[[] ?]|]. Qed.

(** The lemma of a call, by its name; the remaining calls are a few steps. *)
Ltac keeps_call :=
  lazymatch goal with
  | |- wp _ (sys_dup _) _ _ => by apply dup_ok
  | |- wp _ (sys_dup3 _ _) _ _ => by apply dup3_ok
  | |- wp _ (sys_read _ _) _ _ => by apply start_transfer_ok
  | |- wp _ (sys_write _ _) _ _ => by apply start_transfer_ok
  | |- wp _ (sys_read_poll _ _) _ _ => by apply read_poll_ok
  | |- wp _ (sys_write_poll _ _) _ _ => by apply write_poll_ok
  | |- wp _ (sys_readv _ _ _) _ _ => by apply readv_call_ok
  | |- wp _ (sys_writev _ _ _) _ _ => by apply writev_call_ok
  | |- wp _ (sys_close _) _ _ => by apply collect_old_ok
  | |- wp _ (sys_lseek _ _ _ _) _ _ => by apply lseek_ok
  | |- wp _ (sys_mkdir_at _ _ _) _ _ => by apply mkdir_at_ok
  | |- wp _ (sys_unlinkat _ _ _ _) _ _ => by apply unlinkat_ok
  | |- wp _ (sys_openat _ _ _ _) _ _ => by apply openat_ok
  | |- wp _ (sys_open _ _ _) _ _ => unfold sys_open; do 2 wp_step; by apply openat_ok
  | |- wp _ (sys_pipe2 _) _ _ => by apply pipe2_ok
  | |- wp _ (sys_mount _ _ _ _) _ _ => by apply mount_ok
  | |- wp _ (sys_getdents64 _ _ _ _ _) _ _ => by eapply getdents64_ok
  | |- wp _ (sys_fcntl _ _ _) _ _ => by apply fcntl_ok
  | |- wp _ (sys_sendfile _ _ _ _ _) _ _ => by apply sendfile_ok
  | |- wp _ (sys_copy_file_range _ _ _ _ _ _ _) _ _ => by apply copy_file_range_ok
  | |- wp _ (sys_epoll_create1 _) _ _ => by apply epoll_create1_ok
  | |- wp _ (sys_epoll_ctl _ _ _ _) _ _ => by apply epoll_ctl_ok
  | |- wp _ sys_sync _ _ => by apply sync_ok
  | |- wp _ (sys_faccess_at _ _ _ _) _ _ => unfold sys_faccess_at; wp_step; apply path_or_empty_ok; [done|intros ?]; repeat wp_step; done
  | |- wp _ (sys_chdir _ _) _ _ => by apply chdir_ok
  | |- wp _ (sys_getcwd _ _) _ _ => by apply getcwd_ok
  | |- wp _ (sys_umask _) ?Q ?s => unfold wp, sys_umask; match goal with H : sys_ok_with _ _ _ |- _ => destruct H; by constructor end
  | |- wp _ ?m _ _ =>
      unfold sys_pread, sys_pwrite, sys_fchmodat, sys_chown, sys_lchown, sys_fchownat, sys_linkat, sys_fchown, sys_fsync,
        sys_fdatasync, sys_flock, sys_fstat, sys_fstatat, sys_statx, sys_statfs, sys_ioctl, sys_utimensat, sys_readlinkat,
        sys_symlinkat, sys_ftruncate, sys_truncate;
      repeat wp_step; done
  end.

Lemma fd_call_ok s m : sys_ok s → sy_mounted s = M → fd_call s m →
  match m s with Ret (_, s') => sys_ok s' | Panic => fs_panics ∨ ¬ has_root M end.
Proof.
  intros Hs HM Hm. destruct Hm; apply ignore_ok; first [by apply umount2_ok | apply keeps_ok].
  all: keeps_call.
Qed.
End rules.
End wf.

(** ** The invariant over runs *)

Definition fd_step {N W} (ops : N → INode N W) (s s' : Sys N W) : Prop := ∃ m r, fd_call ops s m ∧ m s = Ret (r, s').

(** A fresh process: descriptors 0, 1 and 2 are one terminal, [cwd] is the current directory. *)
Definition Sys_new {N W} (tty cwd : @File (Node N)) (mounted : MountTable (Node N)) (w : W) : Sys N W :=
  mkSys {[0%nat := tty; 1%nat := cwd]} (mkFds (FileTable_new 0%nat) rlimits_new) 1 0 [] mounted (mkNodeWorld w ∅ ∅).

Lemma Sys_new_ok {N W} (tty cwd : @File (Node N)) (mounted : MountTable (Node N)) (w : W) n m :
  f_inner tty = N_fs n → f_inner cwd = N_fs m → Forall (λ e, ∃ k, e.2 = N_fs k) mounted →
  sys_ok_with None None (Sys_new tty cwd mounted w).
Proof.
  intros Ht Hc Hm. constructor; cbn [Sys_new sy_files sy_fds sy_cwd sy_held sy_mounted sy_world]; [| | |done| |done].
  - intros id. unfold refers. cbn [Sys_new sy_fds sy_cwd sy_held fd_table]. unfold FileTable_new.
    rewrite elem_of_app, !elem_of_replicate, lookup_insert_is_Some, lookup_singleton_is_Some, elem_of_nil. split.
    + intros [[[[[= ->] _]|[? _]]|[->|?]]|?]; [by left|done|by right|done|done].
    + intros [<-|[_ <-]]; left; [left; left; done|right; by left].
  - intros id f [[<- <-]|[_ [<- <-]%lookup_singleton_Some]]%lookup_insert_Some; [by rewrite Ht|by rewrite Hc].
  - cbn [nw_pipes]. intros p q Hq. by rewrite lookup_empty in Hq.
  - exists FILE_MAX. split; [done|]. cbn [fd_table]. unfold FileTable_new. rewrite length_app, !length_replicate. vm_compute. discriminate.
Qed.


Definition demo_sys : Sys nat (list Z) :=
  Sys_new (mkFile (N_fs 0%nat) [] 0 O_RDWR) (mkFile (N_fs 0%nat) [] 0 O_RDONLY) [([], N_fs 5%nat)] [10; 20; 30; 40].

Lemma demo_sys_ok : sys_ok_with None None demo_sys.
Proof. eapply Sys_new_ok; [done|done|]. constructor; [by exists 5%nat|constructor]. Qed.

