(* ===== verification/SysCalls.v ===== *)
(** * What the descriptor calls do

    Theorems on the calls of SysFile in well-formed states: duplicated descriptors share the
    offset, vectored reads are one read, the life of a pipe from [pipe2] to the end of file,
    [sendfile], and the calls that do not do what they should: [renameat2], [mkdirat],
    [readv] on a pipe, unmounting the root. *)

From S2P Require Import Prelude Path Vfs Pipe File FdTable SysFile SysWf.

Section spec.
Context {N W : Type} (ops : N → INode N W).

Lemma bind_ok {A B} (m : call N W A) (k : A → call N W B) s a s' : m s = Ret (Ok a, s') → (m ≫= k) s = k a s'.
Proof. intros E. unfold mbind, call_bind. by rewrite E. Qed.

Lemma bind_eq {A B} (m : call N W A) (k : A → call N W B) s :
  (m ≫= k) s = match m s with Ret (Ok a, s') => k a s' | Ret (Err e, s') => Ret (Err e, s') | Panic => Panic end.
Proof. done. Qed.

(** ** Descriptors *)

(** [descriptor] in terms of the table. *)
Lemma descriptor_table (s : Sys N W) fd id lim : rlimits (sy_fds s) !! 7%nat = Some lim → fd < lim →
  fd_table (sy_fds s) !! Z.to_nat fd = Some (Some id) → descriptor s fd id.
Proof. intros Hl Hfd Ht. unfold descriptor, get_fd, rlimit. rewrite Hl. cbn [unwrap]. step_ret. rewrite decide_False by lia. by rewrite Ht. Qed.

Lemma descriptor_inv (s : Sys N W) fd id : descriptor s fd id →
  ∃ lim, rlimits (sy_fds s) !! 7%nat = Some lim ∧ fd < lim ∧ fd_table (sy_fds s) !! Z.to_nat fd = Some (Some id).
Proof.
  unfold descriptor, get_fd, rlimit. destruct (rlimits (sy_fds s) !! 7%nat) as [lim|]; [|done]. cbn [unwrap]. step_ret.
  case_decide; [done|]. destruct (fd_table (sy_fds s) !! Z.to_nat fd) as [o|]; [|done]. intros [= ->]. exists lim. split_and!; [done|lia|done].
Qed.

Lemma fd_or_open (s : Sys N W) fd id e : descriptor s fd id → fd_or fd e s = Ret (Ok id, s).
Proof. intros Hd. unfold fd_or, see, mbind, call_bind. by rewrite Hd. Qed.

Lemma file_at_open (s : Sys N W) id f : sy_files s !! id = Some f → file_at id s = Ret (Ok f, s).
Proof. intros Hf. unfold file_at, see. by rewrite Hf. Qed.

(** The lowest free number. *)
Lemma new_fd_spec x y (s s' : Sys N W) e fd : sys_ok_with x y s → new_fd e s = Ret (Ok fd, s') →
  s' = s ∧ 0 ≤ fd ∧ ∃ lim, rlimits (sy_fds s) !! 7%nat = Some lim ∧ fd < lim ∧ fd_table (sy_fds s) !! Z.to_nat fd = Some None.
Proof.
  intros Hs. destruct (so_limit _ _ _ Hs) as (lim & Hl & Hle). unfold new_fd, alloc_fd, rlimit. rewrite Hl. cbn [unwrap]. step_ret.
  pose proof (alloc_find (fd_table (sy_fds s)) lim 0 pair ltac:(done)) as Hf.
  destruct (List.find _ _) as [[i o]|]; cbn [fmap option_fmap option_map fst].
  - destruct Hf as (Hi & Hn & Hlt & _). rewrite Nat.sub_0_r in Hn. intros [= <- <-]. split; [by destruct s|].
    split; [lia|]. exists lim. by rewrite Nat2Z.id.
  - rewrite decide_False by lia. done.
Qed.

(** Storing a reference at a free number. *)
Definition with_fd (fd : Z) (id : nat) (s : Sys N W) : Sys N W :=
  set_fds (mkFds (<[Z.to_nat fd := Some id]> (fd_table (sy_fds s))) (rlimits (sy_fds s))) s.

Lemma put_fd_free (s : Sys N W) fd id lim : rlimits (sy_fds s) !! 7%nat = Some lim → fd < lim →
  fd_table (sy_fds s) !! Z.to_nat fd = Some None → put_fd fd id s = Ret (Ok tt, with_fd fd id s).
Proof.
  intros Hl Hfd Ht. unfold put_fd, set_fd, rlimit. rewrite Hl. cbn [unwrap]. step_ret. rewrite decide_False by lia. rewrite Ht.
  cbn [unwrap]. step_ret. cbn. rewrite collect_noop; [done|]. left. apply (list_elem_of_lookup_2 _ (Z.to_nat fd)). cbn.
  rewrite list_lookup_insert_eq; [done|]. by apply lookup_lt_Some in Ht.
Qed.

Lemma descriptor_with_fd (s : Sys N W) fd id lim : rlimits (sy_fds s) !! 7%nat = Some lim → fd < lim →
  is_Some (fd_table (sy_fds s) !! Z.to_nat fd) → descriptor (with_fd fd id s) fd id.
Proof.
  intros Hl Hfd Ht. eapply descriptor_table; [done|done|]. cbn. rewrite list_lookup_insert_eq; [done|]. by apply lookup_lt_is_Some.
Qed.

(** A free number is no open descriptor, so storing there changes no other. *)
Lemma descriptor_with_fd_old (s : Sys N W) fd id fd' id' : descriptor s fd' id' →
  fd_table (sy_fds s) !! Z.to_nat fd = Some None → descriptor (with_fd fd id s) fd' id'.
Proof.
  intros (lim & Hl & Hlt & Ht)%descriptor_inv Hn. eapply descriptor_table; [done|done|]. cbn. rewrite list_lookup_insert_ne; [done|congruence].
Qed.

Lemma dup_spec (s s' : Sys N W) fd fd2 id : sys_ok_with None None s → descriptor s fd id → sys_dup fd s = Ret (Ok fd2, s') →
  s' = with_fd fd2 id s ∧ 0 ≤ fd2 ∧ descriptor s' fd id ∧ descriptor s' fd2 id ∧ Z.to_nat fd ≠ Z.to_nat fd2.
Proof.
  intros Hs Hd. unfold sys_dup, mbind, call_bind at 1. destruct (new_fd EMFILE s) as [[[fd'|e] s1]|] eqn:E; [|done|done].
  apply (new_fd_spec None None) in E as (-> & Hpos & lim & Hl & Hlt & Hn); [|done]. unfold sys_dup3, mbind, call_bind. rewrite (fd_or_open s fd id) by done.
  rewrite (put_fd_free _ _ _ lim) by done. intros [= <- <-]. split; [done|]. split; [done|]. split; [by apply descriptor_with_fd_old|].
  split; [by eapply descriptor_with_fd|]. intros E. apply descriptor_inv in Hd as (? & _ & _ & Hd). congruence.
Qed.

(** Closing one of two references keeps the file. *)
Lemma close_other (s : Sys N W) fd fd2 id : descriptor s fd id → descriptor s fd2 id → 0 ≤ fd → Z.to_nat fd ≠ Z.to_nat fd2 →
  let s' := set_fds (mkFds (<[Z.to_nat fd := None]> (fd_table (sy_fds s))) (rlimits (sy_fds s))) s in
  sys_close fd s = Ret (Ok 0, s') ∧ descriptor s' fd2 id.
Proof.
  intros (lim & Hl & Hlt & Ht)%descriptor_inv (lim2 & Hl2 & Hlt2 & Ht2)%descriptor_inv Hpos Hne s'. assert (lim2 = lim) as -> by congruence.
  assert (fd_table (sy_fds s') !! Z.to_nat fd2 = Some (Some id)) as Hr by (cbn; by rewrite list_lookup_insert_ne).
  split; [|by eapply descriptor_table]. unfold sys_close, clear_fd. pose proof (lookup_lt_Some _ _ _ Ht).
  rewrite decide_False by lia. rewrite Ht. cbn. rewrite collect_noop; [done|]. left. by eapply list_elem_of_lookup_2.
Qed.

(** ** Vectored reads *)

(** Spreads data over buffers. *)
Fixpoint fill (iov : list (list Z)) (data : list Z) : list (list Z) :=
  match iov with
  | [] => []
  | io :: iov => buf_write io (take (length io) data) :: fill iov (drop (length io) data)
  end.

Definition iov_len (iov : list (list Z)) : nat := sum_list (length <$> iov).

(** The lift of a file system node reads as the node does. *)
Lemma lift_reads_as n (w : NodeWorld W) c : reads_as ops n (nw_fs w) c → reads_as (node_ops ops) (N_fs n) w c.
Proof. intros Hr off buf Ho. cbn. unfold upd. cbn [unwrap]. step_ret. rewrite (Hr off buf Ho). step_ret. by destruct w. Qed.

(** The state in which file [id] has offset [o]. *)
Definition at_offset (id : nat) (f : @File (Node N)) (o : Z) (s : Sys N W) : Sys N W :=
  set_files (<[id := set_offset f o]> (sy_files s)) s.

Lemma file_read_stream (s : Sys N W) id f n c buf : sy_files s !! id = Some f → f_inner f = N_fs n →
  reads_as ops n (nw_fs (sy_world s)) c → is_usize (f_offset f) → Z.of_nat (length c) < USIZE →
  let data := take (length buf) (drop (Z.to_nat (f_offset f)) c) in
  file_read ops id buf s = Ret (Ok (Ok (Z.of_nat (length data)), buf_write buf data), at_offset id f (f_offset f + Z.of_nat (length data)) s) ∧
  is_usize (f_offset f + Z.of_nat (length data)).
Proof.
  intros Hf Hn Hc Ho Hl data. destruct (File_read_spec (node_ops ops) f (sy_world s) c buf) as [E Hu]; [rewrite Hn; by apply lift_reads_as|done|done|].
  split; [|done]. unfold file_read, mbind, call_bind. rewrite (file_at_open _ _ _ Hf). unfold on_world. rewrite E. step_ret.
  unfold put_file. cbn. unfold at_offset. by destruct s.
Qed.

Lemma readv_stream iov : ∀ (s : Sys N W) id f n c rsize, sy_files s !! id = Some f → f_inner f = N_fs n →
  reads_as ops n (nw_fs (sy_world s)) c → is_usize (f_offset f) → Z.of_nat (length c) < USIZE → 0 ≤ rsize →
  let d := drop (Z.to_nat (f_offset f)) c in let k := Z.of_nat (length (take (iov_len iov) d)) in
  rsize + k < USIZE →
  readv_loop ops id iov rsize s = Ret (Ok (Ok (rsize + k), fill iov d), at_offset id f (f_offset f + k) s) ∧ is_usize (f_offset f + k).
Proof.
  induction iov as [|io iov IH]; intros s id f n c rsize Hf Hn Hc Ho Hl Hr d k Hk.
  - cbn in k. subst k. cbn [readv_loop fill]. rewrite !Z.add_0_r. split; [|done]. unfold at_offset. rewrite (insert_id (sy_files s)).
    + by destruct s.
    + by destruct f.
  - destruct (file_read_stream s id f n c io) as [E Hu]; [done..|]. fold d in E, Hu. set (x := take (length io) d) in *.
    cbn [readv_loop]. unfold mbind, call_bind at 1. rewrite E.
    assert (iov_len (io :: iov) = length io + iov_len iov)%nat as Hlen by done.
    assert (length (take (iov_len (io :: iov)) d) = length x + length (take (iov_len iov) (drop (length io) d)))%nat as Hsum.
    { rewrite Hlen. subst x. rewrite <- take_take_drop at 1. by rewrite length_app. }
    assert (k = Z.of_nat (length x) + Z.of_nat (length (take (iov_len iov) (drop (length io) d)))) as Hk' by (subst k; lia). clearbody k.
    assert (drop (Z.to_nat (f_offset f + Z.of_nat (length x))) c = drop (length io) d) as Hd.
    { rewrite Z2Nat.inj_add, Nat2Z.id, <- drop_drop by (destruct Ho; lia). subst x. by rewrite drop_length_take. }
    specialize (IH (at_offset id f (f_offset f + Z.of_nat (length x)) s) id (set_offset f (f_offset f + Z.of_nat (length x))) n c
      (rsize + Z.of_nat (length x))). cbn [set_offset f_offset f_inner] in IH. rewrite Hd in IH.
    rewrite (wrap_small (rsize + Z.of_nat (length x))) by (unfold is_usize; lia).
    destruct IH as [E2 Hu2]; [by apply lookup_insert_eq|done|done|done|done|lia|lia|].
    unfold call_bind. rewrite E2. unfold mret, call_ret. cbn [fill].
    rewrite Hk', !Z.add_assoc. split; [|done]. unfold at_offset. cbn [set_files sy_files]. by rewrite insert_insert_eq.
Qed.

Lemma iov_len_concat iov : length (concat iov) = iov_len iov.
Proof. induction iov as [|io iov IH]; [done|]. cbn. by rewrite length_app, IH. Qed.

Lemma buf_write_app b1 b2 d : (length d ≤ length (b1 ++ b2))%nat →
  buf_write (b1 ++ b2) d = buf_write b1 (take (length b1) d) ++ buf_write b2 (drop (length b1) d).
Proof.
  intros Hd. unfold buf_write, buf_write_at. rewrite !take_0. cbn [app]. rewrite length_app in Hd.
  destruct (decide (length d ≤ length b1)%nat) as [Hle|Hgt].
  - rewrite (take_ge d), (drop_ge d) by lia. cbn [length app]. rewrite drop_0, drop_app_le by lia. by rewrite app_assoc.
  - rewrite length_take, length_drop. rewrite Nat.min_l by lia. rewrite (drop_ge b1 (0 + length b1)) by lia. rewrite app_nil_r.
    rewrite drop_app_ge by lia. rewrite app_assoc, take_drop. done.
Qed.

(** The filled buffers, put together, are one buffer filled with the same data. *)
Lemma concat_fill iov d : concat (fill iov d) = buf_write (concat iov) (take (iov_len iov) d).
Proof.
  revert d. induction iov as [|io iov IH]; intros d; [done|]. cbn [fill concat]. rewrite IH, buf_write_app.
  - change (iov_len (io :: iov)) with (length io + iov_len iov)%nat. by rewrite take_drop_commute, take_take, Nat.min_l by lia.
  - rewrite length_take, length_app, iov_len_concat. change (iov_len (io :: iov)) with (length io + iov_len iov)%nat. lia.
Qed.

Lemma readv_open (s : Sys N W) fd id iov : descriptor s fd id → sys_readv ops fd iov s = readv_loop ops id iov 0 s.
Proof. intros Hd. unfold sys_readv, mbind, call_bind. by rewrite (fd_or_open s fd id). Qed.
End spec.

(** [readv] is one [read]: on a file that holds the bytes [c], reading into a list of
    buffers and reading into one buffer of their total length transfer the same number of
    bytes, leave the same state behind, and leave the same bytes in user memory. *)
Theorem readv_is_one_read {N W} (ops : N → INode N W) (s : Sys N W) (fd : Z) (id : nat) (f : File) (n : N) (c : list Z) (iov : list (list Z)) :
  descriptor s fd id → sy_files s !! id = Some f → f_inner f = N_fs n →
  reads_as ops n (nw_fs (sy_world s)) c → is_usize (f_offset f) → Z.of_nat (length c) < USIZE →
  ∃ k iov' s', sys_readv ops fd iov s = Ret (Ok (Ok k, iov'), s') ∧
    sys_readv ops fd [concat iov] s = Ret (Ok (Ok k, [concat iov']), s') ∧
    k = Z.of_nat (length (take (iov_len iov) (drop (Z.to_nat (f_offset f)) c))).
Proof.
  intros Hd Hf Hn Hc Ho Hl. set (d := drop (Z.to_nat (f_offset f)) c).
  assert (∀ m, Z.of_nat (length (take m d)) < USIZE) as Hb by (intros m; subst d; rewrite length_take, length_drop; lia).
  assert (iov_len [concat iov] = iov_len iov) as Hi. { unfold iov_len at 1. cbn. rewrite iov_len_concat. lia. }
  destruct (readv_stream ops iov s id f n c 0) as [E _]; [done..|apply Hb|].
  destruct (readv_stream ops [concat iov] s id f n c 0) as [E1 _]; [done..|apply Hb|]. fold d in E, E1.
  rewrite !(readv_open ops s fd id) by done. rewrite Hi in E1. eexists _, _, _. split; [exact E|]. split; [|done].
  rewrite E1. cbn [fill]. rewrite concat_fill, iov_len_concat. done.
Qed.

(** A duplicated descriptor is the same open file: after [dup], what is read through one
    descriptor is not read again through the other, which goes on after it, also when the
    first one has been closed in between. *)
Theorem dup_shares_offset {N W} (ops : N → INode N W) (s s1 : Sys N W) (fd fd2 : Z) (id : nat) (f : File) (n : N) (c : list Z)
    (iov1 iov2 : list (list Z)) :
  sys_ok_with None None s → 0 ≤ fd → descriptor s fd id → sy_files s !! id = Some f → f_inner f = N_fs n →
  reads_as ops n (nw_fs (sy_world s)) c → is_usize (f_offset f) → Z.of_nat (length c) < USIZE →
  sys_dup fd s = Ret (Ok fd2, s1) →
  let d := drop (Z.to_nat (f_offset f)) c in
  ∃ k1 k2 s2 s3 s4, sys_readv ops fd iov1 s1 = Ret (Ok (Ok k1, fill iov1 d), s2) ∧
    sys_close fd s2 = Ret (Ok 0, s3) ∧
    sys_readv ops fd2 iov2 s3 = Ret (Ok (Ok k2, fill iov2 (drop (iov_len iov1) d)), s4) ∧
    k1 + k2 = Z.of_nat (length (take (iov_len iov1 + iov_len iov2) d)).
Proof.
  intros Hs Hpos Hd Hf Hn Hc Ho Hl Hdup d. destruct (dup_spec s s1 fd fd2 id Hs Hd Hdup) as (-> & Hpos2 & Hd1 & Hd2 & Hne).
  assert (∀ m, Z.of_nat (length (take m d)) < USIZE) as Hb by (intros m; subst d; rewrite length_take, length_drop; lia).
  destruct (readv_stream ops iov1 (with_fd fd2 id s) id f n c 0) as [E1 Hu1]; [done..|apply Hb|]. fold d in E1, Hu1.
  set (k1 := Z.of_nat (length (take (iov_len iov1) d))) in *. set (s2 := at_offset _ _ _ _) in E1.
  destruct (close_other s2 fd fd2 id) as [E3 Hd3]; [done..|]. set (s3 := set_fds _ s2) in E3, Hd3.
  assert (drop (Z.to_nat (f_offset f + k1)) c = drop (iov_len iov1) d) as Hdrop.
  { rewrite Z2Nat.inj_add by (destruct Ho; lia). subst k1. rewrite Nat2Z.id, <- drop_drop. apply drop_length_take. }
  assert (∀ m, Z.of_nat (length (take m (drop (iov_len iov1) d))) < USIZE) as Hb2.
  { intros m. rewrite length_take, length_drop. specialize (Hb (length d)). rewrite length_take in Hb. lia. }
  destruct (readv_stream ops iov2 s3 id (set_offset f (f_offset f + k1)) n c 0) as [E4 _];
    [by apply lookup_insert_eq|done|done|done|done|done|cbn [f_offset set_offset]; rewrite Hdrop; apply Hb2|].
  cbn [f_offset set_offset] in E4. rewrite Hdrop in E4.
  eexists _, _, s2, s3, _. split; [rewrite (readv_open ops _ fd id) by done; exact E1|]. split; [exact E3|].
  split; [rewrite (readv_open ops _ fd2 id) by done; exact E4|]. subst k1. rewrite !Z.add_0_l, <- Nat2Z.inj_add, <- length_app. by rewrite take_take_drop.
Qed.


(** ** Transfers *)

Section transfer.
Context {N W : Type} (ops : N → INode N W).

(** A [read] or [write] call up to its first poll. *)
Definition read_once (fd : Z) (buf : list Z) : call N W (Poll (result Z) * Transfer) := t ← sys_read fd buf; sys_read_poll ops t.
Definition write_once (fd : Z) (buf : list Z) : call N W (Poll (result Z) * Transfer) := t ← sys_write fd buf; sys_write_poll ops t.

Lemma start_transfer_spec (s : Sys N W) fd id f buf : descriptor s fd id → sy_files s !! id = Some f →
  start_transfer fd buf s = Ret (Ok (mkTransfer id (f_offset f) buf 0), set_held (id :: sy_held s) s).
Proof.
  intros Hd Hf. unfold start_transfer, mbind, call_bind. rewrite (fd_or_open s fd id) by done. by rewrite (file_at_open _ _ _ Hf).
Qed.

Lemma release_referred (s : Sys N W) fd id : descriptor s fd id → release id (set_held (id :: sy_held s) s) = Ret (Ok tt, s).
Proof.
  intros (lim & _ & _ & Ht)%descriptor_inv. unfold release. cbn. rewrite decide_True by done.
  replace (set_held (sy_held s) (set_held (id :: sy_held s) s)) with s by (by destruct s).
  rewrite collect_noop; [done|]. left. by eapply list_elem_of_lookup_2.
Qed.

(** The state after a transfer that left the file as [f] and the world as [w]. *)
Definition moved (id : nat) (f : @File (Node N)) (w : NodeWorld W) (s : Sys N W) : Sys N W :=
  set_files (<[id := f]> (sy_files s)) (set_world w s).

Lemma write_once_ready (s : Sys N W) fd id f buf r retry f' w : descriptor s fd id → sy_files s !! id = Some f →
  async_write_poll (node_ops ops) f (f_offset f) buf 0 (sy_world s) = Ret (Ready r, retry, f', w) →
  write_once fd buf s = Ret (Ok (Ready r, mkTransfer id (f_offset f) buf retry), moved id f' w s).
Proof.
  intros Hd Hf E. unfold write_once, sys_write, mbind, call_bind at 1. rewrite (start_transfer_spec s fd id f) by done.
  unfold sys_write_poll, mbind, call_bind. cbn [tr_file tr_offset tr_buf tr_retry]. rewrite (file_at_open _ id f) by done. unfold on_world.
  cbn [sy_world set_held]. rewrite E. step_ret. unfold put_file.
  match goal with |- context [release id ?st] => change st with (set_held (id :: sy_held (moved id f' w s)) (moved id f' w s)) end.
  by rewrite (release_referred _ fd id).
Qed.

Lemma read_once_ready (s : Sys N W) fd id f buf r buf' retry f' w : descriptor s fd id → sy_files s !! id = Some f →
  async_read_poll (node_ops ops) f (f_offset f) (buf, 0) (sy_world s) = Ret (Ready r, (buf', retry), f', w) →
  read_once fd buf s = Ret (Ok (Ready r, mkTransfer id (f_offset f) buf' retry), moved id f' w s).
Proof.
  intros Hd Hf E. unfold read_once, sys_read, mbind, call_bind at 1. rewrite (start_transfer_spec s fd id f) by done.
  unfold sys_read_poll, mbind, call_bind. cbn [tr_file tr_offset tr_buf tr_retry]. rewrite (file_at_open _ id f) by done. unfold on_world.
  cbn [sy_world set_held]. rewrite E. step_ret. unfold put_file.
  match goal with |- context [release id ?st] => change st with (set_held (id :: sy_held (moved id f' w s)) (moved id f' w s)) end.
  by rewrite (release_referred _ fd id).
Qed.

(** Transfers on the two ends of a pipe. *)
Lemma write_pipe (s : Sys N W) fd id f p q buf m q' : descriptor s fd id → sy_files s !! id = Some f → f_inner f = N_tx p →
  nw_pipes (sy_world s) !! p = Some q → buf ≠ [] → PipeSender_writeat q buf = (Ok m, q') →
  write_once fd buf s = Ret (Ok (Ready (Ok m), mkTransfer id (f_offset f) buf 0), moved id (advance f (Ok m)) (put_pipe p q' (sy_world s)) s).
Proof.
  intros Hd Hf Hi Hq Hb E. apply write_once_ready; [done|done|]. unfold async_write_poll. rewrite decide_False by done.
  unfold WaitBlockingWrite_poll. rewrite Hi. cbn. unfold upd. rewrite Hq. cbn [unwrap]. step_ret. by rewrite E.
Qed.

Lemma read_pipe (s : Sys N W) fd id f p q buf m buf' q' : descriptor s fd id → sy_files s !! id = Some f → f_inner f = N_rx p →
  f_flags f = O_RDWR → nw_pipes (sy_world s) !! p = Some q → PipeReceiver_readat q buf = (Ok m, buf', q') →
  read_once fd buf s = Ret (Ok (Ready (Ok m), mkTransfer id (f_offset f) buf' 0), moved id (advance f (Ok m)) (put_pipe p q' (sy_world s)) s).
Proof.
  intros Hd Hf Hi Hfl Hq E. apply read_once_ready; [done|done|]. unfold async_read_poll. rewrite Hfl. cbn [contains].
  change (contains O_RDWR O_NONBLOCK) with false. unfold WaitBlockingRead_poll. rewrite Hi. cbn. unfold upd. rewrite Hq. cbn [unwrap].
  step_ret. by rewrite E.
Qed.

(** A read of an empty pipe that has a sender waits. *)
Lemma read_pipe_waits (s : Sys N W) fd id f p q buf : descriptor s fd id → sy_files s !! id = Some f → f_inner f = N_rx p →
  f_flags f = O_RDWR → nw_pipes (sy_world s) !! p = Some q → buf ≠ [] → queue q = [] → (0 < senders q)%nat →
  ∃ t s', read_once fd buf s = Ret (Ok (Pending, t), s') ∧ tr_file t = id ∧ tr_buf t = buf ∧ id ∈ sy_held s'.
Proof.
  intros Hd Hf Hi Hfl Hq Hb Hem Hse. unfold read_once, sys_read, mbind, call_bind at 1. rewrite (start_transfer_spec s fd id f) by done.
  unfold sys_read_poll, mbind, call_bind. cbn [tr_file tr_offset tr_buf tr_retry]. rewrite (file_at_open _ id f) by done. unfold on_world.
  cbn [sy_world set_held]. unfold async_read_poll. rewrite Hfl. change (contains O_RDWR O_NONBLOCK) with false.
  unfold WaitBlockingRead_poll. rewrite Hi. cbn [node_ops lift_inode i_readat]. unfold upd. rewrite Hq. cbn [unwrap PipeReceiver_inode i_readat]. step_ret.
  assert (PipeReceiver_readat q buf = (Err EAGAIN, buf, q)) as E.
  { unfold PipeReceiver_readat. rewrite decide_False by done. rewrite decide_False by (unfold qlen; rewrite Hem; cbn; lia). by rewrite decide_True. }
  cbn [fst]. rewrite E. step_ret. eexists _, _. split; [reflexivity|]. cbn. split_and!; [done|done|by left].
Qed.
End transfer.

(** ** The life of a pipe *)

Section pipes.
Context {N W : Type} (ops : N → INode N W).

(** A file no descriptor refers to can be stored at a free number; it is then its only reference. *)
Lemma install_spec x x' (s : Sys N W) f fd lim : sys_ok_with x None s → node_live (sy_world s) (f_inner f) →
  (∀ p, (if decide (x = Some p) then 1 else 0) = (if is_tx p (f_inner f) then 1 else 0) + if decide (x' = Some p) then 1 else 0)%nat →
  rlimits (sy_fds s) !! 7%nat = Some lim → fd < lim → fd_table (sy_fds s) !! Z.to_nat fd = Some None →
  ∃ id s1, new_file f s = Ret (Ok id, s1) ∧ s1 = set_files (<[id := f]> (sy_files s)) s ∧
    put_fd fd id s1 = Ret (Ok tt, with_fd fd id s1) ∧ sys_ok_with x' None (with_fd fd id s1) ∧ ¬ refers s id ∧ sy_files s !! id = None.
Proof.
  intros Hs Hl Hx Hlim Hfd Hn. destruct (new_file_ok x x' f s Hs Hl Hx) as (id & s1 & E & H1 & _ & _). exists id, s1. split; [done|].
  unfold new_file in E. injection E as E1 E2. assert (s1 = set_files (<[id := f]> (sy_files s)) s) as -> by (subst; done). split; [done|].
  pose proof (put_fd_free (set_files (<[id := f]> (sy_files s)) s) fd id lim Hlim Hfd Hn) as E. split; [done|].
  assert (sy_files s !! id = None) as Hid by (subst id; apply not_elem_of_dom, is_fresh).
  destruct (put_fd_ok x' id _ fd H1) as (s2 & E' & H2 & _). rewrite E in E'. injection E' as <-. split; [done|]. split; [|done].
  intros Hr. assert (is_Some (sy_files s !! id)) as Hsome by (apply (so_refers _ _ _ Hs); by left). rewrite Hid in Hsome. by destruct Hsome.
Qed.

Lemma pipe2_spec (s s' : Sys N W) fds z r w : sys_ok_with None None s → Z.of_nat (length (fd_table (sy_fds s))) ≤ 4294967296 →
  sys_pipe2 fds s = Ret (Ok (Ok z, (r, w)), s') →
  ∃ p rx tx, 0 ≤ r ∧ 0 ≤ w ∧ Z.to_nat r ≠ Z.to_nat w ∧ rx ≠ tx ∧ descriptor s' r rx ∧ descriptor s' w tx ∧
    sy_files s' !! rx = Some (File_new_dev (N_rx p)) ∧ sy_files s' !! tx = Some (File_new_dev (N_tx p)) ∧
    nw_pipes (sy_world s') !! p = Some create_pipe ∧
    (∀ i, fd_table (sy_fds s') !! i = Some (Some tx) → i = Z.to_nat w) ∧ tx ≠ sy_cwd s' ∧ tx ∉ sy_held s'.
Proof.
  intros Hs Hlen. destruct (new_pipe_ok s Hs) as (p & s1 & E1 & H1 & _ & P1).
  assert (sy_fds s1 = sy_fds s) as F1 by (unfold new_pipe in E1; by injection E1 as _ <-).
  unfold sys_pipe2. rewrite (bind_ok _ _ _ _ _ E1), bind_eq.
  destruct (new_fd ENFILE s1) as [[[rx_fd|e] s1']|] eqn:Er; [| |done]; step_ret; [|done].
  destruct (new_fd_spec (Some p) None s1 s1' ENFILE rx_fd H1 Er) as (-> & Hr0 & lim & Hlim & Hrlt & Hrn).
  assert (lim ≤ Z.of_nat (length (fd_table (sy_fds s1)))) as Hle.
  { destruct (so_limit _ _ _ H1) as (l & El & Hle). assert (l = lim) as -> by congruence. done. }
  destruct (install_spec (Some p) (Some p) s1 (File_new_dev (N_rx p)) rx_fd lim H1) as (rx & s2 & E2 & D2 & E3 & H3 & R3 & _); [by eexists|done..|].
  rewrite (bind_ok _ _ _ _ _ E2), (bind_ok _ _ _ _ _ E3), bind_eq. set (s3 := with_fd rx_fd rx s2) in *.
  destruct (new_fd ENFILE s3) as [[[tx_fd|e] s3']|] eqn:Et; [| |done]; step_ret; [|done].
  destruct (new_fd_spec (Some p) None s3 s3' ENFILE tx_fd H3 Et) as (-> & Ht0 & lim3 & Hlim3 & Htlt & Htn).
  assert (lim3 = lim) as -> by (subst s3 s2; cbn in Hlim3; congruence).
  assert (nw_pipes (sy_world s3) !! p = Some create_pipe) as P3 by (subst s3 s2; done).
  destruct (install_spec (Some p) None s3 (File_new_dev (N_tx p)) tx_fd lim H3) as (tx & s4 & E4 & D4 & E5 & H5 & R5 & N5); [by eexists| |done..|].
  { intros p'. cbn. case_bool_decide; case_decide; naive_solver. }
  rewrite (bind_ok _ _ _ _ _ E4), (bind_ok _ _ _ _ _ E5). intros [= <- <- <- <-].
  unfold as_u32. rewrite !Z.mod_small by (rewrite <- F1 in Hlen; lia).
  assert (descriptor s3 rx_fd rx) as Hd3.
  { eapply descriptor_with_fd; [|done|]; subst s2; cbn; [done|]. by rewrite Hrn. }
  assert (sy_files s3 !! rx = Some (File_new_dev (N_rx p))) as Hf3. { subst s3 s2. cbn. apply lookup_insert_eq. }
  assert (rx ≠ tx) as Hne by congruence.
  exists p, rx, tx. split; [lia|]. split; [lia|]. split.
  { intros Eq. rewrite <- Eq in Htn. apply descriptor_inv in Hd3 as (? & _ & _ & Hd3). congruence. }
  split; [done|]. subst s4. split; [by apply descriptor_with_fd_old|]. split; [eapply descriptor_with_fd; [done|done|exact (mk_is_Some _ _ Htn)]|].
  split; [cbn; by rewrite lookup_insert_ne|]. split; [cbn; apply lookup_insert_eq|]. split; [done|].
  assert (¬ refers s3 tx) as R. { done. }
  split; [|split; [intros Eq; apply R; right; by left|intros Hin; apply R; right; by right]].
  cbn. intros i Hi. destruct (decide (i = Z.to_nat tx_fd)) as [|Hni]; [done|]. rewrite list_lookup_insert_ne in Hi by done.
  exfalso. apply R. left. by eapply list_elem_of_lookup_2.
Qed.

(** Closing the only reference to a sending end. *)
Lemma close_sender (s : Sys N W) w tx f p : 0 ≤ w → descriptor s w tx → sy_files s !! tx = Some f → f_inner f = N_tx p →
  (∀ i, fd_table (sy_fds s) !! i = Some (Some tx) → i = Z.to_nat w) → tx ≠ sy_cwd s → tx ∉ sy_held s →
  ∃ s', sys_close w s = Ret (Ok 0, s') ∧ sy_files s' = delete tx (sy_files s) ∧ sy_world s' = drop_node (N_tx p : Node N) (sy_world s) ∧
    ∀ fd id, id ≠ tx → descriptor s fd id → descriptor s' fd id.
Proof.
  intros Hw Hd Hf Hi Hu Hc Hh. apply descriptor_inv in Hd as (lim & Hl & Hlt & Ht). pose proof (lookup_lt_Some _ _ _ Ht) as Hlen.
  unfold sys_close, clear_fd. rewrite decide_False by lia. rewrite Ht. cbn [mjoin option_join]. unfold collect.
  set (s1 := set_fds _ s). rewrite decide_False.
  - change (sy_files s1) with (sy_files s). rewrite Hf, Hi. eexists. split; [done|]. split; [done|]. split; [done|].
    intros fd id Hne Hd. apply descriptor_inv in Hd as (lim' & Hl' & Hlt' & Ht'). eapply descriptor_table; [done|done|]. cbn.
    rewrite list_lookup_insert_ne; [done|]. intros Eq. rewrite Eq in Ht. congruence.
  - intros [Hr|[Hr|Hr]]; [|done|done]. cbn in Hr. apply list_elem_of_lookup in Hr as [i Hr]. destruct (decide (i = Z.to_nat w)) as [->|Hne].
    + by rewrite list_lookup_insert_eq in Hr.
    + rewrite list_lookup_insert_ne in Hr by done. by apply Hne, Hu.
Qed.
End pipes.

(** C31: the life of a pipe: what is written to the second descriptor of [pipe2] is what a read
    of the first one returns; once it has been read a further read waits as long as the
    writing descriptor is open, and returns 0, the end of file, when it has been closed. *)
Theorem pipe_lifecycle {N W} (ops : N → INode N W) (s s1 : Sys N W) (fds : Z * Z) (z r w : Z) (data buf buf2 : list Z) :
  sys_ok_with None None s → Z.of_nat (length (fd_table (sy_fds s))) ≤ 4294967296 →
  sys_pipe2 fds s = Ret (Ok (Ok z, (r, w)), s1) →
  data ≠ [] → qlen data ≤ PIPE_BUFFER_SIZE → (length data ≤ length buf)%nat → buf2 ≠ [] →
  ∃ t1 s2 t2 s3 s4 t3 s5,
    write_once ops w data s1 = Ret (Ok (Ready (Ok (qlen data)), t1), s2) ∧
    read_once ops r buf s2 = Ret (Ok (Ready (Ok (qlen data)), t2), s3) ∧ tr_buf t2 = buf_write buf data ∧
    (∃ t s', read_once ops r buf2 s3 = Ret (Ok (Pending, t), s')) ∧
    sys_close w s3 = Ret (Ok 0, s4) ∧
    read_once ops r buf2 s4 = Ret (Ok (Ready (Ok 0), t3), s5).
Proof.
  intros Hs Hlen E Hne Hsize Hbuf Hb2. destruct (pipe2_spec s s1 fds z r w Hs Hlen E)
    as (p & rx & tx & Hr & Hw & Hrw & Hx & Dr & Dw & Fr & Fw & Hp & Hu & Hc & Hh).
  assert (PipeSender_writeat create_pipe data = (Ok (qlen data), mkPipe data 1)) as W1.
  { unfold PipeSender_writeat. rewrite decide_False by done. cbn [queue create_pipe senders app qlen].
    case_decide; [done|]. by rewrite decide_True. }
  pose proof (write_pipe ops s1 w tx _ p _ data _ _ Dw Fw eq_refl Hp Hne W1) as E2. set (s2 := moved tx _ _ s1) in E2.
  assert (PipeReceiver_readat (mkPipe data 1) buf = (Ok (qlen data), buf_write buf data, mkPipe [] 1)) as R1.
  { unfold PipeReceiver_readat. cbn [queue senders]. assert (0 < length data)%nat by (destruct data; [done|cbn; lia]).
    rewrite decide_False by (intros ->; cbn in *; lia). rewrite decide_True by (unfold qlen; lia). rewrite Nat.min_l by lia.
    by rewrite take_ge, drop_ge by lia. }
  assert (sy_files s2 !! rx = Some (File_new_dev (N_rx p))) as Fr2 by (cbn; by rewrite lookup_insert_ne).
  assert (nw_pipes (sy_world s2) !! p = Some (mkPipe data 1)) as Hp2 by (cbn; apply lookup_insert_eq).
  pose proof (read_pipe ops s2 r rx _ p _ buf _ _ _ Dr Fr2 eq_refl eq_refl Hp2 R1) as E3. set (s3 := moved rx _ _ s2) in E3.
  set (fr := advance _ _) in s3. assert (sy_files s3 !! rx = Some fr) as Fr3 by (cbn; apply lookup_insert_eq).
  assert (nw_pipes (sy_world s3) !! p = Some (mkPipe [] 1)) as Hp3 by (cbn; apply lookup_insert_eq).
  destruct (read_pipe_waits ops s3 r rx fr p _ buf2 Dr Fr3 eq_refl eq_refl Hp3 Hb2 eq_refl) as (t & s' & Ew & _); [cbn; lia|].
  assert (sy_files s3 !! tx = Some (advance (File_new_dev (N_tx p)) (Ok (qlen data)))) as Fw3.
  { cbn. rewrite lookup_insert_ne by done. apply lookup_insert_eq. }
  destruct (close_sender s3 w tx _ p Hw Dw Fw3 eq_refl Hu Hc Hh) as (s4 & E4 & F4 & W4 & D4).
  assert (nw_pipes (sy_world s4) !! p = Some (mkPipe [] 0)) as Hp4. { rewrite W4. cbn. by rewrite lookup_alter_eq, lookup_insert_eq. }
  assert (PipeReceiver_readat (mkPipe [] 0) buf2 = (Ok 0, buf2, mkPipe [] 0)) as R2.
  { unfold PipeReceiver_readat. by rewrite decide_False by done. }
  assert (sy_files s4 !! rx = Some fr) as Fr4 by (rewrite F4; by rewrite lookup_delete_ne).
  pose proof (read_pipe ops s4 r rx fr p _ buf2 _ _ _ (D4 _ _ Hx Dr) Fr4 eq_refl eq_refl Hp4 R2) as E5.
  eexists _, s2, _, s3, s4, _, _. split; [exact E2|]. split; [exact E3|]. split; [done|]. split; [by eexists _, _|]. by split.
Qed.

(** ** The working directory *)

Section cwd.
Context {N W : Type} (ops : N → INode N W).

Lemma collect_other (s : Sys N W) id j : id ≠ j → sy_files (collect id s) !! j = sy_files s !! j.
Proof. intros Hne. unfold collect. case_decide; [done|]. case_match; [|done]. cbn. by rewrite lookup_delete_ne. Qed.

Lemma collect_cwd_file (s : Sys N W) id : refers s id → ∀ j, sy_files (collect j s) !! id = sy_files s !! id.
Proof. intros Hr j. destruct (decide (j = id)) as [->|Hne]; [by rewrite collect_noop|by apply collect_other]. Qed.

Lemma File_open_path (mounted : MountTable (Node N)) path flags w f w' :
  File_open (node_ops ops) mounted path flags w = Ret (Ok f, w') → f_path_buf f = path.
Proof.
  unfold File_open. destruct (get_mounted mounted path) as [[de p]|]; [|done]. step_ret. case_decide; [|by intros [= <- _]].
  destruct (walk _ _ _ _) as [[dir|e]|]; [|done|done]. step_ret.
  destruct (if contains flags O_CREAT then _ else _) as [[[u|e] w1]|]; [|done|done]. step_ret.
  destruct (i_lookup _ _ _) as [[g|e]|]; [|done|done]. step_ret. by intros [= <- _].
Qed.

Lemma chdir_cwd (s s' : Sys N W) (p : string) (cwd : File) : sy_files s !! sy_cwd s = Some cwd → sys_chdir ops (Some p) s = Ret (Ok 0, s') →
  ∃ path f, fd_resolve (λ id, from_option f_path_buf PathBuf_new (sy_files s !! id)) (sy_fds s) (sy_cwd s) AT_CWD p = Ok path ∧
    sy_files s' !! sy_cwd s' = Some f ∧ f_path_buf f = path.
Proof.
  intros Hcwd. unfold sys_chdir, fd_open, fd_resolve_, cstr, try, mbind, call_bind. cbn [ok_or]. rewrite Hcwd. cbn [unwrap outcome_bind].
  destruct (fd_resolve _ _ _ _ _) as [path|e] eqn:Er; [|done]. unfold open_path.
  destruct (File_open _ _ _ _ _) as [[[f|e] w]|] eqn:Eo; [|done|done]. cbn [outcome_bind]. unfold see_world, see.
  step_ret. change (sy_world (set_world w s)) with w. destruct (file_type (node_ops ops) f w) as [[ft|e]|]; step_ret; [|by intros [=]|by intros [=]].
  destruct ft; try by intros [=]. unfold set_cwd, new_file, put_cwd, mbind, call_bind, mret, call_ret. cbn. intros [= <-]. exists path, f.
  split; [done|]. apply File_open_path in Eo. split; [|done]. set (s1 := mkSys _ _ _ _ _ _ _).
  rewrite (proj1 (proj2 (collect_fds s1 (sy_cwd s)))). rewrite collect_cwd_file by (right; by left). apply lookup_insert_eq.
Qed.

(** After a successful [chdir] the working directory is the directory that the path names from
    the old one, and [getcwd] gives its path, cut to the buffer and filled with zeros; the
    pointer is returned also when the path did not fit. *)
Theorem chdir_getcwd (s s' : Sys N W) (p : string) (cwd : File) (a : Z) (buf : list Z) :
  sy_files s !! sy_cwd s = Some cwd → sys_chdir ops (Some p) s = Ret (Ok 0, s') →
  ∃ path, fd_resolve (λ id, from_option f_path_buf PathBuf_new (sy_files s !! id)) (sy_fds s) (sy_cwd s) AT_CWD p = Ok path ∧
    let bytes := str_bytes (PathBuf_path path) in
    sys_getcwd a buf s' = Ret (Ok (a, take (length buf) bytes ++ replicate (length buf - length bytes) 0), s').
Proof.
  intros Hcwd Hc. destruct (chdir_cwd s s' p cwd Hcwd Hc) as (path & f & Er & Ef & Ep). exists path. split; [done|]. cbv zeta.
  unfold sys_getcwd. rewrite Ef. cbn [unwrap]. step_ret. rewrite Ep. set (bytes := str_bytes _). clearbody bytes.
  destruct (decide (length buf ≤ length bytes)%nat).
  - rewrite Nat.min_r by done. by replace (length buf - length bytes)%nat with (length buf - length buf)%nat by lia.
  - rewrite Nat.min_l by lia. by rewrite !take_ge by lia.
Qed.
End cwd.

(** ** Calls that misbehave *)

Section more.
Context {N W : Type} (ops : N → INode N W).

Lemma File_open_flags mounted path flags w f w' :
  File_open (node_ops ops) mounted path flags w = Ret (Ok f, w') → f_flags f = flags.
Proof.
  unfold File_open. destruct (get_mounted _ _) as [[de rel]|]; [|done]. step_ret. case_decide; [|by intros [= <- _]].
  destruct (walk _ _ _ _) as [[d|]|]; [|done|done]. step_ret.
  destruct (if contains flags O_CREAT then _ else _) as [[[] w1]|]; [|done|done]. step_ret.
  destruct (i_lookup _ _ _) as [[]|]; [|done|done]. step_ret. by intros [= <- _].
Qed.

Lemma fd_open_flags (s s' : Sys N W) dir name flags f : fd_open ops dir name flags s = Ret (Ok f, s') → f_flags f = flags.
Proof.
  unfold fd_open. rewrite bind_eq. destruct (fd_resolve_ dir name s) as [[[p|] s1]|]; [|done|done]. unfold open_path.
  destruct (File_open _ _ _ _ _) as [[[g|] w]|] eqn:E; [|done|done]. step_ret. intros [= <- <-]. by eapply File_open_flags.
Qed.

(** The number of open descriptors. *)
Definition open_count (s : Sys N W) : nat := length (filter is_Some (fd_table (sy_fds s))).

Lemma open_count_with_fd (s : Sys N W) fd id : fd_table (sy_fds s) !! Z.to_nat fd = Some None →
  open_count (with_fd fd id s) = S (open_count s).
Proof.
  intros Hn. unfold open_count. cbn. rewrite (insert_take_drop _ _ (Some id)) by (by apply lookup_lt_Some in Hn).
  rewrite <- (take_drop_middle _ _ _ Hn) at 3. rewrite !filter_app, !filter_cons, decide_True by done.
  rewrite (decide_False (P := is_Some None)) by (by intros []). rewrite !length_app. cbn. lia.
Qed.

Lemma install_count (s s' : Sys N W) f fd n : sys_ok_with None None s → f_inner f = N_fs n → install f s = Ret (Ok fd, s') →
  sys_ok_with None None s' ∧ open_count s' = S (open_count s).
Proof.
  intros Hs Hn. unfold install. rewrite bind_eq. destruct (new_fd EMFILE s) as [[[fd'|] s1]|] eqn:E; [|done|done].
  apply (new_fd_spec None None) in E as (-> & _ & lim & Hl & Hlt & Ht); [|done].
  destruct (install_spec None None s f fd' lim Hs) as (id & s1 & E1 & -> & E2 & H2 & _); [by rewrite Hn|by rewrite Hn|done..|].
  rewrite (bind_ok _ _ _ _ _ E1), (bind_ok _ _ _ _ _ E2). intros [= <- <-]. split; [done|]. exact (open_count_with_fd (set_files (<[id := f]> (sy_files s)) s) fd' id Ht).
Qed.

Lemma fd_open_count (s s' : Sys N W) dir name flags f : sys_ok_with None None s → fd_open ops dir name flags s = Ret (Ok f, s') →
  sys_ok_with None None s' ∧ open_count s' = open_count s ∧ ∃ n, f_inner f = N_fs n.
Proof.
  intros Hs E. pose proof (wp_fd_open ops (sy_mounted s) dir name flags
    (λ f s', evolves s s' ∧ ∃ n, f_inner f = N_fs n) s Hs eq_refl ltac:(intros f' n s2 Hn He; split; [done|by eexists])) as Hw.
  unfold wp in Hw. rewrite E in Hw. destruct Hw as [He Hn]. split; [apply He|]. split; [|done]. unfold open_count. by rewrite (ev_fds _ _ He).
Qed.

Lemma mkdir_loop_count comps : ∀ (s s' : Sys N W) dir z, sys_ok_with None None s → mkdir_loop ops dir comps s = Ret (Ok z, s') →
  open_count s' = (open_count s + length comps)%nat.
Proof.
  induction comps as [|c comps IH]; intros s s' dir z Hs; cbn [mkdir_loop length]; [intros [= _ <-]; lia|].
  rewrite bind_eq. destruct (fd_open _ _ _ _ s) as [[[f|] s1]|] eqn:E1; [|done|done].
  apply fd_open_count in E1 as (H1 & C1 & n & Hn); [|done]. rewrite bind_eq. destruct (install f s1) as [[[fd|] s2]|] eqn:E2; [|done|done].
  destruct (install_count s1 s2 f fd n H1 Hn E2) as [H2 C2]. intros E3. rewrite (IH _ _ _ _ H2 E3). lia.
Qed.
End more.

(** [mkdirat] keeps descriptors open: every successful call leaves one more descriptor
    open for each component of the path, and one for the root when the path is absolute;
    nobody ever knows their numbers. *)
Theorem mkdir_leaks_descriptors {N W} (ops : N → INode N W) (s s' : Sys N W) (dir_fd z : Z) (path : string) :
  sys_ok_with None None s → sys_mkdir_at ops dir_fd (Some path) s = Ret (Ok z, s') →
  open_count s' = (open_count s + length (filter (λ c, c ≠ "") (split_slash path)) + if starts_with_slash path then 1 else 0)%nat.
Proof.
  intros Hs. unfold sys_mkdir_at, cstr. rewrite (bind_ok _ _ _ path s) by done. case_decide; [done|].
  rewrite bind_eq. destruct (starts_with_slash path).
  - rewrite bind_eq. destruct (fd_open _ _ _ _ s) as [[[f|] s1]|] eqn:E1; [|done|done].
    apply fd_open_count in E1 as (H1 & C1 & n & Hn); [|done]. rewrite bind_eq. destruct (install f s1) as [[[fd|] s2]|] eqn:E2; [|done|done].
    destruct (install_count s1 s2 f fd n H1 Hn E2) as [H2 C2]. intros E3. apply mkdir_loop_count in E3; [|done]. lia.
  - intros E. apply mkdir_loop_count in E; [|done]. lia.
Qed.

(** Renaming a regular file fails: [renameat2] without flags opens the new name for reading
    only, so that the copy it makes of the file is refused with [EPERM]; the new name has been
    created by then, and the old one is never removed. *)
Theorem rename_refused {N W} (ops : N → INode N W) (s s1 s2 : Sys N W) (od nd size k : Z) (op np : string) (f g f' : File)
    (b : list Z) (w : NodeWorld W) :
  fd_open ops od op O_RDONLY s = Ret (Ok f, s1) → file_type (node_ops ops) f (sy_world s1) = Ret (Ok FT_File) →
  fd_open ops nd np O_CREAT s1 = Ret (Ok g, s2) →
  file_size (node_ops ops) f (sy_world s2) = Ret (Ok size) → size < 9223372036854775808 →
  File_read (node_ops ops) f (replicate (Z.to_nat size) 0) (sy_world s2) = Ret (Ok k, b, f', w) →
  sys_renameat2 ops od (Some op) nd (Some np) 0 s = Ret (Err EPERM, set_world w s2).
Proof.
  intros E1 Et E2 Ez Hz Er. unfold sys_renameat2, cstr. change (OpenFlags_truncate 0) with 0.
  rewrite (bind_ok _ _ _ op s), (bind_ok _ _ _ _ _ E1) by done. unfold see_world, see.
  rewrite (bind_ok _ _ _ (Ok FT_File) s1) by (by rewrite Et). rewrite (bind_ok _ _ _ FT_File s1), (bind_ok _ _ _ np s1) by done.
  change (Z.lor O_CREAT 0) with O_CREAT. rewrite (bind_ok _ _ _ _ _ E2).
  rewrite (bind_ok _ _ _ (Ok size) s2), (bind_ok _ _ _ size s2) by (by rewrite ?Ez). unfold zeroed at 1.
  rewrite (bind_ok _ _ _ (replicate (Z.to_nat size) 0) s2) by (by rewrite decide_True).
  rewrite (bind_ok _ _ _ (Ok k, b, f') (set_world w s2)) by (unfold on_world; by rewrite Er).
  rewrite (bind_ok _ _ _ k (set_world w s2)) by done.
  rewrite (bind_ok _ _ _ (Err EPERM, g) (set_world w s2)); [done|]. unfold on_world, File_write, check_writeable.
  rewrite (fd_open_flags ops _ _ _ _ _ _ E2). by destruct s2.
Qed.

(** [readv] loses data of a pipe: when the bytes in the pipe fit the first buffer, the read
    for the second one would block and its error is returned although the bytes have been
    taken out of the pipe. *)
Theorem readv_loses_pipe_data {N W} (ops : N → INode N W) (s : Sys N W) (fd : Z) (id : nat) (f : File) (p : nat) (q : Pipe) (b1 b2 : list Z) :
  descriptor s fd id → sy_files s !! id = Some f → f_inner f = N_rx p → nw_pipes (sy_world s) !! p = Some q →
  queue q ≠ [] → (0 < senders q)%nat → (length (queue q) ≤ length b1)%nat → b2 ≠ [] →
  ∃ iov s', sys_readv ops fd [b1; b2] s = Ret (Ok (Err EAGAIN, iov), s') ∧ nw_pipes (sy_world s') !! p = Some (mkPipe [] (senders q)).
Proof.
  intros Hd Hf Hi Hq Hne Hse Hlen Hb2. rewrite (readv_open ops s fd id) by done. cbn [readv_loop].
  assert (PipeReceiver_readat q b1 = (Ok (qlen (queue q)), buf_write b1 (queue q), mkPipe [] (senders q))) as R1.
  { unfold PipeReceiver_readat. assert (0 < length (queue q))%nat by (destruct (queue q); [done|cbn; lia]).
    rewrite decide_False by (intros ->; cbn in *; lia). rewrite decide_True by (unfold qlen; lia). rewrite Nat.min_l by lia.
    by rewrite take_ge, drop_ge by lia. }
  assert (∀ (s : Sys N W) f q b r b' q', sy_files s !! id = Some f → f_inner f = N_rx p → nw_pipes (sy_world s) !! p = Some q →
    PipeReceiver_readat q b = (r, b', q') →
    file_read ops id b s = Ret (Ok (r, b'), moved id (advance f r) (put_pipe p q' (sy_world s)) s)) as Hread.
  { clear. intros s f q b r b' q' Hf Hi Hq E. unfold file_read. rewrite (bind_ok _ _ _ f s) by (by apply file_at_open). unfold on_world, File_read.
    rewrite bind_eq, Hi. cbn [node_ops lift_inode i_readat]. unfold upd. rewrite Hq. cbn [unwrap PipeReceiver_inode i_readat]. step_ret. by rewrite E. }
  rewrite (bind_ok _ _ _ _ _ (Hread s f q b1 _ _ _ Hf Hi Hq R1)). set (s1 := moved id _ _ s). rewrite bind_eq, bind_eq.
  assert (PipeReceiver_readat (mkPipe [] (senders q)) b2 = (Err EAGAIN, b2, mkPipe [] (senders q))) as R2.
  { unfold PipeReceiver_readat. rewrite decide_False by done. rewrite decide_False by (unfold qlen; cbn; lia). by rewrite decide_True. }
  rewrite (Hread s1 (advance f (Ok (qlen (queue q)))) (mkPipe [] (senders q)) b2 (Err EAGAIN) b2 (mkPipe [] (senders q))); [|by apply lookup_insert_eq|done|by apply lookup_insert_eq|exact R2].
  eexists _, _. split; [reflexivity|]. cbn. apply lookup_insert_eq.
Qed.

(** Unmounting the root succeeds, and after it the kernel panics on every path that is not
    under another mount point. *)
Theorem umount_root_panics {N W} (ops : N → INode N W) (s : Sys N W) :
  ∃ s', sys_umount2 ops (Some "/") s = Ret (Ok 0, s') ∧
    ∀ path flags, Forall (λ m, m.1 = [] ∨ ¬ m.1 `prefix_of` path) (sy_mounted s) → open_path ops path flags s' = Panic.
Proof.
  eexists. split; [reflexivity|]. intros path flags Hm. unfold open_path, File_open. cbn [sy_mounted].
  assert (get_mounted (umount (sy_mounted s) (PathBuf_from "/")).2 path = Panic) as ->; [|done].
  unfold get_mounted. assert (List.find (λ x : PathBuf * Node N, PathBuf_starts_with path x.1) (rev (umount (sy_mounted s) (PathBuf_from "/")).2) = None) as ->; [|done].
  apply find_None_Forall, Forall_forall. intros m. rewrite list_elem_of_In, <- in_rev, <- list_elem_of_In. cbn [umount snd].
  intros [Hne Hin]%list_elem_of_filter. rewrite Forall_forall in Hm. destruct (Hm m Hin) as [E|Hp]; [by destruct Hne|].
  unfold PathBuf_starts_with. by apply bool_decide_eq_false.
Qed.

(** ** [sendfile] *)

Section sendfile.
Context {N W : Type} (ops : N → INode N W).

Lemma seek_here f w st : i_stat (node_ops ops (f_inner f)) Stat_default w = Ret (Ok tt, st) → 0 ≤ f_offset f < 9223372036854775808 →
  File_seek (node_ops ops) f (CURRENT 0) w = Ret (Ok (f_offset f), f).
Proof.
  intros E Ho. unfold File_seek. rewrite E. step_ret. rewrite Z.add_0_r.
  assert (as_isize (f_offset f) = f_offset f) as E1. { unfold as_isize. rewrite wrap_small by (unfold is_usize, USIZE; lia). by rewrite decide_True by lia. }
  rewrite !E1. rewrite decide_False by lia. by destruct f.
Qed.

(** What [sendfile] sends: the next bytes of the file, or zeroes when the offset is past its end. *)
Definition sent (c : list Z) (o count : Z) : list Z :=
  if decide (o ≤ Z.of_nat (length c)) then take (Z.to_nat count) (drop (Z.to_nat o) c) else replicate (Z.to_nat count) 0.

(** The buffer [sendfile] prepares holds exactly these bytes after the read. *)
Lemma sent_buffer c o count : 0 ≤ o < 9223372036854775808 → 0 ≤ count < 9223372036854775808 → Z.of_nat (length c) < 9223372036854775808 →
  let buffer := replicate (Z.to_nat (Z.min (Z.of_nat (length c) -u o) count)) 0 in
  Z.min (Z.of_nat (length c) -u o) count < 9223372036854775808 ∧
  buf_write buffer (take (length buffer) (drop (Z.to_nat o) c)) = sent c o count.
Proof.
  intros Ho Hn Hc buffer. split; [lia|]. subst buffer. rewrite length_replicate. unfold sent. case_decide as Hle.
  - rewrite wrap_small by (unfold is_usize, USIZE; lia). set (k := Z.to_nat (Z.min (Z.of_nat (length c) - o) count)).
    assert (take k (drop (Z.to_nat o) c) = take (Z.to_nat count) (drop (Z.to_nat o) c)) as ->.
    { destruct (decide (count ≤ Z.of_nat (length c) - o)); [subst k; f_equal; lia|]. rewrite !take_ge; [done|rewrite length_drop; lia..]. }
    unfold buf_write, buf_write_at. rewrite take_0, (drop_ge (replicate k 0)); [cbn [app]; by rewrite app_nil_r|]. rewrite length_replicate, length_take, length_drop. lia.
  - assert (Z.of_nat (length c) -u o = Z.of_nat (length c) - o + USIZE) as ->.
    { unfold wrap. rewrite <- (Z.mod_add _ 1) by done. rewrite Z.mod_small; unfold USIZE; lia. }
    rewrite Z.min_r by (unfold USIZE; lia). rewrite (drop_ge c) by lia. rewrite take_nil. apply buf_write_at_nil.
Qed.
End sendfile.

(** [sendfile] from the current offset writes the next [count] bytes of the file, or what is
    left of it, to the output, and moves the input's offset by what was read.  But when the
    offset is past the end of the file (after an [lseek]) the subtraction of the sizes wraps
    around, and [count] zero bytes are written that were never in the file. *)
Theorem sendfile_copies {N W} (ops : N → INode N W) (s : Sys N W) (out_fd in_fd count : Z) (out_id in_id : nat) (f : File) (n : N)
    (c : list Z) (st : Stat) :
  sys_ok_with None None s → descriptor s out_fd out_id → descriptor s in_fd in_id → sy_files s !! in_id = Some f → f_inner f = N_fs n →
  reads_as ops n (nw_fs (sy_world s)) c → i_stat (ops n) Stat_default (nw_fs (sy_world s)) = Ret (Ok tt, st) →
  st_size st = Z.of_nat (length c) → Z.of_nat (length c) < 9223372036854775808 →
  0 ≤ f_offset f < 9223372036854775808 → 0 ≤ count < 9223372036854775808 →
  ∃ read, read ≤ Z.max 0 (Z.of_nat (length c) - f_offset f) ∧
    sys_sendfile ops out_fd in_fd 0 count s =
      (r ← file_write ops out_id (sent c (f_offset f) count); try r) (at_offset in_id f (f_offset f + read) s).
Proof.
  intros Hs Ho Hi Hf Hn Hc Est Hsz Hlc Hoff Hcnt. assert (i_stat (node_ops ops (f_inner f)) Stat_default (sy_world s) = Ret (Ok tt, st)) as E.
  { rewrite Hn. cbn. unfold obs. cbn [unwrap]. step_ret. done. }
  unfold sys_sendfile. rewrite (bind_ok _ _ _ _ _ (fd_or_open s out_fd out_id EINVAL Ho)), (bind_ok _ _ _ _ _ (fd_or_open s in_fd in_id EINVAL Hi)).
  rewrite decide_False by (intros H; by apply H).
  assert (at_offset in_id f (f_offset f) s = s) as Hsame.
  { unfold at_offset, set_files. rewrite insert_id by (by destruct f). by destruct s. }
  rewrite (bind_ok _ _ _ (f_offset f) s).
  2: { rewrite (bind_ok _ _ _ _ _ (file_at_open _ _ _ Hf)). unfold see_world, see.
       rewrite (bind_ok _ _ _ (Ok (f_offset f), f) s) by (rewrite (seek_here ops f _ st) by done; done).
       unfold put_file. rewrite (bind_ok _ _ _ tt s); [done|]. unfold set_files. rewrite insert_id by done. by destruct s. }
  rewrite (bind_ok _ _ _ _ _ (file_at_open _ _ _ Hf)). unfold see_world at 1, see at 1.
  rewrite (bind_ok _ _ _ (Ok (st_size st)) s) by (unfold file_size; by rewrite E).
  rewrite (bind_ok _ _ _ (st_size st) s) by done. rewrite Hsz.
  destruct (sent_buffer c (f_offset f) count Hoff Hcnt Hlc) as [Hlt Hbuf]. set (buffer := replicate _ 0) in Hbuf.
  rewrite (bind_ok _ _ _ buffer s) by (unfold zeroed; by rewrite decide_True). rewrite decide_True by done.
  destruct (file_read_stream ops s in_id f n c buffer) as [Er _]; [done..|unfold is_usize, USIZE; lia|unfold USIZE; lia|].
  set (x := Z.of_nat (length (take (length buffer) (drop (Z.to_nat (f_offset f)) c)))) in *. rewrite Hbuf in Er.
  exists x. split; [subst x; rewrite length_take, length_drop; lia|]. set (s1 := at_offset in_id f (f_offset f + x) s) in *.
  rewrite (bind_ok _ _ _ (sent c (f_offset f) count) s1); [done|]. rewrite (bind_ok _ _ _ _ _ Er).
  rewrite (bind_ok _ _ _ x s1) by done. assert (evolves s s1) as Hev.
  { apply put_file_evolves; [done|]. unfold file_on. by rewrite lookup_fmap, Hf. }
  rewrite (bind_ok _ _ _ tt s1); [done|]. apply put_fd_same; [apply Hev|done].
Qed.

(** ** Witnesses *)

(** A file system in which every name exists or can be created. *)
Definition demo_ops2 (n : nat) : INode nat (list Z) :=
  let d := demo_ops n in {|
  i_readat := i_readat d; i_writeat := i_writeat d; i_create _ _ w := Ret (Ok tt, w); i_mkdir := i_mkdir d; i_rmdir := i_rmdir d;
  i_remove := i_remove d; i_read_dir := i_read_dir d; i_lookup _ _ := Ret (Ok (S n));
  i_ioctl := i_ioctl d; i_truncate := i_truncate d; i_flush := i_flush d; i_resolve_link := i_resolve_link d;
  i_link := i_link d; i_symlink := i_symlink d; i_unlink := i_unlink d; i_stat := i_stat d;
  i_mount := i_mount d; i_umount := i_umount d; i_statfs := i_statfs d; i_utimes := i_utimes d; i_poll := i_poll d;
|}.

Definition demo_tty : @File (Node nat) := mkFile (N_fs 0%nat) [] 0 O_RDWR.

Lemma readv_is_one_read_witness : ∃ s',
  sys_readv demo_ops 0 [[0; 0]; [0]] demo_sys = Ret (Ok (Ok 3, [[10; 20]; [30]]), s').
Proof.
  destruct (readv_is_one_read demo_ops demo_sys 0 0%nat demo_tty 0%nat [10; 20; 30; 40] [[0; 0]; [0]]) as (k & iov' & s' & E & _ & _);
    [vm_compute; reflexivity|reflexivity|reflexivity|intros off buf Ho; reflexivity|split; [discriminate|reflexivity]|reflexivity|].
  exists s'. rewrite E. vm_compute in E. injection E as <- <- _. reflexivity.
Defined.

Lemma dup_shares_offset_witness : ∃ s1 k1 k2 s2 s3 s4, sys_dup 0 demo_sys = Ret (Ok 3, s1) ∧
  sys_readv demo_ops 0 [[0]] s1 = Ret (Ok (Ok k1, [[10]]), s2) ∧ sys_close 0 s2 = Ret (Ok 0, s3) ∧
  sys_readv demo_ops 3 [[0; 0]] s3 = Ret (Ok (Ok k2, [[20; 30]]), s4).
Proof.
  destruct (sys_dup 0 demo_sys) as [[[fd2|] s1]|] eqn:E; [|vm_compute in E; discriminate E..].
  assert (fd2 = 3) as -> by (vm_compute in E; congruence).
  destruct (dup_shares_offset demo_ops demo_sys s1 0 3 0%nat demo_tty 0%nat [10; 20; 30; 40] [[0]] [[0; 0]]) as (k1 & k2 & s2 & s3 & s4 & E1 & E2 & E3 & _);
    [exact demo_sys_ok|lia|vm_compute; reflexivity|reflexivity|reflexivity|intros off buf Ho; reflexivity|split; [discriminate|reflexivity]|reflexivity|exact E|].
  exists s1, k1, k2, s2, s3, s4. split; [reflexivity|]. split; [exact E1|]. split; [exact E2|exact E3].
Defined.

Lemma pipe_lifecycle_witness : ∃ s1 t1 s2, sys_pipe2 (0, 0) demo_sys = Ret (Ok (Ok 0, (3, 4)), s1) ∧
  write_once demo_ops 4 [7; 8; 9] s1 = Ret (Ok (Ready (Ok 3), t1), s2).
Proof.
  destruct (sys_pipe2 (0, 0) demo_sys) as [[[[[z|] [r w]]|] s1]|] eqn:E; [|vm_compute in E; discriminate E..].
  assert (z = 0 ∧ r = 3 ∧ w = 4) as (-> & -> & ->) by (vm_compute in E; injection E as -> -> -> _; done).
  destruct (pipe_lifecycle demo_ops demo_sys s1 (0, 0) 0 3 4 [7; 8; 9] [0; 0; 0; 0] [0]) as (t1 & s2 & t2 & s3 & s4 & t3 & s5 & E1 & _);
    [exact demo_sys_ok|vm_compute; discriminate|exact E|discriminate|vm_compute; discriminate|cbn; lia|discriminate|].
  exists s1, t1, s2. split; [reflexivity|exact E1].
Defined.

Lemma mkdir_leaks_descriptors_witness : ∃ s', sys_mkdir_at demo_ops2 AT_CWD (Some "/a/b") demo_sys = Ret (Ok 0, s') ∧ open_count s' = 6%nat.
Proof.
  destruct (sys_mkdir_at demo_ops2 AT_CWD (Some "/a/b") demo_sys) as [[[z|] s']|] eqn:E; [|vm_compute in E; discriminate E..].
  assert (z = 0) as -> by (vm_compute in E; congruence). exists s'. split; [reflexivity|].
  rewrite (mkdir_leaks_descriptors demo_ops2 demo_sys s' AT_CWD 0 "/a/b"); [vm_compute; reflexivity|exact demo_sys_ok|exact E].
Defined.

Lemma rename_refused_witness : ∃ w s2, sys_renameat2 demo_ops2 AT_CWD (Some "x") AT_CWD (Some "y") 0 demo_sys = Ret (Err EPERM, set_world w s2).
Proof.
  eexists _, _. eapply (rename_refused demo_ops2 demo_sys _ _ AT_CWD AT_CWD _ _ "x" "y");
    [vm_compute; reflexivity|vm_compute; reflexivity|vm_compute; reflexivity|vm_compute; reflexivity| |vm_compute; reflexivity]. reflexivity.
Defined.

Lemma readv_loses_pipe_data_witness : ∃ iov s' s,
  sys_readv demo_ops 3 [[0; 0; 0]; [0]] s = Ret (Ok (Err EAGAIN, iov), s').
Proof.
  set (s0 := mkSys {[0%nat := mkFile (N_rx 0%nat) [] 0 O_RDWR]} (mkFds [None; None; None; Some 0%nat] rlimits_new) 0 0 [] [([], N_fs 5%nat)]
    (mkNodeWorld ([] : list Z) {[0%nat := mkPipe [1; 2] 1]} ∅)).
  destruct (readv_loses_pipe_data demo_ops s0 3 0%nat (mkFile (N_rx 0%nat) [] 0 O_RDWR) 0%nat (mkPipe [1; 2] 1) [0; 0; 0] [0]) as (iov & s' & E & _);
    [vm_compute; reflexivity|reflexivity|reflexivity|reflexivity|discriminate|cbn; lia|cbn; lia|discriminate|].
  exists iov, s', s0. exact E.
Defined.

Lemma sendfile_copies_witness : ∃ read, read ≤ 4 ∧
  sys_sendfile demo_ops 1 0 0 2 demo_sys =
    (r ← file_write demo_ops 0%nat [10; 20]; try r) (at_offset 0%nat demo_tty (0 + read) demo_sys).
Proof.
  destruct (sendfile_copies demo_ops demo_sys 1 0 2 0%nat 0%nat demo_tty 0%nat [10; 20; 30; 40]
    (mkStat 0 0 S_FILE 1 0 0 0 4 0 0 TimeSpec_default TimeSpec_default TimeSpec_default)) as (read & Hr & E);
    [exact demo_sys_ok|vm_compute; reflexivity|vm_compute; reflexivity|reflexivity|reflexivity|intros off buf Ho; reflexivity|reflexivity|reflexivity
    |reflexivity|cbn; lia|lia|].
  exists read. split; [exact Hr|exact E].
Defined.

Lemma umount_root_panics_witness : ∃ s', sys_umount2 demo_ops (Some "/") demo_sys = Ret (Ok 0, s') ∧
  open_path demo_ops ["a.txt"] O_RDONLY s' = Panic.
Proof.
  destruct (umount_root_panics demo_ops demo_sys) as (s' & E & H). exists s'. split; [exact E|]. apply H. constructor; [by left|constructor].
Defined.
