(* ===== verification/SysPoll.v ===== *)
(** * Waiting for descriptors

    Models [sys_ppoll], [sys_pselect] and [sys_epoll_wait] of kernel/src/syscall/fd.rs on the
    states of SysFile.  A call looks at the state each time it is resumed: its loop takes the
    list of the states and clock readings it meets, and is [Pending] when they are used up. *)

From S2P Require Import Prelude Path Vfs Pipe File FdTable SysFile SysWf.

(** ** Bit arrays of words ([bit_field::BitArray]) *)

(** The word of bit [i]; the callers stay inside the array. *)
Definition word_of (l : list Z) (i : Z) : Z := default 0 (l !! Z.to_nat (i / 64)).

Definition get_bit (l : list Z) (i : Z) : bool := Z.testbit (word_of l i) (i mod 64).

Definition set_bit (l : list Z) (i : Z) (b : bool) : list Z :=
  let w := word_of l i in
  <[Z.to_nat (i / 64) := if b then Z.setbit w (i mod 64) else Z.clearbit w (i mod 64)]> l.

Lemma length_set_bit l i b : length (set_bit l i b) = length l.
Proof. apply length_insert. Qed.

Lemma get_set_bit l i j b : 0 ≤ i → i / 64 < Z.of_nat (length l) → 0 ≤ j →
  get_bit (set_bit l i b) j = if decide (i = j) then b else get_bit l j.
Proof.
  intros Hi Hl Hj. unfold get_bit, set_bit, word_of. pose proof (Z.div_pos i 64). pose proof (Z.div_pos j 64).
  pose proof (Z.mod_pos_bound i 64). pose proof (Z.mod_pos_bound j 64). destruct (decide (i / 64 = j / 64)) as [Eq|Ne].
  - rewrite <- Eq, list_lookup_insert_eq by lia. cbn [from_option id]. case_decide as Hij.
    + subst j. destruct b; [by rewrite Z.setbit_eq by lia|by rewrite Z.clearbit_eq].
    + assert (i mod 64 ≠ j mod 64). { intros E. apply Hij. rewrite (Z.div_mod i 64), (Z.div_mod j 64) by lia. congruence. }
      destruct b; [by rewrite Z.setbit_neq by lia|by rewrite Z.clearbit_neq].
  - rewrite list_lookup_insert_ne by lia. rewrite decide_False; [done|]. intros ->. done.
Qed.

Record PollFd := mkPollFd { pf_fd : Z; pf_events : Z; pf_revents : Z }.

Section poll.
Context {N W : Type} (ops : N → INode N W).

Abbreviation St := (Sys N W).

(** [file.poll(events)] of the open file [id]. *)
Definition poll_file (s : St) (id : nat) (events : Z) : outcome (result Z * St) :=
  f ← unwrap (sy_files s !! id);
  '(r, w) ← i_poll (node_ops ops (f_inner f)) events (sy_world s); Ret (r, set_world w s).

(** ** [ppoll] *)

(** An entry of the caller's array; [unwrap] of an error of [poll] panics. *)
Definition ppoll_one (s : St) (e : PollFd) : outcome (PollFd * St) :=
  o ← get_fd (sy_fds s) (pf_fd e);
  match o with
  | None => Ret (mkPollFd (pf_fd e) (pf_events e) POLL_NONE, s)
  | Some id =>
      '(r, s) ← poll_file s id (pf_events e);
      match r with Ok rev => Ret (mkPollFd (pf_fd e) (pf_events e) rev, s) | Err _ => Panic end
  end.

Fixpoint ppoll_round (s : St) (fds : list PollFd) (num : Z) : outcome (list PollFd * Z * St) :=
  match fds with
  | [] => Ret ([], num, s)
  | e :: fds =>
      '(e, s) ← ppoll_one s e;
      '(fds, num, s) ← ppoll_round s fds (if decide (pf_revents e ≠ POLL_NONE) then num + 1 else num);
      Ret (e :: fds, num, s)
  end.

Fixpoint ppoll_loop (seen : list (St * Z)) (etime : Z) (fds : list PollFd) : outcome (Poll (Z * St) * list PollFd) :=
  match seen with
  | [] => Ret (Pending, fds)
  | (s, now) :: seen =>
      '(fds, num, s) ← ppoll_round s fds 0;
      if decide (etime ≤ now ∨ 0 < num) then Ret (Ready (num, s), fds) else ppoll_loop seen etime fds
  end.

(** [timeout] is [None] for a null pointer. *)
Definition sys_ppoll (fds : list PollFd) (timeout : option TimeSpec) (now : Z) (seen : list (St * Z)) : outcome (Poll (Z * St) * list PollFd) :=
  ppoll_loop seen (match timeout with Some t => now +u TimeSpec_to_nsec t | None => usize_max end) fds.

(** ** [pselect] *)

(** One descriptor of a set: is it in the table and ready for [ev]?  The table is indexed
    directly; errors of [poll] count as not ready. *)
Definition select_ready (s : St) (ev i : Z) : outcome (bool * St) :=
  o ← unwrap (fd_table (sy_fds s) !! Z.to_nat i);
  match o with
  | None => Ret (false, s)
  | Some id => '(r, s) ← poll_file s id ev; Ret (match r with Ok res => contains res ev | Err _ => false end, s)
  end.

(** The loop over one set; [clear] tells whether a bit that is not asked for is cleared (the
    read set) or left as it is (the others). *)
Definition select_step (ev : Z) (clear : bool) (req : list Z) (acc : Z * list Z * St) (i : Z) : outcome (Z * list Z * St) :=
  let '(num, res, s) := acc in
  if negb (get_bit req i) then Ret (num, if clear then set_bit res i false else res, s)
  else '(b, s) ← select_ready s ev i; Ret (if (b : bool) then num + 1 else num, set_bit res i b, s).

Definition select_set (ev : Z) (clear : bool) (max_fdp1 : Z) (req : option (list Z)) (acc : Z * list Z * St) : outcome (Z * list Z * St) :=
  match req with
  | None => Ret acc
  | Some req => foldM (select_step ev clear req) (seqZ 0 max_fdp1) acc
  end.

Record Sets := mkSets { set_r : list Z; set_w : list Z; set_e : list Z }.

Definition select_round (s : St) (max_fdp1 : Z) (rfds wfds efds : option (list Z)) (res : Sets) : outcome (Z * Sets * St) :=
  '(num, r, s) ← select_set POLLIN true max_fdp1 rfds (0, set_r res, s);
  '(num, w, s) ← select_set POLLOUT false max_fdp1 wfds (num, set_w res, s);
  '(num, e, s) ← select_set POLLERR false max_fdp1 efds (num, set_e res, s);
  Ret (num, mkSets r w e, s).

Fixpoint select_loop (seen : list (St * Z)) (timeout max_fdp1 : Z) (rfds wfds efds : option (list Z)) (res : Sets)
    : outcome (Poll (Z * Sets * St)) :=
  match seen with
  | [] => Ret Pending
  | (s, now) :: seen =>
      '(num, res, s) ← select_round s max_fdp1 rfds wfds efds res;
      if decide (num ≠ 0) then Ret (Ready (num, res, s))
      else if decide (timeout < now) then Ret (Ready (0, res, s))
      else select_loop seen timeout max_fdp1 rfds wfds efds res
  end.

(** The sets are four words each, [None] for a null pointer. *)
Definition sys_pselect (max_fdp1 : Z) (rfds wfds efds : option (list Z)) (timeout : option TimeSpec) (now : Z) (seen : list (St * Z))
    : outcome (Poll (Z * Sets * St)) :=
  select_loop seen (match timeout with Some t => now +u TimeSpec_to_nsec t | None => usize_max end) (Z.min max_fdp1 255)
    rfds wfds efds (mkSets (replicate 4 0) (replicate 4 0) (replicate 4 0)).

(** ** [epoll_wait] *)

(** [iter] is the order in which the hash map is walked. *)
Context (iter : gmap Z EpollEvent → list (Z * EpollEvent)).

(** Does a registered descriptor get reported? *)
Definition epoll_ready (s : St) (fd : Z) (ev : EpollEvent) : outcome (bool * St) :=
  o ← get_fd (sy_fds s) fd;
  match o with
  | None => Ret (false, s)
  | Some id =>
      '(r, s) ← poll_file s id (to_poll (ee_events ev));
      Ret (match r with Ok p => bool_decide (p ≠ POLL_NONE) | Err _ => false end, s)
  end.

(** [buffer[num] = ev.clone()] panics beyond the caller's array. *)
Fixpoint epoll_round (s : St) (es : list (Z * EpollEvent)) (buffer : list EpollEvent) (num : nat) : outcome (list EpollEvent * nat * St) :=
  match es with
  | [] => Ret (buffer, num, s)
  | (fd, ev) :: es =>
      '(b, s) ← epoll_ready s fd ev;
      if (b : bool) then
        _ ← unwrap (buffer !! num);
        epoll_round s es (<[num := ev]> buffer) (num + 1)
      else epoll_round s es buffer num
  end.

Fixpoint epoll_loop (seen : list (St * Z)) (e : nat) (end_ : Z) (buffer : list EpollEvent) : outcome (Poll (nat * St) * list EpollEvent) :=
  match seen with
  | [] => Ret (Pending, buffer)
  | (s, now) :: seen =>
      ep ← unwrap (nw_epolls (sy_world s) !! e);
      '(buffer, num, s) ← epoll_round s (iter (ep_data ep)) buffer 0;
      if decide (end_ ≤ now ∨ (0 < num)%nat) then Ret (Ready (num, s), buffer) else epoll_loop seen e end_ buffer
  end.

(** A timeout is multiplied by [0x1000_000], taken for the nanoseconds of a millisecond. *)
Definition epoll_deadline (timeout now : Z) : Z :=
  if decide (timeout = usize_max) then usize_max else now +u (timeout *u 0x1000000).

Definition sys_epoll_wait (epfd timeout : Z) (buffer : list EpollEvent) (now : Z) (s : St) (seen : list (St * Z))
    : outcome (result (Poll (nat * St) * list EpollEvent)) :=
  match epoll_of epfd s with
  | Panic => Panic
  | Ret (Err e, _) => Ret (Err e)
  | Ret (Ok e, _) => r ← epoll_loop seen e (epoll_deadline timeout now) buffer; Ret (Ok r)
  end.
End poll.

(** ** Descriptors that are ready *)

Section ready.
Context {N W : Type} (ops : N → INode N W).

(** What the open file at table index [i] answers, as far as [select] is concerned. *)
Definition ready_for (s : Sys N W) (ev i : Z) : bool :=
  match fd_table (sy_fds s) !! Z.to_nat i with
  | Some (Some id) => match poll_file ops s id ev with Ret (Ok res, _) => contains res ev | _ => false end
  | _ => false
  end.

(** Every open file answers [poll], with a result or an error, and is as before afterwards:
    this holds of everything but a terminal, which takes a character from the console. *)
Definition polls (s : Sys N W) : Prop := ∀ id ev, is_Some (sy_files s !! id) → ∃ r, poll_file ops s id ev = Ret (r, s).

Lemma select_ready_spec s ev i : sys_ok_with None None s → polls s → 0 ≤ i < Z.of_nat (length (fd_table (sy_fds s))) →
  select_ready ops s ev i = Ret (ready_for s ev i, s).
Proof.
  intros Hs Hp Hi. unfold select_ready, ready_for.
  destruct (lookup_lt_is_Some_2 (fd_table (sy_fds s)) (Z.to_nat i)) as [o Ho]; [lia|]. rewrite Ho. cbn [unwrap]. step_ret.
  destruct o as [id|]; [|done]. destruct (Hp id ev) as [r ->]; [|by destruct r].
  apply (so_refers _ _ _ Hs). left. left. by eapply list_elem_of_lookup_2.
Qed.

(** Asked for and ready. *)
Definition hits (s : Sys N W) (ev : Z) (req : list Z) (i : Z) : bool := get_bit req i && ready_for s ev i.
Definition hit_count (s : Sys N W) (ev : Z) (req : option (list Z)) (max : Z) : Z :=
  match req with None => 0 | Some req => Z.of_nat (length (filter (λ i, hits s ev req i = true) (seqZ 0 max))) end.

Lemma select_fold s ev clear req num res k : sys_ok_with None None s → polls s → length res = 4%nat → 0 ≤ k ≤ 255 →
  k ≤ Z.of_nat (length (fd_table (sy_fds s))) →
  ∃ res', foldM (select_step ops ev clear req) (seqZ 0 k) (num, res, s) = Ret (num + hit_count s ev (Some req) k, res', s) ∧ length res' = 4%nat ∧
    ∀ i, 0 ≤ i → get_bit res' i = if decide (i < k) then (if get_bit req i then ready_for s ev i else if clear then false else get_bit res i) else get_bit res i.
Proof.
  intros Hs Hp Hlen Hk. assert (0 ≤ k) as Hk0 by lia. revert Hk. pattern k. apply natlike_ind; [| |done]; clear k Hk0.
  - intros _ _. exists res. cbn. rewrite Z.add_0_r. split; [done|]. split; [done|]. intros i Hi. by rewrite decide_False by lia.
  - intros k Hk0 IH Hk Ht. destruct IH as (r1 & E & Hl & Hb); [lia|lia|]. replace (Z.succ k) with (k + 1) by lia.
    rewrite seqZ_snoc, foldM_app, E by done. step_ret. cbn [foldM]. unfold select_step.
    assert (hit_count s ev (Some req) (k + 1) = hit_count s ev (Some req) k + if hits s ev req k then 1 else 0) as Hc.
    { unfold hit_count. rewrite seqZ_snoc, filter_app, length_app by done. rewrite filter_cons, filter_nil.
      case_decide as Hh; [rewrite Hh|destruct (hits s ev req k); [done|]]; cbn [length]; lia. }
    assert (k / 64 < Z.of_nat (length r1)) as Hkl. { rewrite Hl. apply Z.div_lt_upper_bound; lia. }
    rewrite Hc. unfold hits. destruct (get_bit req k) eqn:Er; cbn [negb andb].
    + rewrite select_ready_spec by (done || lia). step_ret. eexists. split; [do 3 f_equal; destruct (ready_for s ev k); lia|].
      split; [by rewrite length_set_bit|]. intros i Hi. rewrite get_set_bit, Hb by (done || lia). destruct (decide (k = i)) as [<-|Hne].
      * rewrite decide_True by lia. by rewrite Er.
      * destruct (decide (i < k)); [by rewrite decide_True by lia|by rewrite decide_False by lia].
    + eexists. split; [do 3 f_equal; lia|]. split; [destruct clear; [by rewrite length_set_bit|done]|]. intros i Hi.
      assert (get_bit (if clear then set_bit r1 k false else r1) i = if decide (k = i) then (if clear then false else get_bit r1 i) else get_bit r1 i) as ->.
      { destruct clear; [by rewrite get_set_bit by (done || lia)|by case_decide]. }
      rewrite Hb by done. destruct (decide (k = i)) as [<-|Hne].
      * rewrite decide_False, decide_True by lia. by rewrite Er.
      * destruct (decide (i < k)); [by rewrite decide_True by lia|by rewrite decide_False by lia].
Qed.

(** The set [res] holds exactly the descriptors below [max] that are asked for and ready. *)
Definition exact_set (s : Sys N W) (ev max : Z) (req : option (list Z)) (res : list Z) : Prop :=
  ∀ i, 0 ≤ i → get_bit res i = match req with Some req => bool_decide (i < max) && hits s ev req i | None => false end.

(** A set in which nothing is left that was not asked for. *)
Definition clean_set (max : Z) (req : option (list Z)) (res : list Z) : Prop :=
  length res = 4%nat ∧
  ∀ i, 0 ≤ i → get_bit res i = true → match req with Some req => i < max ∧ get_bit req i = true | None => False end.

Lemma exact_clean s ev max req res : length res = 4%nat → exact_set s ev max req res → clean_set max req res.
Proof.
  intros Hl He. split; [done|]. intros i Hi Hb. rewrite (He i Hi) in Hb. destruct req as [req|]; [|done].
  apply andb_prop in Hb as [H1 H2]. apply bool_decide_eq_true in H1. by apply andb_prop in H2 as [? _].
Qed.

Lemma zeros_clean max req : clean_set max req (replicate 4 0).
Proof.
  split; [done|]. intros i Hi. unfold get_bit, word_of. assert (default 0 (replicate 4 0 !! Z.to_nat (i / 64)) = 0) as ->; [|by rewrite Z.bits_0].
  by destruct (Z.to_nat (i / 64)) as [|[|[|[|n]]]].
Qed.

Lemma select_set_spec s ev clear max req num res : sys_ok_with None None s → polls s → 0 ≤ max ≤ 255 →
  max ≤ Z.of_nat (length (fd_table (sy_fds s))) → clean_set max req res →
  ∃ res', select_set ops ev clear max req (num, res, s) = Ret (num + hit_count s ev req max, res', s) ∧ length res' = 4%nat ∧ exact_set s ev max req res'.
Proof.
  intros Hs Hp Hm Ht [Hl Hc]. destruct req as [req|]; cbn [select_set].
  - destruct (select_fold s ev clear req num res max) as (res' & E & Hl' & Hb); [done..|]. exists res'. split; [done|]. split; [done|].
    intros i Hi. rewrite Hb by done. unfold hits. case_decide as Him.
    + rewrite bool_decide_true by done. cbn [andb]. destruct (get_bit req i) eqn:Eq; [done|]. destruct clear; [done|].
      destruct (get_bit res i) eqn:Er; [|done]. destruct (Hc i Hi Er). congruence.
    + rewrite bool_decide_false by done. cbn [andb]. destruct (get_bit res i) eqn:Er; [|done]. by destruct (Hc i Hi Er).
  - exists res. cbn. rewrite Z.add_0_r. split; [done|]. split; [done|]. intros i Hi. destruct (get_bit res i) eqn:Er; [|done]. by destruct (Hc i Hi Er).
Qed.

Definition total_hits (s : Sys N W) (max : Z) (r w e : option (list Z)) : Z :=
  hit_count s POLLIN r max + hit_count s POLLOUT w max + hit_count s POLLERR e max.

Lemma select_round_spec s max r w e res : sys_ok_with None None s → polls s → 0 ≤ max ≤ 255 →
  max ≤ Z.of_nat (length (fd_table (sy_fds s))) → clean_set max r (set_r res) → clean_set max w (set_w res) → clean_set max e (set_e res) →
  ∃ res', select_round ops s max r w e res = Ret (total_hits s max r w e, res', s) ∧
    (clean_set max r (set_r res') ∧ clean_set max w (set_w res') ∧ clean_set max e (set_e res')) ∧
    exact_set s POLLIN max r (set_r res') ∧ exact_set s POLLOUT max w (set_w res') ∧ exact_set s POLLERR max e (set_e res').
Proof.
  intros Hs Hp Hm Ht Hr Hw He. unfold select_round.
  destruct (select_set_spec s POLLIN true max r 0 (set_r res)) as (r' & -> & Lr & Er); [done..|]. step_ret.
  destruct (select_set_spec s POLLOUT false max w (0 + hit_count s POLLIN r max) (set_w res)) as (w' & -> & Lw & Ew); [done..|]. step_ret.
  destruct (select_set_spec s POLLERR false max e (0 + hit_count s POLLIN r max + hit_count s POLLOUT w max) (set_e res)) as (e' & -> & Le & Ee); [done..|].
  step_ret. exists (mkSets r' w' e'). split; [by unfold total_hits|]. cbn [set_r set_w set_e].
  split; [split_and!; by eapply exact_clean|done].
Qed.

Lemma hit_count_nonneg s ev req max : 0 ≤ hit_count s ev req max.
Proof. unfold hit_count. destruct req; lia. Qed.

(** The states a waiting call may meet. *)
Definition selectable (x : Sys N W * Z) : Prop :=
  sys_ok_with None None x.1 ∧ polls x.1 ∧ (255 ≤ length (fd_table (sy_fds x.1)))%nat.

Lemma select_loop_spec seen deadline max r w e : ∀ res, Forall selectable seen → 0 ≤ max ≤ 255 →
  clean_set max r (set_r res) → clean_set max w (set_w res) → clean_set max e (set_e res) →
  match select_loop ops seen deadline max r w e res with
  | Ret (Ready (n, res', s)) => ∃ t, (s, t) ∈ seen ∧ n = total_hits s max r w e ∧ (n = 0 → deadline < t) ∧
      exact_set s POLLIN max r (set_r res') ∧ exact_set s POLLOUT max w (set_w res') ∧ exact_set s POLLERR max e (set_e res')
  | Ret Pending => Forall (λ x, total_hits x.1 max r w e = 0 ∧ x.2 ≤ deadline) seen
  | Panic => False
  end.
Proof.
  induction seen as [|[s t] seen IH]; intros res Hseen Hm Hr Hw He; [constructor|]. apply Forall_cons in Hseen as [(Hs & Hp & Ht) Hseen].
  cbn [fst] in *. cbn [select_loop].
  destruct (select_round_spec s max r w e res) as (res' & -> & (Cr & Cw & Ce) & Ex); [done|done|done|lia|done..|]. step_ret.
  destruct (decide (total_hits s max r w e ≠ 0)) as [Hn|Hn].
  - exists t. split; [by left|]. by split.
  - apply dec_stable in Hn. case_decide as Hd.
    + exists t. split; [by left|]. split; [done|]. by split.
    + specialize (IH res' Hseen Hm Cr Cw Ce). destruct (select_loop _ _ _ _ _ _ _ _) as [[[[n res''] s']|]|]; [| |done].
      * destruct IH as (t' & Hin & Hrest). exists t'. split; [by right|done].
      * constructor; [|done]. cbn. split; [done|lia].
Qed.
End ready.


(** ** Epoll *)

Section epoll.
Context {N W : Type} (ops : N → INode N W).

(** A registered descriptor that is open and reports some event. *)
Definition epoll_hit (s : Sys N W) (e : Z * EpollEvent) : bool :=
  match get_fd (sy_fds s) e.1 with
  | Ret (Some id) => match poll_file ops s id (to_poll (ee_events e.2)) with Ret (Ok p, _) => bool_decide (p ≠ POLL_NONE) | _ => false end
  | _ => false
  end.

Lemma epoll_ready_spec s fd ev : sys_ok_with None None s → polls ops s → epoll_ready ops s fd ev = Ret (epoll_hit s (fd, ev), s).
Proof.
  intros Hs Hp. unfold epoll_ready, epoll_hit. cbn [fst snd]. destruct (get_fd_ok _ _ s fd Hs) as (lim & _ & _ & E).
  destruct (get_fd (sy_fds s) fd) as [[id|]|] eqn:Eg; [|done|done]. step_ret.
  destruct (Hp id (to_poll (ee_events ev))) as [r ->]; [by eapply descriptor_file|by destruct r].
Qed.

Lemma epoll_round_spec s es : ∀ buffer num, sys_ok_with None None s → polls ops s → (num ≤ length buffer)%nat →
  let hs := filter (λ e, epoll_hit s e = true) es in
  epoll_round ops s es buffer num =
    if decide (num + length hs ≤ length buffer)%nat then
      Ret (take num buffer ++ hs.*2 ++ drop (num + length hs) buffer, (num + length hs)%nat, s)
    else Panic.
Proof.
  induction es as [|[fd ev] es IH]; intros buffer num Hs Hp Hn; cbn [epoll_round].
  - cbn. rewrite Nat.add_0_r, decide_True by done. by rewrite take_drop.
  - rewrite epoll_ready_spec by done. step_ret. rewrite filter_cons. destruct (epoll_hit s (fd, ev)) eqn:Eh.
    + rewrite (decide_True (P := true = true)) by done. cbn [length fmap list_fmap snd]. change (list_fmap _ _ snd ?l) with (l.*2).
      set (hs := filter _ es) in *. destruct (decide (num < length buffer)%nat) as [Hlt|Hge].
      * destruct (lookup_lt_is_Some_2 buffer num Hlt) as [x Hx]. rewrite Hx. cbn [unwrap]. step_ret.
        rewrite IH by (rewrite ?length_insert; done || lia). fold hs. rewrite length_insert.
        replace (num + 1 + length hs)%nat with (num + S (length hs))%nat by lia. case_decide; [|done]. f_equal. f_equal.
        rewrite Nat.add_1_r, (take_S_r _ num ev) by (by apply list_lookup_insert_eq).
        rewrite take_insert_ge by lia. rewrite drop_insert_lt by lia. by rewrite <- app_assoc.
      * rewrite lookup_ge_None_2 by lia. cbn. by rewrite decide_False by lia.
    + rewrite (decide_False (P := false = true)) by done. by apply IH.
Qed.
End epoll.

(** [epoll_wait] reports each registered descriptor that is open and ready once, in the order
    of the table of registrations, whatever that order is, and panics the kernel when there are
    more of them than the caller's array has room for. *)
Theorem epoll_wait_reports {N W} (ops : N → INode N W) (iter : gmap Z EpollEvent → list (Z * EpollEvent)) (s0 s : Sys N W)
    (seen : list (Sys N W * Z)) (epfd timeout now t : Z) (e : nat) (ep : EpollFile) (buffer : list EpollEvent) :
  (∀ m, iter m ≡ₚ map_to_list m) →
  epoll_of epfd s0 = Ret (Ok e, s0) → sys_ok_with None None s → polls ops s → nw_epolls (sy_world s) !! e = Some ep →
  let hs := filter (λ x, epoll_hit ops s x = true) (iter (ep_data ep)) in
  (∀ fd ev, (fd, ev) ∈ hs ↔ ep_data ep !! fd = Some ev ∧ epoll_hit ops s (fd, ev) = true) ∧
  (hs ≠ [] → (length hs ≤ length buffer)%nat →
    sys_epoll_wait ops iter epfd timeout buffer now s0 ((s, t) :: seen) =
      Ret (Ok (Ready (length hs, s), hs.*2 ++ drop (length hs) buffer))) ∧
  ((length buffer < length hs)%nat → sys_epoll_wait ops iter epfd timeout buffer now s0 ((s, t) :: seen) = Panic).
Proof.
  intros Hit He Hs Hp Hep hs. split; [|].
  - intros fd ev. subst hs. rewrite list_elem_of_filter, Hit, elem_of_map_to_list. naive_solver.
  - unfold sys_epoll_wait. rewrite He. cbn [epoll_loop]. rewrite Hep. cbn [unwrap]. step_ret.
    pose proof (epoll_round_spec ops s (iter (ep_data ep)) buffer 0 Hs Hp ltac:(lia)) as Er. fold hs in Er. cbn [Nat.add] in Er. rewrite Er.
    rewrite take_0. cbn [app]. split.
    + intros Hne Hle. rewrite decide_True by done. step_ret. rewrite decide_True; [done|]. right. destruct hs; [done|cbn; lia].
    + intros Hgt. by rewrite decide_False by lia.
Qed.

(** ** Ppoll *)

(** What [ppoll] stores for an entry, when the file answers. *)
Definition ppoll_answer {N W} (ops : N → INode N W) (s : Sys N W) (e : PollFd) : option Z :=
  match get_fd (sy_fds s) (pf_fd e) with
  | Ret (Some id) => match poll_file ops s id (pf_events e) with Ret (Ok rev, _) => Some rev | _ => None end
  | Ret None => Some POLL_NONE
  | Panic => None
  end.

Lemma ppoll_one_spec {N W} (ops : N → INode N W) (s : Sys N W) e : sys_ok_with None None s → polls ops s →
  ppoll_one ops s e = match ppoll_answer ops s e with Some rev => Ret (mkPollFd (pf_fd e) (pf_events e) rev, s) | None => Panic end.
Proof.
  intros Hs Hp. unfold ppoll_one, ppoll_answer. destruct (get_fd _ _) as [[id|]|] eqn:Eg; [|done|done]. step_ret.
  destruct (Hp id (pf_events e)) as [r ->]; [by eapply descriptor_file|by destruct r].
Qed.

Lemma ppoll_round_spec {N W} (ops : N → INode N W) (s : Sys N W) fds : sys_ok_with None None s → polls ops s → ∀ num,
  ppoll_round ops s fds num = match mapM (ppoll_answer ops s) fds with
    | Some revs => Ret (zip_with (λ e r, mkPollFd (pf_fd e) (pf_events e) r) fds revs, num + Z.of_nat (length (filter (λ r, r ≠ POLL_NONE) revs)), s)
    | None => Panic end.
Proof.
  intros Hs Hp. induction fds as [|e fds IH]; intros num; [cbn; by rewrite Z.add_0_r|].
  change (mapM (ppoll_answer ops s) (e :: fds)) with
    (match ppoll_answer ops s e with Some rev => match mapM (ppoll_answer ops s) fds with Some revs => Some (rev :: revs) | None => None end | None => None end).
  cbn [ppoll_round]. rewrite ppoll_one_spec by done. destruct (ppoll_answer ops s e) as [rev|]; [|done]. step_ret. cbn [pf_revents].
  rewrite IH. destruct (mapM (ppoll_answer ops s) fds) as [revs|]; [|done].
  step_ret. rewrite filter_cons. do 3 f_equal. case_decide; cbn [length]; lia.
Qed.

(** [ppoll] looks at every entry: when it returns at once, each entry has the events its file
    reports (none for a closed descriptor), and the result is the number of entries with an
    event; but the kernel panics as soon as one entry is an open file that does not implement
    [poll], which includes every regular file. *)
Theorem ppoll_answers {N W} (ops : N → INode N W) (s : Sys N W) (seen : list (Sys N W * Z)) (t now : Z) (fds : list PollFd) (timeout : option TimeSpec) :
  sys_ok_with None None s → polls ops s →
  (∀ revs, mapM (ppoll_answer ops s) fds = Some revs →
     let n := Z.of_nat (length (filter (λ r, r ≠ POLL_NONE) revs)) in 0 < n →
     sys_ppoll ops fds timeout now ((s, t) :: seen) =
       Ret (Ready (n, s), zip_with (λ e r, mkPollFd (pf_fd e) (pf_events e) r) fds revs)) ∧
  (∀ e, e ∈ fds → ppoll_answer ops s e = None → sys_ppoll ops fds timeout now ((s, t) :: seen) = Panic).
Proof.
  intros Hs Hp. unfold sys_ppoll. cbn [ppoll_loop]. rewrite ppoll_round_spec by done. split.
  - intros revs Hr Hn. rewrite Hr. step_ret. rewrite Z.add_0_l. by rewrite decide_True by (by right).
  - intros e He Ha. assert (mapM (ppoll_answer ops s) fds = None) as ->; [|done].
    apply mapM_None. apply Exists_exists. by exists e.
Qed.

(** ** Witnesses: a process whose descriptors are the receiving end of a pipe with two bytes *)

Definition demo_pipe_sys : Sys nat (list Z) :=
  mkSys {[0%nat := mkFile (N_rx 0%nat) [] 0 O_RDWR; 1%nat := mkFile (N_epoll 0%nat) [] 0 O_RDWR]}
    (mkFds (FileTable_new 0%nat) rlimits_new) 1 0 [] [] (mkNodeWorld [] {[0%nat := mkPipe [1; 2] 0]} {[0%nat := mkEpollFile {[2 := mkEpollEvent 1 7]} 0]}).

Lemma demo_pipe_sys_ok : sys_ok_with None None demo_pipe_sys.
Proof.
  constructor; cbn [demo_pipe_sys sy_files sy_fds sy_cwd sy_held sy_mounted sy_world]; [| | |done| |done].
  - intros id. unfold refers. cbn [demo_pipe_sys sy_fds sy_cwd sy_held fd_table]. unfold FileTable_new.
    rewrite elem_of_app, !elem_of_replicate, lookup_insert_is_Some, lookup_singleton_is_Some, elem_of_nil. split.
    + intros [[[[[= ->] _]|[? _]]|[->|?]]|?]; [by left|done|by right|done|done].
    + intros [<-|[_ <-]]; left; [left; left; done|right; by left].
  - intros id f [[<- <-]|[_ [<- <-]%lookup_singleton_Some]]%lookup_insert_Some; by eexists.
  - cbn [nw_pipes]. intros p q [<- <-]%lookup_singleton_Some. reflexivity.
  - exists FILE_MAX. split; [done|]. vm_compute. discriminate.
Qed.

Lemma demo_pipe_polls : polls demo_ops demo_pipe_sys.
Proof.
  intros id ev [f Hf]. cbn [demo_pipe_sys sy_files] in Hf. unfold poll_file.
  apply lookup_insert_Some in Hf as [[<- <-]|[_ [<- <-]%lookup_singleton_Some]]; eexists; vm_compute; reflexivity.
Qed.


Lemma epoll_wait_reports_witness :
  sys_epoll_wait demo_ops map_to_list 0 0 [] 0 (set_fds (mkFds [Some 1%nat] rlimits_new) demo_pipe_sys) [(demo_pipe_sys, 0)] = Panic.
Proof.
  destruct (epoll_wait_reports demo_ops map_to_list (set_fds (mkFds [Some 1%nat] rlimits_new) demo_pipe_sys) demo_pipe_sys [] 0 0 0 0 0%nat
    (mkEpollFile {[2 := mkEpollEvent 1 7]} 0) []) as (_ & _ & H);
    [reflexivity|vm_compute; reflexivity|exact demo_pipe_sys_ok|exact demo_pipe_polls|reflexivity|].
  apply H. vm_compute. constructor.
Defined.

Lemma ppoll_answers_witness : sys_ppoll demo_ops [mkPollFd 1 POLLIN 0] None 0 [(set_fds (mkFds [Some 0%nat; Some 1%nat] rlimits_new) demo_pipe_sys, 0)] = Panic.
Proof. vm_compute. reflexivity. Qed.
