(* ===== verification/Packet.v ===== *)
(** * Network packets

    Models the address, header and checksum code of vendor/lose-net-stack (addr.rs,
    consts.rs, net.rs, utils.rs, packets/arp.rs) and the packets that udp.rs and tcp.rs of
    its connection module build.  A header is a record; its bytes in a packet are the fields
    in order, since every header is packed, each field least significant byte first, so that
    a value stored with [to_be] is most significant byte first on the wire.  The theorems
    show that headers read back as they were written and that the checksum verifies. *)

From S2P Require Import Prelude.

(** ** Addresses *)

Record Ipv4Addr := Ip4 { oct0 : Z; oct1 : Z; oct2 : Z; oct3 : Z }.

#[export] Instance Ipv4Addr_eq_dec : EqDecision Ipv4Addr.
Proof. solve_decision. Defined.

#[export] Instance Ipv4Addr_countable : Countable Ipv4Addr.
Proof. apply (inj_countable' (λ a, (oct0 a, oct1 a, oct2 a, oct3 a)) (λ '(a, b, c, d), Ip4 a b c d)). by intros []. Defined.

Definition octets (a : Ipv4Addr) : list Z := [oct0 a; oct1 a; oct2 a; oct3 a].
Definition is_loopback (a : Ipv4Addr) : bool := bool_decide (oct0 a = 127).
Definition is_unspecified (a : Ipv4Addr) : bool := bool_decide (a = Ip4 0 0 0 0).
Definition is_private (a : Ipv4Addr) : bool :=
  bool_decide (oct0 a = 10 ∨ (oct0 a = 172 ∧ 16 ≤ oct1 a ≤ 31) ∨ (oct0 a = 192 ∧ oct1 a = 168)).

Record SocketAddrV4 := mkAddr { sa_ip : Ipv4Addr; sa_port : Z }.

#[export] Instance SocketAddrV4_eq_dec : EqDecision SocketAddrV4.
Proof. solve_decision. Defined.

(** [MacAddress]: six bytes. *)
Abbreviation MacAddress := (list Z) (only parsing).
Definition BROADCAST_MAC : MacAddress := [255; 255; 255; 255; 255; 255].

(** [x.to_be()] of an [n]-byte word on a little-endian machine. *)
Definition to_be (n : nat) (x : Z) : Z := le_value (rev (le_bytes n x)).

(** ** Headers *)

Inductive EthRtype := RT_IP | RT_ARP | RT_Unknown.
Definition EthRtype_code (t : EthRtype) : Z := match t with RT_IP => 0x0008 | RT_ARP => 0x0608 | RT_Unknown => 0x0609 end.
(** The enumeration read from memory; a code that is none of its values counts as unknown. *)
Definition EthRtype_read (c : Z) : EthRtype :=
  if decide (c = 0x0008) then RT_IP else if decide (c = 0x0608) then RT_ARP else RT_Unknown.

Inductive IpProtocal := ICMP | IGMP | TCP | UDP | Proto_Unknown.
Definition IpProtocal_code (p : IpProtocal) : Z := match p with ICMP => 1 | IGMP => 2 | TCP => 6 | UDP => 17 | Proto_Unknown => 18 end.
Definition IpProtocal_read (c : Z) : IpProtocal :=
  if decide (c = 1) then ICMP else if decide (c = 2) then IGMP else if decide (c = 6) then TCP
  else if decide (c = 17) then UDP else Proto_Unknown.

Definition IP_HEADER_VHL : Z := Z.lor (Z.shiftl 4 4) (Z.shiftr 20 2).

Definition TcpFlags_table : list (string * Z) :=
  [("NONE", 0); ("F", 1); ("S", 2); ("R", 4); ("P", 8); ("A", 16); ("U", 32)].
Definition TF_F : Z := 1.
Definition TF_S : Z := 2.
Definition TF_P : Z := 8.
Definition TF_A : Z := 16.

Record Eth := mkEth { dhost : MacAddress; shost : MacAddress; rtype : EthRtype }.
Record Arp := mkArp {
  httype : Z; pttype : EthRtype; hlen : Z; plen : Z; op : Z;
  sha : MacAddress; spa : Ipv4Addr; tha : MacAddress; tpa : Ipv4Addr;
}.
Record Ip := mkIp {
  vhl : Z; tos : Z; ip_len : Z; ip_id : Z; off : Z; ttl : Z; pro : IpProtocal; ip_sum : Z; src : Ipv4Addr; dst : Ipv4Addr;
}.
Record Udp := mkUdp { u_sport : Z; u_dport : Z; ulen : Z; u_sum : Z }.
Record Tcp := mkTcp {
  t_sport : Z; t_dport : Z; t_seq : Z; t_ack : Z; t_offset : Z; t_flags : Z; t_win : Z; t_sum : Z; t_urg : Z;
}.

Definition ETH_LEN : nat := 14.
Definition ARP_LEN : nat := 28.
Definition IP_LEN : nat := 20.
Definition UDP_LEN : nat := 8.
Definition TCP_LEN : nat := 20.

(** The bytes of a header ... *)
Definition Eth_bytes (h : Eth) : list Z := dhost h ++ shost h ++ le_bytes 2 (EthRtype_code (rtype h)).
Definition Arp_bytes (h : Arp) : list Z :=
  le_bytes 2 (httype h) ++ le_bytes 2 (EthRtype_code (pttype h)) ++ [hlen h; plen h] ++ le_bytes 2 (op h) ++
  sha h ++ octets (spa h) ++ tha h ++ octets (tpa h).
Definition Ip_bytes (h : Ip) : list Z :=
  [vhl h; tos h] ++ le_bytes 2 (ip_len h) ++ le_bytes 2 (ip_id h) ++ le_bytes 2 (off h) ++ [ttl h; IpProtocal_code (pro h)] ++
  le_bytes 2 (ip_sum h) ++ octets (src h) ++ octets (dst h).
Definition Udp_bytes (h : Udp) : list Z :=
  le_bytes 2 (u_sport h) ++ le_bytes 2 (u_dport h) ++ le_bytes 2 (ulen h) ++ le_bytes 2 (u_sum h).
Definition Tcp_bytes (h : Tcp) : list Z :=
  le_bytes 2 (t_sport h) ++ le_bytes 2 (t_dport h) ++ le_bytes 4 (t_seq h) ++ le_bytes 4 (t_ack h) ++ [t_offset h; t_flags h] ++
  le_bytes 2 (t_win h) ++ le_bytes 2 (t_sum h) ++ le_bytes 2 (t_urg h).

(** ... and the header in the bytes. *)
Definition part (i n : nat) (b : list Z) : list Z := take n (drop i b).
Definition word (i n : nat) (b : list Z) : Z := le_value (part i n b).
Definition ip_at (i : nat) (b : list Z) : Ipv4Addr := Ip4 (word i 1 b) (word (i + 1) 1 b) (word (i + 2) 1 b) (word (i + 3) 1 b).

Definition Eth_read (b : list Z) : Eth := mkEth (part 0 6 b) (part 6 6 b) (EthRtype_read (word 12 2 b)).
Definition Arp_read (b : list Z) : Arp :=
  mkArp (word 0 2 b) (EthRtype_read (word 2 2 b)) (word 4 1 b) (word 5 1 b) (word 6 2 b) (part 8 6 b) (ip_at 14 b) (part 18 6 b) (ip_at 24 b).
Definition Ip_read (b : list Z) : Ip :=
  mkIp (word 0 1 b) (word 1 1 b) (word 2 2 b) (word 4 2 b) (word 6 2 b) (word 8 1 b) (IpProtocal_read (word 9 1 b)) (word 10 2 b)
    (ip_at 12 b) (ip_at 16 b).
Definition Udp_read (b : list Z) : Udp := mkUdp (word 0 2 b) (word 2 2 b) (word 4 2 b) (word 6 2 b).
Definition Tcp_read (b : list Z) : Tcp :=
  mkTcp (word 0 2 b) (word 2 2 b) (word 4 4 b) (word 8 4 b) (word 12 1 b) (word 13 1 b) (word 14 2 b) (word 16 2 b) (word 18 2 b).

(** [UnsafeRefIter::next]: the header at the front of the bytes, if they are enough, and the rest. *)
Definition iter_next {T} (len : nat) (read : list Z → T) (data : list Z) : option (T * list Z) :=
  if decide (len ≤ length data)%nat then Some (read (take len data), drop len data) else None.

(** ** The checksum *)

Definition U32 : Z := 4294967296.
Definition u32 (z : Z) : Z := z mod U32.

(** The two folding statements, on a 32-bit sum. *)
Definition fold_sum (sum : Z) : Z :=
  let sum := u32 (Z.land sum 0xFFFF + Z.shiftr sum 16) in u32 (sum + Z.shiftr sum 16).

Fixpoint check_sum_loop (data : list Z) (sum : Z) : Z :=
  match data with
  | a :: b :: data =>
      let sum := u32 (sum + le_value [a; b]) in
      check_sum_loop data (if decide (0xffff < sum) then fold_sum sum else sum)
  | [a] => u32 (sum + a)
  | [] => sum
  end.

(** [!sum as u16]. *)
Definition check_sum (data : list Z) (sum : Z) : Z := 65535 - fold_sum (check_sum_loop data sum) mod 65536.

(** ** Packets that are sent *)

Definition u16 (z : Z) : Z := z mod 65536.
Definition blen (b : list Z) : Z := Z.of_nat (length b).

(** The IP header both protocols use; the sum is computed while its field is zero. *)
Definition ip_header (p : IpProtocal) (from to : Ipv4Addr) (len : Z) : Ip :=
  let h sum := mkIp IP_HEADER_VHL 0 (to_be 2 (u16 len)) 0 0 100 p sum from to in
  h (check_sum (Ip_bytes (h 0)) 0).

Definition udp_packet (shost dhost : MacAddress) (local remote : SocketAddrV4) (buf : list Z) : list Z :=
  Eth_bytes (mkEth dhost shost RT_IP) ++
  Ip_bytes (ip_header UDP (sa_ip local) (sa_ip remote) (blen buf + Z.of_nat UDP_LEN + Z.of_nat IP_LEN)) ++
  Udp_bytes (mkUdp (to_be 2 (sa_port local)) (to_be 2 (sa_port remote)) (to_be 2 (u16 (blen buf + Z.of_nat UDP_LEN))) 0) ++ buf.

(** The sum over the pseudo header, in 32 bits. *)
Definition tcp_pseudo_sum (local remote : Ipv4Addr) (len : Z) : Z :=
  let sum := le_value (octets local) in
  let sum := u32 (sum + le_value (octets remote)) in
  let sum := u32 (sum + to_be 2 (IpProtocal_code TCP)) in
  u32 (sum + to_be 2 (u16 len)).

Definition tcp_packet (shost dhost : MacAddress) (local remote : SocketAddrV4) (seq ack window urg flags : Z) (buf : list Z) : list Z :=
  let h sum := mkTcp (to_be 2 (sa_port local)) (to_be 2 (sa_port remote)) (to_be 4 seq) (to_be 4 ack) (Z.shiftl 5 4) flags
                 (to_be 2 window) sum urg in
  Eth_bytes (mkEth dhost shost RT_IP) ++
  Ip_bytes (ip_header TCP (sa_ip local) (sa_ip remote) (blen buf + Z.of_nat TCP_LEN + Z.of_nat IP_LEN)) ++
  Tcp_bytes (h (check_sum (Tcp_bytes (h 0) ++ buf)
                  (tcp_pseudo_sum (sa_ip local) (sa_ip remote) (blen buf + Z.of_nat TCP_LEN)))) ++ buf.

(** ** [ArpPacket] *)

Inductive ArpType := Arp_Request | Arp_Reply | Arp_Unsupported.
Definition ArpType_form_u16 (c : Z) : ArpType := if decide (c = 1) then Arp_Request else if decide (c = 2) then Arp_Reply else Arp_Unsupported.
Definition ArpType_to_u16 (t : ArpType) : Z := match t with Arp_Request => 1 | Arp_Reply => 2 | Arp_Unsupported => 0 end.

Record ArpPacket := mkArpPacket {
  ap_sender_ip : Ipv4Addr; ap_sender_mac : MacAddress; ap_target_ip : Ipv4Addr; ap_target_mac : MacAddress; ap_rtype : ArpType;
}.

Definition ArpPacket_build_data (p : ArpPacket) : list Z :=
  Eth_bytes (mkEth BROADCAST_MAC (ap_sender_mac p) RT_ARP) ++
  Arp_bytes (mkArp (to_be 2 1) RT_IP 6 4 (to_be 2 (ArpType_to_u16 (ap_rtype p))) (ap_sender_mac p) (ap_sender_ip p)
    (ap_target_mac p) (ap_target_ip p)).

Definition ArpPacket_reply (p : ArpPacket) (local_ip : Ipv4Addr) (local_mac : MacAddress) : option ArpPacket :=
  match ap_rtype p with
  | Arp_Request => Some (mkArpPacket local_ip local_mac (ap_sender_ip p) (ap_sender_mac p) Arp_Reply)
  | _ => None
  end.

(** ** Well-formed data *)

Definition is_byte (b : Z) : Prop := 0 ≤ b < 256.
Definition ip_ok (a : Ipv4Addr) : Prop := Forall is_byte (octets a).
Definition mac_ok (m : MacAddress) : Prop := length m = 6%nat ∧ Forall is_byte m.
Definition addr_ok (a : SocketAddrV4) : Prop := ip_ok (sa_ip a) ∧ 0 ≤ sa_port a < 65536.

#[export] Instance is_byte_dec b : Decision (is_byte b).
Proof. unfold is_byte. apply _. Defined.

(** ** Words and bytes *)

Lemma le_bytes_byte n z : Forall is_byte (le_bytes n z).
Proof. revert z. induction n as [|n IH]; intros z; cbn; constructor; [|apply IH]. apply Z.mod_pos_bound. lia. Qed.

Lemma le_bytes_value l : Forall is_byte l → le_bytes (length l) (le_value l) = l.
Proof.
  induction 1 as [|b l Hb _ IH]; [done|]. unfold is_byte in Hb. cbn [length le_bytes le_value].
  rewrite (Z.mul_comm 256), Z.mod_add, Z.div_add, Z.mod_small, Z.div_small, Z.add_0_l by lia. by rewrite IH.
Qed.

Lemma le_value_range l : Forall is_byte l → 0 ≤ le_value l < 256 ^ Z.of_nat (length l).
Proof.
  induction 1 as [|b l Hb _ IH]; [done|]. unfold is_byte in Hb. cbn [length le_value]. rewrite Nat2Z.inj_succ, Z.pow_succ_r by lia. lia.
Qed.

(** Swapping the bytes twice gives the word back. *)
Lemma to_be_be n x : 0 ≤ x < 256 ^ Z.of_nat n → to_be n (to_be n x) = x.
Proof.
  intros Hx. unfold to_be at 1. assert (length (rev (le_bytes n x)) = n) as Hl by (by rewrite length_rev, length_le_bytes).
  unfold to_be. rewrite <- Hl at 1. rewrite le_bytes_value by (apply Forall_rev, le_bytes_byte). rewrite rev_involutive. by apply le_value_bytes.
Qed.

Lemma to_be_range n x : 0 ≤ to_be n x < 256 ^ Z.of_nat n.
Proof.
  unfold to_be. pose proof (le_value_range (rev (le_bytes n x))) as H. rewrite length_rev, length_le_bytes in H. apply H.
  apply Forall_rev, le_bytes_byte.
Qed.

Lemma u16_range x : 0 ≤ u16 x < 65536.
Proof. apply Z.mod_pos_bound. lia. Qed.

(** ** Headers read back *)

Lemma le2 x : 0 ≤ x < 65536 → x mod 256 + 256 * ((x / 256) mod 256) = x.
Proof. intros Hx. rewrite <- (le_value_bytes 2 x Hx) at 3. cbn. lia. Qed.
Lemma le4 x : 0 ≤ x < 4294967296 →
  x mod 256 + 256 * ((x / 256) mod 256 + 256 * ((x / 256 / 256) mod 256 + 256 * ((x / 256 / 256 / 256) mod 256))) = x.
Proof. intros Hx. rewrite <- (le_value_bytes 4 x Hx) at 5. cbn. lia. Qed.
Lemma le1 x : x + 256 * 0 = x.
Proof. lia. Qed.

(** Evaluates the words of a packet whose bytes are listed. *)
Ltac read_header :=
  unfold ip_at, word, part, octets;
  cbn [app le_bytes take drop le_value Nat.add length oct0 oct1 oct2 oct3];
  rewrite ?le1, ?le2, ?le4 by (try apply to_be_range; try apply u16_range; lia).

Lemma EthRtype_read_code t : EthRtype_read (EthRtype_code t) = t.
Proof. by destruct t. Qed.
Lemma IpProtocal_read_code p : IpProtocal_read (IpProtocal_code p) = p.
Proof. by destruct p. Qed.

Lemma list6 {A} (l : list A) : length l = 6%nat → ∃ a b c d e f, l = [a; b; c; d; e; f].
Proof. destruct l as [|a [|b [|c [|d [|e [|f []]]]]]]; try done. intros _. by eexists _, _, _, _, _, _. Qed.

Lemma Eth_read_bytes h : length (dhost h) = 6%nat → length (shost h) = 6%nat →
  Eth_read (Eth_bytes h) = h ∧ length (Eth_bytes h) = ETH_LEN.
Proof.
  destruct h as [d s t]. cbn [dhost shost]. intros (?&?&?&?&?&?&->)%list6 (?&?&?&?&?&?&->)%list6. split; [|done].
  unfold Eth_read, Eth_bytes. cbn [dhost shost rtype]. read_header. by destruct t.
Qed.

Lemma Ip_read_bytes h : 0 ≤ ip_len h < 65536 → 0 ≤ ip_id h < 65536 → 0 ≤ off h < 65536 → 0 ≤ ip_sum h < 65536 →
  Ip_read (Ip_bytes h) = h ∧ length (Ip_bytes h) = IP_LEN.
Proof.
  destruct h as [v t l i o tt p s [] []]. cbn [ip_len ip_id off ip_sum]. intros. split; [|done].
  unfold Ip_read, Ip_bytes. cbn [vhl tos ip_len ip_id off ttl pro ip_sum src dst octets oct0 oct1 oct2 oct3]. read_header.
  by rewrite IpProtocal_read_code.
Qed.

Lemma Udp_read_bytes h : 0 ≤ u_sport h < 65536 → 0 ≤ u_dport h < 65536 → 0 ≤ ulen h < 65536 → 0 ≤ u_sum h < 65536 →
  Udp_read (Udp_bytes h) = h ∧ length (Udp_bytes h) = UDP_LEN.
Proof.
  destruct h as [a b c d]. cbn [u_sport u_dport ulen u_sum]. intros. split; [|done]. unfold Udp_read, Udp_bytes.
  cbn [u_sport u_dport ulen u_sum]. by read_header.
Qed.

Lemma Arp_read_bytes h : 0 ≤ httype h < 65536 → 0 ≤ op h < 65536 → length (sha h) = 6%nat → length (tha h) = 6%nat →
  Arp_read (Arp_bytes h) = h ∧ length (Arp_bytes h) = ARP_LEN.
Proof.
  destruct h as [a p hl pl o s [] t []]. cbn [httype op sha tha]. intros ?? (?&?&?&?&?&?&->)%list6 (?&?&?&?&?&?&->)%list6. split; [|done].
  unfold Arp_read, Arp_bytes. cbn [httype pttype hlen plen op sha spa tha tpa octets oct0 oct1 oct2 oct3]. destruct p; cbn [EthRtype_code]; by read_header.
Qed.

Lemma iter_next_app {T} len (read : list Z → T) h rest : length h = len → iter_next len read (h ++ rest) = Some (read h, rest).
Proof. intros <-. unfold iter_next. rewrite decide_True by (rewrite length_app; lia). by rewrite take_app_length, drop_app_length. Qed.

(** ** The checksum verifies *)

(** The sum of the 16-bit words. *)
Fixpoint words (data : list Z) : Z :=
  match data with a :: b :: data => le_value [a; b] + words data | [a] => a | [] => 0 end.

Lemma fold_sum_small s : 0 ≤ s ≤ 0x1fffe → fold_sum s = if decide (0xffff < s) then s - 65535 else s.
Proof.
  intros Hs. unfold fold_sum, u32. rewrite (Z.land_ones s 16 ltac:(lia) : Z.land s 0xFFFF = _), Z.shiftr_div_pow2 by lia.
  change (2 ^ 16) with 65536. case_decide as Hd.
  - assert (s / 65536 = 1) as E1 by (symmetry; apply (Z.div_unique _ _ 1 (s - 65536)); lia).
    assert (s mod 65536 = s - 65536) as E2 by (symmetry; apply (Z.mod_unique _ _ 1); lia).
    rewrite E1, E2. rewrite (Z.mod_small (_ + 1)) by (unfold U32; lia). rewrite Z.shiftr_div_pow2, Z.div_small by (change (2 ^ 16) with 65536; lia).
    rewrite Z.mod_small by (unfold U32; lia). lia.
  - rewrite (Z.div_small s 65536), (Z.mod_small s 65536) by lia. rewrite Z.add_0_r, (Z.mod_small s U32) by (unfold U32; lia).
    rewrite Z.shiftr_div_pow2, Z.div_small by (change (2 ^ 16) with 65536; lia). rewrite Z.mod_small by (unfold U32; lia). lia.
Qed.

Lemma word_range a b : is_byte a → is_byte b → 0 ≤ le_value [a; b] ≤ 65535.
Proof. unfold is_byte. cbn [le_value]. lia. Qed.

Lemma words_nonneg data : Forall is_byte data → 0 ≤ words data.
Proof.
  induction data as [|a|a b data IH _] using list_pair_ind; intros Hb; [done| |].
  - apply Forall_cons in Hb as [Hb _]. unfold is_byte in Hb. cbn. lia.
  - apply Forall_cons in Hb as [Ha [Hb Hd]%Forall_cons]. pose proof (word_range a b Ha Hb). specialize (IH Hd). cbn [words]. lia.
Qed.

(** From a 16-bit sum the loop adds the words modulo 65535. *)
Lemma check_sum_loop_spec data sum : Forall is_byte data → 0 ≤ sum ≤ 65535 →
  let r := check_sum_loop data sum in
  0 ≤ r ≤ 65535 + 255 ∧ (65535 | sum + words data - r) ∧ (0 < sum + words data → 0 < r).
Proof.
  revert sum. induction data as [|a|a b data IH _] using list_pair_ind; intros sum Hb Hs r.
  - subst r. cbn. split; [lia|]. split; [exists 0; lia|lia].
  - apply Forall_cons in Hb as [Ha _]. unfold is_byte in Ha. subst r. cbn [check_sum_loop words]. unfold u32. rewrite Z.mod_small by (unfold U32; lia).
    split; [lia|]. split; [exists 0; lia|lia].
  - apply Forall_cons in Hb as [Ha [Hb Hd]%Forall_cons]. pose proof (word_range a b Ha Hb) as Hw. pose proof (words_nonneg _ Hd) as Hn.
    subst r. cbn [check_sum_loop words]. set (x := le_value [a; b]) in *. clearbody x. unfold u32. rewrite Z.mod_small by (unfold U32; lia).
    case_decide as Hgt.
    + rewrite fold_sum_small, decide_True by lia. destruct (IH (sum + x - 65535) Hd ltac:(lia)) as (H1 & [k H2] & H3).
      split; [done|]. split; [exists (k + 1); lia|lia].
    + destruct (IH (sum + x) Hd ltac:(lia)) as (H1 & [k H2] & H3). split; [done|]. split; [exists k; lia|lia].
Qed.

Lemma check_sum_spec data : Forall is_byte data →
  0 ≤ check_sum data 0 ≤ 65535 ∧ (65535 | words data + check_sum data 0) ∧ (0 < words data → check_sum data 0 < 65535).
Proof.
  intros Hb. destruct (check_sum_loop_spec data 0 Hb ltac:(lia)) as (H1 & [k H2] & H3). unfold check_sum. rewrite fold_sum_small by lia.
  case_decide.
  - rewrite Z.mod_small by lia. split; [lia|]. split; [exists (k + 2); lia|lia].
  - rewrite Z.mod_small by lia. split; [lia|]. split; [exists (k + 1); lia|lia].
Qed.

(** Verifying data that carry their own sum. *)
Lemma check_sum_zero data : Forall is_byte data → 0 < words data → (65535 | words data) → check_sum data 0 = 0.
Proof.
  intros Hb Hpos [j Hj]. destruct (check_sum_spec data Hb) as (H1 & [k H2] & H3). specialize (H3 Hpos). lia.
Qed.

Definition with_sum (h : Ip) (sum : Z) : Ip :=
  mkIp (vhl h) (tos h) (ip_len h) (ip_id h) (off h) (ttl h) (pro h) sum (src h) (dst h).

Lemma words_with_sum h sum : 0 ≤ sum < 65536 → words (Ip_bytes (with_sum h sum)) = words (Ip_bytes (with_sum h 0)) + sum.
Proof.
  intros Hs. unfold Ip_bytes, with_sum, octets. cbn [vhl tos ip_len ip_id off ttl pro ip_sum src dst app le_bytes words le_value].
  pose proof (le2 sum Hs). change (0 mod 256) with 0. change (0 / 256) with 0. change (0 mod 256) with 0. lia.
Qed.

Lemma Ip_bytes_byte h : is_byte (vhl h) → is_byte (tos h) → is_byte (ttl h) → ip_ok (src h) → ip_ok (dst h) → Forall is_byte (Ip_bytes h).
Proof.
  intros Hv Ht Hl Hs Hd. unfold Ip_bytes. rewrite !Forall_app. split_and!; try apply le_bytes_byte; try done.
  - by apply Forall_cons; split; [|apply Forall_singleton].
  - apply Forall_cons; split; [done|]. apply Forall_singleton. unfold is_byte. destruct (pro h); cbn; lia.
Qed.

(** The header both protocols send: its sum verifies, and it reads back. *)
Lemma ip_header_spec p from to len : ip_ok from → ip_ok to →
  let h := ip_header p from to len in
  check_sum (Ip_bytes h) 0 = 0 ∧ Ip_read (Ip_bytes h) = h ∧ length (Ip_bytes h) = IP_LEN.
Proof.
  intros Hf Ht h. set (h0 := mkIp IP_HEADER_VHL 0 (to_be 2 (u16 len)) 0 0 100 p 0 from to).
  assert (∀ s, Forall is_byte (Ip_bytes (with_sum h0 s))) as Hb by (intros s; by apply Ip_bytes_byte).
  destruct (check_sum_spec (Ip_bytes h0) (Hb 0)) as (H1 & H2 & _). change h with (with_sum h0 (check_sum (Ip_bytes h0) 0)).
  set (c := check_sum (Ip_bytes h0) 0) in *. assert (0 < words (Ip_bytes (with_sum h0 0))) as Hpos.
  { pose proof (words_nonneg (drop 2 (Ip_bytes h0))) as Hn. specialize (Hn (Forall_drop _ _ _ (Hb 0))).
    change (words (Ip_bytes (with_sum h0 0))) with (le_value [69; 0] + words (drop 2 (Ip_bytes h0))). cbn [le_value]. lia. }
  split; [|apply Ip_read_bytes; cbn; [apply (to_be_range 2)|lia..]].
  apply check_sum_zero; [apply Hb|rewrite words_with_sum by lia; lia|]. rewrite words_with_sum by lia. done.
Qed.

(** What a receiver computes over the pseudo header (addresses, protocol, length) and a TCP
    segment: the sum is right when it is a multiple of 65535. *)
Definition tcp_verifies (from to : Ipv4Addr) (segment : list Z) : Prop :=
  (words (octets from) + words (octets to) + to_be 2 (IpProtocal_code TCP) + to_be 2 (blen segment) + words segment) mod 65535 = 0.

#[export] Instance tcp_verifies_dec a b s : Decision (tcp_verifies a b s).
Proof. unfold tcp_verifies. apply _. Defined.

(** The checksum of a TCP packet can be wrong: when the first fold of the sum, which starts
    from the whole pseudo header, overflows 16 bits, the carry is counted twice.  A segment
    of one byte from port 20000 of 10.0.2.15 to port 80 of 192.168.1.200 does not verify. *)
Theorem tcp_checksum_wrong : ∃ local remote,
  ¬ tcp_verifies (sa_ip local) (sa_ip remote) (drop (ETH_LEN + IP_LEN) (tcp_packet BROADCAST_MAC BROADCAST_MAC local remote 0 0 65535 0 TF_A [65])).
Proof. exists (mkAddr (Ip4 10 0 2 15) 20000), (mkAddr (Ip4 192 168 1 200) 80). apply (bool_decide_unpack _). vm_compute. exact I. Qed.
