(* ===== verification/Net.v ===== *)
(** * The network stack

    Models the connection module of vendor/lose-net-stack: the port tables and the packet
    analysis of [NetServer] (mod.rs), UDP sockets (udp.rs), TCP servers and connections
    (tcp.rs) and the ARP cache (arp_table.rs); [NetMod::send] of kernel/src/syscall/socket.rs
    hands packets to the device.  Servers and connections are shared ([Arc]): they live in
    stores and are referred to by keys.  A socket ([Arc<dyn SocketInterface>]) is a [Sock],
    and the operations of the trait are defined by cases on it, an operation that an
    implementation leaves out being the trait's default.

    [Panic] stands for a panic of the kernel and for a spin lock that the same call already
    holds: in both cases the call does not return. *)

From S2P Require Import Prelude Vfs Packet.

Inductive NetServerError :=
  | Unsupported | EmptyClient | EmptyData | NoUdpRemoteAddress | ServerNotExists | PortWasUsed | Blocking.

Inductive nresult (A : Type) := NOk (a : A) | NErr (e : NetServerError).
Arguments NOk {A} a.
Arguments NErr {A} e.

(** ** State *)

Record UdpServer := mkUdpServer {
  us_local : SocketAddrV4; us_remote : option SocketAddrV4; us_packets : list (list Z * SocketAddrV4);
}.

Inductive TcpStatus := Unconnected | WaitingForSynAck | WaitingForData | WaitingForFinAck | Closed.

#[export] Instance TcpStatus_eq_dec : EqDecision TcpStatus.
Proof. solve_decision. Defined.

Record TcpSeq := mkTcpSeq { ts_seq : Z; ts_ack : Z; ts_window : Z; ts_urg : Z }.

Record TcpConnection := mkTcpConnection {
  tc_local : SocketAddrV4; tc_remote : SocketAddrV4; tc_options : TcpSeq; tc_status : TcpStatus;
  tc_datas : list (list Z); tc_remote_closed : bool;
}.

Record TcpServer := mkTcpServer {
  sv_local : SocketAddrV4; sv_clients : list nat; sv_wait_queue : list nat; sv_is_client : bool;
}.

(** [ns_device] tells whether the first network device exists and sends; [ns_sent] are the
    packets it was given. *)
Record NetServer := mkNetServer {
  local_mac : MacAddress; local_ip : Ipv4Addr;
  ns_udp : gmap nat UdpServer; ns_tcp : gmap nat TcpServer; ns_conn : gmap nat TcpConnection;
  udp_map : gmap Z nat; tcp_map : gmap Z nat;
  ARP_TABLE : gmap Ipv4Addr MacAddress;
  ns_device : bool; ns_sent : list (list Z);
}.

Definition set_udps f (n : NetServer) : NetServer :=
  mkNetServer (local_mac n) (local_ip n) (f (ns_udp n)) (ns_tcp n) (ns_conn n) (udp_map n) (tcp_map n) (ARP_TABLE n) (ns_device n) (ns_sent n).
Definition set_tcps f (n : NetServer) : NetServer :=
  mkNetServer (local_mac n) (local_ip n) (ns_udp n) (f (ns_tcp n)) (ns_conn n) (udp_map n) (tcp_map n) (ARP_TABLE n) (ns_device n) (ns_sent n).
Definition set_conns f (n : NetServer) : NetServer :=
  mkNetServer (local_mac n) (local_ip n) (ns_udp n) (ns_tcp n) (f (ns_conn n)) (udp_map n) (tcp_map n) (ARP_TABLE n) (ns_device n) (ns_sent n).
Definition set_udp_map f (n : NetServer) : NetServer :=
  mkNetServer (local_mac n) (local_ip n) (ns_udp n) (ns_tcp n) (ns_conn n) (f (udp_map n)) (tcp_map n) (ARP_TABLE n) (ns_device n) (ns_sent n).
Definition set_tcp_map f (n : NetServer) : NetServer :=
  mkNetServer (local_mac n) (local_ip n) (ns_udp n) (ns_tcp n) (ns_conn n) (udp_map n) (f (tcp_map n)) (ARP_TABLE n) (ns_device n) (ns_sent n).
Definition cache_arp_entry (ip : Ipv4Addr) (mac : MacAddress) (n : NetServer) : NetServer :=
  mkNetServer (local_mac n) (local_ip n) (ns_udp n) (ns_tcp n) (ns_conn n) (udp_map n) (tcp_map n) (<[ip := mac]> (ARP_TABLE n))
    (ns_device n) (ns_sent n).

Definition get_mac_address (n : NetServer) (ip : Ipv4Addr) : option MacAddress := ARP_TABLE n !! ip.

(** [NetMod::send]. *)
Definition NetMod_send (data : list Z) (n : NetServer) : outcome NetServer :=
  if ns_device n then
    Ret (mkNetServer (local_mac n) (local_ip n) (ns_udp n) (ns_tcp n) (ns_conn n) (udp_map n) (tcp_map n) (ARP_TABLE n) (ns_device n)
           (ns_sent n ++ [data]))
  else Panic.

(** [NetMod::local_mac_address] and the address [NET_SERVER] is created with. *)
Definition NET_MAC : MacAddress := [0x52; 0x54; 0x00; 0x12; 0x34; 0x56].
Definition NET_SERVER (device : bool) : NetServer := mkNetServer NET_MAC (Ip4 10 0 2 15) ∅ ∅ ∅ ∅ ∅ ∅ device [].

(** ** [NetServer]: the port tables *)

Definition tcp_is_used (n : NetServer) (port : Z) : bool := bool_decide (is_Some (tcp_map n !! port)).
Definition udp_is_used (n : NetServer) (port : Z) : bool := bool_decide (is_Some (udp_map n !! port)).

(** The first port from 20000 up to 65534 that is not in the table, or 0. *)
Definition alloc_port (m : gmap Z nat) : Z :=
  default 0 (List.find (λ i, bool_decide (m !! i = None)) (seqZ 20000 45535)).
Definition alloc_udp_port (n : NetServer) : Z := alloc_port (udp_map n).
Definition alloc_tcp_port (n : NetServer) : Z := alloc_port (tcp_map n).

Definition blank_udp (n : NetServer) : nat * NetServer :=
  let u := fresh (dom (ns_udp n)) in (u, set_udps (insert u (mkUdpServer (mkAddr (local_ip n) 0) None [])) n).
Definition blank_tcp (n : NetServer) : nat * NetServer :=
  let t := fresh (dom (ns_tcp n)) in (t, set_tcps (insert t (mkTcpServer (mkAddr (local_ip n) 0) [] [] false)) n).

(** ** Sockets *)

Inductive Sock := S_udp (u : nat) | S_tcp (t : nat) | S_conn (c : nat).

#[export] Instance Sock_eq_dec : EqDecision Sock.
Proof. solve_decision. Defined.

Inductive SocketType := ST_TCP | ST_UDP | ST_RAW.

(** The addresses that are served inside the machine. *)
Definition served_here (remote local : SocketAddrV4) : bool :=
  is_loopback (sa_ip remote) || is_unspecified (sa_ip remote) || bool_decide (sa_ip remote = sa_ip local).

(** *** [UdpServer] *)

Definition set_udp (u : nat) (f : UdpServer → UdpServer) : NetServer → NetServer := set_udps (alter f u).
Definition udp_add_queue (addr : SocketAddrV4) (data : list Z) (u : UdpServer) : UdpServer :=
  mkUdpServer (us_local u) (us_remote u) (us_packets u ++ [(data, addr)]).

Definition UdpServer_bind (u : nat) (local : SocketAddrV4) (n : NetServer) : outcome (nresult unit * NetServer) :=
  inner ← unwrap (ns_udp n !! u);
  if udp_is_used n (sa_port local) then Ret (NErr PortWasUsed, n)
  else
    let n := set_udp_map (delete (sa_port (us_local inner))) n in
    let port := if decide (sa_port local = 0) then alloc_udp_port n else sa_port local in
    let ip := if is_loopback (sa_ip local) || is_unspecified (sa_ip local) then local_ip n else sa_ip local in
    let n := set_udp_map (insert port u) n in
    Ret (NOk tt, set_udp u (λ i, mkUdpServer (mkAddr ip port) (us_remote i) (us_packets i)) n).

Definition UdpServer_connect (u : nat) (remote : SocketAddrV4) (n : NetServer) : outcome (nresult unit * NetServer) :=
  inner ← unwrap (ns_udp n !! u);
  let n := set_udp u (λ i, mkUdpServer (us_local i) (Some remote) (us_packets i)) n in
  if decide (sa_port (us_local inner) = 0) then UdpServer_bind u (us_local inner) n else Ret (NOk tt, n).

Definition UdpServer_recv_from (u : nat) (n : NetServer) : outcome (nresult (list Z * SocketAddrV4) * NetServer) :=
  inner ← unwrap (ns_udp n !! u);
  match us_packets inner with
  | p :: packets => Ret (NOk p, set_udp u (λ i, mkUdpServer (us_local i) (us_remote i) packets) n)
  | [] => Ret (NErr EmptyData, n)
  end.

(** A datagram to this machine goes to the queue of the port, if there is one; the sender holds
    its own lock while it takes the receiver's. *)
Definition UdpServer_sendto (u : nat) (buf : list Z) (remote : option SocketAddrV4) (n : NetServer) : outcome (nresult Z * NetServer) :=
  inner ← unwrap (ns_udp n !! u);
  match (match remote with Some a => Some a | None => us_remote inner end) with
  | None => Ret (NErr NoUdpRemoteAddress, n)
  | Some addr =>
      if served_here addr (us_local inner) then
        match udp_map n !! sa_port addr with
        | Some x => if decide (x = u) then Panic
                    else Ret (NOk (blen buf), set_udp x (udp_add_queue (us_local inner) buf) n)
        | None => Ret (NOk (blen buf), n)
        end
      else
        n ← NetMod_send (udp_packet (default BROADCAST_MAC (get_mac_address n (sa_ip (us_local inner))))
                           (default BROADCAST_MAC (get_mac_address n (sa_ip addr))) (us_local inner) addr buf) n;
        Ret (NOk (blen buf), n)
  end.

Definition UdpServer_close (u : nat) (n : NetServer) : outcome (nresult unit * NetServer) :=
  inner ← unwrap (ns_udp n !! u);
  Ret (NOk tt, set_udp_map (delete (sa_port (us_local inner))) n).

(** *** [TcpConnection] *)

Definition set_conn (c : nat) (f : TcpConnection → TcpConnection) : NetServer → NetServer := set_conns (alter f c).
Definition set_status (s : TcpStatus) (k : TcpConnection) : TcpConnection :=
  mkTcpConnection (tc_local k) (tc_remote k) (tc_options k) s (tc_datas k) (tc_remote_closed k).
Definition set_seq_ack (seq ack : Z) (k : TcpConnection) : TcpConnection :=
  mkTcpConnection (tc_local k) (tc_remote k) (mkTcpSeq seq ack (ts_window (tc_options k)) (ts_urg (tc_options k))) (tc_status k)
    (tc_datas k) (tc_remote_closed k).
Definition set_remote_closed (k : TcpConnection) : TcpConnection :=
  mkTcpConnection (tc_local k) (tc_remote k) (tc_options k) (tc_status k) (tc_datas k) true.
Definition add_data (data : list Z) (k : TcpConnection) : TcpConnection :=
  mkTcpConnection (tc_local k) (tc_remote k) (tc_options k) (tc_status k) (tc_datas k ++ [data]) (tc_remote_closed k).

(** The first of [l] that is connected to [remote]. *)
Definition find_remote (n : NetServer) (remote : SocketAddrV4) (l : list nat) : option nat :=
  List.find (λ c, match ns_conn n !! c with Some k => bool_decide (tc_remote k = remote) | None => false end) l.

(** [get_client] locks the list of clients; [held] is the server whose list the call has locked. *)
Definition get_client (held : option nat) (n : NetServer) (t : nat) (remote : SocketAddrV4) : outcome (option nat) :=
  if decide (held = Some t) then Panic
  else sv ← unwrap (ns_tcp n !! t); Ret (find_remote n remote (sv_clients sv)).

Definition remove_client (n : NetServer) (remote : SocketAddrV4) (sv : TcpServer) : TcpServer :=
  mkTcpServer (sv_local sv) (filter (λ c, tc_remote <$> ns_conn n !! c ≠ Some remote) (sv_clients sv)) (sv_wait_queue sv) (sv_is_client sv).

Definition opt_data (o : option nat) (buf : list Z) (n : NetServer) : NetServer :=
  match o with Some c => set_conn c (add_data buf) n | None => n end.

Definition send_data (held : option nat) (c : nat) (buf : list Z) (flags : Z) (n : NetServer) : outcome NetServer :=
  k ← unwrap (ns_conn n !! c);
  if served_here (tc_remote k) (tc_local k) then
    if decide (buf = []) then Ret n
    else match tcp_map n !! sa_port (tc_remote k) with
         | None => Ret n
         | Some t =>
             client ← get_client held n t (tc_local k);
             let n := opt_data client buf n in
             sv ← unwrap (ns_tcp n !! t);
             Ret (opt_data (find_remote n (tc_local k) (sv_wait_queue sv)) buf n)
         end
  else
    let o := tc_options k in
    let data := tcp_packet NET_MAC (default BROADCAST_MAC (get_mac_address n (sa_ip (tc_remote k)))) (tc_local k) (tc_remote k)
                  (ts_seq o) (ts_ack o) (ts_window o) (ts_urg o) flags buf in
    let seq := u32 (ts_seq o + u32 (blen buf)) in
    let seq := if contains flags TF_S || contains flags TF_F then u32 (seq + 1) else seq in
    n ← NetMod_send data (set_conn c (set_seq_ack seq (ts_ack o)) n);
    let n := if contains flags TF_F then set_conn c (set_status WaitingForFinAck) n else n in
    Ret (if contains flags TF_S && bool_decide (tc_status k = Unconnected ∨ tc_status k = Closed)
         then set_conn c (set_status WaitingForFinAck) n else n).

Definition syn_ack (c : nat) (n : NetServer) : outcome NetServer :=
  n ← send_data None c [] (Z.lor TF_S TF_A) n; Ret (set_conn c (set_status WaitingForData) n).

Definition conn_is_closed (k : TcpConnection) : bool := bool_decide (tc_status k = Closed) && tc_remote_closed k.

Definition interrupt (c : nat) (data : list Z) (seq ack flags : Z) (n : NetServer) : outcome NetServer :=
  k ← unwrap (ns_conn n !! c);
  if conn_is_closed k then Ret n
  else if contains flags TF_F then
    n ← send_data None c [] TF_A (set_conn c set_remote_closed (set_conn c (set_seq_ack ack (u32 (seq + 1))) n));
    if decide (tc_status k ≠ Closed) then send_data None c [] (Z.lor TF_F TF_A) n else Ret n
  else match tc_status k with
       | WaitingForData =>
           if decide (flags = TF_A ∧ data = []) then Ret n
           else
             let seq := u32 (seq + u32 (blen data)) in
             let seq := if contains flags TF_S || contains flags TF_F then u32 (seq + 1) else seq in
             send_data None c [] TF_A (set_conn c (set_seq_ack ack seq) (set_conn c (add_data data) n))
       | WaitingForSynAck => Ret (if decide (flags = TF_A) then set_conn c (set_status WaitingForData) n else n)
       | WaitingForFinAck => Ret (if decide (flags = TF_A) then set_conn c (set_status Closed) n else n)
       | _ => Ret n
       end.

(** *** [TcpServer] *)

Definition set_tcp (t : nat) (f : TcpServer → TcpServer) : NetServer → NetServer := set_tcps (alter f t).
Definition new_conn (k : TcpConnection) (n : NetServer) : nat * NetServer :=
  let c := fresh (dom (ns_conn n)) in (c, set_conns (insert c k) n).
Definition blank_conn (local remote : SocketAddrV4) (ack : Z) : TcpConnection :=
  mkTcpConnection local remote (mkTcpSeq 0 ack 65535 0) Unconnected [] false.

Definition tcp_add_queue (t : nat) (remote : SocketAddrV4) (seq : Z) (n : NetServer) : outcome (nat * NetServer) :=
  sv ← unwrap (ns_tcp n !! t);
  let '(c, n) := new_conn (blank_conn (sv_local sv) remote (u32 (seq + 1))) n in
  Ret (c, set_tcp t (λ sv, mkTcpServer (sv_local sv) (sv_clients sv) (sv_wait_queue sv ++ [c]) (sv_is_client sv)) n).

Definition TcpServer_bind (t : nat) (local : SocketAddrV4) (n : NetServer) : outcome (nresult unit * NetServer) :=
  sv ← unwrap (ns_tcp n !! t);
  let port := if decide (sa_port local = 0) then alloc_tcp_port n else sa_port local in
  let ip := if is_loopback (sa_ip local) || is_unspecified (sa_ip local) then sa_ip (sv_local sv) else sa_ip local in
  let n := set_tcp_map (λ m, <[port := t]> (delete (sa_port (sv_local sv)) m)) n in
  Ret (NOk tt, set_tcp t (λ sv, mkTcpServer (mkAddr ip port) (sv_clients sv) (sv_wait_queue sv) (sv_is_client sv)) n).

(** [listen], and the first step of [connect]: a socket without a port gets one. *)
Definition bind_if_needed (t : nat) (n : NetServer) : outcome (nresult unit * NetServer) :=
  sv ← unwrap (ns_tcp n !! t);
  if decide (sa_port (sv_local sv) = 0) then TcpServer_bind t (sv_local sv) n else Ret (NOk tt, n).
Definition TcpServer_listen := bind_if_needed.

Definition TcpConnection_connect (c : nat) (remote : SocketAddrV4) (n : NetServer) : outcome (nresult unit * NetServer) :=
  k ← unwrap (ns_conn n !! c);
  let n := set_conn c (λ k, mkTcpConnection (tc_local k) remote (mkTcpSeq 0 0 (ts_window (tc_options k)) (ts_urg (tc_options k))) Unconnected
             (tc_datas k) (tc_remote_closed k)) n in
  if served_here remote (tc_local k) then
    match tcp_map n !! sa_port remote with
    | Some t =>
        let n := set_conn c (set_status WaitingForData) n in
        '(r, n) ← tcp_add_queue t (tc_local k) 0 n;
        Ret (NOk tt, set_conn r (set_status WaitingForData) n)
    | None => Ret (NErr Blocking, n)
    end
  else n ← send_data None c [] TF_S n; Ret (NOk tt, n).

Definition TcpServer_connect (t : nat) (remote : SocketAddrV4) (n : NetServer) : outcome (nresult unit * NetServer) :=
  sv ← unwrap (ns_tcp n !! t);
  let n := set_tcp t (λ sv, mkTcpServer (sv_local sv) (sv_clients sv) (sv_wait_queue sv) true) n in
  let remote := if is_loopback (sa_ip remote) || is_unspecified (sa_ip remote) then mkAddr (sa_ip (sv_local sv)) (sa_port remote) else remote in
  '(r, n) ← bind_if_needed t n;
  match r with
  | NErr e => Ret (NErr e, n)
  | NOk _ =>
      sv ← unwrap (ns_tcp n !! t);
      let '(c, n) := new_conn (blank_conn (sv_local sv) remote 0) n in
      '(r, n) ← TcpConnection_connect c remote n;
      match r with
      | NErr e => Ret (NErr e, n)
      | NOk _ => Ret (NOk tt, set_tcp t (λ sv, mkTcpServer (sv_local sv) (sv_clients sv ++ [c]) (sv_wait_queue sv) (sv_is_client sv)) n)
      end
  end.

Definition TcpServer_accept (t : nat) (n : NetServer) : outcome (nresult nat * NetServer) :=
  sv ← unwrap (ns_tcp n !! t);
  match sv_wait_queue sv with
  | c :: wait_queue =>
      let n := set_tcp t (λ sv, mkTcpServer (sv_local sv) (sv_clients sv ++ [c]) wait_queue (sv_is_client sv)) n in
      n ← (if negb (is_private (sa_ip (sv_local sv))) then syn_ack c n else Ret n);
      Ret (NOk c, n)
  | [] => Ret (NErr EmptyClient, n)
  end.

Definition TcpConnection_recv_from (c : nat) (n : NetServer) : outcome (nresult (list Z * SocketAddrV4) * NetServer) :=
  k ← unwrap (ns_conn n !! c);
  match tc_datas k with
  | x :: datas =>
      Ret (NOk (x, tc_remote k),
           set_conn c (λ k, mkTcpConnection (tc_local k) (tc_remote k) (tc_options k) (tc_status k) datas (tc_remote_closed k)) n)
  | [] => Ret (NErr EmptyData, n)
  end.

Definition TcpConnection_sendto (held : option nat) (c : nat) (data : list Z) (n : NetServer) : outcome (nresult Z * NetServer) :=
  n ← send_data held c data (Z.lor TF_A TF_P) n; Ret (NOk (blen data), n).

(** Both ends are closed, and get an empty message, when the peer is in this machine; the peer
    must have been accepted. *)
Definition shut (k : TcpConnection) : TcpConnection := add_data [] (set_remote_closed (set_status Closed k)).

Definition TcpConnection_close (held : option nat) (c : nat) (n : NetServer) : outcome (nresult unit * NetServer) :=
  k ← unwrap (ns_conn n !! c);
  if served_here (tc_remote k) (tc_local k) then
    match tcp_map n !! sa_port (tc_remote k) with
    | Some t =>
        o ← get_client held n t (mkAddr (sa_ip (tc_remote k)) (sa_port (tc_local k)));
        remote_client ← unwrap o;
        Ret (NOk tt, set_conn c shut (set_conn remote_client shut n))
    | None => Ret (NOk tt, n)
    end
  else if decide (tc_status k = Closed ∨ tc_remote_closed k = true) then Ret (NOk tt, n)
  else n ← send_data held c [] (Z.lor TF_F TF_A) n; Ret (NOk tt, n).

(** [self.clients.lock()[0]] of a server that is a client, [None] for one that is not. *)
Definition first_client (n : NetServer) (t : nat) : outcome (option nat) :=
  sv ← unwrap (ns_tcp n !! t);
  if sv_is_client sv then c ← unwrap (sv_clients sv !! 0%nat); Ret (Some c) else Ret None.

(** ** [SocketInterface] *)

Definition sock_sendto (s : Sock) (data : list Z) (remote : option SocketAddrV4) (n : NetServer) : outcome (nresult Z * NetServer) :=
  match s with
  | S_udp u => UdpServer_sendto u data remote n
  | S_tcp t => o ← first_client n t; match o with Some c => TcpConnection_sendto (Some t) c data n | None => Ret (NErr Unsupported, n) end
  | S_conn c => TcpConnection_sendto None c data n
  end.

Definition sock_recv_from (s : Sock) (n : NetServer) : outcome (nresult (list Z * SocketAddrV4) * NetServer) :=
  match s with
  | S_udp u => UdpServer_recv_from u n
  | S_tcp t => o ← first_client n t; match o with Some c => TcpConnection_recv_from c n | None => Ret (NErr Unsupported, n) end
  | S_conn c => TcpConnection_recv_from c n
  end.

Definition sock_bind (s : Sock) (local : SocketAddrV4) (n : NetServer) : outcome (nresult unit * NetServer) :=
  match s with S_udp u => UdpServer_bind u local n | S_tcp t => TcpServer_bind t local n | S_conn _ => Ret (NErr Unsupported, n) end.

Definition sock_listen (s : Sock) (n : NetServer) : outcome (nresult unit * NetServer) :=
  match s with S_tcp t => TcpServer_listen t n | _ => Ret (NErr Unsupported, n) end.

Definition sock_connect (s : Sock) (remote : SocketAddrV4) (n : NetServer) : outcome (nresult unit * NetServer) :=
  match s with
  | S_udp u => UdpServer_connect u remote n | S_tcp t => TcpServer_connect t remote n | S_conn c => TcpConnection_connect c remote n
  end.

Definition sock_accept (s : Sock) (n : NetServer) : outcome (nresult Sock * NetServer) :=
  match s with
  | S_tcp t => '(r, n) ← TcpServer_accept t n; Ret (match r with NOk c => NOk (S_conn c) | NErr e => NErr e end, n)
  | _ => Ret (NErr Unsupported, n)
  end.

Definition sock_readable (s : Sock) (n : NetServer) : outcome (nresult bool) :=
  match s with
  | S_udp u => i ← unwrap (ns_udp n !! u); Ret (NOk (bool_decide (us_packets i ≠ [])))
  | S_tcp t =>
      o ← first_client n t;
      match o with
      | Some c => k ← unwrap (ns_conn n !! c); Ret (NOk (bool_decide (tc_datas k ≠ [])))
      | None => sv ← unwrap (ns_tcp n !! t); Ret (NOk (bool_decide (sv_wait_queue sv ≠ [])))
      end
  | S_conn c => k ← unwrap (ns_conn n !! c); Ret (NOk (bool_decide (tc_datas k ≠ [])))
  end.

Definition sock_get_local (s : Sock) (n : NetServer) : outcome (nresult SocketAddrV4) :=
  match s with
  | S_udp u => i ← unwrap (ns_udp n !! u); Ret (NOk (us_local i))
  | S_tcp t => sv ← unwrap (ns_tcp n !! t); Ret (NOk (sv_local sv))
  | S_conn c => k ← unwrap (ns_conn n !! c); Ret (NOk (tc_local k))
  end.

Definition sock_get_protocol (s : Sock) : nresult SocketType := match s with S_udp _ => NOk ST_UDP | _ => NOk ST_TCP end.

Definition sock_get_remote (s : Sock) (n : NetServer) : outcome (nresult SocketAddrV4) :=
  match s with
  | S_udp u => i ← unwrap (ns_udp n !! u); Ret (match us_remote i with Some a => NOk a | None => NErr Unsupported end)
  | S_tcp t =>
      o ← first_client n t;
      match o with Some c => k ← unwrap (ns_conn n !! c); Ret (NOk (tc_remote k)) | None => Ret (NErr Unsupported) end
  | S_conn c => k ← unwrap (ns_conn n !! c); Ret (NOk (tc_remote k))
  end.

Definition sock_is_closed (s : Sock) (n : NetServer) : outcome (nresult bool) :=
  match s with
  | S_udp _ => Ret (NOk false)
  | S_tcp t =>
      o ← first_client n t;
      match o with Some c => k ← unwrap (ns_conn n !! c); Ret (NOk (conn_is_closed k)) | None => Ret (NOk false) end
  | S_conn c => k ← unwrap (ns_conn n !! c); Ret (NOk (conn_is_closed k))
  end.

Definition sock_close (s : Sock) (n : NetServer) : outcome (nresult unit * NetServer) :=
  match s with
  | S_udp u => UdpServer_close u n
  | S_tcp t => o ← first_client n t; match o with Some c => TcpConnection_close (Some t) c n | None => Ret (NErr Unsupported, n) end
  | S_conn c => TcpConnection_close None c n
  end.

(** ** Packets that arrive *)

Definition analysis_udp (data : list Z) (ip : Ip) (n : NetServer) : outcome NetServer :=
  '(h, data) ← unwrap (iter_next UDP_LEN Udp_read data);
  Ret (match udp_map n !! to_be 2 (u_dport h) with
       | Some u => set_udp u (udp_add_queue (mkAddr (src ip) (to_be 2 (u_sport h))) data) n
       | None => n
       end).

Definition analysis_tcp (data : list Z) (ip : Ip) (n : NetServer) : outcome NetServer :=
  '(h, data) ← unwrap (iter_next TCP_LEN Tcp_read data);
  let offset := (Z.land (Z.shiftr (t_offset h) 4) 0xf -u 5) *u 4 in
  data ← (if decide (offset ≤ blen data) then Ret (drop (Z.to_nat offset) data) else Panic);
  let remote := mkAddr (src ip) (to_be 2 (t_sport h)) in
  match tcp_map n !! to_be 2 (t_dport h) with
  | None => Ret n
  | Some t =>
      if contains (t_flags h) TF_S then '(_, n) ← tcp_add_queue t remote (to_be 4 (t_seq h)) n; Ret n
      else
        o ← get_client None n t remote;
        match o with Some c => interrupt c data (to_be 4 (t_seq h)) (to_be 4 (t_ack h)) (t_flags h) n | None => Ret n end
  end.

Definition analysis_ip (data : list Z) (eth : Eth) (n : NetServer) : outcome NetServer :=
  '(h, data) ← unwrap (iter_next IP_LEN Ip_read data);
  if decide (vhl h ≠ IP_HEADER_VHL ∨ dst h ≠ local_ip n) then Ret n
  else
    let n := cache_arp_entry (src h) (shost eth) n in
    match pro h with TCP => analysis_tcp data h n | UDP => analysis_udp data h n | _ => Ret n end.

Definition analysis_arp (data : list Z) (n : NetServer) : outcome NetServer :=
  '(h, _) ← unwrap (iter_next ARP_LEN Arp_read data);
  if decide (hlen h ≠ 6 ∨ plen h ≠ 4) then Ret n
  else
    reply ← unwrap (ArpPacket_reply (mkArpPacket (spa h) (sha h) (tpa h) (tha h) (ArpType_form_u16 (to_be 2 (op h)))) (local_ip n) (local_mac n));
    NetMod_send (ArpPacket_build_data reply) n.

Definition analysis_net_data (data : list Z) (n : NetServer) : outcome NetServer :=
  '(h, data) ← unwrap (iter_next ETH_LEN Eth_read data);
  match rtype h with RT_IP => analysis_ip data h n | RT_ARP => analysis_arp data n | RT_Unknown => Ret n end.

(** One turn of [handle_net]: [received] is what the device has put into the buffer, if anything. *)
Definition handle_net_turn (received : option (list Z)) (n : NetServer) : outcome NetServer :=
  if ns_device n then match received with Some data => analysis_net_data data n | None => Ret n end else Panic.

(** ** Well-formed states *)

(** The port tables agree with the addresses of the servers in them, the lists of a server are
    connections that exist, and no connection waits for the answer to its first packet. *)
Record net_ok (n : NetServer) : Prop := {
  no_udp : ∀ p u, udp_map n !! p = Some u → ∃ i, ns_udp n !! u = Some i ∧ sa_port (us_local i) = p;
  no_tcp : ∀ p t, tcp_map n !! p = Some t → ∃ sv, ns_tcp n !! t = Some sv ∧ sa_port (sv_local sv) = p;
  no_conns : ∀ t sv c, ns_tcp n !! t = Some sv → c ∈ sv_clients sv ++ sv_wait_queue sv → is_Some (ns_conn n !! c);
  no_status : ∀ c k, ns_conn n !! c = Some k → tc_status k ≠ WaitingForSynAck;
}.

Definition sock_live (n : NetServer) (s : Sock) : Prop :=
  match s with S_udp u => is_Some (ns_udp n !! u) | S_tcp t => is_Some (ns_tcp n !! t) | S_conn c => is_Some (ns_conn n !! c) end.

(** [n'] is a later state: it is well formed and no socket has gone. *)
Definition later (n n' : NetServer) : Prop := net_ok n' ∧ ∀ s, sock_live n s → sock_live n' s.

Lemma later_refl n : net_ok n → later n n.
Proof. by split. Qed.

Lemma later_trans n1 n2 n3 : later n1 n2 → later n2 n3 → later n1 n3.
Proof. intros [] []. split; auto. Qed.

Lemma set_conn_later c f n : net_ok n → (∀ k, tc_status k ≠ WaitingForSynAck → tc_status (f k) ≠ WaitingForSynAck) → later n (set_conn c f n).
Proof.
  intros [] Hf. split; [constructor; cbn; try done|].
  - intros t sv x Ht Hx. rewrite lookup_alter_is_Some. by eapply no_conns0.
  - intros x k. rewrite lookup_alter. case_decide as Ex; [subst x|apply no_status0]. destruct (ns_conn n !! c) as [k0|] eqn:E; [|done].
    intros [= <-]. by eapply Hf, no_status0.
  - intros []; cbn; try done. by rewrite lookup_alter_is_Some.
Qed.

Lemma set_udp_later u f n : net_ok n → (∀ i, us_local (f i) = us_local i) → later n (set_udp u f n).
Proof.
  intros [] Hf. split; [constructor; cbn; try done|].
  - intros p x (i & Hi & Hp)%no_udp0. rewrite lookup_alter. case_decide as Ex; [subst x|by exists i].
    rewrite Hi. exists (f i). by rewrite Hf.
  - intros []; cbn; try done. by rewrite lookup_alter_is_Some.
Qed.

Lemma set_tcp_later t f n : net_ok n →
  (∀ sv, ns_tcp n !! t = Some sv → sv_local (f sv) = sv_local sv ∧ ∀ c, c ∈ sv_clients (f sv) ++ sv_wait_queue (f sv) → is_Some (ns_conn n !! c)) →
  later n (set_tcp t f n).
Proof.
  intros [] Hf. split; [constructor; cbn; try done|].
  - intros p x (sv & Hi & Hp)%no_tcp0. rewrite lookup_alter. case_decide as Ex; [subst x|by exists sv].
    rewrite Hi. exists (f sv). destruct (Hf sv Hi) as [-> _]. done.
  - intros x sv c. rewrite lookup_alter. case_decide as Ex; [subst x|by apply no_conns0]. destruct (ns_tcp n !! t) as [sv0|] eqn:E; [|done].
    intros [= <-]. by apply Hf.
  - intros []; cbn; try done. by rewrite lookup_alter_is_Some.
Qed.

Lemma new_conn_later k n c n' : net_ok n → tc_status k ≠ WaitingForSynAck → new_conn k n = (c, n') →
  later n n' ∧ ns_conn n' = <[c := k]> (ns_conn n) ∧ ns_conn n !! c = None ∧ ns_tcp n' = ns_tcp n ∧ tcp_map n' = tcp_map n.
Proof.
  unfold new_conn. set (c0 := fresh _). assert (ns_conn n !! c0 = None) as Hc by (apply not_elem_of_dom, is_fresh). clearbody c0.
  intros [] Hk [= <- <-]. split; [|done]. split; [constructor; cbn; try done|].
  - intros t sv x Ht Hx. apply lookup_insert_is_Some'. right. by eapply no_conns0.
  - intros x k' [[_ <-]|[_ Hx]]%lookup_insert_Some; [done|by eapply no_status0].
  - intros []; cbn; try done. intros ?. apply lookup_insert_is_Some'. by right.
Qed.

Lemma NetMod_send_later data n n' : net_ok n → NetMod_send data n = Ret n' → later n n'.
Proof. unfold NetMod_send. intros [] E. destruct (ns_device n); [|done]. injection E as <-. by split; [constructor|]. Qed.

(** What a computation may leave behind. *)
Definition keeps_net {A} (n : NetServer) (o : outcome (A * NetServer)) : Prop :=
  match o with Ret (_, n') => later n n' | Panic => True end.
Definition keeps_net' (n : NetServer) (o : outcome NetServer) : Prop := match o with Ret n' => later n n' | Panic => True end.

Lemma keeps_bind' {A} n (o : outcome NetServer) (f : NetServer → outcome (A * NetServer)) :
  keeps_net' n o → (∀ n', later n n' → keeps_net n' (f n')) → keeps_net n (o ≫= f).
Proof.
  intros Ho Hf. destruct o as [n'|]; [|done]. cbn in Ho. specialize (Hf n' Ho). change (Ret n' ≫= f) with (f n').
  destruct (f n') as [[a n2]|]; [|done]. cbn in Hf |- *. by eapply later_trans.
Qed.

Lemma keeps_bind'' n (o : outcome NetServer) (f : NetServer → outcome NetServer) :
  keeps_net' n o → (∀ n', later n n' → keeps_net' n' (f n')) → keeps_net' n (o ≫= f).
Proof.
  intros Ho Hf. destruct o as [n'|]; [|done]. cbn in Ho. specialize (Hf n' Ho). change (Ret n' ≫= f) with (f n').
  destruct (f n') as [n2|]; [|done]. cbn in Hf |- *. by eapply later_trans.
Qed.

Lemma keeps_net_trans {A} n n1 (o : outcome (A * NetServer)) : later n n1 → keeps_net n1 o → keeps_net n o.
Proof. intros H Ho. destruct o as [[a n2]|]; [|done]. by eapply later_trans. Qed.

Lemma keeps_net_trans' n n1 (o : outcome NetServer) : later n n1 → keeps_net' n1 o → keeps_net' n o.
Proof. intros H Ho. destruct o as [n2|]; [|done]. by eapply later_trans. Qed.

Lemma later_set_conn c f n n' : later n n' → (∀ k, tc_status k ≠ WaitingForSynAck → tc_status (f k) ≠ WaitingForSynAck) →
  later n (set_conn c f n').
Proof. intros H Hf. eapply later_trans; [done|]. apply set_conn_later; [apply H|done]. Qed.

Lemma opt_data_later o b n : net_ok n → later n (opt_data o b n).
Proof. intros Hn. destruct o; [by apply set_conn_later|by apply later_refl]. Qed.

Lemma send_data_keeps held c buf flags n : net_ok n → keeps_net' n (send_data held c buf flags n).
Proof.
  intros Hn. unfold send_data. destruct (ns_conn n !! c) as [k|]; [|done]. cbn [unwrap]. step_ret. destruct (served_here _ _).
  - case_decide; [by apply later_refl|]. destruct (tcp_map n !! _) as [t|]; [|by apply later_refl].
    destruct (get_client _ _ _ _) as [o|]; [|done]. step_ret. pose proof (opt_data_later o buf n Hn) as H1.
    destruct (ns_tcp (opt_data o buf n) !! t) as [sv|]; [|done]. cbn [unwrap]. step_ret. eapply later_trans; [exact H1|]. apply opt_data_later, H1.
  - set (k0 := set_conn c _ n). assert (later n k0) as Hk by (by apply set_conn_later). eapply keeps_net_trans'; [exact Hk|].
    set (data := tcp_packet _ _ _ _ _ _ _ _ _ _). destruct (NetMod_send data k0) as [n1|] eqn:E; [|done]. step_ret.
    apply NetMod_send_later in E; [|apply Hk]. assert (later k0 (if contains flags TF_F then set_conn c (set_status WaitingForFinAck) n1 else n1)) as H2.
    { destruct (contains flags TF_F); [|done]. by apply later_set_conn. }
    destruct (_ && _); [by apply later_set_conn|done].
Qed.

Lemma syn_ack_keeps c n : net_ok n → keeps_net' n (syn_ack c n).
Proof. intros Hn. apply keeps_bind''; [by apply send_data_keeps|]. intros n' H. apply set_conn_later; [apply H|done]. Qed.

Lemma interrupt_keeps c data seq ack flags n : net_ok n → keeps_net' n (interrupt c data seq ack flags n).
Proof.
  intros Hn. unfold interrupt. destruct (ns_conn n !! c) as [k|]; [|done]. cbn [unwrap]. step_ret. destruct (conn_is_closed k); [by apply later_refl|].
  destruct (contains flags TF_F).
  - set (n1 := set_conn c set_remote_closed _). assert (later n n1) as H1 by (by apply later_set_conn; [apply set_conn_later|]).
    eapply keeps_net_trans'; [exact H1|]. apply keeps_bind''; [apply send_data_keeps, H1|]. intros n2 H2. case_decide; [apply send_data_keeps, H2|].
    apply later_refl, H2.
  - destruct (tc_status k); [by apply later_refl|case_decide; [by apply set_conn_later|by apply later_refl]| |case_decide; [by apply set_conn_later|by apply later_refl]|by apply later_refl].
    case_decide; [by apply later_refl|]. set (n1 := set_conn c (set_seq_ack _ _) _).
    assert (later n n1) as H1 by (by apply later_set_conn; [apply set_conn_later|]). eapply keeps_net_trans'; [exact H1|]. apply send_data_keeps, H1.
Qed.

(** Binding moves a server to its new port. *)
Lemma udp_bind_keeps u local n : net_ok n → keeps_net n (UdpServer_bind u local n).
Proof.
  intros [Hu Ht Hc Hs]. unfold UdpServer_bind. destruct (ns_udp n !! u) as [i|] eqn:Ei; [|done]. cbn [unwrap]. step_ret.
  destruct (udp_is_used n (sa_port local)); [by apply later_refl|]. cbv zeta. set (port := if decide _ then _ else _). clearbody port.
  split; [constructor; cbn; try done|].
  - intros p x. rewrite lookup_alter. intros [[<- <-]|[Hp [Hd (i' & Hi' & Hl)%Hu]%lookup_delete_Some]]%lookup_insert_Some.
    + rewrite decide_True, Ei by done. by eexists.
    + case_decide as Ex; [subst x|by exists i']. congruence.
  - intros []; cbn; try done. by rewrite lookup_alter_is_Some.
Qed.

Lemma tcp_bind_keeps t local n : net_ok n → keeps_net n (TcpServer_bind t local n).
Proof.
  intros [Hu Ht Hc Hs]. unfold TcpServer_bind. destruct (ns_tcp n !! t) as [sv|] eqn:Ei; [|done]. cbn [unwrap]. step_ret.
  cbv zeta. set (port := if decide _ then _ else _). clearbody port. split; [constructor; cbn; try done|].
  - intros p x. rewrite lookup_alter. intros [[<- <-]|[Hp [Hd (sv' & Hi' & Hl)%Ht]%lookup_delete_Some]]%lookup_insert_Some.
    + rewrite decide_True, Ei by done. by eexists.
    + case_decide as Ex; [subst x|by exists sv']. congruence.
  - intros x sv' c. rewrite lookup_alter. case_decide as Ex; [subst x|by apply Hc]. rewrite Ei. intros [= <-]. by apply (Hc t sv c).
  - intros []; cbn; try done. by rewrite lookup_alter_is_Some.
Qed.

Lemma bind_if_needed_keeps t n : net_ok n → keeps_net n (bind_if_needed t n).
Proof.
  intros Hn. unfold bind_if_needed. destruct (ns_tcp n !! t) as [sv|]; [|done]. cbn [unwrap]. step_ret.
  case_decide; [by apply tcp_bind_keeps|by apply later_refl].
Qed.

Lemma add_queue_keeps t remote seq n : net_ok n → keeps_net n (tcp_add_queue t remote seq n).
Proof.
  intros Hn. unfold tcp_add_queue. destruct (ns_tcp n !! t) as [sv|] eqn:Ht; [|done]. cbn [unwrap]. step_ret.
  destruct (new_conn _ n) as [c n1] eqn:E. apply new_conn_later in E as (H1 & Ec & _ & Et & _); [|done|done].
  eapply later_trans; [exact H1|]. apply set_tcp_later; [apply H1|]. intros sv' Hs. split; [done|]. cbn. intros x.
  rewrite app_assoc. rewrite elem_of_app, list_elem_of_singleton. intros [Hx| ->].
  - eapply no_conns; [apply H1|exact Hs|done].
  - rewrite Ec. eexists. apply lookup_insert_eq.
Qed.

Lemma conn_connect_keeps c remote n : net_ok n → keeps_net n (TcpConnection_connect c remote n).
Proof.
  intros Hn. unfold TcpConnection_connect. destruct (ns_conn n !! c) as [k|]; [|done]. cbn [unwrap]. step_ret. cbv zeta.
  set (n1 := set_conn c _ n). assert (later n n1) as H1 by (by apply set_conn_later). eapply keeps_net_trans; [exact H1|].
  destruct (served_here _ _).
  - destruct (tcp_map n1 !! _) as [t|]; [|apply later_refl, H1]. set (n2 := set_conn c _ n1).
    assert (later n1 n2) as H2 by (apply set_conn_later; [apply H1|done]). eapply keeps_net_trans; [exact H2|].
    pose proof (add_queue_keeps t (tc_local k) 0 n2 (proj1 H2)) as H3. destruct (tcp_add_queue _ _ _ n2) as [[r n3]|]; [|done]. step_ret.
    by apply later_set_conn.
  - apply keeps_bind'; [apply send_data_keeps, H1|]. intros n2 H2. apply later_refl, H2.
Qed.

Lemma tcp_connect_keeps t remote n : net_ok n → keeps_net n (TcpServer_connect t remote n).
Proof.
  intros Hn. unfold TcpServer_connect. destruct (ns_tcp n !! t) as [sv|] eqn:Et; [|done]. cbn [unwrap]. step_ret. cbv zeta.
  set (remote' := if _ || _ then _ else _). clearbody remote'. set (n1 := set_tcp t _ n). assert (later n n1) as H1.
  { apply set_tcp_later; [done|]. intros sv' Hs. split; [done|]. cbn. intros c. by eapply no_conns. }
  eapply keeps_net_trans; [exact H1|]. pose proof (bind_if_needed_keeps t n1 (proj1 H1)) as H2.
  destruct (bind_if_needed t n1) as [[r n2]|]; [|done]. step_ret. destruct r as [[]|e]; [|done].
  destruct (ns_tcp n2 !! t) as [sv2|]; [|done]. cbn [unwrap]. step_ret. destruct (new_conn _ n2) as [c n3] eqn:E.
  apply new_conn_later in E as (H3 & Ec & _); [|apply H2|done]. pose proof (conn_connect_keeps c remote' n3 (proj1 H3)) as H4.
  assert (later n1 n3) as H13 by (by eapply later_trans). destruct (TcpConnection_connect c remote' n3) as [[r n4]|]; [|done]. step_ret.
  assert (later n1 n4) as H14 by (by eapply later_trans). destruct r as [[]|e]; [|done]. eapply later_trans; [exact H14|].
  apply set_tcp_later; [apply H4|]. intros sv' Hs. split; [done|]. cbn. intros x. rewrite <- app_assoc, !elem_of_app, list_elem_of_singleton.
  intros [Hx|[->|Hx]]; [|apply (proj2 H4 (S_conn c)); cbn; rewrite Ec; eexists; apply lookup_insert_eq|].
  all: eapply no_conns; [apply H4|exact Hs|]; rewrite elem_of_app; auto.
Qed.

Lemma tcp_accept_keeps t n : net_ok n → keeps_net n (TcpServer_accept t n).
Proof.
  intros Hn. unfold TcpServer_accept. destruct (ns_tcp n !! t) as [sv|] eqn:Et; [|done]. cbn [unwrap]. step_ret.
  destruct (sv_wait_queue sv) as [|c wq] eqn:Eq; [by apply later_refl|]. cbv zeta. set (n1 := set_tcp t _ n). assert (later n n1) as H1.
  { apply set_tcp_later; [done|]. intros sv' Hs. assert (sv' = sv) as -> by congruence. split; [done|]. cbn. intros x Hx.
    eapply no_conns; [done|exact Et|]. rewrite Eq. rewrite elem_of_app in *. rewrite elem_of_app, list_elem_of_singleton in Hx. rewrite elem_of_cons. naive_solver. }
  eapply keeps_net_trans; [exact H1|]. apply keeps_bind'; [|intros n2 H2; apply later_refl, H2].
  destruct (negb _); [apply syn_ack_keeps, H1|apply later_refl, H1].
Qed.

Lemma conn_close_keeps held c n : net_ok n → keeps_net n (TcpConnection_close held c n).
Proof.
  intros Hn. unfold TcpConnection_close. destruct (ns_conn n !! c) as [k|]; [|done]. cbn [unwrap]. step_ret. destruct (served_here _ _).
  - destruct (tcp_map n !! _) as [t|]; [|by apply later_refl]. destruct (get_client _ _ _ _) as [[rc|]|]; [|done|done]. cbn [unwrap]. step_ret.
    apply later_set_conn; [by apply set_conn_later|done].
  - case_decide; [by apply later_refl|]. apply keeps_bind'; [by apply send_data_keeps|]. intros n2 H2. apply later_refl, H2.
Qed.

Lemma blank_udp_keeps n u n' : net_ok n → blank_udp n = (u, n') → later n n' ∧ sock_live n' (S_udp u).
Proof.
  unfold blank_udp. set (u0 := fresh _). assert (ns_udp n !! u0 = None) as Hu by (apply not_elem_of_dom, is_fresh). clearbody u0.
  intros [] [= <- <-]. split; [split; [constructor; cbn; try done|]|eexists; apply lookup_insert_eq].
  - intros p x (i & Hi & Hp)%no_udp0. exists i. rewrite lookup_insert_ne by congruence. done.
  - intros []; cbn; try done. intros ?. apply lookup_insert_is_Some'. by right.
Qed.

Lemma blank_tcp_keeps n t n' : net_ok n → blank_tcp n = (t, n') → later n n' ∧ sock_live n' (S_tcp t).
Proof.
  unfold blank_tcp. set (t0 := fresh _). assert (ns_tcp n !! t0 = None) as Hu by (apply not_elem_of_dom, is_fresh). clearbody t0.
  intros [] [= <- <-]. split; [split; [constructor; cbn; try done|]|eexists; apply lookup_insert_eq].
  - intros p x (i & Hi & Hp)%no_tcp0. exists i. rewrite lookup_insert_ne by congruence. done.
  - intros x sv c [[_ <-]|[_ Hx]]%lookup_insert_Some; [by cbn; intros ?%not_elem_of_nil|by eapply no_conns0].
  - intros []; cbn; try done. intros ?. apply lookup_insert_is_Some'. by right.
Qed.

Lemma set_udp_map_delete_later p n : net_ok n → later n (set_udp_map (delete p) n).
Proof. intros []. split; [constructor; cbn; try done|done]. intros q u [_ Hq]%lookup_delete_Some. by apply no_udp0. Qed.

Lemma sendto_keeps s d r n : net_ok n → keeps_net n (sock_sendto s d r n).
Proof.
  intros Hn. assert (∀ held c, keeps_net n (TcpConnection_sendto held c d n)) as Hc.
  { intros held c. apply keeps_bind'; [by apply send_data_keeps|]. intros n' H. apply later_refl, H. }
  destruct s as [u|t|c]; cbn [sock_sendto]; [|destruct (first_client n t) as [[c|]|]; [apply Hc|by apply later_refl|done]|apply Hc].
  unfold UdpServer_sendto. destruct (ns_udp n !! u) as [i|]; [|done]. cbn [unwrap]. step_ret. destruct (match r with Some _ => _ | None => _ end) as [a|]; [|by apply later_refl].
  destruct (served_here _ _).
  - destruct (udp_map n !! _) as [x|]; [|by apply later_refl]. case_decide; [done|]. by apply set_udp_later.
  - apply keeps_bind'; [|intros n' H; apply later_refl, H]. destruct (NetMod_send _ n) as [n'|] eqn:E; [|done]. by eapply NetMod_send_later.
Qed.

Lemma recv_keeps s n : net_ok n → keeps_net n (sock_recv_from s n).
Proof.
  intros Hn. assert (∀ c, keeps_net n (TcpConnection_recv_from c n)) as Hc.
  { intros c. unfold TcpConnection_recv_from. destruct (ns_conn n !! c) as [k|]; [|done]. cbn [unwrap]. step_ret.
    destruct (tc_datas k); [by apply later_refl|by apply set_conn_later]. }
  destruct s as [u|t|c]; cbn [sock_recv_from]; [|destruct (first_client n t) as [[c|]|]; [apply Hc|by apply later_refl|done]|apply Hc].
  unfold UdpServer_recv_from. destruct (ns_udp n !! u) as [i|]; [|done]. cbn [unwrap]. step_ret.
  destruct (us_packets i); [by apply later_refl|by apply set_udp_later].
Qed.

Lemma bind_keeps s a n : net_ok n → keeps_net n (sock_bind s a n).
Proof. intros Hn. destruct s; [by apply udp_bind_keeps|by apply tcp_bind_keeps|by apply later_refl]. Qed.

Lemma listen_keeps s n : net_ok n → keeps_net n (sock_listen s n).
Proof. intros Hn. destruct s; [by apply later_refl|by apply bind_if_needed_keeps|by apply later_refl]. Qed.

Lemma connect_keeps s a n : net_ok n → keeps_net n (sock_connect s a n).
Proof.
  intros Hn. destruct s as [u|t|c]; [|by apply tcp_connect_keeps|by apply conn_connect_keeps]. cbn. unfold UdpServer_connect.
  destruct (ns_udp n !! u) as [i|]; [|done]. cbn [unwrap]. step_ret. set (n1 := set_udp u _ n). assert (later n n1) as H1 by (by apply set_udp_later).
  eapply keeps_net_trans; [exact H1|]. case_decide; [apply udp_bind_keeps, H1|apply later_refl, H1].
Qed.

Lemma accept_keeps s n : net_ok n → keeps_net n (sock_accept s n).
Proof.
  intros Hn. destruct s as [u|t|c]; [by apply later_refl| |by apply later_refl]. cbn. pose proof (tcp_accept_keeps t n Hn) as H.
  by destruct (TcpServer_accept t n) as [[r n']|].
Qed.

Lemma close_keeps s n : net_ok n → keeps_net n (sock_close s n).
Proof.
  intros Hn. destruct s as [u|t|c]; cbn [sock_close]; [|destruct (first_client n t) as [[c|]|]; [by apply conn_close_keeps|by apply later_refl|done]|by apply conn_close_keeps].
  unfold UdpServer_close. destruct (ns_udp n !! u) as [i|]; [|done]. by apply set_udp_map_delete_later.
Qed.

Lemma cache_later ip mac n : net_ok n → later n (cache_arp_entry ip mac n).
Proof. intros []. by split; [constructor|]. Qed.

Lemma analysis_keeps data n : net_ok n → keeps_net' n (analysis_net_data data n).
Proof.
  intros Hn. unfold analysis_net_data. destruct (iter_next ETH_LEN Eth_read data) as [[h d]|]; [|done]. cbn [unwrap]. step_ret.
  destruct (rtype h); [| |by apply later_refl].
  - unfold analysis_ip. destruct (iter_next IP_LEN Ip_read d) as [[ip d2]|]; [|done]. cbn [unwrap]. step_ret. case_decide; [by apply later_refl|].
    set (n1 := cache_arp_entry _ _ n). assert (later n n1) as H1 by (by apply cache_later). eapply keeps_net_trans'; [exact H1|].
    destruct H1 as [H1 _]. destruct (pro ip); try by apply later_refl.
    + unfold analysis_tcp. destruct (iter_next TCP_LEN Tcp_read d2) as [[th d3]|]; [|done]. cbn [unwrap]. step_ret. cbv zeta. case_decide; [|done]. step_ret.
      destruct (tcp_map n1 !! _) as [t|]; [|by apply later_refl]. destruct (contains _ _).
      * pose proof (add_queue_keeps t (mkAddr (src ip) (to_be 2 (t_sport th))) (to_be 4 (t_seq th)) n1 H1) as H2.
        by destruct (tcp_add_queue _ _ _ n1) as [[c n2]|].
      * destruct (get_client _ _ _ _) as [[c|]|]; [by apply interrupt_keeps|by apply later_refl|done].
    + unfold analysis_udp. destruct (iter_next UDP_LEN Udp_read d2) as [[uh d3]|]; [|done]. cbn [unwrap]. step_ret.
      destruct (udp_map n1 !! _); [by apply set_udp_later|by apply later_refl].
  - unfold analysis_arp. destruct (iter_next ARP_LEN Arp_read d) as [[ah d2]|]; [|done]. cbn [unwrap]. step_ret. case_decide; [by apply later_refl|].
    destruct (ArpPacket_reply _ _ _) as [p|]; [|done]. cbn [unwrap]. step_ret. destruct (NetMod_send _ n) eqn:E; [|done]. by eapply NetMod_send_later.
Qed.

(** ** Runs of the stack *)

Inductive net_step (n n' : NetServer) : Prop :=
  | st_udp u : blank_udp n = (u, n') → net_step n n'
  | st_tcp t : blank_tcp n = (t, n') → net_step n n'
  | st_sendto s d r x : sock_sendto s d r n = Ret (x, n') → net_step n n'
  | st_recv s x : sock_recv_from s n = Ret (x, n') → net_step n n'
  | st_bind s a x : sock_bind s a n = Ret (x, n') → net_step n n'
  | st_listen s x : sock_listen s n = Ret (x, n') → net_step n n'
  | st_connect s a x : sock_connect s a n = Ret (x, n') → net_step n n'
  | st_accept s x : sock_accept s n = Ret (x, n') → net_step n n'
  | st_close s x : sock_close s n = Ret (x, n') → net_step n n'
  | st_packet r : handle_net_turn r n = Ret n' → net_step n n'.

Lemma net_step_later n n' : net_ok n → net_step n n' → later n n'.
Proof.
  intros Hn Hs.
  assert (∀ A (o : outcome (A * NetServer)) x, keeps_net n o → o = Ret (x, n') → later n n') as Hk by (intros A o x Hk ->; exact Hk).
  destruct Hs as [u E|t E|s d r x E|s x E|s a x E|s x E|s a x E|s x E|s x E|r E].
  - by eapply blank_udp_keeps.
  - by eapply blank_tcp_keeps.
  - eapply Hk, E. by apply sendto_keeps.
  - eapply Hk, E. by apply recv_keeps.
  - eapply Hk, E. by apply bind_keeps.
  - eapply Hk, E. by apply listen_keeps.
  - eapply Hk, E. by apply connect_keeps.
  - eapply Hk, E. by apply accept_keeps.
  - eapply Hk, E. by apply close_keeps.
  - unfold handle_net_turn in E. destruct (ns_device n); [|done]. destruct r as [d|]; [|injection E as <-; by apply later_refl].
    pose proof (analysis_keeps d n Hn) as Ha. by rewrite E in Ha.
Qed.

Lemma NET_SERVER_ok device : net_ok (NET_SERVER device).
Proof. constructor; [intros ?? E|intros ?? E|intros ??? E|intros ?? E]; discriminate E. Qed.

(** The tables of the network stack stay sound, whatever the sockets do and whatever
    packets arrive: every port in the UDP or TCP table belongs to exactly one server, whose
    own address carries that port; every connection in a server's lists exists; no server or
    connection disappears.  No connection is ever in the state [WaitingForSynAck], the only
    one in which the answer to its first packet is taken: a connection to another machine
    goes from unconnected to [WaitingForFinAck]. *)
Theorem net_tables_sound (device : bool) (n : NetServer) : rtc net_step (NET_SERVER device) n →
  (∀ p u, udp_map n !! p = Some u → ∃ i, ns_udp n !! u = Some i ∧ sa_port (us_local i) = p ∧ ∀ q, udp_map n !! q = Some u → q = p) ∧
  (∀ p t, tcp_map n !! p = Some t → ∃ sv, ns_tcp n !! t = Some sv ∧ sa_port (sv_local sv) = p ∧ ∀ q, tcp_map n !! q = Some t → q = p) ∧
  (∀ t sv c, ns_tcp n !! t = Some sv → c ∈ sv_clients sv ++ sv_wait_queue sv → is_Some (ns_conn n !! c)) ∧
  (∀ c k, ns_conn n !! c = Some k → tc_status k ≠ WaitingForSynAck) ∧
  (∀ n' s, rtc net_step n n' → sock_live n s → sock_live n' s).
Proof.
  assert (∀ n1 n2, rtc net_step n1 n2 → net_ok n1 → later n1 n2) as Hrun.
  { induction 1 as [n1|n1 n2 n3 H12 _ IH]; intros Hn; [by apply later_refl|]. pose proof (net_step_later _ _ Hn H12) as H. eapply later_trans; [exact H|]. apply IH, H. }
  intros [Hn _]%Hrun; [|apply NET_SERVER_ok]. pose proof Hn as Hok. destruct Hn as [Hu Ht Hc Hs]. split_and!.
  - intros p u (i & Hi & Hp)%Hu. exists i. split_and!; [done|done|]. intros q (j & Hj & Hq)%Hu. congruence.
  - intros p t (i & Hi & Hp)%Ht. exists i. split_and!; [done|done|]. intros q (j & Hj & Hq)%Ht. congruence.
  - done.
  - done.
  - intros n' s Hr. by apply Hrun.
Qed.

Lemma net_tables_sound_witness : ∃ n, tcp_map n !! 8080 = Some 0%nat ∧ ∀ q, tcp_map n !! q = Some 0%nat → q = 8080.
Proof.
  destruct (sock_bind (S_tcp 0) (mkAddr (Ip4 0 0 0 0) 8080) (blank_tcp (NET_SERVER false)).2) as [[x n]|] eqn:E; [|vm_compute in E; discriminate E].
  exists n. assert (tcp_map n !! 8080 = Some 0%nat) as Hp by (vm_compute in E; injection E as _ <-; vm_compute; reflexivity). split; [exact Hp|].
  destruct (net_tables_sound false n) as (_ & H & _); [|destruct (H 8080 0%nat Hp) as (sv & _ & _ & Hq); exact Hq].
  eapply rtc_l; [apply (st_tcp _ _ (blank_tcp (NET_SERVER false)).1); apply surjective_pairing|]. apply rtc_once. eapply st_bind. exact E.
Defined.

(** ** Datagrams on the wire *)

Definition arp_ok (n : NetServer) : Prop := ∀ ip m, ARP_TABLE n !! ip = Some m → length m = 6%nat.

Lemma mac_or_broadcast n ip : arp_ok n → length (default BROADCAST_MAC (get_mac_address n ip)) = 6%nat.
Proof. intros Hn. unfold get_mac_address. destruct (ARP_TABLE n !! ip) as [m|] eqn:E; [by eapply Hn|done]. Qed.

(** The packet of a datagram, followed by other bytes. *)
Lemma analysis_udp_packet sm dm a b buf pad n v : length sm = 6%nat → length dm = 6%nat → addr_ok a → addr_ok b →
  local_ip n = sa_ip b → udp_map n !! sa_port b = Some v →
  analysis_net_data (udp_packet sm dm a b buf ++ pad) n = Ret (set_udp v (udp_add_queue a (buf ++ pad)) (cache_arp_entry (sa_ip a) sm n)).
Proof.
  intros Hsm Hdm [Ha Hpa] [Hb Hpb] Hip Hv. unfold analysis_net_data, udp_packet. rewrite <- !app_assoc.
  destruct (Eth_read_bytes (mkEth dm sm RT_IP) Hdm Hsm) as [E1 L1]. rewrite (iter_next_app _ _ _ _ L1), E1. cbn [unwrap]. step_ret.
  cbn [rtype]. unfold analysis_ip. set (len := blen buf + Z.of_nat UDP_LEN + Z.of_nat IP_LEN).
  destruct (ip_header_spec UDP (sa_ip a) (sa_ip b) len Ha Hb) as (_ & E2 & L2). rewrite (iter_next_app _ _ _ _ L2), E2. cbn [unwrap]. step_ret.
  cbn [ip_header vhl dst src pro shost]. rewrite decide_False by (rewrite Hip; intros [H|H]; by apply H). unfold analysis_udp.
  set (h := mkUdp _ _ _ _). destruct (Udp_read_bytes h) as [E3 L3]; [apply (to_be_range 2)..|cbn; lia|].
  rewrite (iter_next_app _ _ _ _ L3), E3. cbn [unwrap]. step_ret. cbn [h u_dport u_sport]. rewrite !(to_be_be 2) by done.
  change (udp_map (cache_arp_entry (sa_ip a) sm n)) with (udp_map n). rewrite Hv. by destruct a.
Qed.

(** A datagram survives the wire: when a UDP socket sends bytes to a port of another
    machine, the packet its network device is given, received by a stack that has this
    address and a socket on this port, puts exactly these bytes and the sender's address at
    the end of that socket's queue, where [recv_from] finds them; the receiver learns the
    sender's hardware address from the packet, and the checksum of its IP header verifies. *)
Theorem udp_wire_roundtrip (n1 n2 : NetServer) (u v : nat) (i j : UdpServer) (addr : SocketAddrV4) (buf : list Z) :
  ns_udp n1 !! u = Some i → ns_device n1 = true → arp_ok n1 → addr_ok (us_local i) → addr_ok addr → served_here addr (us_local i) = false →
  local_ip n2 = sa_ip addr → udp_map n2 !! sa_port addr = Some v → ns_udp n2 !! v = Some j →
  ∃ n1' n2' packet mac, sock_sendto (S_udp u) buf (Some addr) n1 = Ret (NOk (blen buf), n1') ∧ ns_sent n1' = ns_sent n1 ++ [packet] ∧
    analysis_net_data packet n2 = Ret n2' ∧
    ns_udp n2' !! v = Some (mkUdpServer (us_local j) (us_remote j) (us_packets j ++ [(buf, us_local i)])) ∧
    (us_packets j = [] → ∃ n3, sock_recv_from (S_udp v) n2' = Ret (NOk (buf, us_local i), n3)) ∧
    get_mac_address n2' (sa_ip (us_local i)) = Some mac ∧ length mac = 6%nat ∧
    check_sum (take IP_LEN (drop ETH_LEN packet)) 0 = 0.
Proof.
  intros Hu Hdev Harp Ha Hb Hs Hip Hv Hj. cbn [sock_sendto]. unfold UdpServer_sendto. rewrite Hu. cbn [unwrap]. step_ret. rewrite Hs.
  unfold NetMod_send. rewrite Hdev. step_ret. set (sm := default _ (get_mac_address n1 (sa_ip (us_local i)))).
  set (dm := default _ (get_mac_address n1 (sa_ip addr))). assert (length sm = 6%nat) as Hsm by (by apply mac_or_broadcast).
  assert (length dm = 6%nat) as Hdm by (by apply mac_or_broadcast). set (packet := udp_packet sm dm (us_local i) addr buf).
  pose proof (analysis_udp_packet sm dm (us_local i) addr buf [] n2 v Hsm Hdm Ha Hb Hip Hv) as E. rewrite !app_nil_r in E. set (n2' := set_udp v _ _) in E.
  assert (ns_udp n2' !! v = Some (mkUdpServer (us_local j) (us_remote j) (us_packets j ++ [(buf, us_local i)]))) as Hn.
  { cbn. rewrite lookup_alter_eq, Hj. done. }
  eexists _, n2', packet, sm. split; [done|]. split; [done|]. split; [exact E|]. split; [exact Hn|]. split_and!.
  - intros Hq. rewrite Hq in Hn. cbn [sock_recv_from]. unfold UdpServer_recv_from. rewrite Hn. cbn [unwrap]. step_ret. cbn [us_packets app]. by eexists.
  - unfold get_mac_address. cbn. apply lookup_insert_eq.
  - done.
  - unfold packet, udp_packet. destruct (Eth_read_bytes (mkEth dm sm RT_IP) Hdm Hsm) as [_ L1].
    destruct (ip_header_spec UDP (sa_ip (us_local i)) (sa_ip addr) (blen buf + Z.of_nat UDP_LEN + Z.of_nat IP_LEN) (proj1 Ha) (proj1 Hb)) as (E2 & _ & L2).
    rewrite (drop_app_length' _ _ _ (eq_sym L1)), (take_app_length' _ _ _ (eq_sym L2)). exact E2.
Qed.

(** Two machines, 10.0.2.15 and 10.0.2.2, each with one socket. *)
Definition demo_net (ip : Ipv4Addr) (port : Z) : NetServer :=
  mkNetServer NET_MAC ip {[0%nat := mkUdpServer (mkAddr ip port) None []]} ∅ ∅ {[port := 0%nat]} ∅ ∅ true [].

Lemma udp_wire_roundtrip_witness : ∃ n2', ns_udp n2' !! 0%nat = Some (mkUdpServer (mkAddr (Ip4 10 0 2 2) 53) None [([104; 105], mkAddr (Ip4 10 0 2 15) 20000)]).
Proof.
  destruct (udp_wire_roundtrip (demo_net (Ip4 10 0 2 15) 20000) (demo_net (Ip4 10 0 2 2) 53) 0 0
    (mkUdpServer (mkAddr (Ip4 10 0 2 15) 20000) None []) (mkUdpServer (mkAddr (Ip4 10 0 2 2) 53) None []) (mkAddr (Ip4 10 0 2 2) 53) [104; 105])
    as (n1' & n2' & p & m & _ & _ & _ & E & _);
    [reflexivity|reflexivity|intros ip m E; discriminate E|apply (bool_decide_unpack _); vm_compute; exact I|apply (bool_decide_unpack _); vm_compute; exact I
    |reflexivity|reflexivity|reflexivity|reflexivity|].
  exists n2'. exact E.
Defined.

(** The length field of a datagram is not looked at: bytes that follow it in the packet, such
    as the padding of a short Ethernet frame, are delivered as data. *)
Theorem udp_padding_delivered sm dm a b buf pad n v j : length sm = 6%nat → length dm = 6%nat → addr_ok a → addr_ok b →
  local_ip n = sa_ip b → udp_map n !! sa_port b = Some v → ns_udp n !! v = Some j →
  ∃ n', analysis_net_data (udp_packet sm dm a b buf ++ pad) n = Ret n' ∧
    ns_udp n' !! v = Some (mkUdpServer (us_local j) (us_remote j) (us_packets j ++ [(buf ++ pad, a)])).
Proof.
  intros Hsm Hdm Ha Hb Hip Hv Hj. eexists. split; [by apply analysis_udp_packet|]. cbn. by rewrite lookup_alter_eq, Hj.
Qed.
