(* ===== verification/Socket.v ===== *)
(** * Sockets and socket system calls

    Models kernel/src/socket.rs and kernel/src/syscall/socket.rs on the descriptors of
    SysFile and the network stack of Net.  A kernel socket ([Arc<Socket>]) is an inode of the
    file systems' world: [K_sock k] is the node of the socket with key [k], [K_pair p] that of
    a socket pair, [K_fs n] a node of the file systems proper.

    A socket is dropped when no open file is on it and no waiting call holds it; [sweep] runs
    the destructor of the sockets for which this has become true, at the end of a call.  Calls
    that wait return a value of their own type, which the poll function takes up again.  User
    structures appear as values, [None] being a null pointer. *)

From S2P Require Import Prelude Path Vfs Pipe File FdTable SysFile Packet Net.

Inductive NetType := STEAM | DGRAME | RAW.

Definition NetType_from_usize (value : Z) : option NetType :=
  if decide (value = 1) then Some STEAM else if decide (value = 2) then Some DGRAME else None.

Record Socket := mkSocket {
  sk_domain : Z; sk_net_type : NetType; sk_inner : Sock; sk_wsize : Z; sk_rsize : Z; sk_buf : list Z;
}.

(** [kw_held] are the sockets that waiting calls hold, [kw_console] the bytes put on the debug
    console. *)
Record SockWorld (W : Type) := mkSockWorld {
  kw_fs : W; kw_net : NetServer; kw_socks : gmap nat Socket; kw_pairs : gmap nat (list Z); kw_held : list nat; kw_console : list Z;
}.
Arguments mkSockWorld {W}.
Arguments kw_fs {W}. Arguments kw_net {W}. Arguments kw_socks {W}. Arguments kw_pairs {W}. Arguments kw_held {W}. Arguments kw_console {W}.

Inductive SNode (N : Type) := K_fs (n : N) | K_sock (k : nat) | K_pair (p : nat).
Arguments K_fs {N} n.
Arguments K_sock {N} k.
Arguments K_pair {N} p.

Section sockets.
Context {N W : Type} (ops : N → INode N W).

Abbreviation KW := (SockWorld W).
Abbreviation SN := (SNode N).

Definition set_kfs (x : W) (w : KW) : KW := mkSockWorld x (kw_net w) (kw_socks w) (kw_pairs w) (kw_held w) (kw_console w).
Definition set_net (x : NetServer) (w : KW) : KW := mkSockWorld (kw_fs w) x (kw_socks w) (kw_pairs w) (kw_held w) (kw_console w).
Definition set_socks f (w : KW) : KW := mkSockWorld (kw_fs w) (kw_net w) (f (kw_socks w)) (kw_pairs w) (kw_held w) (kw_console w).
Definition set_pairs f (w : KW) : KW := mkSockWorld (kw_fs w) (kw_net w) (kw_socks w) (f (kw_pairs w)) (kw_held w) (kw_console w).
Definition set_kheld f (w : KW) : KW := mkSockWorld (kw_fs w) (kw_net w) (kw_socks w) (kw_pairs w) (f (kw_held w)) (kw_console w).
Definition putchar (b : Z) (w : KW) : KW := mkSockWorld (kw_fs w) (kw_net w) (kw_socks w) (kw_pairs w) (kw_held w) (kw_console w ++ [b]).

(** An operation of the network stack. *)
Definition on_net {A} (f : NetServer → outcome (A * NetServer)) (w : KW) : outcome (A * KW) :=
  '(a, n) ← f (kw_net w); Ret (a, set_net n w).

(** [Result::unwrap] of a network result. *)
Definition net_unwrap {A} (r : nresult A) : outcome A := match r with NOk a => Ret a | NErr _ => Panic end.

(** ** [Socket] *)

Definition new_sock (x : Socket) (w : KW) : nat * KW :=
  let k := fresh (dom (kw_socks w)) in (k, set_socks (insert k x) w).

Definition Socket_new_with_inner (domain : Z) (t : NetType) (inner : Sock) (w : KW) : nat * KW :=
  new_sock (mkSocket domain t inner 0 0 []) w.

Definition Socket_new (domain : Z) (t : NetType) (w : KW) : outcome (nat * KW) :=
  match t with
  | STEAM => let '(i, n) := blank_tcp (kw_net w) in Ret (Socket_new_with_inner domain t (S_tcp i) (set_net n w))
  | DGRAME => let '(i, n) := blank_udp (kw_net w) in Ret (Socket_new_with_inner domain t (S_udp i) (set_net n w))
  | RAW => Panic
  end.

Definition Socket_recv_from (x : Socket) (w : KW) : outcome (result (list Z * SocketAddrV4) * KW) :=
  '(r, w) ← on_net (sock_recv_from (sk_inner x)) w;
  Ret (match r with NOk d => Ok d | NErr _ => Err EWOULDBLOCK end, w).

Definition Socket_reuse (x : Socket) (port : Z) (w : KW) : outcome Socket :=
  t ← net_unwrap (sock_get_protocol (sk_inner x));
  inner ← match t with
          | ST_TCP => i ← unwrap (tcp_map (kw_net w) !! port); Ret (S_tcp i)
          | ST_UDP => i ← unwrap (udp_map (kw_net w) !! port); Ret (S_udp i)
          | ST_RAW => Panic
          end;
  Ret (mkSocket (sk_domain x) (sk_net_type x) inner (sk_wsize x) (sk_rsize x) []).

Definition Socket_readat (k : nat) (buffer : list Z) (w : KW) : outcome (result Z * list Z * KW) :=
  x ← unwrap (kw_socks w !! k);
  '(r, w) ← (if decide (sk_buf x = []) then '(r, w) ← Socket_recv_from x w; Ret (match r with Ok d => Ok d.1 | Err e => Err e end, w)
             else Ret (Ok (sk_buf x), w));
  match r with
  | Err e => Ret (Err e, buffer, w)
  | Ok data =>
      let rlen := Nat.min (length data) (length buffer) in
      let buffer := buf_write buffer (take rlen data) in
      let w := if decide (length buffer = 1%nat) then putchar (default 0 (buffer !! 0%nat)) w else w in
      Ret (Ok (Z.of_nat rlen), buffer,
           set_socks (insert k (mkSocket (sk_domain x) (sk_net_type x) (sk_inner x) (sk_wsize x) (sk_rsize x +u Z.of_nat rlen) (drop rlen data))) w)
  end.

Definition Socket_writeat (k : nat) (buffer : list Z) (w : KW) : outcome (result Z * KW) :=
  x ← unwrap (kw_socks w !! k);
  '(r, w) ← on_net (sock_sendto (sk_inner x) buffer None) w;
  Ret (match r with
       | NOk len => (Ok len, set_socks (insert k (mkSocket (sk_domain x) (sk_net_type x) (sk_inner x) (sk_wsize x +u len) (sk_rsize x) (sk_buf x))) w)
       | NErr _ => (Err EPERM, w)
       end).

Definition Socket_poll (k : nat) (events : Z) (w : KW) : outcome (result Z) :=
  x ← unwrap (kw_socks w !! k);
  let n := kw_net w in
  out ← (if contains events POLLOUT then
           r ← sock_is_closed (sk_inner x) n; closed ← net_unwrap r;
           if (closed : bool) then Ret false
           else r ← sock_get_remote (sk_inner x) n; Ret (match r with NOk _ => true | NErr _ => false end)
         else Ret false);
  let res := if (out : bool) then Z.lor POLL_NONE POLLOUT else POLL_NONE in
  r ← sock_readable (sk_inner x) n; readable ← net_unwrap r;
  Ret (Ok (if (readable : bool) && contains events POLLIN then Z.lor res POLLIN else res)).

Definition Socket_stat (stat : Stat) : Stat :=
  mkStat (st_dev stat) (st_ino stat) S_SOCKET (st_nlink stat) (st_uid stat) (st_gid stat) (st_rdev stat)
    (st_size stat) (st_blksize stat) (st_blocks stat) (st_atime stat) (st_mtime stat) (st_ctime stat).

(** [Arc::strong_count] of the inner socket: the kernel sockets on it, the port tables, and, for
    a connection, the lists of the servers that exist (those in the port table or in a kernel
    socket). *)
Definition count_val (i : nat) (m : gmap Z nat) : nat := length (filter (λ e, e.2 = i) (map_to_list m)).
Definition count_in (i : nat) (l : list nat) : nat := length (filter (λ x, x = i) l).
Definition sock_owners (w : KW) (s : Sock) : nat := length (filter (λ e, sk_inner e.2 = s) (map_to_list (kw_socks w))).
Definition server_lives (w : KW) (t : nat) : bool :=
  bool_decide (count_val t (tcp_map (kw_net w)) ≠ 0%nat ∨ sock_owners w (S_tcp t) ≠ 0%nat).
Definition strong_count (w : KW) (s : Sock) : nat :=
  (sock_owners w s +
   match s with
   | S_udp u => count_val u (udp_map (kw_net w))
   | S_tcp t => count_val t (tcp_map (kw_net w))
   | S_conn c => sum_list_with (λ e, if server_lives w e.1 then count_in c (sv_clients e.2) + count_in c (sv_wait_queue e.2) else 0%nat)
                   (map_to_list (ns_tcp (kw_net w)))
   end)%nat.

(** The destructor, and the end of the socket; errors of [close] are dropped. *)
Definition Socket_drop (k : nat) (w : KW) : outcome KW :=
  x ← unwrap (kw_socks w !! k);
  r ← sock_is_closed (sk_inner x) (kw_net w); closed ← net_unwrap r;
  w ← (if negb closed && bool_decide (strong_count w (sk_inner x) = 2%nat ∨ strong_count w (sk_inner x) = 1%nat)
       then '(_, w) ← on_net (sock_close (sk_inner x)) w; Ret w else Ret w);
  Ret (set_socks (delete k) w).

(** ** Inodes *)

Section lift_fs.
Definition updk {A} (f : W → outcome (A * W)) (w : KW) : outcome (A * KW) := '(a, x) ← f (kw_fs w); Ret (a, set_kfs x w).
Definition obsk {A} (f : W → outcome A) (w : KW) : outcome A := f (kw_fs w).

Definition lift_fs (i : INode N W) : INode SN KW := {|
  i_readat off buf := updk (i_readat i off buf); i_writeat off buf := updk (i_writeat i off buf);
  i_create name ty := updk (i_create i name ty); i_mkdir name := updk (i_mkdir i name);
  i_rmdir name := updk (i_rmdir i name); i_remove name := updk (i_remove i name); i_read_dir := obsk (i_read_dir i);
  i_lookup name w :=
    match obsk (i_lookup i name) w with Ret (Ok n) => Ret (Ok (K_fs n)) | Ret (Err e) => Ret (Err e) | Panic => Panic end;
  i_ioctl cmd arg := updk (i_ioctl i cmd arg); i_truncate size := updk (i_truncate i size); i_flush := updk (i_flush i);
  i_resolve_link := obsk (i_resolve_link i);
  i_link name src w := match src with K_fs src => updk (i_link i name src) w | _ => Ret (Err EPERM, w) end;
  i_symlink name target := updk (i_symlink i name target); i_unlink name := updk (i_unlink i name); i_stat st := obsk (i_stat i st);
  i_mount path := updk (i_mount i path); i_umount := updk (i_umount i); i_statfs st := obsk (i_statfs i st);
  i_utimes times := updk (i_utimes i times); i_poll ev := updk (i_poll i ev);
|}.
End lift_fs.

(** A device inode: the trait's defaults but for reading, writing, polling and status. *)
Definition dev_inode (readat : Z → list Z → KW → outcome (result Z * list Z * KW)) (writeat : Z → list Z → KW → outcome (result Z * KW))
    (poll : Z → KW → outcome (result Z * KW)) (stat : Stat → KW → outcome (result unit * Stat)) : INode SN KW :=
  let d := @INode_default SN KW in {|
  i_readat := readat; i_writeat := writeat; i_create := i_create d; i_mkdir := i_mkdir d; i_rmdir := i_rmdir d;
  i_remove := i_remove d; i_read_dir := i_read_dir d; i_lookup := i_lookup d; i_ioctl := i_ioctl d; i_truncate := i_truncate d;
  i_flush := i_flush d; i_resolve_link := i_resolve_link d; i_link := i_link d; i_symlink := i_symlink d; i_unlink := i_unlink d;
  i_stat := stat; i_mount := i_mount d; i_umount := i_umount d; i_statfs := i_statfs d; i_utimes := i_utimes d; i_poll := poll |}.

Definition Socket_inode (k : nat) : INode SN KW :=
  dev_inode (λ _, Socket_readat k) (λ _, Socket_writeat k) (λ ev w, r ← Socket_poll k ev w; Ret (r, w)) (λ st _, Ret (Ok tt, Socket_stat st)).

Definition SocketPair_inode (p : nat) : INode SN KW :=
  dev_inode
    (λ _ buf w, q ← unwrap (kw_pairs w !! p); let '(r, buf, q) := SocketPair_readat q buf in Ret (r, buf, set_pairs (insert p q) w))
    (λ _ buf w, q ← unwrap (kw_pairs w !! p); let '(r, q) := SocketPair_writeat q buf in Ret (r, set_pairs (insert p q) w))
    (λ ev w, q ← unwrap (kw_pairs w !! p); Ret (Ok (SocketPair_poll q ev), w))
    (i_stat (@INode_default SN KW)).

Definition sock_ops (n : SN) : INode SN KW :=
  match n with K_fs n => lift_fs (ops n) | K_sock k => Socket_inode k | K_pair p => SocketPair_inode p end.

(** ** System calls *)

Abbreviation St := (Sys SN KW).
Abbreviation C := (call SN KW).

Definition sw (s : St) : KW := nw_fs (sy_world s).
Definition set_sw (w : KW) (s : St) : St := set_world (put_fs w (sy_world s)) s.
Definition on_sw {A} (f : KW → outcome (A * KW)) : C A := λ s, '(a, w) ← f (sw s); Ret (Ok a, set_sw w s).
Definition see_sw {A} (f : KW → outcome A) : C A := see (λ s, f (sw s)).

(** Some open file is on the socket [k]. *)
Definition on_sock (k : nat) (n : Node SN) : bool := match n with N_fs (K_sock j) => bool_decide (j = k) | _ => false end.
Definition sock_open (s : St) (k : nat) : bool := existsb (λ e, on_sock k (f_inner e.2)) (map_to_list (sy_files s)).

(** Drops the sockets that nothing refers to any more. *)
Definition orphans (s : St) : list nat :=
  filter (λ k, sock_open s k = false ∧ k ∉ kw_held (sw s)) (elements (dom (kw_socks (sw s)))).
Definition sweep (s : St) : outcome St := foldM (λ s k, w ← Socket_drop k (sw s); Ret (set_sw w s)) (orphans s) s.
Definition swept {A} (m : C A) : C A := λ s, '(r, s) ← m s; s ← sweep s; Ret (r, s).

(** [get_bare_file().downcast_arc::<Socket>()] of a file, and of a descriptor. *)
Definition socket_in (id : nat) : C nat :=
  file ← file_at id; match f_inner file with N_fs (K_sock k) => mret k | _ => try (Err EINVAL) end.
Definition socket_of (fd : Z) : C nat := id ← fd_or fd EINVAL; socket_in id.
Definition socket_at (k : nat) : C Socket := see_sw (λ w, unwrap (kw_socks w !! k)).

Definition hold_sock (k : nat) : C unit := on_sw (λ w, Ret (tt, set_kheld (cons k) w)).
Definition release_sock (k : nat) : C unit := on_sw (λ w, Ret (tt, set_kheld (remove_one k) w)).

(** [self.task.set_fd(fd, File::new_dev(socket))]. *)
Definition put_node (fd : Z) (n : SN) : C nat := id ← new_file (File_new_dev (N_fs n)); put_fd fd id;; mret id.

Record SocketAddrIn := mkSocketAddrIn { sin_family : Z; sin_port : Z; sin_addr : Ipv4Addr; sin_zero : list Z }.

(** The structure with its first three fields set. *)
Definition put_addr (a : SocketAddrIn) (port : Z) (ip : Ipv4Addr) : SocketAddrIn := mkSocketAddrIn 2 port ip (sin_zero a).
Definition user_addr (a : SocketAddrIn) : SocketAddrV4 := mkAddr (sin_addr a) (to_be 2 (sin_port a)).

Definition sys_socket (domain net_type : Z) : C Z :=
  fd ← new_fd EMFILE;
  net_type ← try (ok_or (NetType_from_usize net_type) EINVAL);
  k ← on_sw (Socket_new domain net_type);
  put_node fd (K_sock k);; mret fd.

(** The two numbers are the caller's. *)
Definition sys_socket_pair (fds : Z * Z) : C (result Z * (Z * Z)) :=
  p ← on_sw (λ w, let p := fresh (dom (kw_pairs w)) in Ret (p, set_pairs (insert p create_socket_pair) w));
  o ← (λ s, '(r, s) ← new_fd ENFILE s; Ret (Ok r, s));
  match o with
  | Err e => mret (Err e, fds)
  | Ok rx_fd =>
      put_node rx_fd (K_pair p);;
      o ← (λ s, '(r, s) ← new_fd ENFILE s; Ret (Ok r, s));
      match o with
      | Err e => mret (Err e, (as_u32 rx_fd, fds.2))
      | Ok tx_fd => put_node tx_fd (K_pair p);; mret (Ok 0, (as_u32 rx_fd, as_u32 tx_fd))
      end
  end.

Definition sys_bind (socket_fd : Z) (addr : option SocketAddrIn) : C Z := swept (
  k ← socket_of socket_fd; x ← socket_at k;
  socket_addr ← see (λ _, unwrap addr);
  let port := to_be 2 (sin_port socket_addr) in
  if decide (sin_family socket_addr ≠ 2) then try (Err EAFNOSUPPORT)
  else
    n ← see_sw (λ w, Ret (kw_net w));
    if match sk_net_type x with STEAM => tcp_is_used n port | DGRAME => udp_is_used n port | RAW => false end then
      sock ← see_sw (Socket_reuse x port);
      k ← on_sw (λ w, Ret (new_sock sock w));
      put_node socket_fd (K_sock k);; mret 0
    else
      r ← on_sw (on_net (sock_bind (sk_inner x) (user_addr socket_addr)));
      match r with NOk _ => mret 0 | NErr _ => try (Err EALREADY) end).

Definition sys_listen (socket_fd : Z) : C Z :=
  k ← socket_of socket_fd; x ← socket_at k;
  on_sw (on_net (sock_listen (sk_inner x)));; mret 0.

(** *** Accepting *)

(** A waiting [accept]: the open file and the socket it holds, and the number it will use. *)
Record Accept := mkAccept { ac_file : nat; ac_sock : nat; ac_fd : Z }.

Definition accept_start (socket_fd : Z) : C Accept :=
  id ← fd_or socket_fd EINVAL; k ← socket_in id; fd ← new_fd EMFILE;
  hold id;; hold_sock k;; mret (mkAccept id k fd).

Definition accept_end (a : Accept) : C unit := release_sock (ac_sock a);; release (ac_file a).

Definition accept_inner (x : Socket) : C (nresult Sock) := on_sw (on_net (sock_accept (sk_inner x))).

Definition sys_accept (socket_fd : Z) : C Accept := accept_start socket_fd.

Definition sys_accept_poll (a : Accept) (has_signal : bool) : C (Poll (result Z)) := swept (
  x ← socket_at (ac_sock a);
  r ← accept_inner x;
  match r with
  | NOk new_socket =>
      k ← on_sw (λ w, Ret (Socket_new_with_inner (sk_domain x) (sk_net_type x) new_socket w));
      put_node (ac_fd a) (K_sock k);; accept_end a;; mret (Ready (Ok (ac_fd a)))
  | NErr _ => if has_signal then accept_end a;; mret (Ready (Err EINTR)) else mret Pending
  end).

Definition sys_accept4 (socket_fd : Z) : C Accept := accept_start socket_fd.

(** The caller's structure comes back filled in. *)
Definition sys_accept4_poll (a : Accept) (socket_addr : option SocketAddrIn) (flags : Z) : C (Poll (result Z) * option SocketAddrIn) := swept (
  x ← socket_at (ac_sock a);
  r ← accept_inner x;
  match r with
  | NOk new_socket =>
      sa ← see (λ _, unwrap socket_addr);
      remote ← see_sw (λ w, r ← sock_get_remote new_socket (kw_net w); net_unwrap r);
      k ← on_sw (λ w, Ret (Socket_new_with_inner (sk_domain x) (sk_net_type x) new_socket w));
      id ← new_file (set_flags (File_new_dev (N_fs (K_sock k))) (OpenFlags_truncate flags)); put_fd (ac_fd a) id;;
      accept_end a;; mret (Ready (Ok (ac_fd a)), Some (put_addr sa (sa_port remote) (sa_ip remote)))
  | NErr _ =>
      f ← file_at (ac_file a);
      if contains (f_flags f) O_NONBLOCK then accept_end a;; mret (Ready (Err EAGAIN), socket_addr) else mret (Pending, socket_addr)
  end).

(** *** Connecting *)

(** The structure is read once, before the first attempt. *)
Definition sys_connect (socket_fd : Z) (socket_addr : option SocketAddrIn) : C (nat * SocketAddrV4) :=
  k ← socket_of socket_fd;
  a ← see (λ _, unwrap socket_addr);
  hold_sock k;; mret (k, user_addr a).

Definition sys_connect_poll (c : nat * SocketAddrV4) : C (Poll (result Z)) := swept (
  x ← socket_at c.1;
  r ← on_sw (on_net (sock_connect (sk_inner x) c.2));
  match r with NErr Blocking => mret Pending | _ => release_sock c.1;; mret (Ready (Ok 0)) end).

(** *** Receiving and sending *)

Definition sys_recvfrom (socket_fd : Z) : C (nat * nat) :=
  id ← fd_or socket_fd EINVAL; k ← socket_in id; hold id;; hold_sock k;; mret (id, k).

Definition sys_recvfrom_poll (c : nat * nat) (buffer : list Z) (addr : option SocketAddrIn)
    : C (Poll (result Z) * list Z * option SocketAddrIn) := swept (
  x ← socket_at c.2;
  r ← on_sw (Socket_recv_from x);
  match r with
  | Ok (data, remote) =>
      let rlen := Nat.min (length data) (length buffer) in
      release_sock c.2;; release c.1;;
      mret (Ready (Ok (Z.of_nat rlen)), buf_write buffer (take rlen data),
            (λ a, put_addr a (to_be 2 (sa_port remote)) (sa_ip remote)) <$> addr)
  | Err _ =>
      f ← file_at c.1;
      if contains (f_flags f) O_NONBLOCK then release_sock c.2;; release c.1;; mret (Ready (Err EAGAIN), buffer, addr)
      else mret (Pending, buffer, addr)
  end).

Definition sys_sendto (socket_fd : Z) (buffer : list Z) (addr : option SocketAddrIn) : C Z :=
  k ← socket_of socket_fd; x ← socket_at k;
  local ← see_sw (λ w, r ← sock_get_local (sk_inner x) (kw_net w); net_unwrap r);
  (if decide (sa_port local = 0) then
     r ← on_sw (on_net (sock_bind (sk_inner x) (mkAddr (Ip4 127 0 0 1) 0)));
     match r with NOk _ => mret tt | NErr _ => try (Err EALREADY) end
   else mret tt);;
  r ← on_sw (on_net (sock_sendto (sk_inner x) buffer (user_addr <$> addr)));
  see (λ _, net_unwrap r).

Definition sys_shutdown (socket_fd : Z) : C Z :=
  k ← socket_of socket_fd; x ← socket_at k;
  on_sw (on_net (sock_close (sk_inner x)));; mret 0.

(** *** Names and options *)

Definition sys_name (get : Sock → NetServer → outcome (nresult SocketAddrV4)) (socket_fd : Z) (addr : option SocketAddrIn)
    : C (Z * option SocketAddrIn) :=
  k ← socket_of socket_fd; x ← socket_at k;
  match addr with
  | Some a =>
      address ← see_sw (λ w, r ← get (sk_inner x) (kw_net w); net_unwrap r);
      mret (0, Some (put_addr a (to_be 2 (sa_port address)) (sa_ip address)))
  | None => mret (0, None)
  end.
Definition sys_getsockname := sys_name sock_get_local.
Definition sys_getpeername := sys_name sock_get_remote.

Definition sys_setsockopt : C Z := mret 0.

(** The structure is written through the caller's pointer. *)
Definition sys_getsockopt (optname : Z) (optval : option Z) : C (Z * option Z) :=
  let put v := see (λ _, _ ← unwrap optval; Ret (0, Some v)) in
  if decide (optname = 7) then put 32000
  else if decide (optname = 8) then put 32000
  else if decide (optname = 2) then put 2000
  else if decide (optname = 4) then try (Err EPERM)
  else mret (0, optval).

(** Closing and replacing descriptors of sockets. *)
Definition sock_sys_close (fd : Z) : C Z := swept (sys_close fd).
Definition sock_sys_dup3 (a b : Z) : C Z := swept (sys_dup3 a b).
End sockets.
