(* ===== verification/SockCalls.v ===== *)
(** * What sockets do

    Theorems on the sockets of Socket: a TCP connection inside the machine is a byte stream in
    each direction, [connect] and [accept] set it up, datagrams arrive whole and with the
    sender's address; and the cases in which the code does not do what it should: descriptors
    taken by a waiting [accept], stream data cut off by [recvfrom], closing a connection that
    has not been accepted. *)

From S2P Require Import Prelude Path Vfs Pipe File FdTable SysFile SysWf SysCalls Packet Net Socket.

(** ** Connections inside the machine *)

(** The connection a socket sends and receives on. *)
Definition conn_of (n : NetServer) (s : Sock) : option nat :=
  match s with
  | S_udp _ => None
  | S_tcp t => sv ← ns_tcp n !! t; if sv_is_client sv then sv_clients sv !! 0%nat else None
  | S_conn c => Some c
  end.

(** What the connection [c] sends goes to the connection [d], of a client that server [t] has
    accepted or that waits to be. *)
Definition reaches (n : NetServer) (c d t : nat) : Prop :=
  ∃ k sv, ns_conn n !! c = Some k ∧ served_here (tc_remote k) (tc_local k) = true ∧
    tcp_map n !! sa_port (tc_remote k) = Some t ∧ ns_tcp n !! t = Some sv ∧
    let a := find_remote n (tc_local k) (sv_clients sv) in
    let q := find_remote n (tc_local k) (sv_wait_queue sv) in
    (a = Some d ∧ q = None) ∨ (a = None ∧ q = Some d).

(** What is sent on socket [s] goes to [d]. *)
Definition linked (n : NetServer) (s : Sock) (d : nat) : Prop :=
  ∃ c t, conn_of n s = Some c ∧ reaches n c d t ∧ s ≠ S_tcp t ∧ is_Some (ns_conn n !! d).

(** A state that differs in the queued data and the numbers of connections only. *)
Record same_links (n n' : NetServer) : Prop := {
  sl_tcp : ns_tcp n' = ns_tcp n;
  sl_map : tcp_map n' = tcp_map n;
  sl_conn : (λ k, (tc_local k, tc_remote k)) <$> ns_conn n' = (λ k, (tc_local k, tc_remote k)) <$> ns_conn n;
}.

Lemma same_links_set c f n : (∀ k, tc_local (f k) = tc_local k ∧ tc_remote (f k) = tc_remote k) → same_links n (set_conn c f n).
Proof.
  intros Hf. split; [done..|]. cbn. apply map_eq. intros x. rewrite !lookup_fmap, lookup_alter. case_decide; [subst x|done].
  destruct (ns_conn n !! c) as [k|]; [|done]. cbn. by destruct (Hf k) as [-> ->].
Qed.

Lemma same_links_conn n n' c k : same_links n n' → ns_conn n !! c = Some k →
  ∃ k', ns_conn n' !! c = Some k' ∧ tc_local k' = tc_local k ∧ tc_remote k' = tc_remote k.
Proof.
  intros H Hk. pose proof (f_equal (lookup c) (sl_conn _ _ H)) as E. rewrite !lookup_fmap, Hk in E.
  destruct (ns_conn n' !! c) as [k'|]; [|done]. injection E as E1 E2. by exists k'.
Qed.

Lemma same_links_find n n' a l : same_links n n' → find_remote n' a l = find_remote n a l.
Proof.
  intros H. unfold find_remote. induction l as [|c l IH]; [done|]. cbn [List.find]. rewrite IH.
  pose proof (f_equal (lookup c) (sl_conn _ _ H)) as E. rewrite !lookup_fmap in E.
  destruct (ns_conn n !! c) as [k|], (ns_conn n' !! c) as [k'|]; try done. injection E as E1 E2. by rewrite E2.
Qed.

Lemma same_links_conn_of n n' s : same_links n n' → conn_of n' s = conn_of n s.
Proof. intros []. destruct s; cbn; [done| |done]. by rewrite sl_tcp0. Qed.

Lemma same_links_reaches n n' c d t : same_links n n' → reaches n c d t → reaches n' c d t.
Proof.
  intros H (k & sv & Hk & Hs & Hm & Ht & Hf). destruct (same_links_conn _ _ _ _ H Hk) as (k' & Hk' & El & Er).
  exists k', sv. rewrite El, Er, (sl_tcp _ _ H), (sl_map _ _ H), !(same_links_find _ _ _ _ H). done.
Qed.

Lemma same_links_linked n n' s d : same_links n n' → linked n s d → linked n' s d.
Proof.
  intros H (c & t & Hc & Hr & Hne & [k Hd]). exists c, t. rewrite (same_links_conn_of _ _ _ H). split; [done|].
  split; [by eapply same_links_reaches|]. split; [done|]. destruct (same_links_conn _ _ _ _ H Hd) as (k' & -> & _). done.
Qed.

(** Sending on a linked socket puts the data into the queue of its peer. *)
Lemma send_data_reaches held n c d t buf flags : reaches n c d t → held ≠ Some t →
  send_data held c buf flags n = Ret (if decide (buf = []) then n else set_conn d (add_data buf) n).
Proof.
  intros (k & sv & Hk & Hs & Hm & Ht & Hf) Hh. unfold send_data. rewrite Hk. cbn [unwrap]. step_ret. rewrite Hs. case_decide; [done|].
  rewrite Hm. unfold get_client. rewrite decide_False by done. rewrite Ht. cbn [unwrap]. step_ret. cbv zeta in Hf.
  assert (∀ o, ns_tcp (opt_data o buf n) = ns_tcp n) as E1 by (by intros []). rewrite E1, Ht. cbn [unwrap]. step_ret.
  rewrite (same_links_find n (opt_data (find_remote n (tc_local k) (sv_clients sv)) buf n)).
  2: { destruct (find_remote n (tc_local k) (sv_clients sv)); [by apply same_links_set|by split]. }
  by destruct Hf as [[-> ->]|[-> ->]].
Qed.

Lemma sendto_linked n s d buf r : linked n s d →
  sock_sendto s buf r n = Ret (NOk (blen buf), if decide (buf = []) then n else set_conn d (add_data buf) n).
Proof.
  intros (c & t & Hc & Hr & Hne & _). destruct s as [u|x|x]; cbn [sock_sendto]; [done| |].
  - cbn in Hc. unfold first_client. destruct (ns_tcp n !! x) as [sv|]; [|done]. cbn in Hc |- *. step_ret. destruct (sv_is_client sv); [|done].
    rewrite Hc. cbn [unwrap]. step_ret. unfold TcpConnection_sendto. rewrite (send_data_reaches (Some x) n c d t) by (done || congruence). done.
  - injection Hc as ->. unfold TcpConnection_sendto. by rewrite (send_data_reaches None n c d t) by done.
Qed.

(** Receiving takes the oldest message. *)
Definition set_datas (l : list (list Z)) (k : TcpConnection) : TcpConnection :=
  mkTcpConnection (tc_local k) (tc_remote k) (tc_options k) (tc_status k) l (tc_remote_closed k).

Lemma recv_conn n s d k : conn_of n s = Some d → ns_conn n !! d = Some k →
  sock_recv_from s n = match tc_datas k with
                       | x :: l => Ret (NOk (x, tc_remote k), set_conn d (set_datas l) n)
                       | [] => Ret (NErr EmptyData, n)
                       end.
Proof.
  intros Hc Hk. assert (TcpConnection_recv_from d n = match tc_datas k with x :: l => Ret (NOk (x, tc_remote k), set_conn d (set_datas l) n)
    | [] => Ret (NErr EmptyData, n) end) as E by (unfold TcpConnection_recv_from; by rewrite Hk).
  destruct s as [u|x|x]; [done| |by injection Hc as ->]. cbn in Hc |- *. unfold first_client.
  destruct (ns_tcp n !! x) as [sv|]; [|done]. cbn in Hc |- *. step_ret. destruct (sv_is_client sv); [|done]. rewrite Hc. cbn [unwrap]. by step_ret.
Qed.

(** ** Streams between kernel sockets *)

Section stream.
Context {W : Type}.
Abbreviation KW := (SockWorld W).

(** What socket [a] sends arrives at the connection [d] that socket [b] receives on. *)
Definition tcp_link (w : KW) (a b d : nat) : Prop :=
  ∃ x y, kw_socks w !! a = Some x ∧ kw_socks w !! b = Some y ∧ linked (kw_net w) (sk_inner x) d ∧ conn_of (kw_net w) (sk_inner y) = Some d.

(** The bytes that have been sent to [b] and not been read: the rest of a message, kept in the
    socket, and the messages in the queue, of which none is empty. *)
Definition pending (w : KW) (b d : nat) (q : list Z) : Prop :=
  ∃ y k, kw_socks w !! b = Some y ∧ ns_conn (kw_net w) !! d = Some k ∧ q = sk_buf y ++ concat (tc_datas k) ∧ Forall (.≠ []) (tc_datas k).

(** Steps that move no connection and leave the receiver [b] and its queue alone. *)
Record apart (b d : nat) (w w' : KW) : Prop := {
  ap_links : same_links (kw_net w) (kw_net w');
  ap_inner : sk_inner <$> kw_socks w' = sk_inner <$> kw_socks w;
  ap_buf : sk_buf <$> kw_socks w' !! b = sk_buf <$> kw_socks w !! b;
  ap_datas : tc_datas <$> ns_conn (kw_net w') !! d = tc_datas <$> ns_conn (kw_net w) !! d;
}.

Lemma inner_lookup (w w' : KW) a x : sk_inner <$> kw_socks w' = sk_inner <$> kw_socks w → kw_socks w !! a = Some x →
  ∃ x', kw_socks w' !! a = Some x' ∧ sk_inner x' = sk_inner x.
Proof.
  intros E Hx. apply (f_equal (lookup a)) in E. rewrite !lookup_fmap, Hx in E. destruct (kw_socks w' !! a) as [x'|]; [|done].
  injection E as E. by exists x'.
Qed.

Lemma link_same (w w' : KW) a b d : same_links (kw_net w) (kw_net w') → sk_inner <$> kw_socks w' = sk_inner <$> kw_socks w →
  tcp_link w a b d → tcp_link w' a b d.
Proof.
  intros Hl Hi (x & y & Hx & Hy & Hk & Hc). destruct (inner_lookup _ _ _ _ Hi Hx) as (x' & Hx' & Ex).
  destruct (inner_lookup _ _ _ _ Hi Hy) as (y' & Hy' & Ey). exists x', y'. rewrite Ex, Ey, (same_links_conn_of _ _ _ Hl).
  split_and!; try done. by eapply same_links_linked.
Qed.

Lemma apart_pending b d w w' q : apart b d w w' → pending w b d q → pending w' b d q.
Proof.
  intros [_ _ Hb Hd] (y & k & Hy & Hk & -> & Hne). rewrite Hy in Hb. rewrite Hk in Hd.
  destruct (kw_socks w' !! b) as [y'|] eqn:Hy'; [|done]. destruct (ns_conn (kw_net w') !! d) as [k'|] eqn:Hk'; [|done].
  injection Hb as Hb. injection Hd as Hd. exists y', k'. by rewrite Hb, Hd.
Qed.

Lemma fmap_insert_id {A B} (f : A → B) (m : gmap nat A) i x x' : m !! i = Some x → f x' = f x → f <$> <[i := x']> m = f <$> m.
Proof. intros Hi E. rewrite fmap_insert, E, <- fmap_insert. by rewrite insert_id. Qed.

(** Writing appends to what is pending at the peer, and is apart from every other queue. *)
Lemma write_link w a b d buf : tcp_link w a b d → ∃ w', Socket_writeat a buf w = Ret (Ok (blen buf), w') ∧
  same_links (kw_net w) (kw_net w') ∧ sk_inner <$> kw_socks w' = sk_inner <$> kw_socks w ∧
  (∀ q, pending w b d q → pending w' b d (q ++ buf)) ∧ (∀ e c, c ≠ d → apart e c w w').
Proof.
  intros (x & y & Hx & Hy & Hl & Hc). unfold Socket_writeat. rewrite Hx. cbn [unwrap]. step_ret. unfold on_net.
  rewrite (sendto_linked _ _ d) by done. step_ret. set (n' := if decide _ then _ else _). set (x' := mkSocket _ _ _ _ _ _). eexists. split; [done|].
  assert (same_links (kw_net w) n') as Hs by (subst n'; case_decide; [by split|by apply same_links_set]).
  assert (sk_inner <$> <[a := x']> (kw_socks w) = sk_inner <$> kw_socks w) as Hi by (by eapply fmap_insert_id).
  assert (∀ e, sk_buf <$> <[a := x']> (kw_socks w) !! e = sk_buf <$> kw_socks w !! e) as Hb.
  { intros e. destruct (decide (e = a)) as [->|]; [|by rewrite lookup_insert_ne]. by rewrite lookup_insert_eq, Hx. }
  split_and!; [done|done| |].
  - intros q (y0 & k & Hy0 & Hk & -> & Hne). specialize (Hb b). rewrite Hy0 in Hb. cbn [kw_socks set_socks set_net kw_net].
    destruct (<[a := x']> (kw_socks w) !! b) as [y'|] eqn:Ey; [|done]. injection Hb as Hb. subst n'. case_decide as Hbuf.
    + subst buf. rewrite app_nil_r. exists y', k. rewrite Hb. done.
    + exists y', (add_data buf k). rewrite Hb. cbn. rewrite lookup_alter_eq, Hk. split_and!; [done|done| |].
      * rewrite concat_app. cbn. by rewrite app_nil_r, app_assoc.
      * apply Forall_app. by split; [|apply Forall_singleton].
  - intros e c Hcd. split; [done|done|apply Hb|]. cbn. subst n'. case_decide; [done|]. cbn. by rewrite lookup_alter_ne.
Qed.

(** Reading takes a prefix of what is pending, which is not empty unless the buffer is. *)
Lemma read_link w b d c0 y buf q : kw_socks w !! b = Some y → conn_of (kw_net w) (sk_inner y) = Some d → pending w b d q →
  ∃ r buf' w', Socket_readat b buf w = Ret (r, buf', w') ∧
    same_links (kw_net w) (kw_net w') ∧ sk_inner <$> kw_socks w' = sk_inner <$> kw_socks w ∧
    (∀ e, e ≠ b → c0 ≠ d → apart e c0 w w') ∧
    ((q = [] ∧ r = Err EWOULDBLOCK ∧ pending w' b d q) ∨
     (q ≠ [] ∧ ∃ m, r = Ok (Z.of_nat m) ∧ (buf ≠ [] → (0 < m)%nat) ∧ (m ≤ length q)%nat ∧ take m buf' = take m q ∧ pending w' b d (drop m q))).
Proof.
  intros Hy Hc (y0 & k & Hy0 & Hk & -> & Hne). assert (y0 = y) as -> by congruence. unfold Socket_readat. rewrite Hy. cbn [unwrap]. step_ret.
  (* the step once the message is known *)
  assert (∀ (data : list Z) (n' : NetServer) (l : list (list Z)), data ≠ [] → same_links (kw_net w) n' →
    ns_conn n' !! d = Some (set_datas l k) → (∀ c, c ≠ d → ns_conn n' !! c = ns_conn (kw_net w) !! c) → Forall (.≠ []) l →
    let w1 := set_net n' w in let rlen := Nat.min (length data) (length buf) in
    let w2 := if decide (length (buf_write buf (take rlen data)) = 1%nat) then putchar (default 0 (buf_write buf (take rlen data) !! 0%nat)) w1 else w1 in
    let w3 := set_socks (insert b (mkSocket (sk_domain y) (sk_net_type y) (sk_inner y) (sk_wsize y) (sk_rsize y +u Z.of_nat rlen) (drop rlen data))) w2 in
    same_links (kw_net w) (kw_net w3) ∧ sk_inner <$> kw_socks w3 = sk_inner <$> kw_socks w ∧ (∀ e, e ≠ b → c0 ≠ d → apart e c0 w w3) ∧
    (buf ≠ [] → (0 < rlen)%nat) ∧ (rlen ≤ length (data ++ concat l))%nat ∧ take rlen (buf_write buf (take rlen data)) = take rlen (data ++ concat l) ∧
    pending w3 b d (drop rlen (data ++ concat l))) as Hstep.
  { intros data n' l Hd Hs Hk' Hother Hl w1 rlen w2 w3. assert (kw_net w2 = n' ∧ kw_socks w2 = kw_socks w) as [E1 E2] by (subst w2; by case_decide).
    set (y' := mkSocket _ _ _ _ _ _) in w3. assert (sk_inner <$> kw_socks w3 = sk_inner <$> kw_socks w) as Hi.
    { cbn. rewrite E2. by eapply fmap_insert_id. }
    assert (length (take rlen data) = rlen) as El by (rewrite length_take; lia). split_and!.
    - cbn. by rewrite E1.
    - done.
    - intros e He Hcd. split; [cbn; by rewrite E1|done|cbn; rewrite E2, lookup_insert_ne by done; done|cbn; by rewrite E1, Hother].
    - intros Hb. destruct data, buf; try done. cbn in rlen. lia.
    - rewrite length_app. lia.
    - rewrite (take_buf_write_n rlen) by done. rewrite take_app_le by lia. done.
    - exists y', (set_datas l k). cbn. rewrite E1, E2, lookup_insert_eq. split_and!; [done|done| |done]. rewrite drop_app_le by lia. done. }
  case_decide as Hbuf.
  - unfold Socket_recv_from, on_net. rewrite (recv_conn _ _ d k) by done. rewrite Hbuf. destruct (tc_datas k) as [|x l] eqn:Ek; step_ret.
    + eexists _, _, _. split; [done|]. split_and!; [by split|done|intros; by split|]. left. cbn. split_and!; [done|done|].
      exists y, k. by rewrite Hbuf, Ek.
    + apply Forall_cons in Hne as [Hx Hne]. set (n' := set_conn d (set_datas l) (kw_net w)).
      destruct (Hstep x n' l) as (H1 & H2 & H3 & H4 & H5 & H6 & H7); [done|by apply same_links_set|cbn; by rewrite lookup_alter_eq, Hk| |done|].
      { intros c Hcd. cbn. by rewrite lookup_alter_ne. }
      eexists _, _, _. split; [done|]. split_and!; [exact H1|exact H2|exact H3|]. right. cbn [app concat]. split; [by destruct x|].
      eexists. split; [done|]. done.
  - step_ret. destruct (Hstep (sk_buf y) (kw_net w) (tc_datas k)) as (H1 & H2 & H3 & H4 & H5 & H6 & H7); [done|by split|rewrite Hk; by destruct k|done|done|].
    assert (set_net (kw_net w) w = w) as Ew by (by destruct w). cbv zeta in H1, H2, H3, H4, H5, H6, H7. rewrite Ew in *.
    eexists _, _, _. split; [done|]. split_and!; [exact H1|exact H2|exact H3|]. right. split; [by destruct (sk_buf y)|].
    eexists. split; [done|]. done.
Qed.
End stream.

(** The two ends of a connection: each receives what the other sends. *)
Definition connected {W} (w : SockWorld W) (a b c d : nat) : Prop := tcp_link w a b d ∧ tcp_link w b a c ∧ a ≠ b ∧ c ≠ d.

(** One operation on either end, with the bytes [a] has written and [b] has read so far. *)
Inductive tcp_step {W} (a b : nat) : SockWorld W * list Z * list Z → SockWorld W * list Z * list Z → Prop :=
  | ts_write w w' buf n sent got : Socket_writeat a buf w = Ret (Ok n, w') → tcp_step a b (w, sent, got) (w', sent ++ buf, got)
  | ts_read w w' buf buf' n sent got :
      Socket_readat b buf w = Ret (Ok n, buf', w') → tcp_step a b (w, sent, got) (w', sent, got ++ take (Z.to_nat n) buf')
  | ts_read_blocked w w' buf buf' sent got : Socket_readat b buf w = Ret (Err EWOULDBLOCK, buf', w') → tcp_step a b (w, sent, got) (w', sent, got)
  | ts_back_write w w' buf r sent got : Socket_writeat b buf w = Ret (r, w') → tcp_step a b (w, sent, got) (w', sent, got)
  | ts_back_read w w' buf buf' r sent got : Socket_readat a buf w = Ret (r, buf', w') → tcp_step a b (w, sent, got) (w', sent, got).

(** [q] is pending at [b], some bytes are pending at [a]. *)
Definition tcp_state {W} (a b c d : nat) (w : SockWorld W) (q : list Z) : Prop :=
  connected w a b c d ∧ pending w b d q ∧ ∃ q', pending w a c q'.

Lemma connected_same {W} (w w' : SockWorld W) a b c d : same_links (kw_net w) (kw_net w') → sk_inner <$> kw_socks w' = sk_inner <$> kw_socks w →
  connected w a b c d → connected w' a b c d.
Proof. intros Hs Hi (H1 & H2 & H3 & H4). split_and!; [by eapply link_same|by eapply link_same|done|done]. Qed.

Lemma tcp_step_state {W} a b c d (w w' : SockWorld W) sent got sent' got' q : tcp_state a b c d w q → sent = got ++ q →
  tcp_step a b (w, sent, got) (w', sent', got') → ∃ q', tcp_state a b c d w' q' ∧ sent' = got' ++ q'.
Proof.
  intros (Hc & Hq & qa & Hqa) -> Hs. pose proof Hc as (Hab & Hba & Hne & Hcd). inversion Hs; subst; clear Hs;
    match goal with He : _ = Ret _ |- _ => rename He into Hop end.
  - destruct (write_link w a b d buf Hab) as (w1 & E & H1 & H2 & H3 & H4). assert (w1 = w') as -> by congruence. exists (q ++ buf).
    split; [|by rewrite app_assoc]. split_and!; [by eapply connected_same|by apply H3|]. exists qa. eapply apart_pending; [|exact Hqa]. by apply H4.
  - destruct Hab as (x & y & _ & Hy & _ & Hcy). destruct (read_link w b d c y buf q Hy Hcy Hq) as (r & b1 & w1 & E & H1 & H2 & H3 & [(_ & -> & _)|(_ & m & -> & _ & _ & Et & Hp)]); [congruence|].
    assert (n = Z.of_nat m ∧ b1 = buf' ∧ w1 = w') as (-> & -> & ->) by (rewrite E in Hop; by injection Hop). exists (drop m q).
    split; [|rewrite Nat2Z.id, Et, <- app_assoc, take_drop; done]. split_and!; [by eapply connected_same|done|]. exists qa. eapply apart_pending; [|exact Hqa]. by apply H3.
  - destruct Hab as (x & y & _ & Hy & _ & Hcy). destruct (read_link w b d c y buf q Hy Hcy Hq) as (r & b1 & w1 & E & H1 & H2 & H3 & [(_ & -> & Hp)|(_ & m & -> & _)]); [|congruence].
    assert (b1 = buf' ∧ w1 = w') as (-> & ->) by (rewrite E in Hop; by injection Hop). exists q.
    split; [|done]. split_and!; [by eapply connected_same|done|]. exists qa. eapply apart_pending; [|exact Hqa]. by apply H3.
  - destruct (write_link w b a c buf Hba) as (w1 & E & H1 & H2 & H3 & H5). assert (w1 = w') as -> by congruence. exists q.
    split; [|done]. split_and!; [by eapply connected_same|eapply apart_pending; [|exact Hq]; by apply H5|]. exists (qa ++ buf). by apply H3.
  - destruct Hba as (x & y & _ & Hy & _ & Hcy). destruct (read_link w a c d y buf qa Hy Hcy Hqa) as (r0 & b1 & w1 & E & H1 & H2 & H3 & Hr).
    assert (r0 = r ∧ b1 = buf' ∧ w1 = w') as (-> & -> & ->) by (rewrite E in Hop; by injection Hop). exists q. split; [|done].
    split_and!; [by eapply connected_same|eapply apart_pending; [|exact Hq]; by apply H3|].
    destruct Hr as [(_ & _ & Hp)|(_ & m & _ & _ & _ & _ & Hp)]; eauto.
Qed.

(** C6: a TCP connection inside the machine is a byte stream: from a connected pair of
    sockets with nothing pending, after any interleaving of writes and reads on the two ends,
    the bytes written on one end are those read on the other followed by those that are still
    pending there, so that nothing is lost, duplicated or reordered, whatever the sizes of the
    buffers.  A read into a non-empty buffer returns at least one pending byte, and
    [EWOULDBLOCK] exactly when nothing is pending; a write takes the whole buffer. *)
Theorem tcp_stream {W} (a b c d : nat) (w w' : SockWorld W) (sent got : list Z) :
  tcp_state a b c d w [] → rtc (tcp_step a b) (w, [], []) (w', sent, got) →
  ∃ q, sent = got ++ q ∧
    (∀ buf, ∃ w'', Socket_writeat a buf w' = Ret (Ok (blen buf), w'')) ∧
    (∀ buf, buf ≠ [] → ∃ r buf' w'', Socket_readat b buf w' = Ret (r, buf', w'') ∧
       (r = Err EWOULDBLOCK ↔ q = []) ∧ (q ≠ [] → ∃ m, r = Ok (Z.of_nat m) ∧ (0 < m)%nat ∧ take m buf' = take m q)).
Proof.
  intros Hs Hr. assert (∃ q, tcp_state a b c d w' q ∧ sent = got ++ q) as (q & Hq & ->).
  { remember (w, [], []) as st eqn:Est. remember (w', sent, got) as st' eqn:Est'.
    assert (∃ q, tcp_state a b c d st.1.1 q ∧ st.1.2 = st.2 ++ q) as Hst by (subst st; exists []; by split). clear Est Hs.
    revert Hst. induction Hr as [st|[[w1 s1] g1] [[w2 s2] g2] st H12 _ IH]; intros Hst; [by subst|]. apply IH; [done|].
    destruct Hst as (q1 & Hq1 & E1). by eapply tcp_step_state. }
  exists q. split; [done|]. destruct Hq as ((Hab & _) & Hp & _). split.
  - intros buf. destruct (write_link w' a b d buf Hab) as (w1 & E & _). by exists w1.
  - intros buf Hb. destruct Hab as (x & y & _ & Hy & _ & Hcy).
    destruct (read_link w' b d d y buf q Hy Hcy Hp) as (r & buf' & w1 & E & _ & _ & _ & Hres). exists r, buf', w1. split; [done|].
    destruct Hres as [(-> & -> & _)|(Hne & m & -> & Hpos & _ & Et & _)]; [done|]. split; [done|]. intros _. exists m. auto.
Qed.

(** ** Setting up a connection *)

Lemma alloc_port_free m : alloc_port m ≠ 0 → m !! alloc_port m = None.
Proof.
  unfold alloc_port. destruct (List.find _ _) as [i|] eqn:E; [|done]. cbn. intros _. apply find_seqZ_Some in E as (_ & E & _). by apply bool_decide_eq_true in E.
Qed.

Lemma addr_eq a b : sa_ip a = sa_ip b → sa_port a = sa_port b → a = b.
Proof. destruct a, b. cbn. congruence. Qed.

(** A client that has no port gets a free one, and is marked as a client. *)
Lemma connect_binds n t1 cl : ns_tcp n !! t1 = Some cl → sa_port (sv_local cl) = 0 →
  let n0 := set_tcp t1 (λ sv, mkTcpServer (sv_local sv) (sv_clients sv) (sv_wait_queue sv) true) n in
  ∃ n1, bind_if_needed t1 n0 = Ret (NOk tt, n1) ∧ ns_conn n1 = ns_conn n ∧
    tcp_map n1 = <[alloc_tcp_port n := t1]> (delete 0 (tcp_map n)) ∧
    ns_tcp n1 = <[t1 := mkTcpServer (mkAddr (sa_ip (sv_local cl)) (alloc_tcp_port n)) (sv_clients cl) (sv_wait_queue cl) true]> (ns_tcp n).
Proof.
  intros Hcl Hp n0. assert (ns_tcp n0 !! t1 = Some (mkTcpServer (sv_local cl) (sv_clients cl) (sv_wait_queue cl) true)) as H0.
  { cbn. by rewrite lookup_alter_eq, Hcl. }
  unfold bind_if_needed. rewrite H0. cbn [unwrap]. step_ret. rewrite decide_True by done. unfold TcpServer_bind. rewrite H0. cbn [unwrap]. step_ret.
  cbn [sv_local]. rewrite decide_True by done. eexists. split; [done|]. split_and!; [done|cbn; by rewrite Hp|]. cbn.
  replace (if is_loopback _ || _ then sa_ip (sv_local cl) else sa_ip (sv_local cl)) with (sa_ip (sv_local cl)) by (by destruct (_ || _)).
  apply map_eq. intros x. rewrite lookup_alter. case_decide as Hx; [subst x; rewrite lookup_insert_eq, lookup_alter_eq, Hcl; done|].
  by rewrite lookup_insert_ne, lookup_alter_ne by done.
Qed.

Lemma find_remote_fresh n n' a l c k : ns_conn n' = <[c := k]> (ns_conn n) → ns_conn n !! c = None → find_remote n a l = None → c ∉ l →
  find_remote n' a l = None.
Proof.
  intros E Hc. unfold find_remote. rewrite !find_None_Forall, !Forall_forall. intros Hl Hnl x Hx. rewrite E, lookup_insert_ne; [by apply Hl|]. by intros ->.
Qed.

Section setup.
Context (n : NetServer) (t t1 : nat) (sv cl : TcpServer) (remote : SocketAddrV4).
Context (Hok : net_ok n) (Hsv : ns_tcp n !! t = Some sv) (Hcl : ns_tcp n !! t1 = Some cl) (Hne : t ≠ t1).
(** The server listens on the remote port and its queue is empty. *)
Context (Hmap : tcp_map n !! sa_port remote = Some t) (Hport : sa_port remote ≠ 0) (Hwait : sv_wait_queue sv = []).
(** The client is new, on the same address as the server, and there is a port left. *)
Context (Hnew : cl = mkTcpServer (mkAddr (sa_ip (sv_local sv)) 0) [] [] false) (Hfree : alloc_tcp_port n ≠ 0).
Context (Hhere : served_here remote (sv_local sv) = true).

Let me : SocketAddrV4 := mkAddr (sa_ip (sv_local sv)) (alloc_tcp_port n).
(** No old connection of the server has the address the client is going to use. *)
Context (Hold : find_remote n me (sv_clients sv) = None).

Lemma server_port : sa_port (sv_local sv) = sa_port remote.
Proof. destruct (no_tcp n Hok _ _ Hmap) as (sv' & Hs & Hp). congruence. Qed.

Lemma remote_here : (if is_loopback (sa_ip remote) || is_unspecified (sa_ip remote) then mkAddr (sa_ip (sv_local sv)) (sa_port remote) else remote) = sv_local sv.
Proof.
  pose proof server_port as Hp. unfold served_here in Hhere. destruct (is_loopback _ || is_unspecified _) eqn:E; [rewrite <- Hp; by destruct (sv_local sv)|].
  cbn in Hhere. apply bool_decide_eq_true in Hhere. by apply addr_eq.
Qed.

(** [connect] makes two connections: [c1] of the client and [c2], which waits at the server. *)
Lemma connect_makes : ∃ n1 c1 c2, TcpServer_connect t1 remote n = Ret (NOk tt, n1) ∧ c1 ≠ c2 ∧
  ns_conn n1 = <[c2 := mkTcpConnection (sv_local sv) me (mkTcpSeq 0 1 65535 0) WaitingForData [] false]>
                 (<[c1 := mkTcpConnection me (sv_local sv) (mkTcpSeq 0 0 65535 0) WaitingForData [] false]> (ns_conn n)) ∧
  ns_conn n !! c1 = None ∧ ns_conn n !! c2 = None ∧
  tcp_map n1 = <[alloc_tcp_port n := t1]> (delete 0 (tcp_map n)) ∧
  ns_tcp n1 !! t = Some (mkTcpServer (sv_local sv) (sv_clients sv) [c2] (sv_is_client sv)) ∧
  ns_tcp n1 !! t1 = Some (mkTcpServer me [c1] [] true).
Proof.
  destruct (connect_binds n t1 cl Hcl) as (n1 & E1 & Ec1 & Em1 & Et1); [by rewrite Hnew|]. unfold TcpServer_connect. rewrite Hcl. cbn [unwrap]. step_ret.
  rewrite E1. step_ret. assert (sa_ip (sv_local cl) = sa_ip (sv_local sv)) as Eip by (by rewrite Hnew). rewrite Eip, remote_here in *.
  rewrite Et1, lookup_insert_eq. cbn [unwrap]. step_ret. cbn [sv_local]. rewrite Hnew in Et1. cbn [sv_clients sv_wait_queue] in Et1. fold me in Et1 |- *.
  unfold new_conn. set (c1 := fresh (dom (ns_conn n1))). assert (ns_conn n1 !! c1 = None) as Hc1 by (apply not_elem_of_dom, is_fresh). clearbody c1.
  set (n2 := set_conns (insert c1 _) n1). unfold TcpConnection_connect. assert (ns_conn n2 !! c1 = Some (blank_conn me (sv_local sv) 0)) as H2 by apply lookup_insert_eq.
  rewrite H2. cbn [unwrap]. step_ret. cbn [blank_conn tc_local]. assert (served_here (sv_local sv) me = true) as ->.
  { unfold served_here. cbn. rewrite bool_decide_eq_true_2 by done. by rewrite orb_true_r. }
  cbv zeta. change (tcp_map (set_conn c1 ?f n2)) with (tcp_map n1). assert (alloc_tcp_port n ≠ sa_port (sv_local sv)) as Hpp.
  { intros E. pose proof (alloc_port_free (tcp_map n) Hfree) as Hx. unfold alloc_tcp_port in E. rewrite E, server_port in Hx. congruence. }
  rewrite Em1, lookup_insert_ne by done. rewrite lookup_delete_ne by (rewrite server_port; congruence). rewrite server_port, Hmap. unfold tcp_add_queue.
  change (ns_tcp (set_conn c1 ?f (set_conn c1 ?g n2))) with (ns_tcp n1). rewrite Et1, lookup_insert_ne, Hsv by done. cbn [unwrap]. step_ret.
  unfold new_conn. cbn [ns_conn set_conn set_conns]. set (c2 := fresh _). set (m2 := alter _ _ (alter _ _ _)) in c2.
  assert (m2 !! c2 = None) as Hc2 by (apply not_elem_of_dom, is_fresh). clearbody c2.
  assert (m2 = <[c1 := mkTcpConnection me (sv_local sv) (mkTcpSeq 0 0 65535 0) WaitingForData [] false]> (ns_conn n1)) as Em2.
  { subst m2. cbn. apply map_eq. intros x. destruct (decide (x = c1)) as [->|Hx]; [by rewrite !lookup_alter_eq, !lookup_insert_eq|].
    by rewrite !lookup_alter_ne, !lookup_insert_ne by done. }
  assert (c1 ≠ c2) as Hc12. { intros <-. rewrite Em2, lookup_insert_eq in Hc2. done. }
  step_ret. eexists _, c1, c2. split; [done|]. split; [done|]. cbn. fold m2. rewrite Em2, Ec1 in *.
  assert (ns_conn n !! c2 = None) as Hcc by (by rewrite lookup_insert_ne in Hc2).
  split_and!; [|done|done|done| |].
  - apply map_eq. intros x. destruct (decide (x = c2)) as [->|Hx]; [by rewrite lookup_alter_eq, !lookup_insert_eq|].
    rewrite lookup_alter_ne, !(lookup_insert_ne _ c2) by done. destruct (decide (x = c1)) as [->|Hx1]; [by rewrite !lookup_alter_eq, !lookup_insert_eq|].
    by rewrite !lookup_alter_ne, !lookup_insert_ne by done.
  - rewrite lookup_alter_ne by done. rewrite lookup_alter_eq, Et1, lookup_insert_ne, Hsv by done. cbn. by rewrite Hwait.
  - rewrite lookup_alter_eq, lookup_alter_ne, Et1, lookup_insert_eq by done. done.
Qed.

(** [accept] takes the waiting connection; the two then reach each other. *)
Lemma accept_links : ∃ n1 n2 c1 c2, TcpServer_connect t1 remote n = Ret (NOk tt, n1) ∧ TcpServer_accept t n1 = Ret (NOk c2, n2) ∧ c1 ≠ c2 ∧
  linked n2 (S_tcp t1) c2 ∧ conn_of n2 (S_tcp t1) = Some c1 ∧ linked n2 (S_conn c2) c1 ∧
  (tc_datas <$> ns_conn n2 !! c1) = Some [] ∧ (tc_datas <$> ns_conn n2 !! c2) = Some [].
Proof.
  destruct connect_makes as (n1 & c1 & c2 & E1 & Hc12 & Ec & Hc1 & Hc2 & Em & Et & Et1). set (k2 := mkTcpConnection _ me _ _ _ _) in Ec.
  set (k1 := mkTcpConnection me _ _ _ _ _) in Ec. unfold TcpServer_accept.
  assert (∃ n2, TcpServer_accept t n1 = Ret (NOk c2, n2) ∧ ns_conn n2 = ns_conn n1 ∧ tcp_map n2 = tcp_map n1 ∧
    ns_tcp n2 = alter (λ sv, mkTcpServer (sv_local sv) (sv_clients sv ++ [c2]) [] (sv_is_client sv)) t (ns_tcp n1)) as (n2 & E2 & Ec2 & Em2 & Et2).
  { unfold TcpServer_accept. rewrite Et. cbn [unwrap]. step_ret. cbn [sv_wait_queue sv_local]. set (n' := set_tcp t _ n1).
    destruct (negb _); step_ret; [|by eexists]. unfold syn_ack, send_data. assert (ns_conn n' !! c2 = Some k2) as Hk by (cbn; rewrite Ec; apply lookup_insert_eq).
    rewrite Hk. cbn [unwrap]. step_ret. assert (served_here (tc_remote k2) (tc_local k2) = true) as ->.
    { unfold served_here. cbn. rewrite bool_decide_eq_true_2 by done. by rewrite orb_true_r. }
    rewrite decide_True by done. step_ret. eexists. split; [done|]. split_and!; [|done|done]. cbn. rewrite Ec.
    apply map_eq. intros x. destruct (decide (x = c2)) as [->|Hx]; [by rewrite lookup_alter_eq, lookup_insert_eq|by rewrite lookup_alter_ne]. }
  exists n1, n2, c1, c2. split; [exact E1|]. split; [exact E2|]. split; [done|].
  assert (ns_conn n2 !! c1 = Some k1) as L1 by (by rewrite Ec2, Ec, lookup_insert_ne, lookup_insert_eq).
  assert (ns_conn n2 !! c2 = Some k2) as L2 by (by rewrite Ec2, Ec, lookup_insert_eq).
  assert (ns_tcp n2 !! t1 = Some (mkTcpServer me [c1] [] true)) as T1 by (by rewrite Et2, lookup_alter_ne).
  assert (ns_tcp n2 !! t = Some (mkTcpServer (sv_local sv) (sv_clients sv ++ [c2]) [] (sv_is_client sv))) as T by (by rewrite Et2, lookup_alter_eq, Et).
  assert (conn_of n2 (S_tcp t1) = Some c1) as Hc by (cbn; by rewrite T1). assert (alloc_tcp_port n ≠ sa_port remote) as Hpp.
  { intros E. pose proof (alloc_port_free (tcp_map n) Hfree) as Hx. unfold alloc_tcp_port in E. rewrite E in Hx. congruence. }
  split_and!; [|done| |by rewrite L1|by rewrite L2].
  - exists c1, t. split; [done|]. split; [|split; [congruence|by eexists]]. exists k1, (mkTcpServer (sv_local sv) (sv_clients sv ++ [c2]) [] (sv_is_client sv)).
    split; [done|]. split. { unfold served_here. cbn. rewrite bool_decide_eq_true_2 by done. by rewrite orb_true_r. }
    split. { cbn. by rewrite Em2, Em, server_port, lookup_insert_ne, lookup_delete_ne by done. }
    split; [done|]. left. split; [|done]. cbn [sv_clients tc_local]. unfold find_remote. rewrite find_app. cbn [List.find]. rewrite L2. cbn [tc_remote].
    rewrite (bool_decide_eq_true_2 (tc_remote k2 = tc_local k1)) by done. change (tc_local k1) with me.
    destruct (List.find _ (sv_clients sv)) as [x|] eqn:Ef; [|done]. exfalso. apply List.find_some in Ef as [Hin Hx]. rewrite <- list_elem_of_In in Hin.
    pose proof Hold as Ho. unfold find_remote in Ho. rewrite find_None_Forall, Forall_forall in Ho. specialize (Ho x Hin). cbn beta in Ho.
    assert (is_Some (ns_conn n !! x)) as [kx Hkx] by (eapply no_conns; [done|exact Hsv|]; apply elem_of_app; by left).
    assert (ns_conn n2 !! x = Some kx) as Hx2.
    { rewrite Ec2, Ec, !lookup_insert_ne; [done|intros ->; congruence|intros ->; congruence]. }
    rewrite Hx2 in Hx. rewrite Hkx in Ho. congruence.
  - exists c2, t1. split; [done|]. split; [|split; [done|by eexists]]. exists k2, (mkTcpServer me [c1] [] true). split; [done|].
    split. { unfold served_here. cbn. rewrite bool_decide_eq_true_2 by done. by rewrite orb_true_r. }
    split. { cbn. by rewrite Em2, Em, lookup_insert_eq. }
    split; [done|]. left. split; [|done]. unfold find_remote. cbn [sv_clients List.find]. rewrite L1. by rewrite bool_decide_eq_true_2.
Qed.

(** Closing the client before the server has accepted it panics the kernel: the other end is
    looked for among the accepted clients only. *)
Lemma close_unaccepted : ∃ n1, TcpServer_connect t1 remote n = Ret (NOk tt, n1) ∧ sock_close (S_tcp t1) n1 = Panic.
Proof.
  destruct connect_makes as (n1 & c1 & c2 & E1 & Hc12 & Ec & Hc1 & Hc2 & Em & Et & Et1). set (k2 := mkTcpConnection _ me _ _ _ _) in Ec.
  set (k1 := mkTcpConnection me _ _ _ _ _) in Ec. exists n1. split; [done|]. cbn [sock_close]. unfold first_client. rewrite Et1. cbn [unwrap]. step_ret.
  cbn [sv_is_client sv_clients lookup list_lookup unwrap]. step_ret. unfold TcpConnection_close.
  assert (ns_conn n1 !! c1 = Some k1) as L1 by (by rewrite Ec, lookup_insert_ne, lookup_insert_eq). rewrite L1. cbn [unwrap]. step_ret.
  assert (served_here (tc_remote k1) (tc_local k1) = true) as ->.
  { unfold served_here. cbn. rewrite bool_decide_eq_true_2 by done. by rewrite orb_true_r. }
  assert (alloc_tcp_port n ≠ sa_port remote) as Hpp.
  { intros E. pose proof (alloc_port_free (tcp_map n) Hfree) as Hx. unfold alloc_tcp_port in E. rewrite E in Hx. congruence. }
  change (tc_remote k1) with (sv_local sv). rewrite Em, server_port, lookup_insert_ne, lookup_delete_ne, Hmap by done. unfold get_client.
  rewrite decide_False by congruence. rewrite Et. cbn [unwrap]. step_ret. cbn [sv_clients]. change (mkAddr (sa_ip (sv_local sv)) (sa_port (tc_local k1))) with me.
  assert (find_remote n1 me (sv_clients sv) = None) as ->; [|done]. pose proof Hold as Ho. unfold find_remote in *. rewrite find_None_Forall, Forall_forall in *.
  intros x Hx. assert (is_Some (ns_conn n !! x)) as [kx Hkx] by (eapply no_conns; [done|exact Hsv|]; apply elem_of_app; by left).
  specialize (Ho x Hx). cbn beta in Ho. rewrite Ec, !lookup_insert_ne; [done|intros ->; congruence..].
Qed.
End setup.

(** The kernel panics when a connected TCP socket is shut down, or dropped, before the server
    has accepted the connection. *)
Theorem close_before_accept_panics (n : NetServer) (t t1 : nat) (sv : TcpServer) (remote : SocketAddrV4) :
  net_ok n → ns_tcp n !! t = Some sv → tcp_map n !! sa_port remote = Some t → sa_port remote ≠ 0 → sv_wait_queue sv = [] → t ≠ t1 →
  ns_tcp n !! t1 = Some (mkTcpServer (mkAddr (sa_ip (sv_local sv)) 0) [] [] false) → alloc_tcp_port n ≠ 0 →
  served_here remote (sv_local sv) = true → find_remote n (mkAddr (sa_ip (sv_local sv)) (alloc_tcp_port n)) (sv_clients sv) = None →
  ∃ n1, sock_connect (S_tcp t1) remote n = Ret (NOk tt, n1) ∧ sock_close (S_tcp t1) n1 = Panic.
Proof. intros. by eapply (close_unaccepted n t t1 sv). Qed.

(** C38: [connect] and [accept] make a connection: when a server listens on a port of this
    machine with an empty queue, a new TCP socket on the same address that connects to the
    port gets a port of its own and succeeds at once, the server's next [accept] returns the
    other end, and the two kernel sockets on these ends are connected, with nothing pending in
    either direction. *)
Theorem connect_accept_connects {W} (n : NetServer) (t t1 : nat) (sv : TcpServer) (remote : SocketAddrV4) (w : SockWorld W) (a b : nat) (x y : Socket) :
  net_ok n → ns_tcp n !! t = Some sv → tcp_map n !! sa_port remote = Some t → sa_port remote ≠ 0 → sv_wait_queue sv = [] → t ≠ t1 →
  ns_tcp n !! t1 = Some (mkTcpServer (mkAddr (sa_ip (sv_local sv)) 0) [] [] false) → alloc_tcp_port n ≠ 0 →
  served_here remote (sv_local sv) = true → find_remote n (mkAddr (sa_ip (sv_local sv)) (alloc_tcp_port n)) (sv_clients sv) = None →
  ∃ n1 n2 c1 c2, sock_connect (S_tcp t1) remote n = Ret (NOk tt, n1) ∧ sock_accept (S_tcp t) n1 = Ret (NOk (S_conn c2), n2) ∧
    (a ≠ b → kw_net w = n2 → kw_socks w !! a = Some x → sk_inner x = S_tcp t1 → sk_buf x = [] →
     kw_socks w !! b = Some y → sk_inner y = S_conn c2 → sk_buf y = [] → tcp_state a b c1 c2 w []).
Proof.
  intros Hok Hsv Hmap Hport Hwait Hne Hcl Hfree Hhere Hold.
  destruct (accept_links n t t1 sv _ remote Hok Hsv Hcl Hne Hmap Hport Hwait eq_refl Hfree Hhere Hold) as (n1 & n2 & c1 & c2 & E1 & E2 & H12 & L1 & Hc & L2 & D1 & D2).
  exists n1, n2, c1, c2. split; [exact E1|]. cbn [sock_accept]. rewrite E2. split; [done|]. intros Hab Hn Hx Hix Hbx Hy Hiy Hby. subst n2.
  destruct (ns_conn (kw_net w) !! c1) as [k1|] eqn:K1; [|done]. destruct (ns_conn (kw_net w) !! c2) as [k2|] eqn:K2; [|done]. injection D1 as D1. injection D2 as D2.
  split; [|split].
  - split_and!; [exists x, y; by rewrite Hix, Hiy|exists y, x; by rewrite Hix, Hiy|done|done].
  - exists y, k2. by rewrite Hby, D2.
  - exists [], x, k1. by rewrite Hbx, D1.
Qed.

(** *** Witnesses *)

Definition demo_ip : Ipv4Addr := Ip4 10 0 2 15.

(** A server on port 8080 and a new socket. *)
Definition demo_listen : NetServer :=
  mkNetServer NET_MAC demo_ip ∅ {[0%nat := mkTcpServer (mkAddr demo_ip 8080) [] [] false; 1%nat := mkTcpServer (mkAddr demo_ip 0) [] [] false]} ∅ ∅
    {[8080 := 0%nat]} ∅ false [].

Lemma demo_listen_ok : net_ok demo_listen.
Proof.
  constructor; cbn [demo_listen udp_map tcp_map ns_tcp ns_conn].
  - intros p u E. discriminate E.
  - intros p t [<- <-]%lookup_singleton_Some. by eexists.
  - intros t sv c [[_ <-]|[_ [_ <-]%lookup_singleton_Some]]%lookup_insert_Some; cbn; by intros ?%not_elem_of_nil.
  - intros c k E. discriminate E.
Qed.

(** The state after [connect] and [accept], with the kernel sockets 0 and 1 on the two ends. *)
Definition demo_pair : SockWorld unit :=
  mkSockWorld tt
    (mkNetServer NET_MAC demo_ip ∅
       {[0%nat := mkTcpServer (mkAddr demo_ip 8080) [1%nat] [] false; 1%nat := mkTcpServer (mkAddr demo_ip 20000) [0%nat] [] true]}
       {[0%nat := mkTcpConnection (mkAddr demo_ip 20000) (mkAddr demo_ip 8080) (mkTcpSeq 0 0 65535 0) WaitingForData [] false;
         1%nat := mkTcpConnection (mkAddr demo_ip 8080) (mkAddr demo_ip 20000) (mkTcpSeq 0 1 65535 0) WaitingForData [] false]}
       ∅ {[8080 := 0%nat; 20000 := 1%nat]} ∅ false [])
    {[0%nat := mkSocket 2 STEAM (S_tcp 1) 0 0 []; 1%nat := mkSocket 2 STEAM (S_conn 1) 0 0 []]} ∅ [] [].

Lemma demo_pair_state : tcp_state 0 1 0 1 demo_pair [].
Proof.
  split; [split_and!; try done|split].
  - eexists _, _. split; [reflexivity|]. split; [reflexivity|]. split; [|reflexivity]. exists 0%nat, 0%nat. split; [reflexivity|].
    split; [|split; [discriminate|by eexists]]. eexists _, _. split; [reflexivity|]. split; [reflexivity|]. split; [reflexivity|]. split; [reflexivity|].
    left. split; vm_compute; reflexivity.
  - eexists _, _. split; [reflexivity|]. split; [reflexivity|]. split; [|reflexivity]. exists 1%nat, 1%nat. split; [reflexivity|].
    split; [|split; [discriminate|by eexists]]. eexists _, _. split; [reflexivity|]. split; [reflexivity|]. split; [reflexivity|]. split; [reflexivity|].
    left. split; vm_compute; reflexivity.
  - eexists _, _. split; [reflexivity|]. split; [reflexivity|]. split; [reflexivity|constructor].
  - eexists [], _, _. split; [reflexivity|]. split; [reflexivity|]. split; [reflexivity|constructor].
Qed.

Lemma connect_accept_connects_witness : ∃ n1 n2 c2, sock_connect (S_tcp 1) (mkAddr (Ip4 127 0 0 1) 8080) demo_listen = Ret (NOk tt, n1) ∧
  sock_accept (S_tcp 0) n1 = Ret (NOk (S_conn c2), n2).
Proof.
  destruct (connect_accept_connects demo_listen 0 1 (mkTcpServer (mkAddr demo_ip 8080) [] [] false) (mkAddr (Ip4 127 0 0 1) 8080) demo_pair 0 1
    (mkSocket 2 STEAM (S_tcp 1) 0 0 []) (mkSocket 2 STEAM (S_conn 1) 0 0 [])) as (n1 & n2 & c1 & c2 & E1 & E2 & _);
    [exact demo_listen_ok|reflexivity|reflexivity|discriminate|reflexivity|discriminate|reflexivity|vm_compute; discriminate|reflexivity|reflexivity|].
  exists n1, n2, c2. split; [exact E1|exact E2].
Defined.

Lemma tcp_stream_witness : ∃ q, [1; 2; 3] = [] ++ q.
Proof.
  destruct (Socket_writeat 0 [1; 2; 3] demo_pair) as [[r w']|] eqn:E; [|vm_compute in E; discriminate E].
  destruct (tcp_stream 0 1 0 1 demo_pair w' [1; 2; 3] []) as (q & Hq & _); [exact demo_pair_state| |exists q; exact Hq].
  apply rtc_once. apply (ts_write 0 1 demo_pair w' [1; 2; 3] 3 [] []). rewrite E. vm_compute in E. injection E as <- <-. reflexivity.
Defined.

(** ** What the code does not do *)

(** A UDP socket that sends to its own port waits for ever for the lock it holds. *)
Theorem udp_self_send_hangs n u i buf addr : ns_udp n !! u = Some i → udp_map n !! sa_port addr = Some u → served_here addr (us_local i) = true →
  sock_sendto (S_udp u) buf (Some addr) n = Panic.
Proof. intros Hu Hm Hs. cbn [sock_sendto]. unfold UdpServer_sendto. rewrite Hu. cbn [unwrap]. step_ret. rewrite Hs, Hm. by rewrite decide_True. Qed.

(** TCP ports are never given back: no operation but [bind] takes a port out of the table. *)
Theorem tcp_close_keeps_port s n r n' : sock_close s n = Ret (r, n') → tcp_map n' = tcp_map n.
Proof.
  assert (∀ held c buf flags n n', send_data held c buf flags n = Ret n' → tcp_map n' = tcp_map n) as Hsend.
  { clear. intros held c buf flags n n'. unfold send_data. destruct (ns_conn n !! c) as [k|]; [|done]. cbn [unwrap]. step_ret. destruct (served_here _ _).
    - case_decide; [by intros [= <-]|]. destruct (tcp_map n !! _) as [t|] eqn:Em; [|by intros [= <-]]. destruct (get_client _ _ _ _) as [o|]; [|done]. step_ret.
      destruct (ns_tcp (opt_data o buf n) !! t) as [sv|]; [|done]. cbn [unwrap]. step_ret. intros [= <-]. by destruct (find_remote _ _ _), o.
    - unfold NetMod_send. cbn [ns_device set_conn set_conns]. destruct (ns_device n); [|done]. step_ret. intros [= <-].
      by destruct (contains flags TF_F), (_ && _). }
  assert (∀ held c, TcpConnection_close held c n = Ret (r, n') → tcp_map n' = tcp_map n) as Hclose.
  { intros held c. unfold TcpConnection_close. destruct (ns_conn n !! c) as [k|]; [|done]. cbn [unwrap]. step_ret. destruct (served_here _ _).
    - destruct (tcp_map n !! _) as [t|] eqn:Em; [|by intros [= _ <-]]. destruct (get_client _ _ _ _) as [[x|]|]; [|done..]. cbn [unwrap]. step_ret. by intros [= _ <-].
    - case_decide; [by intros [= _ <-]|]. destruct (send_data _ _ _ _ n) as [n1|] eqn:E; [|done]. step_ret. intros [= _ <-]. by eapply Hsend. }
  destruct s as [u|t|c]; cbn [sock_close]; [|destruct (first_client n t) as [[c|]|]; [apply Hclose|by intros [= _ <-]|done]|apply Hclose].
  unfold UdpServer_close. destruct (ns_udp n !! u); [|done]. by intros [= _ <-].
Qed.

(** A socket whose [connect] has not succeeded yet cannot be looked at: its list of clients is
    empty and indexing it panics. *)
Theorem unconnected_client_panics n t sv : ns_tcp n !! t = Some sv → sv_is_client sv = true → sv_clients sv = [] →
  sock_is_closed (S_tcp t) n = Panic ∧ sock_readable (S_tcp t) n = Panic ∧ sock_recv_from (S_tcp t) n = Panic ∧ sock_close (S_tcp t) n = Panic.
Proof.
  intros Ht Hc Hl. assert (first_client n t = Panic) as E by (unfold first_client; rewrite Ht; cbn [unwrap]; step_ret; by rewrite Hc, Hl).
  cbn. by rewrite E.
Qed.

(** An ARP packet that is not a request panics the kernel. *)
Theorem arp_reply_panics n sm ip tm tip : length sm = 6%nat → length tm = 6%nat →
  analysis_net_data (ArpPacket_build_data (mkArpPacket ip sm tip tm Arp_Reply)) n = Panic.
Proof.
  intros Hs Ht. unfold analysis_net_data, ArpPacket_build_data. cbn [ap_sender_mac ap_sender_ip ap_target_mac ap_target_ip ap_rtype].
  destruct (Eth_read_bytes (mkEth BROADCAST_MAC sm RT_ARP)) as [E1 L1]; [done|done|]. rewrite (iter_next_app _ _ _ _ L1), E1. cbn [unwrap]. step_ret.
  cbn [rtype]. unfold analysis_arp. set (h := mkArp _ _ _ _ _ _ _ _ _). destruct (Arp_read_bytes h) as [E2 L2]; [apply (to_be_range 2)|apply (to_be_range 2)|done|done|].
  rewrite <- (app_nil_r (Arp_bytes h)), (iter_next_app _ _ _ _ L2), E2. cbn [unwrap]. step_ret. done.
Qed.
