(* ===== verification/SockWf.v ===== *)
(** * Well-formed socket states

    The invariant [sock_inv] of the state of Socket, on top of [sys_ok] of SysWf and [net_ok]
    of Net, and the proof that the socket calls keep it: a descriptor on a socket leads to a
    kernel socket that exists, a kernel socket to a server or connection that exists, and the
    destructor runs exactly for the sockets that no open file and no waiting call refers to.
    [swp] is the program logic of SysWf for calls that may panic. *)

From S2P Require Import Prelude Path Vfs Pipe File FdTable SysFile SysWf SysCalls Packet Net Socket.

Section wf.
Context {N W : Type}.

Abbreviation KW := (SockWorld W).
Abbreviation SN := (SNode N).
Abbreviation St := (Sys SN KW).
Abbreviation C := (call SN KW).
Abbreviation sys_ok := (sys_ok_with None None).

(** ** The invariant *)

(** The socket or pair behind a node exists. *)
Definition snode_live (w : KW) (n : Node SN) : Prop :=
  match n with N_fs (K_sock k) => is_Some (kw_socks w !! k) | N_fs (K_pair p) => is_Some (kw_pairs w !! p) | _ => True end.

Record kw_inv (w : KW) : Prop := {
  ki_net : net_ok (kw_net w);
  ki_live : ∀ k x, kw_socks w !! k = Some x → sock_live (kw_net w) (sk_inner x);
  ki_held : ∀ k, k ∈ kw_held w → is_Some (kw_socks w !! k);
}.

Record sock_inv (s : St) : Prop := {
  si_sys : sys_ok s;
  si_kw : kw_inv (sw s);
  si_files : ∀ id f, sy_files s !! id = Some f → snode_live (sw s) (f_inner f);
}.

(** A later world: nothing that exists has gone. *)
Record kw_later (w w' : KW) : Prop := {
  kl_inv : kw_inv w';
  kl_socks : ∀ k, is_Some (kw_socks w !! k) → is_Some (kw_socks w' !! k);
  kl_pairs : ∀ p, is_Some (kw_pairs w !! p) → is_Some (kw_pairs w' !! p);
}.

Lemma kw_later_live w w' n : kw_later w w' → snode_live w n → snode_live w' n.
Proof. intros []. destruct n as [[]| | |]; cbn; auto. Qed.

Lemma sw_evolves (s : St) w : sys_ok s → sys_ok (set_sw w s).
Proof. intros Hs. by eapply ev_ok, set_world_evolves. Qed.

Lemma set_sw_inv (s : St) w : sock_inv s → kw_later (sw s) w → sock_inv (set_sw w s).
Proof.
  intros [Hs Hk Hf] Hl. split; [by apply sw_evolves|by destruct Hl|]. intros id f H%Hf. by eapply kw_later_live.
Qed.

(** ** World steps *)

Lemma set_net_later w n : kw_inv w → later (kw_net w) n → kw_later w (set_net n w).
Proof. intros [] [Hn Hl]. split; [split; cbn; try done|done|done]. intros k x Hx%ki_live0. by apply Hl. Qed.

Lemma on_net_later {A} (f : NetServer → outcome (A * NetServer)) w : kw_inv w → keeps_net (kw_net w) (f (kw_net w)) →
  match on_net f w with Ret (_, w') => kw_later w w' | Panic => True end.
Proof. intros Hk Hf. unfold on_net. destruct (f (kw_net w)) as [[a n]|]; [|done]. step_ret. by apply set_net_later. Qed.

(** Sockets may be added, and replaced by sockets on inner sockets that exist. *)
Lemma set_sock_later w k x : kw_inv w → sock_live (kw_net w) (sk_inner x) → kw_later w (set_socks (insert k x) w).
Proof.
  intros [] Hx. split; [split; cbn; [done| |]| |]; cbn.
  - intros j y [[_ <-]|[_ Hy]]%lookup_insert_Some; [done|by eapply ki_live0].
  - intros j Hj%ki_held0. apply lookup_insert_is_Some'. by right.
  - intros j Hj. apply lookup_insert_is_Some'. by right.
  - done.
Qed.

Lemma kw_later_refl w : kw_inv w → kw_later w w.
Proof. by split. Qed.

Lemma kw_later_trans w1 w2 w3 : kw_later w1 w2 → kw_later w2 w3 → kw_later w1 w3.
Proof. intros [] []. split; auto. Qed.

Lemma new_sock_later x w k w' : kw_inv w → sock_live (kw_net w) (sk_inner x) → new_sock x w = (k, w') →
  kw_later w w' ∧ is_Some (kw_socks w' !! k).
Proof. intros Hk Hx [= <- <-]. split; [by apply set_sock_later|]. cbn. rewrite lookup_insert_eq. done. Qed.

Lemma Socket_new_later domain t w : kw_inv w →
  match Socket_new domain t w with Ret (k, w') => kw_later w w' ∧ is_Some (kw_socks w' !! k) | Panic => True end.
Proof.
  intros Hk. unfold Socket_new. destruct t; [| |done].
  - destruct (blank_tcp (kw_net w)) as [i n] eqn:E. apply blank_tcp_keeps in E as [Hl Hi]; [|apply Hk]. pose proof (set_net_later w n Hk Hl) as H1.
    destruct (Socket_new_with_inner _ _ _ _) as [k w'] eqn:Ew. apply new_sock_later in Ew as [H2 H3]; [|apply H1|done]. split; [by eapply kw_later_trans|done].
  - destruct (blank_udp (kw_net w)) as [i n] eqn:E. apply blank_udp_keeps in E as [Hl Hi]; [|apply Hk]. pose proof (set_net_later w n Hk Hl) as H1.
    destruct (Socket_new_with_inner _ _ _ _) as [k w'] eqn:Ew. apply new_sock_later in Ew as [H2 H3]; [|apply H1|done]. split; [by eapply kw_later_trans|done].
Qed.

Lemma Socket_reuse_live x port w y : kw_inv w → Socket_reuse x port w = Ret y → sock_live (kw_net w) (sk_inner y).
Proof.
  intros [Hn _ _]. unfold Socket_reuse. destruct (sock_get_protocol (sk_inner x)) as [[]|]; [| |done|done]; cbn [net_unwrap]; step_ret.
  - destruct (tcp_map (kw_net w) !! port) as [t|] eqn:E; [|done]. cbn [unwrap]. step_ret. intros [= <-]. cbn. destruct (no_tcp _ Hn _ _ E) as (sv & Hs & _). by exists sv.
  - destruct (udp_map (kw_net w) !! port) as [u|] eqn:E; [|done]. cbn [unwrap]. step_ret. intros [= <-]. cbn. destruct (no_udp _ Hn _ _ E) as (i & Hs & _). by exists i.
Qed.

(** An accepted connection exists. *)
Lemma accept_live s n c n' : net_ok n → sock_accept s n = Ret (NOk c, n') → sock_live n' c.
Proof.
  intros Hn E. pose proof (accept_keeps s n Hn) as Hk. rewrite E in Hk. destruct Hk as [Hn' Hl]. destruct s as [u|t|x]; [done| |done]. cbn in E.
  unfold TcpServer_accept in E. destruct (ns_tcp n !! t) as [sv|] eqn:Et; [|done]. cbn [unwrap] in E. cbn in E. destruct (sv_wait_queue sv) as [|y wq] eqn:Eq; [done|].
  destruct (if negb _ then _ else _) as [n1|] in E; [|done]. cbn in E. injection E as <- <-. apply Hl. cbn. eapply no_conns; [done|exact Et|].
  rewrite Eq. apply elem_of_app. right. by left.
Qed.

(** ** Dropping sockets *)

Lemma Socket_drop_inv k w w' : kw_inv w → k ∉ kw_held w → Socket_drop k w = Ret w' →
  kw_inv w' ∧ kw_socks w' = delete k (kw_socks w) ∧ kw_pairs w' = kw_pairs w ∧ kw_held w' = kw_held w.
Proof.
  intros Hk Hh. unfold Socket_drop. destruct (kw_socks w !! k) as [x|] eqn:Ex; [|done]. cbn [unwrap]. step_ret.
  destruct (sock_is_closed _ _) as [[closed|]|]; [|done|done]. cbn [net_unwrap]. step_ret.
  assert (∀ o, match o with Ret w1 => kw_inv w1 ∧ kw_socks w1 = kw_socks w ∧ kw_pairs w1 = kw_pairs w ∧ kw_held w1 = kw_held w | Panic => True end →
    (w1 ← o; Ret (set_socks (delete k) w1)) = Ret w' →
    kw_inv w' ∧ kw_socks w' = delete k (kw_socks w) ∧ kw_pairs w' = kw_pairs w ∧ kw_held w' = kw_held w) as Hend.
  { intros [w1|]; [|done]. intros (H1 & E1 & E2 & E3). step_ret. intros [= <-]. cbn. rewrite E1. split; [|done]. destruct H1 as [Hn Hl Hd]. split; cbn; [done| |].
    - intros j y [_ Hy]%lookup_delete_Some. by eapply Hl.
    - intros j Hj. rewrite lookup_delete_is_Some. split; [rewrite E3 in Hj; by intros ->|by apply Hd]. }
  apply Hend. destruct (negb closed && _); [|done]. pose proof (on_net_later (sock_close (sk_inner x)) w Hk (close_keeps _ _ (ki_net _ Hk))) as Hc.
  unfold on_net in *. destruct (sock_close _ _) as [[r n]|]; [|done]. step_ret. split; [by destruct Hc|done].
Qed.

Lemma sock_open_true (s : St) k : sock_open s k = true ↔ ∃ id f, sy_files s !! id = Some f ∧ f_inner f = N_fs (K_sock k).
Proof.
  unfold sock_open. rewrite existsb_exists. split.
  - intros ([id f] & Hin & Hk). apply list_elem_of_In, elem_of_map_to_list in Hin. exists id, f. split; [done|]. cbn in Hk.
    destruct (f_inner f) as [[]| | |]; cbn in Hk; try done. apply bool_decide_eq_true in Hk. by subst.
  - intros (id & f & Hf & Hi). exists (id, f). split; [by apply list_elem_of_In, elem_of_map_to_list|]. cbn. rewrite Hi. cbn. by apply bool_decide_eq_true.
Qed.

(** [sweep] drops sockets that nothing refers to; afterwards there are none. *)
Lemma sweep_list l s s' : sock_inv s → NoDup l → (∀ k, k ∈ l → sock_open s k = false ∧ k ∉ kw_held (sw s)) →
  foldM (λ s k, w ← Socket_drop k (sw s); Ret (set_sw w s)) l s = Ret s' →
  sock_inv s' ∧ sy_files s' = sy_files s ∧ kw_held (sw s') = kw_held (sw s) ∧ dom (kw_socks (sw s')) = dom (kw_socks (sw s)) ∖ list_to_set l ∧
  sy_fds s' = sy_fds s.
Proof.
  revert s. induction l as [|k l IH]; intros s Hs Hnd Hl; cbn [foldM].
  - intros [= <-]. split_and!; try done. set_solver.
  - apply NoDup_cons in Hnd as [Hkl Hnd]. destruct (Hl k) as [Hk Hh]; [by left|]. destruct (Socket_drop k (sw s)) as [w|] eqn:E; [|done]. step_ret. cbn beta iota.
    apply Socket_drop_inv in E as (Hw & Es & Ep & Eh); [|apply Hs|done]. intros Hrest. apply IH in Hrest as (H1 & H2 & H3 & H4 & H5); [| |done|].
    + cbn in H2, H3, H4, H5. split_and!; [done|done|congruence| |done]. rewrite H4, Es, dom_delete_L. set_solver.
    + destruct Hs as [Hsys Hkw Hf]. split; [by apply sw_evolves|done|]. intros id f Hid. pose proof (Hf id f Hid) as Hlive. cbn.
      destruct (f_inner f) as [[n|j|p]| | |] eqn:Ei; cbn in Hlive |- *; try done; [|by rewrite Ep]. rewrite Es, lookup_delete_is_Some. split; [|done].
      intros ->. assert (sock_open s j = true) by (apply sock_open_true; by exists id, f). congruence.
    + intros j Hj. destruct (Hl j) as [H1 H2]; [by right|]. split; [exact H1|]. cbn. by rewrite Eh.
Qed.

Lemma sweep_inv s s' : sock_inv s → sweep s = Ret s' →
  sock_inv s' ∧ sy_files s' = sy_files s ∧ sy_fds s' = sy_fds s ∧ ∀ k, is_Some (kw_socks (sw s') !! k) ↔ is_Some (kw_socks (sw s) !! k) ∧ (sock_open s' k = true ∨ k ∈ kw_held (sw s')).
Proof.
  intros Hs E. apply sweep_list in E as (H1 & H2 & H3 & H4 & H5); [|done| |].
  - split; [done|]. split; [done|]. split; [done|]. intros k. assert (sock_open s' k = sock_open s k) as -> by (unfold sock_open; by rewrite H2).
    rewrite H3, <- !elem_of_dom, H4, elem_of_difference, elem_of_list_to_set. unfold orphans. rewrite list_elem_of_filter, elem_of_elements.
    destruct (decide (k ∈ kw_held (sw s))), (sock_open s k); naive_solver.
  - unfold orphans. apply NoDup_filter, NoDup_elements.
  - intros k. unfold orphans. by intros [? _]%list_elem_of_filter.
Qed.

(** ** The logic *)

(** Run from [s], the call returns a value and a state in [Q], or an error and a well-formed
    state, or it panics. *)
Definition swp {A} (m : C A) (Q : A → St → Prop) (s : St) : Prop :=
  match m s with Ret (Ok a, s') => Q a s' | Ret (Err _, s') => sock_inv s' | Panic => True end.

(** The state is well formed and the waiting calls hold what they held before. *)
Record good (s s' : St) : Prop := {
  gd_inv : sock_inv s'; gd_held : sy_held s' = sy_held s; gd_kheld : kw_held (sw s') = kw_held (sw s);
}.

Lemma good_refl s : sock_inv s → good s s.
Proof. by split. Qed.
Lemma good_trans s1 s2 s3 : good s1 s2 → good s2 s3 → good s1 s3.
Proof. intros [] []. split; [done|congruence..]. Qed.

Lemma swp_bind {A B} (m : C A) (k : A → C B) Q s : swp m (λ a, swp (k a) Q) s → swp (m ≫= k) Q s.
Proof. unfold swp, mbind, call_bind. by destruct (m s) as [[[]]|]. Qed.
Lemma swp_ret {A} (a : A) (Q : A → St → Prop) s : Q a s → swp (mret a) Q s.
Proof. done. Qed.
Lemma swp_mono {A} (m : C A) (Q Q' : A → St → Prop) s : swp m Q s → (∀ a s', Q a s' → Q' a s') → swp m Q' s.
Proof. unfold swp. intros Hm HQ. destruct (m s) as [[[]]|]; auto. Qed.
Lemma swp_try {A} (r : result A) (Q : A → St → Prop) s : sock_inv s → (∀ a, r = Ok a → Q a s) → swp (try r) Q s.
Proof. intros Hs HQ. unfold swp, try. destruct r; auto. Qed.
Lemma swp_see {A} (f : St → outcome A) (Q : A → St → Prop) s : (∀ a, f s = Ret a → Q a s) → swp (see f) Q s.
Proof. intros HQ. unfold swp, see. destruct (f s) as [a|]; [by apply HQ|done]. Qed.

Lemma swp_new_fd e (Q : Z → St → Prop) s : sock_inv s → (∀ fd, Q fd s) → swp (new_fd e) Q s.
Proof.
  intros Hs HQ. pose proof (wp_new_fd_with None None e Q s (si_sys _ Hs)) as Hn. unfold swp.
  destruct (new_fd e s) as [[[fd|] s']|]; subst; [apply HQ|done|done].
Qed.

Lemma swp_fd_or fd e (Q : nat → St → Prop) s : sock_inv s → (∀ id, descriptor s fd id → is_Some (sy_files s !! id) → Q id s) → swp (fd_or fd e) Q s.
Proof.
  intros Hs HQ. destruct (get_fd_ok _ _ s fd (si_sys _ Hs)) as (lim & _ & _ & E). unfold swp, fd_or, see, mbind, call_bind. rewrite E.
  unfold descriptor in HQ. rewrite E in HQ. destruct (if decide (lim ≤ fd) then None else _) as [id|] eqn:Eo; cbn; [|done].
  apply HQ; [done|]. apply (descriptor_file None s fd id (si_sys _ Hs)). unfold descriptor. congruence.
Qed.

Lemma swp_socket_in id (Q : nat → St → Prop) s : sock_inv s → (∀ k x, kw_socks (sw s) !! k = Some x → Q k s) → swp (socket_in id) Q s.
Proof.
  intros Hs HQ. apply swp_bind. unfold file_at. apply swp_see. intros f Hf. destruct (sy_files s !! id) as [f'|] eqn:Ef; [|done]. injection Hf as ->.
  pose proof (si_files _ Hs id f Ef) as Hl. destruct (f_inner f) as [[n|k|p]| | |]; try by apply swp_try. destruct Hl as [x Hx]. apply swp_ret. eauto.
Qed.

Lemma swp_socket_of fd (Q : nat → St → Prop) s : sock_inv s → (∀ k x, kw_socks (sw s) !! k = Some x → Q k s) → swp (socket_of fd) Q s.
Proof. intros Hs HQ. apply swp_bind, swp_fd_or; [done|]. intros id _ _. by apply swp_socket_in. Qed.

Lemma swp_socket_at k (Q : Socket → St → Prop) s : sock_inv s →
  (∀ x, kw_socks (sw s) !! k = Some x → sock_live (kw_net (sw s)) (sk_inner x) → Q x s) → swp (socket_at k) Q s.
Proof.
  intros Hs HQ. apply swp_see. intros x Hx. destruct (kw_socks (sw s) !! k) as [y|] eqn:E; [|done]. injection Hx as ->. apply HQ; [done|].
  eapply ki_live; [apply Hs|done].
Qed.

Lemma swp_on_sw {A} (f : KW → outcome (A * KW)) (Q : A → St → Prop) s : sock_inv s →
  (∀ a w', f (sw s) = Ret (a, w') → kw_later (sw s) w' ∧ kw_held w' = kw_held (sw s)) →
  (∀ a w', f (sw s) = Ret (a, w') → good s (set_sw w' s) → Q a (set_sw w' s)) → swp (on_sw f) Q s.
Proof.
  intros Hs Hf HQ. unfold swp, on_sw. destruct (f (sw s)) as [[a w']|] eqn:E; [|done]. step_ret. destruct (Hf a w' eq_refl) as [Hl Hh].
  apply HQ; [done|]. split; [by apply set_sw_inv|done|done].
Qed.

Lemma swp_on_net {A} (f : NetServer → outcome (A * NetServer)) (Q : A → St → Prop) s : sock_inv s → (∀ n, net_ok n → keeps_net n (f n)) →
  (∀ a s', good s s' → Q a s') → swp (on_sw (on_net f)) Q s.
Proof.
  intros Hs Hf HQ. apply swp_on_sw; [done| |eauto]. intros a w' E. pose proof (on_net_later f (sw s) (si_kw _ Hs) (Hf _ (ki_net _ (si_kw _ Hs)))) as H.
  rewrite E in H. split; [done|]. unfold on_net in E. destruct (f _) as [[]|]; [|done]. by injection E as <- <-.
Qed.

(** *** Files *)

Lemma collect_sub (s : St) id : sy_files (collect id s) ⊆ sy_files s ∧ sw (collect id s) = sw s.
Proof.
  unfold collect. case_decide; [done|]. destruct (sy_files s !! id) as [f|]; [|done]. split; [apply delete_subseteq|]. by destruct (f_inner f).
Qed.

Lemma sub_inv s s' : sock_inv s → sys_ok s' → sy_files s' ⊆ sy_files s → sw s' = sw s → sock_inv s'.
Proof. intros [Hs Hk Hf] Hs' Hsub E. split; [done|by rewrite E|]. intros id f Hid. rewrite E. eapply Hf, lookup_weaken, Hsub. exact Hid. Qed.

Lemma put_fd_sub (s s' : St) fd id r : put_fd fd id s = Ret (r, s') → sy_files s' ⊆ sy_files s ∧ sw s' = sw s ∧ sy_held s' = sy_held s.
Proof.
  unfold put_fd. destruct (set_fd _ _ _) as [p|]; [|done]. step_ret. intros [= _ <-].
  set (s1 := match _ with Some old => _ | None => _ end). assert (sy_files s1 ⊆ sy_files s ∧ sw s1 = sw s ∧ sy_held s1 = sy_held s) as (H1 & H2 & H3).
  { subst s1. destruct (mjoin _) as [old|]; [|done]. destruct (collect_sub (set_fds p s) old) as [H1 H2]. split; [done|]. split; [done|]. apply (collect_fds (set_fds p s) old). }
  destruct (collect_sub s1 id) as [H4 H5]. split; [by etrans|]. split; [congruence|]. rewrite (proj1 (proj2 (proj2 (collect_fds s1 id)))). done.
Qed.

(** A new file on a node that exists, put at a descriptor. *)
Lemma new_put_fd {A} f fd (k : nat → C A) Q s : sock_inv s → (∃ n, f_inner f = N_fs n) → snode_live (sw s) (f_inner f) →
  (∀ id s', good s s' → sw s' = sw s → swp (k id) Q s') → swp (id ← new_file f; put_fd fd id;; k id) Q s.
Proof.
  intros Hs [n Hn] Hl HQ. destruct (new_file_ok None None f s (si_sys _ Hs)) as (id & s1 & E1 & H1 & _ & W1); [by rewrite Hn|by rewrite Hn|].
  destruct (put_fd_ok _ id s1 fd H1) as (s2 & E2 & H2 & _). apply swp_bind. unfold swp. rewrite E1. apply swp_bind. unfold swp at 1. rewrite E2.
  apply put_fd_sub in E2 as (Hsub & Esw & Eh). unfold new_file in E1. injection E1 as Eid <-. cbn in Hsub, Esw, Eh.
  apply HQ; [|exact Esw]. split; [|done|by rewrite Esw]. split; [done|unfold sw in *; cbn in Esw; rewrite Esw; apply Hs|].
  intros j g Hj. unfold sw in *. cbn in Esw. rewrite Esw. eapply lookup_weaken in Hj; [|exact Hsub].
  apply lookup_insert_Some in Hj as [[_ <-]|[_ Hj]]; [done|by apply (si_files _ Hs j)].
Qed.

Lemma swp_put_node fd n (Q : nat → St → Prop) s : sock_inv s → snode_live (sw s) (N_fs n) → (∀ id s', good s s' → sw s' = sw s → Q id s') → swp (put_node fd n) Q s.
Proof. intros Hs Hl HQ. apply (new_put_fd (File_new_dev (N_fs n))); [done|by eexists|done|]. intros id s' Hg E. apply swp_ret. auto. Qed.

(** *** Holding and releasing *)

Lemma hold_inv id s : sock_inv s → is_Some (sy_files s !! id) → sock_inv (set_held (id :: sy_held s) s).
Proof.
  intros Hs [f Hf]. apply (sub_inv s); [done| |done|done]. apply (hold_ok id s (f_inner f)); [apply Hs|]. unfold file_on. by rewrite lookup_fmap, Hf.
Qed.

Lemma swp_hold id (Q : unit → St → Prop) s : sock_inv s → is_Some (sy_files s !! id) →
  (sock_inv (set_held (id :: sy_held s) s) → Q tt (set_held (id :: sy_held s) s)) → swp (hold id) Q s.
Proof. intros Hs Hid HQ. unfold swp, hold. by apply HQ, hold_inv. Qed.

Lemma swp_hold_sock k (Q : unit → St → Prop) s : sock_inv s → is_Some (kw_socks (sw s) !! k) → (∀ s', sock_inv s' → Q tt s') → swp (hold_sock k) Q s.
Proof.
  intros Hs Hk HQ. unfold swp, hold_sock, on_sw. step_ret. apply HQ, set_sw_inv; [done|]. destruct (si_kw _ Hs). split; [split; cbn; try done|done|done].
  intros j. rewrite elem_of_cons. intros [->|?]; auto.
Qed.

Lemma swp_release_sock k (Q : unit → St → Prop) s : sock_inv s → k ∈ kw_held (sw s) → (∀ s', sock_inv s' → sy_held s' = sy_held s → Q tt s') → swp (release_sock k) Q s.
Proof.
  intros Hs Hk HQ. unfold swp, release_sock, on_sw. step_ret. apply HQ; [|done]. apply set_sw_inv; [done|]. destruct (si_kw _ Hs). split; [split; cbn; try done|done|done].
  intros j Hj. apply ki_held0. apply (elem_of_remove_one _ k); [done|]. by left.
Qed.

Lemma swp_release id (Q : unit → St → Prop) s : sock_inv s → id ∈ sy_held s → (∀ s', sock_inv s' → Q tt s') → swp (release id) Q s.
Proof.
  intros Hs Hid HQ. unfold swp, release. apply HQ. set (s1 := set_held _ s). destruct (collect_sub s1 id) as [H1 H2].
  apply (sub_inv s); [done| |done|by rewrite H2]. pose proof (release_ok (λ _ : SN, INode_default) (sy_mounted s) id s (si_sys _ Hs) Hid) as Hr. exact Hr.
Qed.

(** *** Sweeping *)

Definition tidy (s : St) : Prop := ∀ k, is_Some (kw_socks (sw s) !! k) → sock_open s k = true ∨ k ∈ kw_held (sw s).

Lemma swp_swept {A} (m : C A) s : swp m (λ _ s', sock_inv s') s → swp (swept m) (λ _ s', sock_inv s') s.
Proof.
  unfold swp, swept. destruct (m s) as [[r s1]|]; [|done]. step_ret. intros H. assert (sock_inv s1) as Hs by (by destruct r).
  destruct (sweep s1) as [s2|] eqn:E; [|done]. step_ret. apply sweep_inv in E as [H2 _]; [|done]. by destruct r.
Qed.

(** ** The calls *)

Abbreviation keeps_sock m s := (swp m (λ _ s', sock_inv s') s).

Lemma good_inv s s' : good s s' → sock_inv s'.
Proof. by intros []. Qed.

Lemma socket_keeps domain t s : sock_inv s → keeps_sock (sys_socket domain t) s.
Proof.
  intros Hs. apply swp_bind, swp_new_fd; [done|]. intros fd. apply swp_bind, swp_try; [done|]. intros nt _. apply swp_bind.
  pose proof (Socket_new_later domain nt (sw s) (si_kw _ Hs)) as Hn. apply swp_on_sw; [done| |].
  - intros k w' E. rewrite E in Hn. split; [apply Hn|]. destruct nt; unfold Socket_new in E; [| |done].
    + destruct (blank_tcp _). by injection E as <- <-.
    + destruct (blank_udp _). by injection E as <- <-.
  - intros k w' E Hg. rewrite E in Hn. apply swp_bind, swp_put_node; [apply Hg|apply Hn|]. intros id s' Hg' _. apply swp_ret, (gd_inv _ _ Hg').
Qed.

Lemma swp_fd_result e (Q : result Z → St → Prop) s : sock_inv s → (∀ r, Q r s) → swp (λ s, '(r, s) ← new_fd e s; Ret (Ok r, s)) Q s.
Proof.
  intros Hs HQ. pose proof (wp_new_fd_with None None e (λ _ _, True) s (si_sys _ Hs)) as Hn. unfold swp.
  destruct (new_fd e s) as [[r s']|]; [|done]. subst s'. step_ret. apply HQ.
Qed.

Lemma socket_pair_keeps fds s : sock_inv s → keeps_sock (sys_socket_pair fds) s.
Proof.
  intros Hs. apply swp_bind. set (f := λ w : KW, _). assert (∀ p w', f (sw s) = Ret (p, w') → kw_later (sw s) w' ∧ kw_held w' = kw_held (sw s) ∧ is_Some (kw_pairs w' !! p)) as Hf.
  { intros p w' [= <- <-]. split_and!; [|done|cbn; by rewrite lookup_insert_eq]. destruct (si_kw _ Hs). split; [by split|done|]. cbn. intros q Hq. apply lookup_insert_is_Some'. by right. }
  apply swp_on_sw; [done|intros p w' E; destruct (Hf p w' E) as (?&?&?); done|]. intros p w' E Hg. destruct (Hf p w' E) as (_ & _ & Hp). clear Hf E.
  apply swp_bind, swp_fd_result; [apply Hg|]. intros [rx|e]; [|apply swp_ret, (gd_inv _ _ Hg)]. apply swp_bind.
  apply swp_put_node; [apply Hg|exact Hp|]. intros id s1 Hg1 E1. apply swp_bind, swp_fd_result; [apply Hg1|]. intros [tx|e]; [|apply swp_ret, (gd_inv _ _ Hg1)].
  apply swp_bind. apply swp_put_node; [apply Hg1|by rewrite E1|]. intros id2 s2 Hg2 _. apply swp_ret, (gd_inv _ _ Hg2).
Qed.

(** A new kernel socket. *)
Lemma new_sock_keeps {B} y s (k : nat → C B) : sock_inv s → sock_live (kw_net (sw s)) (sk_inner y) →
  (∀ j s', good s s' → is_Some (kw_socks (sw s') !! j) → keeps_sock (k j) s') → keeps_sock (j ← on_sw (λ w, Ret (new_sock y w)); k j) s.
Proof.
  intros Hs Hc Hk. apply swp_bind. destruct (new_sock y (sw s)) as [j w'] eqn:E.
  pose proof (new_sock_later _ (sw s) j w' (si_kw _ Hs) Hc E) as [H1 H2].
  apply swp_on_sw; [done|intros ?? E'; rewrite E in E'; injection E' as <- <-; split; [exact H1|by injection E as _ <-]|].
  intros j' w2 E' Hg. rewrite E in E'. injection E' as <- <-. by apply Hk.
Qed.

Lemma bind_call_keeps fd addr s : sock_inv s → keeps_sock (sys_bind fd addr) s.
Proof.
  intros Hs. apply swp_swept. apply swp_bind, swp_socket_of; [done|]. intros k x0 Hx0. apply swp_bind, swp_socket_at; [done|]. intros x Hx Hl.
  apply swp_bind, swp_see. intros a _. cbv zeta. case_decide; [by apply swp_try|]. apply swp_bind, swp_see. intros n [= <-].
  destruct (match sk_net_type x with STEAM => _ | DGRAME => _ | RAW => _ end).
  - apply swp_bind, swp_see. intros y Hy. apply Socket_reuse_live in Hy; [|apply Hs]. apply new_sock_keeps; [done|done|]. intros j s1 Hg Hj.
    apply swp_bind, swp_put_node; [apply Hg|exact Hj|]. intros id s' Hg' _. apply swp_ret, (gd_inv _ _ Hg').
  - apply swp_bind, swp_on_net; [done|intros n Hn; by apply bind_keeps|]. intros [[]|e] s' Hg; [apply swp_ret, (gd_inv _ _ Hg)|apply swp_try; [apply Hg|done]].
Qed.

(** Calls that look up a socket and act on the network. *)
Lemma net_call_keeps {A B} fd (f : Socket → NetServer → outcome (A * NetServer)) (g : A → B) s : sock_inv s → (∀ x n, net_ok n → keeps_net n (f x n)) →
  keeps_sock (k ← socket_of fd; x ← socket_at k; a ← on_sw (on_net (f x)); mret (g a)) s.
Proof.
  intros Hs Hf. apply swp_bind, swp_socket_of; [done|]. intros k x0 Hx0. apply swp_bind, swp_socket_at; [done|]. intros x Hx Hl.
  apply swp_bind, swp_on_net; [done|apply Hf|]. intros a s' Hg. apply swp_ret, (gd_inv _ _ Hg).
Qed.

Lemma listen_call_keeps fd s : sock_inv s → keeps_sock (sys_listen fd) s.
Proof. intros Hs. apply (net_call_keeps fd (λ x, sock_listen (sk_inner x)) (λ _, 0)); [done|]. intros. by apply listen_keeps. Qed.

Lemma shutdown_keeps fd s : sock_inv s → keeps_sock (sys_shutdown fd) s.
Proof. intros Hs. apply (net_call_keeps fd (λ x, sock_close (sk_inner x)) (λ _, 0)); [done|]. intros. by apply close_keeps. Qed.

Lemma sendto_call_keeps fd buf addr s : sock_inv s → keeps_sock (sys_sendto fd buf addr) s.
Proof.
  intros Hs. apply swp_bind, swp_socket_of; [done|]. intros k x0 Hx0. apply swp_bind, swp_socket_at; [done|]. intros x Hx Hl.
  apply swp_bind, swp_see. intros local _. apply swp_bind.
  assert (∀ s', sock_inv s' → keeps_sock (r ← on_sw (on_net (sock_sendto (sk_inner x) buf (user_addr <$> addr))); see (λ _, net_unwrap r)) s') as Hrest.
  { intros s' Hs'. apply swp_bind, swp_on_net; [done|intros n Hn; by apply sendto_keeps|]. intros a s2 Hg. apply swp_see. intros _ _. apply Hg. }
  case_decide; [|apply swp_ret; by apply Hrest]. apply swp_bind, swp_on_net; [done|intros n Hn; by apply bind_keeps|].
  intros [[]|e] s' Hg; [apply swp_ret, Hrest, Hg|apply swp_try; [apply Hg|done]].
Qed.

Lemma name_keeps get fd addr s : sock_inv s → keeps_sock (sys_name get fd addr) s.
Proof.
  intros Hs. apply swp_bind, swp_socket_of; [done|]. intros k x0 Hx0. apply swp_bind, swp_socket_at; [done|]. intros x Hx Hl.
  destruct addr; [|done]. apply swp_bind, swp_see. intros a _. done.
Qed.

(** *** Calls that wait *)

(** An [accept] that is waiting holds its file and its socket. *)
Definition accept_held (a : Accept) (s : St) : Prop := ac_file a ∈ sy_held s ∧ ac_sock a ∈ kw_held (sw s).

Lemma accept_start_keeps fd s : sock_inv s → swp (accept_start fd) (λ a s', sock_inv s' ∧ accept_held a s') s.
Proof.
  intros Hs. apply swp_bind, swp_fd_or; [done|]. intros id _ Hid. apply swp_bind, swp_socket_in; [done|]. intros k x Hk. apply swp_bind, swp_new_fd; [done|]. intros nfd.
  apply swp_bind, swp_hold; [done|done|]. intros H1. apply swp_bind. unfold swp, hold_sock, on_sw. step_ret. cbn. split.
  - apply (set_sw_inv _ (set_kheld (cons k) (sw s))); [done|]. destruct (si_kw _ H1). split; [split; cbn; try done|done|done].
    intros j. rewrite elem_of_cons. intros [->|?]; [by exists x|auto].
  - split; cbn; by left.
Qed.

Lemma accept_end_keeps {B} a (b : B) s : sock_inv s → accept_held a s → keeps_sock (accept_end a;; mret b) s.
Proof.
  intros Hs [H1 H2]. apply swp_bind. unfold accept_end. apply swp_bind, swp_release_sock; [done|done|]. intros s1 Hs1 E1.
  apply swp_release; [done|by rewrite E1|]. intros s2 Hs2. by apply swp_ret.
Qed.

Lemma good_accept a s s' : good s s' → accept_held a s → accept_held a s'.
Proof. intros [_ E1 E2] [H1 H2]. split; [by rewrite E1|by rewrite E2]. Qed.

Lemma accept_inner_spec x s : sock_inv s → swp (accept_inner x) (λ r s', good s s' ∧ match r with NOk c => sock_live (kw_net (sw s')) c | NErr _ => True end) s.
Proof.
  intros Hs. unfold accept_inner. apply swp_on_sw; [done| |].
  - intros r w' E. pose proof (on_net_later (sock_accept (sk_inner x)) (sw s) (si_kw _ Hs) (accept_keeps _ _ (ki_net _ (si_kw _ Hs)))) as H.
    rewrite E in H. split; [done|]. unfold on_net in E. destruct (sock_accept _ _) as [[]|]; [|done]. by injection E as <- <-.
  - intros r w' E Hg. split; [done|]. destruct r as [c|]; [|done]. unfold on_net in E. destruct (sock_accept _ _) as [[r n']|] eqn:Ea; [|done]. injection E as -> <-.
    eapply accept_live; [|exact Ea]. apply Hs.
Qed.

Lemma accept_poll_keeps a sig s : sock_inv s → accept_held a s → keeps_sock (sys_accept_poll a sig) s.
Proof.
  intros Hs Ha. apply swp_swept, swp_bind, swp_socket_at; [done|]. intros x Hx _. apply swp_bind. eapply swp_mono; [by apply accept_inner_spec|].
  intros r s1 [Hg Hc]. pose proof (good_accept a _ _ Hg Ha) as Ha1. destruct r as [c|e].
  - apply (new_sock_keeps (mkSocket (sk_domain x) (sk_net_type x) c 0 0 [])); [apply Hg|done|]. intros j s2 Hg2 Hj. apply swp_bind, swp_put_node; [apply Hg2|done|]. intros id s3 Hg3 _.
    apply accept_end_keeps; [apply Hg3|]. by eapply good_accept, good_accept.
  - destruct sig; [|apply swp_ret, (gd_inv _ _ Hg)]. apply accept_end_keeps; [apply Hg|done].
Qed.

Lemma accept4_poll_keeps a addr flags s : sock_inv s → accept_held a s → keeps_sock (sys_accept4_poll a addr flags) s.
Proof.
  intros Hs Ha. apply swp_swept, swp_bind, swp_socket_at; [done|]. intros x Hx _. apply swp_bind. eapply swp_mono; [by apply accept_inner_spec|].
  intros r s1 [Hg Hc]. pose proof (good_accept a _ _ Hg Ha) as Ha1. destruct r as [c|e].
  - apply swp_bind, swp_see. intros sa _. apply swp_bind, swp_see. intros remote _. apply (new_sock_keeps (mkSocket (sk_domain x) (sk_net_type x) c 0 0 [])); [apply Hg|done|]. intros j s2 Hg2 Hj.
    apply new_put_fd; [apply Hg2|by eexists|done|]. intros id s3 Hg3 _. apply accept_end_keeps; [apply Hg3|]. by eapply good_accept, good_accept.
  - apply swp_bind, swp_see. intros f _. destruct (contains _ _); [|apply swp_ret, (gd_inv _ _ Hg)]. apply accept_end_keeps; [apply Hg|done].
Qed.

Lemma connect_start_keeps fd addr s : sock_inv s → keeps_sock (sys_connect fd addr) s.
Proof.
  intros Hs. apply swp_bind, swp_socket_of; [done|]. intros k x Hx. apply swp_bind, swp_see. intros a _. apply swp_bind, swp_hold_sock; [done|by exists x|].
  intros s' Hs'. by apply swp_ret.
Qed.

Lemma connect_poll_keeps c s : sock_inv s → c.1 ∈ kw_held (sw s) → keeps_sock (sys_connect_poll c) s.
Proof.
  intros Hs Hc. apply swp_swept, swp_bind, swp_socket_at; [done|]. intros x Hx _. apply swp_bind, swp_on_net; [done|intros n Hn; by apply connect_keeps|].
  intros r s1 Hg. assert (keeps_sock (release_sock c.1;; mret (Ready (Ok 0 : result Z))) s1) as Hr.
  { apply swp_bind, swp_release_sock; [apply Hg|by rewrite (gd_kheld _ _ Hg)|]. intros s2 Hs2 _. by apply swp_ret. }
  destruct r as [|[]]; try exact Hr. apply swp_ret, (gd_inv _ _ Hg).
Qed.

Lemma recvfrom_start_keeps fd s : sock_inv s → keeps_sock (sys_recvfrom fd) s.
Proof.
  intros Hs. apply swp_bind, swp_fd_or; [done|]. intros id _ Hid. apply swp_bind, swp_socket_in; [done|]. intros k x Hk.
  apply swp_bind, swp_hold; [done|done|]. intros H1. apply swp_bind, swp_hold_sock; [done|by exists x|]. intros s' Hs'. by apply swp_ret.
Qed.

Lemma recvfrom_poll_keeps c buf addr s : sock_inv s → c.1 ∈ sy_held s → c.2 ∈ kw_held (sw s) → keeps_sock (sys_recvfrom_poll c buf addr) s.
Proof.
  intros Hs H1 H2. apply swp_swept, swp_bind, swp_socket_at; [done|]. intros x Hx _. apply swp_bind.
  assert (∀ B (b : B) s', good s s' → keeps_sock (release_sock c.2;; release c.1;; mret b) s') as Hend.
  { intros B b s' Hg. apply swp_bind, swp_release_sock; [apply Hg|by rewrite (gd_kheld _ _ Hg)|]. intros s2 Hs2 E2. apply swp_bind, swp_release; [done|by rewrite E2, (gd_held _ _ Hg)|].
    intros s3 Hs3. by apply swp_ret. }
  unfold Socket_recv_from. apply swp_on_sw; [done| |].
  - intros r w' E. pose proof (on_net_later (sock_recv_from (sk_inner x)) (sw s) (si_kw _ Hs) (recv_keeps _ _ (ki_net _ (si_kw _ Hs)))) as H.
    unfold on_net in *. destruct (sock_recv_from _ _) as [[r0 n']|]; [|done]. by injection E as <- <-.
  - intros r w' _ Hg. destruct r as [[data remote]|e]; [by apply Hend|]. apply swp_bind, swp_see. intros f _.
    destruct (contains _ _); [by apply Hend|apply swp_ret, (gd_inv _ _ Hg)].
Qed.

(** *** Transfers and descriptors *)

Context (ops : N → INode N W).

(** A step of the world by reading or writing a node. *)
Definition kw_moves (w w' : KW) : Prop := kw_later w w' ∧ kw_held w' = kw_held w.

Lemma kw_moves_refl w : kw_inv w → kw_moves w w.
Proof. intros Hw. split; [by apply kw_later_refl|done]. Qed.

Lemma set_kfs_moves w x : kw_inv w → kw_moves w (set_kfs x w).
Proof. intros []. split; [by split; [split|..]|done]. Qed.

Lemma set_pair_moves w p q : kw_inv w → kw_moves w (set_pairs (insert p q) w).
Proof. intros []. split; [split; [by split|done|]|done]. cbn. intros j Hj. apply lookup_insert_is_Some'. by right. Qed.

Lemma Socket_readat_moves k buf w r b w' : kw_inv w → Socket_readat k buf w = Ret (r, b, w') → kw_moves w w'.
Proof.
  intros Hw. unfold Socket_readat. destruct (kw_socks w !! k) as [x|] eqn:Ex; [|done]. cbn [unwrap]. step_ret.
  assert (∀ o, match o with Ret (_, w1) => kw_moves w w1 ∧ kw_socks w1 = kw_socks w | Panic => True end →
    ('(r, w1) ← o; match r with Err e => Ret (Err e, buf, w1) | Ok data =>
       let rlen := Nat.min (length data) (length buf) in let buffer := buf_write buf (take rlen data) in
       let w2 := if decide (length buffer = 1%nat) then putchar (default 0 (buffer !! 0%nat)) w1 else w1 in
       Ret (Ok (Z.of_nat rlen), buffer, set_socks (insert k (mkSocket (sk_domain x) (sk_net_type x) (sk_inner x) (sk_wsize x)
         (sk_rsize x +u Z.of_nat rlen) (drop rlen data))) w2) end) = Ret (r, b, w') → kw_moves w w') as Hend.
  { intros [[r1 w1]|]; [|done]. intros [[Hl Hh] Es]. step_ret. destruct r1 as [data|e]; [|by intros [= _ _ <-]]. cbv zeta. intros [= _ _ <-].
    set (w2 := if decide _ then _ else _). assert (kw_moves w w2 ∧ kw_net w2 = kw_net w1) as [[Hl2 Hh2] En].
    { subst w2. case_decide; [|done]. destruct Hl as [[] ??]. split; [split; [split; [by split|done..]|done]|done]. }
    split; [|done]. eapply kw_later_trans; [exact Hl2|]. apply set_sock_later; [apply Hl2|]. cbn. rewrite En. eapply ki_live; [apply Hl|]. by rewrite Es. }
  apply Hend. case_decide; [|by split; [apply kw_moves_refl|]].
  pose proof (on_net_later (sock_recv_from (sk_inner x)) w Hw (recv_keeps _ _ (ki_net _ Hw))) as Hn. unfold Socket_recv_from, on_net in *.
  destruct (sock_recv_from _ _) as [[r1 n1]|]; [|done]. step_ret. split; [split; [exact Hn|done]|done].
Qed.

Lemma Socket_writeat_moves k buf w r w' : kw_inv w → Socket_writeat k buf w = Ret (r, w') → kw_moves w w'.
Proof.
  intros Hw. unfold Socket_writeat. destruct (kw_socks w !! k) as [x|] eqn:Ex; [|done]. cbn [unwrap]. step_ret.
  pose proof (on_net_later (sock_sendto (sk_inner x) buf None) w Hw (sendto_keeps _ _ _ _ (ki_net _ Hw))) as Hn. unfold on_net in *.
  destruct (sock_sendto _ _ _ _) as [[r1 n1]|]; [|done]. step_ret. destruct r1 as [len|e]; intros [= _ <-]; [|by split].
  split; [|done]. eapply kw_later_trans; [exact Hn|]. apply set_sock_later; [apply Hn|]. cbn. apply (ki_live _ (kl_inv _ _ Hn) k). done.
Qed.

Lemma readat_moves n off buf (w : NodeWorld KW) r b w' : kw_inv (nw_fs w) →
  i_readat (node_ops (sock_ops ops) n) off buf w = Ret (r, b, w') → kw_moves (nw_fs w) (nw_fs w').
Proof.
  intros Hw. destruct n as [[n|k|p]|p|p|e]; cbn; unfold upd; cbn [unwrap].
  - unfold updk. step_ret. destruct (i_readat _ _ _ _) as [[[]]|]; [|done]. step_ret. intros [= _ _ <-]. by apply set_kfs_moves.
  - step_ret. destruct (Socket_readat k buf (nw_fs w)) as [[[r1 b1] w1]|] eqn:E; [|done]. step_ret. intros [= _ _ <-]. by eapply Socket_readat_moves.
  - step_ret. destruct (kw_pairs (nw_fs w) !! p) as [q|]; [|done]. cbn [unwrap]. step_ret. destruct (SocketPair_readat q buf) as [[]]. step_ret. intros [= _ _ <-]. by apply set_pair_moves.
  - destruct (nw_pipes w !! p) as [q|]; [|done]. cbn [unwrap]. step_ret. destruct (PipeReceiver_readat q buf) as [[]]. step_ret. intros [= _ _ <-]. by apply kw_moves_refl.
  - destruct (nw_pipes w !! p) as [q|]; [|done]. cbn [unwrap]. step_ret. intros [= _ _ <-]. by apply kw_moves_refl.
  - intros [= _ _ <-]. by apply kw_moves_refl.
Qed.

Lemma writeat_moves n off buf (w : NodeWorld KW) r w' : kw_inv (nw_fs w) →
  i_writeat (node_ops (sock_ops ops) n) off buf w = Ret (r, w') → kw_moves (nw_fs w) (nw_fs w').
Proof.
  intros Hw. destruct n as [[n|k|p]|p|p|e]; cbn; unfold upd; cbn [unwrap].
  - unfold updk. step_ret. destruct (i_writeat _ _ _ _) as [[]|]; [|done]. step_ret. intros [= _ <-]. by apply set_kfs_moves.
  - step_ret. destruct (Socket_writeat k buf (nw_fs w)) as [[r1 w1]|] eqn:E; [|done]. step_ret. intros [= _ <-]. by eapply Socket_writeat_moves.
  - step_ret. destruct (kw_pairs (nw_fs w) !! p) as [q|]; [|done]. cbn [unwrap]. step_ret. destruct (SocketPair_writeat q buf). step_ret. intros [= _ <-]. by apply set_pair_moves.
  - destruct (nw_pipes w !! p) as [q|]; [|done]. cbn [unwrap]. step_ret. intros [= _ <-]. by apply kw_moves_refl.
  - destruct (nw_pipes w !! p) as [q|]; [|done]. cbn [unwrap]. step_ret. destruct (PipeSender_writeat q buf). step_ret. intros [= _ <-]. by apply kw_moves_refl.
  - intros [= _ <-]. by apply kw_moves_refl.
Qed.

Lemma swp_on_world {A} n (f : NodeWorld KW → outcome (A * NodeWorld KW)) (Q : A → St → Prop) s : sock_inv s → gentle (sock_ops ops) n f →
  node_live (sy_world s) n → (∀ a w', f (sy_world s) = Ret (a, w') → kw_moves (sw s) (nw_fs w')) →
  (∀ a w', f (sy_world s) = Ret (a, w') → good s (set_world w' s) → Q a (set_world w' s)) → swp (on_world f) Q s.
Proof.
  intros Hs Hg Hl Hf HQ. specialize (Hg _ Hl). unfold swp, on_world. destruct (f (sy_world s)) as [[a w]|] eqn:E; [|done].
  destruct (Hf a w eq_refl) as [H1 H2]. apply HQ; [done|]. split; [|done|exact H2]. split; [by eapply ev_ok, set_world_evolves, Hg; apply Hs|apply H1|].
  intros id g Hid. eapply kw_later_live; [exact H1|]. by eapply si_files.
Qed.

Lemma swp_put_file id f n (Q : unit → St → Prop) s : sock_inv s → file_on s id n → f_inner f = n →
  (∀ s', sock_inv s' → sy_held s' = sy_held s → Q tt s') → swp (put_file id f) Q s.
Proof.
  intros Hs Hid <- HQ. unfold swp, put_file. apply HQ; [|done]. destruct (put_file_evolves s id f (si_sys _ Hs) Hid). split; [done|apply Hs|].
  cbn [sy_files set_files]. intros j g [[_ <-]|[_ Hj]]%lookup_insert_Some; [|exact (si_files _ Hs j g Hj)]. unfold file_on in Hid. rewrite lookup_fmap in Hid.
  destruct (sy_files s !! id) as [f0|] eqn:E0; [|done]. injection Hid as Hi. change (snode_live (sw s) (f_inner f)). rewrite <- Hi. by eapply si_files.
Qed.

Lemma transfer_start_keeps fd buf s : sock_inv s → keeps_sock (start_transfer fd buf) s.
Proof.
  intros Hs. apply swp_bind, swp_fd_or; [done|]. intros id _ Hid. apply swp_bind, swp_see. intros f _. apply swp_bind, swp_hold; [done|done|]. intros H. by apply swp_ret.
Qed.

(** The common part of the two polls. *)
Lemma held_on s id : sock_inv s → id ∈ sy_held s → ∃ f, sy_files s !! id = Some f ∧ node_live (sy_world s) (f_inner f).
Proof.
  intros Hs Hid. destruct (proj1 (so_refers _ _ _ (si_sys _ Hs) id)) as [f Hf]; [left; right; by right|]. exists f. split; [done|]. eapply so_node; [apply Hs|done].
Qed.

Lemma finish_poll {A B} (p : Poll A) id (b : B) s : sock_inv s → id ∈ sy_held s →
  keeps_sock (match p with Ready _ => release id | Pending => mret tt end;; mret b) s.
Proof.
  intros Hs Hid. apply swp_bind. destruct p; [apply swp_release; [done|done|]; intros s' Hs'; by apply swp_ret|]. by apply swp_ret, swp_ret.
Qed.

Lemma read_poll_keeps t s : sock_inv s → tr_file t ∈ sy_held s → keeps_sock (sys_read_poll (sock_ops ops) t) s.
Proof.
  intros Hs Ht. destruct (held_on s _ Hs Ht) as (f & Hf & Hl). unfold sys_read_poll. apply swp_bind, swp_see. intros f' Ef. rewrite Hf in Ef. injection Ef as <-.
  apply swp_bind. eapply (swp_on_world (f_inner f)); [done|apply async_read_gentle|done| |].
  - intros a w' E. unfold async_read_poll, WaitBlockingRead_poll in E. destruct (contains _ _).
    + destruct (i_readat _ _ _ _) as [[[r b] w1]|] eqn:Er in E; [|done]. apply readat_moves in Er; [|apply Hs]. cbn in E. by injection E as _ <-.
    + destruct (i_readat _ _ _ _) as [[[r b] w1]|] eqn:Er in E; [|done]. apply readat_moves in Er; [|apply Hs]. cbn in E. destruct r as [|[]]; by injection E as _ <-.
  - intros [[p [b retry]] f1] w' E Hg. apply swp_bind, (swp_put_file _ _ (f_inner f)).
    + apply Hg.
    + unfold file_on. cbn. by rewrite lookup_fmap, Hf.
    + by eapply async_read_inner.
    + intros s' Hs' Eh. apply finish_poll; [done|]. rewrite Eh. by rewrite (gd_held _ _ Hg).
Qed.

Lemma write_poll_keeps t s : sock_inv s → tr_file t ∈ sy_held s → keeps_sock (sys_write_poll (sock_ops ops) t) s.
Proof.
  intros Hs Ht. destruct (held_on s _ Hs Ht) as (f & Hf & Hl). unfold sys_write_poll. apply swp_bind, swp_see. intros f' Ef. rewrite Hf in Ef. injection Ef as <-.
  apply swp_bind. eapply (swp_on_world (f_inner f)); [done|apply async_write_gentle|done| |].
  - intros a w' E. unfold async_write_poll, WaitBlockingWrite_poll in E. case_decide; [injection E as _ <-; apply kw_moves_refl, Hs|].
    destruct (i_writeat _ _ _ _) as [[r w1]|] eqn:Er in E; [|done]. apply writeat_moves in Er; [|apply Hs]. cbn in E. destruct r as [|[]]; by injection E as _ <-.
  - intros [[p retry] f1] w' E Hg. apply swp_bind, (swp_put_file _ _ (f_inner f)).
    + apply Hg.
    + unfold file_on. cbn. by rewrite lookup_fmap, Hf.
    + by eapply async_write_inner.
    + intros s' Hs' Eh. apply finish_poll; [done|]. rewrite Eh. by rewrite (gd_held _ _ Hg).
Qed.

Lemma close_call_keeps fd s : sock_inv s → keeps_sock (sys_close fd) s.
Proof.
  intros Hs. pose proof (collect_old_ok (sock_ops ops) (sy_mounted s) fd s (si_sys _ Hs)) as Hk. unfold wp, swp in *. unfold sys_close in *. cbn in Hk |- *.
  apply (sub_inv s); [done|done| |]; destruct (mjoin _) as [old|]; try done; apply (collect_sub (set_fds (clear_fd (sy_fds s) fd) s)).
Qed.

Lemma dup3_keeps a b s : sock_inv s → keeps_sock (sys_dup3 a b) s.
Proof.
  intros Hs. apply swp_bind, swp_fd_or; [done|]. intros id _ Hid. apply swp_bind. destruct (put_fd_ok None id s b) as (s' & E & H' & _); [by apply sys_ok_pend; [apply Hs|]|].
  unfold swp at 1. rewrite E. apply swp_ret. apply put_fd_sub in E as (H1 & H2 & _). by apply (sub_inv s).
Qed.

Lemma dup_keeps a s : sock_inv s → keeps_sock (sys_dup a) s.
Proof. intros Hs. apply swp_bind, swp_new_fd; [done|]. intros fd. by apply dup3_keeps. Qed.
End wf.

(** ** Runs *)

(** The socket calls and the descriptor calls that sockets go through, in a state; a call that
    is polled holds what it waits for. *)
Inductive sock_call {N W} (ops : N → INode N W) (s : Sys (SNode N) (SockWorld W)) : call (SNode N) (SockWorld W) unit → Prop :=
  | sc_socket d t : sock_call ops s (ignore (sys_socket d t))
  | sc_socket_pair fds : sock_call ops s (ignore (sys_socket_pair fds))
  | sc_bind fd a : sock_call ops s (ignore (sys_bind fd a))
  | sc_listen fd : sock_call ops s (ignore (sys_listen fd))
  | sc_accept fd : sock_call ops s (ignore (sys_accept fd))
  | sc_accept_poll a sig : accept_held a s → sock_call ops s (ignore (sys_accept_poll a sig))
  | sc_accept4 fd : sock_call ops s (ignore (sys_accept4 fd))
  | sc_accept4_poll a addr fl : accept_held a s → sock_call ops s (ignore (sys_accept4_poll a addr fl))
  | sc_connect fd a : sock_call ops s (ignore (sys_connect fd a))
  | sc_connect_poll c : c.1 ∈ kw_held (sw s) → sock_call ops s (ignore (sys_connect_poll c))
  | sc_recvfrom fd : sock_call ops s (ignore (sys_recvfrom fd))
  | sc_recvfrom_poll c b a : c.1 ∈ sy_held s → c.2 ∈ kw_held (sw s) → sock_call ops s (ignore (sys_recvfrom_poll c b a))
  | sc_sendto fd b a : sock_call ops s (ignore (sys_sendto fd b a))
  | sc_shutdown fd : sock_call ops s (ignore (sys_shutdown fd))
  | sc_getsockname fd a : sock_call ops s (ignore (sys_getsockname fd a))
  | sc_getpeername fd a : sock_call ops s (ignore (sys_getpeername fd a))
  | sc_read fd b : sock_call ops s (ignore (sys_read fd b))
  | sc_read_poll t : tr_file t ∈ sy_held s → sock_call ops s (ignore (sys_read_poll (sock_ops ops) t))
  | sc_write fd b : sock_call ops s (ignore (sys_write fd b))
  | sc_write_poll t : tr_file t ∈ sy_held s → sock_call ops s (ignore (sys_write_poll (sock_ops ops) t))
  | sc_dup fd : sock_call ops s (ignore (sys_dup fd))
  | sc_dup3 a b : sock_call ops s (ignore (sys_dup3 a b))
  | sc_close fd : sock_call ops s (ignore (sys_close fd)).

Lemma swp_ignore {N W A} (m : call (SNode N) (SockWorld W) A) s : swp m (λ _ s', sock_inv s') s → swp (ignore m) (λ _ s', sock_inv s') s.
Proof. intros Hm. apply swp_bind. eapply swp_mono; [exact Hm|]. intros a s' Hs. by apply swp_ret. Qed.

Lemma sock_call_keeps {N W} (ops : N → INode N W) s m : sock_inv s → sock_call ops s m → swp m (λ _ s', sock_inv s') s.
Proof.
  assert (∀ fd, sock_inv s → swp (accept_start fd) (λ _ s', sock_inv s') s) as Hacc.
  { intros fd Hs. eapply swp_mono; [by apply accept_start_keeps|]. by intros a s' [? _]. }
  intros Hs Hm. destruct Hm; apply swp_ignore.
  - by apply socket_keeps.
  - by apply socket_pair_keeps.
  - by apply bind_call_keeps.
  - by apply listen_call_keeps.
  - by apply Hacc.
  - by apply accept_poll_keeps.
  - by apply Hacc.
  - by apply accept4_poll_keeps.
  - by apply connect_start_keeps.
  - by apply connect_poll_keeps.
  - by apply recvfrom_start_keeps.
  - by apply recvfrom_poll_keeps.
  - by apply sendto_call_keeps.
  - by apply shutdown_keeps.
  - by apply name_keeps.
  - by apply name_keeps.
  - by apply transfer_start_keeps.
  - by apply read_poll_keeps.
  - by apply transfer_start_keeps.
  - by apply write_poll_keeps.
  - by apply dup_keeps.
  - by apply dup3_keeps.
  - by apply (close_call_keeps ops).
Qed.

(** One call, at the end of which the sockets that are no longer in use are dropped. *)
Definition sock_step {N W} (ops : N → INode N W) (s s' : Sys (SNode N) (SockWorld W)) : Prop :=
  ∃ m r, sock_call ops s m ∧ swept m s = Ret (r, s').

Lemma swept_run {N W} (m : call (SNode N) (SockWorld W) unit) s r s' : swp m (λ _ s', sock_inv s') s → swept m s = Ret (r, s') → sock_inv s' ∧ tidy s'.
Proof.
  unfold swp, swept. destruct (m s) as [[r1 s1]|]; [|done]. step_ret. intros Hm. assert (sock_inv s1) as H1 by (by destruct r1).
  destruct (sweep s1) as [s2|] eqn:E; [|done]. step_ret. intros [= _ <-]. apply sweep_inv in E as (H2 & _ & _ & H3); [|done]. split; [done|].
  intros k Hk. by apply H3 in Hk as [_ Hk].
Qed.

(** C5: no socket dangles and none leaks, whatever a process does with its sockets.  From a
    well-formed state in which every kernel socket is in use, any sequence of socket calls,
    reads, writes, duplications and closes leads to a state in which every descriptor is an
    open file, every open file on a socket or socket pair has its object, every kernel socket
    stands on a server or connection of the network stack that exists, the port tables are
    sound, and a kernel socket exists only as long as some open file is on it or a waiting
    call holds it. *)
Theorem sockets_well_formed {N W} (ops : N → INode N W) (s s' : Sys (SNode N) (SockWorld W)) :
  sock_inv s → tidy s → rtc (sock_step ops) s s' →
  sys_ok_with None None s' ∧ net_ok (kw_net (sw s')) ∧
  (∀ fd id, descriptor s' fd id → ∃ f, sy_files s' !! id = Some f ∧ ∀ k, f_inner f = N_fs (K_sock k) →
     ∃ x, kw_socks (sw s') !! k = Some x ∧ sock_live (kw_net (sw s')) (sk_inner x)) ∧
  (∀ k, is_Some (kw_socks (sw s') !! k) → (∃ id f, sy_files s' !! id = Some f ∧ f_inner f = N_fs (K_sock k)) ∨ k ∈ kw_held (sw s')).
Proof.
  intros Hs Ht Hr. assert (sock_inv s' ∧ tidy s') as [Hs' Ht'].
  { induction Hr as [|s1 s2 s3 (m & r & Hm & E) _ IH]; [done|]. destruct (swept_run m s1 r s2 (sock_call_keeps ops s1 m Hs Hm) E) as [H1 H2]. by apply IH. }
  split_and!; [apply Hs'|apply Hs'| |].
  - intros fd id Hd. destruct (descriptor_file None s' fd id (si_sys _ Hs') Hd) as [f Hf]. exists f. split; [done|]. intros k Hk.
    pose proof (si_files _ Hs' id f Hf) as Hl. rewrite Hk in Hl. destruct Hl as [x Hx]. exists x. split; [done|]. eapply ki_live; [apply Hs'|done].
  - intros k [Hk|Hk]%Ht'; [left|by right]. by apply sock_open_true.
Qed.

(** A process without sockets. *)
Definition demo_socks : Sys (SNode nat) (SockWorld (list Z)) :=
  Sys_new (mkFile (N_fs (K_fs 0%nat)) [] 0 O_RDWR) (mkFile (N_fs (K_fs 0%nat)) [] 0 O_RDONLY) [([], N_fs (K_fs 5%nat))]
    (mkSockWorld [] (NET_SERVER false) ∅ ∅ [] []).

Lemma demo_socks_inv : sock_inv demo_socks ∧ tidy demo_socks.
Proof.
  split; [split|].
  - eapply Sys_new_ok; [done|done|]. constructor; [by eexists|constructor].
  - split; [apply NET_SERVER_ok|intros k x E; discriminate E|intros k E; by apply not_elem_of_nil in E].
  - unfold demo_socks, Sys_new. cbn [sy_files]. intros id f [[_ <-]|[_ [_ <-]%lookup_singleton_Some]]%lookup_insert_Some; done.
  - intros k [x E]. discriminate E.
Qed.

Lemma sockets_well_formed_witness : ∃ s', swept (ignore (sys_socket 2 1)) demo_socks = Ret (Ok tt, s') ∧ net_ok (kw_net (sw s')).
Proof.
  destruct (swept (ignore (sys_socket 2 1)) demo_socks) as [[r s']|] eqn:E; [|vm_compute in E; discriminate E].
  exists s'. assert (r = Ok tt) as -> by (vm_compute in E; congruence). split; [reflexivity|].
  destruct (sockets_well_formed (λ _ : nat, INode_default) demo_socks s') as (_ & H & _); [exact (proj1 demo_socks_inv)|exact (proj2 demo_socks_inv)| |exact H].
  apply rtc_once. eexists _, _. split; [apply (sc_socket _ _ 2 1)|exact E].
Defined.
