(* ===== verification/SigFrame.v ===== *)
(** * Running a signal handler

    Models kernel/src/user/signal.rs ([handle_signal]), kernel/src/syscall/types/signal.rs,
    [sys_sigreturn] of kernel/src/syscall/task.rs and [handle_syscall] of
    kernel/src/user/mod.rs for riscv64: the signal frame on the user stack, the registers a
    handler starts with, and the return to the interrupted program.  User code and the other
    system calls are arbitrary functions on the state. *)

From S2P Require Import Prelude Signal MemSet.

(** ** The trap frame ([polyhal_trap] for riscv64) *)

Record TrapFrame := mkTrap { tf_x : list Z; tf_sstatus : Z; tf_sepc : Z; tf_fsx : list Z }.

Inductive TrapFrameArgs := SEPC | RA | SP | RET | ARG0 | ARG1 | ARG2 | TLS | SYSCALL.

(** The general register behind a name; [SEPC] is a field of its own. *)
Definition arg_reg (a : TrapFrameArgs) : option nat :=
  match a with
  | SEPC => None | RA => Some 1%nat | SP => Some 2%nat | RET => Some 10%nat | ARG0 => Some 10%nat
  | ARG1 => Some 11%nat | ARG2 => Some 12%nat | TLS => Some 4%nat | SYSCALL => Some 17%nat
  end.

Definition cx_get (cx : TrapFrame) (a : TrapFrameArgs) : Z :=
  match arg_reg a with Some r => default 0 (tf_x cx !! r) | None => tf_sepc cx end.

Definition cx_set (cx : TrapFrame) (a : TrapFrameArgs) (v : Z) : TrapFrame :=
  match arg_reg a with
  | Some r => mkTrap (<[r := v]> (tf_x cx)) (tf_sstatus cx) (tf_sepc cx) (tf_fsx cx)
  | None => mkTrap (tf_x cx) (tf_sstatus cx) v (tf_fsx cx)
  end.

Definition syscall_ok (cx : TrapFrame) : TrapFrame := cx_set cx SEPC (cx_get cx SEPC +u 4).

Definition cx_wf (cx : TrapFrame) : Prop := length (tf_x cx) = 32%nat ∧ Forall is_usize (tf_x cx) ∧ is_usize (tf_sepc cx).

(** ** User memory: cells of four bytes *)

Definition UMem : Type := Z → Z.

Definition store32 (m : UMem) (a v : Z) : UMem := λ x, if decide (x = a) then v mod 4294967296 else m x.
Definition store64 (m : UMem) (a v : Z) : UMem := store32 (store32 m a v) (a + 4) (v / 4294967296).
Definition load64 (m : UMem) (a : Z) : Z := m a + 4294967296 * m (a + 4).

(** Arrays of 64-bit words. *)
Fixpoint store_words (m : UMem) (a : Z) (vs : list Z) : UMem :=
  match vs with [] => m | v :: vs => store_words (store64 m a v) (a + 8) vs end.
Fixpoint load_words (m : UMem) (a : Z) (n : nat) : list Z :=
  match n with O => [] | S n => load64 m a :: load_words m (a + 8) n end.

(** ** [SigInfo] and [SignalUserContext]: sizes and offsets in bytes *)

Definition size_of_SigInfo : Z := 128.
Definition size_of_SignalUserContext : Z := 968.
Definition off_sig_mask : Z := 40.
Definition off_pc : Z := 176.
Definition off_gregs : Z := 184.

Definition uc_pc (m : UMem) (uctx : Z) : Z := load64 m (uctx + off_pc).
Definition uc_set_pc (m : UMem) (uctx v : Z) : UMem := store64 m (uctx + off_pc) v.
Definition uc_sig_mask (m : UMem) (uctx : Z) : SigProcMask := mkMask (load64 m (uctx + off_sig_mask)).
Definition uc_set_mask (m : UMem) (uctx : Z) (k : SigProcMask) : UMem := store64 m (uctx + off_sig_mask) (sp_mask k).

(** [store_ctx] and [restore_ctx]. *)
Definition store_ctx (m : UMem) (uctx : Z) (cx : TrapFrame) : UMem :=
  uc_set_pc (store_words m (uctx + off_gregs) (tf_x cx)) uctx (tf_sepc cx).
Definition restore_ctx (m : UMem) (uctx : Z) (cx : TrapFrame) : TrapFrame :=
  mkTrap (load_words m (uctx + off_gregs) 32) (tf_sstatus cx) (uc_pc m uctx) (tf_fsx cx).

(** [*siginfo_ref = SigInfo::default()] and the signal number. *)
Definition store_siginfo (m : UMem) (a signo : Z) : UMem := store32 (store_words m a (replicate 16 0)) a signo.

(** [li a7, 139; ecall] and two words of padding. *)
Definition trampoline_code : list Z := [0x08b00893; 0x00000073; 0; 0].
Definition store_trampoline (m : UMem) (a : Z) : UMem :=
  store32 (store32 (store32 (store32 m a 0x08b00893) (a + 4) 0x00000073) (a + 8) 0) (a + 12) 0.

(** ** The state of the task *)

Section handler.
Context {F : Type}.

(** [ss_mapped] is [page_table.translate]; [ss_exit] is [task.exit_code()]. *)
Record SigState := mkSS {
  ss_cx : TrapFrame; ss_mask : SigProcMask; ss_mem : UMem; ss_mapped : Z → bool; ss_areas : MemSet (F := F);
  ss_action : list SigAction; ss_exit : option Z;
}.

Definition with_cx (cx : TrapFrame) (s : SigState) : SigState :=
  mkSS cx (ss_mask s) (ss_mem s) (ss_mapped s) (ss_areas s) (ss_action s) (ss_exit s).
Definition with_mask (k : SigProcMask) (s : SigState) : SigState :=
  mkSS (ss_cx s) k (ss_mem s) (ss_mapped s) (ss_areas s) (ss_action s) (ss_exit s).
Definition with_mem (m : UMem) (s : SigState) : SigState :=
  mkSS (ss_cx s) (ss_mask s) m (ss_mapped s) (ss_areas s) (ss_action s) (ss_exit s).

(** [exit_with_signal], modelled with the processes. *)
Context (exit_with_signal : Z → SigState → SigState).

(** ** [rt_sigreturn] *)

Definition sys_sigreturn (s : SigState) : result Z * SigState :=
  let sp := cx_get (ss_cx s) SP in
  let uctx_sp := sp +u 16 +u size_of_SigInfo in
  if decide (sp < 0x1000 ∨ 0x800000000000 ≤ sp) then (Err EFAULT, s)
  else if ss_mapped s uctx_sp then
    let s := with_mask (uc_sig_mask (ss_mem s) uctx_sp) s in
    let cx := restore_ctx (ss_mem s) uctx_sp (ss_cx s) in
    (Ok 0, with_cx (cx_set cx SEPC (uc_pc (ss_mem s) uctx_sp)) s)
  else (Err EFAULT, s).

(** The negated error number as a word; only [EFAULT] (14) can occur. *)
Definition sigreturn_ret (r : result Z) : Z := match r with Ok x => x | Err _ => wrap (-14) end.

Inductive UserTaskControlFlow := Continue | Break.

(** [handle_syscall]: [user] runs the task until it traps and tells whether it made a system
    call, [syscall] is the effect of any other system call. *)
Definition handle_syscall (user : SigState → SigState * bool) (syscall : SigState → SigState) (s : SigState)
    : UserTaskControlFlow * SigState :=
  let '(s, is_syscall) := user s in
  if (is_syscall : bool) then
    if decide (cx_get (ss_cx s) SYSCALL = 139) then
      let '(r, s) := sys_sigreturn s in (Break, with_cx (cx_set (ss_cx s) RET (sigreturn_ret r)) s)
    else (Continue, syscall (with_cx (syscall_ok (ss_cx s)) s))
  else (Continue, s).

(** The loop that runs the handler, over what the task does at each turn; [None] while the
    handler is still running at the end of the list. *)
Fixpoint handler_loop (turns : list ((SigState → SigState * bool) * (SigState → SigState))) (s : SigState) : option SigState :=
  match ss_exit s with
  | Some _ => Some s
  | None =>
      match turns with
      | [] => None
      | (user, syscall) :: turns =>
          match handle_syscall user syscall s with
          | (Break, s) => Some s
          | (Continue, s) => handler_loop turns s
          end
      end
  end.

(** ** [handle_signal] *)

Definition default_terminates : list Z :=
  [SIGCANCEL; SIGSEGV; SIGILL; SIGABRT; SIGIOT; SIGQUIT; SIGTERM; SIGHUP; SIGINT; SIGPIPE; SIGALRM; SIGFPE; SIGBUS; SIGTRAP;
   SIGXCPU; SIGXFSZ; SIGVTALRM; SIGPROF].

(** No handler: terminate or ignore. *)
Definition signal_default (sig : Z) (s : SigState) : SigState :=
  if decide (sig ∈ default_terminates ++ [SIGUSR1; SIGUSR2]) then exit_with_signal (num sig) s else s.

Definition executable (t : MemType) : bool := match t with Mmap | Stack | CodeSection => true | _ => false end.
Definition in_executable (areas : MemSet (F := F)) (addr : Z) : bool :=
  existsb (λ a, area_contains a addr && executable (mtype a)) areas.

(** The addresses of the frame: trampoline, [siginfo_t], [ucontext]. *)
Definition frame_size : Z := 16 + size_of_SigInfo + size_of_SignalUserContext.
Definition frame_sp (current_sp : Z) : Z := Z.ldiff (current_sp -u 128 -u frame_size) 0xf.

Definition sp_in_stack (areas : MemSet (F := F)) (siginfo_sp uctx_end : Z) : bool :=
  existsb (λ a, area_contains a siginfo_sp && area_contains a uctx_end && match mtype a with Stack | Mmap => true | _ => false end) areas.

(** The stack checks that precede the frame. *)
Definition stack_ok (s : SigState) (sp : Z) : bool :=
  let current_sp := cx_get (ss_cx s) SP in
  let siginfo_sp := sp +u 16 in
  let uctx_sp := siginfo_sp +u size_of_SigInfo in
  negb (bool_decide (current_sp ≤ sp) || bool_decide (65536 < current_sp -u sp)) &&
  negb (bool_decide (sp < 0x1000) || bool_decide (0x800000000000 ≤ sp)) &&
  sp_in_stack (ss_areas s) siginfo_sp (uctx_sp +u size_of_SignalUserContext) && ss_mapped s siginfo_sp.

(** What happens to the return address: the action's restorer, or a trampoline on the stack. *)
Definition set_return (sa : SigAction) (tramp_sp original_pc : Z) (s : SigState) : SigState :=
  if decide (sa_restorer sa < 0x1000) then
    if ss_mapped s tramp_sp then
      with_cx (cx_set (ss_cx s) RA tramp_sp) (with_mem (store_trampoline (ss_mem s) tramp_sp) s)
    else with_cx (cx_set (ss_cx s) RA original_pc) s
  else with_cx (cx_set (ss_cx s) RA (sa_restorer sa)) s.

(** The context is stored and the registers are set for the handler. *)
Definition enter_handler (sa : SigAction) (sig sp : Z) (s : SigState) : SigState :=
  let siginfo_sp := sp +u 16 in
  let uctx_sp := siginfo_sp +u size_of_SigInfo in
  let original_pc := cx_get (ss_cx s) SEPC in
  let m := uc_set_mask (uc_set_pc (store_ctx (ss_mem s) uctx_sp (ss_cx s)) uctx_sp original_pc) uctx_sp (sa_mask sa) in
  with_cx (cx_set (cx_set (ss_cx s) SP sp) SEPC (sa_handler sa)) (with_mem m s).

(** The arguments of the handler. *)
Definition set_args (sig sp : Z) (s : SigState) : SigState :=
  let siginfo_sp := sp +u 16 in
  let uctx_sp := siginfo_sp +u size_of_SigInfo in
  with_cx (cx_set (cx_set (cx_set (ss_cx s) ARG0 (num sig)) ARG1 siginfo_sp) ARG2 uctx_sp) s.

(** The return to the interrupted program. *)
Definition finish_signal (task_mask : SigProcMask) (store_cx : TrapFrame) (uctx_sp : Z) (s : SigState) : SigState :=
  let s := with_cx store_cx (with_mask task_mask s) in
  if ss_mapped s uctx_sp then
    let new_pc := uc_pc (ss_mem s) uctx_sp in
    if decide (new_pc < 0x10000 ∨ 0x800000000000 ≤ new_pc) then s
    else with_cx (restore_ctx (ss_mem s) uctx_sp (cx_set (ss_cx s) SEPC new_pc)) s
  else s.

(** The frame, the handler and the return; every failed check returns with the mask of the
    action in place. *)
Definition run_handler (turns : list ((SigState → SigState * bool) * (SigState → SigState))) (sa : SigAction) (sig : Z) (s : SigState)
    : option SigState :=
  let task_mask := ss_mask s in
  let store_cx := ss_cx s in
  let s := with_mask (sa_mask sa) s in
  let sp := frame_sp (cx_get store_cx SP) in
  let siginfo_sp := sp +u 16 in
  let uctx_sp := siginfo_sp +u size_of_SigInfo in
  if negb (stack_ok s sp) then Some s
  else
    let s := with_mem (store_siginfo (ss_mem s) siginfo_sp (num sig)) s in
    if negb (ss_mapped s uctx_sp) then Some s
    else
      let original_pc := cx_get (ss_cx s) SEPC in
      let s := enter_handler sa sig sp s in
      if negb (bool_decide (sa_restorer sa = 0)) && negb (in_executable (ss_areas s) (sa_restorer sa)) &&
         negb (bool_decide (sig = SIGUSR1 ∨ sig = SIGUSR2)) then
        Some (if decide (sig ∈ default_terminates) then exit_with_signal (num sig) s else s)
      else
        let s := set_args sig sp (set_return sa sp original_pc s) in
        match handler_loop turns s with
        | None => None
        | Some s => Some (finish_signal task_mask store_cx uctx_sp s)
        end.

(** [None] while the handler is running; a signal number beyond the table panics. *)
Definition handle_signal (turns : list ((SigState → SigState * bool) * (SigState → SigState))) (sig : Z) (s : SigState)
    : outcome (option SigState) :=
  let s := if decide (sig = SIGKILL) then exit_with_signal (num sig) s else s in
  sa ← unwrap (ss_action s !! Z.to_nat (num sig));
  if decide (sa_handler sa = 0) then Ret (Some (signal_default sig s))
  else if decide (sa_handler sa = 1) then Ret (Some s)
  else if decide (sa_handler sa < 0x10000 ∨ 0x800000000000 ≤ sa_handler sa) then Ret (Some (exit_with_signal (num sig) s))
  else if negb (in_executable (ss_areas s) (sa_handler sa)) then Ret (Some (exit_with_signal (num sig) s))
  else if decide (sig = SIGTIMER) then Ret (Some s)
  else if decide (sig = SIGCHLD) then Ret (Some s)
  else Ret (run_handler turns sa sig s).
End handler.

(** ** Memory *)

Lemma store32_ne m a v x : x ≠ a → store32 m a v x = m x.
Proof. intros. unfold store32. by rewrite decide_False. Qed.

Lemma store32_eq m a v : store32 m a v a = v mod 4294967296.
Proof. unfold store32. by rewrite decide_True. Qed.

Lemma store64_ne m a v x : x < a ∨ a + 8 ≤ x → store64 m a v x = m x.
Proof. intros. unfold store64. by rewrite !store32_ne by lia. Qed.

Lemma load_store64 m a v : is_usize v → load64 (store64 m a v) a = v.
Proof.
  intros Hv. unfold load64, store64. rewrite store32_ne, store32_eq, store32_eq by lia.
  rewrite (Z.mod_small (v / 4294967296)); [pose proof (Z.div_mod v 4294967296); lia|].
  split; [apply Z.div_pos; unfold is_usize in Hv; lia|]. apply Z.div_lt_upper_bound; [lia|]. destruct Hv as [_ Hv]. unfold USIZE in Hv. lia.
Qed.

Lemma load64_ext m m' a : m a = m' a → m (a + 4) = m' (a + 4) → load64 m a = load64 m' a.
Proof. intros E1 E2. unfold load64. by rewrite E1, E2. Qed.

Lemma store_words_ne vs : ∀ m a x, x < a ∨ a + 8 * Z.of_nat (length vs) ≤ x → store_words m a vs x = m x.
Proof.
  induction vs as [|v vs IH]; intros m a x Hx; [done|]. cbn [store_words length] in *. rewrite IH by lia. apply store64_ne. lia.
Qed.

Lemma load_words_ext n : ∀ m m' a, (∀ x, a ≤ x < a + 8 * Z.of_nat n → m x = m' x) → load_words m a n = load_words m' a n.
Proof.
  induction n as [|n IH]; intros m m' a Hx; [done|]. cbn [load_words]. f_equal; [apply load64_ext; apply Hx; lia|]. apply IH. intros x Hb. apply Hx. lia.
Qed.

Lemma load_store_words vs : ∀ m a, Forall is_usize vs → load_words (store_words m a vs) a (length vs) = vs.
Proof.
  induction vs as [|v vs IH]; intros m a Hv; [done|]. apply Forall_cons in Hv as [Hv Hvs]. cbn [store_words load_words length]. f_equal; [|by apply IH].
  rewrite <- (load_store64 m a v Hv) at 2. apply load64_ext; apply store_words_ne; lia.
Qed.

(** ** Registers *)

Lemma cx_get_set_eq cx a v : length (tf_x cx) = 32%nat → cx_get (cx_set cx a v) a = v.
Proof.
  intros Hl. unfold cx_get, cx_set. destruct (arg_reg a) as [r|] eqn:E; [|done]. cbn [tf_x]. rewrite list_lookup_insert_eq; [done|].
  destruct a; cbn in E; try done; injection E as <-; lia.
Qed.

Lemma cx_get_set_ne cx a b v : arg_reg a ≠ arg_reg b → cx_get (cx_set cx a v) b = cx_get cx b.
Proof.
  intros Hne. unfold cx_get, cx_set. destruct (arg_reg a) as [r|], (arg_reg b) as [r'|]; try done. cbn [tf_x]. by rewrite list_lookup_insert_ne by congruence.
Qed.

Lemma cx_set_length cx a v : length (tf_x (cx_set cx a v)) = length (tf_x cx).
Proof. unfold cx_set. destruct (arg_reg a); [apply length_insert|done]. Qed.

Section theorems.
Context {F : Type} (exit_with_signal : Z → SigState (F := F) → SigState (F := F)).

(** ** The frame *)

(** Where the frame lies: aligned, below the red zone of 128 bytes. *)
Lemma frame_sp_spec sp : 128 + frame_size ≤ sp < USIZE →
  frame_sp sp mod 16 = 0 ∧ sp - 128 - frame_size - 16 < frame_sp sp ≤ sp - 128 - frame_size.
Proof.
  intros Hsp. assert (frame_size = 1112) as Ef by reflexivity. unfold frame_sp. rewrite Ef in *. unwrap_u.
  set (y := sp - 128 - 1112). change 0xf with (Z.ones 4). rewrite Z.ldiff_ones_r by lia. rewrite Z.shiftl_mul_pow2, Z.shiftr_div_pow2 by lia.
  change (2 ^ 4) with 16. split; [apply Z.mod_mul; lia|]. pose proof (Z.div_mod y 16). pose proof (Z.mod_pos_bound y 16). lia.
Qed.

(** The state in which the handler starts. *)
Definition entry_state (sa : SigAction) (sig : Z) (s : SigState (F := F)) : SigState (F := F) :=
  let sp := frame_sp (cx_get (ss_cx s) SP) in
  set_args sig sp (set_return sa sp (cx_get (ss_cx s) SEPC)
    (enter_handler sa sig sp (with_mem (store_siginfo (ss_mem s) (sp +u 16) (num sig)) (with_mask (sa_mask sa) s)))).

(** The checks that lead to the handler: a handler in executable memory, room on the stack,
    the frame's pages mapped, a restorer that can be executed or none. *)
Definition handler_runs (sa : SigAction) (sig : Z) (s : SigState (F := F)) : Prop :=
  let sp := frame_sp (cx_get (ss_cx s) SP) in
  sig ≠ SIGKILL ∧ sig ≠ SIGTIMER ∧ sig ≠ SIGCHLD ∧ ss_action s !! Z.to_nat (num sig) = Some sa ∧
  0x10000 ≤ sa_handler sa < 0x800000000000 ∧ in_executable (ss_areas s) (sa_handler sa) = true ∧
  stack_ok s sp = true ∧ ss_mapped s (sp + 16 + size_of_SigInfo) = true ∧
  (sa_restorer sa = 0 ∨ in_executable (ss_areas s) (sa_restorer sa) = true).

Lemma stack_ok_bounds (s : SigState (F := F)) sp : stack_ok s sp = true → sp < cx_get (ss_cx s) SP ∧ 0x1000 ≤ sp < 0x800000000000 ∧ cx_get (ss_cx s) SP -u sp ≤ 65536.
Proof.
  unfold stack_ok. intros H. apply andb_prop in H as [H _]. apply andb_prop in H as [H _]. apply andb_prop in H as [H1 H2].
  apply negb_true_iff, orb_false_elim in H1 as [H1 H1']. apply negb_true_iff, orb_false_elim in H2 as [H2 H2'].
  apply bool_decide_eq_false in H1, H1', H2, H2'. lia.
Qed.

Lemma handle_signal_runs turns sa sig s : handler_runs sa sig s →
  handle_signal exit_with_signal turns sig s =
    Ret (match handler_loop turns (entry_state sa sig s) with
         | None => None
         | Some s1 => Some (finish_signal (ss_mask s) (ss_cx s) (frame_sp (cx_get (ss_cx s) SP) + 16 + size_of_SigInfo) s1)
         end).
Proof.
  intros (Hk & Ht & Hc & Ha & Hh & He & Hst & Hm & Hr). unfold handle_signal. rewrite (decide_False (P := sig = SIGKILL)) by done. rewrite Ha. cbn [unwrap]. step_ret.
  rewrite !decide_False by (done || lia). rewrite He. cbn [negb]. f_equal.
  destruct (stack_ok_bounds _ _ Hst) as (_ & Hsp & _). unfold run_handler. cbn zeta. set (sp := frame_sp _) in *.
  assert (sp +u 16 +u size_of_SigInfo = sp + 16 + size_of_SigInfo) as Eu. { unfold size_of_SigInfo. unwrap_u. done. }
  assert (stack_ok (with_mask (sa_mask sa) s) sp = true) as -> by done. cbn [negb]. rewrite Eu.
  assert (ss_mapped (with_mem (store_siginfo (ss_mem (with_mask (sa_mask sa) s)) (sp +u 16) (num sig)) (with_mask (sa_mask sa) s)) (sp + 16 + size_of_SigInfo) = true) as -> by exact Hm.
  cbn [negb]. assert (negb (bool_decide (sa_restorer sa = 0)) && negb (in_executable (ss_areas s) (sa_restorer sa)) = false) as Ec.
  { destruct Hr as [Hr|Hr]; [by rewrite (bool_decide_true (sa_restorer sa = 0))|]. rewrite Hr. apply andb_false_r. }
  cbn [enter_handler with_cx with_mem with_mask ss_areas]. rewrite Ec. done.
Qed.

(** The memory of the entry state, from the address of the frame. *)
Lemma entry_mem sa sig s : stack_ok s (frame_sp (cx_get (ss_cx s) SP)) = true →
  let sp := frame_sp (cx_get (ss_cx s) SP) in let uctx := sp + 16 + size_of_SigInfo in
  ∃ m, ss_mem (entry_state sa sig s) = (if decide (sa_restorer sa < 0x1000) then if ss_mapped s sp then store_trampoline m sp else m else m) ∧
    m = uc_set_mask (uc_set_pc (store_ctx (store_siginfo (ss_mem s) (sp + 16) (num sig)) uctx (ss_cx s)) uctx (tf_sepc (ss_cx s))) uctx (sa_mask sa).
Proof.
  intros Hst sp uctx. destruct (stack_ok_bounds _ _ Hst) as (_ & Hsp & _). fold sp in Hsp. eexists. split; [|reflexivity].
  unfold entry_state, set_args, set_return, enter_handler. cbn zeta. fold sp.
  assert (sp +u 16 = sp + 16) as -> by (by unwrap_u). assert (sp + 16 +u size_of_SigInfo = uctx) as -> by (subst uctx; unfold size_of_SigInfo; by unwrap_u).
  case_decide; [|done]. cbn [with_mem with_mask with_cx ss_mapped]. by destruct (ss_mapped s sp).
Qed.

(** A cell is touched by the trampoline, the [siginfo_t], the [pc] or mask, or a register. *)
Lemma trampoline_ne m a x : x < a ∨ a + 16 ≤ x → store_trampoline m a x = m x.
Proof. intros. unfold store_trampoline. by rewrite !store32_ne by lia. Qed.

Lemma siginfo_ne m a n x : x < a ∨ a + 128 ≤ x → store_siginfo m a n x = m x.
Proof. intros. unfold store_siginfo. rewrite store32_ne by lia. apply store_words_ne. cbn. lia. Qed.

Lemma entry_mem_outside sa sig s x : stack_ok s (frame_sp (cx_get (ss_cx s) SP)) = true → length (tf_x (ss_cx s)) = 32%nat →
  x < frame_sp (cx_get (ss_cx s) SP) ∨ frame_sp (cx_get (ss_cx s) SP) + frame_size ≤ x → ss_mem (entry_state sa sig s) x = ss_mem s x.
Proof.
  intros Hst Hl Hx. destruct (entry_mem sa sig s Hst) as (m & -> & ->). set (sp := frame_sp _) in *.
  change frame_size with 1112 in Hx. change size_of_SigInfo with 128.
  assert (uc_set_mask (uc_set_pc (store_ctx (store_siginfo (ss_mem s) (sp + 16) (num sig)) (sp + 16 + 128) (ss_cx s)) (sp + 16 + 128) (tf_sepc (ss_cx s)))
    (sp + 16 + 128) (sa_mask sa) x = ss_mem s x) as E.
  { unfold uc_set_mask, uc_set_pc, store_ctx, uc_set_pc, off_sig_mask, off_pc, off_gregs. rewrite !store64_ne by lia.
    rewrite store_words_ne by (rewrite Hl; lia). by apply siginfo_ne; lia. }
  case_decide; [|done]. destruct (ss_mapped s sp); [|done]. by rewrite trampoline_ne by lia.
Qed.

Lemma entry_context sa sig s : stack_ok s (frame_sp (cx_get (ss_cx s) SP)) = true → cx_wf (ss_cx s) →
  let uctx := frame_sp (cx_get (ss_cx s) SP) + 16 + size_of_SigInfo in
  load_words (ss_mem (entry_state sa sig s)) (uctx + off_gregs) 32 = tf_x (ss_cx s) ∧
  uc_pc (ss_mem (entry_state sa sig s)) uctx = tf_sepc (ss_cx s).
Proof.
  intros Hst (Hl & Hx & Hpc) uctx. destruct (entry_mem sa sig s Hst) as (m & E & Em). fold uctx in Em. set (sp := frame_sp _) in *.
  assert (∀ x, uctx ≤ x → ss_mem (entry_state sa sig s) x = m x) as Hm.
  { intros x Hge. rewrite E. case_decide; [|done]. destruct (ss_mapped s sp); [|done]. apply trampoline_ne. subst uctx. unfold size_of_SigInfo in *. lia. }
  split.
  - rewrite (load_words_ext 32 _ m) by (intros x Hb; apply Hm; unfold off_gregs in *; lia). rewrite Em.
    unfold uc_set_mask, uc_set_pc, store_ctx, uc_set_pc, off_sig_mask, off_pc, off_gregs.
    rewrite (load_words_ext 32 _ (store_words (store_siginfo (ss_mem s) (sp + 16) (num sig)) (uctx + 184) (tf_x (ss_cx s))))
      by (intros x Hb; by rewrite !store64_ne by lia).
    rewrite <- Hl. by apply load_store_words.
  - unfold uc_pc. rewrite (load64_ext _ m) by (apply Hm; unfold off_pc; lia). rewrite Em.
    unfold uc_set_mask, uc_set_pc, off_sig_mask, off_pc. rewrite (load64_ext _ (store64 (store_ctx (store_siginfo (ss_mem s) (sp + 16) (num sig)) uctx (ss_cx s)) (uctx + 176) (tf_sepc (ss_cx s))))
      by (rewrite !store64_ne by lia; done). by apply load_store64.
Qed.
End theorems.

(** C13: a signal handler is invisible to the interrupted program: whatever the handler does,
    system calls included, when it returns through [rt_sigreturn] and has left the context
    saved on the stack alone, all registers, the program counter and the signal mask are
    again what they were; only the effects of the handler on memory remain. *)
Theorem handler_roundtrip {F} (exit_with_signal : Z → SigState (F := F) → SigState) turns (sa : SigAction) (sig : Z) (s s1 : SigState (F := F)) :
  handler_runs sa sig s → cx_wf (ss_cx s) →
  let uctx := frame_sp (cx_get (ss_cx s) SP) + 16 + size_of_SigInfo in
  let s0 := entry_state sa sig s in
  handler_loop turns s0 = Some s1 →
  load_words (ss_mem s1) (uctx + off_gregs) 32 = load_words (ss_mem s0) (uctx + off_gregs) 32 → uc_pc (ss_mem s1) uctx = uc_pc (ss_mem s0) uctx →
  ∃ s', handle_signal exit_with_signal turns sig s = Ret (Some s') ∧
    ss_cx s' = ss_cx s ∧ ss_mask s' = ss_mask s ∧ ss_mem s' = ss_mem s1 ∧ ss_exit s' = ss_exit s1.
Proof.
  intros Hruns Hwf uctx s0 Hloop Hregs Hpc. rewrite (handle_signal_runs exit_with_signal turns sa sig s Hruns). fold s0 uctx. rewrite Hloop.
  eexists. split; [done|]. destruct Hruns as (_ & _ & _ & _ & _ & _ & Hst & _).
  destruct (entry_context sa sig s Hst Hwf) as [Er Ep]. fold uctx s0 in Er, Ep. rewrite Er in Hregs. rewrite Ep in Hpc.
  unfold finish_signal. cbn [with_cx with_mask ss_mapped ss_mem]. destruct (ss_mapped s1 uctx); [|done].
  case_decide; [done|]. cbn [with_cx ss_cx ss_mask ss_mem ss_exit]. split; [|done]. unfold restore_ctx. rewrite Hregs, Hpc.
  cbn [cx_set arg_reg tf_sstatus tf_fsx]. by destruct (ss_cx s).
Qed.

(** A handler starts in a well-formed frame: it runs at its own address on a stack pointer
    aligned to 16 bytes, at least 128 bytes and the frame below the interrupted one, with the
    signal number and the addresses of the two structures as arguments and the restorer, or a
    trampoline that calls [rt_sigreturn], as return address; every other register and all
    memory outside the frame are as the program left them. *)
Theorem handler_entry {F} (sa : SigAction) (sig : Z) (s : SigState (F := F)) :
  handler_runs sa sig s → cx_wf (ss_cx s) →
  let sp := frame_sp (cx_get (ss_cx s) SP) in let cx := ss_cx (entry_state sa sig s) in
  sp mod 16 = 0 ∧ sp + frame_size + 128 ≤ cx_get (ss_cx s) SP ∧
  cx_get cx SEPC = sa_handler sa ∧ cx_get cx SP = sp ∧ cx_get cx ARG0 = num sig ∧ cx_get cx ARG1 = sp + 16 ∧
  cx_get cx ARG2 = sp + 16 + size_of_SigInfo ∧
  cx_get cx RA = (if decide (sa_restorer sa < 0x1000) then if ss_mapped s sp then sp else cx_get (ss_cx s) SEPC else sa_restorer sa) ∧
  (∀ r, r ∉ [1; 2; 10; 11; 12]%nat → tf_x cx !! r = tf_x (ss_cx s) !! r) ∧
  (∀ x, x < sp ∨ sp + frame_size ≤ x → ss_mem (entry_state sa sig s) x = ss_mem s x) ∧
  ss_mask (entry_state sa sig s) = sa_mask sa.
Proof.
  intros (_ & _ & _ & _ & _ & _ & Hst & _) (Hl & Hx & Hpc) sp cx. destruct (stack_ok_bounds _ _ Hst) as (Hlt & Hsp & Hd). fold sp in Hlt, Hsp, Hd.
  assert (is_usize (cx_get (ss_cx s) SP)) as Hu.
  { unfold cx_get. cbn [arg_reg]. destruct (tf_x (ss_cx s) !! 2%nat) as [v|] eqn:E; [|done]. cbn. by eapply Forall_lookup_1. }
  destruct (frame_sp_spec (cx_get (ss_cx s) SP)) as [Hal Hbel]; [change frame_size with 1112; destruct Hu; lia|]. fold sp in Hal, Hbel.
  assert (sp +u 16 = sp + 16) as E16 by (by unwrap_u). assert (sp + 16 +u size_of_SigInfo = sp + 16 + size_of_SigInfo) as E128 by (unfold size_of_SigInfo; by unwrap_u).
  set (c1 := cx_set (cx_set (ss_cx s) SP sp) SEPC (sa_handler sa)).
  set (ra := if decide (sa_restorer sa < 0x1000) then if ss_mapped s sp then sp else cx_get (ss_cx s) SEPC else sa_restorer sa).
  assert (cx = cx_set (cx_set (cx_set (cx_set c1 RA ra) ARG0 (num sig)) ARG1 (sp + 16)) ARG2 (sp + 16 + size_of_SigInfo)) as ->.
  { subst cx ra c1. unfold entry_state, set_args, set_return, enter_handler. cbn zeta. fold sp. rewrite E16, E128.
    case_decide; [|done]. cbn [with_mem with_mask with_cx ss_mapped]. by destruct (ss_mapped s sp). }
  assert (∀ c a v, length (tf_x c) = 32%nat → length (tf_x (cx_set c a v)) = 32%nat) as HL by (intros; by rewrite cx_set_length).
  split; [done|]. split; [lia|].
  split; [by rewrite !cx_get_set_ne by done; subst c1; apply cx_get_set_eq, HL|].
  split; [rewrite !cx_get_set_ne by done; subst c1; rewrite cx_get_set_ne by done; by apply cx_get_set_eq|].
  split; [rewrite !cx_get_set_ne by done; apply cx_get_set_eq; by repeat apply HL|].
  split; [rewrite cx_get_set_ne by done; apply cx_get_set_eq; by repeat apply HL|].
  split; [apply cx_get_set_eq; by repeat apply HL|].
  split; [rewrite !cx_get_set_ne by done; apply cx_get_set_eq; by repeat apply HL|].
  split; [|split; [intros x Hout; by apply entry_mem_outside|]].
  - intros r Hr. rewrite !not_elem_of_cons in Hr. destruct Hr as (? & ? & ? & ? & ? & _). subst c1. cbn [cx_set arg_reg tf_x].
    by rewrite !list_lookup_insert_ne by done.
  - unfold entry_state, set_args, set_return, enter_handler. cbn zeta. case_decide; [|done]. cbn [with_mem with_mask with_cx ss_mapped]. by destruct (ss_mapped s _).
Qed.

(** A signal that cannot be delivered changes the mask for good: when the stack has no room
    for the frame, [handle_signal] returns without running the handler, but the signal mask of
    the thread has been replaced by the mask of the action and stays so. *)
Theorem undelivered_signal_keeps_mask {F} (exit_with_signal : Z → SigState (F := F) → SigState) turns (sa : SigAction) (sig : Z) (s : SigState (F := F)) :
  sig ≠ SIGKILL → sig ≠ SIGTIMER → sig ≠ SIGCHLD → ss_action s !! Z.to_nat (num sig) = Some sa →
  0x10000 ≤ sa_handler sa < 0x800000000000 → in_executable (ss_areas s) (sa_handler sa) = true →
  stack_ok s (frame_sp (cx_get (ss_cx s) SP)) = false →
  handle_signal exit_with_signal turns sig s = Ret (Some (with_mask (sa_mask sa) s)).
Proof.
  intros Hk Ht Hc Ha Hh He Hst. unfold handle_signal. rewrite (decide_False (P := sig = SIGKILL)) by done. rewrite Ha. cbn [unwrap]. step_ret.
  rewrite !decide_False by (done || lia). rewrite He. cbn [negb]. f_equal. unfold run_handler. cbn zeta.
  assert (stack_ok (with_mask (sa_mask sa) s) (frame_sp (cx_get (ss_cx s) SP)) = false) as -> by done. done.
Qed.

(** ** Witnesses: a program with one code and one stack area that is interrupted by [SIGUSR1] *)

Definition demo_action : SigAction := mkAction 0x10100 0 0 (mkMask 5).

Definition demo_sig_state (sp : Z) : SigState (F := unit) :=
  mkSS (mkTrap (<[2%nat := sp]> (replicate 32 7)) 0 0x12345 [0; 0]) (mkMask 1) (λ _, 0) (λ _, true)
    [mkArea Mmap [] None 0 0x10000 0x10000; mkArea Stack [] None 0 0x70000000 0x10000]
    (<[10%nat := demo_action]> (replicate 65 SigAction_new)) None.

(** The handler calls [rt_sigreturn] at once. *)
Definition demo_turns : list ((SigState (F := unit) → SigState (F := unit) * bool) * (SigState (F := unit) → SigState (F := unit))) :=
  [(λ s, (with_cx (cx_set (ss_cx s) SYSCALL 139) s, true), λ s, s)].

Lemma demo_runs : handler_runs demo_action SIGUSR1 (demo_sig_state 0x70008000).
Proof.
  split_and!; try (vm_compute; discriminate); try (vm_compute; reflexivity). left. reflexivity.
Qed.

Lemma demo_cx_wf : cx_wf (ss_cx (demo_sig_state 0x70008000)).
Proof. split; [reflexivity|]. apply (bool_decide_unpack _). vm_compute. exact I. Qed.

Lemma demo_loop s : ss_exit s = None → length (tf_x (ss_cx s)) = 32%nat → ∃ s1, handler_loop demo_turns s = Some s1 ∧ ss_mem s1 = ss_mem s.
Proof.
  intros He Hl. unfold demo_turns. cbn [handler_loop]. rewrite He. unfold handle_syscall. rewrite (decide_True (P := _ = 139)) by (by apply cx_get_set_eq).
  unfold sys_sigreturn. cbn zeta. case_decide; [by eexists|]. destruct (ss_mapped _ _); by eexists.
Qed.

Lemma handler_roundtrip_witness : ∃ s', handle_signal (λ _ s, s) demo_turns SIGUSR1 (demo_sig_state 0x70008000) = Ret (Some s') ∧
  ss_cx s' = ss_cx (demo_sig_state 0x70008000).
Proof.
  destruct (demo_loop (entry_state demo_action SIGUSR1 (demo_sig_state 0x70008000))) as (s1 & E1 & Em); [reflexivity|reflexivity|].
  destruct (handler_roundtrip (λ _ s, s) demo_turns demo_action SIGUSR1 (demo_sig_state 0x70008000) s1) as (s' & E & Hcx & _);
    [exact demo_runs|exact demo_cx_wf|exact E1|rewrite Em; reflexivity|rewrite Em; reflexivity|].
  exists s'. split; [exact E|exact Hcx].
Defined.

Lemma handler_entry_witness : cx_get (ss_cx (entry_state demo_action SIGUSR1 (demo_sig_state 0x70008000))) ARG0 = 10.
Proof.
  destruct (handler_entry demo_action SIGUSR1 (demo_sig_state 0x70008000) demo_runs demo_cx_wf) as (_ & _ & _ & _ & H & _). exact H.
Defined.

Lemma undelivered_signal_keeps_mask_witness :
  handle_signal (λ _ s, s) [] SIGUSR1 (demo_sig_state 0x100) = Ret (Some (with_mask (mkMask 5) (demo_sig_state 0x100))).
Proof.
  apply (undelivered_signal_keeps_mask (λ _ s, s) [] demo_action SIGUSR1 (demo_sig_state 0x100));
    [discriminate|discriminate|discriminate|reflexivity|split; [discriminate|reflexivity]|vm_compute; reflexivity|vm_compute; reflexivity].
Defined.
