(* ===== verification/Time.v ===== *)
(** * Clocks, sleeping and interval timers

    Models kernel/src/syscall/time.rs, kernel/src/syscall/types/time.rs,
    kernel/src/utils/time.rs, [sys_sigsuspend] of kernel/src/syscall/signal.rs,
    [sys_getrusage] of kernel/src/syscall/task.rs, [check_timer] and the task's main loop
    [entry_point] of kernel/src/user/entry.rs.  The clock is the tick counter of the
    hardware: an operation that reads it takes the ticks as an argument, and a suspended call
    is given the list of what it sees at its successive polls.  User memory is a map from
    addresses to values of the type the call reads and writes, so that two pointers to the
    same place are the same place. *)

From S2P Require Import Prelude Signal Vfs Pipe Executor Futex.

Definition NSEC : Z := 1000000000.
Definition USEC : Z := 1000000.

(** ** The tick counter (polyhal's [Time]); [freq] is [Time::get_freq()]. *)

Definition Time_to_usec (freq raw : Z) : Z := (raw *u USEC) / freq.
Definition Time_to_nsec (freq raw : Z) : Z := (raw / freq *u NSEC) +u (raw mod freq *u NSEC) / freq.

(** ** Time values *)

Record TimeVal := mkTimeVal { tv_s : Z; tv_us : Z }.

#[export] Instance TimeVal_eq_dec : EqDecision TimeVal.
Proof. solve_decision. Defined.

Definition TimeVal_default : TimeVal := mkTimeVal 0 0.

Definition TimeVal_add (self rhs : TimeVal) : TimeVal :=
  let nsec := tv_us self +u tv_us rhs in
  mkTimeVal (tv_s self +u tv_s rhs +u nsec / 1000000000) (nsec mod 1000000000).

Definition TimeVal_cmp (self other : TimeVal) : comparison :=
  if decide (tv_s other < tv_s self) then Gt
  else if decide (tv_s self < tv_s other) then Lt
  else if decide (tv_us other < tv_us self) then Gt
  else if decide (tv_us self < tv_us other) then Lt
  else Eq.

(** The operators [>] and [>=] that [partial_cmp] gives. *)
Definition TimeVal_gt (a b : TimeVal) : bool := match TimeVal_cmp a b with Gt => true | _ => false end.
Definition TimeVal_ge (a b : TimeVal) : bool := match TimeVal_cmp a b with Lt => false | _ => true end.

Record ITimerVal := mkITimer { it_interval : TimeVal; it_value : TimeVal }.
Record TMS := mkTMS { utime : Z; stime : Z; cutime : Z; cstime : Z }.
Record ProcessTimer := mkTimer { pt_timer : ITimerVal; pt_next : TimeVal; pt_last : TimeVal }.

#[export] Instance ITimerVal_eq_dec : EqDecision ITimerVal.
Proof. solve_decision. Defined.

Definition ITimerVal_default : ITimerVal := mkITimer TimeVal_default TimeVal_default.
Definition ProcessTimer_default : ProcessTimer := mkTimer ITimerVal_default TimeVal_default TimeVal_default.

(** ** Reading the clock *)

Definition timeval_of (ns : Z) : TimeVal := mkTimeVal (ns / NSEC) (ns mod NSEC / 1000).
Definition current_timespec (ns : Z) : TimeSpec := mkTimeSpec (ns / NSEC) (ns mod NSEC / 1000).

Section clock.
Context (freq : Z).

Definition current_nsec (raw : Z) : Z := Time_to_nsec freq raw.
Definition current_timeval (raw : Z) : TimeVal := timeval_of (current_nsec raw).

Definition sys_gettimeofday (raw : Z) (umem : gmap Z TimeVal) (tv_ptr : Z) : result Z * gmap Z TimeVal :=
  (Ok 0, <[tv_ptr := current_timeval raw]> umem).

Definition sys_clock_gettime (raw : Z) (umem : gmap Z TimeSpec) (clock_id times_ptr : Z) : result Z * gmap Z TimeSpec :=
  let put ns := (Ok 0, <[times_ptr := mkTimeSpec (ns / NSEC) (ns mod NSEC)]> umem) in
  match clock_id with
  | 0 => put (current_nsec raw)
  | 1 => put (Time_to_nsec freq raw)
  | 2 => put 0
  | 3 => put 0
  | _ => (Err EINVAL, umem)
  end.

Definition sys_clock_getres (umem : gmap Z TimeSpec) (clock_id times_ptr : Z) : result Z * gmap Z TimeSpec :=
  (Ok 0, if decide (times_ptr ≠ 0) then <[times_ptr := mkTimeSpec 0 1]> umem else umem).

Definition sys_times (raw : Z) (tms : TMS) (umem : gmap Z TMS) (tms_ptr : Z) : result Z * gmap Z TMS :=
  (Ok raw, <[tms_ptr := tms]> umem).

(** The system and user times of the [Rusage]; its other fields are left as they are. *)
Definition rusage_time (ticks : Z) : TimeVal :=
  mkTimeVal (Time_to_usec freq ticks / USEC) (Time_to_usec freq ticks mod USEC).
Definition sys_getrusage (tms : TMS) (umem : gmap Z (TimeVal * TimeVal)) (usage_ptr : Z) : result Z * gmap Z (TimeVal * TimeVal) :=
  (Ok 0, <[usage_ptr := (rusage_time (utime tms), rusage_time (stime tms))]> umem).

(** What [handle_syscall] charges around a run of user code and a system call. *)
Definition charge_user (ustart now : Z) (t : TMS) : TMS := mkTMS (utime t +u (now -u ustart)) (stime t) (cutime t) (cstime t).
Definition charge_system (sstart now : Z) (t : TMS) : TMS := mkTMS (utime t) (stime t +u (now -u sstart)) (cutime t) (cstime t).

(** ** Sleeping *)

Definition WaitSignal_poll (t : ThreadSignals) : Poll unit := if has_signal (signal t) then Ready tt else Pending.

Definition WaitHandleAbleSignal_poll (t : ThreadSignals) : Poll unit :=
  if has_signal (SignalList_mask (signal t) (sigmask t)) then Ready tt else Pending.

(** One poll of [sigtimedwait]: it waits for any pending signal, blocked or not, without a
    time limit, and takes none away. *)
Definition sys_sigtimedwait (t : ThreadSignals) : Poll (result Z) := match WaitSignal_poll t with Ready _ => Ready (Ok 0) | Pending => Pending end.

(** One poll of [sched_yield]. *)
Definition sys_sched_yield (polled : bool) : Poll (result Z) * bool :=
  match Yield_poll polled with (Ready _, p) => (Ready (Ok 0), p) | (Pending, p) => (Pending, p) end.

(** The instant a relative request ends. *)
Definition sleep_deadline (now : Z) (req : TimeSpec) : Z := now +u (ts_sec req *u 1000000000) +u ts_nsec req.

(** One poll of [select(WaitHandleAbleSignal, WaitUntilsec)]. *)
Definition nanosleep_poll (deadline : Z) (t : ThreadSignals) (raw : Z) : Poll (result Z) :=
  match WaitHandleAbleSignal_poll t with
  | Ready _ => Ready (Err EINTR)
  | Pending => match WaitUntilsec_poll deadline (current_nsec raw) with Ready _ => Ready (Ok 0) | Pending => Pending end
  end.

(** The call, with what it sees at each poll: the task's signals and the ticks. *)
Fixpoint nanosleep_loop (deadline : Z) (seen : list (ThreadSignals * Z)) : Poll (result Z) :=
  match seen with
  | [] => Pending
  | (t, raw) :: seen => match nanosleep_poll deadline t raw with Ready r => Ready r | Pending => nanosleep_loop deadline seen end
  end.

Definition sys_nanosleep (raw0 : Z) (umem : gmap Z TimeSpec) (req_ptr rem_ptr : Z) (seen : list (ThreadSignals * Z))
    : Poll (result Z * gmap Z TimeSpec) :=
  let req := default TimeSpec_default (umem !! req_ptr) in
  match nanosleep_loop (sleep_deadline (current_nsec raw0) req) seen with
  | Ready res => Ready (res, if decide (rem_ptr ≠ 0) then <[rem_ptr := TimeSpec_default]> umem else umem)
  | Pending => Pending
  end.

Fixpoint wait_until (deadline : Z) (seen : list Z) : Poll unit :=
  match seen with
  | [] => Pending
  | raw :: seen => match WaitUntilsec_poll deadline (current_nsec raw) with Ready _ => Ready tt | Pending => wait_until deadline seen end
  end.

Definition sys_clock_nanosleep (raw0 : Z) (umem : gmap Z TimeSpec) (flags req_ptr rem_ptr : Z) (seen : list Z)
    : Poll (result Z * gmap Z TimeSpec) :=
  let req := default TimeSpec_default (umem !! req_ptr) in
  if decide (flags = 1) then
    match wait_until ((ts_sec req *u 1000000000) +u ts_nsec req) seen with
    | Ready _ => Ready (Ok 0, if decide (rem_ptr ≠ 0) then <[rem_ptr := TimeSpec_default]> umem else umem)
    | Pending => Pending
    end
  else
    match wait_until (sleep_deadline (current_nsec raw0) req) seen with
    | Ready _ => Ready (Ok 0, umem)
    | Pending => Pending
    end.

(** [wait_ms] gives the deadline of a [WaitUntilsec]. *)
Definition wait_ms (raw ms : Z) : Z := current_nsec raw +u (ms *u 0x10000000).

(** ** The interval timer *)

(** The timers of the process and the signal state of the thread that looks at them. *)
Record TimeTask := mkTimeTask { tt_timer : list ProcessTimer; tt_sig : ThreadSignals }.

Definition set_timer0 (f : ProcessTimer → ProcessTimer) (p : TimeTask) : TimeTask :=
  mkTimeTask (alter f 0%nat (tt_timer p)) (tt_sig p).

Definition timer0 (p : TimeTask) : ProcessTimer := default ProcessTimer_default (tt_timer p !! 0%nat).

Definition sys_setitimer (raw : Z) (p : TimeTask) (umem : gmap Z ITimerVal) (which times_ptr old_timer_ptr : Z)
    : result Z * TimeTask * gmap Z ITimerVal :=
  if decide (which = 0) then
    let umem := if decide (old_timer_ptr ≠ 0) then <[old_timer_ptr := pt_timer (timer0 p)]> umem else umem in
    let p :=
      if decide (times_ptr ≠ 0) then
        let new_timer := default ITimerVal_default (umem !! times_ptr) in
        let next := TimeVal_add (current_timeval raw) (it_value new_timer) in
        if decide (tv_s (it_value new_timer) = 0 ∧ tv_us (it_value new_timer) = 0) then
          set_timer0 (λ _, mkTimer new_timer TimeVal_default TimeVal_default) p
        else set_timer0 (λ t, mkTimer new_timer next (pt_last t)) p
      else p in
    (Ok 0, p, umem)
  else (Err EPERM, p, umem).

Definition check_timer (raw : Z) (p : TimeTask) : TimeTask :=
  let t := timer0 p in
  if TimeVal_gt (pt_next t) (pt_last t) then
    if TimeVal_ge (current_timeval raw) (pt_next t) then
      set_timer0 (λ t, mkTimer (pt_timer t) (pt_next t) (pt_next t))
        (mkTimeTask (tt_timer p) (set_signal (tt_sig p) (add_signal (signal (tt_sig p)) SIGALRM)))
    else p
  else p.

(** [sys_sigsuspend] at its successive polls: what other tasks did to the signal state since
    the last one, and the ticks.  The set given by the user is only printed. *)
Fixpoint sys_sigsuspend (seen : list ((ThreadSignals → ThreadSignals) * Z)) (p : TimeTask) : Poll (result Z) * TimeTask :=
  match seen with
  | [] => (Pending, p)
  | (others, raw) :: seen =>
      let p := check_timer raw (mkTimeTask (tt_timer p) (others (tt_sig p))) in
      if has_signal (signal (tt_sig p)) then (Ready (Ok 0), p) else sys_sigsuspend seen p
  end.
End clock.

(** ** The main loop of a task

    [entry_point] is a future; its parts are parameters: [call_poll] polls [handle_syscall],
    whose state is [C], and [sig_poll] polls [check_signal], whose state is [B]. *)

Section entry.
Context {S C B : Type} (call_init : C) (call_poll : C → S → Poll bool * C * S) (sig_init : B) (sig_poll : B → S → Poll unit * B * S).
Context (timer : S → S) (check_thread_exit : S → option Z).

(** The second future of [future::or]: in [check_signal], or at the [yield_now]. *)
Inductive Watch := W_sig (b : B) | W_yield.

(** Its only answer is [Break]. *)
Definition watch_poll (w : Watch) (s : S) : Poll unit * Watch * S :=
  match sig_poll (match w with W_sig b => b | W_yield => sig_init end) s with
  | (Pending, b, s) => (Pending, W_sig b, s)
  | (Ready _, b, s) =>
      match check_thread_exit s with
      | Some _ => (Ready tt, W_yield, s)
      | None => (Pending, W_yield, timer s)
      end
  end.

(** Where the loop is suspended: in its [check_signal], in [future::or], at its
    [yield_now] (where a new task starts too), or finished. *)
Inductive Phase := P_sig (b : B) | P_call (c : C) (w : Watch) | P_yield | P_done.

(** A step between two points of the loop: [inl] when the poll ends. *)
Definition entry_step (ph : Phase) (times : Z) (s : S) : (Phase * Z * S) + (Phase * Z * S) :=
  match ph with
  | P_sig b =>
      match sig_poll b s with
      | (Pending, b, s) => inl (P_sig b, times, s)
      | (Ready _, _, s) =>
          match check_thread_exit s with
          | Some _ => inl (P_done, times, s)
          | None => inr (P_call call_init (W_sig sig_init), times, s)
          end
      end
  | P_call c w =>
      match call_poll c s with
      | (Ready brk, _, s) =>
          if (brk : bool) then inl (P_done, times, s)
          else
            match check_thread_exit s with
            | Some _ => inl (P_done, times, s)
            | None =>
                let times := times + 1 in
                if decide (50 ≤ times) then inl (P_yield, 0, s) else inr (P_sig sig_init, times, timer s)
            end
      | (Pending, c, s) =>
          match watch_poll w s with
          | (Ready _, _, s) => inl (P_done, times, s)
          | (Pending, w, s) => inl (P_call c w, times, s)
          end
      end
  | P_yield => inr (P_sig sig_init, times, timer s)
  | P_done => inl (P_done, times, s)
  end.

(** One poll of [entry_point]; [None] is out of fuel.  The number counts the system calls
    completed, or traps handled, during the poll. *)
Fixpoint entry_poll (fuel : nat) (ph : Phase) (times : Z) (s : S) : option (Phase * Z * S * nat) :=
  match fuel with
  | O => None
  | Datatypes.S fuel =>
      let done := match ph with P_call c _ => match call_poll c s with (Ready _, _, _) => 1%nat | _ => 0%nat end | _ => 0%nat end in
      match entry_step ph times s with
      | inl r => Some (r, done)
      | inr (ph, times, s) =>
          match entry_poll fuel ph times s with
          | Some (r, n) => Some (r, (done + n)%nat)
          | None => None
          end
      end
  end.
End entry.

(** ** The clock *)

(** The nanoseconds a tick counter shows. *)
Definition elapsed_ns (freq raw : Z) : Z := raw * NSEC / freq.

(** [to_nsec] loses nothing although it divides before it multiplies. *)
Lemma to_nsec_exact freq raw : 0 < freq ≤ 18446744073 → 0 ≤ raw → elapsed_ns freq raw < USIZE →
  Time_to_nsec freq raw = elapsed_ns freq raw.
Proof.
  intros Hf Hr Hu. unfold Time_to_nsec, elapsed_ns, NSEC in *.
  assert (E : raw * 1000000000 / freq = raw / freq * 1000000000 + (raw mod freq * 1000000000) / freq).
  { rewrite (Z.div_mod raw freq) at 1 by lia.
    replace ((freq * (raw / freq) + raw mod freq) * 1000000000) with (raw mod freq * 1000000000 + raw / freq * 1000000000 * freq) by ring.
    rewrite Z.div_add by lia. lia. }
  pose proof (Z.mod_pos_bound raw freq). pose proof (Z.div_pos raw freq).
  assert (0 ≤ raw mod freq * 1000000000 / freq) by (apply Z.div_pos; lia).
  rewrite E in *. unfold USIZE in *. unwrap_u. done.
Qed.

Lemma elapsed_nonneg freq raw : 0 < freq → 0 ≤ raw → 0 ≤ elapsed_ns freq raw.
Proof. intros. unfold elapsed_ns, NSEC. apply Z.div_pos; lia. Qed.

Definition in_us (t : TimeVal) : Z := tv_s t * USEC + tv_us t.
Definition normal (t : TimeVal) : Prop := 0 ≤ tv_s t ∧ 0 ≤ tv_us t < USEC.

Lemma timeval_of_us ns : 0 ≤ ns → in_us (timeval_of ns) = ns / 1000 ∧ normal (timeval_of ns).
Proof.
  intros Hn. unfold in_us, timeval_of, normal, NSEC, USEC. cbn [tv_s tv_us].
  pose proof (Z.mod_pos_bound ns 1000000000). assert (0 ≤ ns mod 1000000000 / 1000) by (apply Z.div_pos; lia).
  assert (ns mod 1000000000 / 1000 < 1000000) by (apply Z.div_lt_upper_bound; lia). pose proof (Z.div_pos ns 1000000000).
  split; [|lia]. rewrite (Z.div_mod ns 1000000000) at 3 by lia.
  replace (1000000000 * (ns / 1000000000) + ns mod 1000000000) with (ns mod 1000000000 + ns / 1000000000 * 1000000 * 1000) by ring.
  rewrite Z.div_add by lia. lia.
Qed.

(** The tick counter's readings are right up to the moment 64 bits of nanoseconds overflow. *)
Record clock_ok (freq raw : Z) : Prop := {
  co_freq : 0 < freq ≤ 18446744073;
  co_raw : 0 ≤ raw;
  co_range : elapsed_ns freq raw < USIZE;
}.

Lemma clock_timeval freq raw : clock_ok freq raw →
  in_us (current_timeval freq raw) = elapsed_ns freq raw / 1000 ∧ normal (current_timeval freq raw).
Proof.
  intros [Hf Hr Hu]. unfold current_timeval, current_nsec. rewrite to_nsec_exact by done. apply timeval_of_us, elapsed_nonneg; lia.
Qed.

(** The clock calls report the time that has passed: for a counter of at most 18 GHz whose
    time still fits 64 bits of nanoseconds, gettimeofday stores the elapsed time to the
    microsecond, with fewer than a million microseconds, clock_gettime stores it to the
    nanosecond for the real-time and the monotonic clock, and zero for the two processor-time
    clocks; every other clock number is EINVAL and leaves user memory as it was. *)
Theorem clock_readings freq raw : clock_ok freq raw →
  (∀ umem p, ∃ tv, sys_gettimeofday freq raw umem p = (Ok 0, <[p := tv]> umem) ∧
     in_us tv = elapsed_ns freq raw / 1000 ∧ normal tv) ∧
  (∀ umem id p,
     (id = 0 ∨ id = 1 → ∃ ts, sys_clock_gettime freq raw umem id p = (Ok 0, <[p := ts]> umem) ∧
        ts_sec ts * NSEC + ts_nsec ts = elapsed_ns freq raw ∧ 0 ≤ ts_nsec ts < NSEC) ∧
     (id = 2 ∨ id = 3 → sys_clock_gettime freq raw umem id p = (Ok 0, <[p := TimeSpec_default]> umem)) ∧
     (¬ 0 ≤ id ≤ 3 → sys_clock_gettime freq raw umem id p = (Err EINVAL, umem))).
Proof.
  intros Hc. split.
  { intros umem p. eexists. split; [done|]. by apply clock_timeval. }
  destruct Hc as [Hf Hr Hu]. intros umem id p. split_and!.
  - intros Hid. exists (mkTimeSpec (elapsed_ns freq raw / NSEC) (elapsed_ns freq raw mod NSEC)). cbn [ts_sec ts_nsec].
    split; [|split; [rewrite (Z.div_mod (elapsed_ns freq raw) NSEC) at 3 by done; lia|by apply Z.mod_pos_bound]].
    destruct Hid as [->| ->]; unfold sys_clock_gettime, current_nsec; by rewrite to_nsec_exact.
  - intros [->| ->]; done.
  - intros Hid. unfold sys_clock_gettime. destruct id as [|[[?|?|]|[?|?|]|]|]; try done; lia.
Qed.

Lemma clock_readings_witness :
  (clock_ok 10000000 123456789) ∧
  ∃ ts, sys_clock_gettime 10000000 123456789 ∅ 1 64 = (Ok 0, <[64 := ts]> ∅) ∧
     ts_sec ts * NSEC + ts_nsec ts = elapsed_ns 10000000 123456789 ∧ 0 ≤ ts_nsec ts < NSEC.
Proof.
  assert (H : clock_ok 10000000 123456789) by (split; [lia|lia|reflexivity]).
  split; [exact H|]. apply (proj1 (proj2 (clock_readings 10000000 123456789 H) ∅ 1 64)). by right.
Defined.

(** [current_timespec] stores microseconds where nanoseconds belong. *)
Theorem current_timespec_truncates ns : 0 ≤ ns →
  let t := current_timespec ns in
  ts_sec t * NSEC + ts_nsec t = ns - (ns mod NSEC - ns mod NSEC / 1000).
Proof. intros Hn. cbn. pose proof (Z.div_mod ns NSEC). unfold NSEC in *. lia. Qed.

(** ** Sleeping *)

(** A signal that is pending and not blocked. *)
Definition deliverable (t : ThreadSignals) : Prop := ∃ i, 0 ≤ i < 64 ∧ Z.testbit (signal t) i = true ∧ Z.testbit (sp_mask (sigmask t)) i = false.

Lemma has_signal_deliverable t : has_signal (SignalList_mask (signal t) (sigmask t)) = true ↔ deliverable t.
Proof.
  unfold has_signal, SignalList_mask, not64. rewrite bool_decide_eq_true. split.
  - intros Hne. set (w := Z.land _ _) in Hne |- *.
    destruct (decide (Exists (λ i, Z.testbit w i = true) (seqZ 0 64))) as [(i & Hi & Ht)%Exists_exists|Hno].
    + apply elem_of_seqZ in Hi. unfold w in Ht. rewrite Z.land_spec, Z.ldiff_spec in Ht. apply andb_true_iff in Ht as [Ht Hs].
      apply andb_true_iff in Ht as [_ Hm]. apply negb_true_iff in Hm. exists i. split_and!; [lia|lia|done|done].
    + destruct Hne. apply Z.bits_inj'. intros i Hi. rewrite Z.bits_0. destruct (decide (i < 64)) as [Hl|Hl].
      * apply not_true_is_false. intros Ht. apply Hno, Exists_exists. exists i. split; [apply elem_of_seqZ; lia|done].
      * unfold w. rewrite Z.land_spec, Z.ldiff_spec, usize_max_testbit, bool_decide_eq_false_2 by lia. done.
  - intros (i & Hi & Hs & Hm) E. assert (Z.testbit (Z.land (Z.ldiff usize_max (sp_mask (sigmask t))) (signal t)) i = true) as Ht.
    { rewrite Z.land_spec, Z.ldiff_spec, usize_max_testbit, bool_decide_eq_true_2, Hs, Hm by lia. done. }
    rewrite E, Z.bits_0 in Ht. done.
Qed.

Section sleeping.
Context (freq : Z).

(** A poll that leaves the sleeper asleep. *)
Definition asleep (d : Z) (e : ThreadSignals * Z) : Prop := ¬ deliverable e.1 ∧ current_nsec freq e.2 ≤ d.

(** A poll that ends the sleep, and with what. *)
Definition wakes (d : Z) (t : ThreadSignals) (raw : Z) (r : result Z) : Prop :=
  (r = Err EINTR ∧ deliverable t) ∨ (r = Ok 0 ∧ ¬ deliverable t ∧ d < current_nsec freq raw).

Lemma nanosleep_poll_spec d t raw :
  match nanosleep_poll freq d t raw with Ready r => wakes d t raw r | Pending => asleep d (t, raw) end.
Proof.
  unfold nanosleep_poll, WaitHandleAbleSignal_poll, WaitUntilsec_poll. destruct (has_signal (SignalList_mask (signal t) (sigmask t))) eqn:E.
  - left. split; [done|]. by apply has_signal_deliverable.
  - assert (¬ deliverable t) by (intros ?%has_signal_deliverable; congruence). case_decide; [by right|]. split; [done|]. cbn [snd]. lia.
Qed.

Lemma nanosleep_loop_spec d seen :
  match nanosleep_loop freq d seen with
  | Pending => Forall (asleep d) seen
  | Ready r => ∃ pre t raw post, seen = pre ++ (t, raw) :: post ∧ Forall (asleep d) pre ∧ wakes d t raw r
  end.
Proof.
  induction seen as [|[t raw] seen IH]; [constructor|]. cbn [nanosleep_loop]. pose proof (nanosleep_poll_spec d t raw) as Hp.
  destruct (nanosleep_poll freq d t raw) as [r|]; [by exists [], t, raw, seen|].
  destruct (nanosleep_loop freq d seen) as [r|]; [|by constructor].
  destruct IH as (pre & t' & raw' & post & -> & Hf & Hw). exists ((t, raw) :: pre), t', raw', post. split_and!; [done|by constructor|done].
Qed.
End sleeping.

(** What a sleep ends with: nanosleep stays suspended while every poll finds no
    deliverable signal and the requested time not exceeded; the first poll that differs ends
    it, with EINTR when a pending signal is not blocked, and with success only when no signal
    is deliverable and more than the requested time has elapsed since the call.  Either way
    the remaining-time argument, when given, is set to zero. *)
Theorem nanosleep_outcomes freq raw0 umem req_ptr rem_ptr req seen : umem !! req_ptr = Some req →
  clock_ok freq raw0 → Forall (λ e, clock_ok freq e.2) seen → 0 ≤ ts_sec req → 0 ≤ ts_nsec req →
  elapsed_ns freq raw0 + ts_sec req * NSEC + ts_nsec req < USIZE →
  let after raw := elapsed_ns freq raw - elapsed_ns freq raw0 in
  let quiet e := ¬ deliverable e.1 ∧ after e.2 ≤ ts_sec req * NSEC + ts_nsec req in
  match sys_nanosleep freq raw0 umem req_ptr rem_ptr seen with
  | Pending => Forall quiet seen
  | Ready (res, umem') =>
      umem' = (if decide (rem_ptr ≠ 0) then <[rem_ptr := TimeSpec_default]> umem else umem) ∧
      ∃ pre t raw post, seen = pre ++ (t, raw) :: post ∧ Forall quiet pre ∧
        ((res = Err EINTR ∧ deliverable t) ∨
         (res = Ok 0 ∧ ¬ deliverable t ∧ ts_sec req * NSEC + ts_nsec req < after raw))
  end.
Proof.
  intros Hreq H0 Hseen Hs Hn Hu after quiet. unfold sys_nanosleep. rewrite Hreq. change (default TimeSpec_default (Some req)) with req.
  assert (Ens : ∀ raw, clock_ok freq raw → current_nsec freq raw = elapsed_ns freq raw) by (intros raw []; by apply to_nsec_exact).
  set (d := sleep_deadline (current_nsec freq raw0) req).
  assert (Ed : d = elapsed_ns freq raw0 + ts_sec req * NSEC + ts_nsec req).
  { unfold d, sleep_deadline. rewrite Ens by done. pose proof (elapsed_nonneg freq raw0). destruct H0. unfold NSEC, USIZE in *. unwrap_u. done. }
  assert (Hq : ∀ e, clock_ok freq e.2 → asleep freq d e → quiet e).
  { intros e He [Hd Hle]. split; [done|]. rewrite Ens in Hle by done. unfold after. lia. }
  assert (Hall : ∀ l, Forall (λ e, clock_ok freq e.2) l → Forall (asleep freq d) l → Forall quiet l).
  { intros l Hl Ha. eapply Forall_impl; [by apply Forall_and; split; [exact Hl|exact Ha]|]. intros e [? ?]. by apply Hq. }
  pose proof (nanosleep_loop_spec freq d seen) as Hsp. destruct (nanosleep_loop freq d seen) as [r|]; [|by apply Hall].
  split; [done|]. destruct Hsp as (pre & t & raw & post & -> & Hf & Hw). apply Forall_app in Hseen as [Hpre Hrest].
  apply Forall_cons in Hrest as [Hr _]. exists pre, t, raw, post. split_and!; [done|by apply Hall|].
  destruct Hw as [?|(-> & Hd & Hlt)]; [by left|]. right. split_and!; [done..|]. rewrite Ens in Hlt by done. unfold after. lia.
Qed.

Definition demo_request : gmap Z TimeSpec := {[64 := mkTimeSpec 0 1000]}.

Lemma demo_clock raw : 0 ≤ raw ≤ 1000000000000 → clock_ok 1000000000 raw.
Proof. intros Hr. split; [lia|lia|]. unfold elapsed_ns, NSEC. rewrite Z.div_mul by lia. unfold USIZE. lia. Qed.

Lemma nanosleep_outcomes_witness :
  sys_nanosleep 1000000000 0 demo_request 64 0 [(ThreadSignals_new, 100)] = Pending ∧
  Forall (λ e, ¬ deliverable e.1 ∧ elapsed_ns 1000000000 e.2 - elapsed_ns 1000000000 0 ≤ 0 * NSEC + 1000) [(ThreadSignals_new, 100)] ∧
  sys_nanosleep 1000000000 0 demo_request 64 0 [(ThreadSignals_new, 100); (ThreadSignals_new, 1001)] = Ready (Ok 0, demo_request) ∧
  sys_nanosleep 1000000000 0 demo_request 64 64 [(mkThread SigProcMask_new SIGALRM [], 100)] = Ready (Err EINTR, {[64 := TimeSpec_default]}).
Proof.
  split; [vm_compute; reflexivity|]. split; [|split; vm_compute; reflexivity].
  refine (nanosleep_outcomes 1000000000 0 demo_request 64 0 (mkTimeSpec 0 1000) [(ThreadSignals_new, 100)] _ _ _ _ _ _).
  - vm_compute. reflexivity.
  - apply demo_clock. lia.
  - repeat constructor; apply (demo_clock 100); lia.
  - cbn. lia.
  - cbn. lia.
  - vm_compute. reflexivity.
Defined.

(** ** The interval timer *)

Lemma TimeVal_ge_lex a b : TimeVal_ge a b = true ↔ tv_s b < tv_s a ∨ (tv_s a = tv_s b ∧ tv_us b ≤ tv_us a).
Proof. unfold TimeVal_ge, TimeVal_cmp. repeat case_decide; split; intros; try done; lia. Qed.

Lemma TimeVal_gt_lex a b : TimeVal_gt a b = true ↔ tv_s b < tv_s a ∨ (tv_s a = tv_s b ∧ tv_us b < tv_us a).
Proof. unfold TimeVal_gt, TimeVal_cmp. repeat case_decide; split; intros; try done; lia. Qed.

Lemma TimeVal_gt_irrefl a : TimeVal_gt a a = false.
Proof. apply not_true_is_false. rewrite TimeVal_gt_lex. lia. Qed.

(** The sum of two normal times is stored without a carry. *)
Lemma TimeVal_add_normal a b : normal a → normal b → tv_s a + tv_s b < USIZE →
  TimeVal_add a b = mkTimeVal (tv_s a + tv_s b) (tv_us a + tv_us b).
Proof.
  unfold normal, TimeVal_add, USEC. intros (? & ?) (? & ?) Hs. rewrite (wrap_small (tv_us a + tv_us b)) by (unfold is_usize, USIZE; lia).
  rewrite Z.div_small, Z.mod_small by lia. unfold USIZE in Hs. unwrap_u. f_equal. lia.
Qed.

(** A task with its three timers, the first of which waits for its time. *)
Definition armed (p : TimeTask) : Prop := length (tt_timer p) = 3%nat ∧ TimeVal_gt (pt_next (timer0 p)) (pt_last (timer0 p)) = true.

Lemma timer0_set f p : length (tt_timer p) = 3%nat → timer0 (set_timer0 f p) = f (timer0 p).
Proof. destruct p as [[|t ts] sig]; [done|]. done. Qed.

(** The check of an armed timer fires at this tick. *)
Definition fires (freq raw : Z) (p : TimeTask) : bool := TimeVal_ge (current_timeval freq raw) (pt_next (timer0 p)).

Lemma check_timer_quiet freq raw p : fires freq raw p = false → check_timer freq raw p = p.
Proof. unfold check_timer, fires. intros ->. by destruct (TimeVal_gt _ _). Qed.

Lemma check_timer_disarmed freq raw p : TimeVal_gt (pt_next (timer0 p)) (pt_last (timer0 p)) = false → check_timer freq raw p = p.
Proof. unfold check_timer. by intros ->. Qed.

(** An alarm goes off exactly once: checks of an armed timer before its time change
    nothing; the first check at or after its time posts SIGALRM to the checking thread and
    nothing else of its signal state; and from then on no check at any time does anything,
    whatever the thread's signals have become, until the timer is set again (so the repeat
    interval is never honoured). *)
Theorem alarm_fires_once freq p early raw : armed p →
  Forall (λ r, fires freq r p = false) early → fires freq raw p = true →
  foldl (λ p r, check_timer freq r p) p early = p ∧
  let p' := check_timer freq raw p in
  tt_sig p' = set_signal (tt_sig p) (add_signal (signal (tt_sig p)) SIGALRM) ∧
  pt_timer (timer0 p') = pt_timer (timer0 p) ∧
  ∀ raw' sig, check_timer freq raw' (mkTimeTask (tt_timer p') sig) = mkTimeTask (tt_timer p') sig.
Proof.
  intros [Hl Ha] Hearly Hf. split.
  { induction Hearly as [|r early Hr _ IH]; [done|]. cbn [foldl]. by rewrite check_timer_quiet. }
  assert (E : check_timer freq raw p = set_timer0 (λ t, mkTimer (pt_timer t) (pt_next t) (pt_next t))
      (mkTimeTask (tt_timer p) (set_signal (tt_sig p) (add_signal (signal (tt_sig p)) SIGALRM)))).
  { unfold check_timer. unfold fires in Hf. by rewrite Ha, Hf. }
  cbn zeta. rewrite E. split_and!; [done|by rewrite timer0_set|]. intros raw' sig. apply check_timer_disarmed.
  destruct p as [[|t ts] sg]; [done|]. apply TimeVal_gt_irrefl.
Qed.

(** A task without alarms, and one whose alarm is due at two seconds. *)
Definition demo_task : TimeTask := mkTimeTask (replicate 3 ProcessTimer_default) ThreadSignals_new.
Definition demo_armed : TimeTask := set_timer0 (λ _, mkTimer ITimerVal_default (mkTimeVal 2 0) TimeVal_default) demo_task.

Lemma alarm_fires_once_witness :
  signal (tt_sig (check_timer 1000000000 2000000001 demo_armed)) = SIGALRM ∧
  foldl (λ p r, check_timer 1000000000 r p) demo_armed [1000; 1999999999] = demo_armed.
Proof.
  destruct (alarm_fires_once 1000000000 demo_armed [1000; 1999999999] 2000000001) as (H1 & H2 & _).
  - split; vm_compute; reflexivity.
  - repeat constructor.
  - vm_compute. reflexivity.
  - split; [|exact H1]. cbn zeta in H2. rewrite H2. vm_compute. reflexivity.
Defined.

(** When an alarm set by setitimer goes off: the timer is armed, and a later check at
    time [now] fires exactly when [now] is at least the time of the call plus the value,
    provided the microsecond parts add up to less than a second; when they add up to more,
    the missing carry makes it fire as soon as the clock reaches the next full second, before
    the requested time has passed. *)
Theorem setitimer_due freq raw p umem times_ptr old_ptr tm : clock_ok freq raw → length (tt_timer p) = 3%nat →
  TimeVal_ge (current_timeval freq raw) (pt_last (timer0 p)) = true →
  umem !! times_ptr = Some tm → times_ptr ≠ 0 → old_ptr ≠ times_ptr → normal (it_value tm) → 0 < in_us (it_value tm) →
  tv_s (it_value tm) < 9000000000000000000 →
  ∃ p' umem', sys_setitimer freq raw p umem 0 times_ptr old_ptr = (Ok 0, p', umem') ∧
    (old_ptr ≠ 0 → umem' !! old_ptr = Some (pt_timer (timer0 p))) ∧
    tt_sig p' = tt_sig p ∧ armed p' ∧
    let start := current_timeval freq raw in
    ∀ now, clock_ok freq now →
      (fires freq now p' = true ↔
       if decide (tv_us start + tv_us (it_value tm) < USEC) then in_us start + in_us (it_value tm) ≤ in_us (current_timeval freq now)
       else tv_s start + tv_s (it_value tm) + 1 ≤ tv_s (current_timeval freq now)).
Proof.
  intros Hc Hl Hlast Htm Hp Hne Hv Hpos Hbig. destruct (clock_timeval freq raw Hc) as [Hus Hn]. cbn zeta.
  set (start := current_timeval freq raw) in *. set (v := it_value tm) in *.
  assert (Hs : tv_s start + tv_s v < USIZE).
  { destruct Hc as [Hf Hr Hu]. unfold in_us, normal, USEC in *. assert (elapsed_ns freq raw / 1000 < 18446744073709552) by (apply Z.div_lt_upper_bound; unfold USIZE in Hu; lia).
    unfold USIZE. lia. }
  pose proof (TimeVal_add_normal start v Hn Hv Hs) as Eadd.
  set (umem' := if decide (old_ptr ≠ 0) then <[old_ptr := pt_timer (timer0 p)]> umem else umem).
  exists (set_timer0 (λ t, mkTimer tm (TimeVal_add start v) (pt_last t)) p), umem'.
  assert (Elk : umem' !! times_ptr = Some tm).
  { unfold umem'. case_decide; [|done]. by rewrite lookup_insert_ne. }
  split_and!.
  - unfold sys_setitimer. rewrite decide_True by done. fold umem'. rewrite (decide_True (P := times_ptr ≠ 0)), Elk by done. change (default ITimerVal_default (Some tm)) with tm.
    fold v start. rewrite (decide_False (P := tv_s v = 0 ∧ tv_us v = 0)) by (unfold in_us, USEC in Hpos; lia). done.
  - intros Ho. unfold umem'. rewrite decide_True by done. apply lookup_insert_eq.
  - done.
  - unfold armed. rewrite timer0_set by done. cbn [pt_next pt_last]. split; [by destruct p as [[|t ts] sg]|].
    rewrite Eadd. apply TimeVal_gt_lex. apply TimeVal_ge_lex in Hlast. cbn [tv_s tv_us]. unfold normal, in_us, USEC in *. lia.
  - intros now Hnow. destruct (clock_timeval freq now Hnow) as [_ Hn']. unfold fires. rewrite timer0_set by done. cbn [pt_next].
    rewrite Eadd, TimeVal_ge_lex. cbn [tv_s tv_us]. unfold normal, in_us, USEC in *. case_decide; lia.
Qed.

Definition demo_timers : gmap Z ITimerVal := {[64 := mkITimer TimeVal_default (mkTimeVal 1 200000)]}.

(** Set at 0.9 s for 1.2 s, the alarm fires at 2.0 s instead of 2.1 s. *)
Lemma setitimer_due_witness :
  ∃ p' umem', sys_setitimer 1000000000 900000000 demo_task demo_timers 0 64 0 = (Ok 0, p', umem') ∧
    fires 1000000000 1999999999 p' = false ∧ fires 1000000000 2000000000 p' = true.
Proof.
  destruct (setitimer_due 1000000000 900000000 demo_task demo_timers 64 0 (mkITimer TimeVal_default (mkTimeVal 1 200000)))
    as (p' & umem' & E & _ & _ & _ & Hf).
  - apply demo_clock. lia.
  - reflexivity.
  - vm_compute. reflexivity.
  - vm_compute. reflexivity.
  - lia.
  - lia.
  - unfold normal, USEC. cbn. lia.
  - vm_compute. reflexivity.
  - cbn. lia.
  - exists p', umem'. split; [exact E|]. cbn zeta in Hf.
    split.
    + apply not_true_is_false. intros H. apply (proj1 (Hf 1999999999 (demo_clock 1999999999 ltac:(lia)))) in H. case_decide as Hd; vm_compute in H, Hd; congruence || by apply H.
    + apply (proj2 (Hf 2000000000 (demo_clock 2000000000 ltac:(lia)))). case_decide as Hd; vm_compute; [vm_compute in Hd; discriminate Hd|intros H; discriminate H].
Defined.

(** Two equal pointers: the old value overwrites the request before it is read. *)
Theorem setitimer_same_pointer freq raw p umem q : q ≠ 0 → length (tt_timer p) = 3%nat →
  let '(r, p', umem') := sys_setitimer freq raw p umem 0 q q in
  r = Ok 0 ∧ pt_timer (timer0 p') = pt_timer (timer0 p) ∧ umem' = <[q := pt_timer (timer0 p)]> umem.
Proof.
  intros Hq Hl. unfold sys_setitimer. rewrite decide_True by done. rewrite !(decide_True (P := q ≠ 0)) by done.
  rewrite lookup_insert_eq. split_and!; [done| |done].
  case_decide; by rewrite timer0_set.
Qed.

(** ** The main loop *)

Section entry_theorems.
Context {S C B : Type} (call_init : C) (call_poll : C → S → Poll bool * C * S) (sig_init : B) (sig_poll : B → S → Poll unit * B * S).
Context (timer : S → S) (check_thread_exit : S → option Z).

Local Abbreviation step := (entry_step call_init call_poll sig_init sig_poll timer check_thread_exit).
Local Abbreviation poll := (entry_poll call_init call_poll sig_init sig_poll timer check_thread_exit).

(** The points of the loop a poll can still pass. *)
Definition points (ph : Phase (C := C) (B := B)) (times : Z) : Z :=
  match ph with P_call _ _ => 2 * (49 - times) + 1 | P_sig _ => 2 * (49 - times) + 2 | P_yield => 2 * (49 - times) + 3 | P_done => 1 end.

(** A step goes on to a point closer to the end, and counts a call when it completes one. *)
Lemma entry_step_progress ph times s : 0 ≤ times < 50 →
  match step ph times s with
  | inl (_, times', _) => 0 ≤ times' < 50
  | inr (ph', times', s') => 0 ≤ times' < 50 ∧ points ph' times' < points ph times ∧ 1 ≤ points ph' times' ∧
      times' = times + match ph with P_call _ _ => 1 | _ => 0 end
  end.
Proof.
  intros Ht. destruct ph as [b|c w| |]; cbn [entry_step points].
  - destruct (sig_poll b s) as [[[u|] b'] s']; [|done]. destruct (check_thread_exit s'); [done|]. cbn [points]. lia.
  - destruct (call_poll c s) as [[[brk|] c'] s'].
    + destruct brk; [done|]. destruct (check_thread_exit s'); [done|]. case_decide; [lia|]. cbn [points]. lia.
    + destruct (watch_poll _ _ _ _ _ _) as [[[u|] w'] s'']; done.
  - lia.
  - done.
Qed.

Lemma entry_poll_total fuel : ∀ ph times s, 0 ≤ times < 50 → 1 ≤ points ph times ≤ Z.of_nat fuel →
  ∃ ph' times' s' n, poll fuel ph times s = Some (ph', times', s', n) ∧ 0 ≤ times' < 50 ∧ Z.of_nat n ≤ 50 - times.
Proof.
  induction fuel as [|fuel IH]; intros ph times s Ht Hp; [lia|]. cbn [entry_poll]. pose proof (entry_step_progress ph times s Ht) as Hs.
  set (done := match ph with P_call c _ => _ | _ => _ end).
  assert (Hd : Z.of_nat done ≤ match ph with P_call _ _ => 1 | _ => 0 end).
  { unfold done. destruct ph as [b|c w| |]; try done. destruct (call_poll c s) as [[[brk|] c'] s']; done. }
  destruct (step ph times s) as [[[ph' times'] s']|[[ph' times'] s']].
  - exists ph', times', s', done. split_and!; [done|lia|lia|]. destruct ph; lia.
  - destruct Hs as (Ht' & Hlt & Hge & E). destruct (IH ph' times' s' Ht' ltac:(lia)) as (ph2 & t2 & s2 & n & E2 & Ht2 & Hn). rewrite E2.
    exists ph2, t2, s2, (done + n)%nat. split_and!; [done|lia|lia|]. destruct ph; lia.
Qed.
End entry_theorems.

(** A task gives the processor back: whatever the task does, one poll of its main loop
    comes to an end by itself (a hundred and one points of the loop are enough fuel) after at
    most fifty completed system calls or traps, and leaves the counter below fifty for the
    next poll, provided each poll of a system call and of the signal check ends. *)
Theorem entry_yields {S C B : Type} (call_init : C) (call_poll : C → S → Poll bool * C * S) (sig_init : B)
    (sig_poll : B → S → Poll unit * B * S) (timer : S → S) (check_thread_exit : S → option Z) ph times s : 0 ≤ times < 50 →
  ∃ ph' times' s' n,
    entry_poll call_init call_poll sig_init sig_poll timer check_thread_exit 101 ph times s = Some (ph', times', s', n) ∧
    0 ≤ times' < 50 ∧ (n ≤ 50)%nat.
Proof.
  intros Ht. destruct (entry_poll_total call_init call_poll sig_init sig_poll timer check_thread_exit 101 ph times s Ht) as (ph' & t' & s' & n & E & Ht' & Hn).
  { destruct ph; cbn [points]; lia. }
  exists ph', t', s', n. split_and!; [done|lia|lia|lia].
Qed.

(** A program that makes system calls for ever: the fiftieth ends the poll. *)
Lemma entry_yields_witness :
  let run := entry_poll tt (λ c n, (Ready false, c, n + 1)) tt (λ b n, (Ready tt, b, n)) id (λ _, None) 101 P_yield 0 0 in
  run = Some (P_yield, 0, 50, 50%nat) ∧ ∃ ph' times' s' n, run = Some (ph', times', s', n) ∧ 0 ≤ times' < 50 ∧ (n ≤ 50)%nat.
Proof.
  split; [vm_compute; reflexivity|].
  apply (entry_yields tt (λ c n, (Ready false, c, n + 1)) tt (λ b n, (Ready tt, b, n)) id (λ _, None) P_yield 0 0). lia.
Defined.
