(* ===== verification/UserStack.v ===== *)
(** * The initial stack of a program

    Models the stack part of [init_task_stack] (kernel/src/tasks/elf.rs) and [push_str],
    [push_arr] and [push_num] (kernel/src/tasks/task.rs): the argument and environment
    strings, the auxiliary vector and the words a program finds at its stack pointer.  The
    memory of the program is an interface, [UserMemory], whose laws are those of mapped
    writable memory.  The theorem shows that a C library that reads the stack finds the
    arguments, the environment and the auxiliary vector. *)

From Stdlib Require Import Ascii.
From S2P Require Import Prelude Frame Signal MemSet SigFrame.

(** ** User memory as the kernel writes it *)

Class UserMemory (M : Type) := {
  u_write : M → Z → list Z → outcome M;
  u_view : M → Z → option Z;
}.

(** Writing to mapped memory changes the written bytes and no others. *)
Class UserMemoryLaws (M : Type) `{UserMemory M} := {
  u_ok : M → Prop;
  u_write_law m a data : u_ok m → 0 ≤ a → a + Z.of_nat (length data) < USIZE →
    (∀ x, a ≤ x < a + Z.of_nat (length data) → is_Some (u_view m x)) →
    ∃ m', u_write m a data = Ret m' ∧ u_ok m' ∧
      ∀ x, u_view m' x = if decide (a ≤ x < a + Z.of_nat (length data)) then data !! Z.to_nat (x - a) else u_view m x;
}.

(** The eight bytes of a word, least significant first. *)
Definition le64 (v : Z) : list Z := (λ i, Z.shiftr v (8 * i) mod 256) <$> seqZ 0 8.

(** ** Auxiliary vector *)

Definition AT_PHDR : Z := 3.
Definition AT_PHENT : Z := 4.
Definition AT_PHNUM : Z := 5.
Definition AT_PAGESZ : Z := 6.
Definition AT_ENTRY : Z := 9.
Definition AT_UID : Z := 11.
Definition AT_EUID : Z := 12.
Definition AT_GID : Z := 13.
Definition AT_EGID : Z := 14.
Definition AT_PLATFORM : Z := 15.
Definition AT_SECURE : Z := 23.
Definition AT_RANDOM : Z := 25.
Definition AT_EXECFN : Z := 31.

(** [BTreeMap::insert] on the entries in the order of their keys. *)
Fixpoint aux_insert (k v : Z) (l : list (Z * Z)) : list (Z * Z) :=
  match l with
  | [] => [(k, v)]
  | (k', v') :: l' => if decide (k = k') then (k, v) :: l' else if decide (k < k') then (k, v) :: l else (k', v') :: aux_insert k v l'
  end.

(** ** Pushing *)

Section stack.
Context {M : Type} `{UserMemory M}.

(** The task as far as the stack goes: its memory and its saved registers. *)
Record STask := mkSTask { st_mem : M; st_cx : TrapFrame }.

Definition push_arr (t : STask) (buffer : list Z) : outcome (Z * STask) :=
  let len := Z.of_nat (length buffer) in
  let sp := cx_get (st_cx t) SP -u alignup (len +u 1) 8 in
  m ← u_write (st_mem t) sp buffer;
  Ret (sp, mkSTask m (cx_set (st_cx t) SP sp)).

Definition push_str (t : STask) (str : list Z) : outcome (Z * STask) := push_arr t str.

Definition push_num (t : STask) (num : Z) : outcome (Z * STask) :=
  let sp := cx_get (st_cx t) SP -u 8 in
  m ← u_write (st_mem t) sp (le64 num);
  Ret (sp, mkSTask m (cx_set (st_cx t) SP sp)).

(** [into_iter().map(push_str).collect()] over the strings as given: the pointers in the
    order of the pushes. *)
Fixpoint push_strs (t : STask) (l : list (list Z)) : outcome (list Z * STask) :=
  match l with
  | [] => Ret ([], t)
  | x :: l => '(p, t) ← push_str t x; '(ps, t) ← push_strs t l; Ret (p :: ps, t)
  end.

Definition push_nums (t : STask) (l : list Z) : outcome STask := foldM (λ t n, '(_, t) ← push_num t n; Ret t) l t.

(** The environment every program gets; the one given to [execve] is not used.  27 is the
    escape character. *)
Definition ps1_bytes : list Z :=
  str_bytes "PS1=" ++ [27] ++ str_bytes "[1m" ++ [27] ++ str_bytes "[32mMonkeyOS" ++ [27] ++ str_bytes "[0m:" ++ [27] ++ str_bytes "[1m" ++ [27] ++
  str_bytes "[34m\w" ++ [27] ++ str_bytes "[0m\$ " ++ [0].
Definition exec_env (libc_path : list Z) : list (list Z) :=
  [str_bytes "LD_LIBRARY_PATH=" ++ libc_path; ps1_bytes; str_bytes "PATH=/:/bin:/usr/bin"; str_bytes "UB_BINDIR=./"].

(** What the auxiliary vector tells about the program. *)
Record ProgInfo := mkProg { pi_base : Z; pi_path : list Z; pi_entry : Z; pi_ph_count : Z; pi_ph_entry_size : Z; pi_ph_addr : Z; pi_heap_bottom : Z }.

Definition auxv_of (i : ProgInfo) (platform execfn random_ptr : Z) : list (Z * Z) :=
  foldl (λ l e, aux_insert e.1 e.2 l) []
    [(AT_PLATFORM, platform); (AT_EXECFN, execfn); (AT_PHNUM, pi_ph_count i); (AT_PAGESZ, PAGE_SIZE); (AT_ENTRY, pi_base i +u pi_entry i);
     (AT_PHENT, pi_ph_entry_size i); (AT_PHDR, pi_base i +u pi_ph_addr i); (AT_GID, 0); (AT_EGID, 0); (AT_UID, 0); (AT_EUID, 0); (AT_SECURE, 0);
     (AT_RANDOM, random_ptr)].

(** [init_task_stack] from "push stack" on. *)
Definition init_stack (libc_path : list Z) (i : ProgInfo) (args : list (list Z)) (t : STask) : outcome STask :=
  '(envp, t) ← push_strs t (rev (exec_env libc_path));
  '(argv, t) ← push_strs t (rev args);
  '(random_ptr, t) ← push_arr t (replicate 16 0);
  '(platform, t) ← push_str t (str_bytes "riscv");
  '(execfn, t) ← push_str t (pi_path i);
  '(_, t) ← push_num t 0;
  t ← foldM (λ t e, '(_, t) ← push_num t e.2; '(_, t) ← push_num t e.1; Ret t) (auxv_of i platform execfn random_ptr) t;
  '(_, t) ← push_num t 0;
  t ← push_nums t envp;
  '(_, t) ← push_num t 0;
  t ← push_nums t argv;
  '(_, t) ← push_num t (Z.of_nat (length argv));
  Ret t.
End stack.
Arguments STask M : clear implicits.

(** ** What a program reads *)

Section reading.
Context (view : Z → option Z).

(** The bytes of a list at an address. *)
Definition bytes_at (a : Z) (l : list Z) : Prop := ∀ i b, l !! i = Some b → view (a + Z.of_nat i) = Some b.

(** A string followed by a zero byte. *)
Definition cstr_at (a : Z) (s : list Z) : Prop := bytes_at a (s ++ [0]).

(** The word at an address, from its bytes. *)
Definition load_word (a : Z) : option Z :=
  foldr (λ i acc, b ← view (a + i); w ← acc; Some (b + 256 * w)) (Some 0) (seqZ 0 8).

(** Consecutive words. *)
Definition words_at (a : Z) (l : list Z) : Prop := ∀ i w, l !! i = Some w → load_word (a + 8 * Z.of_nat i) = Some w.
End reading.

(** ** Words and bytes *)

Lemma length_le64 v : length (le64 v) = 8%nat.
Proof. done. Qed.

Lemma le64_lookup v i : (i < 8)%nat → le64 v !! i = Some (Z.shiftr v (8 * Z.of_nat i) mod 256).
Proof. intros Hi. unfold le64. rewrite list_lookup_fmap, lookup_seqZ_lt by lia. done. Qed.

Lemma bytes_split v : 0 ≤ v → v = v mod 256 + 256 * Z.shiftr v 8.
Proof. intros. rewrite Z.shiftr_div_pow2 by lia. change (2 ^ 8) with 256. pose proof (Z.div_mod v 256). lia. Qed.

Lemma load_word_le64 view a v : is_usize v → bytes_at view a (le64 v) → load_word view a = Some v.
Proof.
  intros Hv Hb. unfold load_word.
  assert (E : ∀ i, 0 ≤ i < 8 → view (a + i) = Some (Z.shiftr v (8 * i) mod 256)).
  { intros i Hi. pose proof (Hb (Z.to_nat i) _ (le64_lookup v (Z.to_nat i) ltac:(lia))) as Hi'. by rewrite Z2Nat.id in Hi' by lia. }
  change (seqZ 0 8) with [0; 1; 2; 3; 4; 5; 6; 7]. cbn [foldr]. rewrite !E by lia. cbn [mbind option_bind]. f_equal.
  assert (Es : ∀ k, 0 ≤ k → Z.shiftr v (8 * k) = Z.shiftr v (8 * k) mod 256 + 256 * Z.shiftr v (8 * (k + 1))).
  { intros k Hk. rewrite (bytes_split (Z.shiftr v (8 * k))) at 1 by (apply Z.shiftr_nonneg, Hv).
    rewrite Z.shiftr_shiftr by lia. do 3 f_equal. lia. }
  assert (E8 : Z.shiftr v (8 * 8) = 0) by (rewrite Z.shiftr_div_pow2 by lia; apply Z.div_small; exact Hv).
  pose proof (Es 0 ltac:(lia) : Z.shiftr v 0 = Z.shiftr v 0 mod 256 + 256 * Z.shiftr v 8) as H0.
  pose proof (Es 1 ltac:(lia) : Z.shiftr v 8 = Z.shiftr v 8 mod 256 + 256 * Z.shiftr v 16) as H1.
  pose proof (Es 2 ltac:(lia) : Z.shiftr v 16 = Z.shiftr v 16 mod 256 + 256 * Z.shiftr v 24) as H2.
  pose proof (Es 3 ltac:(lia) : Z.shiftr v 24 = Z.shiftr v 24 mod 256 + 256 * Z.shiftr v 32) as H3.
  pose proof (Es 4 ltac:(lia) : Z.shiftr v 32 = Z.shiftr v 32 mod 256 + 256 * Z.shiftr v 40) as H4.
  pose proof (Es 5 ltac:(lia) : Z.shiftr v 40 = Z.shiftr v 40 mod 256 + 256 * Z.shiftr v 48) as H5.
  pose proof (Es 6 ltac:(lia) : Z.shiftr v 48 = Z.shiftr v 48 mod 256 + 256 * Z.shiftr v 56) as H6.
  pose proof (Es 7 ltac:(lia) : Z.shiftr v 56 = Z.shiftr v 56 mod 256 + 256 * Z.shiftr v 64) as H7.
  change (8 * 0) with 0 in *. change (8 * 1) with 8 in *. change (8 * 2) with 16 in *. change (8 * 3) with 24 in *. change (8 * 4) with 32 in *. change (8 * 5) with 40 in *. change (8 * 6) with 48 in *. change (8 * 7) with 56 in *. change (8 * 8) with 64 in *.
  rewrite Z.shiftr_0_r in *. lia.
Qed.

(** The stack space a string takes. *)
Definition str_size (s : list Z) : Z := div_ceil (Z.of_nat (length s) + 1) 8 * 8.

Lemma str_size_bounds s : Z.of_nat (length s) < str_size s ≤ Z.of_nat (length s) + 8 ∧ str_size s mod 8 = 0.
Proof.
  unfold str_size. destruct (div_ceil_bounds (Z.of_nat (length s) + 1) 8) as [?|[? _]]; [lia|lia| |lia]. split; [lia|]. by apply Z.mod_mul.
Qed.

Definition strs_size (l : list (list Z)) : Z := foldr (λ s acc, str_size s + acc) 0 l.

Lemma strs_size_nonneg l : 0 ≤ strs_size l.
Proof. induction l as [|s l IH]; cbn [strs_size foldr]; [lia|]. pose proof (str_size_bounds s). unfold strs_size in IH. lia. Qed.

Lemma strs_size_app l1 l2 : strs_size (l1 ++ l2) = strs_size l1 + strs_size l2.
Proof. unfold strs_size. induction l1 as [|s l1 IH]; cbn [app foldr]; [done|]. rewrite IH. lia. Qed.

Lemma strs_size_rev l : strs_size (rev l) = strs_size l.
Proof. induction l as [|s l IH]; [done|]. cbn [rev]. rewrite strs_size_app, IH. unfold strs_size. cbn [foldr]. lia. Qed.

(** ** Pushing *)

Section pushing.
Context {M : Type} `{ML : UserMemoryLaws M} (lo : Z).
Implicit Types (t : STask M).

Definition sp_of t : Z := cx_get (st_cx t) SP.
Abbreviation view_of t := (u_view (st_mem t)).

(** The stack is mapped down to [lo], and zero below the stack pointer. *)
Record stack_state t : Prop := {
  ss_ok : u_ok (st_mem t);
  ss_regs : length (tf_x (st_cx t)) = 32%nat;
  ss_sp : 0 ≤ lo ≤ sp_of t ∧ sp_of t < USIZE;
  ss_zero : ∀ x, lo ≤ x < sp_of t → view_of t x = Some 0;
}.

(** Pushes keep what lies above the stack pointer and below the stack. *)
Record pushed t t' : Prop := {
  pu_state : stack_state t';
  pu_sp : sp_of t' ≤ sp_of t;
  pu_keep : ∀ x, sp_of t ≤ x ∨ x < lo → view_of t' x = view_of t x;
  pu_cx : st_cx t' = cx_set (st_cx t) SP (sp_of t');
}.

Lemma cx_set_set cx a v w : cx_set (cx_set cx a v) a w = cx_set cx a w.
Proof. unfold cx_set. destruct (arg_reg a); cbn; [|done]. by rewrite list_insert_insert_eq. Qed.

Lemma pushed_refl t : stack_state t → pushed t t.
Proof.
  intros Hs. split; try done. destruct t as [m [x ss pc fs]]. unfold cx_set, sp_of, cx_get. cbn. f_equal.
  destruct Hs as [_ Hr _ _]. cbn in Hr. symmetry. apply list_insert_id. destruct (x !! 2%nat) eqn:E; [done|]. apply lookup_ge_None in E. lia.
Qed.

Lemma pushed_trans t1 t2 t3 : pushed t1 t2 → pushed t2 t3 → pushed t1 t3.
Proof.
  intros [H1 H2 H3 H4] [G1 G2 G3 G4]. split; [done|lia| |].
  - intros x Hx. rewrite G3 by lia. apply H3. lia.
  - rewrite G4, H4. apply cx_set_set.
Qed.

(** The common part of [push_arr] and [push_num]: [n] bytes are taken, [data] is written. *)
Lemma push_spec t n data : stack_state t → Z.of_nat (length data) ≤ n → lo + n ≤ sp_of t →
  ∃ m, u_write (st_mem t) (sp_of t - n) data = Ret m ∧
    let t' := mkSTask m (cx_set (st_cx t) SP (sp_of t - n)) in
    pushed t t' ∧ sp_of t' = sp_of t - n ∧ bytes_at (view_of t') (sp_of t - n) data ∧
    ∀ x, sp_of t - n + Z.of_nat (length data) ≤ x < sp_of t → view_of t' x = Some 0.
Proof.
  intros [Hok Hr Hsp Hz] Hlen Hn.
  destruct (u_write_law (st_mem t) (sp_of t - n) data Hok) as (m & E & Hok' & Hv); [lia|lia|intros x Hx; rewrite Hz by lia; done|].
  exists m. split; [done|]. cbn zeta.
  assert (Esp : sp_of (mkSTask m (cx_set (st_cx t) SP (sp_of t - n))) = sp_of t - n) by (unfold sp_of at 1; cbn [st_cx]; by rewrite cx_get_set_eq).
  split_and!; [split| | |].
  - split; cbn [st_mem st_cx]; [done|by rewrite cx_set_length|lia|]. intros x Hx. rewrite Hv, decide_False by lia. apply Hz. lia.
  - lia.
  - intros x Hx. cbn [st_mem]. rewrite Hv, decide_False by lia. done.
  - cbn [st_cx]. by rewrite Esp.
  - done.
  - intros i b Hi. cbn [st_mem]. pose proof (lookup_lt_Some _ _ _ Hi). rewrite Hv, decide_True by lia.
    replace (Z.to_nat (sp_of t - n + Z.of_nat i - (sp_of t - n))) with i by lia. done.
  - intros x Hx. cbn [st_mem]. rewrite Hv, decide_False by lia. apply Hz. lia.
Qed.

Lemma push_arr_spec t s : stack_state t → lo + str_size s ≤ sp_of t →
  ∃ t', push_arr t s = Ret (sp_of t', t') ∧ pushed t t' ∧ sp_of t' = sp_of t - str_size s ∧ cstr_at (view_of t') (sp_of t') s.
Proof.
  intros Hs Hsz. pose proof (str_size_bounds s) as [Hb _]. destruct (ss_sp t Hs) as [Hlo Hu].
  destruct (push_spec t (str_size s) s Hs ltac:(lia) Hsz) as (m & E & Hp & Esp & Hby & Hz). eexists. split; [|split; [exact Hp|split; [exact Esp|]]].
  - unfold push_arr. rewrite Esp. replace (cx_get (st_cx t) SP -u alignup (Z.of_nat (length s) +u 1) 8) with (sp_of t - str_size s).
    + rewrite E. done.
    + unfold alignup. rewrite (wrap_small (Z.of_nat (length s) + 1)) by (unfold is_usize, USIZE in *; lia). fold (str_size s). fold (sp_of t).
      rewrite (wrap_small (str_size s)) by (unfold is_usize, USIZE in *; lia). rewrite wrap_small; [done|]. unfold is_usize. lia.
  - rewrite Esp. intros i b Hi. apply lookup_app_Some in Hi as [Hi|[Hge Hi]]; [by apply Hby|].
    destruct (i - length s)%nat as [|k] eqn:Ek; [|done]. injection Hi as <-. apply Hz. lia.
Qed.

Lemma push_num_spec t v : stack_state t → is_usize v → lo + 8 ≤ sp_of t →
  ∃ t', push_num t v = Ret (sp_of t', t') ∧ pushed t t' ∧ sp_of t' = sp_of t - 8 ∧ load_word (view_of t') (sp_of t') = Some v.
Proof.
  intros Hs Hv Hsz. destruct (ss_sp t Hs) as [Hlo Hu]. destruct (push_spec t 8 (le64 v) Hs ltac:(done) Hsz) as (m & E & Hp & Esp & Hby & _).
  eexists. split; [|split; [exact Hp|split; [exact Esp|]]].
  - unfold push_num. rewrite Esp. replace (cx_get (st_cx t) SP -u 8) with (sp_of t - 8) by (fold (sp_of t); rewrite wrap_small; [done|unfold is_usize; lia]).
    rewrite E. done.
  - rewrite Esp. by apply load_word_le64.
Qed.

(** ** Pushing lists *)

Lemma cstr_keep t t' p s : pushed t t' → sp_of t ≤ p → cstr_at (view_of t) p s → cstr_at (view_of t') p s.
Proof. intros Hp Hle Hc i b Hi. rewrite (pu_keep t t' Hp) by lia. by apply Hc. Qed.

Lemma load_word_ext (v v' : Z → option Z) a : (∀ x, a ≤ x < a + 8 → v' x = v x) → load_word v' a = load_word v a.
Proof. intros Hx. unfold load_word. change (seqZ 0 8) with [0; 1; 2; 3; 4; 5; 6; 7]. cbn [foldr]. by rewrite !Hx by lia. Qed.

(** The pointer of a pushed string, in the stack above [t']. *)
Definition str_ptr t' (p : Z) (s : list Z) : Prop := sp_of t' ≤ p ∧ is_usize p ∧ cstr_at (view_of t') p s.

Lemma str_ptr_keep t t' ps l : pushed t t' → Forall2 (str_ptr t) ps l → Forall2 (str_ptr t') ps l.
Proof.
  intros Hp Hf. eapply Forall2_impl; [exact Hf|]. intros p s (Hle & Hu & Hc). pose proof (pu_sp t t' Hp). split_and!; [lia|done|by eapply cstr_keep].
Qed.

Lemma push_strs_spec l : ∀ t, stack_state t → lo + strs_size l ≤ sp_of t →
  ∃ ps t', push_strs t l = Ret (ps, t') ∧ pushed t t' ∧ sp_of t' = sp_of t - strs_size l ∧ Forall2 (str_ptr t') ps l.
Proof.
  induction l as [|s l IH]; intros t Hs Hsz.
  { exists [], t. split_and!; [done|by apply pushed_refl|unfold strs_size; cbn; lia|constructor]. }
  pose proof (strs_size_nonneg l). cbn [strs_size foldr] in Hsz. fold (strs_size l) in Hsz.
  destruct (push_arr_spec t s Hs ltac:(lia)) as (t1 & E1 & Hp1 & Esp1 & Hc1).
  destruct (IH t1 (pu_state _ _ Hp1) ltac:(lia)) as (ps & t2 & E2 & Hp2 & Esp2 & Hf).
  exists (sp_of t1 :: ps), t2. split_and!.
  - cbn [push_strs]. unfold push_str. rewrite E1. step_ret. rewrite E2. done.
  - by eapply pushed_trans.
  - cbn [strs_size foldr]. fold (strs_size l). lia.
  - constructor; [|done]. pose proof (pu_sp _ _ Hp2). destruct (ss_sp t1 (pu_state _ _ Hp1)). unfold str_ptr.
    split_and!; [lia|unfold is_usize; lia|by eapply cstr_keep].
Qed.

Lemma push_nums_spec l : ∀ t, stack_state t → Forall is_usize l → lo + 8 * Z.of_nat (length l) ≤ sp_of t →
  ∃ t', push_nums t l = Ret t' ∧ pushed t t' ∧ sp_of t' = sp_of t - 8 * Z.of_nat (length l) ∧ words_at (view_of t') (sp_of t') (rev l).
Proof.
  induction l as [|v l IH]; intros t Hs Hu Hsz.
  { exists t. split_and!; [done|by apply pushed_refl|cbn; lia|done]. }
  apply Forall_cons in Hu as [Hv Hu]. cbn [length] in Hsz. destruct (push_num_spec t v Hs Hv ltac:(lia)) as (t1 & E1 & Hp1 & Esp1 & Hw1).
  destruct (IH t1 (pu_state _ _ Hp1) Hu ltac:(lia)) as (t2 & E2 & Hp2 & Esp2 & Hw2).
  exists t2. split_and!; [|by eapply pushed_trans|cbn [length]; lia|].
  - unfold push_nums in *. cbn [foldM]. rewrite E1. step_ret. exact E2.
  - cbn [rev]. intros i w Hi. apply lookup_app_Some in Hi as [Hi|[Hge Hi]]; [by apply Hw2|].
    rewrite length_rev in Hge, Hi. destruct (i - length l)%nat as [|k] eqn:Ek; [|done]. injection Hi as <-.
    replace (sp_of t2 + 8 * Z.of_nat i) with (sp_of t1) by lia. rewrite <- Hw1. apply load_word_ext. intros x Hx. apply (pu_keep _ _ Hp2). lia.
Qed.
End pushing.

(** ** The whole stack *)

Lemma Forall2_rev {A B} (P : A → B → Prop) l k : Forall2 P l k → Forall2 P (rev l) (rev k).
Proof. induction 1; cbn [rev]; [constructor|]. apply Forall2_app; [done|]. by repeat constructor. Qed.

(** The words of the auxiliary vector as they lie in memory. *)
Definition aux_words (l : list (Z * Z)) : list Z := concat ((λ e, [e.1; e.2]) <$> l).

Lemma auxv_of_sorted i platform execfn random_ptr : auxv_of i platform execfn random_ptr =
  [(AT_PHDR, pi_base i +u pi_ph_addr i); (AT_PHENT, pi_ph_entry_size i); (AT_PHNUM, pi_ph_count i); (AT_PAGESZ, PAGE_SIZE);
   (AT_ENTRY, pi_base i +u pi_entry i); (AT_UID, 0); (AT_EUID, 0); (AT_GID, 0); (AT_EGID, 0); (AT_PLATFORM, platform); (AT_SECURE, 0);
   (AT_RANDOM, random_ptr); (AT_EXECFN, execfn)].
Proof. reflexivity. Qed.

(** The numbers [init_stack] pushes, in order. *)
Definition stack_nums (aux : list (Z * Z)) (envp argv : list Z) : list Z :=
  0 :: concat ((λ e, [e.2; e.1]) <$> aux) ++ 0 :: envp ++ 0 :: argv ++ [Z.of_nat (length argv)].

Lemma rev_stack_nums aux envp argv : rev (stack_nums aux envp argv) =
  Z.of_nat (length argv) :: rev argv ++ 0 :: rev envp ++ 0 :: aux_words (rev aux) ++ [0].
Proof.
  assert (E : rev (concat ((λ e, [e.2; e.1]) <$> aux)) = aux_words (rev aux)).
  { unfold aux_words. induction aux as [|e aux IH]; [done|]. rewrite fmap_cons. cbn [concat rev app]. rewrite fmap_app, concat_app, IH, <- app_assoc. done. }
  unfold stack_nums. cbn [rev]. rewrite rev_app_distr. cbn [rev]. rewrite rev_app_distr. cbn [rev]. rewrite rev_app_distr. cbn [rev app]. rewrite E.
  by repeat (rewrite <- app_assoc; cbn [app]).
Qed.

Section init.
Context {M : Type} `{ML : UserMemoryLaws M} (lo : Z).

Lemma push_aux_nums aux (t : STask M) :
  foldM (λ t e, '(_, t) ← push_num t e.2; '(_, t) ← push_num t e.1; Ret t) aux t = push_nums t (concat ((λ e, [e.2; e.1]) <$> aux)).
Proof.
  revert t. induction aux as [|e aux IH]; intros t; [done|]. rewrite fmap_cons. cbn [foldM concat app]. unfold push_nums in *. cbn [foldM].
  destruct (push_num t e.2) as [[a t1]|]; [|done]. step_ret. destruct (push_num t1 e.1) as [[b t2]|]; [|done]. step_ret. apply IH.
Qed.

(** The space the stack of a program takes. *)
Definition init_size (libc_path : list Z) (i : ProgInfo) (args : list (list Z)) : Z :=
  strs_size (exec_env libc_path) + strs_size args + 24 + 8 + str_size (pi_path i) + 8 * (34 + Z.of_nat (length args)).

(** The state after [init_stack]: what the program finds, for a reader at its stack pointer. *)
Definition program_stack (t' : STask M) (libc_path : list Z) (i : ProgInfo) (args : list (list Z)) : Prop :=
  ∃ argv envp platform execfn random_ptr,
    words_at (u_view (st_mem t')) (sp_of t')
      (Z.of_nat (length args) :: argv ++ 0 :: envp ++ 0 :: aux_words (rev (auxv_of i platform execfn random_ptr)) ++ [0]) ∧
    Forall2 (str_ptr t') argv args ∧ Forall2 (str_ptr t') envp (exec_env libc_path) ∧
    str_ptr t' execfn (pi_path i) ∧ str_ptr t' platform (str_bytes "riscv") ∧ str_ptr t' random_ptr (replicate 16 0).

(** The stack a program finds depends on the memory above its stack pointer only. *)
Lemma program_stack_ext (t t' : STask M) libc_path i args : sp_of t' = sp_of t → (∀ x, sp_of t ≤ x → u_view (st_mem t') x = u_view (st_mem t) x) →
  program_stack t libc_path i args → program_stack t' libc_path i args.
Proof.
  intros Esp Hx (argv & envp & platform & execfn & random_ptr & Hw & H1 & H2 & H3 & H4 & H5).
  assert (Hp : ∀ p s, str_ptr t p s → str_ptr t' p s).
  { intros p s (Hle & Hu & Hc). split_and!; [lia|done|]. intros k b Hk. rewrite Hx by lia. by apply Hc. }
  exists argv, envp, platform, execfn, random_ptr. split_and!; [|by eapply Forall2_impl|by eapply Forall2_impl|by apply Hp..].
  intros k w Hk. rewrite Esp. rewrite <- (Hw k w Hk). apply load_word_ext. intros x Hb. apply Hx. lia.
Qed.

Lemma init_stack_spec libc_path i args (t : STask M) : stack_state lo t → lo + init_size libc_path i args ≤ sp_of t →
  is_usize (pi_ph_count i) → is_usize (pi_ph_entry_size i) →
  ∃ t', init_stack libc_path i args t = Ret t' ∧ pushed lo t t' ∧ sp_of t' = sp_of t - init_size libc_path i args ∧ program_stack t' libc_path i args.
Proof.
  intros Hs Hsz Hu1 Hu2. unfold init_size in *. pose proof (strs_size_nonneg (exec_env libc_path)). pose proof (strs_size_nonneg args).
  pose proof (str_size_bounds (pi_path i)) as [Hb _].
  destruct (push_strs_spec lo (rev (exec_env libc_path)) t Hs) as (envp & t1 & E1 & P1 & S1 & F1); [rewrite strs_size_rev; lia|]. rewrite strs_size_rev in S1.
  destruct (push_strs_spec lo (rev args) t1 (pu_state _ _ _ P1)) as (argv & t2 & E2 & P2 & S2 & F2); [rewrite strs_size_rev; lia|]. rewrite strs_size_rev in S2.
  destruct (push_arr_spec lo t2 (replicate 16 0) (pu_state _ _ _ P2)) as (t3 & E3 & P3 & S3 & C3); [change (str_size (replicate 16 0)) with 24; lia|].
  change (str_size (replicate 16 0)) with 24 in S3.
  destruct (push_arr_spec lo t3 (str_bytes "riscv") (pu_state _ _ _ P3)) as (t4 & E4 & P4 & S4 & C4); [change (str_size (str_bytes "riscv")) with 8; lia|].
  change (str_size (str_bytes "riscv")) with 8 in S4.
  destruct (push_arr_spec lo t4 (pi_path i) (pu_state _ _ _ P4)) as (t5 & E5 & P5 & S5 & C5); [lia|].
  set (aux := auxv_of i (sp_of t4) (sp_of t5) (sp_of t3)).
  assert (Hlen : length (concat ((λ e : Z * Z, [e.2; e.1]) <$> aux)) = 26%nat) by (unfold aux; rewrite auxv_of_sorted; reflexivity).
  pose proof (Forall2_length _ _ _ F1) as L1. pose proof (Forall2_length _ _ _ F2) as L2. rewrite length_rev in L1, L2. change (length (exec_env libc_path)) with 4%nat in L1.
  assert (Hrange : ∀ t, stack_state lo t → is_usize (sp_of t)) by (intros u []; unfold is_usize; lia).
  destruct (push_nums_spec lo (stack_nums aux envp argv) t5 (pu_state _ _ _ P5)) as (t6 & E6 & P6 & S6 & W6).
  { unfold stack_nums. rewrite Forall_cons, Forall_app, Forall_cons, Forall_app, Forall_cons, Forall_app, Forall_singleton. split_and!; try done.
    - unfold aux. rewrite auxv_of_sorted. cbn [fmap list_fmap concat app fst snd].
      repeat (apply Forall_cons_2; [first [apply wrap_range | assumption | eapply Hrange, pu_state; eassumption | apply (bool_decide_unpack _); vm_compute; exact I]|]).
      constructor.
    - apply Forall_forall. intros p Hp. apply list_elem_of_lookup in Hp as (k & Hk). destruct (Forall2_lookup_l _ _ _ _ _ F1 Hk) as (s & _ & Hst). apply Hst.
    - apply Forall_forall. intros p Hp. apply list_elem_of_lookup in Hp as (k & Hk). destruct (Forall2_lookup_l _ _ _ _ _ F2 Hk) as (s & _ & Hst). apply Hst.
    - destruct (ss_sp lo t Hs). rewrite L2. unfold is_usize, USIZE in *. lia. }
  { unfold stack_nums. cbn [length]. rewrite length_app, Hlen. cbn [length]. rewrite length_app, L1. cbn [length]. rewrite length_app, L2. cbn [length]. lia. }
  assert (S6' : sp_of t6 = sp_of t5 - 8 * (34 + Z.of_nat (length args))).
  { rewrite S6. unfold stack_nums. cbn [length]. rewrite length_app, Hlen. cbn [length]. rewrite length_app, L1. cbn [length]. rewrite length_app, L2. cbn [length]. lia. }
  assert (P56 : pushed lo t4 t6) by (eapply pushed_trans; eassumption). assert (P46 : pushed lo t3 t6) by (eapply pushed_trans; eassumption).
  assert (P36 : pushed lo t2 t6) by (eapply pushed_trans; eassumption). assert (P26 : pushed lo t1 t6) by (eapply pushed_trans; eassumption).
  exists t6. split_and!; [| by eapply pushed_trans|lia|].
  - unfold init_stack, push_str. rewrite E1. step_ret. rewrite E2. step_ret. rewrite E3. step_ret. rewrite E4. step_ret. rewrite E5. step_ret. fold aux.
    rewrite <- E6. unfold stack_nums, push_nums at 3. cbn [foldM]. destruct (push_num t5 0) as [[? u]|]; [|done]. step_ret.
    rewrite push_aux_nums. unfold push_nums. rewrite foldM_app. destruct (foldM _ (concat _) u) as [u1|]; [|done]. step_ret. cbn [foldM]. destruct (push_num u1 0) as [[? u2]|]; [|done]. step_ret.
    rewrite foldM_app. destruct (foldM _ envp u2) as [u3|]; [|done]. step_ret. cbn [foldM]. destruct (push_num u3 0) as [[? u4]|]; [|done]. step_ret.
    rewrite foldM_app. destruct (foldM _ argv u4) as [u5|]; [|done]. step_ret. cbn [foldM]. destruct (push_num u5 _) as [[? u6]|]; done.
  - exists (rev argv), (rev envp), (sp_of t4), (sp_of t5), (sp_of t3). split_and!.
    + rewrite rev_stack_nums, L2 in W6. exact W6.
    + apply Forall2_rev in F2. rewrite rev_involutive in F2. exact (str_ptr_keep lo t2 t6 _ _ P36 F2).
    + apply Forall2_rev in F1. rewrite rev_involutive in F1. exact (str_ptr_keep lo t1 t6 _ _ P26 F1).
    + pose proof (pu_sp _ _ _ P6). split_and!; [lia|apply Hrange, P5|exact (cstr_keep lo t5 t6 _ _ P6 (Z.le_refl _) C5)].
    + pose proof (pu_sp _ _ _ P56). split_and!; [lia|apply Hrange, P4|exact (cstr_keep lo t4 t6 _ _ P56 (Z.le_refl _) C4)].
    + pose proof (pu_sp _ _ _ P46). split_and!; [lia|apply Hrange, P3|exact (cstr_keep lo t3 t6 _ _ P46 (Z.le_refl _) C3)].
Qed.
End init.
