(* ===== verification/Exec.v ===== *)
(** * Program loading

    Models kernel/src/tasks/exec.rs ([exec_with_process], [cache_task_template],
    [detect_libc_type]), kernel/src/tasks/elf.rs ([get_ph_addr], [relocate],
    [init_task_stack]) and [sys_execve] of kernel/src/syscall/task.rs on the address spaces
    of Mm and the physical memory of Memory.  The headers of an ELF file are read from its
    bytes as xmas-elf reads them; the section table, the files and the paths of the dynamic
    linkers are parameters. *)

From S2P Require Import Prelude Frame Signal Path Memory MemSet FdTable Mm Cow SigFrame UserStack.

Definition USER_DYN_ADDR : Z := 0x20000000.
Definition USER_STACK_TOP : Z := 0x80000000.
Definition USER_STACK_INIT_SIZE : Z := 0x20000.

(** ** ELF files *)

(** A little-endian number of [n] bytes at an offset of the file. *)
Definition le_at (b : list Z) (off : Z) (n : nat) : Z := foldr (λ x acc, x + 256 * acc) 0 (take n (drop (Z.to_nat off) b)).

(** [ElfFile::new]: the file is accepted and its class is known ([true] for 64 bits). *)
Definition ElfFile_new (b : list Z) : option bool :=
  if decide (Z.of_nat (length b) < 16) then None
  else if decide (take 4 b ≠ [0x7f; 0x45; 0x4c; 0x46]) then None
  else
    match b !! 4%nat with
    | Some 1 => if decide (Z.of_nat (length b) < 52) then None else Some false
    | Some 2 => if decide (Z.of_nat (length b) < 64) then None else Some true
    | _ => None
    end.

(** The fields of the second header part, at their offset and size for each class. *)
Definition entry_point (c : bool) (b : list Z) : Z := if c then le_at b 24 8 else le_at b 24 4.
Definition ph_offset (c : bool) (b : list Z) : Z := if c then le_at b 32 8 else le_at b 28 4.
Definition ph_entry_size (c : bool) (b : list Z) : Z := if c then le_at b 54 2 else le_at b 42 2.
Definition ph_count (c : bool) (b : list Z) : Z := if c then le_at b 56 2 else le_at b 44 2.

Inductive PhType := PNull | PLoad | PDynamic | PInterp | PNote | PShLib | PPhdr | PTls | PGnuRelro | POs (t : Z) | PProc (t : Z).

#[export] Instance PhType_eq_dec : EqDecision PhType.
Proof. solve_decision. Defined.

(** [as_type]; [None] for an invalid type. *)
Definition as_type (t : Z) : option PhType :=
  match t with
  | 0 => Some PNull | 1 => Some PLoad | 2 => Some PDynamic | 3 => Some PInterp | 4 => Some PNote | 5 => Some PShLib | 6 => Some PPhdr | 7 => Some PTls
  | _ => if decide (t = 0x6474e552) then Some PGnuRelro
         else if decide (0x60000000 ≤ t ≤ 0x6fffffff) then Some (POs t)
         else if decide (0x70000000 ≤ t ≤ 0x7fffffff) then Some (PProc t) else None
  end.

Record ProgramHeader := mkPh { ph_type : Z; ph_off : Z; ph_virtual_addr : Z; ph_file_size : Z; ph_mem_size : Z }.

Definition get_type (ph : ProgramHeader) : option PhType := as_type (ph_type ph).

(** [program_header]: [None] ends the iteration; a header outside the file, or one that is
    not aligned, panics. *)
Definition program_header (c : bool) (b : list Z) (index : Z) : outcome (option ProgramHeader) :=
  if decide (index < ph_count c b ∧ 0 < ph_offset c b ∧ 0 < ph_entry_size c b) then
    let start := ph_offset c b +u index * ph_entry_size c b in
    let end_ := start +u ph_entry_size c b in
    if decide (start ≤ end_ ≤ Z.of_nat (length b)) then
      if c then
        if decide (56 ≤ ph_entry_size c b ∧ start mod 8 = 0) then
          Ret (Some (mkPh (le_at b start 4) (le_at b (start + 8) 8) (le_at b (start + 16) 8) (le_at b (start + 32) 8) (le_at b (start + 40) 8)))
        else Panic
      else
        if decide (32 ≤ ph_entry_size c b ∧ start mod 4 = 0) then
          Ret (Some (mkPh (le_at b start 4) (le_at b (start + 4) 4) (le_at b (start + 8) 4) (le_at b (start + 16) 4) (le_at b (start + 20) 4)))
        else Panic
    else Panic
  else Ret None.

(** [program_iter().find(p)]: headers after the one found are not read. *)
Fixpoint find_ph_from (fuel : nat) (c : bool) (b : list Z) (p : ProgramHeader → bool) (index : Z) : outcome (option ProgramHeader) :=
  match fuel with
  | O => Ret None
  | S fuel =>
      o ← program_header c b index;
      match o with
      | None => Ret None
      | Some ph => if p ph then Ret (Some ph) else find_ph_from fuel c b p (index + 1)
      end
  end.

(** There are at most as many headers as [ph_count] says. *)
Definition find_ph (c : bool) (b : list Z) (p : ProgramHeader → bool) : outcome (option ProgramHeader) :=
  find_ph_from (Z.to_nat (ph_count c b)) c b p 0.

(** All of [program_iter()]. *)
Fixpoint program_iter_from (fuel : nat) (c : bool) (b : list Z) (index : Z) : outcome (list ProgramHeader) :=
  match fuel with
  | O => Ret []
  | S fuel =>
      o ← program_header c b index;
      match o with
      | None => Ret []
      | Some ph => l ← program_iter_from fuel c b (index + 1); Ret (ph :: l)
      end
  end.
Definition program_iter (c : bool) (b : list Z) : outcome (list ProgramHeader) := program_iter_from (Z.to_nat (ph_count c b)) c b 0.

Definition is_type (ty : PhType) (ph : ProgramHeader) : bool := bool_decide (get_type ph = Some ty).

(** [raw_data] of a header that is not null. *)
Definition raw_data (b : list Z) (ph : ProgramHeader) : outcome (list Z) :=
  if decide (ph_file_size ph = 0) then Ret []
  else
    let end_ := ph_off ph +u ph_file_size ph in
    if decide (ph_off ph ≤ end_ ≤ Z.of_nat (length b)) then Ret (take (Z.to_nat (ph_file_size ph)) (drop (Z.to_nat (ph_off ph)) b)) else Panic.

(** ** [ElfExtra] *)

(** [None] is [Err(EBADF)]. *)
Definition get_ph_addr (c : bool) (b : list Z) : outcome (option Z) :=
  o ← find_ph c b (is_type PPhdr);
  match o with
  | Some phdr => Ret (Some (ph_virtual_addr phdr))
  | None =>
      o ← find_ph c b (λ ph, is_type PLoad ph && bool_decide (ph_off ph = 0));
      match o with
      | Some elf_addr => Ret (Some (ph_virtual_addr elf_addr +u ph_offset c b))
      | None => Ret None
      end
  end.

(** The sections [relocate] looks at: relocation entries are a type and a symbol index,
    dynamic symbols a section index and whether their name can be read. *)
Inductive SectionData := Rela64 (l : list (Z * Z)) | DynSymbolTable64 (l : list (Z * bool)) | OtherData.

(** [find_section_by_name] and [get_data]: [None] when there is no section, [Some None] when
    its data is corrupted. *)
Definition Sections : Type := string → option (option SectionData).

Definition dynsym (secs : Sections) : option (list (Z * bool)) :=
  match secs ".dynsym" with Some (Some (DynSymbolTable64 l)) => Some l | _ => None end.

(** One entry: [false] is an early [Err]. *)
Definition relocate_entry (syms : list (Z * bool)) (e : Z * Z) : outcome bool :=
  if decide (e.1 ∈ [6; 7; 2; 0x401]) then
    sym ← unwrap (syms !! Z.to_nat e.2);
    if decide (sym.1 = 0) then (if (sym.2 : bool) then Panic else Ret false) else Ret true
  else if decide (e.1 ∈ [8; 3; 0x403]) then Ret true
  else Panic.

Fixpoint relocate_entries (syms : list (Z * bool)) (l : list (Z * Z)) : outcome bool :=
  match l with
  | [] => Ret true
  | e :: l => ok ← relocate_entry syms e; if (ok : bool) then relocate_entries syms l else Ret false
  end.

(** No relocation is applied; the base is the result. *)
Definition relocate (secs : Sections) (base : Z) : outcome (option Z) :=
  match secs ".rela.dyn" with
  | Some (Some (Rela64 entries)) =>
      match dynsym secs with
      | None => Ret None
      | Some syms => ok ← relocate_entries syms entries; Ret (if (ok : bool) then Some base else None)
      end
  | _ => Ret None
  end.

(** ** The kind of C library *)

Inductive LibcType := Musl | Glibc | Unknown.

Fixpoint is_prefix (n l : list Z) : bool :=
  match n, l with [], _ => true | x :: n, y :: l => bool_decide (x = y) && is_prefix n l | _, _ => false end.
Fixpoint contains_bytes (n l : list Z) : bool :=
  is_prefix n l || match l with [] => false | _ :: l => contains_bytes n l end.

(** [core::str::from_utf8] accepts the bytes. *)
Definition between (lo hi x : Z) : bool := bool_decide (lo ≤ x ≤ hi).
Fixpoint utf8 (l : list Z) : bool :=
  match l with
  | [] => true
  | x :: l =>
      if between 0 0x7f x then utf8 l
      else if between 0xc2 0xdf x then match l with y :: l => between 0x80 0xbf y && utf8 l | _ => false end
      else if between 0xe0 0xef x then
        match l with
        | y :: z :: l =>
            between (if decide (x = 0xe0) then 0xa0 else 0x80) (if decide (x = 0xed) then 0x9f else 0xbf) y && between 0x80 0xbf z && utf8 l
        | _ => false
        end
      else if between 0xf0 0xf4 x then
        match l with
        | y :: z :: u :: l =>
            between (if decide (x = 0xf0) then 0x90 else 0x80) (if decide (x = 0xf4) then 0x8f else 0xbf) y &&
            between 0x80 0xbf z && between 0x80 0xbf u && utf8 l
        | _ => false
        end
      else false
  end.

Definition detect_libc_type (c : bool) (b : list Z) : outcome LibcType :=
  o ← find_ph c b (is_type PInterp);
  match o with
  | None => Ret Unknown
  | Some header =>
      data ← raw_data b header;
      Ret (if utf8 data then
             if contains_bytes (str_bytes "musl") data then Musl
             else if contains_bytes (str_bytes "glibc") data || contains_bytes (str_bytes "ld-linux") data then Glibc
             else Unknown
           else Unknown)
  end.

(** ** The kernel's view of user memory *)

Section exec.
Context {FS : Type} `{FL : FrameSourceLaws FS} {F : Type}.
Context (file_read : F → Z → Z → result (list Z)) (file_size : F → result Z) (count : Z → nat).
Abbreviation Space := (AddrSpace (FS := FS) (F := F)).

(** A page fault of the kernel on a user address goes to the handler of user faults. *)
Definition kernel_fault (s : Space) (va : Z) : outcome Space :=
  r ← user_cow_int file_read (λ f, match file_size f with Ok n => Some n | Err _ => None end) count s 0 (0, 0) va; Ret (ft_space r).

(** The frame behind a user address the kernel may write to. *)
Definition writable_at (s : Space) (va : Z) : option Z :=
  match as_pt s !! page_floor va with Some (p, fl) => if writable fl then Some p else None | None => None end.

Definition set_byte (s : Space) (p va b : Z) : Space :=
  with_world s (mkWorld (w_frames (as_world s)) (mem_write (w_mem (as_world s)) (p + va mod PAGE_SIZE) [b])).

(** Storing a byte, after a page fault if need be. *)
Definition store_byte (s : Space) (va b : Z) : outcome Space :=
  match writable_at s va with
  | Some p => Ret (set_byte s p va b)
  | None => s ← kernel_fault s va; p ← unwrap (writable_at s va); Ret (set_byte s p va b)
  end.

Fixpoint store_bytes (s : Space) (va : Z) (data : list Z) : outcome Space :=
  match data with
  | [] => Ret s
  | b :: data => s ← store_byte s va b; store_bytes s (va + 1) data
  end.

(** What a user address holds. *)
Definition space_view (s : Space) (va : Z) : option Z :=
  match as_pt s !! page_floor va with Some (p, _) => Some (w_mem (as_world s) (p + va mod PAGE_SIZE)) | None => None end.

Definition read_view (s : Space) (va n : Z) : list (option Z) := (λ i, space_view s (va + i)) <$> seqZ 0 n.

#[export] Instance space_memory : UserMemory Space := { u_write := store_bytes; u_view := space_view }.

(** ** The task *)

Record ETask := mkETask { et_space : Space; et_cx : TrapFrame; et_entry : Z }.

Definition set_space_of (t : ETask) (s : Space) : ETask := mkETask s (et_cx t) (et_entry t).

(** A program kept in memory, [TaskCacheTemplate]. *)
Record TaskCacheTemplate := mkCache {
  tc_name : PathBuf; tc_entry : Z; tc_maps : list (MemArea F); tc_base : Z; tc_heap_bottom : Z; tc_ph_count : Z; tc_ph_entry_size : Z; tc_ph_addr : Z
}.

(** The privileged status register, read when a trap frame is made. *)
Context (sstatus : Z).
Definition TrapFrame_new : TrapFrame := mkTrap (replicate 32 0) sstatus 0 [0; 0].

(** The linkers set by the test runner. *)
Context (libc_path dyn_path : string).

Definition init_task_stack (t : ETask) (i : ProgInfo) (args : list string) : outcome ETask :=
  '(_, s) ← frame_alloc_area (et_space t) (USER_STACK_TOP - USER_STACK_INIT_SIZE) Stack (USER_STACK_INIT_SIZE / PAGE_SIZE);
  let s := mkSpace (as_memset s) (as_pt s) (pi_heap_bottom i) (as_shms s) (as_world s) in
  let cx := cx_set (cx_set TrapFrame_new SP USER_STACK_TOP) SEPC (pi_base i +u pi_entry i) in
  st ← init_stack (str_bytes libc_path) i (str_bytes <$> args) (mkSTask s cx);
  Ret (mkETask (st_mem st) (st_cx st) (pi_base i +u pi_entry i)).

(** The highest end of a segment, in whole pages: [max().unwrap().div_ceil(..).mul(..)]. *)
Definition heap_bottom (phs : list ProgramHeader) : outcome Z :=
  match (λ ph, ph_virtual_addr ph +u ph_mem_size ph) <$> phs with
  | [] => Panic
  | x :: l => Ret (div_ceil (foldl Z.max x l) PAGE_SIZE *u PAGE_SIZE)
  end.

(** [filter(|x| x.get_type().unwrap() == Load)]. *)
Definition load_headers (phs : list ProgramHeader) : outcome (list ProgramHeader) :=
  foldM (λ acc ph, ty ← unwrap (get_type ph); Ret (if decide (ty = PLoad) then acc ++ [ph] else acc)) phs [].

(** The pages a segment covers. *)
Definition seg_pages (virt_addr mem_size : Z) : Z := div_ceil (virt_addr +u mem_size) PAGE_SIZE -u virt_addr / PAGE_SIZE.

(** The slice [buffer[offset..offset + file_size]]. *)
Definition slice (data : list Z) (off len : Z) : outcome (list Z) :=
  let end_ := off +u len in
  if decide (off ≤ end_ ≤ Z.of_nat (length data)) then Ret (take (Z.to_nat (end_ - off)) (drop (Z.to_nat off) data)) else Panic.

(** One loadable segment, with the assertions that follow the copy. *)
Definition load_segment (data : list Z) (base : Z) (s : Space) (ph : ProgramHeader) : outcome Space :=
  let virt_addr := base +u ph_virtual_addr ph in
  '(o, s) ← frame_alloc_area s (page_floor virt_addr) Mmap (seg_pages virt_addr (ph_mem_size ph));
  ppn_start ← unwrap o;
  seg ← slice data (ph_off ph) (ph_file_size ph);
  s ← store_bytes s virt_addr seg;
  if decide (mem_read (w_mem (as_world s)) (ppn_start +u virt_addr mod PAGE_SIZE) (Z.to_nat (ph_file_size ph)) = seg ∧
             read_view s virt_addr (ph_file_size ph) = Some <$> seg) then Ret s else Panic.

(** [exec_with_process] for a program that is an ELF file without an interpreter. *)
Definition load_program (secs : Sections) (t : ETask) (path : PathBuf) (args : list string) (c : bool) (data : list Z) : outcome ETask :=
  phs ← program_iter c data;
  heap ← heap_bottom phs;
  o ← relocate secs USER_DYN_ADDR;
  let base := default 0 o in
  o ← get_ph_addr c data;
  t ← init_task_stack t (mkProg base (str_bytes (PathBuf_path path)) (entry_point c data) (ph_count c data) (ph_entry_size c data) (default 0 o) heap) args;
  loads ← load_headers phs;
  s ← foldM (load_segment data base) loads (et_space t);
  Ret (set_space_of t s).

(** [PageTable::restore] empties the user half of the table. *)
Definition restore (pt : PageTable) : PageTable := ∅.

(** The old program goes: every page is unmapped, the areas are dropped (with the write-back of
    shared files) and their frames released; then the table is reset. *)
Definition clear_space (s : Space) : outcome Space :=
  let pt := foldl (λ pt x, unmap_page pt (vaddr x)) (as_pt s) (concat (mtrackers <$> as_memset s)) in
  _ ← foldM (λ wbs a, wb ← area_drop count a; Ret (wbs ++ wb)) (as_memset s) [];
  w ← release count (as_world s) (concat (mtrackers <$> as_memset s));
  Ret (mkSpace (set_clear (as_memset s)) (restore pt) (as_heap s) (as_shms s) w).

(** A cached program: its pages are shared read-only. *)
Definition map_cached (s : Space) (a : MemArea F) : outcome Space :=
  s ← space_sub count s (astart a) (astart a +u alen a);
  let s := push_area s a in
  pt ← foldM (λ pt x, task_map pt (tracker x) (vaddr x) URX) (mtrackers a) (as_pt s);
  Ret (with_pt s pt).

Definition exec_cached (t : ETask) (path : PathBuf) (args : list string) (c : TaskCacheTemplate) : outcome ETask :=
  t ← init_task_stack t (mkProg (tc_base c) (str_bytes (PathBuf_path path)) (tc_entry c) (tc_ph_count c) (tc_ph_entry_size c) (tc_ph_addr c)
                           (tc_heap_bottom c)) args;
  s ← foldM map_cached (tc_maps c) (et_space t);
  Ret (set_space_of t s).

(** The frames of the file buffer are returned. *)
Definition drop_buffer (frames : list Z) (t : ETask) : outcome ETask :=
  w ← drop_trackers (as_world (et_space t)) frames; Ret (set_space_of t (with_world (et_space t) w)).

(** Arguments for the dynamic linker. *)
Definition linker_args (linker : string) (path : PathBuf) (args : list string) : list string :=
  linker :: PathBuf_path path :: drop 1 args.

(** Files by path and the section table of a file's bytes. *)
Context (open : PathBuf → result F) (sections : list Z → Sections).

(** Outcomes under a recursion that may not end. *)
Definition obind {A B} (o : outcome A) (k : A → option (outcome B)) : option (outcome B) := match o with Ret a => k a | Panic => Some Panic end.

(** What is done with the read buffer: start the shell, the dynamic linker, or load. *)
Inductive Plan := RunShell | RunLinker | RunStatic (c : bool).

Definition plan_for (data : list Z) : outcome Plan :=
  match ElfFile_new data with
  | None => Ret RunShell
  | Some c =>
      o ← find_ph c data (is_type PInterp);
      match o with
      | Some header => _ ← raw_data data header; Ret RunLinker
      | None => Ret (RunStatic c)
      end
  end.

(** Which linker: the file buffer has been dropped, and is read as its frames are now. *)
Definition choose_linker (data now : list Z) : outcome string :=
  ty ← detect_libc_type (default true (ElfFile_new data)) now;
  Ret (match ty with Musl => libc_path | Glibc => dyn_path | Unknown => dyn_path end).

(** The buffer for the file, filled: its frames, the first of them, its bytes. *)
Definition read_file (t : ETask) (f : F) : outcome (result (list Z * Z * list Z) * ETask) :=
  match file_size f with
  | Err e => Ret (Err e, t)
  | Ok size =>
      let w := as_world (et_space t) in
      '(o, fs) ← frame_alloc_much (w_frames w) (div_ceil size PAGE_SIZE);
      frames ← unwrap o;
      first ← unwrap (frames !! 0%nat);
      let t := set_space_of t (with_world (et_space t) (mkWorld fs (w_mem w))) in
      match file_read f 0 size with
      | Err e => t ← drop_buffer frames t; Ret (Err e, t)
      | Ok data =>
          if decide (Z.of_nat (length data) ≠ size) then Panic
          else Ret (Ok (frames, first, data), set_space_of t (with_world (et_space t) (mkWorld fs (mem_write (w_mem w) first data))))
      end
  end.

(** [None] is out of fuel. *)
Fixpoint exec_with_process (fuel : nat) (caches : list TaskCacheTemplate) (t : ETask) (curr_dir : PathBuf) (path : string) (args : list string)
    : option (outcome (result unit * ETask)) :=
  match fuel with
  | O => None
  | S fuel =>
      let path := PathBuf_join curr_dir path in
      obind (clear_space (et_space t)) (λ s,
      let t := set_space_of t s in
      match List.find (λ c, bool_decide (tc_name c = path)) caches with
      | Some c => Some (t ← exec_cached t path args c; Ret (Ok tt, t))
      | None =>
          match open path with
          | Err e => Some (Ret (Err e, t))
          | Ok f =>
              obind (read_file t f) (λ '(r, t),
              match r with
              | Err e => Some (Ret (Err e, t))
              | Ok (frames, first, data) =>
                  obind (plan_for data) (λ plan,
                  match plan with
                  | RunShell =>
                      match exec_with_process fuel caches t curr_dir "busybox" (["busybox"; "sh"] ++ args) with
                      | Some o => Some ('(r, t) ← o; t ← drop_buffer frames t; Ret (r, t))
                      | None => None
                      end
                  | RunLinker =>
                      obind (drop_buffer frames t) (λ t,
                      obind (choose_linker data (mem_read (w_mem (as_world (et_space t))) first (length data))) (λ linker,
                      exec_with_process fuel caches t curr_dir linker (linker_args linker path args)))
                  | RunStatic c => Some (t ← load_program (sections data) t path args c data; t ← drop_buffer frames t; Ret (Ok tt, t))
                  end)
              end)
          end
      end)
  end.

(** [sys_execve]: [None] stands for text that is not UTF-8.  The environment is decoded and
    then not used; [/bin/true] is not run but ends the task ([exit], modelled with the
    processes). *)
Definition sys_execve (exit : Z → ETask → ETask) (fuel : nat) (caches : list TaskCacheTemplate) (t : ETask) (curr_dir : PathBuf)
    (filename : option string) (args envp : list (option string)) : option (outcome (result Z * ETask)) :=
  match filename with
  | None => Some (Ret (Err EINVAL, t))
  | Some filename =>
      obind (foldM (λ acc a, x ← unwrap a; Ret (acc ++ [x])) args []) (λ args,
      obind (foldM (λ acc a, x ← unwrap a; Ret (acc ++ [x])) envp []) (λ _,
      if decide (filename = "/bin/true") then Some (Ret (Ok 0, exit 0 t))
      else
        match exec_with_process fuel caches t curr_dir filename args with
        | Some (Ret (Ok _, t)) => Some (Ret (Ok 0, t))
        | Some (Ret (Err e, t)) => Some (Ret (Err e, t))
        | Some Panic => Some Panic
        | None => None
        end))
  end.

(** One segment of a program put in the cache: frames of its own, filled through their
    physical addresses. *)
Definition cache_segment (data : list Z) (base : Z) (acc : list (MemArea F) * World FS) (ph : ProgramHeader) : outcome (list (MemArea F) * World FS) :=
  let '(maps, w) := acc in
  let virt_addr := base +u ph_virtual_addr ph in
  let vpn := virt_addr / PAGE_SIZE in
  let page_count := seg_pages virt_addr (ph_mem_size ph) in
  '(o, fs) ← frame_alloc_much (w_frames w) page_count;
  pages ← unwrap o;
  first ← unwrap (pages !! 0%nat);
  seg ← slice data (ph_off ph) (ph_file_size ph);
  let trackers := imap (λ i x, mkTrack ((vpn +u Z.of_nat i) *u PAGE_SIZE) x 0) pages in
  Ret (maps ++ [mkArea Mmap trackers None 0 (vpn *u PAGE_SIZE) (page_count *u PAGE_SIZE)],
       mkWorld fs (mem_write (w_mem w) (first +u virt_addr mod PAGE_SIZE) seg)).

Definition cache_program (path : PathBuf) (data : list Z) (caches : list TaskCacheTemplate) (w : World FS)
    : outcome (list TaskCacheTemplate * World FS) :=
  match ElfFile_new data with
  | None => Ret (caches, w)
  | Some c =>
      o ← find_ph c data (is_type PInterp);
      match o with
      | Some _ => Panic
      | None =>
          phs ← program_iter c data;
          heap ← heap_bottom phs;
          o ← relocate (sections data) USER_DYN_ADDR;
          let base := default 0 o in
          loads ← load_headers phs;
          '(maps, w) ← foldM (cache_segment data base) loads ([], w);
          o ← get_ph_addr c data;
          Ret (caches ++ [mkCache path (entry_point c data) maps base heap (ph_count c data) (ph_entry_size c data) (default 0 o)], w)
      end
  end.

Definition cache_task_template (path : PathBuf) (caches : list TaskCacheTemplate) (w : World FS)
    : outcome (result unit * list TaskCacheTemplate * World FS) :=
  match open path with
  | Err e => Ret (Err e, caches, w)
  | Ok f =>
      match file_size f with
      | Err e => Ret (Err e, caches, w)
      | Ok size =>
          '(o, fs) ← frame_alloc_much (w_frames w) (div_ceil size PAGE_SIZE);
          frames ← unwrap o;
          first ← unwrap (frames !! 0%nat);
          match file_read f 0 size with
          | Err e => w ← drop_trackers (mkWorld fs (w_mem w)) frames; Ret (Err e, caches, w)
          | Ok data =>
              if decide (Z.of_nat (length data) ≠ size) then Panic
              else
                '(caches, w) ← cache_program path data caches (mkWorld fs (mem_write (w_mem w) first data));
                w ← drop_trackers w frames; Ret (Ok tt, caches, w)
          end
      end
  end.
End exec.
