(* ===== verification/ExecLoad.v ===== *)
(** * Correctness of program loading

    The theorems about Exec: user memory written through a page table obeys the laws of
    [UserMemory]; allocation maps zeroed pages; a segment and then a whole program appear in
    memory as the file says, with the stack of UserStack; and the failures of exec. *)

From S2P Require Import Prelude Frame Signal Path Memory MemSet FdTable Mm Cow SigFrame UserStack Exec.

(** ** User memory through the page table *)

Section theory.
Context {FS : Type} `{FL : FrameSourceLaws FS} {F : Type}.
Context (file_read : F → Z → Z → result (list Z)) (file_size : F → result Z) (count : Z → nat).
Abbreviation Space := (AddrSpace (FS := FS) (F := F)).
Implicit Types (s : Space) (B : gset Z).

#[local] Instance the_memory : UserMemory Space := space_memory file_read file_size count.

(** Every page is mapped writable on an allocated frame of its own, and on none of [B]. *)
Record mapped_ok B s : Prop := {
  mo_world : world_ok (as_world s);
  mo_aligned : ∀ v e, as_pt s !! v = Some e → v mod PAGE_SIZE = 0;
  mo_held : ∀ p, p ∈ B → p ∈ managed_frames (w_frames (as_world s)) ∧ p ∉ free_frames (w_frames (as_world s));
  mo_pt : ∀ v p fl, as_pt s !! v = Some (p, fl) → (writable fl = true) ∧ p ∈ managed_frames (w_frames (as_world s)) ∧
            (p ∉ free_frames (w_frames (as_world s))) ∧ p ∉ B;
  mo_inj : ∀ v v' p fl fl', as_pt s !! v = Some (p, fl) → as_pt s !! v' = Some (p, fl') → v = v';
}.

Lemma mapped_aligned B s v p fl : mapped_ok B s → as_pt s !! v = Some (p, fl) → p mod PAGE_SIZE = 0.
Proof. intros Hs Hv. destruct (mo_pt B s Hs v p fl Hv) as (_ & Hm & _). apply (managed_aligned _ p (proj1 (mo_world B s Hs)) Hm). Qed.

Lemma view_writable B s va : mapped_ok B s → is_Some (space_view s va) → ∃ p fl, as_pt s !! page_floor va = Some (p, fl) ∧ writable_at s va = Some p.
Proof.
  intros Hs [b Hb]. unfold space_view in Hb. destruct (as_pt s !! page_floor va) as [[p fl]|] eqn:E; [|done]. exists p, fl. split; [done|].
  unfold writable_at. rewrite E. by rewrite (proj1 (mo_pt B s Hs _ _ _ E)).
Qed.

Lemma set_byte_ok B s p fl va b : mapped_ok B s → as_pt s !! page_floor va = Some (p, fl) →
  mapped_ok B (set_byte s p va b) ∧ ∀ x, space_view (set_byte s p va b) x = if decide (x = va) then Some b else space_view s x.
Proof.
  intros Hs Hp. destruct (mo_pt B s Hs _ _ _ Hp) as (_ & Hm & Hf & _). split.
  - destruct Hs as [Hw Hal Hh Hpt Hi]. split; cbn [set_byte with_world as_world as_pt w_frames]; [|done..].
    apply world_ok_store; [done..|]. apply mod_page_range.
  - intros x. unfold space_view, set_byte. cbn [with_world as_pt as_world w_mem]. destruct (as_pt s !! page_floor x) as [[q fq]|] eqn:Eq.
    + rewrite mem_write_one. destruct (decide (x = va)) as [->|Hne].
      * rewrite Hp in Eq. injection Eq as <- <-. by rewrite decide_True.
      * rewrite decide_False; [done|]. intros E. apply Hne.
        destruct (page_offset_inj q p (x mod PAGE_SIZE) (va mod PAGE_SIZE)) as [-> Em]; [by eapply mapped_aligned..|apply mod_page_range|apply mod_page_range|done|].
        pose proof (mo_inj B s Hs _ _ _ _ _ Eq Hp). destruct (page_floor_spec x) as (_ & _ & ->). destruct (page_floor_spec va) as (_ & _ & ->). congruence.
    + case_decide as E; [|done]. subst. congruence.
Qed.

(** What stays the same when bytes are stored. *)
Record same_tables s s' : Prop := {
  sm_memset : as_memset s' = as_memset s; sm_pt : as_pt s' = as_pt s; sm_heap : as_heap s' = as_heap s; sm_shms : as_shms s' = as_shms s;
  sm_frames : w_frames (as_world s') = w_frames (as_world s);
}.

Lemma store_bytes_ok B data : ∀ s va, mapped_ok B s →
  (∀ x, va ≤ x < va + Z.of_nat (length data) → is_Some (space_view s x)) →
  ∃ s', store_bytes file_read file_size count s va data = Ret s' ∧ mapped_ok B s' ∧ same_tables s s' ∧
    ∀ x, space_view s' x = if decide (va ≤ x < va + Z.of_nat (length data)) then data !! Z.to_nat (x - va) else space_view s x.
Proof.
  induction data as [|b data IH]; intros s va Hs Hv.
  { exists s. split_and!; [done|done|by split|]. intros x. rewrite decide_False by (cbn; lia). done. }
  cbn [length] in *. destruct (view_writable B s va Hs) as (p & fl & Hp & Hw); [apply Hv; lia|].
  destruct (set_byte_ok B s p fl va b Hs Hp) as [Hs1 Hv1].
  destruct (IH (set_byte s p va b) (va + 1) Hs1) as (s2 & E2 & Hs2 & Ht2 & Hv2).
  { intros x Hx. rewrite Hv1. case_decide; [done|]. apply Hv. lia. }
  exists s2. split_and!; [|done|by destruct Ht2|].
  - cbn [store_bytes]. unfold store_byte. rewrite Hw. step_ret. exact E2.
  - intros x. rewrite Hv2, Hv1. destruct (decide (x = va)) as [->|Hne].
    + rewrite decide_False, decide_True by lia. by rewrite Z.sub_diag.
    + repeat case_decide; try lia; [|done]. replace (Z.to_nat (x - va)) with (S (Z.to_nat (x - (va + 1)))) by lia. done.
Qed.

(** A page table with these properties is user memory; stores keep the frames and the break. *)
#[local] Program Instance the_memory_laws B (fs : FS) (h : Z) : UserMemoryLaws Space :=
  { u_ok s := mapped_ok B s ∧ w_frames (as_world s) = fs ∧ as_heap s = h }.
Next Obligation.
  intros B fs h s a data (Hs & Hf & Hh) _ _ Hv. destruct (store_bytes_ok B data s a Hs Hv) as (s' & E & Hs' & Ht & Hx). exists s'.
  split_and!; [done|done|by rewrite (sm_frames _ _ Ht)|by rewrite (sm_heap _ _ Ht)|done].
Qed.

(** ** Allocation maps zeroed pages *)

(** The tables after an allocation of [cnt] pages at [va] on the frames from [a]. *)
Record allocated B s va cnt a fs s' : Prop := {
  al_ok : mapped_ok B s';
  al_frames : w_frames (as_world s') = fs;
  al_heap : as_heap s' = as_heap s;
  al_pt : ∀ x, va ≤ x < va + cnt * PAGE_SIZE → as_pt s' !! page_floor x = Some (a + (page_floor x - va), URWX);
  al_view : ∀ x, space_view s' x = if decide (va ≤ x < va + cnt * PAGE_SIZE) then Some 0 else space_view s x;
}.

Lemma page_floor_range va cnt x : va mod PAGE_SIZE = 0 →
  va ≤ page_floor x < va + cnt * PAGE_SIZE ↔ va ≤ x < va + cnt * PAGE_SIZE.
Proof.
  intros Hva. destruct (page_floor_spec x) as (Hm & Hb & _). pose proof (page_div_mul va Hva). pose proof (page_div_mul _ Hm). unfold PAGE_SIZE in *. lia.
Qed.

(** Mapping consecutive frames at consecutive pages. *)
Lemma map_run_lookup (pt : PageTable) va a cnt : va mod PAGE_SIZE = 0 → a mod PAGE_SIZE = 0 → 0 < va → 0 ≤ cnt → va + cnt * PAGE_SIZE < USIZE →
  ∃ pt', foldM (λ pt x, task_map pt (tracker x) (vaddr x) URWX) (filter (λ x, vaddr x ≠ 0) (make_trackers va (frames_from a cnt))) pt = Ret pt' ∧
    ∀ v, pt' !! v = if decide (v mod PAGE_SIZE = 0 ∧ va ≤ v < va + cnt * PAGE_SIZE) then Some (a + (v - va), URWX) else pt !! v.
Proof.
  intros Hva Ha Hpos Hc Hu.
  assert (El : make_trackers va (frames_from a cnt) = (λ i, mkTrack (va + i * PAGE_SIZE) (a + i * PAGE_SIZE) 0) <$> seqZ 0 cnt).
  { apply list_eq. intros i. unfold make_trackers, frames_from. rewrite list_lookup_imap, !list_lookup_fmap.
    destruct (seqZ 0 cnt !! i) as [k|] eqn:E; [|done]. apply lookup_seqZ in E as [-> Hi]. cbn. rewrite decide_False by lia.
    unfold PAGE_SIZE in *. by rewrite (wrap_small (Z.of_nat i * _)), wrap_small by (unfold is_usize, USIZE in *; lia). }
  rewrite El, list_filter_all by (intros x (i & -> & Hi)%list_elem_of_fmap; apply elem_of_seqZ in Hi; cbn; unfold PAGE_SIZE; lia). clear El.
  destruct (Z_of_nat_complete cnt Hc) as (n & ->). clear Hc. induction n as [|n IH].
  { exists pt. split; [done|]. intros v. by rewrite decide_False by lia. }
  destruct IH as (pt1 & E & Hpt); [unfold PAGE_SIZE in *; lia|]. rewrite seqZ_S, fmap_app, foldM_app, E. step_ret. cbn [fmap list_fmap foldM tracker vaddr].
  unfold task_map. rewrite decide_True by (split; rewrite Z.mod_add; done). eexists. split; [done|]. intros v.
  destruct (decide (v = va + (0 + Z.of_nat n) * PAGE_SIZE)) as [->|Hne].
  - rewrite lookup_insert_eq, decide_True by (split; [by rewrite Z.mod_add|unfold PAGE_SIZE; lia]). f_equal. f_equal. lia.
  - rewrite lookup_insert_ne by done. rewrite Hpt. destruct (decide (v mod PAGE_SIZE = 0)) as [Hv|Hv]; [|by rewrite !decide_False by naive_solver].
    pose proof (page_div_mul v Hv). pose proof (page_div_mul va Hva). repeat case_decide; try done; unfold PAGE_SIZE in *; lia.
Qed.

Lemma frames_from_elem a n p : 0 ≤ n → p ∈ frames_from a n ↔ ∃ i, p = a + i * PAGE_SIZE ∧ 0 ≤ i < n.
Proof. intros Hn. unfold frames_from. rewrite list_elem_of_fmap. setoid_rewrite elem_of_seqZ. naive_solver lia. Qed.

(** The run of frames granted to a request. *)
Lemma granted_run (fs fs' : FS) n frames : source_ok fs → 0 < n → frame_alloc_much fs n = Ret (Some frames, fs') →
  ∃ a, frames = frames_from a n ∧ frames !! 0%nat = Some a ∧ a mod PAGE_SIZE = 0 ∧ is_usize (a + (n - 1) * PAGE_SIZE) ∧ 0 ≤ a ∧ source_ok fs' ∧
    managed_frames fs' = managed_frames fs ∧ free_frames fs' = free_frames fs ∖ list_to_set frames ∧
    ∀ i, 0 ≤ i < n → a + i * PAGE_SIZE ∈ free_frames fs.
Proof.
  intros Hok Hn E. destruct (frame_alloc_much_law fs n Hok ltac:(lia)) as (o & fs2 & E2 & Hok2 & Hm & Ho). rewrite E in E2. injection E2 as <- <-.
  destruct Ho as ((a & ->) & Hsub & Hf).
  assert (Hfree : ∀ i, 0 ≤ i < n → a + i * PAGE_SIZE ∈ free_frames fs).
  { intros i Hi. apply Hsub, elem_of_list_to_set, frames_from_elem; [lia|]. by exists i. }
  exists a. pose proof (Hfree 0 ltac:(lia)) as H0. pose proof (Hfree (n - 1) ltac:(lia)) as H1. rewrite Z.mul_0_l, Z.add_0_r in H0.
  apply free_managed in H0, H1; [|done..]. destruct (managed_aligned _ _ Hok H0) as [Hua Ha]. destruct (managed_aligned _ _ Hok H1) as [Hu1 _].
  split_and!; try done; [|apply Hua]. unfold frames_from. rewrite list_lookup_fmap, lookup_seqZ_lt by lia. cbn. f_equal. lia.
Qed.

(** The tables with a fresh run of frames. *)
Lemma fresh_pages B s va cnt a fs frames s' : mapped_ok B s → va mod PAGE_SIZE = 0 → 0 < cnt →
  frame_alloc_much (w_frames (as_world s)) cnt = Ret (Some frames, fs) → frames !! 0%nat = Some a →
  as_world s' = mkWorld fs (w_mem (as_world s)) → as_heap s' = as_heap s →
  (∀ v, as_pt s' !! v = if decide (v mod PAGE_SIZE = 0 ∧ va ≤ v < va + cnt * PAGE_SIZE) then Some (a + (v - va), URWX) else as_pt s !! v) →
  allocated B s va cnt a fs s'.
Proof.
  intros Hs Hva Hc E Ha Hw Hh Hpt. pose proof (mo_world B s Hs) as [Hok Hz].
  destruct (granted_run _ fs cnt frames Hok Hc E) as (a' & Ef & Ha' & Haa & Hu & Hge & Hok' & Hm & Hf & Hfree). rewrite Ha in Ha'. injection Ha' as <-.
  assert (Hin : ∀ v, v mod PAGE_SIZE = 0 → va ≤ v < va + cnt * PAGE_SIZE → a + (v - va) ∈ free_frames (w_frames (as_world s)) ∧ a + (v - va) ∈ frames).
  { intros v Hv Hb. pose proof (page_div_mul v Hv). pose proof (page_div_mul va Hva).
    replace (a + (v - va)) with (a + ((v / PAGE_SIZE - va / PAGE_SIZE) * PAGE_SIZE)) by lia.
    assert (0 ≤ v / PAGE_SIZE - va / PAGE_SIZE < cnt) by (unfold PAGE_SIZE in *; lia). split; [by apply Hfree|]. rewrite Ef. apply frames_from_elem; [lia|]. eauto. }
  assert (Hlk : ∀ v p fl, as_pt s' !! v = Some (p, fl) → v mod PAGE_SIZE = 0 ∧
    ((va ≤ v < va + cnt * PAGE_SIZE ∧ p = a + (v - va) ∧ fl = URWX) ∨ as_pt s !! v = Some (p, fl))).
  { intros v p fl Hv. rewrite Hpt in Hv. case_decide as Hd; [destruct Hd; simplify_eq; auto|]. split; [by eapply (mo_aligned B s Hs)|by right]. }
  assert (Hold : ∀ v p fl, as_pt s !! v = Some (p, fl) → p ∉ frames).
  { intros v p fl Hv Hp. destruct (mo_pt B s Hs v p fl Hv) as (_ & _ & Hnf & _). apply Hnf. rewrite Ef in Hp.
    apply frames_from_elem in Hp as (i & -> & Hi); [|lia]. by apply Hfree. }
  split; [split| | | |]; rewrite ?Hw; cbn [w_frames w_mem]; try done.
  - split; [done|]. cbn [w_frames w_mem]. intros p i Hp. apply Hz. rewrite Hf in Hp. set_solver.
  - intros v [p fl] Hv. by destruct (Hlk v p fl Hv).
  - intros p Hp. destruct (mo_held B s Hs p Hp) as [Hpm Hpf]. rewrite Hm, Hf. set_solver.
  - intros v p fl Hv. rewrite Hm, Hf. destruct (Hlk v p fl Hv) as [Hv0 [(Hb & -> & ->)|Ho]].
    + destruct (Hin v Hv0 Hb) as [H1 H2]. split_and!; [done|by apply free_managed|set_solver|]. intros HB. by destruct (mo_held B s Hs _ HB).
    + destruct (mo_pt B s Hs v p fl Ho) as (H1 & H2 & H3 & H4). split_and!; [done|done|set_solver|done].
  - intros v v' p fl fl' Hv Hv'. destruct (Hlk v p fl Hv) as [Hv0 Hc1]. destruct (Hlk v' p fl' Hv') as [Hv0' Hc2].
    destruct Hc1 as [(Hb & -> & ->)|Ho]; destruct Hc2 as [(Hb' & E' & ->)|Ho'].
    + lia.
    + destruct (Hold _ _ _ Ho'). apply Hin; done.
    + subst p. destruct (Hold _ _ _ Ho). apply Hin; done.
    + by eapply (mo_inj B s Hs).
  - intros x Hx. destruct (page_floor_spec x) as (Hx0 & _). rewrite Hpt. rewrite decide_True; [done|]. split; [done|]. by apply page_floor_range.
  - intros x. destruct (page_floor_spec x) as (Hx0 & _). unfold space_view. rewrite Hpt, Hw. cbn [w_mem]. destruct (decide (va ≤ x < va + cnt * PAGE_SIZE)) as [Hx|Hx].
    + rewrite decide_True by (split; [done|by apply page_floor_range]). f_equal. apply Hz; [|apply mod_page_range]. apply Hin; [done|by apply page_floor_range].
    + rewrite decide_False; [done|]. rewrite page_floor_range by done. naive_solver.
Qed.

Lemma frame_alloc_area_ok B s va ty cnt frames fs : mapped_ok B s → ty = Mmap ∨ ty = Stack → va mod PAGE_SIZE = 0 → 0 < va → 0 < cnt →
  va + cnt * PAGE_SIZE < USIZE → frame_alloc_much (w_frames (as_world s)) cnt = Ret (Some frames, fs) →
  ∃ a s', frame_alloc_area s va ty cnt = Ret (Some a, s') ∧ frames !! 0%nat = Some a ∧ allocated B s va cnt a fs s'.
Proof.
  intros Hs Hty Hva Hpos Hc Hu E. destruct (granted_run _ fs cnt frames (proj1 (mo_world B s Hs)) Hc E) as (a & Ef & Ha & Haa & _).
  destruct (map_run_lookup (as_pt s) va a cnt Hva Haa Hpos ltac:(lia) Hu) as (pt' & Ept & Hpt). rewrite <- Ef in Ept. exists a.
  assert (Hfl : alloc_flags ty = URWX) by (destruct Hty as [-> | ->]; done).
  assert (Hfresh : ∀ s', as_world s' = mkWorld fs (w_mem (as_world s)) → as_heap s' = as_heap s → as_pt s' = pt' → allocated B s va cnt a fs s').
  { intros s' Hw Hh Hp. eapply fresh_pages; try done. by rewrite Hp. }
  unfold frame_alloc_area. destruct (decide (ty = Mmap ∧ 1 < cnt)) as [_|_].
  - rewrite E. step_ret. assert (E0 : ∃ x, make_trackers va frames !! 0%nat = Some x ∧ tracker x = a).
    { unfold make_trackers. rewrite list_lookup_imap, Ha. by eexists. }
    destruct E0 as (x & -> & <-). cbn [unwrap]. step_ret. rewrite decide_True by lia. rewrite Hfl. unfold map_trackers. cbn [with_world as_pt]. rewrite Ept. step_ret.
    eexists. split; [done|]. split; [done|]. by apply Hfresh.
  - unfold map_frames. rewrite decide_False by lia. rewrite E. step_ret. rewrite decide_True by lia. rewrite Hfl. unfold map_trackers. cbn [with_world as_pt].
    rewrite Ept. step_ret. rewrite Ha. cbn [unwrap]. step_ret. eexists. split; [done|]. split; [done|].
    apply Hfresh; unfold add_area; destruct (decide (ty = Stack)); try done; cbn [as_memset with_pt with_world]; by destruct (extend_stack _ _).
Qed.

(** ** Segments *)

(** Where a loadable segment lies, and that it fits between the first page and [limit]. *)
Definition seg_start (base : Z) (ph : ProgramHeader) : Z := base + ph_virtual_addr ph.
Definition seg_first (base : Z) (ph : ProgramHeader) : Z := page_floor (seg_start base ph).
Definition seg_count (base : Z) (ph : ProgramHeader) : Z := seg_pages (seg_start base ph) (ph_mem_size ph).
Definition seg_last (base : Z) (ph : ProgramHeader) : Z := seg_first base ph + seg_count base ph * PAGE_SIZE.

Record seg_ok (size base limit : Z) (ph : ProgramHeader) : Prop := {
  so_start : 0 ≤ base ∧ 0 ≤ ph_virtual_addr ph ∧ PAGE_SIZE ≤ seg_start base ph;
  so_mem : 0 < ph_mem_size ph ∧ seg_start base ph + ph_mem_size ph ≤ limit ∧ limit + PAGE_SIZE < USIZE ∧ limit mod PAGE_SIZE = 0;
  so_file : 0 ≤ ph_off ph ∧ 0 ≤ ph_file_size ph ≤ ph_mem_size ph ∧ ph_off ph + ph_file_size ph ≤ size ∧ size < USIZE;
}.

(** The segment is in memory: the bytes of the file, then zeros to the end of its pages. *)
Definition seg_loaded (view : Z → option Z) (data : list Z) (base : Z) (ph : ProgramHeader) : Prop :=
  ∀ i, 0 ≤ i < ph_mem_size ph → view (seg_start base ph + i) =
    if decide (i < ph_file_size ph) then data !! Z.to_nat (ph_off ph + i) else Some 0.

Lemma seg_bounds size base limit ph : seg_ok size base limit ph →
  seg_first base ph mod PAGE_SIZE = 0 ∧ 0 < seg_first base ph ∧ 0 < seg_count base ph ∧
  seg_first base ph ≤ seg_start base ph ∧ seg_start base ph + ph_mem_size ph ≤ seg_last base ph ≤ limit.
Proof.
  intros [(H1 & H2 & H3) (H4 & H5 & H6 & H7) _]. destruct (page_floor_spec (seg_start base ph)) as (Hm & Hb & _).
  unfold seg_last, seg_count, seg_first, seg_pages. set (v := seg_start base ph) in *. set (e := v + ph_mem_size ph) in *.
  rewrite (wrap_small e) by (unfold is_usize, PAGE_SIZE in *; lia).
  destruct (div_ceil_bounds e PAGE_SIZE) as [He|[He _]]; [unfold PAGE_SIZE in *; lia|done| |unfold PAGE_SIZE in *; lia].
  pose proof (page_div_mul limit H7). unfold page_floor in *.
  assert (Hd : v / PAGE_SIZE < div_ceil e PAGE_SIZE) by (unfold PAGE_SIZE in *; lia).
  assert (Hl : div_ceil e PAGE_SIZE ≤ limit / PAGE_SIZE) by (unfold PAGE_SIZE in *; lia).
  assert (0 < v / PAGE_SIZE) by (unfold PAGE_SIZE in *; lia).
  rewrite wrap_small; [|unfold is_usize, PAGE_SIZE, USIZE in *; lia]. split_and!; try done; unfold PAGE_SIZE in *; lia.
Qed.

(** The slice of the file a segment is made of. *)
Lemma slice_ok data off len : 0 ≤ off → 0 ≤ len → off + len ≤ Z.of_nat (length data) → Z.of_nat (length data) < USIZE →
  ∃ seg, slice data off len = Ret seg ∧ Z.of_nat (length seg) = len ∧ ∀ i, 0 ≤ i < len → seg !! Z.to_nat i = data !! Z.to_nat (off + i).
Proof.
  intros Ho Hl Hb Hu. unfold slice. rewrite wrap_small by (unfold is_usize; lia). rewrite decide_True by lia. eexists. split; [done|].
  rewrite length_take, length_drop. split; [lia|]. intros i Hi. rewrite lookup_take_lt by lia. rewrite lookup_drop. f_equal. lia.
Qed.

Lemma load_segment_ok B s data base limit ph frames fs : mapped_ok B s → Z.of_nat (length data) < USIZE →
  seg_ok (Z.of_nat (length data)) base limit ph → frame_alloc_much (w_frames (as_world s)) (seg_count base ph) = Ret (Some frames, fs) →
  ∃ s', load_segment file_read file_size count data base s ph = Ret s' ∧ mapped_ok B s' ∧ w_frames (as_world s') = fs ∧ as_heap s' = as_heap s ∧
    seg_loaded (space_view s') data base ph ∧ ∀ x, ¬ (seg_first base ph ≤ x < seg_last base ph) → space_view s' x = space_view s x.
Proof.
  intros Hs Hd Hok E. destruct (seg_bounds _ _ _ _ Hok) as (Hfm & Hfp & Hc & Hfs & Hle). destruct Hok as [(H1 & H2 & H3) (H4 & H5 & H6 & H7) (F1 & F2 & F3 & F4)].
  assert (Ev : base +u ph_virtual_addr ph = seg_start base ph) by (apply wrap_small; unfold is_usize, seg_start, PAGE_SIZE in *; lia).
  destruct (frame_alloc_area_ok B s (seg_first base ph) Mmap (seg_count base ph) frames fs Hs) as (a & s1 & E1 & Ha & Hal);
    [by left|done|done|done|fold (seg_last base ph); unfold PAGE_SIZE in *; lia|done|].
  fold (seg_last base ph) in *. destruct Hal as [Hs1 Hf1 Hh1 Hp1 Hv1]. fold (seg_last base ph) in *.
  destruct (slice_ok data (ph_off ph) (ph_file_size ph)) as (seg & E2 & Hl & Hseg); [lia..|].
  destruct (store_bytes_ok B seg s1 (seg_start base ph) Hs1) as (s2 & E3 & Hs2 & Ht2 & Hv2); [intros x Hx; rewrite Hv1, decide_True by lia; done|].
  exists s2. split_and!; [|done|by rewrite (sm_frames _ _ Ht2)|by rewrite (sm_heap _ _ Ht2)| |].
  - unfold load_segment. rewrite Ev. change (page_floor (seg_start base ph)) with (seg_first base ph).
    change (seg_pages (seg_start base ph) (ph_mem_size ph)) with (seg_count base ph). rewrite E1. step_ret. cbn [unwrap]. step_ret. rewrite E2. step_ret. rewrite E3. step_ret.
    rewrite decide_True; [done|].
    assert (Hview : ∀ i, 0 ≤ i < ph_file_size ph → space_view s2 (seg_start base ph + i) = seg !! Z.to_nat i).
    { intros i Hi. rewrite Hv2, decide_True by lia. f_equal. lia. }
    destruct (granted_run _ fs _ frames (proj1 (mo_world B s Hs)) Hc E) as (a' & _ & Ha' & Haa & Hua & Hage & _). rewrite Ha in Ha'. injection Ha' as <-.
    assert (Hoff : a +u seg_start base ph mod PAGE_SIZE = a + (seg_start base ph - seg_first base ph)).
    { destruct (page_floor_spec (seg_start base ph)) as (_ & _ & Eq). fold (seg_first base ph) in Eq. pose proof (mod_page_range (seg_start base ph)).
      rewrite wrap_small; [lia|]. pose proof (page_div_mul a Haa). unfold is_usize, PAGE_SIZE, USIZE in *. lia. }
    rewrite Hoff. split; apply list_eq; intros i.
    + destruct (decide (i < Z.to_nat (ph_file_size ph))%nat) as [Hi|Hi].
      * rewrite lookup_mem_read by done. rewrite <- (Nat2Z.id i) at 2. rewrite <- (Hview (Z.of_nat i)) by lia. unfold space_view.
        rewrite (sm_pt _ _ Ht2), Hp1 by lia. do 2 f_equal. destruct (page_floor_spec (seg_start base ph + Z.of_nat i)) as (_ & _ & Eq). lia.
      * rewrite !lookup_ge_None_2; [done|lia|rewrite length_mem_read; lia].
    + unfold read_view. rewrite !list_lookup_fmap. destruct (decide (Z.of_nat i < ph_file_size ph)) as [Hi|Hi].
      * rewrite lookup_seqZ_lt by lia. cbn [fmap option_fmap option_map]. rewrite Z.add_0_l, Hview, Nat2Z.id by lia.
        destruct (lookup_lt_is_Some_2 seg i ltac:(lia)) as [b ->]. done.
      * rewrite lookup_seqZ_ge by lia. rewrite (lookup_ge_None_2 seg) by lia. done.
  - intros i Hi. rewrite Hv2. case_decide as Hd1; case_decide as Hd2; try lia.
    + replace (seg_start base ph + i - seg_start base ph) with i by lia. apply Hseg. lia.
    + rewrite Hv1, decide_True by lia. done.
  - intros x Hx. rewrite Hv2, decide_False by lia. rewrite Hv1, decide_False by lia. done.
Qed.

(** A frame source grants these requests one after the other. *)
Fixpoint grants (fs : FS) (l : list Z) : Prop :=
  match l with [] => True | n :: l => ∃ frames fs', frame_alloc_much fs n = Ret (Some frames, fs') ∧ grants fs' l end.

Definition seg_disjoint (base : Z) (ph ph' : ProgramHeader) : Prop := seg_last base ph ≤ seg_first base ph' ∨ seg_last base ph' ≤ seg_first base ph.

Lemma load_segments_ok B data base limit loads : ∀ s, mapped_ok B s → Z.of_nat (length data) < USIZE →
  Forall (seg_ok (Z.of_nat (length data)) base limit) loads → ForallOrdPairs (seg_disjoint base) loads →
  grants (w_frames (as_world s)) (seg_count base <$> loads) →
  ∃ s', foldM (load_segment file_read file_size count data base) loads s = Ret s' ∧ mapped_ok B s' ∧ as_heap s' = as_heap s ∧
    Forall (seg_loaded (space_view s') data base) loads ∧
    ∀ x, Forall (λ ph, ¬ (seg_first base ph ≤ x < seg_last base ph)) loads → space_view s' x = space_view s x.
Proof.
  induction loads as [|ph loads IH]; intros s Hs Hd Hok Hdis Hg.
  { exists s. split_and!; try done. }
  apply Forall_cons in Hok as [Hph Hok]. inversion Hdis as [|? ? Hfirst Hrest]; subst. rewrite fmap_cons in Hg. destruct Hg as (frames & fs & Eg & Hg).
  destruct (load_segment_ok B s data base limit ph frames fs Hs Hd Hph Eg) as (s1 & E1 & Hs1 & Hf1 & Hh1 & Hl1 & Hv1). rewrite <- Hf1 in Hg.
  destruct (IH s1 Hs1 Hd Hok Hrest Hg) as (s2 & E2 & Hs2 & Hh2 & Hl2 & Hv2).
  exists s2. split_and!; [cbn [foldM]; by rewrite E1|done|congruence| |].
  - constructor; [|done]. intros i Hi. rewrite <- (Hl1 i Hi). apply Hv2. eapply Forall_impl; [exact Hfirst|]. cbn. intros ph' Hdj.
    destruct (seg_bounds _ _ _ _ Hph) as (_ & _ & _ & ? & ? & _). unfold seg_disjoint in Hdj. lia.
  - intros x Hx. apply Forall_cons in Hx as [Hx1 Hx2]. rewrite Hv2, Hv1; done.
Qed.

(** ** The stack *)

Context (sstatus : Z) (libc_path dyn_path : string).
Definition stack_lo : Z := USER_STACK_TOP - USER_STACK_INIT_SIZE.
Definition stask_of (t : ETask (FS := FS) (F := F)) : STask Space := mkSTask (et_space t) (et_cx t).

Lemma init_task_stack_ok B t i args frames fs : mapped_ok B (et_space t) →
  frame_alloc_much (w_frames (as_world (et_space t))) 32 = Ret (Some frames, fs) →
  init_size (str_bytes libc_path) i (str_bytes <$> args) ≤ USER_STACK_INIT_SIZE → is_usize (pi_ph_count i) → is_usize (pi_ph_entry_size i) →
  ∃ t', init_task_stack file_read file_size count sstatus libc_path t i args = Ret t' ∧ mapped_ok B (et_space t') ∧
    w_frames (as_world (et_space t')) = fs ∧ as_heap (et_space t') = pi_heap_bottom i ∧ et_entry t' = pi_base i +u pi_entry i ∧
    cx_get (et_cx t') SEPC = pi_base i +u pi_entry i ∧
    sp_of (stask_of t') = USER_STACK_TOP - init_size (str_bytes libc_path) i (str_bytes <$> args) ∧
    program_stack (stask_of t') (str_bytes libc_path) i (str_bytes <$> args).
Proof.
  intros Hs E Hsz Hu1 Hu2. destruct (frame_alloc_area_ok B (et_space t) stack_lo Stack 32 frames fs Hs) as (a & s1 & E1 & _ & [Hs1 Hf1 _ _ Hv1]);
    [by right|done|done|done|done|done|]. change (stack_lo + 32 * PAGE_SIZE) with USER_STACK_TOP in Hv1.
  set (s2 := mkSpace (as_memset s1) (as_pt s1) (pi_heap_bottom i) (as_shms s1) (as_world s1)).
  set (cx := cx_set (cx_set (TrapFrame_new sstatus) SP USER_STACK_TOP) SEPC (pi_base i +u pi_entry i)).
  assert (Esp : sp_of (mkSTask s2 cx) = USER_STACK_TOP) by reflexivity.
  destruct (init_stack_spec (ML := the_memory_laws B fs (pi_heap_bottom i)) stack_lo (str_bytes libc_path) i (str_bytes <$> args) (mkSTask s2 cx))
    as (st & E2 & Hp & Hsp & Hst); [split| |done|done|].
  - cbn [st_mem u_ok the_memory_laws]. split_and!; [by destruct Hs1|done|done].
  - done.
  - rewrite Esp. done.
  - intros x Hx. rewrite Esp in Hx. cbn [st_mem u_view the_memory space_memory]. transitivity (space_view s1 x); [done|]. by rewrite Hv1, decide_True.
  - rewrite Esp. unfold stack_lo. lia.
  - destruct (pu_state _ _ _ Hp) as [(Hok & Hff & Hhh) _ _ _]. pose proof (pu_cx _ _ _ Hp) as Hcx.
    exists (mkETask (st_mem st) (st_cx st) (pi_base i +u pi_entry i)). split_and!; try done.
    + unfold init_task_stack. change (USER_STACK_TOP - USER_STACK_INIT_SIZE) with stack_lo. change (USER_STACK_INIT_SIZE / PAGE_SIZE) with 32. rewrite E1.
      step_ret. fold s2 cx. unfold the_memory in E2. rewrite E2. done.
    + cbn [et_cx]. rewrite Hcx, cx_get_set_ne by done. reflexivity.
Qed.

(** ** A static program *)

Lemma le_at_range b off n : Forall (λ x, 0 ≤ x < 256) b → 0 ≤ le_at b off n < 256 ^ Z.of_nat n.
Proof.
  intros Hb. unfold le_at. assert (Hl : (length (take n (drop (Z.to_nat off) b)) ≤ n)%nat) by (rewrite length_take; lia).
  assert (Hf : Forall (λ x, 0 ≤ x < 256) (take n (drop (Z.to_nat off) b))) by (by apply Forall_take, Forall_drop).
  revert n Hl Hf. generalize (drop (Z.to_nat off) b). intros l n. generalize (take n l). clear l. intros l. revert n.
  induction l as [|x l IH]; intros n Hl Hf; cbn [foldr].
  { split; [lia|]. apply Z.pow_pos_nonneg; lia. }
  apply Forall_cons in Hf as [Hx Hf]. destruct n as [|n]; [cbn in Hl; lia|]. cbn [length] in Hl. destruct (IH n ltac:(lia) Hf) as [H1 H2].
  rewrite Nat2Z.inj_succ, Z.pow_succ_r by lia. lia.
Qed.

(** What the loader finds in the bytes of a static program: its headers, the loadable ones,
    where it is placed, its break, the address of its headers. *)
Record static_elf (secs : Sections) (data : list Z) (c : bool) (phs loads : list ProgramHeader) (base heap ph_addr : Z) : Prop := {
  se_elf : ElfFile_new data = Some c;
  se_bytes : Forall (λ x, 0 ≤ x < 256) data;
  se_phs : program_iter c data = Ret phs;
  se_interp : find_ph c data (is_type PInterp) = Ret None;
  se_heap : heap_bottom phs = Ret heap;
  se_loads : load_headers phs = Ret loads;
  se_base : ∃ o, relocate secs USER_DYN_ADDR = Ret o ∧ base = default 0 o;
  se_ph_addr : ∃ o, get_ph_addr c data = Ret o ∧ ph_addr = default 0 o;
  se_segs : Forall (seg_ok (Z.of_nat (length data)) base stack_lo) loads;
  se_disjoint : ForallOrdPairs (seg_disjoint base) loads;
}.

Definition prog_info (data : list Z) (c : bool) (base heap ph_addr : Z) (path : PathBuf) : ProgInfo :=
  mkProg base (str_bytes (PathBuf_path path)) (entry_point c data) (ph_count c data) (ph_entry_size c data) ph_addr heap.

(** The program is in memory and its registers are set. *)
Record program_loaded (data : list Z) (loads : list ProgramHeader) (i : ProgInfo) (args : list string) (t : ETask (FS := FS) (F := F)) : Prop := {
  pl_segments : Forall (seg_loaded (space_view (et_space t)) data (pi_base i)) loads;
  pl_stack : program_stack (stask_of t) (str_bytes libc_path) i (str_bytes <$> args);
  pl_sp : sp_of (stask_of t) = USER_STACK_TOP - init_size (str_bytes libc_path) i (str_bytes <$> args);
  pl_pc : cx_get (et_cx t) SEPC = pi_base i +u pi_entry i;
  pl_heap : as_heap (et_space t) = pi_heap_bottom i;
}.

Lemma program_loaded_ext data loads i args t t' : et_cx t' = et_cx t → as_heap (et_space t') = as_heap (et_space t) →
  (∀ x, space_view (et_space t') x = space_view (et_space t) x) → program_loaded data loads i args t → program_loaded data loads i args t'.
Proof.
  intros Ecx Eh Ev [H1 H2 H3 H4 H5]. assert (Esp : sp_of (stask_of t') = sp_of (stask_of t)) by (unfold sp_of, stask_of; cbn; by rewrite Ecx).
  split; [|eapply program_stack_ext; [exact Esp|intros x _; exact (Ev x)|exact H2]|by rewrite Esp|by rewrite Ecx|congruence].
  eapply Forall_impl; [exact H1|]. intros ph Hl k Hk. by rewrite Ev, Hl.
Qed.

Lemma load_program_ok B secs t path args c data phs loads base heap ph_addr : static_elf secs data c phs loads base heap ph_addr →
  Z.of_nat (length data) < USIZE → mapped_ok B (et_space t) →
  grants (w_frames (as_world (et_space t))) (32 :: (seg_count base <$> loads)) →
  init_size (str_bytes libc_path) (prog_info data c base heap ph_addr path) (str_bytes <$> args) ≤ USER_STACK_INIT_SIZE →
  ∃ t', load_program file_read file_size count sstatus libc_path secs t path args c data = Ret t' ∧ mapped_ok B (et_space t') ∧
    program_loaded data loads (prog_info data c base heap ph_addr path) args t'.
Proof.
  intros [He Hby Hphs _ Hheap Hloads (ob & Hbase & ->) (op & Hpa & ->) Hsegs Hdis] Hd Hs (frames & fs & Eg & Hg) Hsz.
  set (i := prog_info data c (default 0 ob) heap (default 0 op) path) in *.
  assert (Hr : ∀ off n, (n ≤ 2)%nat → is_usize (le_at data off n)).
  { intros off n Hn. pose proof (le_at_range data off n Hby). assert (256 ^ Z.of_nat n ≤ 256 ^ 2) by (apply Z.pow_le_mono_r; lia). unfold is_usize, USIZE. lia. }
  destruct (init_task_stack_ok B t i args frames fs Hs Eg Hsz) as (t1 & E1 & Hs1 & Hf1 & Hh1 & _ & Hpc & Hsp & Hst);
    [unfold i; cbn; unfold ph_count; destruct c; by apply Hr|unfold i; cbn; unfold ph_entry_size; destruct c; by apply Hr|].
  rewrite <- Hf1 in Hg.
  destruct (load_segments_ok B data (default 0 ob) stack_lo loads (et_space t1) Hs1 Hd Hsegs Hdis Hg) as (s2 & E2 & Hs2 & Hh2 & Hl2 & Hv2).
  exists (set_space_of t1 s2). split_and!; [|done|].
  - unfold load_program. rewrite Hphs. step_ret. rewrite Hheap. step_ret. rewrite Hbase. step_ret. rewrite Hpa. step_ret.
    fold (prog_info data c (default 0 ob) heap (default 0 op) path). fold i. rewrite E1. step_ret. rewrite Hloads. step_ret. rewrite E2. done.
  - split; try done.
    + eapply program_stack_ext; [| |exact Hst]; [done|]. intros x Hx. apply Hv2. eapply Forall_impl; [exact Hsegs|]. intros ph Hph.
      destruct (seg_bounds _ _ _ _ Hph) as (_ & _ & _ & _ & _ & Hlim). rewrite Hsp in Hx. unfold stack_lo in *. lia.
    + cbn [set_space_of et_space]. congruence.
Qed.

(** ** The file buffer *)

Lemma mem_write_out m a data x : ¬ (a ≤ x < a + Z.of_nat (length data)) → mem_write m a data x = m x.
Proof. intros. unfold mem_write. by rewrite decide_False. Qed.

Lemma read_file_ok t f size data frames fs : world_ok (as_world (et_space t)) → as_pt (et_space t) = ∅ →
  file_size f = Ok size → 0 < size → file_read f 0 size = Ok data → Z.of_nat (length data) = size →
  frame_alloc_much (w_frames (as_world (et_space t))) (div_ceil size PAGE_SIZE) = Ret (Some frames, fs) →
  ∃ first t', read_file file_read file_size t f = Ret (Ok (frames, first, data), t') ∧ mapped_ok (list_to_set frames) (et_space t') ∧
    w_frames (as_world (et_space t')) = fs.
Proof.
  intros Hw Hpt Esz Hpos Er Hl E. pose proof Hw as [Hok Hz]. set (n := div_ceil size PAGE_SIZE) in *.
  assert (Hn : 0 < n ∧ size ≤ n * PAGE_SIZE) by (destruct (div_ceil_bounds size PAGE_SIZE) as [?|[? _]]; [lia|done|unfold n, PAGE_SIZE in *; lia|lia]).
  destruct (granted_run _ fs n frames Hok ltac:(lia) E) as (a & Ef & Ha & Haa & Hu & Hge & Hok' & Hm & Hf & Hfree).
  exists a. eexists. split; [|split].
  - unfold read_file. rewrite Esz. fold n. rewrite E. step_ret. cbn [unwrap]. step_ret. rewrite Ha. cbn [unwrap]. step_ret. rewrite Er.
    rewrite decide_False by (intros Hne; by apply Hne). done.
  - unfold set_space_of, with_world. cbn [et_space as_world as_pt w_frames w_mem]. split; cbn [as_world as_pt w_frames w_mem].
    + split; [done|]. cbn [w_frames w_mem]. intros p k Hp Hk. rewrite Hf in Hp. apply elem_of_difference in Hp as [Hp Hnin].
      rewrite mem_write_out; [by apply Hz|]. intros Hin. apply Hnin. rewrite Ef. apply elem_of_list_to_set, frames_from_elem; [lia|].
      destruct (managed_aligned _ p Hok (free_managed _ Hok _ Hp)) as [_ Hpa]. pose proof (page_div_mul p Hpa). pose proof (page_div_mul a Haa).
      exists (p / PAGE_SIZE - a / PAGE_SIZE). rewrite Hl in Hin. unfold PAGE_SIZE in *. lia.
    + rewrite Hpt. intros v e Hv. by rewrite lookup_empty in Hv.
    + intros p Hp. rewrite Hm, Hf. rewrite Ef in Hp. apply elem_of_list_to_set, frames_from_elem in Hp as (k & -> & Hk); [|lia].
      split; [apply free_managed; [done|by apply Hfree]|]. rewrite elem_of_difference. intros [_ Hnin]. apply Hnin.
      rewrite Ef. apply elem_of_list_to_set, frames_from_elem; [lia|]. eauto.
    + rewrite Hpt. intros v p fl Hv. by rewrite lookup_empty in Hv.
    + rewrite Hpt. intros v v' p fl fl' Hv. by rewrite lookup_empty in Hv.
  - done.
Qed.

Lemma drop_buffer_ok frames t : mapped_ok (list_to_set frames) (et_space t) →
  ∃ t', drop_buffer frames t = Ret t' ∧ mapped_ok ∅ (et_space t') ∧ et_cx t' = et_cx t ∧ as_heap (et_space t') = as_heap (et_space t) ∧
    (∀ x, space_view (et_space t') x = space_view (et_space t) x) ∧
    free_frames (w_frames (as_world (et_space t'))) = list_to_set frames ∪ free_frames (w_frames (as_world (et_space t))).
Proof.
  intros Hs. destruct (drop_trackers_ok frames (as_world (et_space t)) (mo_world _ _ Hs)) as (w & E & Hw & Hm & Hf & Hx).
  { intros p Hp. by apply (mo_held _ _ Hs). }
  exists (set_space_of t (with_world (et_space t) w)). split_and!; [unfold drop_buffer; by rewrite E| |done|done| |done].
  - unfold set_space_of, with_world. cbn [et_space]. split; cbn [as_world as_pt]; [done|by apply (mo_aligned _ _ Hs)|set_solver| |by apply (mo_inj _ _ Hs)].
    intros v p fl Hv. rewrite Hm, Hf. destruct (mo_pt _ _ Hs v p fl Hv) as (H1 & H2 & H3 & H4). split_and!; [done|done|set_solver|set_solver].
  - intros x. unfold space_view, set_space_of, with_world. cbn [et_space as_world as_pt]. destruct (as_pt (et_space t) !! page_floor x) as [[p fl]|] eqn:Ep; [|done].
    f_equal. apply Hx. intros q Hq Hin. destruct (mo_pt _ _ Hs _ _ _ Ep) as (_ & _ & _ & Hnin). apply Hnin, elem_of_list_to_set.
    assert (Hqm : q ∈ managed_frames (w_frames (as_world (et_space t)))) by (apply (mo_held _ _ Hs); by apply elem_of_list_to_set).
    pose proof (mod_page_range x). replace p with q; [done|]. apply (page_disjoint q p (p + x mod PAGE_SIZE)); [|by eapply mapped_aligned|done|lia].
    apply (managed_aligned _ q (proj1 (mo_world _ _ Hs)) Hqm).
Qed.

(** ** The ways through [exec_with_process] *)

Context (open : PathBuf → result F) (sections : list Z → Sections).
Abbreviation exec := (exec_with_process file_read file_size count sstatus libc_path dyn_path open sections).

Definition not_cached (caches : list (TaskCacheTemplate (F := F))) (path : PathBuf) : Prop := Forall (λ c, tc_name c ≠ path) caches.

Lemma not_cached_find caches path : not_cached caches path → List.find (λ c, bool_decide (tc_name c = path)) caches = None.
Proof. intros Hc. apply find_None_Forall. eapply Forall_impl; [exact Hc|]. intros c Hne. by apply bool_decide_eq_false_2. Qed.

(** The first steps, up to the decision what to do with the file. *)
Lemma exec_reads fuel caches t curr_dir path args s0 f size data frames fs : clear_space count (et_space t) = Ret s0 → world_ok (as_world s0) →
  not_cached caches (PathBuf_join curr_dir path) → open (PathBuf_join curr_dir path) = Ok f → file_size f = Ok size → 0 < size →
  file_read f 0 size = Ok data → Z.of_nat (length data) = size →
  frame_alloc_much (w_frames (as_world s0)) (div_ceil size PAGE_SIZE) = Ret (Some frames, fs) →
  ∃ first t1, frames !! 0%nat = Some first ∧ mapped_ok (list_to_set frames) (et_space t1) ∧ w_frames (as_world (et_space t1)) = fs ∧
    exec (S fuel) caches t curr_dir path args =
      obind (plan_for data) (λ plan,
        match plan with
        | RunShell =>
            match exec fuel caches t1 curr_dir "busybox" (["busybox"; "sh"] ++ args) with
            | Some o => Some ('(r, t) ← o; t ← drop_buffer frames t; Ret (r, t))
            | None => None
            end
        | RunLinker =>
            obind (drop_buffer frames t1) (λ t,
            obind (choose_linker libc_path dyn_path data (mem_read (w_mem (as_world (et_space t))) first (length data))) (λ linker,
            exec fuel caches t curr_dir linker (linker_args linker (PathBuf_join curr_dir path) args)))
        | RunStatic c =>
            Some (t ← load_program file_read file_size count sstatus libc_path (sections data) t1 (PathBuf_join curr_dir path) args c data;
                  t ← drop_buffer frames t; Ret (Ok tt, t))
        end).
Proof.
  intros Ec Hw Hnc Eo Es Hpos Er Hl Eg. set (t0 := set_space_of t s0).
  assert (Hpt : as_pt (et_space t0) = ∅).
  { unfold clear_space in Ec. destruct (foldM _ (as_memset (et_space t)) []) as [?|]; [|done]. cbn in Ec.
    destruct (release count _ _) as [w|]; [|done]. cbn in Ec. by injection Ec as <-. }
  destruct (read_file_ok t0 f size data frames fs Hw Hpt Es Hpos Er Hl Eg) as (first & t1 & E1 & Hs1 & Hf1).
  exists first, t1. split_and!; [|done|done|].
  - unfold read_file in E1. rewrite Es in E1. change (et_space t0) with s0 in E1. rewrite Eg in E1. cbn in E1. destruct (frames !! 0%nat) as [a|] eqn:Ea; [|done].
    cbn in E1. rewrite Er in E1. rewrite decide_False in E1 by (intros Hne; by apply Hne). by simplify_eq.
  - cbn [exec_with_process]. rewrite Ec. cbn [obind]. rewrite not_cached_find, Eo by done. fold t0. rewrite E1. done.
Qed.

Lemma zeros_no_headers c n : ph_count c (replicate n 0) = 0.
Proof.
  assert (E : ∀ off k, le_at (replicate n 0) off k = 0).
  { intros off k. unfold le_at. rewrite drop_replicate, take_replicate. induction (k `min` _)%nat as [|m IH]; [done|]. cbn [replicate foldr]. lia. }
  unfold ph_count. destruct c; apply E.
Qed.

(** The type of C library of a program whose buffer has been dropped. *)
Lemma dropped_buffer_unknown c n : detect_libc_type c (replicate n 0) = Ret Unknown.
Proof. unfold detect_libc_type, find_ph. by rewrite zeros_no_headers. Qed.

Lemma freed_buffer_zero w a n len : world_ok w → list_to_set (frames_from a n) ⊆ free_frames (w_frames w) → 0 ≤ n → Z.of_nat len ≤ n * PAGE_SIZE →
  mem_read (w_mem w) a len = replicate len 0.
Proof.
  intros [_ Hz] Hfree Hn Hl. apply list_eq. intros i. destruct (decide (i < len)%nat) as [Hi|Hi].
  - rewrite lookup_mem_read, lookup_replicate_2 by done. f_equal. pose proof (Z.div_mod (Z.of_nat i) PAGE_SIZE ltac:(done)) as Hd.
    pose proof (mod_page_range (Z.of_nat i)) as Hm. replace (a + Z.of_nat i) with (a + Z.of_nat i / PAGE_SIZE * PAGE_SIZE + Z.of_nat i mod PAGE_SIZE) by lia.
    apply Hz; [|done]. apply Hfree, elem_of_list_to_set, frames_from_elem; [done|]. exists (Z.of_nat i / PAGE_SIZE). unfold PAGE_SIZE in *. lia.
  - rewrite !lookup_ge_None_2; [done|rewrite length_replicate; lia|rewrite length_mem_read; lia].
Qed.
End theory.

(** ** The properties *)

(** What exec of a file needs: the old program could be cleared away, the path is not cached,
    and the file opens and is read whole. *)
Record exec_input {FS} `{FL : FrameSourceLaws FS} {F} (file_read : F → Z → Z → result (list Z)) (file_size : F → result Z) (count : Z → nat)
    (open : PathBuf → result F) (caches : list (TaskCacheTemplate (F := F))) (t : ETask (FS := FS) (F := F)) (curr_dir : PathBuf) (path : string)
    (s0 : AddrSpace (FS := FS) (F := F)) (data : list Z) : Prop := {
  ei_clear : clear_space count (et_space t) = Ret s0;
  ei_world : world_ok (as_world s0);
  ei_cache : not_cached caches (PathBuf_join curr_dir path);
  ei_file : ∃ f, open (PathBuf_join curr_dir path) = Ok f ∧ file_size f = Ok (Z.of_nat (length data)) ∧ file_read f 0 (Z.of_nat (length data)) = Ok data;
  ei_size : 0 < Z.of_nat (length data) < USIZE;
}.

(** C11: exec of a static program loads it: if the file is an ELF program whose loadable
    segments lie in disjoint pages below the stack, and the frame source can grant the file
    buffer, the stack and the segments, then exec succeeds; every byte of every segment is the
    byte of the file, or zero beyond the file's part; the stack holds the argument count, the
    arguments, the kernel's environment and the auxiliary vector where a C library looks for
    them; the program counter is the entry point, the break lies after the last segment, every
    page is mapped on a frame of its own, and free frames are zero again. *)
Theorem exec_loads_program {FS} `{FL : FrameSourceLaws FS} {F} (file_read : F → Z → Z → result (list Z)) (file_size : F → result Z) (count : Z → nat)
    (sstatus : Z) (libc_path dyn_path : string) (open : PathBuf → result F) (sections : list Z → Sections) fuel caches t curr_dir path args s0 data c phs loads
    base heap ph_addr :
  exec_input file_read file_size count open caches t curr_dir path s0 data →
  static_elf (sections data) data c phs loads base heap ph_addr →
  grants (w_frames (as_world s0)) (div_ceil (Z.of_nat (length data)) PAGE_SIZE :: 32 :: (seg_count base <$> loads)) →
  let i := prog_info data c base heap ph_addr (PathBuf_join curr_dir path) in
  init_size (str_bytes libc_path) i (str_bytes <$> args) ≤ USER_STACK_INIT_SIZE →
  ∃ t', exec_with_process file_read file_size count sstatus libc_path dyn_path open sections (S fuel) caches t curr_dir path args = Some (Ret (Ok tt, t')) ∧
    program_loaded file_read file_size count libc_path data loads i args t' ∧ mapped_ok ∅ (et_space t').
Proof.
  intros [Ec Hw Hnc (f & Eo & Es & Er) [Hpos Hu]] Hse (frames & fs & Eg & Hg) i Hsz.
  destruct (exec_reads file_read file_size count sstatus libc_path dyn_path open sections fuel caches t curr_dir path args s0 f (Z.of_nat (length data)) data frames fs)
    as (first & t1 & _ & Hs1 & Hf1 & ->); [done..|].
  rewrite <- Hf1 in Hg.
  destruct (load_program_ok file_read file_size count sstatus libc_path _ _ t1 (PathBuf_join curr_dir path) args c data phs loads base heap ph_addr Hse Hu Hs1 Hg Hsz)
    as (t2 & E2 & Hs2 & Hl2).
  destruct (drop_buffer_ok count frames t2 Hs2) as (t3 & E3 & Hs3 & Ecx & Eh & Ev & _).
  exists t3. split_and!; [|by eapply program_loaded_ext|done].
  unfold plan_for. rewrite (se_elf _ _ _ _ _ _ _ _ Hse), (se_interp _ _ _ _ _ _ _ _ Hse). cbn [mbind outcome_bind obind]. rewrite E2. step_ret. rewrite E3. done.
Qed.

(** Which dynamic linker runs: for a program that names an interpreter, exec continues with
    the path set as the dynamic linker, with that path, the program's path and the arguments
    after the first as its arguments, whatever C library the program names: the buffer with
    the program's headers is dropped, and cleared, before they are looked at. *)
Theorem exec_linker_fixed {FS} `{FL : FrameSourceLaws FS} {F} (file_read : F → Z → Z → result (list Z)) (file_size : F → result Z) (count : Z → nat)
    (sstatus : Z) (libc_path dyn_path : string) (open : PathBuf → result F) (sections : list Z → Sections) fuel caches t curr_dir path args s0 data :
  exec_input file_read file_size count open caches t curr_dir path s0 data → plan_for data = Ret RunLinker →
  grants (w_frames (as_world s0)) [div_ceil (Z.of_nat (length data)) PAGE_SIZE] →
  let exec := exec_with_process file_read file_size count sstatus libc_path dyn_path open sections in
  ∃ t', exec (S fuel) caches t curr_dir path args = exec fuel caches t' curr_dir dyn_path (dyn_path :: PathBuf_path (PathBuf_join curr_dir path) :: drop 1 args) ∧
    mapped_ok ∅ (et_space t').
Proof.
  intros [Ec Hw Hnc (f & Eo & Es & Er) [Hpos Hu]] Hplan (frames & fs & Eg & _) exec.
  destruct (exec_reads file_read file_size count sstatus libc_path dyn_path open sections fuel caches t curr_dir path args s0 f (Z.of_nat (length data)) data frames fs)
    as (first & t1 & Hfirst & Hs1 & Hf1 & E); [done..|].
  destruct (drop_buffer_ok count frames t1 Hs1) as (t2 & E2 & Hs2 & _ & _ & _ & Hfree).
  exists t2. split; [|done]. unfold exec. rewrite E, Hplan. cbn [obind]. rewrite E2. cbn [obind].
  set (n := div_ceil (Z.of_nat (length data)) PAGE_SIZE) in *.
  assert (Hn : 0 < n ∧ Z.of_nat (length data) ≤ n * PAGE_SIZE).
  { destruct (div_ceil_bounds (Z.of_nat (length data)) PAGE_SIZE) as [?|[? _]]; [lia|done|unfold n, PAGE_SIZE in *; lia|lia]. }
  destruct (granted_run count _ fs n frames (proj1 Hw) ltac:(lia) Eg) as (a & Ef & Ha & _). rewrite Hfirst in Ha. injection Ha as ->.
  rewrite (freed_buffer_zero count (as_world (et_space t2)) a n); [|apply Hs2|rewrite <- Ef, Hfree; set_solver|lia|lia].
  unfold choose_linker. rewrite dropped_buffer_unknown. done.
Qed.

(** C36: a failed exec has already destroyed the caller: when the file cannot be opened, execve
    returns the error to a program that has no memory areas and no mapped page left; and an
    empty file, for which no frame is allocated, panics the kernel. *)
Theorem exec_failure_destroys {FS} `{FL : FrameSourceLaws FS} {F} (file_read : F → Z → Z → result (list Z)) (file_size : F → result Z) (count : Z → nat)
    (sstatus : Z) (libc_path dyn_path : string) (open : PathBuf → result F) (sections : list Z → Sections) fuel caches t curr_dir path args s0 :
  clear_space count (et_space t) = Ret s0 → world_ok (as_world s0) → not_cached caches (PathBuf_join curr_dir path) →
  let exec := exec_with_process file_read file_size count sstatus libc_path dyn_path open sections in
  match open (PathBuf_join curr_dir path) with
  | Err e => ∃ t', exec (S fuel) caches t curr_dir path args = Some (Ret (Err e, t')) ∧ as_memset (et_space t') = [] ∧ as_pt (et_space t') = ∅ ∧
               et_cx t' = et_cx t
  | Ok f => file_size f = Ok 0 → exec (S fuel) caches t curr_dir path args = Some Panic
  end.
Proof.
  intros Ec Hw Hnc exec. unfold exec. cbn [exec_with_process]. rewrite Ec. cbn [obind]. rewrite not_cached_find by done.
  destruct (open (PathBuf_join curr_dir path)) as [f|e] eqn:Eo.
  - intros Es. unfold read_file. rewrite Es. change (div_ceil 0 PAGE_SIZE) with 0. cbn [set_space_of et_space].
    destruct (frame_alloc_much_law (w_frames (as_world s0)) 0 (proj1 Hw) ltac:(lia)) as (o & fs & -> & _ & _ & Ho). cbn [mbind outcome_bind].
    destruct o as [l|]; [|done]. destruct Ho as ((a & ->) & _). done.
  - eexists. split; [done|]. cbn [set_space_of et_space et_cx]. unfold clear_space in Ec. destruct (foldM _ (as_memset (et_space t)) []) as [?|]; [|done]. cbn in Ec.
    destruct (release count _ _) as [w|]; [|done]. cbn in Ec. by injection Ec as <-.
Qed.

(** A [busybox] that is no ELF file: exec of it never returns. *)
Theorem exec_shell_never_returns {FS} `{FL : FrameSourceLaws FS} {F} (file_read : F → Z → Z → result (list Z)) (file_size : F → result Z) (count : Z → nat)
    (sstatus : Z) (libc_path dyn_path : string) (open : PathBuf → result F) (sections : list Z → Sections) caches curr_dir f size data :
  not_cached caches (PathBuf_join curr_dir "busybox") → open (PathBuf_join curr_dir "busybox") = Ok f → file_size f = Ok size →
  file_read f 0 size = Ok data → ElfFile_new data = None →
  ∀ fuel t args, let r := exec_with_process file_read file_size count sstatus libc_path dyn_path open sections fuel caches t curr_dir "busybox" args in
    r = None ∨ r = Some Panic.
Proof.
  intros Hnc Eo Es Er He fuel. induction fuel as [|fuel IH]; intros t args; cbn zeta in *; [by left|]. cbn [exec_with_process].
  destruct (clear_space count (et_space t)) as [s|]; [|by right]. cbn [obind]. rewrite not_cached_find, Eo by done. unfold read_file. rewrite Es.
  destruct (frame_alloc_much _ _) as [[o fs]|]; [|by right]. cbn [mbind outcome_bind]. destruct o as [l|]; [|by right]. cbn [unwrap mbind outcome_bind].
  destruct (l !! 0%nat) as [first|]; [|by right]. cbn [unwrap mbind outcome_bind]. rewrite Er. case_decide; [by right|]. cbn [obind].
  unfold plan_for. rewrite He. cbn [obind]. edestruct IH as [E|E]; rewrite E; [by left|by right].
Qed.

(** ** Witnesses: a program of one segment, loaded into an empty machine *)

(** An ELF header, one program header, and four bytes of code. *)
Definition demo_elf (interp : bool) : list Z :=
  [0x7f; 0x45; 0x4c; 0x46; 2; 1; 1; 0; 0; 0; 0; 0; 0; 0; 0; 0; 2; 0; 0xf3; 0; 1; 0; 0; 0] ++ le64 0x10078 ++ le64 64 ++ le64 0 ++
  [0; 0; 0; 0; 64; 0; 56; 0; 1; 0; 0; 0; 0; 0; 0; 0] ++
  [if interp then 3 else 1; 0; 0; 0; 5; 0; 0; 0] ++ le64 0 ++ le64 0x10000 ++ le64 0x10000 ++ le64 124 ++ le64 200 ++ le64 0x1000 ++ [0x13; 0; 0; 0].
Definition demo_ph : ProgramHeader := mkPh 1 0 0x10000 124 200.

Definition demo_exec_frames : FrameAllocator := [mkRegion [0] 0x80000000 0x80040000].
Definition demo_exec_task : ETask (FS := FrameAllocator) (F := bool) :=
  mkETask (mkSpace [] ∅ 0 [] (mkWorld demo_exec_frames (λ _, 0))) (mkTrap (replicate 32 0) 0 0 [0; 0]) 0.

(** The files: a program in [/bin] and one that needs an interpreter; the rest is missing. *)
Definition demo_open (p : PathBuf) : result bool :=
  if decide (p = ["bin"; "hello"]) then Ok false else if decide (p = ["bin"; "dyn"]) then Ok true else Err ENOENT.
Definition demo_read (f : bool) (off len : Z) : result (list Z) := Ok (demo_elf f).
Definition demo_size (f : bool) : result Z := Ok 124.

Lemma demo_exec_frames_wf : fa_wf demo_exec_frames.
Proof.
  destruct (region_new_spec 0x80000000 0x80040000) as (r & E & Hwf & _); [lia|done|done|done|]. vm_compute in E. injection E as <-.
  constructor; [exact Hwf|constructor|constructor].
Qed.

Lemma demo_exec_world : world_ok (as_world (et_space demo_exec_task)).
Proof. split; [exact demo_exec_frames_wf|]. done. Qed.

Lemma demo_exec_input (f : bool) path : PathBuf_join [] path = ["bin"; if f then "dyn" else "hello"] →
  exec_input demo_read demo_size (λ _, 1%nat) demo_open [] demo_exec_task [] path (et_space demo_exec_task) (demo_elf f).
Proof.
  intros Hp. split.
  - vm_compute. reflexivity.
  - apply demo_exec_world.
  - constructor.
  - exists f. rewrite Hp. by destruct f.
  - by destruct f.
Qed.

Lemma demo_static : static_elf (λ _, None) (demo_elf false) true [demo_ph] [demo_ph] 0 0x11000 0x10040.
Proof.
  split.
  - vm_compute. reflexivity.
  - apply (bool_decide_unpack _). vm_compute. exact I.
  - vm_compute. reflexivity.
  - vm_compute. reflexivity.
  - vm_compute. reflexivity.
  - vm_compute. reflexivity.
  - exists None. split; vm_compute; reflexivity.
  - exists (Some 0x10040). split; vm_compute; reflexivity.
  - constructor; [|constructor]. split; (split_and!; apply (bool_decide_unpack _); vm_compute; exact I).
  - repeat constructor.
Qed.

Lemma exec_loads_program_witness : ∃ t',
  exec_with_process demo_read demo_size (λ _, 1%nat) 0 "/lib" "/lib/ld.so" demo_open (λ _ _, None) 1 [] demo_exec_task [] "/bin/hello" ["hello"; "x"] = Some (Ret (Ok tt, t')) ∧
  cx_get (et_cx t') SEPC = 0x10078 ∧ space_view (et_space t') 0x10078 = Some 0x13 ∧ space_view (et_space t') 0x1007c = Some 0.
Proof.
  destruct (exec_loads_program demo_read demo_size (λ _, 1%nat) 0 "/lib" "/lib/ld.so" demo_open (λ _ _, None) 0 [] demo_exec_task [] "/bin/hello" ["hello"; "x"]
    (et_space demo_exec_task) (demo_elf false) true [demo_ph] [demo_ph] 0 0x11000 0x10040) as (t' & E & Hl & _).
  - apply demo_exec_input. reflexivity.
  - exact demo_static.
  - do 3 (eexists _, _; split; [vm_compute; reflexivity|]). exact I.
  - apply (bool_decide_unpack _). vm_compute. exact I.
  - exists t'. split; [exact E|]. destruct Hl as [Hseg _ _ Hpc _]. apply Forall_cons in Hseg as [Hseg _]. split_and!.
    + rewrite Hpc. vm_compute. reflexivity.
    + exact (Hseg 120 ltac:(cbn; lia)).
    + exact (Hseg 124 ltac:(cbn; lia)).
Defined.

Lemma exec_linker_fixed_witness : ∃ t',
  exec_with_process demo_read demo_size (λ _, 1%nat) 0 "/musl" "/lib/ld.so" demo_open (λ _ _, None) 2 [] demo_exec_task [] "/bin/dyn" ["dyn"; "x"] =
  exec_with_process demo_read demo_size (λ _, 1%nat) 0 "/musl" "/lib/ld.so" demo_open (λ _ _, None) 1 [] t' [] "/lib/ld.so" ["/lib/ld.so"; "/bin/dyn"; "x"].
Proof.
  destruct (exec_linker_fixed demo_read demo_size (λ _, 1%nat) 0 "/musl" "/lib/ld.so" demo_open (λ _ _, None) 1 [] demo_exec_task [] "/bin/dyn" ["dyn"; "x"]
    (et_space demo_exec_task) (demo_elf true)) as (t' & E & _).
  - apply demo_exec_input. reflexivity.
  - vm_compute. reflexivity.
  - eexists _, _. split; [vm_compute; reflexivity|exact I].
  - exists t'. exact E.
Defined.

Lemma exec_failure_destroys_witness : ∃ t',
  exec_with_process demo_read demo_size (λ _, 1%nat) 0 "/lib" "/lib/ld.so" demo_open (λ _ _, None) 1 [] demo_exec_task [] "/bin/none" [] = Some (Ret (Err ENOENT, t')) ∧
  as_memset (et_space t') = [].
Proof.
  destruct (exec_failure_destroys demo_read demo_size (λ _, 1%nat) 0 "/lib" "/lib/ld.so" demo_open (λ _ _, None) 0 [] demo_exec_task [] "/bin/none" []
    (et_space demo_exec_task)) as (t' & E & Hm & _).
  - vm_compute. reflexivity.
  - exact demo_exec_world.
  - constructor.
  - exists t'. split; [exact E|exact Hm].
Defined.
