(* ===== verification/FileMap.v ===== *)
(** * Files mapped into memory

    Composes the mapping of files (Mm, kernel/src/syscall/mm.rs) with the page faults of the
    kernel on user addresses (Exec, Cow): [sys_mmap] reads the file through the address space
    of the caller.  The theorem says what a private mapping of a file shows; the example says
    what becomes of the permissions of a shared one. *)

From S2P Require Import Prelude Frame Path Vfs Pipe File Memory MemSet FdTable Mm Cow UserStack Exec ExecLoad.

Section file_map.
Context {FS : Type} `{FL : FrameSourceLaws FS} {F : Type}.
Context (file_read : F → Z → Z → result (list Z)) (file_size : F → result Z) (count : Z → nat).

(** [sys_mmap] with the kernel's stores at user addresses. *)
Definition mmap_file := sys_mmap count file_read (store_bytes file_read file_size count).
End file_map.

Lemma div_ceil_exact k b : 0 ≤ k → 0 < b → div_ceil (k * b) b = k.
Proof. intros Hk Hb. unfold div_ceil. by rewrite Z.mod_mul, Z.div_mul by lia. Qed.

Section theory.
Context {FS : Type} `{FL : FrameSourceLaws FS} {F : Type}.
Implicit Types s : AddrSpace (FS := FS) (F := F).

(** Areas that leave room for a mapping above all of them. *)
Definition areas_ok s : Prop :=
  Forall (λ a, area_ok a ∧ 0 < alen a ∧ (mtype a = Stack → astart a + alen a ≤ MAP_AREA_START)) (as_memset s) ∧ 0 ≤ get_last_free_addr s.

(** Where the next mapping without a hint goes; no area overlaps it. *)
Definition next_addr s : Z := Z.max (get_last_free_addr s) MAP_AREA_START.

Lemma next_addr_free s n : areas_ok s → 0 ≤ n → set_overlapping (as_memset s) (next_addr s) (next_addr s + n) = false.
Proof.
  intros [Hok Hl] Hn. apply set_overlapping_false, Forall_forall. intros a Ha. rewrite Forall_forall in Hok. destruct (Hok a Ha) as (H1 & H2 & H3).
  apply area_overlapping_spec; [done|]. unfold next_addr. destruct (decide (mtype a = Stack)) as [E|E]; [specialize (H3 E); lia|]. pose proof (last_free_ge s a Ha H1 E). lia.
Qed.

(** C10: a private mapping of a file shows the file.  With a free run of frames for its pages
    and an aligned place, [mmap] maps it above all areas; every byte that the file delivered is
    there, the rest of the pages is zero, and no other address has changed. *)
Theorem mmap_file_contents (file_read : F → Z → Z → result (list Z)) (file_size : F → result Z) (count : Z → nat)
    (fds : Fds (F := F)) s (f : F) (fd len prot off : Z) (data frames : list Z) (fs : FS) :
  mapped_ok ∅ s → areas_ok s → next_addr s mod PAGE_SIZE = 0 → fd ≠ usize_max → get_fd fds fd = Ret (Some f) →
  0 < len → next_addr s + len + PAGE_SIZE < USIZE →
  frame_alloc_much (w_frames (as_world s)) (div_ceil len PAGE_SIZE) = Ret (Some frames, fs) →
  let n := alignup len PAGE_SIZE in
  file_read f off n = Ok data → Z.of_nat (length data) ≤ n →
  ∃ s', mmap_file file_read file_size count fds s 0 len prot 2 fd off = Ret (Ok (next_addr s), s') ∧ mapped_ok ∅ s' ∧
    ∀ x, space_view s' x = if decide (next_addr s ≤ x < next_addr s + n) then Some (nth (Z.to_nat (x - next_addr s)) data 0) else space_view s x.
Proof.
  intros Hs Ha Hal Hfd Hget Hlen Hu E n Hread Hd. set (addr := next_addr s) in *. assert (MAP_AREA_START ≤ addr) as Hpos by (unfold addr, next_addr; lia).
  destruct (alignup_spec len) as [Hn En]; [lia|unfold MAP_AREA_START in *; lia|]. fold n in Hn, En. set (k := div_ceil len PAGE_SIZE) in *.
  assert (0 < k) as Hk by (unfold PAGE_SIZE in *; lia). assert (div_ceil n PAGE_SIZE = k) as Ek by (rewrite En; apply div_ceil_exact; lia).
  destruct (frame_alloc_area_ok count ∅ s addr Mmap k frames fs) as (a & s1 & E1 & _ & [Hok1 _ _ _ Hv1]); [done|by left|done|unfold MAP_AREA_START in *; lia|done|unfold PAGE_SIZE in *; lia|done|].
  destruct (store_bytes_ok file_read file_size count ∅ data s1 addr Hok1) as (s2 & E2 & Hok2 & _ & Hv2).
  { intros x Hx. rewrite Hv1, decide_True by lia. by eexists. }
  exists s2. split; [|split; [done|]].
  - unfold mmap_file, sys_mmap. change (Z.land (2 mod 4294967296) MapFlags_all) with 2. rewrite (decide_False (P := fd = usize_max ∨ contains 2 MAP_ANONYMOUS = true)) by (intros [?|?]; done).
    rewrite Hget. step_ret. fold n. rewrite (decide_True (P := 0 = 0)) by done.
    replace (if decide (MAP_AREA_START ≤ get_last_free_addr s) then _ else _) with addr by (unfold addr, next_addr; case_decide; lia).
    rewrite decide_False by lia. change (contains 2 MAP_FIXED) with false. cbn iota. rewrite wrap_small by (unfold is_usize, MAP_AREA_START in *; lia).
    pose proof (next_addr_free s n Ha ltac:(lia)) as Hfree. fold addr in Hfree. rewrite Hfree. unfold mmap_at. change (contains 2 MAP_SHARED) with false. cbn iota. rewrite Ek, E1. step_ret. step_ret. rewrite Hread, E2. by step_ret.
  - intros x. rewrite Hv2, Hv1. replace (k * PAGE_SIZE) with n by lia. destruct (decide (addr ≤ x < addr + n)) as [Hx|Hx]; [|by rewrite decide_False by lia].
    case_decide as Hx'; [|by rewrite nth_overflow by lia]. destruct (lookup_lt_is_Some_2 data (Z.to_nat (x - addr))) as [b Hb]; [lia|]. by rewrite Hb, (nth_lookup_Some _ _ _ _ Hb).
Qed.
End theory.

(** ** A file of three bytes *)

Definition three_read (_ : unit) (off len : Z) : result (list Z) := Ok (take (Z.to_nat len) (drop (Z.to_nat off) [1; 2; 3])).
Definition three_size (_ : unit) : result Z := Ok 3.

Lemma demo_space_mapped : mapped_ok ∅ demo_space.
Proof.
  split; [|done|set_solver|done|done]. split; [exact demo_fa_wf|]. intros. reflexivity.
Qed.

Lemma mmap_file_contents_witness : ∃ s', mmap_file three_read three_size (λ _, 1%nat) demo_fds demo_space 0 5000 3 2 0 0 = Ret (Ok 0x200000000, s') ∧
  space_view s' 0x200000002 = Some 3 ∧ space_view s' 0x200000003 = Some 0.
Proof.
  assert (match frame_alloc_much (w_frames (as_world demo_space)) (div_ceil 5000 PAGE_SIZE) with Ret (Some _, _) => true | _ => false end = true) as Hm by (vm_compute; reflexivity).
  destruct (frame_alloc_much (w_frames (as_world demo_space)) (div_ceil 5000 PAGE_SIZE)) as [[[frames|] fs]|] eqn:E; [|discriminate Hm..]. clear Hm.
  destruct (mmap_file_contents three_read three_size (λ _, 1%nat) demo_fds demo_space tt 0 5000 3 0 [1; 2; 3] frames fs) as (s' & Em & _ & Hv).
  - exact demo_space_mapped.
  - split; [|done]. constructor; [|constructor]. split_and!; [split; vm_compute; done || lia|done|done].
  - reflexivity.
  - done.
  - reflexivity.
  - lia.
  - vm_compute. reflexivity.
  - exact E.
  - reflexivity.
  - vm_compute. discriminate.
  - exists s'. split; [exact Em|]. rewrite !Hv. replace (next_addr demo_space) with 0x200000000 by (vm_compute; reflexivity).
    replace (alignup 5000 PAGE_SIZE) with 8192 by (vm_compute; reflexivity). rewrite !decide_True by lia. split; reflexivity.
Defined.

(** A file mapped shared and for reading only: the kernel's own stores fault, and the fault
    leaves the page writable for the process. *)
Example shared_mapping_writable :
  match mmap_file three_read three_size (λ _, 1%nat) demo_fds demo_space 0 100 1 1 0 0 with
  | Ret (Ok addr, s') => writable (prot_flags 1) = false ∧ snd <$> as_pt s' !! addr = Some URWX
  | _ => False
  end.
Proof. vm_compute. done. Qed.
