(* ===== verification/SysInfo.v ===== *)
(** * System information calls

    Models kernel/src/syscall/sys.rs without [sys_prlimit64], which is with the descriptors:
    [uname], the user and group numbers, [syslog], [sysinfo], the scheduler stubs,
    [getrandom], [membarrier], [getsid], [prctl] and [mknod].  A user buffer is the list of its
    bytes, a null pointer is [None]. *)

From S2P Require Import Prelude UserStack.

(** ** [uname] *)

(** Six arrays of 65 bytes. *)
Record UTSname := mkUts { sysname : list Z; nodename : list Z; release : list Z; version : list Z; machine : list Z; domainname : list Z }.

(** [field[..s.len()].copy_from_slice(s)]: the rest of the array is left as it is. *)
Definition put_prefix (s : string) (field : list Z) : outcome (list Z) :=
  if decide (length (str_bytes s) ≤ length field)%nat then Ret (str_bytes s ++ drop (length (str_bytes s)) field) else Panic.

Definition sys_uname (uts : UTSname) : outcome (result Z * UTSname) :=
  a ← put_prefix "Linux" (sysname uts);
  b ← put_prefix "debian" (nodename uts);
  c ← put_prefix "5.10.0-7-riscv64" (release uts);
  d ← put_prefix "#1 SMP Debian 5.10.40-1 (2021-05-28)" (version uts);
  e ← put_prefix "riscv qemu" (machine uts);
  f ← put_prefix "" (domainname uts);
  Ret (Ok 0, mkUts a b c d e f).

(** ** Identity and scheduling: constants *)

(** [sched_getaffinity] does not fill the mask. *)
Definition sys_sched_getaffinity (pid cpu_set_size : Z) (mask : list Z) : result Z * list Z := (Ok 0, mask).

Definition sys_geteuid : result Z := Ok 0.
Definition sys_getegid : result Z := Ok 0.
Definition sys_getgid : result Z := Ok 0.
Definition sys_getuid : result Z := Ok 0.
Definition sys_getpgid : result Z := Ok 0.
Definition sys_setpgid (pid pgid : Z) : result Z := Ok 0.
Definition sys_setuid (uid : Z) : result Z := Ok 0.
Definition sys_setgid (gid : Z) : result Z := Ok 0.
Definition sys_sched_getparam (pid param : Z) : result Z := Ok 0.
Definition sys_sched_setscheduler (pid policy param : Z) : result Z := Ok 0.

(** A task is its own session. *)
Definition sys_getsid (tid pid : Z) : result Z := Ok (if decide (pid = 0) then tid else pid).

(** ** [syslog] and [sysinfo] *)

(** The text behind the pointer, [Some None] when it is not UTF-8; it is printed. *)
Definition sys_klogctl (log_type : Z) (buf : option (option string)) (len : Z) : outcome (result Z * list string) :=
  match buf with
  | None => Ret (Ok 0, [])
  | Some path => path ← unwrap path; Ret (Ok 0, [path])
  end.

(** Only the first byte of the structure is written. *)
Definition sys_info (meminfo : option (list Z)) : result Z * option (list Z) := (Ok 0, (λ b, <[0%nat := 3]> b) <$> meminfo).

(** ** [getrandom] *)

Definition random_step (seed : Z) : Z := seed *u 0x5851f42d4c957f2d.

Fixpoint random_fill (n : nat) (seed : Z) : list Z * Z :=
  match n with
  | O => ([], seed)
  | S n => let seed := random_step seed in let '(l, seed') := random_fill n seed in (Z.shiftr seed 33 mod 256 :: l, seed')
  end.

Definition SEED : Z := 0xdeadbeefcafebabe.

(** The buffer after the call, the seed after the call. *)
Definition sys_getrandom (buf_len : Z) (seed : Z) : result Z * list Z * Z :=
  let '(l, seed) := random_fill (Z.to_nat buf_len) seed in (Ok buf_len, l, seed).

(** ** [membarrier] and [prctl] *)

Definition membarrier_query : Z :=
  foldr Z.lor 0 (Z.shiftl 1 <$> [1; 2; 3; 4; 5; 6; 7; 8; 9]).

(** The result, and whether a memory fence was made. *)
Definition sys_membarrier (cmd : Z) : result Z * bool :=
  match cmd with
  | 0 => (Ok membarrier_query, false)
  | 3 | 5 | 7 | 9 => (Ok 0, false)
  | _ => (Ok 0, true)
  end.

Definition sys_prctl (option : Z) : result Z := match option with 3 => Ok 1 | _ => Ok 0 end.

Definition sys_mknod (pathname : option string) : result Z := match pathname with None => Err EINVAL | Some _ => Ok 0 end.
Definition sys_mknodat (dirfd : Z) (pathname : option string) : result Z := match pathname with None => Err EINVAL | Some _ => Ok 0 end.

(** ** Theorems *)

Lemma put_prefix_spec s field : (length (str_bytes s) ≤ length field)%nat →
  put_prefix s field = Ret (str_bytes s ++ drop (length (str_bytes s)) field).
Proof. intros Hl. unfold put_prefix. by rewrite decide_True. Qed.

(** A field as C reads it: the bytes before the first zero. *)
Fixpoint c_string (l : list Z) : list Z := match l with [] => [] | x :: l => if decide (x = 0) then [] else x :: c_string l end.

Lemma c_string_app s l : Forall (λ x, x ≠ 0) s → c_string (s ++ l) = s ++ c_string l.
Proof. induction 1 as [|x s Hx _ IH]; [done|]. cbn [app c_string]. by rewrite decide_False, IH. Qed.

(** [uname] writes names without a terminator: into a zeroed structure the names are right,
    otherwise what the buffer held before follows them. *)
Theorem uname_unterminated field s : (length (str_bytes s) ≤ length field)%nat → Forall (λ x, x ≠ 0) (str_bytes s) →
  ∃ f', put_prefix s field = Ret f' ∧ length f' = length field ∧ c_string f' = str_bytes s ++ c_string (drop (length (str_bytes s)) field).
Proof.
  intros Hl Hs. eexists. split; [by apply put_prefix_spec|]. rewrite length_app, length_drop. split; [lia|]. by apply c_string_app.
Qed.

Lemma random_fill_app n m seed : random_fill (n + m) seed =
  (let '(l, s1) := random_fill n seed in let '(k, s2) := random_fill m s1 in (l ++ k, s2)).
Proof.
  revert seed. induction n as [|n IH]; intros seed; cbn [random_fill Nat.add]; [by destruct (random_fill m seed)|].
  rewrite IH. destruct (random_fill n (random_step seed)) as [l s1]. by destruct (random_fill m s1).
Qed.

(** The whole random stream is fixed by the first seed: two calls give what one call gives. *)
Theorem getrandom_stream a b seed : 0 ≤ a → 0 ≤ b →
  let '(r1, l1, s1) := sys_getrandom a seed in let '(r2, l2, s2) := sys_getrandom b s1 in
  sys_getrandom (a + b) seed = (Ok (a + b), l1 ++ l2, s2).
Proof.
  intros Ha Hb. unfold sys_getrandom. rewrite Z2Nat.inj_add, random_fill_app by done. destruct (random_fill (Z.to_nat a) seed) as [l s1].
  by destruct (random_fill (Z.to_nat b) s1).
Qed.
