(* ===== verification/Dispatch.v ===== *)
(** * System call dispatch

    Models [UserTaskContainer::syscall] (kernel/src/syscall/mod.rs) for riscv64: the table
    from system call numbers to handlers with the machine words each handler gets and the
    casts made on them, the answers for numbers without a handler, and the encoding of the
    result in the return register (kernel/src/user/mod.rs).  The numbers are those of the
    syscalls crate. *)

From S2P Require Import Prelude Futex SysFile.

(** An argument of a handler: which of the six words, and the cast of the handler's type
    (pointers and [usize] take the word as it is). *)
Inductive Arg := Word (i : nat) | Isize (i : nat) | U32 (i : nat) | I32 (i : nat) | Lit (z : Z).

Definition cast_arg (args : list Z) (a : Arg) : Z :=
  match a with
  | Word i => default 0 (args !! i)
  | Isize i => as_isize (default 0 (args !! i))
  | U32 i => as_u32 (default 0 (args !! i))
  | I32 i => as_i32 (default 0 (args !! i))
  | Lit z => z
  end.

(** A handler with its arguments, or an answer given on the spot. *)
Inductive Entry := Handler (name : string) (args : list Arg) | Const (z : Z).

(** ** The table, in the order of the source *)

Definition file_calls_1 : list (Z * Entry) := [
  (17, Handler "sys_getcwd" [Word 0; Word 1]);
  (49, Handler "sys_chdir" [Word 0]);
  (56, Handler "sys_openat" [Isize 0; Word 1; Word 2; Word 3]);
  (23, Handler "sys_dup" [Word 0]);
  (24, Handler "sys_dup3" [Word 0; Word 1]);
  (57, Handler "sys_close" [Word 0]);
  (34, Handler "sys_mkdir_at" [Isize 0; Word 1; Word 2]);
  (166, Handler "sys_umask" [Word 0]);
  (53, Handler "sys_fchmodat" [Isize 0; Word 1; Word 2; Word 3])
].

Definition file_calls_2 : list (Z * Entry) := [
  (55, Handler "sys_fchown" [Word 0; Word 1; Word 2]);
  (54, Handler "sys_fchownat" [Isize 0; Word 1; Word 2; Word 3; Word 4])
].

Definition core_calls : list (Z * Entry) := [
  (63, Handler "sys_read" [Word 0; Word 1; Word 2]);
  (64, Handler "sys_write" [Word 0; Word 1; Word 2]);
  (221, Handler "sys_execve" [Word 0; Word 1; Word 2]);
  (93, Handler "sys_exit" [Isize 0]);
  (214, Handler "sys_brk" [Word 0]);
  (172, Handler "sys_getpid" []);
  (59, Handler "sys_pipe2" [Word 0; Word 1]);
  (99, Handler "sys_set_robust_list" [Word 0; Word 1]);
  (131, Handler "sys_tgkill" [Word 0; Word 1; Word 2]);
  (169, Handler "sys_gettimeofday" [Word 0; Word 1]);
  (101, Handler "sys_nanosleep" [Word 0; Word 1]);
  (160, Handler "sys_uname" [Word 0]);
  (35, Handler "sys_unlinkat" [Isize 0; Word 1; Word 2]);
  (36, Handler "sys_symlinkat" [Word 0; Isize 1; Word 2]);
  (37, Handler "sys_linkat" [Isize 0; Word 1; Isize 2; Word 3; Word 4]);
  (80, Handler "sys_fstat" [Word 0; Word 1]);
  (260, Handler "sys_wait4" [Isize 0; Word 1; Word 2]);
  (124, Handler "sys_sched_yield" []);
  (173, Handler "sys_getppid" []);
  (40, Handler "sys_mount" [Word 0; Word 1; Word 2; Word 3; Word 4]);
  (39, Handler "sys_umount2" [Word 0; Word 1]);
  (222, Handler "sys_mmap" [Word 0; Word 1; Word 2; Word 3; Word 4; Word 5]);
  (215, Handler "sys_munmap" [Word 0; Word 1]);
  (153, Handler "sys_times" [Word 0]);
  (61, Handler "sys_getdents64" [Word 0; Word 1; Word 2]);
  (96, Handler "sys_set_tid_address" [Word 0]);
  (178, Handler "sys_gettid" []);
  (62, Handler "sys_lseek" [Word 0; Word 1; Word 2]);
  (113, Handler "sys_clock_gettime" [Word 0; Word 1]);
  (137, Handler "sys_sigtimedwait" []);
  (133, Handler "sys_sigsuspend" [Word 0]);
  (261, Handler "sys_prlimit64" [Word 0; Word 1; Word 2; Word 3]);
  (65, Handler "sys_readv" [Word 0; Word 1; Word 2]);
  (66, Handler "sys_writev" [Word 0; Word 1; Word 2]);
  (43, Handler "sys_statfs" [Word 0; Word 1]);
  (67, Handler "sys_pread" [Word 0; Word 1; Word 2; Word 3]);
  (68, Handler "sys_pwrite" [Word 0; Word 1; Word 2; Word 3]);
  (79, Handler "sys_fstatat" [Isize 0; Word 1; Word 2])
].

Definition info_calls : list (Z * Entry) := [
  (291, Handler "sys_statx" [Isize 0; Word 1; U32 2; U32 3; Word 4]);
  (175, Handler "sys_geteuid" []);
  (177, Handler "sys_getegid" []);
  (176, Handler "sys_getgid" []);
  (174, Handler "sys_getuid" []);
  (155, Handler "sys_getpgid" []);
  (156, Handler "sys_getsid" [Word 0]);
  (167, Handler "sys_prctl" [Word 0; Word 1; Word 2; Word 3; Word 4]);
  (33, Handler "sys_mknodat" [Word 0; Word 1; Word 2; Word 3]);
  (29, Handler "sys_ioctl" [Word 0; Word 1; Word 2; Word 3; Word 4]);
  (25, Handler "sys_fcntl" [Word 0; Word 1; Word 2]);
  (88, Handler "sys_utimensat" [Isize 0; Word 1; Word 2; Word 3]);
  (135, Handler "sys_sigprocmask" [Word 0; Word 1; Word 2]);
  (134, Handler "sys_sigaction" [Word 0; Word 1; Word 2]);
  (226, Handler "sys_mprotect" [Word 0; Word 1; U32 2]);
  (98, Handler "sys_futex" [Word 0; Word 1; Word 2; Word 3; Word 4; Word 5]);
  (78, Handler "sys_readlinkat" [Isize 0; Word 1; Word 2; Word 3]);
  (71, Handler "sys_sendfile" [Word 0; Word 1; Word 2; Word 3]);
  (130, Handler "sys_tkill" [Word 0; Word 1]);
  (139, Handler "sys_sigreturn" []);
  (100, Handler "sys_get_robust_list" [I32 0; Word 1; Word 2]);
  (73, Handler "sys_ppoll" [Word 0; Word 1; Word 2; Word 3]);
  (165, Handler "sys_getrusage" [Word 0; Word 1]);
  (154, Handler "sys_setpgid" [Word 0; Word 1]);
  (72, Handler "sys_pselect" [Word 0; Word 1; Word 2; Word 3; Word 4; Word 5]);
  (129, Handler "sys_kill" [Word 0; Word 1]);
  (82, Handler "sys_fsync" [Word 0]);
  (83, Handler "sys_fdatasync" [Word 0]);
  (32, Handler "sys_flock" [Word 0; Word 1]);
  (48, Handler "sys_faccess_at" [Isize 0; Word 1; Word 2; Word 3]);
  (439, Const 0);
  (198, Handler "sys_socket" [Word 0; Word 1; Word 2]);
  (199, Handler "sys_socket_pair" [Word 0; Word 1; Word 2; Word 3]);
  (200, Handler "sys_bind" [Word 0; Word 1; Word 2]);
  (201, Handler "sys_listen" [Word 0; Word 1]);
  (202, Handler "sys_accept" [Word 0; Word 1; Word 2]);
  (242, Handler "sys_accept4" [Word 0; Word 1; Word 2; Word 3]);
  (203, Handler "sys_connect" [Word 0; Word 1; Word 2]);
  (207, Handler "sys_recvfrom" [Word 0; Word 1; Word 2; Word 3; Word 4; Word 5]);
  (206, Handler "sys_sendto" [Word 0; Word 1; Word 2; Word 3; Word 4; Word 5])
].

Definition ipc_calls : list (Z * Entry) := [
  (116, Handler "sys_klogctl" [Word 0; Word 1; Word 2]);
  (179, Handler "sys_info" [Word 0]);
  (227, Handler "sys_msync" [Word 0; Word 1; U32 2]);
  (94, Handler "sys_exit_group" [Word 0]);
  (45, Handler "sys_truncate" [Word 0; Word 1]);
  (146, Handler "sys_setuid" [Word 0]);
  (144, Handler "sys_setgid" [Word 0]);
  (46, Handler "sys_ftruncate" [Word 0; Word 1]);
  (194, Handler "sys_shmget" [Word 0; Word 1; Word 2]);
  (196, Handler "sys_shmat" [Word 0; Word 1; Word 2]);
  (195, Handler "sys_shmctl" [Word 0; Word 1; Word 2]);
  (186, Handler "sys_msgget" [Word 0; Word 1]);
  (187, Handler "sys_msgctl" [Word 0; Word 1; Word 2]);
  (188, Handler "sys_msgrcv" [Word 0; Word 1; Word 2; Isize 3; Word 4]);
  (189, Handler "sys_msgsnd" [Word 0; Word 1; Word 2; Word 3]);
  (190, Handler "sys_semget" [Word 0; Word 1; Word 2]);
  (191, Handler "sys_semctl" [Word 0; Word 1; Word 2; Word 3]);
  (193, Handler "sys_semop" [Word 0; Word 1; Word 2]);
  (103, Handler "sys_setitimer" [Word 0; Word 1; Word 2]);
  (208, Handler "sys_setsockopt" [Word 0; Word 1; Word 2; Word 3; Word 4]);
  (209, Handler "sys_getsockopt" [Word 0; Word 1; Word 2; Word 3; Word 4]);
  (204, Handler "sys_getsockname" [Word 0; Word 1; Word 2]);
  (205, Handler "sys_getpeername" [Word 0; Word 1; Word 2])
].

Definition late_calls : list (Z * Entry) := [
  (157, Handler "sys_setsid" []);
  (210, Handler "sys_shutdown" [Word 0; Word 1]);
  (121, Handler "sys_sched_getparam" [Word 0; Word 1]);
  (119, Handler "sys_sched_setscheduler" [Word 0; Word 1; Word 2]);
  (114, Handler "sys_clock_getres" [Word 0; Word 1]);
  (115, Handler "sys_clock_nanosleep" [Word 0; Word 1; Word 2; Word 3]);
  (20, Handler "sys_epoll_create1" [Word 0]);
  (21, Handler "sys_epoll_ctl" [Word 0; Word 1; Word 2; Word 3]);
  (22, Handler "sys_epoll_wait" [Word 0; Word 1; Word 2; Word 3; Word 4]);
  (285, Handler "sys_copy_file_range" [Word 0; Word 1; Word 2; Word 3; Word 4; Word 5]);
  (278, Handler "sys_getrandom" [Word 0; Word 1; Word 2]);
  (122, Const 0);
  (120, Const 0);
  (123, Handler "sys_sched_getaffinity" [Word 0; Word 1; Word 2]);
  (159, Const 0);
  (276, Handler "sys_renameat2" [Isize 0; Word 1; Isize 2; Word 3; Word 4]);
  (38, Handler "sys_renameat2" [Isize 0; Word 1; Isize 2; Word 3; Lit 2]);
  (220, Handler "sys_clone" [Word 0; Word 1; Word 2; Word 3; Word 4])
].

Definition barrier_calls : list (Z * Entry) := [
  (283, Handler "sys_membarrier" [Word 0; Word 1; Word 2])
].

Definition syscall_table : list (Z * Entry) :=
  file_calls_1 ++ file_calls_2 ++ core_calls ++ info_calls ++ ipc_calls ++ late_calls ++ barrier_calls.

(** ** Dispatch *)

(** [Sysno::new]: the numbers the crate knows. *)
Definition sysno_known (n : Z) : bool :=
  bool_decide (0 ≤ n ≤ 243) || bool_decide (258 ≤ n ≤ 294) || bool_decide (403 ≤ n ≤ 414) || bool_decide (416 ≤ n ≤ 462).

(** What a system call does first: an answer, or a call of a handler. *)
Inductive Dispatch := Answer (r : result Z) | CallHandler (name : string) (args : list Z).

Definition lookup_entry (n : Z) (t : list (Z * Entry)) : option Entry := snd <$> List.find (λ e, bool_decide (e.1 = n)) t.

Definition syscall (call_id : Z) (args : list Z) : Dispatch :=
  if sysno_known call_id then
    match lookup_entry call_id syscall_table with
    | Some (Handler name l) => CallHandler name (cast_arg args <$> l)
    | Some (Const z) => Answer (Ok z)
    | None => Answer (Err EPERM)
    end
  else Answer (Err EINVAL).

(** ** The return register *)

Definition errno_code (e : Errno) : Z :=
  match e with
  | EPERM => 1
  | ENOENT => 2
  | ESRCH => 3
  | EINTR => 4
  | E2BIG => 7
  | EBADF => 9
  | ECHILD => 10
  | EAGAIN => 11
  | ENOMEM => 12
  | EFAULT => 14
  | EEXIST => 17
  | ENOTDIR => 20
  | EINVAL => 22
  | ENFILE => 23
  | EMFILE => 24
  | ENOTTY => 25
  | ENOSYS => 38
  | ENOMSG => 42
  | EAFNOSUPPORT => 97
  | ETIMEDOUT => 110
  | EALREADY => 114
  end.

(** [map_or_else(|e| -e.into_raw() as isize, |x| x as isize) as usize]. *)
Definition syscall_return (r : result Z) : Z := match r with Ok x => wrap x | Err e => wrap (- errno_code e) end.

(** How a C library reads the register: the last 4095 values are errors. *)
Definition decode_return (w : Z) : Z + Z := if decide (USIZE - 4095 ≤ w) then inr (USIZE - w) else inl w.

(** ** Theorems *)

#[export] Instance Arg_eq_dec : EqDecision Arg.
Proof. solve_decision. Defined.
#[export] Instance Entry_eq_dec : EqDecision Entry.
Proof. solve_decision. Defined.

(** The numbers with an arm of their own. *)
Definition table_numbers : list Z := syscall_table.*1.

(** The values a cast can give. *)
Definition cast_ok (a : Arg) (z : Z) : Prop :=
  match a with
  | Word _ => is_usize z
  | Isize _ => -9223372036854775808 ≤ z < 9223372036854775808
  | U32 _ => 0 ≤ z < 4294967296
  | I32 _ => -2147483648 ≤ z < 2147483648
  | Lit v => z = v
  end.

Lemma cast_arg_ok args a : Forall is_usize args → cast_ok a (cast_arg args a).
Proof.
  intros Ha. assert (Hd : ∀ i, is_usize (default 0 (args !! i))).
  { intros i. destruct (args !! i) as [z|] eqn:E; [by apply (Forall_lookup_1 _ _ _ _ Ha E)|]. split; [done|]. unfold USIZE. cbn. lia. }
  destruct a as [i|i|i|i|z]; cbn [cast_ok cast_arg].
  - apply Hd.
  - unfold as_isize. pose proof (wrap_range (default 0 (args !! i))) as Hr. unfold is_usize, USIZE in *. case_decide; lia.
  - unfold as_u32. apply Z.mod_pos_bound. lia.
  - unfold as_i32. pose proof (Z.mod_pos_bound (default 0 (args !! i)) 4294967296). case_decide; lia.
  - done.
Qed.

(** No two arms share a number, and every arm's number is one the crate knows. *)
Lemma table_numbers_ok : NoDup table_numbers ∧ Forall (λ n, sysno_known n = true) table_numbers.
Proof. split; apply (bool_decide_unpack _); vm_compute; exact I. Qed.

Lemma lookup_entry_In n e t : NoDup t.*1 → lookup_entry n t = Some e ↔ (n, e) ∈ t.
Proof.
  unfold lookup_entry. induction t as [|[k x] t IH]; intros Hnd; [cbn; set_solver|]. cbn [List.find fst]. rewrite fmap_cons in Hnd.
  apply NoDup_cons in Hnd as [Hk Hnd]. destruct (decide (k = n)) as [->|Hne].
  - rewrite bool_decide_eq_true_2 by done. cbn. rewrite elem_of_cons. split; [intros [= ->]; by left|]. intros [[= ->]|Hin]; [done|].
    destruct Hk. apply list_elem_of_fmap. by exists (n, e).
  - rewrite bool_decide_eq_false_2 by done. rewrite IH by done. rewrite elem_of_cons. naive_solver.
Qed.

Lemma lookup_entry_None n t : lookup_entry n t = None ↔ n ∉ t.*1.
Proof.
  unfold lookup_entry. induction t as [|[k x] t IH]; [cbn; set_solver|]. cbn [List.find fst]. rewrite fmap_cons, not_elem_of_cons. destruct (decide (k = n)) as [->|Hne].
  - rewrite bool_decide_eq_true_2 by done. cbn. naive_solver.
  - rewrite bool_decide_eq_false_2 by done. rewrite IH. naive_solver.
Qed.

(** Two arms with the same handler: the same arm, or the rename calls. *)
Definition share_ok (x y : Z * Entry) : bool :=
  match x.2, y.2 with
  | Handler m _, Handler m' _ =>
      negb (bool_decide (m = m')) || bool_decide (x.1 = y.1) || (bool_decide (m = "sys_renameat2") && bool_decide (x.1 ∈ [276; 38]))
  | _, _ => true
  end.

Lemma handlers_unique n n' name sig sig' : (n, Handler name sig) ∈ syscall_table → (n', Handler name sig') ∈ syscall_table →
  n = n' ∨ (name = "sys_renameat2" ∧ n ∈ [276; 38]).
Proof.
  intros Hn Hn'. assert (Hall : forallb (λ x, forallb (share_ok x) syscall_table) syscall_table = true) by (vm_compute; reflexivity).
  rewrite forallb_forall in Hall. specialize (Hall _ (proj1 (list_elem_of_In _ _) Hn)). rewrite forallb_forall in Hall.
  specialize (Hall _ (proj1 (list_elem_of_In _ _) Hn')). unfold share_ok in Hall. cbn [fst snd] in Hall. rewrite bool_decide_eq_true_2 in Hall by done.
  cbn [negb orb] in Hall. apply orb_true_iff in Hall as [H|H]; [left; by apply bool_decide_eq_true in H|]. right.
  apply andb_true_iff in H as [H1 H2]. split; by eapply bool_decide_eq_true.
Qed.



(** The return register is read back as the result: an error gives its number and nothing
    else does, distinct errors have distinct numbers, and a successful value below the last
    4095 words comes back unchanged. *)
Theorem syscall_return_roundtrip (r : result Z) :
  match r with
  | Err e => decode_return (syscall_return r) = inr (errno_code e) ∧ ∀ e', errno_code e' = errno_code e → e' = e
  | Ok x => 0 ≤ x < USIZE - 4095 → decode_return (syscall_return r) = inl x
  end.
Proof.
  destruct r as [x|e]; cbn [syscall_return].
  - intros Hx. rewrite wrap_small by (unfold is_usize; lia). unfold decode_return. by rewrite decide_False by lia.
  - split; [by destruct e|]. intros e'. destruct e, e'; done.
Qed.

Lemma syscall_return_roundtrip_witness : decode_return (syscall_return (Ok 4096)) = inl 4096.
Proof. apply (syscall_return_roundtrip (Ok 4096)). vm_compute. split; [intros H; discriminate H|reflexivity]. Defined.
