(* ===== verification/Devices.v ===== *)
(** * Devices, drivers and the interrupt controller

    Models crates/sync/src/lib.rs ([LazyInit]), crates/devices (the set of devices, the
    drivers' registration and the discovery of devices in the device tree) and the drivers of
    the qemu configuration: general-plic, ns16550a (with the vendored crate of the same name),
    kgoldfish-rtc and the MMIO part of kvirtio.  The hardware is a bus with volatile reads and
    writes; what the interrupt controller promises is the class [PlicLaws].  A panic stands
    for an access that the language leaves undefined, too.  Arguments of log messages are not
    evaluated. *)

From stdpp Require Import sorting.
From S2P Require Import Prelude.

(** ** Cells that are initialised once *)

Record LazyInit (T : Type) := mkLazyInit { inited : bool; data : option T }.
Arguments mkLazyInit {T} _ _.
Arguments inited {T} _.
Arguments data {T} _.

Section lazy_init.
Context {T : Type}.
Implicit Types l : LazyInit T.

Definition LazyInit_new : LazyInit T := mkLazyInit false None.
Definition is_init l : bool := inited l.

Definition init_by l (x : T) : outcome (LazyInit T) :=
  if is_init l then Panic else Ret (mkLazyInit true (Some x)).

(** Reading memory that was never written is undefined. *)
Definition get_unchecked l : outcome T := unwrap (data l).

Definition try_get l : outcome (option T) :=
  if is_init l then x ← get_unchecked l; Ret (Some x) else Ret None.

Definition check_init l : outcome unit := if is_init l then Ret tt else Panic.

(** [deref]. *)
Definition lazy_get l : outcome T := check_init l ≫= λ _, get_unchecked l.

(** [deref_mut], with the write through the reference. *)
Definition lazy_modify (f : T → T) l : outcome (LazyInit T) :=
  check_init l ≫= λ _, x ← get_unchecked l; Ret (mkLazyInit (inited l) (Some (f x))).

(** The destructor hands the value, if there is one, to its own. *)
Definition lazy_drop l : outcome (option T) := try_get l.
End lazy_init.

(** ** The bus *)

(** Volatile accesses of a number of bytes at a virtual address. *)
Class Mmio (B : Type) := {
  mmio_read : Z → Z → B → outcome (Z * B);
  mmio_write : Z → Z → Z → B → outcome B;
}.

Definition VIRT_ADDR_START : Z := 0xffffffc000000000.
Definition as32 (z : Z) : Z := z mod 4294967296.

Section drivers.
Context {B : Type} `{Mmio B}.

(** *** The interrupt controller *)

(** [hart_id as usize * 2 + is_smode as usize]. *)
Definition plic_context (hart_id : Z) (is_smode : bool) : Z := (hart_id *u 2) +u (if is_smode then 1 else 0).

Definition set_irq_enable (base hart_id : Z) (is_smode : bool) (irq : Z) (b : B) : outcome B :=
  let addr := ((base +u 0x2000) +u irq / 32) +u (plic_context hart_id is_smode *u 0x80) in
  '(v, b) ← mmio_read 4 addr b;
  mmio_write 4 addr (Z.lor v (as32 (Z.shiftl 1 (irq mod 32)))) b.

Definition get_irq_claim (base hart_id : Z) (is_smode : bool) (b : B) : outcome (Z * B) :=
  mmio_read 4 ((base +u 0x200004) +u (plic_context hart_id is_smode *u 0x1000)) b.

Definition complete_irq_claim (base hart_id : Z) (is_smode : bool) (irq : Z) (b : B) : outcome B :=
  mmio_write 4 ((base +u 0x200004) +u (plic_context hart_id is_smode *u 0x1000)) irq b.

Definition set_thresold (base hart_id : Z) (is_smode : bool) (thresold : Z) (b : B) : outcome B :=
  mmio_write 4 ((base +u 0x200000) +u (plic_context hart_id is_smode *u 0x1000)) thresold b.

Definition set_priority (base irq priority : Z) (b : B) : outcome B := mmio_write 4 (base +u (irq *u 4)) priority b.

Definition PLIC_try_handle_interrupt (base : Z) (b : B) : outcome (bool * B) :=
  '(claim, b) ← get_irq_claim base 0 true b;
  b ← complete_irq_claim base 0 true claim b;
  Ret (false, b).

Definition PLIC_register_irq (base irq : Z) (b : B) : outcome B :=
  b ← set_irq_enable base 0 true irq b; set_priority base irq 7 b.

(** *** The serial line: the crate's register accesses *)

Definition set_lcr (base word_length stop_bits parity_bit parity_select stick_parity break dlab : Z) (b : B) : outcome B :=
  mmio_write 1 (base +u 3)
    (Z.lor (Z.lor (Z.lor (Z.lor (Z.lor (Z.lor word_length (Z.shiftl stop_bits 2)) (Z.shiftl parity_bit 3)) (Z.shiftl parity_select 4))
       (Z.shiftl stick_parity 5)) (Z.shiftl break 6)) (Z.shiftl dlab 7)) b.

Definition set_fcr (base dma_mode : Z) (b : B) : outcome B := mmio_write 1 (base +u 2) (Z.lor 1 (Z.shiftl dma_mode 3)) b.

Definition Uart_init (base word_length stop_bits parity_bit parity_select stick_parity break dma_mode divisor : Z) (b : B) : outcome B :=
  b ← set_lcr base word_length stop_bits parity_bit parity_select stick_parity break 1 b;
  b ← set_fcr base dma_mode b;
  b ← mmio_write 2 base divisor b;
  set_lcr base word_length stop_bits parity_bit parity_select stick_parity break 0 b.

Definition Uart_put (base c : Z) (b : B) : outcome B := mmio_write 1 base c b.

Definition Uart_get (base : Z) (b : B) : outcome (option Z * B) :=
  '(s, b) ← mmio_read 1 (base +u 5) b;
  if decide (Z.land s 1 = 0) then Ret (None, b)
  else '(c, b) ← mmio_read 1 base b; Ret (Some c, b).

(** *** The clock *)

Definition TIMER_TIME_LOW : Z := 0.
Definition TIMER_TIME_HIGH : Z := 4.

Definition Rtc_read (base : Z) (b : B) : outcome (Z * B) :=
  '(low, b) ← mmio_read 4 (base +u TIMER_TIME_LOW) b;
  '(high, b) ← mmio_read 4 (base +u TIMER_TIME_HIGH) b;
  Ret (Z.lor (wrap (Z.shiftl high 32)) low, b).

Definition Rtc_read_timestamp (base : Z) (b : B) : outcome (Z * B) :=
  '(v, b) ← Rtc_read base b; Ret (v / 1000000000, b).
End drivers.

(** ** Drivers and the set of devices *)

Inductive Driver :=
  | D_plic (base : Z)
  | D_uart (base : Z) (irqs : list Z)
  | D_rtc (base : Z)
  | D_blk (vaddr : Z) (irqs : list Z)
  | D_net (vaddr : Z) (irqs : list Z)
  | D_input (vaddr : Z) (irqs : list Z)
  | D_ramdisk
  | D_unsupported.

#[export] Instance Driver_eq_dec : EqDecision Driver.
Proof. solve_decision. Defined.

Definition get_id (d : Driver) : string :=
  match d with
  | D_plic _ => "riscv-plic" | D_uart _ _ => "ns16550a" | D_rtc _ => "rtc_goldfish" | D_blk _ _ => "virtio-blk"
  | D_net _ _ => "virtio-net" | D_input _ _ => "virtio-input" | D_ramdisk => "kramdisk" | D_unsupported => "unsupported-driver"
  end%string.

(** The drivers of network devices keep their interrupt numbers but do not report them. *)
Definition interrupts (d : Driver) : list Z :=
  match d with D_uart _ irqs | D_blk _ irqs | D_input _ irqs => irqs | _ => [] end.

Inductive DeviceType := T_rtc | T_blk | T_net | T_input | T_int | T_uart | T_none.

Definition get_device_wrapper (d : Driver) : DeviceType :=
  match d with
  | D_rtc _ => T_rtc | D_blk _ _ | D_ramdisk => T_blk | D_net _ _ => T_net | D_input _ _ => T_input
  | D_plic _ => T_int | D_uart _ _ => T_uart | D_unsupported => T_none
  end.

Record DeviceSet := mkDeviceSet {
  ds_rtc : list Driver; ds_blk : list Driver; ds_net : list Driver; ds_uart : list Driver; ds_input : list Driver;
}.

Definition DeviceSet_new : DeviceSet := mkDeviceSet [] [] [] [] [].

(** The functions that [driver_define!] registers for a compatible string. *)
Inductive InitFn := F_virtio | F_rtc | F_plic | F_uart.

(** The static variables of the crate and the bus. *)
Record Devices (B : Type) := mkDevices {
  bus : B;
  DRIVER_REGS : gmap string InitFn;
  IRQ_MANAGER : gmap Z Driver;
  INT_DEVICE : LazyInit Driver;
  MAIN_UART : LazyInit Driver;
  ALL_DEVICES : DeviceSet;
}.
Arguments mkDevices {B} _ _ _ _ _ _.
Arguments bus {B} _.
Arguments DRIVER_REGS {B} _.
Arguments IRQ_MANAGER {B} _.
Arguments INT_DEVICE {B} _.
Arguments MAIN_UART {B} _.
Arguments ALL_DEVICES {B} _.

Definition Devices_new {B} (b : B) : Devices B := mkDevices b ∅ ∅ LazyInit_new LazyInit_new DeviceSet_new.

(** What the code uses of a node of the device tree: its compatible strings, the addresses of
    its [reg] property and the bytes of it, and its interrupts. *)
Record Node := mkNode {
  nd_compatible : option (list string); nd_reg : option (list Z); nd_reg_raw : option (list Z); nd_interrupts : option (list (list Z));
}.

(** The kinds of virtio devices that have a driver. *)
Inductive VirtioType := V_block | V_input | V_network | V_other.

Section devices.
Context {B : Type} `{Mmio B}.
Implicit Types (w : Devices B).

Definition set_bus (b : B) w : Devices B := mkDevices b (DRIVER_REGS w) (IRQ_MANAGER w) (INT_DEVICE w) (MAIN_UART w) (ALL_DEVICES w).
Definition on_bus {A} (f : B → outcome (A * B)) w : outcome (A * Devices B) := '(a, b) ← f (bus w); Ret (a, set_bus b w).
Definition set_irqs f w : Devices B := mkDevices (bus w) (DRIVER_REGS w) (f (IRQ_MANAGER w)) (INT_DEVICE w) (MAIN_UART w) (ALL_DEVICES w).
Definition set_devices f w : Devices B := mkDevices (bus w) (DRIVER_REGS w) (IRQ_MANAGER w) (INT_DEVICE w) (MAIN_UART w) (f (ALL_DEVICES w)).
Definition set_int x w : Devices B := mkDevices (bus w) (DRIVER_REGS w) (IRQ_MANAGER w) x (MAIN_UART w) (ALL_DEVICES w).
Definition set_uart x w : Devices B := mkDevices (bus w) (DRIVER_REGS w) (IRQ_MANAGER w) (INT_DEVICE w) x (ALL_DEVICES w).

Definition add_device (d : Driver) w : outcome (Devices B) :=
  match get_device_wrapper d with
  | T_rtc => Ret (set_devices (λ s, mkDeviceSet (ds_rtc s ++ [d]) (ds_blk s) (ds_net s) (ds_uart s) (ds_input s)) w)
  | T_blk => Ret (set_devices (λ s, mkDeviceSet (ds_rtc s) (ds_blk s ++ [d]) (ds_net s) (ds_uart s) (ds_input s)) w)
  | T_net => Ret (set_devices (λ s, mkDeviceSet (ds_rtc s) (ds_blk s) (ds_net s ++ [d]) (ds_uart s) (ds_input s)) w)
  | T_input => Ret (set_devices (λ s, mkDeviceSet (ds_rtc s) (ds_blk s) (ds_net s) (ds_uart s) (ds_input s ++ [d])) w)
  | T_int => l ← init_by (INT_DEVICE w) d; Ret (set_int l w)
  | T_uart =>
      w ← (if decide (length (ds_uart (ALL_DEVICES w)) = 0%nat) then l ← init_by (MAIN_UART w) d; Ret (set_uart l w) else Ret w);
      Ret (set_devices (λ s, mkDeviceSet (ds_rtc s) (ds_blk s) (ds_net s) (ds_uart s ++ [d]) (ds_input s)) w)
  | T_none => Ret w
  end.

Definition get_blk_devices w : list Driver := ds_blk (ALL_DEVICES w).
Definition get_int_device w : outcome Driver := o ← try_get (INT_DEVICE w); unwrap o.
Definition get_main_uart w : outcome (option Driver) := try_get (MAIN_UART w).
Definition get_net_device w (id : nat) : outcome Driver := unwrap (ds_net (ALL_DEVICES w) !! id).

Definition register_device_irqs (d : Driver) : Devices B → Devices B :=
  set_irqs (λ m, foldl (λ m irq, <[irq := d]> m) m (interrupts d)).

Definition node_to_interrupts (n : Node) : list Z := match nd_interrupts n with Some l => concat l | None => [] end.

(** [find_property("reg").unwrap().raw_value()[4..8]], read as a big-endian number. *)
Definition raw_address (n : Node) : outcome Z :=
  raw ← unwrap (nd_reg_raw n);
  if decide (8 ≤ length raw)%nat then Ret (foldl (λ acc x, Z.lor (wrap (Z.shiftl acc 8)) x) 0 (take 4 (drop 4 raw))) else Panic.

(** *** The drivers' entry points *)

Definition plic_init_driver (n : Node) w : outcome (Driver * Devices B) :=
  addr ← raw_address n;
  let base := VIRT_ADDR_START +u addr in
  b ← set_thresold base 0 true 0 (bus w);
  Ret (D_plic base, set_bus b w).

Definition uart_init_driver (n : Node) w : outcome (Driver * Devices B) :=
  reg ← unwrap (nd_reg n); addr ← unwrap (head reg);
  let base := VIRT_ADDR_START +u addr in
  let uart := D_uart base (node_to_interrupts n) in
  let w := register_device_irqs uart w in
  b ← Uart_init base 3 0 0 0 0 0 0 0x60 (bus w);
  Ret (uart, set_bus b w).

(** The time is read for a log message only, but it is read. *)
Definition init_rtc (n : Node) w : outcome (Driver * Devices B) :=
  addr ← raw_address n;
  let base := VIRT_ADDR_START +u addr in
  '(_, w) ← on_bus (Rtc_read_timestamp base) w;
  Ret (D_rtc base, w).

(** The virtio library: opening the transport of a device, which may be refused, with the type
    of the device, and creating the driver of a device, which may fail. *)
Context (transport_new : Z → B → outcome (option VirtioType * B)).
Context (virtio_new : VirtioType → Z → B → outcome (bool * B)).

Definition virtio_create (t : VirtioType) (vaddr : Z) w : outcome (Devices B) :=
  '(ok, b) ← virtio_new t vaddr (bus w); if (ok : bool) then Ret (set_bus b w) else Panic.

Definition virtio_blk_init (vaddr : Z) (irqs : list Z) w : outcome (Driver * Devices B) :=
  w ← virtio_create V_block vaddr w; Ret (D_blk vaddr irqs, w).
Definition virtio_input_init (vaddr : Z) (irqs : list Z) w : outcome (Driver * Devices B) :=
  w ← virtio_create V_input vaddr w; Ret (D_input vaddr irqs, register_device_irqs (D_input vaddr irqs) w).
Definition virtio_net_init (vaddr : Z) (irqs : list Z) w : outcome (Driver * Devices B) :=
  w ← virtio_create V_network vaddr w; Ret (D_net vaddr irqs, register_device_irqs (D_net vaddr irqs) w).

Definition virtio_device (t : VirtioType) (vaddr : Z) (n : Node) w : outcome (Driver * Devices B) :=
  let irqs := node_to_interrupts n in
  match t with
  | V_block => virtio_blk_init vaddr irqs w
  | V_input => virtio_input_init vaddr irqs w
  | V_network => virtio_net_init vaddr irqs w
  | V_other => Ret (D_unsupported, w)
  end.

Definition init_mmio (n : Node) w : outcome (Driver * Devices B) :=
  match nd_reg n ≫= head with
  | Some paddr =>
      let vaddr := VIRT_ADDR_START +u paddr in
      '(t, w) ← on_bus (transport_new vaddr) w;
      match t with Some t => virtio_device t vaddr n w | None => Ret (D_unsupported, w) end
  | None => Ret (D_unsupported, w)
  end.

Definition run_init (f : InitFn) : Node → Devices B → outcome (Driver * Devices B) :=
  match f with F_virtio => init_mmio | F_rtc => init_rtc | F_plic => plic_init_driver | F_uart => uart_init_driver end.

(** *** Discovery *)

(** An element of the distributed slice [DRIVERS_INIT]: both forms of [driver_define!]. *)
Inductive DriverInit := I_register (obj : string) (func : InitFn) | I_body (d : option Driver).

Definition run_driver_init (i : DriverInit) w : option Driver * Devices B :=
  match i with
  | I_register obj func =>
      (None, mkDevices (bus w) (<[obj := func]> (DRIVER_REGS w)) (IRQ_MANAGER w) (INT_DEVICE w) (MAIN_UART w) (ALL_DEVICES w))
  | I_body d => (d, w)
  end.

Definition prepare_drivers (inits : list DriverInit) w : outcome (Devices B) :=
  foldM (λ w i, let '(o, w) := run_driver_init i w in match o with Some d => add_device d w | None => Ret w end) inits w.

(** The first registered one of the compatible strings. *)
Definition find_driver (regs : gmap string InitFn) (compatibles : list string) : option InitFn :=
  head (omap (λ c, regs !! c) compatibles).

Definition try_to_add_device (w : Devices B) (n : Node) : outcome (Devices B) :=
  match nd_compatible n with
  | Some compatibles =>
      match find_driver (DRIVER_REGS w) compatibles with
      | Some f => '(d, w) ← run_init f n w; add_device d w
      | None => Ret w
      end
  | None => Ret w
  end.

(** The only controller is the PLIC; the map is walked in the order of its keys. *)
Definition register_irq (plic : Driver) (irq : Z) (b : B) : outcome B :=
  match plic with D_plic base => PLIC_register_irq base irq b | _ => Ret b end.

Definition irq_numbers (m : gmap Z Driver) : list Z := merge_sort Z.le (elements (dom m)).

Definition regist_devices_irq w : outcome (Devices B) :=
  o ← try_get (INT_DEVICE w);
  match o with
  | Some plic => b ← foldM (λ b irq, register_irq plic irq b) (irq_numbers (IRQ_MANAGER w)) (bus w); Ret (set_bus b w)
  | None => Ret w
  end.

(** The part of [main] that finds the devices; there may be no device tree. *)
Definition boot_devices (inits : list DriverInit) (fdt : option (list Node)) w : outcome (Devices B) :=
  w ← prepare_drivers inits w;
  w ← foldM try_to_add_device (default [] fdt) w;
  regist_devices_irq w.

(** [try_handle_interrupt] of a driver, as the trap handler calls it on the controller. *)
Definition try_handle_interrupt (d : Driver) (b : B) : outcome (bool * B) :=
  match d with D_plic base => PLIC_try_handle_interrupt base b | _ => Ret (false, b) end.

(** *** The console *)

(** [puts] and [get_char] of crates/devices/src/utils.rs; the debug console is polyhal's. *)
Context (console_putchar : Z → B → B).
Context (console_getchar : B → option Z * B).

Definition uart_put (d : Driver) (c : Z) (b : B) : outcome B := match d with D_uart base _ => Uart_put base c b | _ => Panic end.
Definition uart_get (d : Driver) (b : B) : outcome (option Z * B) := match d with D_uart base _ => Uart_get base b | _ => Panic end.

Definition puts (buffer : list Z) w : outcome (Devices B) :=
  let main_uart_inited := is_init (MAIN_UART w) in
  b ← foldM (λ b i, if main_uart_inited then uart ← lazy_get (MAIN_UART w); uart_put uart i b else Ret (console_putchar i b)) buffer (bus w);
  Ret (set_bus b w).

Definition get_char w : outcome (option Z * Devices B) :=
  o ← try_get (MAIN_UART w);
  match o with
  | Some uart => on_bus (uart_get uart) w
  | None => let '(c, b) := console_getchar (bus w) in Ret (c, set_bus b w)
  end.
End devices.

(** ** Initialisation happens once *)

Definition lazy_ok {T} (l : LazyInit T) : Prop := inited l = true ↔ is_Some (data l).

Lemma lazy_new_ok {T} : lazy_ok (@LazyInit_new T).
Proof. split; [done|]. by intros [x E]. Qed.

Lemma lazy_state {T} (l : LazyInit T) : lazy_ok l → l = LazyInit_new ∨ ∃ x, l = mkLazyInit true (Some x).
Proof.
  destruct l as [i d]. unfold lazy_ok. cbn. destruct i, d; intros [H1 H2].
  - right. by eexists.
  - by destruct (H1 eq_refl).
  - by specialize (H2 (ex_intro _ _ eq_refl)).
  - by left.
Qed.

(** A cell is initialised at most once, never read before, and keeps its value. *)
Theorem lazy_init_once {T} (l : LazyInit T) (x : T) : lazy_ok l →
  match init_by l x with
  | Ret l' => lazy_get l = Panic ∧ lazy_ok l' ∧ lazy_get l' = Ret x ∧ try_get l' = Ret (Some x) ∧ ∀ y, init_by l' y = Panic
  | Panic => ∃ y, lazy_get l = Ret y ∧ try_get l = Ret (Some y)
  end.
Proof. intros [->|[y ->]]%lazy_state; cbn; [|eauto]. by split_and!. Qed.

(** ** What the hardware promises *)

(** The registers of the interrupt controller that hold what is written: priorities of the
    sources, enable bits of the contexts, thresholds. *)
Definition priority_at (irq : Z) : Z := 4 * irq.
Definition enable_at (ctx irq : Z) : Z := 0x2000 + 0x80 * ctx + 4 * (irq / 32).
Definition threshold_at (ctx : Z) : Z := 0x200000 + 0x1000 * ctx.

Inductive plic_register : Z → Z → Prop :=
  | reg_priority irq v : 0 < irq < 1024 → 0 ≤ v < 8 → plic_register (priority_at irq) v
  | reg_enable ctx irq v : 0 ≤ ctx < 15872 → 0 ≤ irq < 1024 → 0 ≤ v < 4294967296 →
      (irq < 32 → Z.testbit v 0 = false) → plic_register (enable_at ctx irq) v
  | reg_threshold ctx v : 0 ≤ ctx < 15872 → 0 ≤ v < 8 → plic_register (threshold_at ctx) v.

Class PlicLaws (B : Type) `{Mmio B} (base : Z) := {
  plic_reg : B → Z → Z;
  plic_base : 0 ≤ base ∧ base + 0x4000000 ≤ USIZE;
  plic_enable_word b ctx irq : 0 ≤ ctx < 15872 → 0 ≤ irq < 1024 → plic_register (enable_at ctx irq) (plic_reg b (enable_at ctx irq));
  plic_read_law b off v : plic_register off v → mmio_read 4 (base + off) b = Ret (plic_reg b off, b);
  plic_write_law b off v : plic_register off v →
    ∃ b', mmio_write 4 (base + off) v b = Ret b' ∧ plic_reg b' off = v ∧ ∀ off', off' ≠ off → plic_reg b' off' = plic_reg b off';
  (** Aligned accesses of other devices succeed and leave the controller alone. *)
  other_read_law b n a : n ∈ [1; 2; 4] → a mod n = 0 → 0 ≤ a → a + n ≤ base ∨ base + 0x4000000 ≤ a →
    ∃ v b', mmio_read n a b = Ret (v, b') ∧ 0 ≤ v ∧ ∀ off, plic_reg b' off = plic_reg b off;
  other_write_law b n a v : n ∈ [1; 2; 4] → a mod n = 0 → 0 ≤ a → a + n ≤ base ∨ base + 0x4000000 ≤ a →
    ∃ b', mmio_write n a v b = Ret b' ∧ ∀ off, plic_reg b' off = plic_reg b off;
}.

Section plic.
Context {B : Type} `{Mmio B} (base : Z) {HP : PlicLaws B base}.
Implicit Types b : B.

(** Source [irq] is enabled in a context. *)
Definition enabled b (ctx irq : Z) : bool := Z.testbit (plic_reg b (enable_at ctx irq)) (irq mod 32).

(** Buses that agree on the controller's registers: all that the enable bits depend on. *)
Definition same_regs b b' : Prop := ∀ off, plic_reg b' off = plic_reg b off.

#[export] Instance same_regs_equivalence : Equivalence same_regs.
Proof. split; [done| |]; intros ?**; intros off; [done|etrans; eauto]. Qed.

#[export] Instance plic_reg_proper : Proper (same_regs ==> eq ==> eq) plic_reg.
Proof. intros b b' Hb off ? <-. symmetry. apply Hb. Qed.

#[export] Instance enabled_proper : Proper (same_regs ==> eq ==> eq ==> eq) enabled.
Proof. intros b b' Hb ctx ? <- irq ? <-. unfold enabled. by rewrite Hb. Qed.

Lemma or_bit v k j : 0 ≤ k < 32 → 0 ≤ j → Z.testbit (Z.lor v (as32 (Z.shiftl 1 k))) j = Z.testbit v j || bool_decide (j = k).
Proof.
  intros Hk Hj. rewrite Z.lor_spec. f_equal. unfold as32. rewrite Z.shiftl_1_l, Z.mod_small.
  2:{ split; [apply Z.pow_nonneg; lia|]. change 4294967296 with (2 ^ 32). apply Z.pow_lt_mono_r; lia. }
  rewrite Z.pow2_bits_eqb by lia. case_bool_decide; [subst; apply Z.eqb_refl|]. apply Z.eqb_neq. lia.
Qed.

Lemma or_bit_range v k : 0 ≤ k < 32 → 0 ≤ v < 4294967296 → 0 ≤ Z.lor v (as32 (Z.shiftl 1 k)) < 4294967296.
Proof.
  intros Hk Hv. unfold as32. pose proof (Z.mod_pos_bound (Z.shiftl 1 k) 4294967296).
  split; [apply Z.lor_nonneg; lia|]. change 4294967296 with (2 ^ 32) in *.
  destruct (decide (Z.lor v (Z.shiftl 1 k mod 2 ^ 32) = 0)) as [->|]; [lia|]. apply Z.log2_lt_pow2; [|].
  - assert (0 ≤ Z.lor v (Z.shiftl 1 k mod 2 ^ 32)) by (apply Z.lor_nonneg; lia). lia.
  - rewrite Z.log2_lor by lia. apply Z.max_lub_lt.
    + destruct (decide (v = 0)) as [->|]; [done|]. apply Z.log2_lt_pow2; lia.
    + destruct (decide (Z.shiftl 1 k mod 2 ^ 32 = 0)) as [->|]; [done|]. apply Z.log2_lt_pow2; lia.
Qed.

(** Enabling the bit [k] of the word that the driver addresses. *)
Lemma enable_write b ctx irq k : 0 ≤ ctx < 15872 → 0 ≤ irq < 1024 → 0 ≤ k < 32 → (irq < 32 → k ≠ 0) →
  ∃ b', ('(v, b) ← mmio_read 4 (base + enable_at ctx irq) b; mmio_write 4 (base + enable_at ctx irq) (Z.lor v (as32 (Z.shiftl 1 k))) b) = Ret b' ∧
    plic_reg b' (enable_at ctx irq) = Z.lor (plic_reg b (enable_at ctx irq)) (as32 (Z.shiftl 1 k)) ∧
    ∀ off', off' ≠ enable_at ctx irq → plic_reg b' off' = plic_reg b off'.
Proof.
  intros Hc Hi Hk H0. pose proof (plic_enable_word b ctx irq Hc Hi) as Hw. rewrite (plic_read_law b _ _ Hw). step_ret.
  apply plic_write_law. remember (plic_reg b (enable_at ctx irq)) as v eqn:Ev. remember (enable_at ctx irq) as off eqn:Eo.
  assert (0 ≤ irq / 32 < 32) by (split; [apply Z.div_pos; lia|apply Z.div_lt_upper_bound; lia]).
  destruct Hw as [i v ? ?|c i v Hc' Hi' Hv Hb|c v ? ?].
  - unfold priority_at, enable_at in Eo. lia.
  - rewrite Eo. constructor; [done|done|by apply or_bit_range|]. intros Hs. assert (i < 32).
    { unfold enable_at in Eo. assert (0 ≤ i / 32 < 32) by (split; [apply Z.div_pos; lia|apply Z.div_lt_upper_bound; lia]).
      assert (irq / 32 = 0) as E0 by (apply Z.div_small; lia). rewrite E0 in Eo. assert (i / 32 = 0) by lia.
      pose proof (Z.div_mod i 32). pose proof (Z.mod_pos_bound i 32). lia. }
    rewrite or_bit by lia. rewrite Hb by done. by rewrite bool_decide_eq_false_2 by (specialize (H0 Hs); lia).
  - unfold threshold_at, enable_at in Eo. lia.
Qed.

Lemma context_one : plic_context 0 true = 1.
Proof. reflexivity. Qed.

(** Two words of enable bits. *)
Lemma enable_at_inj c c' i i' : 0 ≤ i < 1024 → 0 ≤ i' < 1024 → enable_at c i = enable_at c' i' → c = c' ∧ i / 32 = i' / 32.
Proof.
  unfold enable_at. intros Hi Hi' E. assert (0 ≤ i / 32 < 32) by (split; [apply Z.div_pos; lia|apply Z.div_lt_upper_bound; lia]).
  assert (0 ≤ i' / 32 < 32) by (split; [apply Z.div_pos; lia|apply Z.div_lt_upper_bound; lia]). lia.
Qed.

Lemma enable_bit_eq i i' : 0 ≤ i → 0 ≤ i' → i / 32 = i' / 32 → i mod 32 = i' mod 32 ↔ i = i'.
Proof. intros Hi Hi' E. pose proof (Z.div_mod i 32). pose proof (Z.div_mod i' 32). split; [lia|by intros ->]. Qed.

(** Registering an interrupt of the first word enables exactly that source, for the first hart
    in supervisor mode, and gives it priority seven. *)
Lemma register_irq_spec b irq : 0 < irq < 32 → ∃ b', PLIC_register_irq base irq b = Ret b' ∧
  (∀ ctx s, 0 ≤ ctx < 15872 → 0 ≤ s < 1024 → enabled b' ctx s = enabled b ctx s || bool_decide (ctx = 1 ∧ s = irq)) ∧
  (∀ s, 0 ≤ s < 1024 → plic_reg b' (priority_at s) = if decide (s = irq) then 7 else plic_reg b (priority_at s)).
Proof.
  intros Hi. destruct (plic_base (base := base)) as [Hb0 Hb]. unfold PLIC_register_irq, set_irq_enable. rewrite context_one.
  destruct (enable_write b 1 irq irq) as (b1 & E1 & Hv & Ho); [lia..|].
  assert (irq / 32 = 0) as Ed by (apply Z.div_small; lia). assert (enable_at 1 irq = 0x2080) as Ea by (unfold enable_at; rewrite Ed; done).
  rewrite Ea in E1, Hv, Ho. rewrite Ed, (Z.mod_small irq 32) by lia. unfold USIZE in *.
  replace (((base +u 8192) +u 0) +u (1 *u 128)) with (base + 0x2080).
  2:{ change (1 *u 128) with 128. unwrap_u. lia. }
  rewrite E1. step_ret. unfold set_priority. destruct (plic_write_law b1 (priority_at irq) 7) as (b2 & E2 & Hv2 & Ho2); [constructor; lia|].
  replace (base +u (irq *u 4)) with (base + priority_at irq). 2:{ unfold priority_at. unwrap_u. lia. }
  rewrite E2. exists b2. split; [done|]. split.
  - intros ctx s Hc Hs. unfold enabled. rewrite Ho2.
    2:{ unfold enable_at, priority_at. assert (0 ≤ s / 32) by (apply Z.div_pos; lia). lia. }
    destruct (decide (enable_at ctx s = 0x2080)) as [E|E].
    + rewrite E, Hv, or_bit by (try lia; apply Z.mod_pos_bound; lia). f_equal. rewrite <- Ea in E.
      apply enable_at_inj in E as [-> Es]; [|lia..]. apply bool_decide_ext. rewrite <- (Z.mod_small irq 32) at 1 by lia.
      rewrite enable_bit_eq by lia. naive_solver.
    + rewrite Ho by done. rewrite bool_decide_eq_false_2, orb_false_r; [done|]. intros [-> ->]. by rewrite Ea in E.
  - intros s Hs. case_decide as E; [by rewrite E|]. rewrite Ho2 by (unfold priority_at; lia). apply Ho. unfold priority_at. lia.
Qed.

(** *** Enabling the registered interrupts *)

Lemma register_irqs_spec (l : list Z) b : Forall (λ irq, 0 < irq < 32) l →
  ∃ b', foldM (λ b irq, PLIC_register_irq base irq b) l b = Ret b' ∧
    (∀ ctx s, 0 ≤ ctx < 15872 → 0 ≤ s < 1024 → enabled b' ctx s = enabled b ctx s || bool_decide (ctx = 1 ∧ s ∈ l)) ∧
    (∀ s, 0 ≤ s < 1024 → plic_reg b' (priority_at s) = if decide (s ∈ l) then 7 else plic_reg b (priority_at s)).
Proof.
  revert b. induction l as [|i l IH]; intros b Hl.
  { exists b. split; [done|]. split; [|done]. intros ctx s _ _. by rewrite bool_decide_eq_false_2, orb_false_r by (intros [_ []%not_elem_of_nil]). }
  apply Forall_cons in Hl as [Hi Hl]. destruct (register_irq_spec b i Hi) as (b1 & E1 & He1 & Hp1).
  destruct (IH b1 Hl) as (b2 & E2 & He2 & Hp2). exists b2. cbn [foldM]. rewrite E1. split; [done|]. split.
  - intros ctx s Hc Hs. rewrite He2, He1, <- orb_assoc by done. f_equal. pose proof (elem_of_cons l s i). repeat case_bool_decide; naive_solver.
  - intros s Hs. rewrite Hp2, Hp1 by done. pose proof (elem_of_cons l s i). repeat case_decide; naive_solver.
Qed.

(** *** Finding the devices *)

Context (transport_new : Z → B → outcome (option VirtioType * B)).
Context (virtio_new : VirtioType → Z → B → outcome (bool * B)).

(** An address outside the window of the controller. *)
Definition elsewhere (a n : Z) : Prop := 0 ≤ a ∧ a + n < USIZE ∧ (a + n ≤ base ∨ base + 0x4000000 ≤ a).

#[export] Instance elsewhere_dec a n : Decision (elsewhere a n).
Proof. unfold elsewhere. apply _. Defined.

(** The virtio library leaves the interrupt controller alone, and its devices start. *)
Record virtio_quiet : Prop := {
  transport_quiet v b : elsewhere v 0x1000 → ∃ t b', transport_new v b = Ret (t, b') ∧ same_regs b b';
  virtio_starts t v b : elsewhere v 0x1000 → ∃ b', virtio_new t v b = Ret (true, b') ∧ same_regs b b';
}.

(** A node that the driver found for it can work with. *)
Definition node_ok (regs : gmap string InitFn) (n : Node) : Prop :=
  match nd_compatible n ≫= find_driver regs with
  | Some F_plic => ∃ a, raw_address n = Ret a ∧ base = VIRT_ADDR_START +u a
  | Some F_rtc => ∃ a, raw_address n = Ret a ∧ elsewhere (VIRT_ADDR_START +u a) 8 ∧ (VIRT_ADDR_START +u a) mod 4 = 0
  | Some F_uart => ∃ a, (nd_reg n ≫= head) = Some a ∧ elsewhere (VIRT_ADDR_START +u a) 8 ∧ (VIRT_ADDR_START +u a) mod 2 = 0
  | Some F_virtio => ∀ a, (nd_reg n ≫= head) = Some a → elsewhere (VIRT_ADDR_START +u a) 0x1000
  | None => True
  end.

Definition is_plic (regs : gmap string InitFn) (n : Node) : bool :=
  match nd_compatible n ≫= find_driver regs with Some F_plic => true | _ => false end.

(** What discovery keeps: the enable bits and priorities are those of [b0], the map of
    interrupts names exactly the interrupts of the serial lines and input devices found,
    which come from nodes. *)
Record found (b0 : B) (regs : gmap string InitFn) (nodes : list Node) (plics : nat) (w : Devices B) : Prop := {
  fo_regs : DRIVER_REGS w = regs;
  fo_enabled ctx s : 0 ≤ ctx < 15872 → 0 ≤ s < 1024 → enabled (bus w) ctx s = enabled b0 ctx s;
  fo_priority s : 0 ≤ s < 1024 → plic_reg (bus w) (priority_at s) = plic_reg b0 (priority_at s);
  fo_irqs irq : is_Some (IRQ_MANAGER w !! irq) ↔ ∃ d, d ∈ ds_uart (ALL_DEVICES w) ++ ds_input (ALL_DEVICES w) ∧ irq ∈ interrupts d;
  fo_nodes d irq : d ∈ ds_uart (ALL_DEVICES w) ++ ds_input (ALL_DEVICES w) → irq ∈ interrupts d → ∃ n, n ∈ nodes ∧ irq ∈ node_to_interrupts n;
  fo_int : INT_DEVICE w = if decide (plics = 0%nat) then LazyInit_new else mkLazyInit true (Some (D_plic base));
  fo_uart : is_init (MAIN_UART w) = bool_decide (ds_uart (ALL_DEVICES w) ≠ []);
}.

Lemma same_regs_found b0 regs nodes k w b : found b0 regs nodes k w → same_regs (bus w) b → found b0 regs nodes k (set_bus b w).
Proof.
  intros Hf Hb. destruct Hf. split; [done| | |done|done|done|done]; cbn [bus set_bus].
  - intros ctx s Hc Hs. rewrite <- Hb. by apply fo_enabled0.
  - intros s Hs. rewrite <- Hb. by apply fo_priority0.
Qed.

Lemma found_more b0 regs nodes n k w : found b0 regs nodes k w → found b0 regs (nodes ++ [n]) k w.
Proof.
  intros []. split; try done. intros d irq Hd Hi. destruct (fo_nodes0 d irq Hd Hi) as (m & Hm & Hmi). exists m. split; [|done].
  apply elem_of_app. by left.
Qed.

Lemma insert_irqs (l : list Z) (d : Driver) (m : gmap Z Driver) irq :
  is_Some (foldl (λ m i, <[i := d]> m) m l !! irq) ↔ is_Some (m !! irq) ∨ irq ∈ l.
Proof.
  revert m. induction l as [|i l IH]; intros m; cbn [foldl].
  - split; [by left|]. by intros [|[]%not_elem_of_nil].
  - rewrite IH, elem_of_cons, lookup_insert_is_Some. destruct (decide (i = irq)) as [->|]; naive_solver.
Qed.

(** Adding a device that is not an interrupt controller, a serial line or an input device. *)
Lemma add_plain b0 regs nodes k w d : found b0 regs nodes k w →
  match get_device_wrapper d with T_rtc | T_blk | T_net | T_none => True | _ => False end →
  ∃ w', add_device d w = Ret w' ∧ found b0 regs nodes k w'.
Proof. intros [] Hd. unfold add_device. destruct (get_device_wrapper d); try done; eexists; (split; [done|]); by split. Qed.

Lemma add_input b0 regs nodes n k w v : found b0 regs nodes k w →
  ∃ w', add_device (D_input v (node_to_interrupts n)) (register_device_irqs (D_input v (node_to_interrupts n)) w) = Ret w' ∧
    found b0 regs (nodes ++ [n]) k w'.
Proof.
  intros Hf. apply (found_more _ _ _ n) in Hf. destruct Hf. eexists. split; [done|]. split; try done; cbn [set_devices register_device_irqs set_irqs IRQ_MANAGER ALL_DEVICES ds_uart ds_input interrupts].
  - intros irq. rewrite insert_irqs, fo_irqs0. setoid_rewrite elem_of_app. setoid_rewrite elem_of_app. setoid_rewrite list_elem_of_singleton. split.
    + intros [(d & Hd & Hi)|Hi]; [exists d; naive_solver|]. eexists. split; [right; right; done|done].
    + intros (d & [Hd|[Hd| ->]] & Hi); [left; exists d; naive_solver..|by right].
  - intros d irq. rewrite !elem_of_app, list_elem_of_singleton. intros [Hd|[Hd| ->]] Hi; [apply (fo_nodes0 d irq); [set_solver|done]..|].
    exists n. split; [set_solver|done].
Qed.

Lemma add_uart b0 regs nodes n k w a : found b0 regs nodes k w →
  ∃ w', add_device (D_uart a (node_to_interrupts n)) (register_device_irqs (D_uart a (node_to_interrupts n)) w) = Ret w' ∧
    found b0 regs (nodes ++ [n]) k w'.
Proof.
  intros Hf. apply (found_more _ _ _ n) in Hf. destruct Hf. unfold add_device. cbn [get_device_wrapper].
  assert (∃ l, (if decide (length (ds_uart (ALL_DEVICES (register_device_irqs (D_uart a (node_to_interrupts n)) w))) = 0%nat)
    then l ← init_by (MAIN_UART (register_device_irqs (D_uart a (node_to_interrupts n)) w)) (D_uart a (node_to_interrupts n));
         Ret (set_uart l (register_device_irqs (D_uart a (node_to_interrupts n)) w)) else Ret (register_device_irqs (D_uart a (node_to_interrupts n)) w))
    = Ret (set_uart l (register_device_irqs (D_uart a (node_to_interrupts n)) w)) ∧ is_init l = true) as (l & -> & Hl).
  { cbn [register_device_irqs set_irqs MAIN_UART ALL_DEVICES]. unfold init_by. rewrite fo_uart0. destruct (decide (length (ds_uart (ALL_DEVICES w)) = 0%nat)) as [E|E].
    - apply nil_length_inv in E. rewrite E. cbn. by eexists.
    - rewrite bool_decide_eq_true_2 in fo_uart0 by (intros E'; apply E; by rewrite E'). exists (MAIN_UART w). by destruct w. }
  step_ret. eexists. split; [done|].
  split; try done; cbn [set_devices set_uart register_device_irqs set_irqs IRQ_MANAGER ALL_DEVICES MAIN_UART ds_uart ds_input interrupts].
  - intros irq. rewrite insert_irqs, fo_irqs0. setoid_rewrite elem_of_app. setoid_rewrite elem_of_app. setoid_rewrite list_elem_of_singleton. split.
    + intros [(d & Hd & Hi)|Hi]; [exists d; naive_solver|]. eexists. split; [left; right; done|done].
    + intros (d & [[Hd| ->]|Hd] & Hi); [left; exists d; naive_solver|by right|left; exists d; naive_solver].
  - intros d irq. rewrite !elem_of_app, list_elem_of_singleton. intros [[Hd| ->]|Hd] Hi; [apply (fo_nodes0 d irq); [set_solver|done]| |apply (fo_nodes0 d irq); [set_solver|done]].
    exists n. split; [set_solver|done].
  - rewrite Hl. symmetry. apply bool_decide_eq_true_2. by destruct (ds_uart (ALL_DEVICES w)).
Qed.

(** *** The drivers' entry points leave the controller as it is, but for its threshold *)

Lemma elsewhere_write b a n k v : n ∈ [1; 2; 4] → elsewhere a k → 0 ≤ n ≤ k → a mod n = 0 →
  ∃ b', mmio_write n a v b = Ret b' ∧ same_regs b b'.
Proof. intros Hn (H0 & H1 & H2) Hk Ha. apply other_write_law; [done|done|done|lia]. Qed.

Lemma elsewhere_part a n o k : elsewhere a n → 0 ≤ o → 0 ≤ k → o + k ≤ n → elsewhere (a + o) k ∧ a +u o = a + o.
Proof. intros (H0 & H1 & H2) Ho Hk Hn. split; [split_and!; lia|]. apply wrap_small. unfold is_usize. lia. Qed.

Lemma Uart_init_quiet a w1 w2 w3 w4 w5 w6 w7 w8 b : elsewhere a 8 → a mod 2 = 0 →
  ∃ b', Uart_init a w1 w2 w3 w4 w5 w6 w7 w8 b = Ret b' ∧ same_regs b b'.
Proof.
  intros Ha Hm. unfold Uart_init, set_lcr, set_fcr.
  destruct (elsewhere_part a 8 3 1 Ha) as [H3 ->]; [lia..|]. destruct (elsewhere_part a 8 2 1 Ha) as [H2 ->]; [lia..|].
  edestruct (elsewhere_write b (a + 3) 1 1) as (b1 & -> & R1); [set_solver|exact H3|lia|apply Z.mod_1_r|]. step_ret.
  edestruct (elsewhere_write b1 (a + 2) 1 1) as (b2 & -> & R2); [set_solver|exact H2|lia|apply Z.mod_1_r|]. step_ret.
  edestruct (elsewhere_write b2 a 2 8) as (b3 & -> & R3); [set_solver|exact Ha|lia|done|]. step_ret.
  edestruct (elsewhere_write b3 (a + 3) 1 1) as (b4 & -> & R4); [set_solver|exact H3|lia|apply Z.mod_1_r|].
  exists b4. split; [done|]. by rewrite R1, R2, R3, R4.
Qed.

Lemma Rtc_quiet a b : elsewhere a 8 → a mod 4 = 0 → ∃ v b', Rtc_read_timestamp a b = Ret (v, b') ∧ same_regs b b'.
Proof.
  intros Ha Hm. unfold Rtc_read_timestamp, Rtc_read, TIMER_TIME_LOW, TIMER_TIME_HIGH.
  destruct (elsewhere_part a 8 0 4 Ha) as [H0 ->]; [lia..|]. destruct (elsewhere_part a 8 4 4 Ha) as [H4 ->]; [lia..|].
  destruct H0 as (? & ? & H0), H4 as (? & ? & H4).
  destruct (other_read_law b 4 (a + 0)) as (v1 & b1 & -> & _ & R1); [set_solver|by rewrite Z.add_0_r|lia|done|]. step_ret.
  destruct (other_read_law b1 4 (a + 4)) as (v2 & b2 & -> & _ & R2); [set_solver| |lia|done|].
  { rewrite Z.add_mod, Hm by lia. done. }
  step_ret. eexists _, b2. split; [done|]. by transitivity b1.
Qed.

Lemma set_thresold_quiet b : ∃ b', set_thresold base 0 true 0 b = Ret b' ∧
  (∀ ctx s, 0 ≤ ctx < 15872 → 0 ≤ s < 1024 → plic_reg b' (enable_at ctx s) = plic_reg b (enable_at ctx s)) ∧
  (∀ s, 0 ≤ s < 1024 → plic_reg b' (priority_at s) = plic_reg b (priority_at s)).
Proof.
  destruct (plic_base (base := base)) as [Hb0 Hb]. unfold set_thresold. rewrite context_one.
  destruct (plic_write_law b (threshold_at 1) 0) as (b' & E & _ & Ho); [constructor; lia|].
  replace ((base +u 0x200000) +u (1 *u 0x1000)) with (base + threshold_at 1).
  2:{ change (1 *u 0x1000) with 0x1000. unfold threshold_at, USIZE in *. unwrap_u. lia. }
  exists b'. split; [done|]. split; intros; apply Ho; unfold threshold_at, enable_at, priority_at; [|lia].
  assert (s / 32 < 32) by (apply Z.div_lt_upper_bound; lia). lia.
Qed.

(** One node. *)
Lemma try_to_add_ok b0 regs nodes k w n : virtio_quiet → found b0 regs nodes k w → node_ok regs n → (is_plic regs n = true → k = 0%nat) →
  ∃ w', try_to_add_device transport_new virtio_new w n = Ret w' ∧
    found b0 regs (nodes ++ [n]) (if is_plic regs n then S k else k) w'.
Proof.
  intros Hq Hf Hn Hk. unfold try_to_add_device, is_plic, node_ok in *. rewrite (fo_regs _ _ _ _ _ Hf).
  destruct (nd_compatible n) as [cs|]; cbn [mbind option_bind] in *; [|eexists; split; [done|]; by apply found_more].
  destruct (find_driver regs cs) as [[]|]; cbn [run_init] in *.
  - unfold init_mmio. destruct (nd_reg n ≫= head) as [a|] eqn:Ea.
    2:{ step_ret. apply (add_plain _ _ _ _ _ D_unsupported); [by apply found_more|done]. }
    specialize (Hn a eq_refl). unfold on_bus. destruct (transport_quiet Hq _ (bus w) Hn) as (t & b1 & -> & R1). step_ret.
    pose proof (same_regs_found _ _ _ _ _ b1 Hf R1) as Hf1. destruct t as [t|]; [|step_ret; apply (add_plain _ _ _ _ _ D_unsupported); [by apply found_more|done]].
    unfold virtio_device, virtio_blk_init, virtio_input_init, virtio_net_init, virtio_create.
    destruct (virtio_starts Hq t _ b1 Hn) as (b2 & Es & R2). assert (found b0 regs nodes k (set_bus b2 (set_bus b1 w))) as Hf2 by (by apply same_regs_found).
    destruct t; cbn [bus set_bus]; rewrite ?Es; step_ret; cbv zeta.
    + apply add_plain; [by apply found_more|done].
    + by apply add_input.
    + apply (add_plain _ _ _ _ _ (D_net _ _)); [|done]. by apply found_more.
    + apply (add_plain _ _ _ _ _ D_unsupported); [by apply found_more|done].
  - destruct Hn as (a & Ea & He & Hm). unfold init_rtc, on_bus. rewrite Ea. step_ret. cbv zeta.
    destruct (Rtc_quiet _ (bus w) He Hm) as (v & b1 & -> & R1). step_ret. apply (add_plain _ _ _ _ _ (D_rtc _)); [|done].
    apply found_more. by apply same_regs_found.
  - destruct Hn as (a & Ea & Eb). unfold plic_init_driver. rewrite Ea. step_ret. cbv zeta. rewrite <- Eb.
    destruct (set_thresold_quiet (bus w)) as (b1 & -> & Re & Rp). step_ret. specialize (Hk eq_refl) as ->.
    unfold add_device. cbn [get_device_wrapper set_bus INT_DEVICE]. rewrite (fo_int _ _ _ _ _ Hf). cbn. eexists. split; [done|].
    apply (found_more _ _ _ n) in Hf. destruct Hf. split; try done; cbn [bus set_int set_bus].
    + intros ctx s Hc Hs. unfold enabled. rewrite Re by done. by apply fo_enabled0.
    + intros s Hs. rewrite Rp by done. by apply fo_priority0.
  - destruct Hn as (a & Ea & He & Hm). unfold uart_init_driver. destruct (nd_reg n) as [l|]; [|done]. cbn [mbind option_bind] in Ea.
    cbn [unwrap]. step_ret. rewrite Ea. cbn [unwrap]. step_ret. cbv zeta.
    destruct (Uart_init_quiet _ 3 0 0 0 0 0 0 0x60 (bus w) He Hm) as (b1 & E1 & R1).
    cbn [register_device_irqs set_irqs bus]. rewrite E1. step_ret.
    pose proof (same_regs_found _ _ _ _ _ b1 Hf R1) as Hf1. apply (add_uart _ _ _ n _ _ (VIRT_ADDR_START +u a)) in Hf1 as (w' & E & Hw'). by exists w'.
  - eexists; split; [done|]. by apply found_more.
Qed.

Definition plic_count (regs : gmap string InitFn) (nodes : list Node) : nat := length (filter (λ n, is_plic regs n = true) nodes).

Lemma find_devices_ok b0 regs done nodes k w : virtio_quiet → found b0 regs done k w → Forall (node_ok regs) nodes →
  (k + plic_count regs nodes ≤ 1)%nat →
  ∃ w', foldM (try_to_add_device transport_new virtio_new) nodes w = Ret w' ∧ found b0 regs (done ++ nodes) (k + plic_count regs nodes) w'.
Proof.
  intros Hq. revert done k w. induction nodes as [|n nodes IH]; intros done k w Hf Hn Hk.
  { exists w. split; [done|]. rewrite app_nil_r. unfold plic_count. cbn. by rewrite Nat.add_0_r. }
  apply Forall_cons in Hn as [Hn Hns]. unfold plic_count in *. rewrite filter_cons in *.
  destruct (try_to_add_ok b0 regs done k w n Hq Hf Hn) as (w1 & E1 & Hf1).
  { intros E. rewrite decide_True in Hk by done. cbn [length] in Hk. lia. }
  cbn [foldM]. rewrite E1. edestruct (IH (done ++ [n])) as (w2 & E2 & Hf2); [exact Hf1|done| |].
  - destruct (is_plic regs n); [rewrite decide_True in Hk by done|rewrite decide_False in Hk by done]; cbn [length] in Hk; lia.
  - exists w2. split; [done|]. rewrite <- app_assoc in Hf2.
    destruct (is_plic regs n); [rewrite decide_True by done|rewrite decide_False by done]; cbn [length]; [|done]. by rewrite Nat.add_succ_r.
Qed.

Definition registers (inits : list DriverInit) : gmap string InitFn :=
  foldl (λ m i, match i with I_register obj f => <[obj := f]> m | I_body _ => m end) ∅ inits.

Lemma prepare_ok b (inits : list DriverInit) : Forall (λ i, ∃ o f, i = I_register o f) inits →
  ∃ w, prepare_drivers inits (Devices_new b) = Ret w ∧ found b (registers inits) [] 0 w.
Proof.
  intros Hi. unfold registers. assert (∀ w r, found b r [] 0 w → ∃ w', prepare_drivers inits w = Ret w' ∧
    found b (foldl (λ m i, match i with I_register obj f => <[obj := f]> m | I_body _ => m end) r inits) [] 0 w') as Hgen.
  { induction Hi as [|i l (o & f & ->) _ IH]; intros w r Hw; [by exists w|]. unfold prepare_drivers. cbn [foldM run_driver_init foldl].
    apply IH. destruct Hw. split; try done. cbn [DRIVER_REGS]. by rewrite fo_regs0. }
  apply Hgen. split; try done; intros irq; cbn; [|by intros ? []%not_elem_of_nil].
  rewrite lookup_empty. split; [by intros []|]. by intros (d & []%not_elem_of_nil & _).
Qed.

Lemma elem_irq_numbers (m : gmap Z Driver) irq : irq ∈ irq_numbers m ↔ is_Some (m !! irq).
Proof. unfold irq_numbers. rewrite merge_sort_Permutation, elem_of_elements. apply elem_of_dom. Qed.
Lemma elem_found_irqs b0 regs nodes k w irq : found b0 regs nodes k w →
  irq ∈ irq_numbers (IRQ_MANAGER w) ↔ ∃ d, d ∈ ds_uart (ALL_DEVICES w) ++ ds_input (ALL_DEVICES w) ∧ irq ∈ interrupts d.
Proof. intros F. rewrite elem_irq_numbers. apply (fo_irqs _ _ _ _ _ F). Qed.

(** The search for devices and the registration of their interrupts come to an end. *)
Lemma boot_devices_found (inits : list DriverInit) nodes b : virtio_quiet → Forall (λ i, ∃ o f, i = I_register o f) inits →
  Forall (node_ok (registers inits)) nodes → plic_count (registers inits) nodes = 1%nat →
  Forall (λ n, Forall (λ irq, 0 < irq < 32) (node_to_interrupts n)) nodes →
  ∃ w b', boot_devices transport_new virtio_new inits (Some nodes) (Devices_new b) = Ret (set_bus b' w) ∧ found b (registers inits) nodes 1 w ∧
    foldM (λ b irq, PLIC_register_irq base irq b) (irq_numbers (IRQ_MANAGER w)) (bus w) = Ret b' ∧
    Forall (λ irq, 0 < irq < 32) (irq_numbers (IRQ_MANAGER w)).
Proof.
  intros Hq Hi Hn Hc Hr. unfold boot_devices. destruct (prepare_ok b inits Hi) as (w0 & -> & F0). step_ret.
  destruct (find_devices_ok b (registers inits) [] nodes 0 w0 Hq F0 Hn) as (w1 & E1 & F1); [lia|].
  change (default [] (Some nodes)) with nodes. rewrite E1. step_ret. rewrite Hc in F1. unfold regist_devices_irq. rewrite (fo_int _ _ _ _ _ F1). cbn [decide].
  rewrite decide_False by done. cbn [try_get is_init inited get_unchecked data unwrap]. step_ret. cbn [register_irq].
  assert (Forall (λ irq, 0 < irq < 32) (irq_numbers (IRQ_MANAGER w1))) as Hin.
  { apply Forall_forall. intros s (d & Hd & Hi')%(elem_found_irqs _ _ _ _ _ _ F1). destruct (fo_nodes _ _ _ _ _ F1 d s Hd Hi') as (n & Hnn & Hns).
    rewrite Forall_forall in Hr. specialize (Hr n Hnn). rewrite Forall_forall in Hr. by apply Hr. }
  destruct (register_irqs_spec (irq_numbers (IRQ_MANAGER w1)) (bus w1) Hin) as (b2 & E2 & _). rewrite E2. step_ret. exists w1, b2. by split_and!.
Qed.
End plic.

(** C8: booting enables exactly the interrupts of the devices it finds.  On a machine whose
    device tree has one interrupt controller, usable nodes for the registered drivers, and
    interrupt numbers below 32, the search for devices ends; afterwards a source is enabled
    for the first hart in supervisor mode if it was enabled before or is an interrupt of a
    serial line or input device that was found, these have priority seven, and every other
    source, context and priority is as the firmware left it. *)
Theorem boot_enables_interrupts {B} `{Mmio B} (base : Z) {HP : PlicLaws B base}
    (transport_new : Z → B → outcome (option VirtioType * B)) (virtio_new : VirtioType → Z → B → outcome (bool * B))
    (inits : list DriverInit) (nodes : list Node) (b : B) :
  virtio_quiet base transport_new virtio_new →
  Forall (λ i, ∃ o f, i = I_register o f) inits →
  Forall (node_ok base (registers inits)) nodes →
  plic_count (registers inits) nodes = 1%nat →
  Forall (λ n, Forall (λ irq, 0 < irq < 32) (node_to_interrupts n)) nodes →
  ∃ w, boot_devices transport_new virtio_new inits (Some nodes) (Devices_new b) = Ret w ∧
    let found_irq s := ∃ d, d ∈ ds_uart (ALL_DEVICES w) ++ ds_input (ALL_DEVICES w) ∧ s ∈ interrupts d in
    get_int_device w = Ret (D_plic base) ∧
    ∀ s, 0 ≤ s < 1024 →
      (enabled base (bus w) 1 s = true ↔ enabled base b 1 s = true ∨ found_irq s) ∧
      (∀ ctx, 0 ≤ ctx < 15872 → ctx ≠ 1 → enabled base (bus w) ctx s = enabled base b ctx s) ∧
      (found_irq s → plic_reg (bus w) (priority_at s) = 7) ∧
      (¬ found_irq s → plic_reg (bus w) (priority_at s) = plic_reg b (priority_at s)).
Proof.
  intros Hq Hi Hn Hc Hr. destruct (boot_devices_found base transport_new virtio_new inits nodes b Hq Hi Hn Hc Hr) as (w1 & b2 & -> & F1 & E2 & Hin).
  destruct (register_irqs_spec base (irq_numbers (IRQ_MANAGER w1)) (bus w1) Hin) as (b3 & E3 & He & Hp). rewrite E2 in E3. injection E3 as <-.
  eexists. split; [done|]. cbv zeta. cbn [ALL_DEVICES set_bus bus get_int_device INT_DEVICE].
  split; [unfold get_int_device; cbn [INT_DEVICE set_bus]; by rewrite (fo_int _ _ _ _ _ _ F1)|].
  intros s Hs0. rewrite <- (elem_found_irqs base b _ nodes 1 w1 s F1). split_and!.
  - rewrite He, (fo_enabled _ _ _ _ _ _ F1), orb_true_iff, bool_decide_eq_true by lia. naive_solver.
  - intros ctx Hc0 Hc1. rewrite He, (fo_enabled _ _ _ _ _ _ F1) by lia. by rewrite bool_decide_eq_false_2, orb_false_r by naive_solver.
  - intros Hs. rewrite Hp by lia. by rewrite decide_True.
  - intros Hs. rewrite Hp by lia. rewrite decide_False by done. apply (fo_priority _ _ _ _ _ _ F1). lia.
Qed.

(** *** The machine of the qemu configuration *)

(** A bus whose registers hold what is written; the source 0 of the controller does not
    exist. *)
Definition demo_base : Z := VIRT_ADDR_START +u 0xc000000.

Definition demo_word (off v : Z) : Z :=
  as32 (if decide (0x2000 ≤ off ∧ off < 0x1f2000 ∧ off mod 0x80 = 0) then Z.clearbit v 0 else v).

#[export] Instance demo_bus : Mmio (gmap Z Z) := {|
  mmio_read n a b := if decide (a mod n = 0) then Ret (demo_word (a - demo_base) (default 0 (b !! a)), b) else Panic;
  mmio_write n a v b := if decide (a mod n = 0) then Ret (<[a := v]> b) else Panic;
|}.

Definition demo_reg (b : gmap Z Z) (off : Z) : Z :=
  if decide (0 ≤ off < 0x4000000) then demo_word off (default 0 (b !! (demo_base + off))) else 0.

Lemma demo_register off v : plic_register off v → 0 ≤ off < 0x4000000 ∧ (demo_base + off) mod 4 = 0 ∧ demo_word off v = v.
Proof.
  assert (∀ k, (demo_base + 4 * k) mod 4 = 0) as H4.
  { intros k. replace (demo_base + 4 * k) with (0 + (demo_base / 4 + k) * 4) by (pose proof (Z.div_mod demo_base 4); change (demo_base mod 4) with 0 in *; lia).
    by rewrite Z.mod_add. }
  intros [irq v' Hi Hv|ctx irq v' Hc Hi Hv Hb|ctx v' Hc Hv]; unfold demo_word, as32.
  - unfold priority_at. split; [lia|]. split; [apply H4|]. rewrite decide_False by lia. by apply Z.mod_small; lia.
  - unfold enable_at. assert (0 ≤ irq / 32 < 32) by (split; [apply Z.div_pos; lia|apply Z.div_lt_upper_bound; lia]).
    split; [lia|]. split; [replace (0x2000 + 0x80 * ctx + 4 * (irq / 32)) with (4 * (0x800 + 0x20 * ctx + irq / 32)) by lia; apply H4|].
    case_decide as E; [|by apply Z.mod_small]. destruct E as (_ & _ & E).
    replace (0x2000 + 0x80 * ctx + 4 * (irq / 32)) with (4 * (irq / 32) + (0x40 + ctx) * 0x80) in E by lia. rewrite Z.mod_add, Z.mod_small in E by lia.
    assert (irq < 32) by (pose proof (Z.div_mod irq 32); pose proof (Z.mod_pos_bound irq 32); lia).
    replace (Z.clearbit v' 0) with v'; [by apply Z.mod_small|]. apply Z.bits_inj'. intros j Hj. rewrite Z.clearbit_eqb.
    destruct (Z.eqb_spec 0 j) as [<-|]; [by rewrite Hb|]. by rewrite andb_true_r.
  - unfold threshold_at. split; [lia|]. split; [replace (0x200000 + 0x1000 * ctx) with (4 * (0x80000 + 0x400 * ctx)) by lia; apply H4|].
    rewrite decide_False by lia. by apply Z.mod_small; lia.
Qed.

#[export] Program Instance demo_plic : PlicLaws (gmap Z Z) demo_base := {| plic_reg := demo_reg |}.
Next Obligation. split; done. Qed.
Next Obligation.
  intros b ctx irq Hc Hi. assert (0 ≤ irq / 32 < 32) by (split; [apply Z.div_pos; lia|apply Z.div_lt_upper_bound; lia]).
  unfold demo_reg, demo_word. rewrite decide_True by (unfold enable_at; lia). constructor; [done|done|by apply Z.mod_pos_bound|].
  intros Hs. unfold as32. change 4294967296 with (2 ^ 32). rewrite Z.mod_pow2_bits_low by lia. rewrite decide_True; [by rewrite Z.clearbit_eq|].
  unfold enable_at. rewrite Z.div_small by lia. split_and!; [lia|lia|]. replace (0x2000 + 0x80 * ctx + 4 * 0) with (0 + (0x40 + ctx) * 0x80) by lia. by rewrite Z.mod_add.
Qed.
Next Obligation.
  intros b off v (Hr & Hm & _)%demo_register. cbn. rewrite decide_True by done. unfold demo_reg. rewrite decide_True by done.
  by replace (demo_base + off - demo_base) with off by lia.
Qed.
Next Obligation.
  intros b off v (Hr & Hm & Hw)%demo_register. cbn. rewrite decide_True by done. eexists. split; [done|]. unfold demo_reg. split.
  - rewrite decide_True, lookup_insert_eq by done. done.
  - intros off' Hne. case_decide; [|done]. by rewrite lookup_insert_ne by lia.
Qed.
Next Obligation.
  intros b n a Hn Hm Ha Ho. cbn. rewrite decide_True by done. eexists _, _. split; [done|]. split; [by apply Z.mod_pos_bound|done].
Qed.
Next Obligation.
  intros b n a v Hn Hm Ha Ho. cbn. rewrite decide_True by done. eexists. split; [done|]. intros off. unfold demo_reg. case_decide; [|done].
  rewrite lookup_insert_ne; [done|]. assert (0 < n) by (set_solver). lia.
Qed.

(** The drivers of the configuration and part of the device tree of the machine. *)
Definition qemu_drivers : list DriverInit :=
  [I_register "virtio,mmio" F_virtio; I_register "google,goldfish-rtc" F_rtc; I_register "riscv,plic0" F_plic; I_register "ns16550a" F_uart].

Definition be_reg (addr size : Z) : list Z := [0; 0; 0; 0] ++ rev (le_bytes 4 addr) ++ [0; 0; 0; 0] ++ rev (le_bytes 4 size).

Definition demo_tree : list Node := [
  mkNode (Some ["riscv-virtio"%string]) None None None;
  mkNode (Some ["google,goldfish-rtc"%string]) (Some [0x101000]) (Some (be_reg 0x101000 0x1000)) (Some [[11]]);
  mkNode (Some ["ns16550a"%string]) (Some [0x10000000]) (Some (be_reg 0x10000000 0x100)) (Some [[10]]);
  mkNode (Some ["virtio,mmio"%string]) (Some [0x10001000]) (Some (be_reg 0x10001000 0x1000)) (Some [[1]]);
  mkNode (Some ["virtio,mmio"%string]) (Some [0x10002000]) (Some (be_reg 0x10002000 0x1000)) (Some [[2]]);
  mkNode (Some ["sifive,plic-1.0.0"%string; "riscv,plic0"%string]) (Some [0xc000000]) (Some (be_reg 0xc000000 0x600000)) None].

(** One of the two virtio devices is a disk, the other an input device. *)
Definition demo_transport (v : Z) (b : gmap Z Z) : outcome (option VirtioType * gmap Z Z) :=
  Ret (Some (if decide (v = VIRT_ADDR_START +u 0x10001000) then V_block else V_input), b).
Definition demo_new (_ : VirtioType) (_ : Z) (b : gmap Z Z) : outcome (bool * gmap Z Z) := Ret (true, b).

Example demo_boot :
  match boot_devices demo_transport demo_new qemu_drivers (Some demo_tree) (Devices_new ∅) with
  | Ret w => filter (λ s, enabled demo_base (bus w) 1 s = true) (seqZ 0 1024) = [2; 10] ∧
      ALL_DEVICES w = mkDeviceSet [D_rtc (VIRT_ADDR_START + 0x101000)] [D_blk (VIRT_ADDR_START + 0x10001000) [1]] []
        [D_uart (VIRT_ADDR_START + 0x10000000) [10]] [D_input (VIRT_ADDR_START + 0x10002000) [2]]
  | Panic => False
  end.
Proof. vm_compute. split; reflexivity. Qed.

Lemma demo_nodes_ok : Forall (node_ok demo_base (registers qemu_drivers)) demo_tree.
Proof.
  repeat (apply Forall_cons; split); [..|by apply Forall_nil]; unfold node_ok;
    match goal with |- match ?x with _ => _ end => let y := eval vm_compute in x in replace x with y by (vm_compute; reflexivity) end.
  1: exact I.
  1,2: eexists; split; [vm_compute; reflexivity|]; split; [apply (bool_decide_unpack _); vm_compute; exact I|reflexivity].
  1,2: intros a [= <-]; apply (bool_decide_unpack _); vm_compute; exact I.
  exists 0xc000000. by split.
Qed.

Lemma demo_quiet : virtio_quiet demo_base demo_transport demo_new.
Proof. split; [intros v b _; by eexists _, _|intros t v b _; by eexists]. Qed.

Lemma boot_enables_interrupts_witness : ∃ w, boot_devices demo_transport demo_new qemu_drivers (Some demo_tree) (Devices_new ∅) = Ret w ∧
  get_int_device w = Ret (D_plic demo_base).
Proof.
  destruct (boot_enables_interrupts demo_base demo_transport demo_new qemu_drivers demo_tree ∅) as (w & E & Hi & _).
  - exact demo_quiet.
  - repeat constructor; by eexists _, _.
  - exact demo_nodes_ok.
  - reflexivity.
  - repeat constructor.
  - by exists w.
Defined.

(** ** What the drivers get wrong *)

(** The word of enable bits is addressed by the number of the word, not of its bytes: an
    interrupt number from 128 to 159 enables the source 96 below it. *)
Theorem plic_wrong_source {B} `{Mmio B} (base : Z) {HP : PlicLaws B base} (b : B) (irq : Z) : 128 ≤ irq < 160 →
  ∃ b', set_irq_enable base 0 true irq b = Ret b' ∧ enabled base b' 1 (irq - 96) = true ∧ enabled base b' 1 irq = enabled base b 1 irq.
Proof.
  intros Hi. destruct (plic_base (base := base)) as [Hb0 Hb]. unfold set_irq_enable. rewrite context_one.
  assert (irq / 32 = 4) as Ed by (symmetry; apply (Z.div_unique _ _ _ (irq - 128)); lia).
  assert (irq mod 32 = irq - 128) as Em by (symmetry; apply (Z.mod_unique _ _ 4); lia).
  assert ((irq - 96) / 32 = 1) as Ed' by (symmetry; apply (Z.div_unique _ _ _ (irq - 128)); lia).
  assert ((irq - 96) mod 32 = irq - 128) as Em' by (symmetry; apply (Z.mod_unique _ _ 1); lia).
  destruct (enable_write base b 1 (irq - 96) (irq - 128)) as (b1 & E1 & Hv & Ho); [lia..|].
  assert (enable_at 1 (irq - 96) = 0x2084) as Ea by (unfold enable_at; rewrite Ed'; done). rewrite Ea in E1, Hv, Ho. rewrite Ed, Em.
  replace (((base +u 8192) +u 4) +u (1 *u 128)) with (base + 0x2084).
  2:{ change (1 *u 128) with 128. unfold USIZE in *. unwrap_u. lia. }
  rewrite E1. exists b1. split; [done|]. unfold enabled. rewrite Ea, Hv, Em', or_bit by lia. split; [by rewrite bool_decide_eq_true_2, orb_true_r|].
  rewrite Ho; [done|]. unfold enable_at. rewrite Ed. lia.
Qed.

(** On the bus of the machine, an interrupt number from 32 to 127 is an access that is not
    aligned. *)
Theorem plic_misaligned (b : gmap Z Z) (irq : Z) : 32 ≤ irq < 128 → set_irq_enable demo_base 0 true irq b = Panic.
Proof.
  intros Hi. unfold set_irq_enable. rewrite context_one. cbn [mmio_read demo_bus]. rewrite decide_False; [done|].
  assert (1 ≤ irq / 32 < 4) by (split; [apply Z.div_le_lower_bound; lia|apply Z.div_lt_upper_bound; lia]).
  assert (irq / 32 = 1 ∨ irq / 32 = 2 ∨ irq / 32 = 3) as [->|[->| ->]] by lia; vm_compute; done.
Qed.

(** A network driver registers no interrupt: the trait's default reports none. *)
Theorem net_irqs_unregistered {B} `{Mmio B} (virtio_new : VirtioType → Z → B → outcome (bool * B)) vaddr irqs (w w' : Devices B) d :
  virtio_net_init virtio_new vaddr irqs w = Ret (d, w') → IRQ_MANAGER w' = IRQ_MANAGER w.
Proof.
  unfold virtio_net_init, virtio_create. destruct (virtio_new V_network vaddr (bus w)) as [[[] b]|]; try done. step_ret. by intros [= _ <-].
Qed.

(** An external interrupt is claimed and completed; no driver hears of it. *)
Theorem interrupts_dropped {B} `{Mmio B} (base : Z) (b b' : B) r : PLIC_try_handle_interrupt base b = Ret (r, b') →
  r = false ∧ ∃ claim b1, get_irq_claim base 0 true b = Ret (claim, b1) ∧ complete_irq_claim base 0 true claim b1 = Ret b'.
Proof.
  unfold PLIC_try_handle_interrupt. destruct (get_irq_claim base 0 true b) as [[c b1]|]; [|done]. step_ret.
  destruct (complete_irq_claim base 0 true c b1) as [b2|] eqn:E; [|done]. step_ret. intros [= <- <-]. split; [done|]. by exists c, b1.
Qed.
