(* ===== verification/Virtio.v ===== *)
(** * Memory and addresses for virtio devices

    Models driver/kvirtio: the memory that devices read and write (virtio_impl.rs), the
    transfers of the disk and the network device, and, for machines with a PCI bus, the
    assignment of base addresses and the search for devices (lib.rs).  The base address
    registers follow the PCI specification; the functions of the vendored virtio-drivers
    crate that read and write them are modelled from its source, what it does with a device
    is a parameter. *)

From S2P Require Import Prelude Frame Devices.

(** ** Memory for devices *)

Record Dma (S : Type) := mkDma { dma_source : S; VIRTIO_CONTAINER : list Z }.
Arguments mkDma {S} _ _.
Arguments dma_source {S} _.
Arguments VIRTIO_CONTAINER {S} _.

Section dma.
Context {S : Type} `{FrameSource S}.

(** The physical and the virtual address of the first page. *)
Definition dma_alloc (pages : Z) (d : Dma S) : outcome (Z * Z * Dma S) :=
  '(o, s) ← frame_alloc_much (dma_source d) pages;
  trackers ← unwrap o;
  paddr ← unwrap (head trackers);
  Ret (paddr, Z.lor paddr VIRT_ADDR_START, mkDma s (VIRTIO_CONTAINER d ++ trackers)).

(** The frames whose address is in a range of page numbers. *)
Definition dma_dropped (paddr pages x : Z) : Prop := Z.shiftr paddr 12 ≤ x ∧ x < Z.shiftr paddr 12 +u pages.
#[global] Instance dma_dropped_dec paddr pages x : Decision (dma_dropped paddr pages x).
Proof. unfold dma_dropped. apply _. Defined.

Definition dma_dealloc (paddr pages : Z) (d : Dma S) : outcome (Z * Dma S) :=
  let keep := filter (λ x, ¬ dma_dropped paddr pages x) (VIRTIO_CONTAINER d) in
  s ← foldM frame_unalloc (filter (dma_dropped paddr pages) (VIRTIO_CONTAINER d)) (dma_source d);
  Ret (0, mkDma s keep).
End dma.

(** The address is read once, as a test. *)
Definition mmio_phys_to_virt {B} `{Mmio B} (paddr : Z) (b : B) : outcome (Z * B) :=
  let vaddr := Z.lor paddr 0x8000000000000000 in
  '(_, b) ← mmio_read 4 vaddr b; Ret (vaddr, b).

(** [virt_to_phys] is the translation of the current page table. *)
Definition share (virt_to_phys : Z → option Z) (raw_ptr : Z) : Z := default (Z.ldiff raw_ptr VIRT_ADDR_START) (virt_to_phys raw_ptr).

(** *** Transfers; the library's operations on its devices are parameters *)

Section transfers.
Context {V : Type}.
Context (lib_read : V → Z → nat → option (list Z)) (lib_write : V → Z → list Z → option V) (lib_capacity : V → Z).
Context (lib_receive : V → option (list Z * V)) (lib_recycle : V → option V) (lib_send : V → list Z → option V).

Definition VirtIOBlock_read_blocks (d : V) (block_id : Z) (n : nat) : outcome (list Z) := unwrap (lib_read d block_id n).
Definition VirtIOBlock_write_blocks (d : V) (block_id : Z) (buf : list Z) : outcome V := unwrap (lib_write d block_id buf).
Definition VirtIOBlock_capacity (d : V) : Z := lib_capacity d *u 0x200.

(** [None] is [NetError::NoData]. *)
Definition VirtIONet_recv (d : V) (buf : list Z) : outcome (option Z * list Z * V) :=
  match lib_receive d with
  | Some (packet, d) =>
      let rlen := Nat.min (length buf) (length packet) in
      d ← unwrap (lib_recycle d);
      Ret (Some (Z.of_nat rlen), take rlen packet ++ drop rlen buf, d)
  | None => Ret (None, buf, d)
  end.

Definition VirtIONet_send (d : V) (buf : list Z) : outcome V := unwrap (lib_send d buf).
End transfers.

(** ** Base addresses of PCI devices *)

Inductive MemoryBarType := Width32 | Below1MiB | Width64.
#[export] Instance MemoryBarType_eq_dec : EqDecision MemoryBarType.
Proof. solve_decision. Defined.

Definition MemoryBarType_try_from (v : Z) : option MemoryBarType :=
  if decide (v = 0) then Some Width32 else if decide (v = 1) then Some Below1MiB else if decide (v = 2) then Some Width64 else None.

Inductive BarInfo :=
  | Bar_memory (address_type : MemoryBarType) (prefetchable : bool) (address size : Z)
  | Bar_io (address size : Z).

Definition takes_two_entries (i : BarInfo) : bool := match i with Bar_memory Width64 _ _ _ => true | _ => false end.

(** The configuration space of a device function, in words at byte offsets. *)
Class ConfigurationAccess (R : Type) := {
  read_word : R → Z → Z;
  write_word : R → Z → Z → R;
}.

Definition BAR0_OFFSET : Z := 0x10.
Definition STATUS_COMMAND_OFFSET : Z := 4.

Definition LOONGARCH64_PCI_MEMORY32_START : Z := 0x58000000.
Definition LOONGARCH64_PCI_MEMORY32_END : Z := 0x80000000.
Definition LOONGARCH64_PCI_MEMORY64_START : Z := 0x100000000000.

Definition align_up (addr align : Z) : Z := Z.land ((addr +u align) -u 1) (usize_max - (align -u 1)).

(** The static variable [NEXT_BAR_ADDR] is the second argument and result. *)
Definition allocate_bar_address (size NEXT_BAR_ADDR : Z) : option Z * Z :=
  let aligned_addr := align_up NEXT_BAR_ADDR size in
  if decide (aligned_addr +u size ≤ LOONGARCH64_PCI_MEMORY32_END) then (Some aligned_addr, aligned_addr +u size)
  else if decide (NEXT_BAR_ADDR < LOONGARCH64_PCI_MEMORY64_START) then
    let aligned_addr := align_up LOONGARCH64_PCI_MEMORY64_START size in (Some aligned_addr, aligned_addr +u size)
  else (None, NEXT_BAR_ADDR).

Section pci.
Context {R : Type} `{ConfigurationAccess R}.

Definition bar_info (r : R) (bar_index : Z) : option BarInfo * R :=
  let offset := BAR0_OFFSET + 4 * bar_index in
  let bar_orig := read_word r offset in
  let r := write_word r offset 0xffffffff in
  let size_mask := read_word r offset in
  let size := as32 (0xffffffff - Z.land size_mask 0xfffffff0 + 1) in
  let r := write_word r offset bar_orig in
  if decide (Z.land bar_orig 1 = 1) then (Some (Bar_io (Z.land bar_orig 0xfffffffc) size), r)
  else
    let address := Z.land bar_orig 0xfffffff0 in
    let prefetchable := bool_decide (Z.land bar_orig 8 ≠ 0) in
    match MemoryBarType_try_from (Z.shiftr (Z.land bar_orig 6) 1) with
    | None => (None, r)
    | Some Width64 =>
        if decide (5 ≤ bar_index) then (None, r)
        else (Some (Bar_memory Width64 prefetchable (Z.lor address (Z.shiftl (read_word r (BAR0_OFFSET + 4 * (bar_index + 1))) 32)) size), r)
    | Some t => (Some (Bar_memory t prefetchable address size), r)
    end.

Definition set_bar_32 (r : R) (bar_index address : Z) : R := write_word r (BAR0_OFFSET + 4 * bar_index) address.
Definition set_bar_64 (r : R) (bar_index address : Z) : R :=
  let r := write_word r (BAR0_OFFSET + 4 * bar_index) (as32 address) in
  write_word r (BAR0_OFFSET + 4 * (bar_index + 1)) (as32 (Z.shiftr address 32)).

(** The body of the loop for one entry: the next entry, the registers and the next address. *)
Definition assign_bar (bar_index : Z) (r : R) (next : Z) : Z * R * Z :=
  let '(info, r) := bar_info r bar_index in
  match info with
  | Some (Bar_memory address_type _ address size) =>
      if decide (0 < size ∧ address = 0) then
        match allocate_bar_address size next with
        | (Some a, next) =>
            match address_type with
            | Width32 => (bar_index + 1, set_bar_32 r bar_index (as32 a), next)
            | Width64 => (bar_index + 2, set_bar_64 r bar_index a, next)
            | Below1MiB => (bar_index + 1, r, next)
            end
        | (None, next) => (bar_index + 1, r, next)
        end
      else (bar_index + 1, if decide (0 < bar_index) then (bar_info r (bar_index - 1)).2 else r, next)
  | Some (Bar_io address size) =>
      if decide (0 < size ∧ address = 0) then
        match allocate_bar_address size next with
        | (Some a, next) => (bar_index + 1, set_bar_32 r bar_index (as32 a), next)
        | (None, next) => (bar_index + 1, r, next)
        end
      else (bar_index + 1, if decide (0 < bar_index) then (bar_info r (bar_index - 1)).2 else r, next)
  | None => (bar_index + 1, r, next)
  end.

Fixpoint assign_loop (fuel : nat) (bar_index : Z) (r : R) (next : Z) : option (R * Z) :=
  if decide (bar_index < 6) then
    match fuel with
    | O => None
    | S fuel => let '(i, r, next) := assign_bar bar_index r next in assign_loop fuel i r next
    end
  else Some (r, next).

Definition assign_bars_with_pci_root (r : R) (next : Z) : option (R * Z) := assign_loop 6 0 r next.

Definition Command_IO_SPACE : Z := 1.
Definition Command_MEMORY_SPACE : Z := 2.
Definition Command_BUS_MASTER : Z := 4.
Definition set_command (r : R) (command : Z) : R := write_word r STATUS_COMMAND_OFFSET command.

(** The checks only log what they read; reading a base address register writes and restores it. *)
Definition verify_pci_configuration (r : R) : R := foldl (λ r i, (bar_info r i).2) r (seqZ 0 6).

(** *** The search for devices *)

(** The functions of the bus with the virtio type of each, if it has one, the next address and
    the devices found; opening a transport and the test of its registers are the library's. *)
Context {B : Type} `{Mmio B}.
Context (transport_new : R → B → outcome (option VirtioType * R * B)) (test_register_access : R → B → outcome (R * B)).
Context (virtio_new : VirtioType → Z → B → outcome (bool * B)).

Definition virtio_device_probe (t : VirtioType) (f : Z) (w : Devices B) : outcome (Devices B) :=
  match t with
  | V_block => '(d, w) ← virtio_blk_init virtio_new f [] w; add_device d w
  | V_network => '(d, w) ← virtio_net_init virtio_new f [] w; add_device d w
  | _ => Ret w
  end.

Definition enumerate_one (st : gmap Z R * Z * Devices B) (f : Z * option VirtioType) : outcome (gmap Z R * Z * Devices B) :=
  let '(fns, next, w) := st in
  match f.2 with
  | None => Ret st
  | Some _ =>
      r ← unwrap (fns !! f.1);
      '(r, next) ← unwrap (assign_bars_with_pci_root r next);
      let r := set_command r (Z.lor (Z.lor Command_IO_SPACE Command_MEMORY_SPACE) Command_BUS_MASTER) in
      '(t, r, b) ← transport_new (verify_pci_configuration r) (bus w);
      match t with
      | None => Ret (<[f.1 := r]> fns, next, set_bus b w)
      | Some t =>
          '(r, b) ← test_register_access r b;
          w ← virtio_device_probe t f.1 (set_bus b w);
          Ret (<[f.1 := r]> fns, next, w)
      end
  end.

Definition verify_address_translation (mmconfig_base : Z) (b : B) : outcome B := '(_, b) ← mmio_read 4 mmconfig_base b; Ret b.

Definition enumerate_pci (mmconfig_base : Z) (functions : list (Z * option VirtioType)) (st : gmap Z R * Z * Devices B) : outcome (gmap Z R * Z * Devices B) :=
  let '(fns, next, w) := st in
  b ← verify_address_translation mmconfig_base (bus w);
  foldM enumerate_one functions (fns, next, set_bus b w).
End pci.

(** ** Frames of devices are never given back *)

(** The frames of the machine's memory start at [0x80000000], and the range of page numbers
    that a release compares their addresses with ends below it. *)
Theorem dma_never_released {S} `{FrameSource S} (d : Dma S) (paddr pages : Z) :
  Forall (λ x, 0x80000000 ≤ x) (VIRTIO_CONTAINER d) → 0 ≤ paddr → 0 ≤ pages → paddr + 4096 * pages ≤ 0x80000000 * 4096 →
  dma_dealloc paddr pages d = Ret (0, d).
Proof.
  intros Hd Hp Hn Hle. unfold dma_dealloc.
  assert (∀ x, x ∈ VIRTIO_CONTAINER d → ¬ dma_dropped paddr pages x) as Hno.
  { intros x Hx [_ H2]. rewrite Forall_forall in Hd. specialize (Hd x Hx). rewrite Z.shiftr_div_pow2 in H2 by lia. change (2 ^ 12) with 4096 in H2.
    assert (0 ≤ paddr / 4096) by (apply Z.div_pos; lia). assert (paddr / 4096 + pages ≤ 0x80000000).
    { pose proof (Z.mul_div_le paddr 4096). lia. }
    rewrite wrap_small in H2 by (unfold is_usize, USIZE; lia). lia. }
  rewrite (list_filter_all (λ x, ¬ dma_dropped paddr pages x)) by exact Hno.
  rewrite (proj2 (list_filter_none (dma_dropped paddr pages) _)) by (apply Forall_forall; exact Hno). cbn. step_ret. by destruct d.
Qed.

(** Memory of devices is their own: pages handed out are consecutive, were free, and are not
    handed out again. *)
Definition dma_ok {S} `{FrameSourceLaws S} (d : Dma S) : Prop :=
  source_ok (dma_source d) ∧ NoDup (VIRTIO_CONTAINER d) ∧
  ∀ x, x ∈ VIRTIO_CONTAINER d → x ∈ managed_frames (dma_source d) ∧ x ∉ free_frames (dma_source d).

Lemma frames_from_NoDup a n : NoDup (frames_from a n).
Proof. unfold frames_from. apply NoDup_fmap_2; [intros x y; unfold PAGE_SIZE; lia|]. apply NoDup_seqZ. Qed.

Theorem dma_alloc_exclusive {S} `{FrameSourceLaws S} (d : Dma S) (pages : Z) : dma_ok d → 0 < pages →
  match dma_alloc pages d with
  | Ret (paddr, vaddr, d') => dma_ok d' ∧ vaddr = Z.lor paddr VIRT_ADDR_START ∧
      VIRTIO_CONTAINER d' = VIRTIO_CONTAINER d ++ frames_from paddr pages ∧
      list_to_set (frames_from paddr pages) ⊆ free_frames (dma_source d) ∧
      free_frames (dma_source d') = free_frames (dma_source d) ∖ list_to_set (frames_from paddr pages)
  | Panic => ∃ s, frame_alloc_much (dma_source d) pages = Ret (None, s)
  end.
Proof.
  intros (Hok & Hnd & Hown) Hp. unfold dma_alloc. destruct (frame_alloc_much_law (dma_source d) pages Hok) as (o & s & E & Hok' & Hm & Ho); [lia|].
  rewrite E. step_ret. destruct o as [l|]; cbn [unwrap mbind outcome_bind]; [|by exists s].
  destruct Ho as ([a ->] & Hsub & Hf). assert (head (frames_from a pages) = Some a) as Eh.
  { unfold frames_from. rewrite seqZ_cons by lia. cbn. by rewrite Z.add_0_r. }
  step_ret. rewrite Eh. cbn [unwrap]. step_ret. cbn [VIRTIO_CONTAINER dma_source]. split; [|by split_and!].
  split; [done|]. cbn [VIRTIO_CONTAINER dma_source]. split.
  - apply NoDup_app. split; [done|]. split; [|apply frames_from_NoDup]. intros x Hx Hx'. destruct (Hown x Hx) as [_ Hn]. apply Hn, Hsub. by apply elem_of_list_to_set.
  - intros x [Hx|Hx]%elem_of_app; rewrite Hm, Hf.
    + destruct (Hown x Hx). set_solver.
    + split; [|set_solver]. apply (free_managed _ Hok), Hsub. by apply elem_of_list_to_set.
Qed.

(** ** Base address registers of the PCI specification *)

(** A register for [2^k] bytes keeps the bits above; the low bits say what it is.  A 64-bit
    address takes two registers. *)
Inductive BarKind := B_none | B_mem32 (k : Z) | B_mem64 (k : Z) | B_high | B_io (k : Z).

Definition bar_latch (kind : BarKind) (v : Z) : Z :=
  match kind with
  | B_none => 0
  | B_mem32 k => Z.ldiff v (Z.ones k)
  | B_mem64 k => Z.lor (Z.ldiff v (Z.ones k)) 4
  | B_high => v
  | B_io k => Z.lor (Z.ldiff v (Z.ones k)) 1
  end.

Record PciFunction := mkPciFunction { fn_bars : list (BarKind * Z); fn_command : Z }.

#[export] Instance pci_function : ConfigurationAccess PciFunction := {|
  read_word f off :=
    if decide (off = STATUS_COMMAND_OFFSET) then fn_command f
    else default 0 (snd <$> fn_bars f !! Z.to_nat ((off - BAR0_OFFSET) / 4));
  write_word f off v :=
    if decide (off = STATUS_COMMAND_OFFSET) then mkPciFunction (fn_bars f) v
    else mkPciFunction (alter (λ b, (b.1, bar_latch b.1 v)) (Z.to_nat ((off - BAR0_OFFSET) / 4)) (fn_bars f)) (fn_command f);
|}.

(** The address a register (or pair) holds, and its size. *)
Definition bar_size (kind : BarKind) : Z := match kind with B_mem32 k | B_mem64 k | B_io k => 2 ^ k | _ => 0 end.
Definition bar_address (f : PciFunction) (i : nat) : option (Z * Z) :=
  match fn_bars f !! i with
  | Some (B_mem32 k, v) => Some (v, 2 ^ k)
  | Some (B_mem64 k, v) => Some (v - 4 + 2 ^ 32 * default 0 (snd <$> fn_bars f !! S i), 2 ^ k)
  | Some (B_io k, v) => Some (v - 1, 2 ^ k)
  | _ => None
  end.

(** *** Bits *)

Lemma land_fff0 y : 0 ≤ y < 4294967296 → Z.land y 0xfffffff0 = y / 16 * 16.
Proof.
  intros Hy. change 0xfffffff0 with (Z.shiftl (Z.ones 28) 4). change 16 with (2 ^ 4). rewrite <- Z.shiftr_div_pow2, <- Z.shiftl_mul_pow2 by lia.
  apply Z.bits_inj'. intros j Hj. rewrite Z.land_spec. destruct (decide (j < 4)).
  - by rewrite !Z.shiftl_spec_low, andb_false_r by lia.
  - rewrite !Z.shiftl_spec_high, Z.shiftr_spec by lia. replace (j - 4 + 4) with j by lia. destruct (decide (j < 32)).
    + rewrite Z.ones_spec_low by lia. apply andb_true_r.
    + rewrite Z.bits_above_log2; [done|lia|]. destruct (decide (y = 0)) as [->|]; [cbn; lia|].
      apply Z.log2_lt_pow2; [lia|]. apply Z.lt_le_trans with (2 ^ 32); [lia|]. apply Z.pow_le_mono_r; lia.
Qed.

Lemma lor_low x c k : 0 ≤ k → x mod 2 ^ k = 0 → 0 ≤ c < 2 ^ k → Z.lor x c = x + c.
Proof.
  intros Hk Hx Hc. assert (Z.land x c = 0) as E.
  { rewrite <- (Z.mod_small c (2 ^ k)), <- Z.land_ones, (Z.land_comm c), Z.land_assoc, Z.land_ones, Hx by lia. done. }
  rewrite <- Z.lxor_lor by done. by rewrite <- Z.add_nocarry_lxor.
Qed.

Lemma ldiff_ones v k : 0 ≤ k → Z.ldiff v (Z.ones k) = v / 2 ^ k * 2 ^ k.
Proof. intros Hk. by rewrite Z.ldiff_ones_r, Z.shiftl_mul_pow2, Z.shiftr_div_pow2 by lia. Qed.

Lemma align_up_spec addr k : 0 ≤ k < 64 → 0 ≤ addr → addr + 2 ^ k ≤ USIZE → align_up addr (2 ^ k) = (addr + 2 ^ k - 1) / 2 ^ k * 2 ^ k.
Proof.
  intros Hk Ha Hs. assert (0 < 2 ^ k) by (apply Z.pow_pos_nonneg; lia). assert (2 ^ k < USIZE) by (change USIZE with (2 ^ 64); apply Z.pow_lt_mono_r; lia).
  unfold align_up. rewrite (wrap_small (2 ^ k - 1)) by (unfold is_usize; lia).
  replace ((addr +u 2 ^ k) -u 1) with (addr + 2 ^ k - 1).
  2:{ unfold wrap. rewrite Zminus_mod_idemp_l. symmetry. apply Z.mod_small. lia. }
  rewrite <- ldiff_ones by lia. replace (usize_max - (2 ^ k - 1)) with (Z.ldiff (Z.ones 64) (Z.ones k)).
  - rewrite Z.ldiff_land, Z.land_assoc, Z.land_ones, Z.mod_small, <- Z.ldiff_land by (change (2 ^ 64) with USIZE; lia). done.
  - replace (2 ^ k - 1) with (Z.ones k) by (rewrite Z.ones_equiv; lia). change usize_max with (Z.ones 64). symmetry.
    apply Z.sub_nocarry_ldiff. apply Z.bits_inj'. intros j Hj. rewrite Z.ldiff_spec, Z.bits_0.
    destruct (decide (j < k)); [by rewrite (Z.ones_spec_low 64), andb_false_r by lia|by rewrite Z.ones_spec_high by lia].
Qed.

(** *** The allocator of addresses *)

(** In the 32-bit window, addresses come in increasing order, aligned to their size. *)
Lemma allocate_bar_spec k next : 4 ≤ k < 32 → 0 ≤ next → next + 2 * 2 ^ k ≤ LOONGARCH64_PCI_MEMORY32_END →
  ∃ a, allocate_bar_address (2 ^ k) next = (Some a, a + 2 ^ k) ∧ next ≤ a ∧ a + 2 ^ k ≤ next + 2 * 2 ^ k ∧ a mod 2 ^ k = 0.
Proof.
  intros Hk Hn Hle. assert (0 < 2 ^ k) by (apply Z.pow_pos_nonneg; lia). unfold LOONGARCH64_PCI_MEMORY32_END in *.
  unfold allocate_bar_address. rewrite align_up_spec by (unfold USIZE; lia).
  set (a := (next + 2 ^ k - 1) / 2 ^ k * 2 ^ k). pose proof (Z.div_mod (next + 2 ^ k - 1) (2 ^ k)) as Hd. pose proof (Z.mod_pos_bound (next + 2 ^ k - 1) (2 ^ k)) as Hm.
  assert (next ≤ a ∧ a + 2 ^ k ≤ next + 2 * 2 ^ k) as [H1 H2] by (unfold a; lia).
  rewrite (wrap_small (a + 2 ^ k)) by (unfold is_usize, USIZE; lia). unfold LOONGARCH64_PCI_MEMORY32_END. rewrite decide_True by lia.
  exists a. split_and!; try done. unfold a. apply Z.mod_mul. lia.
Qed.

(** After one address of the 64-bit window there is no other. *)
Theorem memory64_only_once (k k' next : Z) : 4 ≤ k < 32 → 4 ≤ k' < 32 → LOONGARCH64_PCI_MEMORY32_END ≤ next < LOONGARCH64_PCI_MEMORY64_START →
  ∃ next', allocate_bar_address (2 ^ k) next = (Some LOONGARCH64_PCI_MEMORY64_START, next') ∧ allocate_bar_address (2 ^ k') next' = (None, next').
Proof.
  intros Hk Hk' Hn. assert (∀ j, 4 ≤ j < 32 → 16 ≤ 2 ^ j ≤ 2147483648) as Hp.
  { intros j Hj. split; [change 16 with (2 ^ 4)|change 2147483648 with (2 ^ 31)]; apply Z.pow_le_mono_r; lia. }
  pose proof (Hp k Hk). pose proof (Hp k' Hk'). unfold LOONGARCH64_PCI_MEMORY32_END, LOONGARCH64_PCI_MEMORY64_START in *.
  assert (∀ j x, 4 ≤ j < 32 → 0x80000000 ≤ x < 0x200000000000 → 0x80000000 < (align_up x (2 ^ j)) +u 2 ^ j) as Hbig.
  { intros j x Hj Hx. pose proof (Hp j Hj). rewrite align_up_spec by (unfold USIZE; lia). pose proof (Z.div_mod (x + 2 ^ j - 1) (2 ^ j)).
    pose proof (Z.mod_pos_bound (x + 2 ^ j - 1) (2 ^ j)). rewrite wrap_small by (unfold is_usize, USIZE; lia). lia. }
  assert (align_up 0x100000000000 (2 ^ k) = 0x100000000000) as E.
  { rewrite align_up_spec by (unfold USIZE; lia). assert (0x100000000000 = 2 ^ (44 - k) * 2 ^ k) as E44 by (rewrite <- Z.pow_add_r by lia; by replace (44 - k + k) with 44 by lia).
    rewrite E44 at 1. replace (2 ^ (44 - k) * 2 ^ k + 2 ^ k - 1) with ((2 ^ k - 1) + 2 ^ (44 - k) * 2 ^ k) by lia. rewrite Z.div_add, Z.div_small by lia. lia. }
  unfold allocate_bar_address, LOONGARCH64_PCI_MEMORY32_END, LOONGARCH64_PCI_MEMORY64_START. rewrite (decide_False (P := _ ≤ _)) by (specialize (Hbig k next Hk); lia).
  rewrite decide_True, E by lia. rewrite (wrap_small (_ + 2 ^ k)) by (unfold is_usize, USIZE; lia). eexists. split; [done|].
  rewrite decide_False by (specialize (Hbig k' (0x100000000000 + 2 ^ k) Hk'); lia). by rewrite decide_False by lia.
Qed.

(** *** Assigning the addresses of one device *)

(** The registers of a device without addresses, as the firmware leaves it. *)
Inductive fresh_bars : list (BarKind * Z) → Prop :=
  | fresh_nil : fresh_bars []
  | fresh_none l : fresh_bars l → fresh_bars ((B_none, 0) :: l)
  | fresh_mem32 k l : 4 ≤ k < 32 → fresh_bars l → fresh_bars ((B_mem32 k, 0) :: l)
  | fresh_mem64 k l : 4 ≤ k < 32 → fresh_bars l → fresh_bars ((B_mem64 k, 4) :: (B_high, 0) :: l)
  | fresh_io k l : 4 ≤ k < 32 → fresh_bars l → fresh_bars ((B_io k, 1) :: l).

(** The same registers with addresses in increasing order between two bounds. *)
Inductive placed : Z → list (BarKind * Z) → Z → Prop :=
  | placed_nil n n' : n ≤ n' → placed n [] n'
  | placed_none n l n' : placed n l n' → placed n ((B_none, 0) :: l) n'
  | placed_mem32 n k a l n' : n ≤ a → a mod 2 ^ k = 0 → placed (a + 2 ^ k) l n' → placed n ((B_mem32 k, a) :: l) n'
  | placed_mem64 n k a l n' : n ≤ a → a mod 2 ^ k = 0 → placed (a + 2 ^ k) l n' → placed n ((B_mem64 k, a + 4) :: (B_high, 0) :: l) n'
  | placed_io n k a l n' : n ≤ a → a mod 2 ^ k = 0 → placed (a + 2 ^ k) l n' → placed n ((B_io k, a + 1) :: l) n'.

Definition bars_total (l : list (BarKind * Z)) : Z := foldr (λ b n, 2 * bar_size b.1 + n) 0 l.

Definition with_bars (f : PciFunction) (l : list (BarKind * Z)) : PciFunction := mkPciFunction l (fn_command f).

Definition stable (b : BarKind * Z) : Prop := bar_latch b.1 b.2 = b.2.

Lemma bar_offset (n : nat) : Z.to_nat ((BAR0_OFFSET + 4 * Z.of_nat n - BAR0_OFFSET) / 4) = n.
Proof. replace (BAR0_OFFSET + 4 * Z.of_nat n - BAR0_OFFSET) with (Z.of_nat n * 4) by lia. rewrite Z.div_mul by done. lia. Qed.

Lemma read_bar f l k v r : read_word (with_bars f (l ++ (k, v) :: r)) (BAR0_OFFSET + 4 * Z.of_nat (length l)) = v.
Proof.
  cbn [read_word pci_function]. rewrite decide_False by (unfold BAR0_OFFSET, STATUS_COMMAND_OFFSET; lia). rewrite bar_offset. cbn [with_bars fn_bars].
  by rewrite list_lookup_middle.
Qed.

Lemma write_bar f l k v r x :
  write_word (with_bars f (l ++ (k, v) :: r)) (BAR0_OFFSET + 4 * Z.of_nat (length l)) x = with_bars f (l ++ (k, bar_latch k x) :: r).
Proof.
  cbn [write_word pci_function]. rewrite decide_False by (unfold BAR0_OFFSET, STATUS_COMMAND_OFFSET; lia). rewrite bar_offset. unfold with_bars. cbn [fn_bars fn_command].
  f_equal. rewrite <- (Nat.add_0_r (length l)), alter_app_r. done.
Qed.

(** Probing a register leaves it as it was. *)
Lemma bar_info_restores f l (i : nat) b : l !! i = Some b → stable b → (bar_info (with_bars f l) (Z.of_nat i)).2 = with_bars f l.
Proof.
  destruct b as [k v]. unfold stable. cbn [fst snd]. intros E Hs.
  apply list_elem_of_split_length in E as (l1 & l2 & -> & ->). unfold bar_info. rewrite read_bar, write_bar, read_bar, write_bar, Hs.
  case_decide; [done|]. destruct (MemoryBarType_try_from _) as [[]|]; try done. by case_decide.
Qed.

(** What probing a fresh register says. *)
Lemma size_of_mask k : 4 ≤ k < 32 → as32 (0xffffffff - Z.ldiff 0xffffffff (Z.ones k) + 1) = 2 ^ k ∧
  Z.ldiff 0xffffffff (Z.ones k) = 2 ^ 32 - 2 ^ k ∧ 16 ≤ 2 ^ k < 4294967296 ∧ (2 ^ 32 - 2 ^ k) mod 16 = 0.
Proof.
  intros Hk. assert (16 ≤ 2 ^ k) by (change 16 with (2 ^ 4); apply Z.pow_le_mono_r; lia).
  assert (2 ^ k < 4294967296) by (change 4294967296 with (2 ^ 32); apply Z.pow_lt_mono_r; lia).
  assert (2 ^ 32 = 2 ^ (32 - k) * 2 ^ k) as E by (rewrite <- Z.pow_add_r by lia; f_equal; lia).
  assert (Z.ldiff 0xffffffff (Z.ones k) = 2 ^ 32 - 2 ^ k) as Ed.
  { rewrite ldiff_ones by lia. change 0xffffffff with (2 ^ 32 - 1). rewrite E at 1.
    replace (2 ^ (32 - k) * 2 ^ k - 1) with ((2 ^ k - 1) + (2 ^ (32 - k) - 1) * 2 ^ k) by lia. rewrite Z.div_add, Z.div_small by lia. lia. }
  split_and!; try done.
  - rewrite Ed. unfold as32. change (2 ^ 32) with 4294967296. rewrite Z.mod_small; lia.
  - rewrite E. replace (2 ^ k) with (2 ^ (k - 4) * 16) by (change 16 with (2 ^ 4); rewrite <- Z.pow_add_r by lia; f_equal; lia).
    replace (2 ^ (32 - k) * (2 ^ (k - 4) * 16) - 2 ^ (k - 4) * 16) with ((2 ^ (32 - k) * 2 ^ (k - 4) - 2 ^ (k - 4)) * 16) by lia. by apply Z.mod_mul.
Qed.

(** The size that the code computes from the mask, whatever the low bits are. *)
Lemma probed_size k c : 4 ≤ k < 32 → 0 ≤ c < 16 →
  as32 (0xffffffff - Z.land (Z.lor (Z.ldiff 0xffffffff (Z.ones k)) c) 0xfffffff0 + 1) = 2 ^ k.
Proof.
  intros Hk Hc. destruct (size_of_mask k Hk) as (Es & Ed & Hr & Hm). rewrite Ed. rewrite (lor_low _ c 4) by done.
  rewrite land_fff0 by (change (2 ^ 32) with 4294967296 in *; lia). replace ((2 ^ 32 - 2 ^ k + c) / 16 * 16) with (2 ^ 32 - 2 ^ k); [by rewrite <- Ed|].
  pose proof (Z.div_mod (2 ^ 32 - 2 ^ k) 16 ltac:(done)) as Hd. rewrite Hm in Hd.
  rewrite Hd at 2. replace (16 * ((2 ^ 32 - 2 ^ k) / 16) + 0 + c) with (c + (2 ^ 32 - 2 ^ k) / 16 * 16) by lia. rewrite Z.div_add, (Z.div_small c) by lia. lia.
Qed.

Section fresh.
Context (f : PciFunction) (l r : list (BarKind * Z)).
Abbreviation i := (Z.of_nat (length l)).
Abbreviation st b := (with_bars f (l ++ b)).

Lemma info_none : bar_info (st ((B_none, 0) :: r)) i = (Some (Bar_memory Width32 false 0 0), st ((B_none, 0) :: r)).
Proof. unfold bar_info. by rewrite read_bar, write_bar, read_bar, write_bar. Qed.

Lemma info_mem32 k : 4 ≤ k < 32 → bar_info (st ((B_mem32 k, 0) :: r)) i = (Some (Bar_memory Width32 false 0 (2 ^ k)), st ((B_mem32 k, 0) :: r)).
Proof.
  intros Hk. unfold bar_info. rewrite read_bar, write_bar, read_bar, write_bar. cbn [bar_latch]. rewrite Z.ldiff_0_l.
  rewrite <- (Z.lor_0_r (Z.ldiff 0xffffffff (Z.ones k))), probed_size by lia. done.
Qed.

Lemma info_mem64 k : 4 ≤ k < 32 → i < 5 → bar_info (st ((B_mem64 k, 4) :: (B_high, 0) :: r)) i = (Some (Bar_memory Width64 false 0 (2 ^ k)), st ((B_mem64 k, 4) :: (B_high, 0) :: r)).
Proof.
  intros Hk Hi. unfold bar_info. rewrite read_bar, write_bar, read_bar, write_bar. cbn [bar_latch]. rewrite probed_size by lia.
  assert (Z.lor (Z.ldiff 4 (Z.ones k)) 4 = 4) as ->.
  { destruct (size_of_mask k Hk) as (_ & _ & Hr & _). by rewrite ldiff_ones, Z.div_small by lia. }
  rewrite decide_False by done. change (MemoryBarType_try_from (Z.shiftr (Z.land 4 6) 1)) with (Some Width64). cbv iota. rewrite decide_False by lia.
  replace (i + 1) with (Z.of_nat (length (l ++ [(B_mem64 k, 4)]))) by (rewrite length_app; cbn; lia).
  pose proof (read_bar f (l ++ [(B_mem64 k, 4)]) B_high 0 r) as Er. rewrite <- app_assoc in Er. cbn [app] in Er. by rewrite Er.
Qed.

Lemma info_io k : 4 ≤ k < 32 → bar_info (st ((B_io k, 1) :: r)) i = (Some (Bar_io 0 (2 ^ k)), st ((B_io k, 1) :: r)).
Proof.
  intros Hk. unfold bar_info. rewrite read_bar, write_bar, read_bar, write_bar. cbn [bar_latch]. rewrite probed_size by lia.
  assert (Z.lor (Z.ldiff 1 (Z.ones k)) 1 = 1) as ->.
  { destruct (size_of_mask k Hk) as (_ & _ & Hr & _). by rewrite ldiff_ones, Z.div_small by lia. }
  by rewrite decide_True.
Qed.

(** A register keeps an aligned address. *)
Lemma latch_aligned k a : 4 ≤ k < 32 → a mod 2 ^ k = 0 → 0 ≤ a →
  bar_latch (B_mem32 k) a = a ∧ bar_latch (B_mem64 k) a = a + 4 ∧ bar_latch (B_mem64 k) (a + 4) = a + 4 ∧
  bar_latch (B_io k) a = a + 1 ∧ bar_latch (B_io k) (a + 1) = a + 1.
Proof.
  intros Hk Ha H0. destruct (size_of_mask k Hk) as (_ & _ & Hr & _). cbn [bar_latch]. rewrite !ldiff_ones by lia.
  pose proof (Z.div_mod a (2 ^ k) ltac:(lia)) as Hd. rewrite Ha in Hd.
  assert (∀ c, 0 ≤ c < 16 → (a + c) / 2 ^ k * 2 ^ k = a) as Hc.
  { intros c Hc. replace (a + c) with (c + a / 2 ^ k * 2 ^ k) by lia. rewrite Z.div_add, Z.div_small by lia. lia. }
  assert (a / 2 ^ k * 2 ^ k = a) as -> by lia. rewrite !Hc by lia. rewrite !(lor_low a _ k) by lia. done.
Qed.
End fresh.

(** *** The body of the loop on fresh registers *)

Section assign.
Context (f : PciFunction) (l r : list (BarKind * Z)) (next : Z).
Abbreviation i := (Z.of_nat (length l)).
Abbreviation st b := (with_bars f (l ++ b)).

Lemma assign_none : Forall stable l → assign_bar i (st ((B_none, 0) :: r)) next = (i + 1, st ((B_none, 0) :: r), next).
Proof.
  intros Hs. unfold assign_bar. rewrite info_none. rewrite decide_False by lia. case_decide as Hi; [|done]. do 2 f_equal.
  assert (is_Some (l !! (length l - 1)%nat)) as [b Hb] by (apply lookup_lt_is_Some_2; lia).
  replace (i - 1) with (Z.of_nat (length l - 1)) by lia. eapply bar_info_restores; [apply lookup_app_l_Some, Hb|]. by eapply Forall_lookup_1.
Qed.

Context (k a : Z) (Hk : 4 ≤ k < 32) (Ha : allocate_bar_address (2 ^ k) next = (Some a, a + 2 ^ k)) (Hm : a mod 2 ^ k = 0) (H0 : 0 ≤ a < 4294967296).

Lemma as32_small : as32 a = a.
Proof. by apply Z.mod_small. Qed.

Lemma assign_mem32 : assign_bar i (st ((B_mem32 k, 0) :: r)) next = (i + 1, st ((B_mem32 k, a) :: r), a + 2 ^ k).
Proof using All.
  destruct (size_of_mask k Hk) as (_ & _ & Hr & _). unfold assign_bar. rewrite info_mem32 by done. rewrite decide_True, Ha by lia.
  unfold set_bar_32. rewrite as32_small, write_bar. destruct (latch_aligned k a) as (-> & _); [done|done|lia|done].
Qed.

Lemma assign_mem64 : i < 5 →
  assign_bar i (st ((B_mem64 k, 4) :: (B_high, 0) :: r)) next = (i + 2, st ((B_mem64 k, a + 4) :: (B_high, 0) :: r), a + 2 ^ k).
Proof using All.
  intros Hi. destruct (size_of_mask k Hk) as (_ & _ & Hr & _). unfold assign_bar. rewrite info_mem64 by done. rewrite decide_True, Ha by lia.
  unfold set_bar_64. rewrite as32_small, write_bar. destruct (latch_aligned k a) as (_ & -> & _); [done|done|lia|].
  replace (Z.shiftr a 32) with 0 by (rewrite Z.shiftr_div_pow2, Z.div_small; [done|exact H0|done]). change (as32 0) with 0.
  replace (i + 1) with (Z.of_nat (length (l ++ [(B_mem64 k, a + 4)]))) by (rewrite length_app; cbn; lia).
  pose proof (write_bar f (l ++ [(B_mem64 k, a + 4)]) B_high 0 r 0) as Er. rewrite <- !app_assoc in Er. cbn [app bar_latch] in Er. by rewrite Er.
Qed.

Lemma assign_io : assign_bar i (st ((B_io k, 1) :: r)) next = (i + 1, st ((B_io k, a + 1) :: r), a + 2 ^ k).
Proof using All.
  destruct (size_of_mask k Hk) as (_ & _ & Hr & _). unfold assign_bar. rewrite info_io by done. rewrite decide_True, Ha by lia.
  unfold set_bar_32. rewrite as32_small, write_bar. destruct (latch_aligned k a) as (_ & _ & _ & -> & _); [done|done|lia|done].
Qed.
End assign.

Lemma bars_total_nonneg r : fresh_bars r → 0 ≤ bars_total r.
Proof. induction 1 as [|r Hr IH|k r Hk Hr IH|k r Hk Hr IH|k r Hk Hr IH]; unfold bars_total in *; cbn [foldr bar_size fst] in *; [lia|lia|..]; pose proof (Z.pow_nonneg 2 k ltac:(lia)); lia. Qed.

(** The loop on the registers that are left. *)
Lemma assign_rest f (rest : list (BarKind * Z)) : fresh_bars rest → ∀ l next fuel, Forall stable l → (length l + length rest = 6)%nat →
  (length rest ≤ fuel)%nat → 0 ≤ next → next + bars_total rest ≤ LOONGARCH64_PCI_MEMORY32_END →
  ∃ rest' next', assign_loop fuel (Z.of_nat (length l)) (with_bars f (l ++ rest)) next = Some (with_bars f (l ++ rest'), next') ∧
    placed next rest' next' ∧ rest'.*1 = rest.*1 ∧ next' ≤ next + bars_total rest.
Proof.
  assert (∀ (l : list (BarKind * Z)) b, Z.of_nat (length (l ++ [b])) = Z.of_nat (length l) + 1) as Hlen by (intros; rewrite length_app; cbn; lia).
  unfold LOONGARCH64_PCI_MEMORY32_END. induction 1 as [|r Hr IH|k r Hk Hr IH|k r Hk Hr IH|k r Hk Hr IH]; intros l next fuel Hs Hl Hf Hn Hle; cbn [length] in *.
  { exists [], next. destruct fuel; cbn [assign_loop]; rewrite decide_False by lia; (split; [done|]); (split; [constructor; lia|]); (split; [done|cbn; lia]). }
  all: pose proof (bars_total_nonneg r Hr) as Ht; destruct fuel as [|fuel]; [lia|]; cbn [assign_loop bars_total foldr bar_size fst] in *; rewrite decide_True by lia;
    change (foldr _ 0 r) with (bars_total r) in *.
  - rewrite assign_none by done. destruct (IH (l ++ [(B_none, 0)]) next fuel) as (r' & n' & E & Hp & Hk & Hle'); [|rewrite ?length_app; cbn; lia..|].
    { apply Forall_app. split; [done|]. by repeat constructor. }
    rewrite Hlen, <- !app_assoc in E. exists ((B_none, 0) :: r'), n'. split; [exact E|]. split; [by constructor|]. split; [cbn; by f_equal|lia].
  - destruct (size_of_mask k Hk) as (_ & _ & Hr' & _). destruct (allocate_bar_spec k next) as (a & Ea & H1 & H2 & H3); [done|done|unfold LOONGARCH64_PCI_MEMORY32_END; lia|].
    rewrite (assign_mem32 _ _ _ _ k a) by (done || lia). destruct (latch_aligned k a Hk H3) as (L & _); [lia|].
    destruct (IH (l ++ [(B_mem32 k, a)]) (a + 2 ^ k) fuel) as (r' & n' & E & Hp & Hk' & Hle'); [|rewrite ?length_app; cbn; lia..|].
    { apply Forall_app. split; [done|]. by repeat constructor. }
    rewrite Hlen, <- !app_assoc in E. eexists (_ :: r'), n'. split; [exact E|]. split; [by constructor|]. split; [cbn; by f_equal|lia].
  - destruct (size_of_mask k Hk) as (_ & _ & Hr' & _). destruct (allocate_bar_spec k next) as (a & Ea & H1 & H2 & H3); [done|done|unfold LOONGARCH64_PCI_MEMORY32_END; lia|].
    rewrite (assign_mem64 _ _ _ _ k a) by (done || lia). destruct (latch_aligned k a Hk H3) as (_ & _ & L & _); [lia|].
    destruct (IH ((l ++ [(B_mem64 k, a + 4)]) ++ [(B_high, 0)]) (a + 2 ^ k) fuel) as (r' & n' & E & Hp & Hk' & Hle'); [|rewrite ?length_app; cbn; lia..|].
    { repeat (apply Forall_app; split); [done|by repeat constructor..]. }
    rewrite !Hlen, <- Z.add_assoc, <- !app_assoc in E. eexists (_ :: _ :: r'), n'. split; [exact E|]. split; [by constructor|]. split; [cbn; by do 2 f_equal|lia].
  - destruct (size_of_mask k Hk) as (_ & _ & Hr' & _). destruct (allocate_bar_spec k next) as (a & Ea & H1 & H2 & H3); [done|done|unfold LOONGARCH64_PCI_MEMORY32_END; lia|].
    rewrite (assign_io _ _ _ _ k a) by (done || lia). destruct (latch_aligned k a Hk H3) as (_ & _ & _ & _ & L); [lia|].
    destruct (IH (l ++ [(B_io k, a + 1)]) (a + 2 ^ k) fuel) as (r' & n' & E & Hp & Hk' & Hle'); [|rewrite ?length_app; cbn; lia..|].
    { apply Forall_app. split; [done|]. by repeat constructor. }
    rewrite Hlen, <- !app_assoc in E. eexists (_ :: r'), n'. split; [exact E|]. split; [by constructor|]. split; [cbn; by f_equal|lia].
Qed.

Lemma bar_address_tail f b l i : bar_address (with_bars f (b :: l)) (S i) = bar_address (with_bars f l) i.
Proof. reflexivity. Qed.

Lemma placed_bounds n l n' : placed n l n' → n ≤ n'.
Proof. induction 1; try done; pose proof (Z.pow_nonneg 2 k); lia. Qed.

Lemma placed_range f n l n' i a s : placed n l n' → bar_address (with_bars f l) i = Some (a, s) → a mod s = 0 ∧ n ≤ a ∧ a + s ≤ n'.
Proof.
  intros Hp. revert i. induction Hp as [n n' Hnn|n l n' Hp IH|n k x l n' Hx Hm Hp IH|n k x l n' Hx Hm Hp IH|n k x l n' Hx Hm Hp IH]; intros i E; [done|..];
    (destruct i as [|i]; [cbn [bar_address with_bars fn_bars lookup list_lookup snd fmap option_fmap option_map default] in E|]).
  - done.
  - by apply (IH i).
  - injection E as <- <-. pose proof (placed_bounds _ _ _ Hp). split_and!; [done|lia|lia].
  - destruct (IH i E) as (? & ? & ?). pose proof (Z.pow_nonneg 2 k). split_and!; [done|lia|lia].
  - change (Some (x + 4 - 4 + 0, 2 ^ k) = Some (a, s)) in E. injection E as <- <-. pose proof (placed_bounds _ _ _ Hp). replace (x + 4 - 4 + 0) with x by lia. split_and!; [done|lia|lia].
  - destruct i as [|i]; [done|]. destruct (IH i E) as (? & ? & ?). pose proof (Z.pow_nonneg 2 k). split_and!; [done|lia|lia].
  - injection E as <- <-. pose proof (placed_bounds _ _ _ Hp). replace (x + 1 - 1) with x by lia. split_and!; [done|lia|lia].
  - destruct (IH i E) as (? & ? & ?). pose proof (Z.pow_nonneg 2 k). split_and!; [done|lia|lia].
Qed.

Lemma placed_ordered f n l n' i j a s b t : placed n l n' → (i < j)%nat →
  bar_address (with_bars f l) i = Some (a, s) → bar_address (with_bars f l) j = Some (b, t) → a + s ≤ b.
Proof.
  intros Hp. revert i j. induction Hp as [n n' Hnn|n l n' Hp IH|n k x l n' Hx Hm Hp IH|n k x l n' Hx Hm Hp IH|n k x l n' Hx Hm Hp IH]; intros i j Hij Ei Ej; [done|..];
    (destruct j as [|j]; [lia|]).
  - destruct i as [|i]; [done|]. apply (IH i j); [lia|done..].
  - destruct i as [|i]; [|apply (IH i j); [lia|done..]]. destruct (placed_range f _ _ _ j b t Hp Ej) as (_ & ? & _). by injection Ei as <- <-.
  - destruct j as [|j]; [done|]. destruct i as [|[|i]]; [|done|apply (IH i j); [lia|done..]].
    destruct (placed_range f _ _ _ j b t Hp Ej) as (_ & ? & _). change (Some (x + 4 - 4 + 0, 2 ^ k) = Some (a, s)) in Ei. injection Ei as <- <-. lia.
  - destruct i as [|i]; [|apply (IH i j); [lia|done..]]. destruct (placed_range f _ _ _ j b t Hp Ej) as (_ & ? & _). injection Ei as <- <-. lia.
Qed.

(** C39: the base addresses of a PCI device do not overlap.  For a device whose six registers
    hold no addresses yet and whose regions fit into what is left of the 32-bit window, the
    loop ends; afterwards each region has an address aligned to its size, at or above the next
    free address, the regions follow each other without overlap, and the next free address is
    above them all. *)
Theorem assigned_bars_disjoint (f : PciFunction) (next : Z) :
  fresh_bars (fn_bars f) → length (fn_bars f) = 6%nat → LOONGARCH64_PCI_MEMORY32_START ≤ next → next + bars_total (fn_bars f) ≤ LOONGARCH64_PCI_MEMORY32_END →
  ∃ f' next', assign_bars_with_pci_root f next = Some (f', next') ∧
    (fn_bars f').*1 = (fn_bars f).*1 ∧ fn_command f' = fn_command f ∧ next ≤ next' ≤ LOONGARCH64_PCI_MEMORY32_END ∧
    (∀ i a s, bar_address f' i = Some (a, s) → a mod s = 0 ∧ next ≤ a ∧ a + s ≤ next') ∧
    (∀ i j a s b t, (i < j)%nat → bar_address f' i = Some (a, s) → bar_address f' j = Some (b, t) → a + s ≤ b).
Proof.
  intros Hf Hl Hn Hle. unfold LOONGARCH64_PCI_MEMORY32_START in Hn.
  destruct (assign_rest f (fn_bars f) Hf [] next 6) as (l' & n' & E & Hp & Hk & Hle'); [done|cbn; lia|lia|lia|done|].
  exists (with_bars f l'), n'. split; [by destruct f|]. cbn [with_bars fn_bars fn_command]. split_and!; [done|done|by eapply placed_bounds|lia| |].
  - intros i a s. by apply placed_range.
  - intros i j a s b t. by apply (placed_ordered f next l' n').
Qed.

Definition demo_function : PciFunction := mkPciFunction [(B_io 5, 1); (B_mem32 12, 0); (B_none, 0); (B_none, 0); (B_mem64 14, 4); (B_high, 0)] 0.

Lemma assigned_bars_disjoint_witness :
  ∃ f' next', assign_bars_with_pci_root demo_function LOONGARCH64_PCI_MEMORY32_START = Some (f', next') ∧ bar_address f' 1 = Some (0x58001000, 0x1000) ∧
    bar_address f' 4 = Some (0x58004000, 0x4000) ∧ (fn_bars f').*1 = (fn_bars demo_function).*1.
Proof.
  destruct (assigned_bars_disjoint demo_function LOONGARCH64_PCI_MEMORY32_START) as (f' & n' & E & Hk & _).
  - repeat (constructor; try lia).
  - reflexivity.
  - reflexivity.
  - vm_compute. discriminate.
  - exists f', n'. split; [exact E|]. vm_compute in E. injection E as <- <-. split; [reflexivity|]. split; [reflexivity|]. exact Hk.
Defined.

(** A 64-bit region that already has an address below 4 GiB loses it: its upper register is
    taken for a region of 16 bytes of its own. *)
Theorem assigned_bar64_overwritten : ∃ f' next',
  assign_bars_with_pci_root (mkPciFunction [(B_mem64 14, 0x60000004); (B_high, 0); (B_none, 0); (B_none, 0); (B_none, 0); (B_none, 0)] 0) LOONGARCH64_PCI_MEMORY32_START = Some (f', next') ∧
  bar_address f' 0 = Some (0x60000000 + 2 ^ 32 * 0x58000000, 0x4000).
Proof. eexists _, _. split; vm_compute; reflexivity. Qed.
