(* ===== verification/Boot.v ===== *)
(** * Memory at boot and kernel traps

    Models how the memory of the machine reaches the frame allocator: the regions of the
    device tree are cut around the kernel image and the device tree itself (the vendored
    polyhal, src/mem.rs), [main] registers what is left (kernel/src/main.rs); and the trap
    handler [kernel_interrupt] and the page allocator that polyhal's page tables use, of the
    same file.  The theorem on memory composes polyhal's regions with the frame allocator. *)

From S2P Require Import Prelude Frame Signal Memory MemSet Mm Cow Devices.

(** ** The regions of the device tree *)

Definition MEM_VECTOR_CAPACITY : nat := 32.

(** The physical ranges of the kernel image and of the device tree; [MEM_AREA] is the list of
    areas, each a start and a size. *)
Section areas.
Context (kernel dtb : Z * Z).

(** The recursion splits an area at most twice; a panic for want of fuel stands for an
    endless recursion. *)
Fixpoint add_memory_region (fuel : nat) (start end_ : Z) (MEM_AREA : list (Z * Z)) : outcome (list (Z * Z)) :=
  if decide (end_ -u start = 0) then Ret MEM_AREA
  else
    match fuel with
    | O => Panic
    | S fuel =>
        let around (x : Z * Z) :=
          a ← (if decide (0 < x.1 -u start) then add_memory_region fuel start x.1 MEM_AREA else Ret MEM_AREA);
          (if decide (0 < end_ -u x.2) then add_memory_region fuel x.2 end_ a else Ret a) in
        if decide (start ≤ kernel.1 ∧ kernel.2 ≤ end_) then around kernel
        else if decide (start ≤ dtb.1 ∧ dtb.2 ≤ end_) then around dtb
        else if decide (length MEM_AREA < MEM_VECTOR_CAPACITY)%nat then Ret (MEM_AREA ++ [(start, end_ -u start)]) else Panic
    end.

(** The regions of the memory nodes, as address and size, on riscv64: the first two megabytes
    are left to the firmware. *)
Definition init_dtb_once (regions : list (Z * Z)) : outcome (list (Z * Z)) :=
  foldM (λ areas mm, add_memory_region 3 (mm.1 +u 0x200000) (mm.1 +u mm.2) areas) regions [].
End areas.

(** [main] registers each area. *)
Definition boot_frames (areas : list (Z * Z)) (fa : FrameAllocator) : outcome FrameAllocator :=
  foldM (λ fa a, add_frame_map VIRT_ADDR_START fa a.1 (a.1 +u a.2)) areas fa.

Definition boot_memory (kernel dtb : Z * Z) (regions : list (Z * Z)) : outcome FrameAllocator :=
  areas ← init_dtb_once kernel dtb regions; boot_frames areas FrameAllocator_new.

(** ** Pages for page tables *)

Section page_alloc.
Context {FS : Type} `{FL : FrameSourceLaws FS}.

Definition PageAlloc_alloc (w : World FS) : outcome (Z * World FS) :=
  '(o, fs) ← frame_alloc (w_frames w); p ← unwrap o; Ret (p, mkWorld fs (w_mem w)).

(** The frame is released before it is cleared. *)
Definition PageAlloc_dealloc (paddr : Z) (w : World FS) : outcome (World FS) :=
  fs ← frame_unalloc (w_frames w) paddr; Ret (mkWorld fs (clear_len (w_mem w) paddr PAGE_SIZE)).
End page_alloc.

(** ** Traps *)

Inductive TrapType :=
  | Breakpoint | SysCall | Timer | Unknown | SupervisorExternal
  | StorePageFault (addr : Z) | LoadPageFault (addr : Z) | InstructionPageFault (addr : Z) | IllegalInstruction (addr : Z) | Irq (vector : Z).

Section traps.
Context {FS : Type} `{FL : FrameSourceLaws FS} {F B : Type} `{Mmio B}.
Context (file_read : F → Z → Z → result (list Z)) (file_size : F → option Z) (count : Z → nat).

(** The task on the core: its address space, pending signals, the counters of the fault
    handler, exit code, and whether its process is locked. *)
Record UserCtx := mkUserCtx { ux_fault : Fault (FS := FS) (F := F); ux_locked : bool }.
Inductive Current := C_kernel | C_user (u : UserCtx).

(** No current task is [None]. *)
Record TrapState := mkTrapState { ts_current : option Current; ts_devices : Devices B }.

Definition set_current (u : UserCtx) (s : TrapState) : TrapState := mkTrapState (Some (C_user u)) (ts_devices s).

(** The program counter of the trap is the argument [sepc] and the first result; a panic
    stands for a lock that is never released, too. *)
Definition page_fault (addr sepc : Z) (s : TrapState) : outcome (Z * TrapState) :=
  if decide (VIRT_ADDR_START < addr) then Panic
  else
    t ← unwrap (ts_current s);
    match t with
    | C_user u =>
        let f := ux_fault u in
        r ← user_cow_int file_read file_size count (ft_space f) (ft_signal f) (ft_tls f) addr;
        let exit := match ft_exit r with Some c => Some c | None => ft_exit f end in
        Ret (sepc, set_current (mkUserCtx (mkFault (ft_space r) (ft_signal r) (ft_tls r) exit) false) s)
    | C_kernel => Panic
    end.

Definition kernel_interrupt (trap_type : TrapType) (sepc : Z) (s : TrapState) : outcome (Z * TrapState) :=
  match trap_type with
  | StorePageFault addr | InstructionPageFault addr | LoadPageFault addr => page_fault addr sepc s
  | IllegalInstruction addr =>
      if decide (VIRT_ADDR_START < addr) then Ret (sepc, s)
      else
        t ← unwrap (ts_current s);
        match t with
        | C_user u =>
            if ux_locked u then Panic else
            let f := ux_fault u in
            let '(sig, sepc) := task_ilegal (ft_space f) (ft_signal f) sepc sepc in
            Ret (sepc, set_current (mkUserCtx (mkFault (ft_space f) sig (ft_tls f) (ft_exit f)) (ux_locked u)) s)
        | C_kernel => Panic
        end
  | SupervisorExternal =>
      d ← get_int_device (ts_devices s);
      '(_, w) ← on_bus (try_handle_interrupt d) (ts_devices s);
      Ret (sepc, mkTrapState (ts_current s) w)
  | _ => Ret (sepc, s)
  end.
End traps.

(** ** What is left of a region *)

(** A reference: a range cut around another one that lies in it. *)
Definition nonempty (r : Z * Z) : Prop := r.1 < r.2.
#[export] Instance nonempty_dec r : Decision (nonempty r).
Proof. unfold nonempty. apply _. Defined.

Definition contains_range (r x : Z * Z) : Prop := r.1 ≤ x.1 ∧ x.2 ≤ r.2.
#[export] Instance contains_range_dec r x : Decision (contains_range r x).
Proof. unfold contains_range. apply _. Defined.

Definition split_at (x r : Z * Z) : list (Z * Z) :=
  if decide (contains_range r x) then filter nonempty [(r.1, x.1); (x.2, r.2)] else [r].
Definition cut (x : Z * Z) (l : list (Z * Z)) : list (Z * Z) := l ≫= split_at x.
Definition pieces (kernel dtb : Z * Z) (l : list (Z * Z)) : list (Z * Z) := cut dtb (cut kernel l).

Definition area_of (r : Z * Z) : Z * Z := (r.1, r.2 - r.1).

(** Ranges that a cut is meant for: the other range is inside or apart. *)
Definition apart_ranges (r x : Z * Z) : Prop := r.2 ≤ x.1 ∨ x.2 ≤ r.1.
Definition cuttable (x r : Z * Z) : Prop := contains_range r x ∨ apart_ranges r x.

Fixpoint pairwise_apart (l : list (Z * Z)) : Prop :=
  match l with [] => True | r :: l => Forall (apart_ranges r) l ∧ pairwise_apart l end.

Lemma pairwise_app l1 l2 : pairwise_apart (l1 ++ l2) ↔ pairwise_apart l1 ∧ pairwise_apart l2 ∧ ∀ r1 r2, r1 ∈ l1 → r2 ∈ l2 → apart_ranges r1 r2.
Proof.
  induction l1 as [|r l1 IH]; cbn.
  - split; [|by intros (_ & ? & _)]. intros Hl. split_and!; [done|done|]. by intros r1 r2 []%not_elem_of_nil.
  - rewrite IH, Forall_app. split.
    + intros ([H1 H2] & H3 & H4 & H5). split_and!; try done. intros r1 r2 [->|Hr]%elem_of_cons Hr2; [|by apply H5]. rewrite Forall_forall in H2. by apply H2.
    + intros ((H1 & H2) & H3 & H4). split; [split; [done|]|]; [|split_and!; [done|done|]].
      * apply Forall_forall. intros r2 Hr2. apply H4; [by left|done].
      * intros r1 r2 Hr1 Hr2. apply H4; [by right|done].
Qed.

Lemma elem_split x r q : q ∈ split_at x r → r.1 ≤ q.1 ∧ q.2 ≤ r.2 ∨ ¬ nonempty x.
Proof.
  unfold split_at, contains_range, nonempty. case_decide as E; [|intros ->%list_elem_of_singleton; left; lia].
  rewrite list_elem_of_filter, !elem_of_cons. intros [_ [->|[->|[]%not_elem_of_nil]]]; cbn; lia.
Qed.

Lemma elem_split_in x r q : contains_range r x → q ∈ split_at x r → q = (r.1, x.1) ∨ q = (x.2, r.2).
Proof.
  intros Hc. unfold split_at. rewrite decide_True by done. intros [_ Hq]%list_elem_of_filter. rewrite !elem_of_cons in Hq.
  destruct Hq as [->|[->|[]%not_elem_of_nil]]; auto.
Qed.

(** Pieces of ranges that are apart are apart, and not empty. *)
Lemma cut_ok x l : nonempty x → Forall nonempty l → pairwise_apart l → Forall nonempty (cut x l) ∧ pairwise_apart (cut x l) ∧
  ∀ q, q ∈ cut x l → ∃ r, r ∈ l ∧ r.1 ≤ q.1 ∧ q.2 ≤ r.2.
Proof.
  intros Hx. induction l as [|r l IH]; intros Hn Hp; [split_and!; [constructor|done|by intros ? []%not_elem_of_nil]|].
  apply Forall_cons in Hn as [Hr Hn]. destruct Hp as [Hra Hp]. destruct (IH Hn Hp) as (IH1 & IH2 & IH3).
  change (cut x (r :: l)) with (split_at x r ++ cut x l).
  assert (∀ q, q ∈ split_at x r → r.1 ≤ q.1 ∧ q.2 ≤ r.2) as Hs by (intros q [?|?]%elem_split; [done|done]).
  assert (∀ q, q ∈ split_at x r ++ cut x l → ∃ r', r' ∈ r :: l ∧ r'.1 ≤ q.1 ∧ q.2 ≤ r'.2) as Hsub.
  { intros q [Hq|Hq]%elem_of_app; [exists r; split; [by left|by apply Hs]|]. destruct (IH3 q Hq) as (r' & ? & ?). exists r'. split; [by right|done]. }
  split_and!; [|apply pairwise_app; split_and!|done].
  - apply Forall_app. split; [|done]. unfold split_at. case_decide; [|by constructor]. apply Forall_forall. by intros q [? _]%list_elem_of_filter.
  - unfold split_at. case_decide as E; [|cbn; split; [constructor|done]]. rewrite !filter_cons, filter_nil.
    unfold contains_range, nonempty, apart_ranges in *. repeat case_decide; cbn in *; rewrite ?Forall_cons, ?Forall_nil; unfold apart_ranges; cbn; lia.
  - done.
  - intros q q' Hq Hq'. destruct (IH3 q' Hq') as (r' & Hr' & H1 & H2). specialize (Hs q Hq). rewrite Forall_forall in Hra. specialize (Hra r' Hr').
    unfold apart_ranges in *. lia.
Qed.

(** A page lies in the pieces if it lies in a range and misses what was cut out. *)
Definition page_in (p : Z) (r : Z * Z) : Prop := r.1 ≤ p ∧ p + PAGE_SIZE ≤ r.2.
Definition misses (p : Z) (x : Z * Z) : Prop := p + PAGE_SIZE ≤ x.1 ∨ x.2 ≤ p.

Lemma cut_pages x l p : nonempty x → Forall (cuttable x) l →
  (∃ q, q ∈ cut x l ∧ page_in p q) ↔ ∃ r, r ∈ l ∧ page_in p r ∧ misses p x.
Proof.
  intros Hx Hc. unfold nonempty in Hx. assert (∀ r, r ∈ l → (∃ q, q ∈ split_at x r ∧ page_in p q) ↔ page_in p r ∧ misses p x) as Hs.
  { intros r Hr. rewrite Forall_forall in Hc. specialize (Hc r Hr). unfold split_at, cuttable, apart_ranges, contains_range, page_in, misses, nonempty, PAGE_SIZE in *. case_decide as E.
    - split.
      + intros (q & [Hn Hq]%list_elem_of_filter & H1 & H2). rewrite !elem_of_cons in Hq. destruct Hq as [->|[->|[]%not_elem_of_nil]]; cbn in *; lia.
      + intros ([H1 H2] & [H3|H3]).
        * exists (r.1, x.1). split; [apply list_elem_of_filter; split; [cbn; lia|by left]|cbn; lia].
        * exists (x.2, r.2). split; [apply list_elem_of_filter; split; [cbn; lia|by right; left]|cbn; lia].
    - destruct Hc as [Hc|Hc]; [done|]. split; [intros (q & ->%list_elem_of_singleton & Hq); split; [done|lia]|]. intros [Hq _]. exists r. split; [by apply list_elem_of_singleton|done]. }
  unfold cut. setoid_rewrite list_elem_of_bind. split.
  - intros (q & (r & Hq & Hr) & Hp). destruct (proj1 (Hs r Hr)) as [H1 H2]; [by exists q|]. by exists r.
  - intros (r & Hr & Hp). destruct (proj2 (Hs r Hr) Hp) as (q & Hq & Hpq). exists q. split; [by exists r|done].
Qed.

(** The recursion computes the pieces, and three levels are enough. *)
Section recursion.
Context (kernel dtb : Z * Z) (Hk : nonempty kernel) (Hd : nonempty dtb) (Hk0 : 0 ≤ kernel.1) (Hd0 : 0 ≤ dtb.1).

Lemma add_leaf fuel s e l : 0 ≤ s < e → e < USIZE → ¬ contains_range (s, e) kernel → ¬ contains_range (s, e) dtb →
  (length l < MEM_VECTOR_CAPACITY)%nat → add_memory_region kernel dtb (S fuel) s e l = Ret (l ++ [area_of (s, e)]).
Proof.
  intros Hs He H1 H2 Hl. cbn [add_memory_region]. rewrite (wrap_small (e - s)) by (unfold is_usize; lia). rewrite decide_False by lia.
  rewrite decide_False by exact H1. rewrite decide_False by exact H2. by rewrite decide_True.
Qed.

(** The two parts of a cut, each added by [add]. *)
Lemma around_ok (add : Z → Z → list (Z * Z) → outcome (list (Z * Z))) (f : Z * Z → list (Z * Z)) s e x l :
  0 ≤ s → e < USIZE → nonempty x → contains_range (s, e) x →
  (∀ a b l, s ≤ a → a < b → b ≤ e → (a, b) ∈ split_at x (s, e) → (length (l ++ f (a, b)) ≤ MEM_VECTOR_CAPACITY)%nat → add a b l = Ret (l ++ (area_of <$> f (a, b)))) →
  (length l + length (split_at x (s, e) ≫= f) ≤ MEM_VECTOR_CAPACITY)%nat →
  (a ← (if decide (0 < x.1 -u s) then add s x.1 l else Ret l); if decide (0 < e -u x.2) then add x.2 e a else Ret a) =
  Ret (l ++ (area_of <$> (split_at x (s, e) ≫= f))).
Proof.
  intros Hs He Hx Hc. assert (split_at x (s, e) = filter nonempty [(s, x.1); (x.2, e)]) as -> by (unfold split_at; by rewrite decide_True by done).
  unfold contains_range, nonempty in *. cbn [fst snd] in *.
  rewrite !(wrap_small (_ - _)) by (unfold is_usize; lia). rewrite !filter_cons, filter_nil. cbn [fst snd].
  destruct (decide (s < x.1)); [rewrite (decide_True (P := 0 < x.1 - s)) by lia|rewrite (decide_False (P := 0 < x.1 - s)) by lia];
    destruct (decide (x.2 < e)); intros Hadd Hl; step_ret; cbn [mbind list_bind] in Hl |- *; rewrite ?app_nil_r in *; rewrite ?length_app in Hl.
  - rewrite Hadd; [|lia|lia|lia|by left|rewrite length_app; lia]. step_ret. rewrite decide_True by lia.
    rewrite Hadd; [|lia|lia|lia|by right; left|rewrite !length_app, length_fmap; lia]. rewrite fmap_app, app_assoc. done.
  - rewrite Hadd; [|lia|lia|lia|by left|rewrite length_app; lia]. step_ret. by rewrite decide_False by lia.
  - rewrite decide_True by lia. rewrite Hadd; [|lia|lia|lia|by left|rewrite length_app; lia]. done.
  - by rewrite decide_False by lia.
Qed.

Lemma add_two fuel s e l : 0 ≤ s < e → e < USIZE → ¬ contains_range (s, e) kernel →
  (length l + length (split_at dtb (s, e)) ≤ MEM_VECTOR_CAPACITY)%nat →
  add_memory_region kernel dtb (S (S fuel)) s e l = Ret (l ++ (area_of <$> split_at dtb (s, e))).
Proof.
  intros Hs He H1 Hl. destruct (decide (contains_range (s, e) dtb)) as [E|E].
  - cbn [add_memory_region]. rewrite (wrap_small (e - s)) by (unfold is_usize; lia). rewrite decide_False by lia.
    rewrite decide_False by exact H1. rewrite decide_True by exact E.
    pose proof (around_ok (add_memory_region kernel dtb (S fuel)) (λ r, [r]) s e dtb l) as Ha. assert (∀ l0 : list (Z * Z), l0 ≫= (λ r, [r]) = l0) as Hid by (intros l0; induction l0 as [|r l0 IH]; [done|cbn; f_equal; exact IH]).
    rewrite Hid in Ha. apply Ha; [lia|done|done|done| |done]. intros a b l' Ha1 Hab Hb Hin Hl'. apply add_leaf; [lia|lia|..].
    + unfold contains_range in *. cbn in *. lia.
    + apply elem_split_in in Hin; [|done]. unfold contains_range, nonempty in *. cbn [fst snd] in *. destruct Hin as [[= -> ->]|[= -> ->]]; lia.
    + rewrite length_app in Hl'. cbn in Hl'. lia.
  - unfold split_at in *. rewrite decide_False in * by done. cbn [length] in Hl. rewrite add_leaf by (done || lia). done.
Qed.

Lemma add_three s e l : 0 ≤ s < e → e < USIZE → (length l + length (pieces kernel dtb [(s, e)]) ≤ MEM_VECTOR_CAPACITY)%nat →
  add_memory_region kernel dtb 3 s e l = Ret (l ++ (area_of <$> pieces kernel dtb [(s, e)])).
Proof.
  intros Hs He. unfold pieces, cut. cbn [mbind list_bind]. rewrite app_nil_r. intros Hl. destruct (decide (contains_range (s, e) kernel)) as [E|E].
  - cbn [add_memory_region]. rewrite (wrap_small (e - s)) by (unfold is_usize; lia). rewrite decide_False by lia. rewrite decide_True by exact E. cbn zeta.
    apply (around_ok (add_memory_region kernel dtb 2) (split_at dtb) s e kernel l); [lia|done|done|done| |done].
    intros a b l' Ha1 Hab Hb Hin Hl'. apply add_two; [lia|lia|..].
    + apply elem_split_in in Hin; [|done]. unfold contains_range, nonempty in *. cbn [fst snd] in *. destruct Hin as [[= -> ->]|[= -> ->]]; lia.
    + by rewrite length_app in Hl'.
  - unfold split_at at 2 in Hl. unfold split_at at 2. rewrite decide_False in * by done. cbn [mbind list_bind] in *. rewrite app_nil_r in *.
    by apply add_two.
Qed.
End recursion.

Lemma pieces_cons kernel dtb r l : pieces kernel dtb (r :: l) = pieces kernel dtb [r] ++ pieces kernel dtb l.
Proof. unfold pieces, cut. change (r :: l) with ([r] ++ l). by rewrite !bind_app. Qed.

(** The range that a memory node describes on this architecture. *)
Definition node_range (mm : Z * Z) : Z * Z := (mm.1 + 0x200000, mm.1 + mm.2).
Definition range_ok (r : Z * Z) : Prop := 0 ≤ r.1 ∧ r.1 < r.2 ∧ r.2 < 2 ^ 38.

Lemma init_dtb_ok kernel dtb (regions : list (Z * Z)) : nonempty kernel → nonempty dtb → 0 ≤ kernel.1 → 0 ≤ dtb.1 →
  Forall (λ mm, 0 ≤ mm.1 ∧ range_ok (node_range mm)) regions → (length (pieces kernel dtb (node_range <$> regions)) ≤ MEM_VECTOR_CAPACITY)%nat →
  init_dtb_once kernel dtb regions = Ret (area_of <$> pieces kernel dtb (node_range <$> regions)).
Proof.
  intros Hk Hd Hk0 Hd0 Hr Hl. unfold init_dtb_once. rewrite <- (app_nil_l (area_of <$> _)).
  assert (length ([] : list (Z * Z)) + length (pieces kernel dtb (node_range <$> regions)) ≤ MEM_VECTOR_CAPACITY)%nat as Hl' by done.
  clear Hl. revert Hl'. generalize ([] : list (Z * Z)). induction Hr as [|mm regions (H0 & Hm) Hr IH]; intros l Hl.
  { cbn. by rewrite app_nil_r. }
  unfold range_ok, node_range in Hm. cbn [fst snd] in Hm. change (2 ^ 38) with 274877906944 in Hm. rewrite fmap_cons, pieces_cons in *. rewrite length_app in Hl. cbn [foldM].
  rewrite (wrap_small (_ + 0x200000)), (wrap_small (mm.1 + mm.2)) by (unfold is_usize, USIZE; lia).
  rewrite add_three by (done || (unfold USIZE, node_range in *; lia)).
  rewrite IH; [by rewrite fmap_app, app_assoc|]. rewrite length_app, length_fmap. unfold node_range in Hl |- *. lia.
Qed.

Lemma ldiff_virt a : 0 ≤ a < 2 ^ 38 → Z.ldiff a VIRT_ADDR_START = a.
Proof.
  intros Ha. apply Z.bits_inj'. intros j Hj. rewrite Z.ldiff_spec. destruct (decide (j < 38)).
  - change VIRT_ADDR_START with (Z.shiftl (Z.ones 26) 38). rewrite Z.shiftl_spec_low by lia. apply andb_true_r.
  - assert (Z.testbit a j = false) as ->; [|done]. destruct (decide (a = 0)) as [->|]; [apply Z.bits_0|].
    apply Z.bits_above_log2; [lia|]. apply Z.lt_le_trans with 38; [|lia]. apply Z.log2_lt_pow2; lia.
Qed.

Lemma boot_frames_ok (qs : list (Z * Z)) :
  Forall (λ q, 0 ≤ q.1 ∧ q.1 + PAGE_SIZE ≤ q.2 ∧ q.2 < 2 ^ 38) qs → pairwise_apart qs →
  ∃ fa, boot_frames (area_of <$> qs) FrameAllocator_new = Ret fa ∧ fa_wf fa ∧ fa_free fa = fa_managed fa ∧
    ∀ p, p ∈ fa_free fa ↔ p mod PAGE_SIZE = 0 ∧ ∃ q, q ∈ qs ∧ page_in p q.
Proof.
  intros Hq Hp. unfold boot_frames.
  assert (∀ prev fa, fa_wf fa → fa_free fa = fa_managed fa → (∀ p, p ∈ fa_free fa ↔ p mod PAGE_SIZE = 0 ∧ ∃ q, q ∈ prev ∧ page_in p q) →
    Forall (λ r, ∃ q, q ∈ prev ∧ q.1 ≤ paddr r ∧ paddr_end r ≤ q.2) fa → (∀ q q', q ∈ prev → q' ∈ qs → apart_ranges q q') →
    ∃ fa', foldM (λ fa a, add_frame_map VIRT_ADDR_START fa a.1 (a.1 +u a.2)) (area_of <$> qs) fa = Ret fa' ∧ fa_wf fa' ∧ fa_free fa' = fa_managed fa' ∧
      ∀ p, p ∈ fa_free fa' ↔ p mod PAGE_SIZE = 0 ∧ ∃ q, q ∈ prev ++ qs ∧ page_in p q) as Hgen.
  2:{ destruct (Hgen [] FrameAllocator_new) as (fa & E & ? & ? & ?); [constructor|done| |constructor|by intros q q' []%not_elem_of_nil|by exists fa].
      intros p. change (fa_free FrameAllocator_new) with (∅ : gset Z). split; [set_solver|]. by intros (_ & q & []%not_elem_of_nil & _). }
  induction qs as [|q qs IH]; intros prev fa Hwf Hfm Hf Hin Hap.
  { exists fa. rewrite app_nil_r. by split_and!. }
  apply Forall_cons in Hq as [(H0 & H1 & H2) Hq]. destruct Hp as [Hpq Hp]. rewrite fmap_cons. cbn [foldM area_of fst snd].
  replace (q.1 + (q.2 - q.1)) with q.2 by lia. change (2 ^ 38) with 274877906944 in *. rewrite (wrap_small q.2) by (unfold is_usize, USIZE, PAGE_SIZE in *; lia).
  unfold add_frame_map. assert (q.1 ≤ alignup q.1 PAGE_SIZE < q.1 + PAGE_SIZE ∧ alignup q.1 PAGE_SIZE = div_ceil q.1 PAGE_SIZE * PAGE_SIZE) as [Es Es'] by (apply alignup_spec; unfold USIZE, PAGE_SIZE in *; lia).
  assert (q.2 - PAGE_SIZE < aligndown q.2 PAGE_SIZE ≤ q.2 ∧ aligndown q.2 PAGE_SIZE = q.2 / PAGE_SIZE * PAGE_SIZE) as [Ed Ed'] by (apply aligndown_spec; unfold USIZE, PAGE_SIZE in *; lia).
  rewrite !ldiff_virt by (change (2 ^ 38) with 274877906944; unfold PAGE_SIZE in *; lia).
  assert (alignup q.1 PAGE_SIZE ≤ aligndown q.2 PAGE_SIZE) as Hle by (unfold PAGE_SIZE in *; lia).
  assert (alignup q.1 PAGE_SIZE mod PAGE_SIZE = 0) as As by (rewrite Es'; by apply Z.mod_mul).
  assert (aligndown q.2 PAGE_SIZE mod PAGE_SIZE = 0) as Ad by (rewrite Ed'; by apply Z.mod_mul).
  set (s := alignup q.1 PAGE_SIZE) in *. set (e := aligndown q.2 PAGE_SIZE) in *.
  assert (Forall (λ r, paddr_end r ≤ s ∨ e ≤ paddr r) fa) as Hd.
  { eapply Forall_impl; [exact Hin|]. intros r (q' & Hq' & ? & ?). specialize (Hap q' q Hq' ltac:(by left)). unfold apart_ranges in Hap. lia. }
  destruct (add_memory_region_spec fa s e) as (fa' & E & Hwf' & Hf'); [done|lia|unfold USIZE, PAGE_SIZE in *; lia|done|done|done|].
  rewrite E. unfold Frame.add_memory_region in E. destruct (region_new_spec s e) as (r & Er & Hr & Ep & Ee & Hrf); [lia|unfold USIZE, PAGE_SIZE in *; lia|done|done|].
  rewrite Er in E. injection E as <-.
  assert (∀ p, p ∈ region_free r ↔ p mod PAGE_SIZE = 0 ∧ page_in p q) as Hpr.
  { intros p. rewrite Hrf, elem_of_list_to_set, list_elem_of_fmap. setoid_rewrite elem_of_seqZ. unfold page_in. split.
    - intros (i & -> & Hi). rewrite Z.mod_add, As by done. split; [done|]. pose proof (page_div_mul s As). pose proof (page_div_mul e Ad).
      assert ((e - s) / PAGE_SIZE * PAGE_SIZE ≤ e - s) by (rewrite Z.mul_comm; apply Z.mul_div_le; done). unfold PAGE_SIZE in *. lia.
    - intros (Hm & Ha & Hb). pose proof (page_div_mul p Hm). pose proof (page_div_mul s As). pose proof (page_div_mul e Ad).
      exists (p / PAGE_SIZE - s / PAGE_SIZE). split; [unfold PAGE_SIZE in *; lia|]. replace (e - s) with ((e / PAGE_SIZE - s / PAGE_SIZE) * PAGE_SIZE) by lia.
      rewrite Z.div_mul by done. unfold PAGE_SIZE in *. lia. }
  edestruct (IH Hq Hp (prev ++ [q]) (fa ++ [r])) as (fa2 & E2 & Hwf2 & Hfm2 & Hf2); [exact Hwf'|..].
  - rewrite Hf'. assert (region_free r = region_frames r) as Err.
    { apply set_eq. intros p. split; [apply region_free_frames|]. intros (i & -> & Hi)%elem_region_frames. rewrite Hrf, elem_of_list_to_set, list_elem_of_fmap.
      exists i. unfold frame_at, total_pages in *. rewrite Ep, Ee in *. split; [done|]. apply elem_of_seqZ. pose proof (page_div_mul s As). pose proof (page_div_mul e Ad).
      replace (e - s) with ((e / PAGE_SIZE - s / PAGE_SIZE) * PAGE_SIZE) by lia. rewrite Z.div_mul by done. lia. }
    assert (fa_managed (fa ++ [r]) = fa_managed fa ∪ region_frames r) as ->.
    { clear. induction fa as [|x fa IH]; cbn [app]; rewrite ?fa_managed_cons, ?IH, ?fa_managed_nil; set_solver. }
    rewrite Hfm, <- Err, Hrf. done.
  - intros p. rewrite Hf', elem_of_union, Hf. change (list_to_set (frames_from s ((e - s) / PAGE_SIZE))) with (list_to_set ((λ i, s + i * PAGE_SIZE) <$> seqZ 0 ((e - s) / PAGE_SIZE)) : gset Z).
    rewrite <- Hrf, Hpr. setoid_rewrite elem_of_app. setoid_rewrite list_elem_of_singleton. naive_solver.
  - apply Forall_app. split; [|apply Forall_singleton; exists q; split; [set_solver|lia]].
    eapply Forall_impl; [exact Hin|]. intros x (q' & ? & ?). exists q'. split; [set_solver|done].
  - intros x y [Hx| ->%list_elem_of_singleton]%elem_of_app Hy; [apply Hap; [done|by right]|]. rewrite Forall_forall in Hpq. by apply Hpq.
  - exists fa2. split; [exact E2|]. split_and!; [done|done|]. intros p. rewrite Hf2. by rewrite <- app_assoc.
Qed.

(** The areas left of the memory, and the frames they give. *)
Lemma boot_pieces_ok (kernel dtb : Z * Z) (regions : list (Z * Z)) :
  let ranges := node_range <$> regions in
  nonempty kernel → nonempty dtb → 0 ≤ kernel.1 → 0 ≤ dtb.1 →
  Forall (λ mm, 0 ≤ mm.1 ∧ range_ok (node_range mm)) regions → pairwise_apart ranges →
  (length (pieces kernel dtb ranges) ≤ MEM_VECTOR_CAPACITY)%nat →
  Forall (λ q, q.1 + PAGE_SIZE ≤ q.2) (pieces kernel dtb ranges) →
  ∃ fa, boot_memory kernel dtb regions = Ret fa ∧ fa_wf fa ∧ fa_free fa = fa_managed fa ∧
    ∀ p, p ∈ fa_free fa ↔ p mod PAGE_SIZE = 0 ∧ ∃ q, q ∈ pieces kernel dtb ranges ∧ page_in p q.
Proof.
  intros ranges Hk Hd Hk0 Hd0 Hr Hp Hl Hsz. unfold boot_memory. rewrite init_dtb_ok by done. step_ret.
  assert (Forall nonempty ranges) as Hn.
  { apply Forall_fmap. eapply Forall_impl; [exact Hr|]. intros mm (_ & ? & ? & _). done. }
  destruct (cut_ok kernel ranges Hk Hn Hp) as (Hn1 & Hp1 & Hs1). destruct (cut_ok dtb (cut kernel ranges) Hd Hn1 Hp1) as (Hn2 & Hp2 & Hs2).
  apply boot_frames_ok; [|done]. apply Forall_forall. intros q Hq. rewrite Forall_forall in Hsz. split_and!; [|by apply Hsz|];
    destruct (Hs2 q Hq) as (q1 & Hq1 & ? & ?), (Hs1 q1 Hq1) as (r & Hin & ? & ?); apply list_elem_of_fmap in Hin as (mm & -> & Hmm);
    rewrite Forall_forall in Hr; destruct (Hr mm Hmm) as (_ & ? & ? & ?); lia.
Qed.

(** The pages of the pieces are those of the ranges that miss what was cut out. *)
Lemma pieces_pages (kernel dtb : Z * Z) (ranges : list (Z * Z)) p : nonempty kernel → nonempty dtb → apart_ranges kernel dtb →
  Forall (cuttable kernel) ranges → Forall (cuttable dtb) ranges →
  (∃ q, q ∈ pieces kernel dtb ranges ∧ page_in p q) ↔ misses p kernel ∧ misses p dtb ∧ ∃ r, r ∈ ranges ∧ page_in p r.
Proof.
  intros Hk Hd Hkd Hck Hcd.
  assert (Forall (cuttable dtb) (cut kernel ranges)) as Hc1.
  { apply Forall_forall. intros q Hq. unfold cut in Hq. apply list_elem_of_bind in Hq as (r & Hq & Hin). rewrite Forall_forall in Hcd, Hck. specialize (Hcd r Hin).
    unfold split_at in Hq. unfold cuttable, apart_ranges, contains_range, nonempty in *. case_decide; [|apply list_elem_of_singleton in Hq as ->; done].
    apply list_elem_of_filter in Hq as [_ Hq]. rewrite !elem_of_cons in Hq. destruct Hq as [->|[->|[]%not_elem_of_nil]]; cbn; lia. }
  unfold pieces. rewrite (cut_pages dtb) by done. split.
  - intros (q & Hq & Hpq & Hm). destruct (proj1 (cut_pages kernel ranges p Hk Hck)) as (r & ? & ? & ?); [by exists q|]. split_and!; [done|done|by exists r].
  - intros (Hmk & Hmd & r & Hin & Hpr). destruct (proj2 (cut_pages kernel ranges p Hk Hck)) as (q & ? & ?); [by exists r|]. by exists q.
Qed.



(** ** Pages of page tables *)

(** A page taken and given back is free again and holds zeros, and nothing else changes. *)
Theorem page_alloc_roundtrip {FS} `{FL : FrameSourceLaws FS} (w : World FS) : source_ok (w_frames w) →
  match PageAlloc_alloc w with
  | Ret (p, w1) => p ∈ free_frames (w_frames w) ∧ (p ∉ free_frames (w_frames w1)) ∧
      ∃ w2, PageAlloc_dealloc p w1 = Ret w2 ∧ free_frames (w_frames w2) = free_frames (w_frames w) ∧
        ∀ a, w_mem w2 a = if decide (p ≤ a < p + PAGE_SIZE) then 0 else w_mem w a
  | Panic => free_frames (w_frames w) = ∅
  end.
Proof.
  intros Hok. unfold PageAlloc_alloc. destruct (frame_alloc_law _ Hok) as (o & fs & -> & Hok' & Hm & Ho). step_ret. destruct o as [p|]; cbn [unwrap]; [|by destruct Ho].
  destruct Ho as [Hp Hf]. step_ret. cbn [w_frames w_mem]. split; [done|]. split; [rewrite Hf; set_solver|]. unfold PageAlloc_dealloc. cbn [w_frames w_mem].
  destruct (frame_unalloc_law fs p Hok') as (fs2 & -> & _ & _ & Hf2); [rewrite Hm; by apply (free_managed _ Hok)|]. step_ret. eexists. split; [done|]. cbn [w_frames w_mem].
  split; [|done]. rewrite Hf2, Hf. apply set_eq. intros x. destruct (decide (x = p)); set_solver.
Qed.

(** ** What traps do *)

Section trap_theorems.
Context {FS : Type} `{FL : FrameSourceLaws FS} {F B : Type} `{Mmio B}.
Context (file_read : F → Z → Z → result (list Z)) (file_size : F → option Z) (count : Z → nat).

(** A program that touches an address of the kernel's half takes the whole kernel down:
    the handler takes the fault for one of the kernel's own. *)
Theorem user_kernel_address_panics (addr sepc : Z) (s : TrapState (FS := FS) (F := F) (B := B)) : VIRT_ADDR_START < addr →
  kernel_interrupt file_read file_size count (LoadPageFault addr) sepc s = Panic ∧
  kernel_interrupt file_read file_size count (StorePageFault addr) sepc s = Panic ∧
  kernel_interrupt file_read file_size count (InstructionPageFault addr) sepc s = Panic.
Proof. intros Ha. cbn [kernel_interrupt]. unfold page_fault. by rewrite decide_True by done. Qed.

(** Faults of a task change nothing but the task; interrupts of devices nothing but the
    devices; other traps nothing. *)
Theorem trap_frame (t : TrapType) (sepc sepc' : Z) (s s' : TrapState (FS := FS) (F := F) (B := B)) :
  kernel_interrupt file_read file_size count t sepc s = Ret (sepc', s') →
  match t with
  | StorePageFault _ | LoadPageFault _ | InstructionPageFault _ => sepc' = sepc ∧ ts_devices s' = ts_devices s ∧ ∃ u, ts_current s' = Some (C_user u) ∧ ux_locked u = false
  | IllegalInstruction _ => ts_devices s' = ts_devices s ∧ (sepc' = sepc ∨ sepc' = sepc +u 2)
  | SupervisorExternal => sepc' = sepc ∧ ts_current s' = ts_current s ∧ ALL_DEVICES (ts_devices s') = ALL_DEVICES (ts_devices s) ∧
      IRQ_MANAGER (ts_devices s') = IRQ_MANAGER (ts_devices s)
  | _ => sepc' = sepc ∧ s' = s
  end.
Proof.
  assert (∀ addr, page_fault file_read file_size count addr sepc s = Ret (sepc', s') →
    sepc' = sepc ∧ ts_devices s' = ts_devices s ∧ ∃ u, ts_current s' = Some (C_user u) ∧ ux_locked u = false) as Hpf.
  { intros addr. unfold page_fault. case_decide; [done|]. destruct (ts_current s) as [[|u]|]; try done; cbn [unwrap]; step_ret; try done.
    destruct (user_cow_int _ _ _ _ _ _ _) as [r|]; [|done]. step_ret. intros [= <- <-]. split_and!; [done|done|]. by eexists. }
  destruct t; cbn [kernel_interrupt]; try (by intros [= <- <-]); try apply Hpf.
  - destruct (get_int_device (ts_devices s)) as [d|]; [|done]. step_ret. unfold on_bus. destruct (try_handle_interrupt d (bus (ts_devices s))) as [[r b]|]; [|done].
    step_ret. by intros [= <- <-].
  - case_decide; [intros [= <- <-]; auto|]. destruct (ts_current s) as [[|u]|]; try done; cbn [unwrap]; step_ret; try done. destruct (ux_locked u); [done|].
    unfold task_ilegal. destruct (List.find _ _) as [a|]; [destruct (find_tracker a sepc)|]; step_ret; intros [= <- <-]; auto.
Qed.
End trap_theorems.
