(* ===== verification/PageTables.v ===== *)
(** * Page tables

    Models the three-level page tables of the vendored polyhal (src/pagetable/mod.rs and
    riscv64.rs): entries, the walks of [map_page], [unmap_page] and [translate], the release
    of a table and the creation and destruction of [PageTableWrapper], on the bytes of page
    frames of Memory and the page allocator of Boot.  The other files have a page table as a
    finite map from pages to frames and flags; the theorem here is that the tables in memory
    refine that map, and where [translate] departs from it.  Flushing the TLB has no effect on
    the tables. *)

From S2P Require Import Prelude Frame Memory MemSet Boot.

(** ** Entries *)

(** [PTEFlags] *)
Definition PTE_V : Z := 1.
Definition PTE_R : Z := 2.
Definition PTE_W : Z := 4.
Definition PTE_X : Z := 8.
Definition PTE_U : Z := 16.
Definition PTE_A : Z := 64.
Definition PTE_D : Z := 128.

(** The other bits of [MappingFlags]. *)
Definition MF_P : Z := 1.
Definition MF_A : Z := 32.
Definition MF_D : Z := 64.

Definition contains (flags bit : Z) : bool := bool_decide (Z.land flags bit = bit).
Definition flag_if (b : bool) (bits : Z) : Z := if b then bits else 0.

(** [From<MappingFlags> for PTEFlags] *)
Definition PTEFlags_from (flags : Z) : Z :=
  if decide (flags = 0) then 0
  else
    Z.lor (Z.lor (Z.lor (Z.lor PTE_V (flag_if (contains flags MF_R) (Z.lor PTE_R PTE_A)))
      (flag_if (contains flags MF_W) (Z.lor PTE_W PTE_D))) (flag_if (contains flags MF_X) PTE_X)) (flag_if (contains flags MF_U) PTE_U).

(** [From<PTEFlags> for MappingFlags] *)
Definition MappingFlags_from (value : Z) : Z :=
  Z.lor (Z.lor (Z.lor (Z.lor (Z.lor (Z.lor (flag_if (contains value PTE_V) MF_P) (flag_if (contains value PTE_R) MF_R))
    (flag_if (contains value PTE_W) MF_W)) (flag_if (contains value PTE_X) MF_X)) (flag_if (contains value PTE_U) MF_U))
    (flag_if (contains value PTE_A) MF_A)) (flag_if (contains value PTE_D) MF_D).

Definition pte_flags (pte : Z) : Z := Z.land pte 0xff.
Definition is_valid (pte : Z) : bool := contains (pte_flags pte) PTE_V && bool_decide (255 < pte).
Definition is_table (pte : Z) : bool :=
  contains (pte_flags pte) PTE_V && negb (contains (pte_flags pte) PTE_R || contains (pte_flags pte) PTE_W || contains (pte_flags pte) PTE_X).
Definition new_table (paddr : Z) : Z := Z.lor (Z.shiftr paddr 2) PTE_V.
Definition new_page (paddr flags : Z) : Z := Z.lor (Z.shiftr paddr 2) flags.
Definition pte_address (pte : Z) : Z := Z.land (Z.shiftl pte 2 mod USIZE) 0xFFFFFFFFF000.

(** [VirtAddr::pn_index] and [pn_offest] *)
Definition pn_index (va n : Z) : Z := Z.land (Z.shiftr va (12 + 9 * n)) 0x1ff.
Definition pn_offset (va n : Z) : Z := va mod Z.shiftl 1 (12 + 9 * n).

Definition PTE_NUM_IN_PAGE : Z := 0x200.
Definition GLOBAL_ROOT_PTE_RANGE : Z := 0x100.

(** Entry [i] of the table at [t] ([get_pte_list]). *)
Definition read_pte (m : PhysMem) (t i : Z) : Z := le_value (mem_read m (t + 8 * i) 8).
Definition write_pte (m : PhysMem) (t i v : Z) : PhysMem := mem_write m (t + 8 * i) (le_bytes 8 v).

Section tables.
Context {FS : Type} `{FL : FrameSourceLaws FS}.
Implicit Types w : World FS.

Definition with_mem w (m : PhysMem) : World FS := mkWorld (w_frames w) m.

(** ** Operations *)

(** One level of [map_page]: the table behind entry [i], made if need be. *)
Definition next_table (t i : Z) w : outcome (Z * World FS) :=
  if is_valid (read_pte (w_mem w) t i) then Ret (pte_address (read_pte (w_mem w) t i), w)
  else
    '(p, w) ← PageAlloc_alloc w;
    let w := with_mem w (write_pte (w_mem w) t i (new_table p)) in
    Ret (pte_address (read_pte (w_mem w) t i), w).

Definition map_page (root vaddr paddr flags : Z) w : outcome (World FS) :=
  '(t, w) ← next_table root (pn_index vaddr 2) w;
  '(t, w) ← next_table t (pn_index vaddr 1) w;
  Ret (with_mem w (write_pte (w_mem w) t (pn_index vaddr 0) (new_page paddr (PTEFlags_from flags)))).

(** The last table on the way to [vaddr], when the entries above it are tables. *)
Definition leaf_table (root vaddr : Z) w : option Z :=
  let pte := read_pte (w_mem w) root (pn_index vaddr 2) in
  if is_table pte then
    let pte := read_pte (w_mem w) (pte_address pte) (pn_index vaddr 1) in
    if is_table pte then Some (pte_address pte) else None
  else None.

Definition unmap_page (root vaddr : Z) w : World FS :=
  match leaf_table root vaddr w with
  | Some t => with_mem w (write_pte (w_mem w) t (pn_index vaddr 0) 0)
  | None => w
  end.

Definition translate (root vaddr : Z) w : option (Z * Z) :=
  match leaf_table root vaddr w with
  | Some t =>
      let pte := read_pte (w_mem w) t (pn_index vaddr 0) in
      Some (pte_address pte +u pn_offset vaddr 0, MappingFlags_from (pte_flags pte))
  | None => None
  end.

(** [drop_l2] and [drop_l3] of [release]. *)
Definition drop_l2 (t : Z) w : outcome (World FS) :=
  foldM (λ w i, let x := read_pte (w_mem w) t i in if is_table x then PageAlloc_dealloc (pte_address x) w else Ret w) (seqZ 0 PTE_NUM_IN_PAGE) w.

Definition drop_l3 (t : Z) w : outcome (World FS) :=
  foldM (λ w i, let x := read_pte (w_mem w) t i in
                if is_table x then w ← drop_l2 (pte_address x) w; PageAlloc_dealloc (pte_address x) w else Ret w)
    (seqZ 0 GLOBAL_ROOT_PTE_RANGE) w.

Definition release (root : Z) w : outcome (World FS) :=
  w ← drop_l3 root w; Ret (with_mem w (clear_len (w_mem w) root (8 * GLOBAL_ROOT_PTE_RANGE))).

(** [current] is the root of the table in use, whose kernel half is copied. *)
Definition restore (current root : Z) w : outcome (World FS) :=
  w ← release root w;
  let m := mem_write (w_mem w) (root + 8 * GLOBAL_ROOT_PTE_RANGE) (mem_read (w_mem w) (current + 8 * GLOBAL_ROOT_PTE_RANGE) 2048) in
  Ret (with_mem w (clear_len m root (8 * GLOBAL_ROOT_PTE_RANGE))).

(** [PageTableWrapper::alloc] and its destructor. *)
Definition PageTable_alloc (current : Z) w : outcome (Z * World FS) :=
  '(root, w) ← PageAlloc_alloc w; w ← restore current root w; Ret (root, w).

Definition PageTable_drop (root : Z) w : outcome (World FS) := w ← release root w; PageAlloc_dealloc root w.
End tables.

(** ** Entries as numbers *)

Lemma pte_sum q b : 0 ≤ b < 1024 → Z.lor (q * 1024) b = q * 1024 + b.
Proof.
  intros Hb. rewrite <- Z.add_lor_land. enough (Z.land (q * 1024) b = 0) as -> by lia.
  apply Z.bits_inj'. intros n Hn. rewrite Z.land_spec, Z.bits_0. change 1024 with (2 ^ 10). destruct (decide (n < 10)).
  - by rewrite Z.mul_pow2_bits_low.
  - rewrite (Z.bits_above_log2 b n), andb_false_r; [done|lia|]. destruct (decide (b = 0)) as [->|]; [cbn; lia|].
    apply Z.log2_lt_pow2; [lia|]. pose proof (Z.pow_le_mono_r 2 10 n). lia.
Qed.

Definition phys_page (p : Z) : Prop := p mod PAGE_SIZE = 0 ∧ 0 ≤ p < 2 ^ 48.

Lemma new_page_sum p b : phys_page p → 0 ≤ b < 256 → new_page p b = p / 4 + b ∧ (1024 | p / 4) ∧ 0 ≤ p / 4 < 2 ^ 46.
Proof.
  intros [Ha Hp] Hb. unfold new_page. rewrite Z.shiftr_div_pow2 by done. change (2 ^ 2) with 4. unfold PAGE_SIZE in Ha.
  assert (p = p / 4096 * 4096) as Eq by (pose proof (Z.div_mod p 4096); lia). set (q := p / 4096) in *.
  assert (p / 4 = q * 1024) as E by (rewrite Eq; replace (q * 4096) with (q * 1024 * 4) by lia; by rewrite Z.div_mul).
  rewrite E, pte_sum by lia. split; [done|]. split; [by exists q|]. change (2 ^ 48) with (4096 * 68719476736) in Hp. change (2 ^ 46) with (1024 * 68719476736). lia.
Qed.

Lemma new_page_range p b : phys_page p → 0 ≤ b < 256 → 0 ≤ new_page p b < 256 ^ Z.of_nat 8.
Proof. intros Hp Hb. destruct (new_page_sum p b Hp Hb) as (-> & _ & H). change (256 ^ Z.of_nat 8) with (2 ^ 64). lia. Qed.

Lemma new_page_flags p b : phys_page p → 0 ≤ b < 256 → pte_flags (new_page p b) = b.
Proof.
  intros Hp Hb. destruct (new_page_sum p b Hp Hb) as (-> & [q E] & _). unfold pte_flags. change 0xff with (Z.ones 8). rewrite Z.land_ones by done.
  rewrite E. change (2 ^ 8) with 256. replace (q * 1024 + b) with (b + (q * 4) * 256) by lia. rewrite Z.mod_add by done. by apply Z.mod_small.
Qed.

Lemma new_page_address p b : phys_page p → 0 ≤ b < 256 → pte_address (new_page p b) = p.
Proof.
  intros Hp Hb. destruct (new_page_sum p b Hp Hb) as (E & [q Eq] & Hr). unfold pte_address. rewrite E, Z.shiftl_mul_pow2 by done.
  assert (p = q * 4096) as Hq by (destruct Hp as [Ha Hp]; unfold PAGE_SIZE in Ha; pose proof (Z.div_mod p 4096); pose proof (Z.div_mod p 4); pose proof (Z.mod_pos_bound p 4); nia).
  rewrite Eq. destruct Hp as [_ Hp]. rewrite Z.mod_small by (unfold USIZE; lia).
  replace ((q * 1024 + b) * 2 ^ 2) with (Z.shiftl q 12 + b * 4) by (rewrite Z.shiftl_mul_pow2 by done; lia).
  change 0xFFFFFFFFF000 with (Z.shiftl (Z.ones 36) 12). apply Z.bits_inj'. intros n Hn. rewrite Z.land_spec, Z.shiftl_spec by done.
  destruct (decide (n < 12)).
  - rewrite (Z.testbit_neg_r _ (n - 12)), andb_false_r by lia. rewrite Hq. change 4096 with (2 ^ 12). by rewrite Z.mul_pow2_bits_low.
  - rewrite Hq. rewrite <- (Z.sub_add 12 n) at 1 3. rewrite <- !Z.div_pow2_bits by lia.
    change (2 ^ 12) with 4096. rewrite Z.shiftl_mul_pow2 by done. change (2 ^ 12) with 4096. rewrite Z.div_mul, Z.div_add_l by done.
    rewrite (Z.div_small (b * 4)) by lia. rewrite Z.add_0_r. destruct (decide (n - 12 < 36)); [by rewrite Z.ones_spec_low, andb_true_r by lia|].
    rewrite Z.ones_spec_high, andb_false_r by lia. symmetry. rewrite Z.bits_above_log2; [done|lia|].
    destruct (decide (q = 0)) as [->|]; [cbn; lia|]. apply Z.log2_lt_pow2; [lia|]. pose proof (Z.pow_le_mono_r 2 36 (n - 12)). change (2 ^ 36) with 68719476736 in *. lia.
Qed.

Lemma PTEFlags_from_range fl : 0 ≤ PTEFlags_from fl < 256.
Proof. unfold PTEFlags_from, flag_if. case_decide; [lia|]. by destruct (contains fl MF_R), (contains fl MF_W), (contains fl MF_X), (contains fl MF_U). Qed.

Lemma new_table_page p : new_table p = new_page p 1.
Proof. done. Qed.

Lemma new_table_ok p : phys_page p → 0 < p → is_valid (new_table p) = true ∧ is_table (new_table p) = true ∧ pte_address (new_table p) = p.
Proof.
  intros Hp H0. rewrite new_table_page. split_and!; [| |by apply new_page_address].
  - unfold is_valid. rewrite new_page_flags by done. destruct (new_page_sum p 1 Hp ltac:(done)) as (-> & [q Eq] & _). cbn [andb].
    replace (contains 1 PTE_V) with true by done. apply bool_decide_eq_true. destruct Hp as [Ha _]. unfold PAGE_SIZE in Ha.
    pose proof (Z.div_mod p 4). pose proof (Z.mod_pos_bound p 4). pose proof (Z.div_mod p 4096). nia.
  - unfold is_table. by rewrite new_page_flags.
Qed.

(** ** Entries in memory *)

Lemma mem_read_ext (m m' : PhysMem) a n : (∀ x, a ≤ x < a + Z.of_nat n → m x = m' x) → mem_read m a n = mem_read m' a n.
Proof. intros H. unfold mem_read. apply list_fmap_ext. intros i j Hj. apply lookup_seq in Hj as [-> Hi]. apply H. lia. Qed.

Lemma read_pte_ext m m' t i : 0 ≤ i < 512 → (∀ x, t ≤ x < t + PAGE_SIZE → m x = m' x) → read_pte m t i = read_pte m' t i.
Proof. intros Hi H. unfold read_pte. f_equal. apply mem_read_ext. intros x Hx. apply H. unfold PAGE_SIZE. lia. Qed.

Lemma read_pte_zero m t i : 0 ≤ i < 512 → (∀ x, 0 ≤ x < PAGE_SIZE → m (t + x) = 0) → read_pte m t i = 0.
Proof.
  intros Hi H. unfold read_pte. rewrite (mem_read_ext m (λ _, 0)); [done|]. intros x Hx. replace x with (t + (x - t)) by lia. apply H. unfold PAGE_SIZE. lia.
Qed.

Lemma write_pte_out m t i v x : 0 ≤ i < 512 → ¬ (t ≤ x < t + PAGE_SIZE) → write_pte m t i v x = m x.
Proof. intros Hi Hx. unfold write_pte, mem_write. rewrite length_le_bytes, decide_False; [done|]. unfold PAGE_SIZE in Hx. lia. Qed.

Lemma mem_read_write m a data : mem_read (mem_write m a data) a (length data) = data.
Proof.
  apply list_eq_same_length with (length data); [done|apply length_mem_read|]. intros i x y Hi Hx Hy. rewrite lookup_mem_read in Hx by done. injection Hx as <-.
  unfold mem_write. rewrite decide_True by lia. replace (Z.to_nat _) with i by lia. by rewrite (list_lookup_total_correct _ _ _ Hy).
Qed.

Lemma read_write_pte m t i v t' i' : t mod PAGE_SIZE = 0 → t' mod PAGE_SIZE = 0 → 0 ≤ i < 512 → 0 ≤ i' < 512 → 0 ≤ v < 256 ^ Z.of_nat 8 →
  read_pte (write_pte m t i v) t' i' = if decide (t = t' ∧ i = i') then v else read_pte m t' i'.
Proof.
  intros Ht Ht' Hi Hi' Hv. unfold read_pte, write_pte. case_decide as Hc.
  - destruct Hc as [<- <-]. rewrite <- (length_le_bytes 8 v) at 2. by rewrite mem_read_write, le_value_bytes.
  - f_equal. apply mem_read_ext. intros x Hx. unfold mem_write. rewrite length_le_bytes, decide_False; [done|]. intros Hx'. apply Hc.
    assert (t = t') as -> by (apply (page_disjoint t t' x); unfold PAGE_SIZE in *; lia). split; [done|]. lia.
Qed.

(** ** Addresses and indices *)

Definition va_of (i j k : Z) : Z := ((i * 512 + j) * 512 + k) * 4096.
Definition page_of (va : Z) : Z := va / PAGE_SIZE * PAGE_SIZE.

(** User addresses: the lower half of the root. *)
Definition user (va : Z) : Prop := 0 ≤ va < 2 ^ 38.

Lemma pn_index_div va n : 0 ≤ n → pn_index va n = va / (2 ^ (12 + 9 * n)) mod 512.
Proof. intros Hn. unfold pn_index. change 0x1ff with (Z.ones 9). rewrite Z.land_ones, Z.shiftr_div_pow2 by lia. done. Qed.

Lemma pn_indices va : user va →
  0 ≤ pn_index va 2 < 256 ∧ 0 ≤ pn_index va 1 < 512 ∧ 0 ≤ pn_index va 0 < 512 ∧ page_of va = va_of (pn_index va 2) (pn_index va 1) (pn_index va 0).
Proof.
  unfold user, page_of, va_of, PAGE_SIZE. intros Hva. rewrite !pn_index_div by lia. change (2 ^ (12 + 9 * 2)) with 1073741824. change (2 ^ (12 + 9 * 1)) with 2097152.
  change (2 ^ (12 + 9 * 0)) with 4096. change (2 ^ 38) with 274877906944 in Hva. Z.to_euclidean_division_equations. lia.
Qed.

Lemma va_of_inj i j k i' j' k' : 0 ≤ j < 512 → 0 ≤ k < 512 → 0 ≤ j' < 512 → 0 ≤ k' < 512 → va_of i j k = va_of i' j' k' → i = i' ∧ j = j' ∧ k = k'.
Proof. unfold va_of. lia. Qed.

Lemma va_of_user i j k : 0 ≤ i < 256 → 0 ≤ j < 512 → 0 ≤ k < 512 → user (va_of i j k) ∧ page_of (va_of i j k) = va_of i j k.
Proof.
  unfold user, page_of, va_of, PAGE_SIZE. intros. change (2 ^ 38) with 274877906944. rewrite Z.div_mul by done. lia.
Qed.

(** ** The tables that represent a map *)

(** The table frames by their place: the root, a table behind an entry of the root, a table
    behind an entry of such a table. *)
Abbreviation Nodes := (gmap (list Z) Z).

(** A level whose entries lead to tables, with the entries that belong to user addresses. *)
Definition inner (path : list Z) (i : Z) : Prop :=
  match path with [] => 0 ≤ i < GLOBAL_ROOT_PTE_RANGE | [_] => 0 ≤ i < PTE_NUM_IN_PAGE | _ => False end.

Definition place (path : list Z) : Prop :=
  match path with
  | [] => True
  | [i] => 0 ≤ i < GLOBAL_ROOT_PTE_RANGE
  | [i; j] => 0 ≤ i < GLOBAL_ROOT_PTE_RANGE ∧ 0 ≤ j < PTE_NUM_IN_PAGE
  | _ => False
  end.

Definition table_word (o : option Z) : Z := match o with Some p => new_table p | None => 0 end.
Definition leaf_word (o : option (Z * Z)) : Z := match o with Some (paddr, flags) => new_page paddr (PTEFlags_from flags) | None => 0 end.

Abbreviation frames_of N := (map_img (SA := gset Z) N).

Section refine.
Context {FS : Type} `{FL : FrameSourceLaws FS}.
Implicit Types (w : World FS) (N : Nodes) (M : PageTable).

Record pt_ok w (root : Z) N M : Prop := {
  pt_world : world_ok w;
  pt_phys : ∀ p, p ∈ managed_frames (w_frames w) → 0 < p < 2 ^ 48;
  pt_root : N !! [] = Some root;
  pt_place : ∀ path t, N !! path = Some t → place path ∧ t ∈ managed_frames (w_frames w) ∧ t ∉ free_frames (w_frames w);
  pt_inj : ∀ a b t, N !! a = Some t → N !! b = Some t → a = b;
  pt_parent : ∀ i j t, N !! [i; j] = Some t → is_Some (N !! [i]);
  pt_inner : ∀ path t i, N !! path = Some t → inner path i → read_pte (w_mem w) t i = table_word (N !! (path ++ [i]));
  pt_leaf : ∀ i j t k, N !! [i; j] = Some t → 0 ≤ k < PTE_NUM_IN_PAGE → read_pte (w_mem w) t k = leaf_word (M !! va_of i j k);
  pt_dom : ∀ va x, M !! va = Some x → user va ∧ page_of va = va ∧ is_Some (N !! [pn_index va 2; pn_index va 1]) ∧ phys_page x.1;
}.

(** How an operation changes the machine: tables may be added, from free frames; bytes outside
    the tables stay, and so do the entries of the kernel. *)
Record pt_step root w w' N N' : Prop := {
  ps_nodes : N ⊆ N';
  ps_from : frames_of N' ⊆ frames_of N ∪ free_frames (w_frames w);
  ps_managed : managed_frames (w_frames w') = managed_frames (w_frames w);
  ps_free : free_frames (w_frames w') = free_frames (w_frames w) ∖ frames_of N';
  ps_mem : ∀ x, (∀ p, p ∈ frames_of N' → ¬ (p ≤ x < p + PAGE_SIZE)) → w_mem w' x = w_mem w x;
  ps_kernel : ∀ i, GLOBAL_ROOT_PTE_RANGE ≤ i < PTE_NUM_IN_PAGE → read_pte (w_mem w') root i = read_pte (w_mem w) root i;
}.

Lemma pt_step_refl root w N M : pt_ok w root N M → pt_step root w w N N.
Proof.
  intros Hok. split; [done|set_solver|done| |done|done]. apply set_eq. intros p. rewrite elem_of_difference. split; [|by intros [? _]].
  intros Hp. split; [done|]. intros [path Hn]%elem_of_map_img. destruct (pt_place _ _ _ _ Hok _ _ Hn) as (_ & _ & Hf). done.
Qed.

Lemma pt_step_trans root w1 w2 w3 N1 N2 N3 : pt_step root w1 w2 N1 N2 → pt_step root w2 w3 N2 N3 → pt_step root w1 w3 N1 N3.
Proof.
  intros [H1 H0 H2 H3 H4 H5] [K1 K0 K2 K3 K4 K5]. pose proof (map_subseteq_img (SA := gset Z) _ _ K1) as Hsub. split.
  - by etrans.
  - set_solver.
  - congruence.
  - rewrite K3, H3. set_solver.
  - intros x Hx. rewrite K4 by done. apply H4. intros p Hp. apply Hx. set_solver.
  - intros i Hi. by rewrite K5, H5.
Qed.

Lemma pt_page w root N M path t : pt_ok w root N M → N !! path = Some t → phys_page t ∧ 0 < t.
Proof.
  intros Hok Hn. destruct (pt_place _ _ _ _ Hok _ _ Hn) as (_ & Hm & _). pose proof (pt_phys _ _ _ _ Hok t Hm). destruct (managed_aligned _ t (proj1 (pt_world _ _ _ _ Hok)) Hm) as [_ Ha].
  split; [|lia]. split; [done|lia].
Qed.

Lemma inner_range path i : inner path i → 0 ≤ i < 512.
Proof. unfold inner, GLOBAL_ROOT_PTE_RANGE, PTE_NUM_IN_PAGE. destruct path as [|? [|]]; lia. Qed.

Lemma inner_place path i : place path → inner path i → place (path ++ [i]).
Proof. unfold inner, place. destruct path as [|a [|]]; cbn; tauto. Qed.

(** Reading an entry that leads to a table. *)
Lemma inner_entry w root N M path t i : pt_ok w root N M → N !! path = Some t → inner path i →
  match N !! (path ++ [i]) with
  | Some p => is_valid (read_pte (w_mem w) t i) = true ∧ is_table (read_pte (w_mem w) t i) = true ∧ pte_address (read_pte (w_mem w) t i) = p
  | None => is_valid (read_pte (w_mem w) t i) = false ∧ is_table (read_pte (w_mem w) t i) = false
  end.
Proof.
  intros Hok Hn Hi. rewrite (pt_inner _ _ _ _ Hok _ _ _ Hn Hi). destruct (N !! (path ++ [i])) as [p|] eqn:Ep; [|done]. cbn [table_word].
  destruct (pt_page _ _ _ _ _ _ Hok Ep) as [Hp H0]. by apply new_table_ok.
Qed.

Lemma table_word_range w root N M path : pt_ok w root N M → 0 ≤ table_word (N !! path) < 256 ^ Z.of_nat 8.
Proof.
  intros Hok. destruct (N !! path) as [p|] eqn:Ep; [|done]. destruct (pt_page _ _ _ _ _ _ Hok Ep) as [Hp _]. cbn [table_word]. rewrite new_table_page. by apply new_page_range.
Qed.

(** ** Walking down *)

(** A new table at the free frame [p], put behind entry [i] of the table at [path]. *)
Section new_node.
Context (w : World FS) (root : Z) (N : Nodes) (M : PageTable) (path : list Z) (t i p : Z) (w1 : World FS).
Context (Hok : pt_ok w root N M) (Ht : N !! path = Some t) (Hi : inner path i) (Hnone : N !! (path ++ [i]) = None).
Context (Hw1 : world_ok w1) (Em : w_mem w1 = w_mem w) (Eman : managed_frames (w_frames w1) = managed_frames (w_frames w)).
Context (Hp : p ∈ free_frames (w_frames w)) (Efree : free_frames (w_frames w1) = free_frames (w_frames w) ∖ {[p]}).
Context (Hphys : phys_page p) (Hpos : 0 < p) (Hzero : ∀ x, 0 ≤ x < PAGE_SIZE → w_mem w (p + x) = 0).

Definition new_node_world : World FS := with_mem w1 (write_pte (w_mem w1) t i (new_table p)).
Local Abbreviation w' := new_node_world.
Local Abbreviation N' := (<[path ++ [i] := p]> N).

Lemma new_node_old path' t' : N' !! path' = Some t' → (path' = path ++ [i] ∧ t' = p) ∨ (path' ≠ path ++ [i] ∧ N !! path' = Some t' ∧ t' ≠ p).
Proof using All.
  intros Hn. destruct (decide (path' = path ++ [i])) as [->|Hne]; [rewrite lookup_insert_eq in Hn; left; by simplify_eq|].
  rewrite lookup_insert_ne in Hn by done. right. split_and!; [done|done|]. intros ->. by destruct (pt_place _ _ _ _ Hok _ _ Hn) as (_ & _ & Hf).
Qed.

Lemma new_node_read t' k : t' mod PAGE_SIZE = 0 → 0 ≤ k < 512 →
  read_pte (w_mem w') t' k = if decide (t = t' ∧ i = k) then new_table p else read_pte (w_mem w) t' k.
Proof using All.
  intros Ha Hk. cbn [w_mem with_mem new_node_world]. rewrite Em. destruct (pt_page _ _ _ _ _ _ Hok Ht) as [[Hta _] _].
  apply read_write_pte; [done|done|by eapply inner_range|done|]. rewrite new_table_page. by apply new_page_range.
Qed.

Lemma new_node_out x : ¬ (t ≤ x < t + PAGE_SIZE) → w_mem w' x = w_mem w1 x.
Proof using All. intros Hx. apply write_pte_out; [by eapply inner_range|done]. Qed.

Lemma new_node_empty k : 0 ≤ k < 512 → read_pte (w_mem w') p k = 0.
Proof using All.
  intros Hk. destruct (pt_place _ _ _ _ Hok _ _ Ht) as (_ & _ & Htf). rewrite new_node_read by (done || apply Hphys).
  rewrite decide_False by (intros [-> _]; done). by apply read_pte_zero.
Qed.

Lemma new_node_ok : pt_ok w' root N' M.
Proof using All.
  pose proof (pt_place _ _ _ _ Hok _ _ Ht) as (Hpl & Htm & Htf). destruct (pt_page _ _ _ _ _ _ Hok Ht) as [[Hta _] _]. destruct Hw1 as [Hs Hz].
  pose proof new_node_old as Hold. pose proof new_node_read as Hread. pose proof new_node_empty as Hnew. pose proof new_node_out as Hout.
  assert (Ef : w_frames w' = w_frames w1) by done.
  split; rewrite ?Ef.
  - split; rewrite Ef; [done|]. intros q x Hq Hx. rewrite Hout; [by apply Hz|]. intros Hin. assert (t = q) as <-.
    { apply (page_disjoint t q (q + x)); [done| |done|lia]. apply (managed_aligned (w_frames w1)); [done|]. by apply free_managed. }
    rewrite Efree in Hq. set_solver.
  - rewrite Eman. apply (pt_phys _ _ _ _ Hok).
  - rewrite lookup_insert_ne by (by destruct path). apply (pt_root _ _ _ _ Hok).
  - intros path' t' Hn. rewrite Eman, Efree. destruct (Hold _ _ Hn) as [[-> ->]|(_ & Hn' & Hne)].
    + split_and!; [by apply inner_place|apply free_managed; [apply (pt_world _ _ _ _ Hok)|done]|set_solver].
    + destruct (pt_place _ _ _ _ Hok _ _ Hn') as (? & ? & ?). split_and!; [done|done|set_solver].
  - intros a b t' Ha Hb. destruct (Hold _ _ Ha) as [[-> ->]|(_ & Ha' & Hne)], (Hold _ _ Hb) as [[-> Hq]|(_ & Hb' & Hne')]; [done|done|congruence|]. by eapply (pt_inj _ _ _ _ Hok).
  - intros a b t' Hn. destruct (Hold _ _ Hn) as [[E ->]|(Hne & Hn' & _)].
    + apply (app_inj_tail [a] path b i) in E as [<- _]. destruct (decide ([a] ++ [i] = [a])) as [E'|E']; [by injection E'|]. by rewrite lookup_insert_ne, Ht by done.
    + destruct (pt_parent _ _ _ _ Hok _ _ _ Hn') as [u Hu]. destruct (decide (path ++ [i] = [a])) as [->|E']; [rewrite lookup_insert_eq; by eexists|].
      rewrite lookup_insert_ne by done. by eexists.
  - intros path' t' k Hn Hk. pose proof (inner_range _ _ Hk) as Hkr. destruct (Hold _ _ Hn) as [[-> ->]|(Hne & Hn' & Hnp)].
    + rewrite Hnew by done. rewrite lookup_insert_ne by (intros E%(f_equal length); rewrite !length_app in E; cbn in E; lia).
      destruct path as [|a [|? ?]]; [|done..]. destruct (N !! (([] ++ [i]) ++ [k])) as [u|] eqn:Eu; [|done]. destruct (pt_parent _ _ _ _ Hok i k u Eu) as [z Hz']. cbn in Hnone. congruence.
    + rewrite Hread by (done || by apply (pt_page _ _ _ _ _ _ Hok Hn')). case_decide as Hc.
      { destruct Hc as [<- <-]. rewrite (pt_inj _ _ _ _ Hok _ _ _ Hn' Ht). by rewrite lookup_insert_eq. }
      rewrite (pt_inner _ _ _ _ Hok _ _ _ Hn' Hk). rewrite lookup_insert_ne; [done|]. intros [E1 E2]%app_inj_tail. subst path' k. apply Hc. split; [congruence|done].
  - intros a b t' k Hn Hk. destruct (Hold _ _ Hn) as [[E ->]|(Hne & Hn' & Hnp)].
    + rewrite Hnew by done. destruct (M !! va_of a b k) as [x|] eqn:Ex; [|done]. exfalso. destruct (pt_dom _ _ _ _ Hok _ _ Ex) as (Hu & Hpg & [u Hu'] & _).
      pose proof (inner_place _ _ Hpl Hi) as Hpl'. rewrite <- E in Hpl'. destruct Hpl' as [Hra Hrb].
      destruct (pn_indices _ Hu) as (R2 & R1 & R0 & E'). rewrite Hpg in E'. apply va_of_inj in E' as (E2 & E1 & _); [|done..]. rewrite <- E2, <- E1, E in Hu'. congruence.
    + rewrite Hread by (done || by apply (pt_page _ _ _ _ _ _ Hok Hn')). rewrite decide_False; [by apply (pt_leaf _ _ _ _ Hok)|]. intros [<- _].
      pose proof (pt_inj _ _ _ _ Hok _ _ _ Hn' Ht) as <-. done.
  - intros va x Hx. destruct (pt_dom _ _ _ _ Hok _ _ Hx) as (Hu & Hpg & [u Hu'] & Hph). split_and!; [done|done| |done].
    destruct (decide (path ++ [i] = [pn_index va 2; pn_index va 1])) as [->|E']; [rewrite lookup_insert_eq; by eexists|]. rewrite lookup_insert_ne by done. by eexists.
Qed.

Lemma new_node_step : pt_step root w w' N N'.
Proof using All.
  pose proof new_node_old as Hold. pose proof new_node_read as Hread. pose proof new_node_out as Hout. assert (Ef : w_frames w' = w_frames w1) by done.
  split; rewrite ?Ef.
  - by apply insert_subseteq.
  - intros q [path' Hn]%elem_of_map_img. destruct (Hold _ _ Hn) as [[_ ->]|(_ & Hn' & _)]; apply elem_of_union; [by right|left]. apply elem_of_map_img. by eexists.
  - done.
  - rewrite Efree. apply set_eq. intros q. rewrite !elem_of_difference, elem_of_singleton, not_elem_of_map_img. split.
    + intros [Hq Hne]. split; [done|]. intros path' Hn. destruct (Hold _ _ Hn) as [[_ ->]|(_ & Hn' & _)]; [done|]. by destruct (pt_place _ _ _ _ Hok _ _ Hn') as (_ & _ & Hf).
    + intros [Hq Hne]. split; [done|]. intros ->. apply (Hne (path ++ [i])). apply lookup_insert_eq.
  - intros x Hx. rewrite Hout; [by rewrite Em|]. apply Hx. apply elem_of_map_img. exists path.
    rewrite lookup_insert_ne; [done|]. intros E%(f_equal length). rewrite length_app in E. cbn in E. lia.
  - intros k Hk. pose proof (pt_page _ _ _ _ _ _ Hok (pt_root _ _ _ _ Hok)) as [[Hra _] _].
    rewrite Hread by (done || unfold GLOBAL_ROOT_PTE_RANGE, PTE_NUM_IN_PAGE in *; lia). rewrite decide_False; [done|]. intros [<- <-].
    pose proof (pt_inj _ _ _ _ Hok _ _ _ Ht (pt_root _ _ _ _ Hok)) as ->. cbn in Hi. lia.
Qed.

Lemma new_node : pt_ok w' root N' M ∧ pt_step root w w' N N'.
Proof using All. split; [exact new_node_ok|exact new_node_step]. Qed.
End new_node.

Lemma next_table_ok w root N M path t i : pt_ok w root N M → N !! path = Some t → inner path i → (0 < size (free_frames (w_frames w)))%nat →
  ∃ t' w' N', next_table t i w = Ret (t', w') ∧ pt_ok w' root N' M ∧ pt_step root w w' N N' ∧ N' !! (path ++ [i]) = Some t' ∧
    (size (free_frames (w_frames w)) ≤ size (free_frames (w_frames w')) + 1)%nat.
Proof.
  intros Hok Ht Hi Hfree. unfold next_table. pose proof (inner_entry _ _ _ _ _ _ _ Hok Ht Hi) as He. destruct (N !! (path ++ [i])) as [t'|] eqn:En.
  - destruct He as (-> & _ & ->). exists t', w, N. split_and!; [done|done|by eapply pt_step_refl|done|lia].
  - destruct He as [-> _]. unfold PageAlloc_alloc. destruct w as [fs m]. pose proof (pt_world _ _ _ _ Hok) as Hw. cbn [w_frames w_mem] in *.
    destruct (world_alloc_ok fs m Hw) as (o & fs' & -> & Hw' & Hman & Ho). cbn [mbind outcome_bind].
    destruct o as [p|]; [|destruct Ho as [E _]; rewrite E, size_empty in Hfree; lia]. destruct Ho as (Hp & Ef & Ha & _ & Hz). cbn [unwrap mbind outcome_bind].
    assert (Hph : 0 < p < 2 ^ 48) by (apply (pt_phys _ _ _ _ Hok), free_managed; [apply Hw|done]).
    destruct (new_node (mkWorld fs m) root N M path t i p (mkWorld fs' m)) as [Hok' Hstep]; try done; [split; [done|lia]|lia|]. unfold new_node_world in *.
    eexists _, _, _. split; [reflexivity|]. split; [exact Hok'|]. split; [exact Hstep|]. split.
    + cbn [w_mem with_mem]. destruct (pt_page _ _ _ _ _ _ Hok Ht) as [[Hta _] _]. pose proof (inner_range _ _ Hi) as Hir. assert (phys_page p) as Hpp by (split; [done|lia]).
      rewrite read_write_pte; [|done..|by rewrite new_table_page; apply new_page_range]. rewrite decide_True by done.
      rewrite lookup_insert_eq. destruct (new_table_ok p Hpp ltac:(lia)) as (_ & _ & ->). done.
    + cbn [w_frames with_mem]. rewrite Ef, size_difference, size_singleton by set_solver. lia.
Qed.

(** Writing the entry of a page. *)
Lemma set_leaf_ok w root N M t va o : pt_ok w root N M → user va → N !! [pn_index va 2; pn_index va 1] = Some t → (∀ x, o = Some x → phys_page x.1) →
  let w' := with_mem w (write_pte (w_mem w) t (pn_index va 0) (leaf_word o)) in
  pt_ok w' root N (partial_alter (λ _, o) (page_of va) M) ∧ pt_step root w w' N N.
Proof.
  intros Hok Hva Ht Ho w'. destruct (pn_indices va Hva) as (R2 & R1 & R0 & Epg). pose proof (pt_place _ _ _ _ Hok _ _ Ht) as (_ & Htm & Htf).
  destruct (pt_page _ _ _ _ _ _ Hok Ht) as [[Hta _] _].
  assert (0 ≤ leaf_word o < 256 ^ Z.of_nat 8) as Hv by (destruct o as [[pa fl]|]; [apply new_page_range; [by apply (Ho (pa, fl))|apply PTEFlags_from_range]|done]).
  assert (Hread : ∀ path t' k, N !! path = Some t' → 0 ≤ k < 512 →
    read_pte (w_mem w') t' k = if decide (t = t' ∧ pn_index va 0 = k) then leaf_word o else read_pte (w_mem w) t' k).
  { intros path t' k Hn Hk. apply read_write_pte; [done| |done..]. by apply (pt_page _ _ _ _ _ _ Hok Hn). }
  assert (Hout : ∀ x, ¬ (t ≤ x < t + PAGE_SIZE) → w_mem w' x = w_mem w x) by (intros x Hx; by apply write_pte_out).
  assert (Hnot : ∀ path t' k, N !! path = Some t' → path ≠ [pn_index va 2; pn_index va 1] → 0 ≤ k < 512 → read_pte (w_mem w') t' k = read_pte (w_mem w) t' k).
  { intros path t' k Hn Hne Hk. rewrite (Hread path) by done. rewrite decide_False; [done|]. intros [<- _]. by apply Hne, (pt_inj _ _ _ _ Hok _ _ t). }
  assert (Ef : w_frames w' = w_frames w) by done. clearbody w'. destruct Hok as [[Hs Hz] Hph Hroot Hpl Hinj Hpar Hin Hleaf Hdom].
  split; split; rewrite ?Ef; try done.
  - split; rewrite Ef; [done|]. intros q x Hq Hx. rewrite Hout; [by apply Hz|]. intros Hi. assert (t = q) as <-; [|done].
    apply (page_disjoint t q (q + x)); [done| |done|lia]. apply (managed_aligned (w_frames w)); [done|]. by apply free_managed.
  - intros path t' k Hn Hk. rewrite (Hnot path); [by apply Hin|done| |by apply (inner_range path)]. intros ->. done.
  - intros i j t' k Hn Hk. destruct (Hpl _ _ Hn) as ([Hri Hrj] & _). rewrite (Hread [i; j]) by done. case_decide as Hc.
    + destruct Hc as [<- <-]. pose proof (Hinj _ _ _ Hn Ht) as E. injection E as -> ->. by rewrite <- Epg, lookup_partial_alter_eq.
    + rewrite (Hleaf _ _ _ _ Hn Hk). rewrite lookup_partial_alter_ne; [done|]. rewrite Epg. intros E. apply va_of_inj in E as (<- & <- & <-); [|done..]. apply Hc. split; [congruence|done].
  - intros va' x Hx. destruct (decide (page_of va = va')) as [<-|Hne]; [|rewrite lookup_partial_alter_ne in Hx by done; by apply Hdom].
    rewrite lookup_partial_alter_eq in Hx. rewrite Epg. destruct (va_of_user _ _ _ R2 R1 R0) as [Hu Hp]. split_and!; [done|done| |by apply Ho].
    destruct (pn_indices _ Hu) as (S2 & S1 & S0 & E). rewrite Hp in E. apply va_of_inj in E as (<- & <- & _); [by eexists|done..].
  - set_solver.
  - apply set_eq. intros p. rewrite elem_of_difference. split; [|by intros [? _]]. intros Hp. split; [done|]. intros [path Hn]%elem_of_map_img.
    destruct (Hpl _ _ Hn) as (_ & _ & Hf). done.
  - intros x Hx. apply Hout, Hx. apply elem_of_map_img. by eexists.
  - intros k Hk. apply (Hnot []); [done|done|]. unfold GLOBAL_ROOT_PTE_RANGE, PTE_NUM_IN_PAGE in Hk. lia.
Qed.

(** ** The operations *)

Lemma map_page_ok w root N M va pa fl : pt_ok w root N M → user va → phys_page pa → (2 ≤ size (free_frames (w_frames w)))%nat →
  ∃ w' N', map_page root va pa fl w = Ret w' ∧ pt_ok w' root N' (<[page_of va := (pa, fl)]> M) ∧ pt_step root w w' N N' ∧
    (size (free_frames (w_frames w)) ≤ size (free_frames (w_frames w')) + 2)%nat.
Proof.
  intros Hok Hva Hpa Hfree. destruct (pn_indices va Hva) as (R2 & R1 & R0 & _). unfold map_page.
  destruct (next_table_ok w root N M [] root (pn_index va 2) Hok (pt_root _ _ _ _ Hok)) as (t1 & w1 & N1 & -> & Hok1 & Hs1 & Ht1 & Hf1); [done|lia|]. step_ret.
  destruct (next_table_ok w1 root N1 M [pn_index va 2] t1 (pn_index va 1) Hok1 Ht1) as (t2 & w2 & N2 & -> & Hok2 & Hs2 & Ht2 & Hf2); [done|lia|]. step_ret.
  destruct (set_leaf_ok w2 root N2 M t2 va (Some (pa, fl)) Hok2 Hva Ht2) as [Hok3 Hs3]; [by intros x [= <-]|].
  eexists _, N2. split; [reflexivity|]. split; [exact Hok3|]. split; [|cbn [w_frames with_mem]; lia]. eapply pt_step_trans; [exact Hs1|]. eapply pt_step_trans; [exact Hs2|exact Hs3].
Qed.

Lemma leaf_table_ok w root N M va : pt_ok w root N M → user va → leaf_table root va w = N !! [pn_index va 2; pn_index va 1].
Proof.
  intros Hok Hva. destruct (pn_indices va Hva) as (R2 & R1 & R0 & _). unfold leaf_table.
  pose proof (inner_entry w root N M [] root (pn_index va 2) Hok (pt_root _ _ _ _ Hok) ltac:(done)) as He. cbn [app] in He.
  destruct (N !! [pn_index va 2]) as [t1|] eqn:E1.
  - destruct He as (_ & -> & ->). pose proof (inner_entry w root N M [pn_index va 2] t1 (pn_index va 1) Hok E1 ltac:(done)) as He2. cbn [app] in He2.
    destruct (N !! [pn_index va 2; pn_index va 1]) as [t2|]; [by destruct He2 as (_ & -> & ->)|by destruct He2 as [_ ->]].
  - destruct He as [_ ->]. destruct (N !! [pn_index va 2; pn_index va 1]) as [t2|] eqn:E2; [|done]. destruct (pt_parent _ _ _ _ Hok _ _ _ E2) as [u Hu]. congruence.
Qed.

Lemma unmap_page_ok w root N M va : pt_ok w root N M → user va →
  pt_ok (unmap_page root va w) root N (delete (page_of va) M) ∧ pt_step root w (unmap_page root va w) N N.
Proof.
  intros Hok Hva. unfold unmap_page. rewrite (leaf_table_ok _ _ _ _ _ Hok Hva). destruct (N !! _) as [t|] eqn:Et.
  - by apply (set_leaf_ok w root N M t va None).
  - split; [|by eapply pt_step_refl]. rewrite delete_id; [done|]. destruct (M !! page_of va) as [x|] eqn:Ex; [|done]. exfalso.
    destruct (pt_dom _ _ _ _ Hok _ _ Ex) as (Hu & _ & [u Hu'] & _). destruct (pn_indices va Hva) as (R2 & R1 & R0 & E). rewrite E in Hu, Hu'.
    destruct (pn_indices _ Hu) as (S2 & S1 & S0 & E'). rewrite (proj2 (va_of_user _ _ _ R2 R1 R0)) in E'. apply va_of_inj in E' as (E2 & E1 & _); [|done..].
    rewrite <- E2, <- E1 in Hu'. congruence.
Qed.

(** What [translate] answers: for a mapped page its frame and flags; for a page that is not
    mapped nothing, or, when its neighbours have a table, the offset as a physical address. *)
Definition translation N M (va : Z) : option (Z * Z) :=
  match M !! page_of va with
  | Some (pa, fl) => Some (pa + va mod PAGE_SIZE, MappingFlags_from (PTEFlags_from fl))
  | None => (λ _, (va mod PAGE_SIZE, 0)) <$> N !! [pn_index va 2; pn_index va 1]
  end.

Lemma translate_ok w root N M va : pt_ok w root N M → user va → translate root va w = translation N M va.
Proof.
  intros Hok Hva. destruct (pn_indices va Hva) as (R2 & R1 & R0 & E). unfold translate, translation. rewrite (leaf_table_ok _ _ _ _ _ Hok Hva).
  change (pn_offset va 0) with (va mod PAGE_SIZE). pose proof (Z.mod_pos_bound va PAGE_SIZE ltac:(done)) as Hoff. unfold PAGE_SIZE in Hoff.
  destruct (N !! _) as [t|] eqn:Et.
  - rewrite (pt_leaf _ _ _ _ Hok _ _ _ _ Et R0), <- E. destruct (M !! page_of va) as [[pa fl]|] eqn:Em; cbn [leaf_word fmap option_fmap option_map].
    + destruct (pt_dom _ _ _ _ Hok _ _ Em) as (_ & _ & _ & Hpa). cbn [fst] in Hpa. rewrite new_page_address, new_page_flags by (done || apply PTEFlags_from_range).
      destruct Hpa as [_ Hr]. rewrite wrap_small by (unfold is_usize, USIZE, PAGE_SIZE; lia). done.
    + change (pte_address 0) with 0. change (MappingFlags_from (pte_flags 0)) with 0. rewrite wrap_small by (unfold is_usize, USIZE, PAGE_SIZE; lia). done.
  - destruct (M !! page_of va) as [[pa fl]|] eqn:Em; [|done]. exfalso. destruct (pt_dom _ _ _ _ Hok _ _ Em) as (Hu & _ & [u Hu'] & _). rewrite E in Hu, Hu'.
    destruct (pn_indices _ Hu) as (S2 & S1 & S0 & E'). rewrite (proj2 (va_of_user _ _ _ R2 R1 R0)) in E'. apply va_of_inj in E' as (E2 & E1 & _); [|done..].
    rewrite <- E2, <- E1 in Hu'. congruence.
Qed.

(** ** Release *)

Lemma PageAlloc_dealloc_drop p w : PageAlloc_dealloc p w = FrameTracker_drop w p.
Proof. done. Qed.

(** A frame that is dropped leaves the entries of other tables alone. *)
Lemma drop_reads w w' (l : list Z) t i : (∀ x, (∀ p, p ∈ l → ¬ (p ≤ x < p + PAGE_SIZE)) → w_mem w' x = w_mem w x) → 0 ≤ i < 512 →
  t mod PAGE_SIZE = 0 → (∀ p, p ∈ l → p mod PAGE_SIZE = 0 ∧ p ≠ t) → read_pte (w_mem w') t i = read_pte (w_mem w) t i.
Proof.
  intros Hx Hi Ht Hl. apply read_pte_ext; [done|]. intros x Hr. apply Hx. intros p Hp Hin. destruct (Hl p Hp) as [Ha Hne]. apply Hne, (page_disjoint p t x); done.
Qed.

(** Dropping the tables behind the entries [l] of the table at [t], which are those of [c]. *)
Lemma drop_l2_list t (c : Z → option Z) l : ∀ w, world_ok w → t mod PAGE_SIZE = 0 →
  (∀ i, i ∈ l → 0 ≤ i < 512 ∧ read_pte (w_mem w) t i = table_word (c i)) →
  (∀ i p, i ∈ l → c i = Some p → phys_page p ∧ 0 < p ∧ p ∈ managed_frames (w_frames w) ∧ p ≠ t) →
  foldM (λ w i, let x := read_pte (w_mem w) t i in if is_table x then PageAlloc_dealloc (pte_address x) w else Ret w) l w = drop_trackers w (omap c l).
Proof.
  induction l as [|i l IH]; intros w Hw Ht Hl Hc; [done|]. cbn [foldM]. destruct (Hl i ltac:(by left)) as [Hi ->].
  change (omap c (i :: l)) with (match c i with Some p => p :: omap c l | None => omap c l end).
  destruct (c i) as [p|] eqn:Ec; cbn [table_word].
  - destruct (Hc i p ltac:(by left) Ec) as (Hph & Hpos & Hm & Hne). destruct (new_table_ok p Hph Hpos) as (_ & -> & ->). cbn zeta.
    rewrite PageAlloc_dealloc_drop. unfold drop_trackers. cbn [foldM]. destruct (FrameTracker_drop_ok w p Hw Hm) as (w1 & E & Hw1 & Hm1 & _ & Hx1). rewrite E. step_ret. apply IH; [done|done| |].
    + intros j Hj. destruct (Hl j ltac:(by right)) as [Hj' <-]. split; [done|]. apply (drop_reads w w1 [p]); [|done|done|].
      * intros x Hx. apply Hx1, Hx. by left.
      * intros q Hq. apply list_elem_of_singleton in Hq as ->. split; [apply Hph|done].
    + intros j q Hj Hq. rewrite Hm1. apply (Hc j q); [by right|done].
  - change (is_table 0) with false. cbn zeta. step_ret. apply IH; [done|done| |]; intros; [apply Hl|eapply Hc]; (by right) || done.
Qed.

(** The frames dropped for entry [i] of the root. *)
Definition subtree N (i : Z) : list Z :=
  match N !! [i] with Some p => omap (λ j, N !! [i; j]) (seqZ 0 PTE_NUM_IN_PAGE) ++ [p] | None => [] end.

Lemma elem_of_subtrees N l q : q ∈ l ≫= subtree N → ∃ i path, i ∈ l ∧ N !! path = Some q ∧ (path = [i] ∨ ∃ j, path = [i; j]).
Proof.
  intros (i & Hq & Hi)%list_elem_of_bind. unfold subtree in Hq. destruct (N !! [i]) as [p|] eqn:Ep; [|by apply elem_of_nil in Hq].
  apply elem_of_app in Hq as [Hq|Hq].
  - apply list_elem_of_omap in Hq as (j & _ & Hj). exists i, [i; j]. split_and!; [done|done|right; by eexists].
  - apply list_elem_of_singleton in Hq as ->. exists i, [i]. auto.
Qed.

Lemma subtrees_managed w root N M l q : pt_ok w root N M → q ∈ l ≫= subtree N → q ∈ managed_frames (w_frames w) ∧ q mod PAGE_SIZE = 0 ∧ q ≠ root.
Proof.
  intros Hok (i & path & _ & Hn & Hp)%elem_of_subtrees. destruct (pt_place _ _ _ _ Hok _ _ Hn) as (_ & Hm & _). destruct (pt_page _ _ _ _ _ _ Hok Hn) as [[Ha _] _].
  split_and!; [done|done|]. intros ->. pose proof (pt_inj _ _ _ _ Hok _ _ _ Hn (pt_root _ _ _ _ Hok)) as ->. destruct Hp as [?|[? ?]]; done.
Qed.

Lemma drop_l3_list w root N M : pt_ok w root N M → drop_l3 root w = drop_trackers w (seqZ 0 GLOBAL_ROOT_PTE_RANGE ≫= subtree N).
Proof.
  intros Hok. unfold drop_l3. assert (Hl : ∀ i, i ∈ seqZ 0 GLOBAL_ROOT_PTE_RANGE → 0 ≤ i < GLOBAL_ROOT_PTE_RANGE) by (intros i Hi%elem_of_seqZ; lia).
  pose proof (NoDup_seqZ 0 GLOBAL_ROOT_PTE_RANGE) as Hnd. revert Hl Hnd. generalize (seqZ 0 GLOBAL_ROOT_PTE_RANGE) as l. intros l. induction l as [|i l IH] using rev_ind; intros Hl Hnd; [done|].
  rewrite foldM_app. apply NoDup_app in Hnd as (Hnd & Hni & _). rewrite IH; [|intros j Hj; apply Hl, elem_of_app; by left|done]. clear IH.
  rewrite bind_app. unfold drop_trackers at 2. rewrite foldM_app. fold (drop_trackers w (l ≫= subtree N)).
  destruct (drop_trackers_ok (l ≫= subtree N) w (pt_world _ _ _ _ Hok)) as (w1 & -> & Hw1 & Hm1 & _ & Hx1).
  { intros q Hq. apply elem_of_list_to_set in Hq. by eapply subtrees_managed. }
  step_ret. cbn [mbind list_bind]. rewrite app_nil_r. cbn [foldM]. specialize (Hl i ltac:(apply elem_of_app; right; by left)).
  destruct (pt_page _ _ _ _ _ _ Hok (pt_root _ _ _ _ Hok)) as [[Hra _] _].
  assert (Hroot : read_pte (w_mem w1) root i = table_word (N !! [i])).
  { rewrite (drop_reads w w1 (l ≫= subtree N)); [by apply (pt_inner _ _ _ _ Hok [] root i (pt_root _ _ _ _ Hok))|done|unfold GLOBAL_ROOT_PTE_RANGE in Hl; lia|done|].
    intros p Hp. by apply (subtrees_managed _ _ _ _ _ _ Hok) in Hp as (_ & ? & ?). }
  rewrite Hroot. unfold subtree. destruct (N !! [i]) as [p|] eqn:Ep; cbn [table_word]; [|change (is_table 0) with false; cbn zeta; by step_ret].
  destruct (pt_page _ _ _ _ _ _ Hok Ep) as [Hph Hpos]. destruct (new_table_ok p Hph Hpos) as (_ & -> & ->). cbn zeta. unfold drop_l2.
  rewrite (drop_l2_list p (λ j, N !! [i; j])); [|done|apply Hph| |].
  - unfold drop_trackers. rewrite foldM_app. destruct (foldM FrameTracker_drop _ w1) as [w2|]; [|done]. step_ret. cbn [foldM]. rewrite PageAlloc_dealloc_drop. done.
  - intros j Hj%elem_of_seqZ. unfold PTE_NUM_IN_PAGE in Hj. split; [lia|].
    rewrite (drop_reads w w1 (l ≫= subtree N)); [apply (pt_inner _ _ _ _ Hok [i] p j Ep); unfold inner, PTE_NUM_IN_PAGE; lia|done|lia|apply Hph|].
    intros q Hq. split; [by apply (subtrees_managed _ _ _ _ _ _ Hok) in Hq as (_ & ? & ?)|]. intros ->. apply elem_of_subtrees in Hq as (i' & path & Hi' & Hn & Hp).
    pose proof (pt_inj _ _ _ _ Hok _ _ _ Hn Ep) as ->. destruct Hp as [[= <-]|[j' [=]]]. apply (Hni i Hi'). by left.
  - intros j q Hj Hq. destruct (pt_page _ _ _ _ _ _ Hok Hq) as [Hqp Hq0]. destruct (pt_place _ _ _ _ Hok _ _ Hq) as (_ & Hqm & _). split_and!; [done|done|by rewrite Hm1|].
    intros ->. by pose proof (pt_inj _ _ _ _ Hok _ _ _ Hq Ep).
Qed.

Lemma subtrees_frames w root N M : pt_ok w root N M →
  list_to_set (seqZ 0 GLOBAL_ROOT_PTE_RANGE ≫= subtree N) =@{gset Z} frames_of N ∖ {[root]}.
Proof.
  intros Hok. apply set_eq. intros q. rewrite elem_of_list_to_set, elem_of_difference, elem_of_singleton, elem_of_map_img. split.
  - intros Hq. split; [|by apply (subtrees_managed _ _ _ _ _ _ Hok) in Hq as (_ & _ & ?)]. apply elem_of_subtrees in Hq as (i & path & _ & Hn & _). by eexists.
  - intros [[path Hn] Hne]. destruct (pt_place _ _ _ _ Hok _ _ Hn) as (Hp & _). destruct path as [|i [|j [|]]]; [|..|done].
    + destruct Hne. rewrite (pt_root _ _ _ _ Hok) in Hn. congruence.
    + apply list_elem_of_bind. exists i. split; [|apply elem_of_seqZ; cbn in Hp; lia]. unfold subtree. rewrite Hn. apply elem_of_app. right. by left.
    + destruct (pt_parent _ _ _ _ Hok _ _ _ Hn) as [p Hp']. destruct Hp as [Hi Hj]. apply list_elem_of_bind. exists i. split; [|apply elem_of_seqZ; lia].
      unfold subtree. rewrite Hp'. apply elem_of_app. left. apply list_elem_of_omap. exists j. split; [apply elem_of_seqZ; lia|done].
Qed.

(** A root whose user entries are empty. *)
Lemma pt_empty w root : world_ok w → (∀ p, p ∈ managed_frames (w_frames w) → 0 < p < 2 ^ 48) → root ∈ managed_frames (w_frames w) → root ∉ free_frames (w_frames w) →
  (∀ i, 0 ≤ i < GLOBAL_ROOT_PTE_RANGE → read_pte (w_mem w) root i = 0) → pt_ok w root {[ [] := root ]} ∅.
Proof.
  intros Hw Hph Hm Hf Hz. assert (Hn : ∀ path t, ({[ [] := root ]} : Nodes) !! path = Some t → path = [] ∧ t = root).
  { intros path t Hn. apply lookup_singleton_Some in Hn as [<- <-]. done. }
  split; [done|done|apply lookup_singleton_eq|..].
  - intros path t [-> ->]%Hn. done.
  - intros a b t [-> _]%Hn [-> _]%Hn. done.
  - intros i j t [E _]%Hn. done.
  - intros path t i [-> ->]%Hn Hi. rewrite lookup_singleton_ne by done. by apply Hz.
  - intros i j t k [E _]%Hn. done.
  - intros va x Hx. by rewrite lookup_empty in Hx.
Qed.

Lemma clear_out m a n x : ¬ (a ≤ x < a + n) → clear_len m a n x = m x.
Proof. intros Hx. unfold clear_len. by rewrite decide_False. Qed.

(** Changing the bytes of a frame that is not free. *)
Lemma world_ok_same_free w m' root : world_ok w → root ∈ managed_frames (w_frames w) → root ∉ free_frames (w_frames w) →
  (∀ x, ¬ (root ≤ x < root + PAGE_SIZE) → m' x = w_mem w x) → world_ok (with_mem w m').
Proof.
  intros [Hs Hz] Hm Hf Hx. split; [done|]. cbn [w_frames with_mem w_mem]. intros p i Hp Hi. rewrite Hx; [by apply Hz|]. intros Hin. assert (root = p) as <-; [|done].
  apply (page_disjoint root p (p + i)); [by apply (managed_aligned (w_frames w))| |done|lia]. apply (managed_aligned (w_frames w)); [done|]. by apply free_managed.
Qed.

(** Two machines around a table that has been emptied. *)
Record emptied root w w' (frames : gset Z) : Prop := {
  em_ok : pt_ok w' root {[ [] := root ]} ∅;
  em_managed : managed_frames (w_frames w') = managed_frames (w_frames w);
  em_free : free_frames (w_frames w') = (frames ∖ {[root]}) ∪ free_frames (w_frames w);
  em_mem : ∀ x, (∀ p, p ∈ frames → ¬ (p ≤ x < p + PAGE_SIZE)) → w_mem w' x = w_mem w x;
  em_kernel : ∀ i, GLOBAL_ROOT_PTE_RANGE ≤ i < PTE_NUM_IN_PAGE → read_pte (w_mem w') root i = read_pte (w_mem w) root i;
}.

Lemma release_tables_ok w root N M : pt_ok w root N M → ∃ w', release root w = Ret w' ∧ emptied root w w' (frames_of N).
Proof.
  intros Hok. unfold release. rewrite (drop_l3_list _ _ _ _ Hok). pose proof (subtrees_frames _ _ _ _ Hok) as Hl.
  pose proof (λ q, subtrees_managed w root N M (seqZ 0 GLOBAL_ROOT_PTE_RANGE) q Hok) as Hsub. revert Hl Hsub. generalize (seqZ 0 GLOBAL_ROOT_PTE_RANGE ≫= subtree N) as l. intros l Hl Hsub.
  pose proof (pt_root _ _ _ _ Hok) as Hroot. destruct (pt_place _ _ _ _ Hok _ _ Hroot) as (_ & Hrm & Hrf). destruct (pt_page _ _ _ _ _ _ Hok Hroot) as [[Hra _] _].
  destruct (drop_trackers_ok l w (pt_world _ _ _ _ Hok)) as (w1 & -> & Hw1 & Hm1 & Hf1 & Hx1).
  { intros q Hq. apply elem_of_list_to_set in Hq. by apply (Hsub q). }
  step_ret. eexists. split; [reflexivity|]. assert (Hclear : ∀ x, ¬ (root ≤ x < root + PAGE_SIZE) → clear_len (w_mem w1) root (8 * GLOBAL_ROOT_PTE_RANGE) x = w_mem w1 x).
  { intros x Hx. apply clear_out. unfold GLOBAL_ROOT_PTE_RANGE, PAGE_SIZE in *. lia. }
  assert (Hrf1 : root ∉ free_frames (w_frames w1)) by (rewrite Hf1, Hl; set_solver).
  split.
  - apply pt_empty; cbn [w_frames with_mem w_mem].
    + apply (world_ok_same_free w1 _ root); [done|by rewrite Hm1|done|exact Hclear].
    + rewrite Hm1. apply (pt_phys _ _ _ _ Hok).
    + by rewrite Hm1.
    + done.
    + intros i Hi. unfold read_pte. rewrite (mem_read_ext _ (λ _, 0)); [done|]. intros x Hx. unfold clear_len. rewrite decide_True; [done|]. lia.
  - exact Hm1.
  - cbn [w_frames with_mem]. by rewrite Hf1, Hl.
  - intros x Hx. cbn [w_mem with_mem]. rewrite Hclear by (apply Hx, elem_of_map_img; by eexists). apply Hx1. intros p Hp. apply Hx.
    assert (p ∈ frames_of N ∖ {[root]}) as Hp' by (rewrite <- Hl; by apply elem_of_list_to_set). set_solver.
  - intros i Hi. cbn [w_mem with_mem]. unfold GLOBAL_ROOT_PTE_RANGE, PTE_NUM_IN_PAGE in Hi.
    rewrite <- (drop_reads w w1 l root i); [|done|lia|done|by intros p (_ & ? & ?)%Hsub]. unfold read_pte. f_equal. apply mem_read_ext. intros x Hx. apply clear_out. unfold GLOBAL_ROOT_PTE_RANGE. lia.
Qed.

Lemma PageTable_drop_ok w root N M : pt_ok w root N M → ∃ w', PageTable_drop root w = Ret w' ∧ world_ok w' ∧
  free_frames (w_frames w') = frames_of N ∪ free_frames (w_frames w) ∧ ∀ x, (∀ p, p ∈ frames_of N → ¬ (p ≤ x < p + PAGE_SIZE)) → w_mem w' x = w_mem w x.
Proof.
  intros Hok. destruct (release_tables_ok _ _ _ _ Hok) as (w1 & E & [Hok1 Hm1 Hf1 Hx1 _]). unfold PageTable_drop. rewrite E. step_ret. rewrite PageAlloc_dealloc_drop.
  pose proof (pt_place _ _ _ _ Hok1 [] root ltac:(apply lookup_singleton_eq)) as (_ & Hrm & _).
  destruct (FrameTracker_drop_ok w1 root (pt_world _ _ _ _ Hok1) Hrm) as (w2 & -> & Hw2 & _ & Hf2 & Hx2). exists w2. split; [done|]. split; [done|].
  assert (root ∈ frames_of N) as Hr by (apply elem_of_map_img; exists []; apply (pt_root _ _ _ _ Hok)). split.
  - rewrite Hf2, Hf1, union_assoc_L. f_equal. apply set_eq. intros p. rewrite elem_of_union, elem_of_difference, elem_of_singleton. destruct (decide (p = root)); naive_solver.
  - intros x Hx. rewrite Hx2 by (by apply Hx). by apply Hx1.
Qed.

(** Making a table: its kernel half is that of the table in use. *)
Lemma PageTable_alloc_ok w current : world_ok w → (∀ p, p ∈ managed_frames (w_frames w) → 0 < p < 2 ^ 48) → (0 < size (free_frames (w_frames w)))%nat →
  current mod PAGE_SIZE = 0 → current ∉ free_frames (w_frames w) →
  ∃ root w', PageTable_alloc current w = Ret (root, w') ∧ pt_ok w' root {[ [] := root ]} ∅ ∧ root ∈ free_frames (w_frames w) ∧
    free_frames (w_frames w') = free_frames (w_frames w) ∖ {[root]} ∧ managed_frames (w_frames w') = managed_frames (w_frames w) ∧
    (∀ x, ¬ (root ≤ x < root + PAGE_SIZE) → w_mem w' x = w_mem w x) ∧
    (∀ i, GLOBAL_ROOT_PTE_RANGE ≤ i < PTE_NUM_IN_PAGE → read_pte (w_mem w') root i = read_pte (w_mem w) current i).
Proof.
  intros Hw Hph Hfree Hca Hcf. unfold PageTable_alloc, PageAlloc_alloc. destruct w as [fs m]. cbn [w_frames w_mem] in *.
  destruct (world_alloc_ok fs m Hw) as (o & fs' & -> & Hw' & Hman & Ho). step_ret.
  destruct o as [root|]; [|destruct Ho as [E _]; rewrite E, size_empty in Hfree; lia]. destruct Ho as (Hp & Ef & Ha & _ & Hz). cbn [unwrap]. step_ret. step_ret.
  assert (Hrm : root ∈ managed_frames fs) by (apply free_managed; [apply Hw|done]). assert (Hrf : root ∉ free_frames fs') by (rewrite Ef; set_solver).
  assert (Hok0 : pt_ok (mkWorld fs' m) root {[ [] := root ]} ∅).
  { apply pt_empty; cbn [w_frames w_mem]; [done|by rewrite Hman|by rewrite Hman|done|]. intros i Hi. apply read_pte_zero; [unfold GLOBAL_ROOT_PTE_RANGE in Hi; lia|done]. }
  unfold restore. destruct (release_tables_ok _ _ _ _ Hok0) as (w1 & -> & [Hok1 Hm1 Hf1 Hx1 _]). step_ret. step_ret. cbn [w_frames w_mem] in *.
  rewrite map_img_singleton_L in Hf1, Hx1. set (m2 := mem_write _ _ _). set (m3 := clear_len m2 root _).
  assert (Hlen : length (mem_read (w_mem w1) (current + 8 * GLOBAL_ROOT_PTE_RANGE) 2048) = 2048%nat) by apply length_mem_read.
  assert (H3 : ∀ x, ¬ (root ≤ x < root + PAGE_SIZE) → m3 x = w_mem w1 x).
  { intros x Hx. unfold m3, m2. unfold GLOBAL_ROOT_PTE_RANGE, PAGE_SIZE in *. rewrite clear_out by lia. unfold mem_write. rewrite Hlen, decide_False; [done|]. lia. }
  assert (Hf1' : free_frames (w_frames w1) = free_frames fs') by (by rewrite Hf1, difference_diag_L, union_empty_l_L).
  exists root. eexists. split; [reflexivity|]. split; [|split; [done|]; cbn [w_frames with_mem w_mem]; rewrite Hf1', Hm1, Hman; split; [done|]; split; [done|]; split].
  - apply pt_empty; cbn [w_frames with_mem w_mem].
    + apply (world_ok_same_free w1 _ root); [apply (pt_world _ _ _ _ Hok1)|by rewrite Hm1, Hman|by rewrite Hf1'|done].
    + by rewrite Hm1, Hman.
    + by rewrite Hm1, Hman.
    + by rewrite Hf1'.
    + intros i Hi. unfold read_pte. rewrite (mem_read_ext _ (λ _, 0)); [done|]. intros x Hx. unfold m3, clear_len. rewrite decide_True; [done|]. lia.
  - intros x Hx. rewrite H3 by done. apply Hx1. by intros p ->%elem_of_singleton.
  - intros i Hi. unfold read_pte. f_equal. unfold GLOBAL_ROOT_PTE_RANGE, PTE_NUM_IN_PAGE in Hi. apply list_eq. intros n. destruct (decide (n < 8)%nat) as [Hn|Hn].
    2:{ rewrite !lookup_ge_None_2; [done|rewrite length_mem_read; lia..]. }
    rewrite !lookup_mem_read by done. f_equal. unfold m3. unfold GLOBAL_ROOT_PTE_RANGE in *. rewrite clear_out by lia. unfold m2, mem_write. rewrite Hlen, decide_True by lia.
    rewrite (list_lookup_total_correct _ _ (w_mem w1 (current + 8 * i + Z.of_nat n))).
    + apply Hx1. intros p ->%elem_of_singleton Hin. assert (root = current) as ->; [|done]. apply (page_disjoint root current (current + 8 * i + Z.of_nat n)); [done|done|done|unfold PAGE_SIZE; lia].
    + rewrite lookup_mem_read by lia. f_equal. f_equal. lia.
Qed.
End refine.

(** ** Sequences of operations *)

(** What the address spaces do with a page table: [UserTask::map], with its assertions, and
    [unmap_page]. *)
Inductive PtOp := PMap (paddr vaddr flags : Z) | PUnmap (vaddr : Z).

Definition abs_op (M : PageTable) (op : PtOp) : outcome PageTable :=
  match op with PMap pa va fl => task_map M pa va fl | PUnmap va => Ret (MemSet.unmap_page M va) end.

Definition UserTask_map {FS} `{FrameSource FS} (root paddr vaddr flags : Z) (w : World FS) : outcome (World FS) :=
  if decide (paddr mod PAGE_SIZE = 0 ∧ vaddr mod PAGE_SIZE = 0) then map_page root vaddr paddr flags w else Panic.

Definition table_op {FS} `{FrameSource FS} (root : Z) (w : World FS) (op : PtOp) : outcome (World FS) :=
  match op with PMap pa va fl => UserTask_map root pa va fl w | PUnmap va => Ret (unmap_page root va w) end.

(** Pages of the user half, on physical addresses of 48 bits. *)
Definition op_ok (op : PtOp) : Prop :=
  match op with PMap pa va _ => user va ∧ 0 ≤ pa < 2 ^ 48 | PUnmap va => user va ∧ va mod PAGE_SIZE = 0 end.

Lemma page_of_aligned va : va mod PAGE_SIZE = 0 → page_of va = va.
Proof. intros H. by apply page_div_mul. Qed.

Lemma table_ops_ok {FS} `{FL : FrameSourceLaws FS} root ops : ∀ (w : World FS) N M M', pt_ok w root N M → Forall op_ok ops → foldM abs_op ops M = Ret M' →
  (2 * length ops ≤ size (free_frames (w_frames w)))%nat →
  ∃ w' N', foldM (table_op root) ops w = Ret w' ∧ pt_ok w' root N' M' ∧ pt_step root w w' N N'.
Proof.
  induction ops as [|op ops IH]; intros w N M M' Hok Hops E Hf; cbn [foldM] in *.
  { injection E as <-. exists w, N. split_and!; [done|done|by eapply pt_step_refl]. }
  apply Forall_cons in Hops as [Hop Hops]. cbn [length] in Hf.
  assert (∃ w1 N1 M1, abs_op M op = Ret M1 ∧ table_op root w op = Ret w1 ∧ pt_ok w1 root N1 M1 ∧ pt_step root w w1 N N1 ∧
    (size (free_frames (w_frames w)) ≤ size (free_frames (w_frames w1)) + 2)%nat) as (w1 & N1 & M1 & E1 & E2 & Hok1 & Hs1 & Hf1).
  { destruct op as [pa va fl|va]; cbn [abs_op table_op op_ok] in *.
    - destruct Hop as [Hu Hp]. unfold task_map, UserTask_map in *. case_decide as Ha; [|done]. destruct Ha as [Ha Hva].
      destruct (map_page_ok w root N M va pa fl Hok Hu) as (w1 & N1 & -> & Hok1 & Hs1 & Hf1); [done|lia|]. rewrite (page_of_aligned va Hva) in Hok1. eauto 10.
    - destruct Hop as [Hu Hva]. destruct (unmap_page_ok w root N M va Hok Hu) as [Hok1 Hs1]. rewrite (page_of_aligned va Hva) in Hok1.
      exists (unmap_page root va w), N, (MemSet.unmap_page M va). split_and!; [done..|]. pose proof (ps_free _ _ _ _ _ Hs1) as Ef. rewrite Ef.
      replace (free_frames (w_frames w) ∖ map_img N) with (free_frames (w_frames w)) by (apply (ps_free _ _ _ _ _ (pt_step_refl _ _ _ _ Hok))). lia. }
  rewrite E1 in E. rewrite E2. cbn [mbind outcome_bind] in E |- *. destruct (IH w1 N1 M1 M' Hok1 Hops E) as (w2 & N2 & E3 & Hok2 & Hs2); [lia|].
  exists w2, N2. split_and!; [done|done|by eapply pt_step_trans].
Qed.

(** C3: page tables in memory refine the finite maps that the address spaces use: after
    making a table and any sequence of maps and unmaps that the map allows, with two free
    frames for each operation, nothing has panicked; [translate] gives for every mapped
    address its frame, offset and flags; the kernel half is that of the table that was in
    use; the tables lie in frames that were free, and no other byte has changed.  Dropping
    the table then gives back exactly the frames it took. *)
Theorem page_table_refines {FS} `{FL : FrameSourceLaws FS} (w : World FS) (current : Z) (ops : list PtOp) (M : PageTable) :
  world_ok w → (∀ p, p ∈ managed_frames (w_frames w) → 0 < p < 2 ^ 48) → current mod PAGE_SIZE = 0 → current ∉ free_frames (w_frames w) →
  Forall op_ok ops → foldM abs_op ops ∅ = Ret M → (2 * length ops + 1 ≤ size (free_frames (w_frames w)))%nat →
  ∃ root w1 w2 tables, PageTable_alloc current w = Ret (root, w1) ∧ foldM (table_op root) ops w1 = Ret w2 ∧
    (∀ va pa fl, user va → M !! page_of va = Some (pa, fl) → translate root va w2 = Some (pa + va mod PAGE_SIZE, MappingFlags_from (PTEFlags_from fl))) ∧
    (∀ va, user va → M !! page_of va = None → translate root va w2 = None ∨ translate root va w2 = Some (va mod PAGE_SIZE, 0)) ∧
    (∀ i, GLOBAL_ROOT_PTE_RANGE ≤ i < PTE_NUM_IN_PAGE → read_pte (w_mem w2) root i = read_pte (w_mem w) current i) ∧
    tables ⊆ free_frames (w_frames w) ∧ (∀ x, (∀ p, p ∈ tables → ¬ (p ≤ x < p + PAGE_SIZE)) → w_mem w2 x = w_mem w x) ∧
    ∃ w3, PageTable_drop root w2 = Ret w3 ∧ world_ok w3 ∧ free_frames (w_frames w2) = free_frames (w_frames w) ∖ tables ∧
      free_frames (w_frames w3) = free_frames (w_frames w) ∧ ∀ x, (∀ p, p ∈ tables → ¬ (p ≤ x < p + PAGE_SIZE)) → w_mem w3 x = w_mem w x.
Proof.
  intros Hw Hph Hca Hcf Hops E Hsz.
  destruct (PageTable_alloc_ok w current Hw Hph ltac:(lia) Hca Hcf) as (root & w1 & E1 & Hok1 & Hrf & Hf1 & Hm1 & Hx1 & Hk1).
  destruct (table_ops_ok root ops w1 _ ∅ M Hok1 Hops E) as (w2 & N & E2 & Hok2 & Hs2).
  { rewrite Hf1, size_difference, size_singleton by set_solver. lia. }
  pose proof (pt_root _ _ _ _ Hok2) as Hroot. assert (root ∈ frames_of N) as Hr by (apply elem_of_map_img; by eexists).
  assert (Hfree2 : free_frames (w_frames w2) = free_frames (w_frames w) ∖ frames_of N) by (rewrite (ps_free _ _ _ _ _ Hs2), Hf1; set_solver).
  assert (Hmem2 : ∀ x, (∀ p, p ∈ frames_of N → ¬ (p ≤ x < p + PAGE_SIZE)) → w_mem w2 x = w_mem w x).
  { intros x Hx. rewrite (ps_mem _ _ _ _ _ Hs2 x Hx). apply Hx1. by apply Hx. }
  assert (Hsub : frames_of N ⊆ free_frames (w_frames w)) by (pose proof (ps_from _ _ _ _ _ Hs2) as Hs; rewrite Hf1, map_img_singleton_L in Hs; set_solver).
  destruct (PageTable_drop_ok _ _ _ _ Hok2) as (w3 & E3 & Hw3 & Hf3 & Hx3).
  exists root, w1, w2, (frames_of N). split_and!; [done|done|..].
  - intros va pa fl Hu Hva. rewrite (translate_ok _ _ _ _ _ Hok2 Hu). unfold translation. by rewrite Hva.
  - intros va Hu Hva. rewrite (translate_ok _ _ _ _ _ Hok2 Hu). unfold translation. rewrite Hva. destruct (N !! [pn_index va 2; pn_index va 1]); [right; reflexivity|left; reflexivity].
  - intros i Hi. by rewrite (ps_kernel _ _ _ _ _ Hs2 i Hi), Hk1.
  - exact Hsub.
  - exact Hmem2.
  - exists w3. split_and!; [done|done|done| |].
    + rewrite Hf3, Hfree2. symmetry. apply union_difference_L, Hsub.
    + intros x Hx. by rewrite Hx3, Hmem2.
Qed.

(** An address that is not mapped translates to a physical address all the same when another
    page of its table has been mapped, against the documentation of [translate]. *)
Theorem translate_unmapped {FS} `{FL : FrameSourceLaws FS} (w : World FS) (root : Z) (N : Nodes) (M : PageTable) (va va' : Z) (x : Z * Z) :
  pt_ok w root N M → user va → user va' → va / 2 ^ 21 = va' / 2 ^ 21 → M !! page_of va' = Some x → M !! page_of va = None →
  translate root va w = Some (va mod PAGE_SIZE, 0).
Proof.
  intros Hok Hu Hu' E Hx Hn. rewrite (translate_ok _ _ _ _ _ Hok Hu). unfold translation. rewrite Hn. destruct (pt_dom _ _ _ _ Hok _ _ Hx) as (_ & _ & [t Ht] & _).
  replace (N !! [pn_index va 2; pn_index va 1]) with (Some t); [done|]. rewrite <- Ht. unfold page_of, PAGE_SIZE. rewrite !pn_index_div by done.
  change (2 ^ (12 + 9 * 2)) with 1073741824. change (2 ^ (12 + 9 * 1)) with 2097152. change (2 ^ 21) with 2097152 in E. do 2 f_equal; [|f_equal]; Z.to_euclidean_division_equations; lia.
Qed.

(** ** Witness: two pages mapped, one of them unmapped again *)

Definition demo_pt_frames : FrameAllocator := [mkRegion [0] 0x80000000 0x80040000].
Definition demo_pt_world : World FrameAllocator := mkWorld demo_pt_frames (λ _, 0).
Definition demo_pt_ops : list PtOp := [PMap 0x90000000 0x10000 URWX; PMap 0x90001000 0x11000 URW; PUnmap 0x10000].
Definition demo_pt_map : PageTable := {[0x11000 := (0x90001000, URW)]}.

Lemma demo_pt_world_ok : world_ok demo_pt_world.
Proof.
  split; [|done]. destruct (region_new_spec 0x80000000 0x80040000) as (r & E & Hwf & _); [lia|done|done|done|]. vm_compute in E. injection E as <-.
  constructor; [exact Hwf|constructor|constructor].
Qed.

Lemma page_table_refines_witness : ∃ root w1 w2, PageTable_alloc 0x70000000 demo_pt_world = Ret (root, w1) ∧ foldM (table_op root) demo_pt_ops w1 = Ret w2 ∧
  translate root 0x11004 w2 = Some (0x90001004, Z.lor URW 97) ∧ (translate root 0x10004 w2 = None ∨ translate root 0x10004 w2 = Some (4, 0)).
Proof.
  destruct (page_table_refines demo_pt_world 0x70000000 demo_pt_ops demo_pt_map) as (root & w1 & w2 & tables & E1 & E2 & Hm & Hu & _).
  - exact demo_pt_world_ok.
  - assert (set_Forall (λ p, 0 < p < 2 ^ 48) (fa_managed demo_pt_frames)) as H by (apply (bool_decide_unpack _); vm_compute; exact I). exact H.
  - reflexivity.
  - apply (bool_decide_unpack (0x70000000 ∉ fa_free demo_pt_frames)). vm_compute. exact I.
  - apply Forall_fold_right. cbn. unfold user. change (2 ^ 38) with 274877906944. change (2 ^ 48) with 281474976710656. split_and!; (lia || done).
  - vm_compute. reflexivity.
  - vm_compute. lia.
  - exists root, w1, w2. split; [exact E1|]. split; [exact E2|]. assert (∀ va, 0 ≤ va < 0x20000 → user va) as Hr by (unfold user; change (2 ^ 38) with 274877906944; lia). split.
    + rewrite (Hm 0x11004 0x90001000 URW); [vm_compute; reflexivity|apply Hr; lia|vm_compute; reflexivity].
    + apply (Hu 0x10004); [apply Hr; lia|vm_compute; reflexivity].
Defined.
