(* ===== verification/Main.v ===== *)
(** * The start of the kernel

    Models [main] of kernel/src/main.rs and what it calls after the memory and the devices:
    the mounts and directories of [fs::init] (filesystem/fs/src/lib.rs), the initialisation
    of the executor (crates/executor/src/executor.rs) and the first task (kernel/src/tasks/
    mod.rs).  The theorem composes Boot, Devices, Path, File and Executor: the kernel reaches
    the loop of its executor with exactly the free memory of the machine, its interrupt
    controller, its mounts and one task.  Only the first core runs [main]. *)

From S2P Require Import Prelude Frame Path Vfs File Memory RamFs Executor Devices Boot.

(** ** File systems *)

Section file_systems.
Context {N W : Type} (ops : N → INode N W).

(** The directories that [init] creates in the root file system, in this order. *)
Definition base_dirs : list string := ["dev"; "tmp"; "home"; "var"; "proc"; "bin"].

(** The mount table: [root_dir disk fs] is the root directory of a file system, the one at
    the root being a disk if there is one. *)
Definition boot_mounts (root_dir : bool → InitFs → N) (blk_devices : nat) : MountTable N :=
  (λ m, (m.1, root_dir (bool_decide (0 < blk_devices)%nat) m.2)) <$> init_mounts.

(** [File::mkdir], with [expect]. *)
Definition expect_mkdir (f : File (N := N)) (w : W) (name : string) : outcome W :=
  '(r, w) ← i_mkdir (ops (f_inner f)) name w; match r with Ok _ => Ret w | Err _ => Panic end.

Definition expect_open (mounted : MountTable N) (path : PathBuf) (w : W) : outcome (File (N := N) * W) :=
  '(r, w) ← File_open ops mounted path O_RDONLY w; match r with Ok f => Ret (f, w) | Err _ => Panic end.

Definition fs_init (root_dir : bool → InitFs → N) (blk_devices : nat) (w : W) : outcome (MountTable N * W) :=
  let mounted := boot_mounts root_dir blk_devices in
  '(rootfs, w) ← expect_open mounted PathBuf_new w;
  w ← foldM (expect_mkdir rootfs) base_dirs w;
  '(var_dir, w) ← expect_open mounted (PathBuf_from "/var") w;
  '(_, w) ← i_mkdir (ops (f_inner var_dir)) "tmp" w;
  Ret (mounted, w).
End file_systems.

(** ** Tasks *)

(** The cells of the executor: a slot for the running task of each core, the task map, the
    page table of the boot, and whether it has been initialised. *)
Record Statics := mkStatics { cores : LazyInit (list (option Z)); TASK_MAP : LazyInit (gset Z); BOOT_PAGE : LazyInit Z; ex_inited : bool }.

Definition Statics_new : Statics := mkStatics LazyInit_new LazyInit_new LazyInit_new false.

(** [Executor::init]; [page] is the root of the page table in use. *)
Definition Executor_init (cpus : nat) (page : Z) (s : Statics) : outcome Statics :=
  c ← init_by (cores s) (replicate cpus None);
  m ← init_by (TASK_MAP s) ∅;
  b ← (if is_init (BOOT_PAGE s) then Ret (BOOT_PAGE s) else init_by (BOOT_PAGE s) page);
  Ret (mkStatics c m b true).

Definition boot_page_table (s : Statics) : outcome Z := lazy_get (BOOT_PAGE s).

(** [tasks::init]: [initproc] becomes a kernel task; the rest of the state is [kernel]. *)
Definition tasks_init {T W} (cpus : nat) (page : Z) (initproc : T) (kernel : W) (s : Statics) : outcome (Statics * Exec T W) :=
  s ← Executor_init cpus page s;
  m ← lazy_get (TASK_MAP s);
  Ret (s, spawn_blank (mkExec [] m 0 None kernel) initproc).

(** ** [main] *)

Section main.
Context {N W T B : Type} `{Mmio B} (ops : N → INode N W).
Context (transport_new : Z → B → outcome (option VirtioType * B)) (virtio_new : VirtioType → Z → B → outcome (bool * B)).

(** What the machine and the build fix: the kernel image, the device tree and the memory it
    describes, the drivers, the number of processors and the page table of the boot. *)
Record Board := mkBoard {
  bd_kernel : Z * Z; bd_dtb : Z * Z; bd_memory : list (Z * Z); bd_drivers : list DriverInit; bd_nodes : option (list Node);
  bd_cpus : nat; bd_page : Z;
}.

(** The state that the tasks share. *)
Record KState := mkKState { ks_frames : FrameAllocator; ks_devices : Devices B; ks_mounted : MountTable N; ks_fs : W }.

(** [new_fs] are the file systems before any is mounted. *)
Definition kernel_main (bd : Board) (bus : B) (root_dir : bool → InitFs → N) (new_fs : W) (initproc : T)
    : outcome (Statics * Exec T KState) :=
  fa ← boot_memory (bd_kernel bd) (bd_dtb bd) (bd_memory bd);
  d ← boot_devices transport_new virtio_new (bd_drivers bd) (bd_nodes bd) (Devices_new bus);
  '(mounted, w) ← fs_init ops root_dir (length (get_blk_devices d)) new_fs;
  tasks_init (bd_cpus bd) (bd_page bd) initproc (mkKState fa d mounted w) Statics_new.
End main.

(** ** The file systems are ready *)

(** What the start needs of the file systems: [absent names w] says that none of [names] exists
    in the root directory; each can then be made, and the directory at /var takes requests. *)
Class FreshRoot {N W} (ops : N → INode N W) (root var : N) (absent : list string → W → Prop) := {
  root_mkdir name names w : absent (name :: names) w → ∃ w', i_mkdir (ops root) name w = Ret (Ok tt, w') ∧ absent names w';
  var_mkdir names w : absent names w → ∃ r w', i_mkdir (ops var) "tmp" w = Ret (r, w') ∧ absent names w';
}.

Section ready.
Context {N W : Type} (ops : N → INode N W) (root_dir : bool → InitFs → N) (blk : nat).
Let at_root (fs : InitFs) : N := root_dir (bool_decide (0 < blk)%nat) fs.

Lemma boot_mounts_resolve path fs rel : get_mounted init_mounts path = Ret (fs, rel) → get_mounted (boot_mounts root_dir blk) path = Ret (at_root fs, rel).
Proof.
  unfold get_mounted, boot_mounts. rewrite <- map_rev. generalize (rev init_mounts). intros l.
  induction l as [|m l IH]; [done|]. cbn [map List.find fst snd]. destruct (PathBuf_starts_with path m.1); [|done].
  cbn [unwrap]. step_ret. by intros [= <- <-].
Qed.

Lemma open_mount path fs w : get_mounted init_mounts path = Ret (fs, []) →
  expect_open ops (boot_mounts root_dir blk) path w = Ret (mkFile (at_root fs) path 0 O_RDONLY, w).
Proof. intros E. unfold expect_open, File_open. rewrite (boot_mounts_resolve _ _ _ E). step_ret. done. Qed.

Lemma fs_init_ok absent `{FR : !FreshRoot ops (at_root RootFs) (at_root VarFs) absent} w : absent base_dirs w →
  ∃ w', fs_init ops root_dir blk w = Ret (boot_mounts root_dir blk, w') ∧ absent [] w'.
Proof.
  intros Hf. unfold fs_init. rewrite (open_mount PathBuf_new RootFs) by reflexivity. step_ret.
  assert (∀ names w, absent names w → ∃ w', foldM (expect_mkdir ops (mkFile (at_root RootFs) PathBuf_new 0 O_RDONLY)) names w = Ret w' ∧ absent [] w') as Hm.
  { induction names as [|name names IH]; intros w1 H1; [by exists w1|]. destruct (root_mkdir name names w1 H1) as (w2 & E & H2).
    cbn [foldM]. unfold expect_mkdir at 1. cbn [f_inner]. rewrite E. step_ret. by apply IH. }
  destruct (Hm base_dirs w Hf) as (w1 & -> & H1). step_ret. rewrite (open_mount (PathBuf_from "/var") VarFs) by reflexivity. step_ret.
  cbn [f_inner]. destruct (var_mkdir [] w1 H1) as (r & w2 & -> & H2). step_ret. by exists w2.
Qed.

(** The start does not survive a root directory in which one of the directories cannot be
    made: booting panics. *)
Theorem fs_init_refused i name w w1 w2 e : base_dirs !! i = Some name →
  foldM (expect_mkdir ops (mkFile (at_root RootFs) PathBuf_new 0 O_RDONLY)) (take i base_dirs) w = Ret w1 →
  i_mkdir (ops (at_root RootFs)) name w1 = Ret (Err e, w2) → fs_init ops root_dir blk w = Panic.
Proof.
  intros Hi E1 E2. unfold fs_init. rewrite (open_mount PathBuf_new RootFs) by reflexivity. step_ret.
  rewrite <- (take_drop_middle base_dirs i name Hi). generalize (drop (S i) base_dirs). intros rest. revert w E1. generalize (take i base_dirs).
  intros l. induction l as [|x l IH]; intros w E1; cbn [foldM app] in *.
  - injection E1 as ->. unfold expect_mkdir at 1. cbn [f_inner]. by rewrite E2.
  - destruct (expect_mkdir _ _ _ x) as [w'|]; [|done]. by apply IH.
Qed.
End ready.

(** ** The file systems in memory are ready *)

Section ram_ready.
Context {FS : Type} `{FL : FrameSourceLaws FS} (addr : nat → Z) (root var : nat) (Hrv : root ≠ var).
Implicit Types st : RamState FS.

(** A new node changes the name of no other node. *)
Lemma push_child_names st d dname children n l name : rs_nodes st !! d = Some (NDir dname children) → Forall (λ c, (c < rs_next st)%nat) l → (d < rs_next st)%nat →
  find_child (rs_nodes (push_child st d dname children n)) l name = find_child (rs_nodes st) l name.
Proof.
  intros Hd Hl Hn. unfold find_child, push_child. cbn [rs_nodes]. induction Hl as [|c l Hc Hl IH]; [done|]. cbn [List.find].
  assert (has_name (<[d:=NDir dname (children ++ [rs_next st])]> (<[rs_next st:=n]> (rs_nodes st))) name c = has_name (rs_nodes st) name c) as ->; [|by rewrite IH].
  unfold has_name. destruct (decide (c = d)) as [->|]; [by rewrite lookup_insert_eq, Hd|]. by rewrite !lookup_insert_ne by lia.
Qed.

(** A directory at the root that holds none of [names], and one at /var. *)
Record ram_absent (names : list string) st : Prop := {
  ra_names : NoDup names;
  ra_var : ∃ dname children, rs_nodes st !! var = Some (NDir dname children);
  ra_bound : (root < rs_next st)%nat ∧ (var < rs_next st)%nat;
  ra_root : ∃ dname children, rs_nodes st !! root = Some (NDir dname children) ∧ Forall (λ c, (c < rs_next st)%nat) children ∧
    Forall (λ name, find_child (rs_nodes st) children name = None) names;
}.

#[export] Instance ram_fresh_root : FreshRoot (ramfs_ops (FS := FS) addr) root var ram_absent.
Proof using FL Hrv.
  split.
  - intros name names st [Hnd (vn & vc & Hv) [Hr1 Hv1] (dn & ch & Hr & Hch & Ha)]. apply NoDup_cons in Hnd as [Hni Hnd]. apply Forall_cons in Ha as [Hn Ha].
    cbn [ramfs_ops i_mkdir]. unfold on_dir. rewrite Hr. unfold RamDir_mkdir. rewrite Hn. eexists. split; [done|]. split; [done| |cbn; lia|].
    + exists vn, vc. unfold push_child. cbn [rs_nodes]. by rewrite !lookup_insert_ne by lia.
    + exists dn, (ch ++ [rs_next st]). split; [apply lookup_insert_eq|]. split.
      * apply Forall_app. split; [|apply Forall_singleton; cbn; lia]. eapply Forall_impl; [exact Hch|]. cbn. lia.
      * apply Forall_forall. intros x Hx. rewrite Forall_forall in Ha. unfold find_child. rewrite find_app.
        change (List.find (has_name ?m x) ch) with (find_child m ch x). rewrite push_child_names, (Ha x Hx) by done. cbn [List.find].
        unfold push_child, has_name. cbn [rs_nodes]. rewrite lookup_insert_ne, lookup_insert_eq by lia. cbn [node_name]. rewrite bool_decide_eq_false_2; [done|]. intros ->. done.
  - intros names st [Hnd (vn & vc & Hv) [Hr1 Hv1] (dn & ch & Hr & Hch & Ha)]. cbn [ramfs_ops i_mkdir]. unfold on_dir. rewrite Hv. unfold RamDir_mkdir.
    destruct (find_child (rs_nodes st) vc "tmp"); eexists _, _; (split; [reflexivity|]); [split; eauto|]. split; [done| |cbn; lia|].
    + exists vn, (vc ++ [rs_next st]). apply lookup_insert_eq.
    + exists dn, ch. split; [unfold push_child; cbn [rs_nodes]; by rewrite !lookup_insert_ne by lia|]. split; [eapply Forall_impl; [exact Hch|]; cbn; lia|].
      apply Forall_forall. intros x Hx. rewrite Forall_forall in Ha. rewrite push_child_names by done. by apply Ha.
Qed.
End ram_ready.

(** ** The kernel starts *)

(** The first turn of the loop polls the task in front. *)
Lemma first_turn {T W} (poll : Z → T → W → outcome (option T * W * list (AsyncTaskItem T))) t f queue map id cur k r k' spawned :
  poll t f k = Ret (r, k', spawned) →
  ∃ e', run poll 1 (mkExec (mkItem t f :: queue) map id cur k) = Ret e' ∧ current e' = Some t ∧ kernel e' = k'.
Proof.
  intros E. unfold run, run_ready_task. cbn [task_queue item_task item_future kernel]. rewrite E. step_ret.
  assert (∀ e : Exec T W, current (foldl spawn e spawned) = current e ∧ kernel (foldl spawn e spawned) = kernel e) as Hs.
  { clear E. induction spawned as [|x l IH]; intros e; [done|]. cbn [foldl]. by destruct (IH (spawn e x)) as [-> ->]. }
  destruct r; step_ret; eexists; (split; [reflexivity|]); cbn [current kernel]; apply Hs.
Qed.

(** A machine on which the start succeeds: memory regions that are apart, a kernel image and
    a device tree that lie in one of them or outside all and are apart, no left-over area
    smaller than a page, at most 32 areas; drivers that register, one interrupt controller
    among the devices, usable nodes, interrupt numbers below 32. *)
Record board_ok {B} `{Mmio B} (base : Z) (bd : Board) (nodes : list Node) : Prop := {
  bk_kernel : nonempty (bd_kernel bd) ∧ 0 ≤ (bd_kernel bd).1;
  bk_dtb : nonempty (bd_dtb bd) ∧ 0 ≤ (bd_dtb bd).1;
  bk_apart : apart_ranges (bd_kernel bd) (bd_dtb bd);
  bk_regions : Forall (λ mm, 0 ≤ mm.1 ∧ range_ok (node_range mm)) (bd_memory bd);
  bk_pairwise : pairwise_apart (node_range <$> bd_memory bd);
  bk_cuttable : Forall (cuttable (bd_kernel bd)) (node_range <$> bd_memory bd) ∧ Forall (cuttable (bd_dtb bd)) (node_range <$> bd_memory bd);
  bk_areas : (length (pieces (bd_kernel bd) (bd_dtb bd) (node_range <$> bd_memory bd)) ≤ MEM_VECTOR_CAPACITY)%nat;
  bk_pages : Forall (λ q, q.1 + PAGE_SIZE ≤ q.2) (pieces (bd_kernel bd) (bd_dtb bd) (node_range <$> bd_memory bd));
  bk_drivers : Forall (λ i, ∃ o f, i = I_register o f) (bd_drivers bd);
  bk_tree : bd_nodes bd = Some nodes;
  bk_nodes : Forall (node_ok base (registers (bd_drivers bd))) nodes;
  bk_plic : plic_count (registers (bd_drivers bd)) nodes = 1%nat;
  bk_irqs : Forall (λ n, Forall (λ irq, 0 < irq < 32) (node_to_interrupts n)) nodes;
}.


(** ** A machine with 32 megabytes, four devices and file systems in memory *)

Definition demo_board : Board :=
  mkBoard (0x80200000, 0x80203000) (0x81ff0000, 0x81ff1000) [(0x80000000, 0x2000000)] qemu_drivers (Some demo_tree) 1 0x80203000.

Definition demo_root (disk : bool) (fs : InitFs) : nat :=
  match fs with RootFs => 0 | DevFs => 1 | TmpFs => 2 | ShmFs => 3 | HomeFs => 4 | VarFs => 5 | ProcFs => 6 end.

Definition demo_fs : RamState FrameAllocator :=
  mkRamState (list_to_map ((λ i, (i, NDir EmptyString [])) <$> [0; 1; 2; 3; 4; 5; 6]%nat)) 7 demo_world.

Lemma demo_board_ok : board_ok demo_base demo_board demo_tree.
Proof.
  split.
  - by split.
  - by split.
  - by left.
  - apply Forall_singleton. split; [done|]. by unfold range_ok, node_range.
  - repeat constructor.
  - split; apply Forall_singleton; left; by split.
  - apply (bool_decide_unpack _). vm_compute. exact I.
  - apply (bool_decide_unpack _). vm_compute. exact I.
  - repeat constructor; by eexists _, _.
  - done.
  - exact demo_nodes_ok.
  - reflexivity.
  - repeat constructor.
Qed.

Lemma demo_fs_ready : ram_absent 0 5 base_dirs demo_fs.
Proof.
  split; [apply (bool_decide_unpack _); vm_compute; exact I|by eexists _, _|cbn; lia|]. exists EmptyString, []. split; [done|]. split; [constructor|repeat constructor].
Qed.

