(* ===== verification/InitTests.v ===== *)
(** * The tests the kernel runs

    The tables of kernel/src/tasks/initproc.rs: the names of the LTP programs (the lines that
    are not commented out) and the test cases of the C libraries, each with the runner and the
    program that holds it. *)

From S2P Require Import Prelude.

(** A test case: runner, program, name. *)
Definition TestCase : Type := string * string * string.

Definition cases (runtest entry : string) (names : list string) : list TestCase := (λ n, (runtest, entry, n)) <$> names.

(** [ltp_tests] of [run_ltp_tests_glibc]. *)
Definition ltp_tests_glibc : list string :=
  ["alarm02"; "alarm03"; "alarm05"; "alarm06"; "alarm07"; "arch_prctl01"; "asapi_01"; "asapi_02"; "asapi_03"; "aslr01";
   "atof01"; "autogroup01"; "bind01"; "bind02"; "bind03"; "bind04"; "bind05"; "bind06"; "block_dev"; "bpf_map01";
   "bpf_prog01"; "bpf_prog02"; "bpf_prog03"; "bpf_prog04"; "bpf_prog05"; "bpf_prog06"; "bpf_prog07"; "brk01";
   "brk02"; "chdir01"; "chmod01"; "chmod03"; "chmod05"; "chown01"; "chown01_16"; "chown02"; "chown02_16"; "chown03";
   "chown03_16"; "chown05"; "chown05_16"; "clock_getres01"; "clock_gettime01"; "clock_gettime02"; "clock_gettime03";
   "clock_gettime04"; "clock_nanosleep01"; "clock_nanosleep02"; "clock_nanosleep03"; "clock_nanosleep04";
   "clock_settime01"; "clock_settime02"; "clock_settime03"; "clone01"; "clone02"; "clone03"; "clone06"; "clone07";
   "clone08"; "clone09"; "clone301"; "clone302"; "clone303"; "close01"; "close02"; "close_range01"; "close_range02";
   "confstr01"; "creat01"; "creat03"; "creat04"; "dup01"; "dup02"; "dup03"; "dup04"; "dup05"; "dup06"; "dup07";
   "dup201"; "dup202"; "dup203"; "dup204"; "dup205"; "dup206"; "dup207"; "dup3_01"; "dup3_02"; "ebizzy";
   "eject_check_tray"; "endian_switch01"; "epoll_create01"; "epoll_create02"; "epoll_create1_01";
   "epoll_create1_02"; "epoll_ctl01"; "epoll_ctl03"; "execvp01_child"; "exit01"; "exit02"; "exit_group01"; "f00f";
   "faccessat01"; "faccessat02"; "flock01"; "flock02"; "flock03"; "flock04"; "flock06"; "fork01"; "fork03";
   "fork04"; "fork05"; "fork07"; "fork08"; "fork09"; "fork10"; "fork_procs"; "fpathconf01"; "fstat02"; "fstat02_64";
   "fstat03"; "fstat03_64"; "fstatat01"; "futex_wait01"; "futex_wait04"; "futex_wait05"; "futex_wake01";
   "futex_wake02"; "getdomainname01"; "getegid02"; "getegid02_16"; "geteuid01_16"; "geteuid02"; "geteuid02_16";
   "getgid01"; "getgid01_16"; "getgid03"; "gethostbyname_r01"; "gethostid01"; "gethostname01"; "getitimer01";
   "getpagesize01"; "getpgid01"; "getpgid02"; "getpgrp01"; "getpid01"; "getpid02"; "getppid01"; "getppid02";
   "getrandom02"; "getrandom03"; "getrandom04"; "getrlimit01"; "getrusage01"; "getuid01"; "getuid03"; "getuid03_16";
   "inode01"; "lftest"; "link02"; "link04"; "llseek01"; "llseek02"; "llseek03"; "lseek01"; "lseek02"; "lseek07";
   "memcmp01"; "memset01"; "memtoy"; "mesgq_nstest"; "mmap09"; "mmap18"; "msgctl01"; "msgctl02"; "msgctl12";
   "msgget01"; "msgget02"; "msgget03"; "msgget04"; "msgget05"; "msgrcv01"; "msgrcv02"; "msgrcv07"; "msgrcv08";
   "nanosleep01"; "netns_netlink"; "netstress"; "newuname01"; "nice04"; "nice05"; "open01"; "open02"; "open03";
   "open04"; "open06"; "openat01"; "openfile"; "overcommit_memory"; "page01"; "page02"; "pathconf01"; "pathconf02";
   "pipe01"; "pipe10"; "pipe11"; "pipe12"; "pipe14"; "pipe15"; "pipe2_01"; "poll01"; "poll02"; "posix_fadvise01";
   "posix_fadvise01_64"; "posix_fadvise02"; "posix_fadvise02_64"; "posix_fadvise03"; "posix_fadvise03_64";
   "prctl01"; "prctl02"; "prctl04"; "prctl05"; "prctl06"; "prctl06_execve"; "prctl07"; "prctl08"; "prctl09";
   "prctl10"; "pread01"; "proc01"; "proc_sched_rt01"; "process_madvise01"; "process_vm01"; "pselect01";
   "pselect01_64"; "pselect03"; "pselect03_64"; "pt_test"; "pth_str01"; "pth_str02"; "pth_str03"; "ptrace01";
   "ptrace03"; "ptrace04"; "pwrite01"; "pwrite01_64"; "pwrite03"; "pwrite03_64"; "pwrite04"; "pwrite04_64";
   "read01"; "read02"; "read04"; "readahead01"; "readahead02"; "readdir01"; "readdir21"; "readlink01"; "readlink03";
   "readlinkat01"; "readlinkat02"; "readv01"; "realpath01"; "sbrk01"; "sbrk02"; "select02"; "sem_comm";
   "sem_nstest"; "semctl01"; "semctl02"; "semctl03"; "semctl07"; "semctl08"; "semget01"; "setgid01"; "setgid01_16";
   "setgid02"; "setgid02_16"; "setgid03"; "setgid03_16"; "setgroups01"; "setgroups01_16"; "setns01"; "setns02";
   "setpgid01"; "setpgid02"; "setpgrp01"; "setregid02"; "setresuid04"; "setreuid03"; "setreuid05"; "setreuid05_16";
   "setreuid06"; "setreuid06_16"; "setreuid07"; "setreuid07_16"; "setrlimit01"; "setrlimit02"; "setrlimit03";
   "setsockopt03"; "setsockopt04"; "setsockopt05"; "settimeofday01"; "settimeofday02"; "shmget06"; "shmnstest";
   "sigaltstack01"; "sigaltstack02"; "sighold02"; "signal01"; "signal02"; "signal03"; "signal04"; "signal05";
   "signal06"; "sigwait01"; "socket01"; "socket02"; "stack_space"; "starvation"; "stat01"; "stat01_64"; "stat02";
   "stat02_64"; "statx01"; "statx02"; "statx03"; "stime02"; "stream01"; "stream02"; "stream03"; "stream04";
   "stream05"; "stress"; "support_numa"; "syscall01"; "sysconf01"; "tgkill01"; "time-schedule"; "times01";
   "times03"; "tkill01"; "uevent01"; "uevent02"; "uevent03"; "ulimit01"; "umask01"; "umip_basic_test"; "umount01";
   "umount02"; "umount03"; "umount2_01"; "umount2_02"; "uname01"; "uname02"; "uname04"; "unlink05"; "unlink07";
   "unlink08"; "unlinkat01"; "unshare01"; "unshare02"; "userfaultfd01"; "wait01"; "wait02"; "wait401"; "wait402";
   "wait403"; "waitid01"; "waitid02"; "waitid03"; "waitid04"; "waitid05"; "waitid06"; "waitpid01"; "waitpid03";
   "waitpid04"; "write01"; "write02"; "write03"; "write04"; "write05"; "write06"; "writetest"]%string.

(** [ltp_tests] of [run_ltp_tests]: one more. *)
Definition ltp_tests : list string := "abort01"%string :: ltp_tests_glibc.

Definition musl_static_tests : list TestCase := cases "/musl/runtest.exe" "entry-static.exe"
  ["argv"; "basename"; "clocale_mbfuncs"; "clock_gettime"; "dirname"; "env"; "fdopen"; "fnmatch"; "fscanf"; "fwscanf";
   "iconv_open"; "inet_pton"; "mbc"; "memstream"; "pthread_cancel_points"; "pthread_cancel"; "pthread_cond";
   "pthread_tsd"; "qsort"; "random"; "search_hsearch"; "search_insque"; "search_lsearch"; "search_tsearch";
   "setjmp"; "snprintf"; "socket"; "sscanf"; "sscanf_long"; "stat"; "strftime"; "string"; "string_memcpy";
   "string_memmem"; "string_memset"; "string_strchr"; "string_strcspn"; "string_strstr"; "strptime"; "strtod";
   "strtod_simple"; "strtof"; "strtol"; "strtold"; "swprintf"; "tgmath"; "time"; "tls_align"; "udiv"; "ungetc";
   "utime"; "wcsstr"; "wcstol"; "daemon_failure"; "dn_expand_empty"; "dn_expand_ptr_0"; "fflush_exit"; "fgets_eof";
   "fgetwc_buffering"; "fpclassify_invalid_ld80"; "ftello_unflushed_append"; "getpwnam_r_crash"; "getpwnam_r_errno";
   "iconv_roundtrips"; "inet_ntop_v4mapped"; "inet_pton_empty_last_field"; "iswspace_null"; "lrand48_signextend";
   "lseek_large"; "malloc_0"; "mbsrtowcs_overflow"; "memmem_oob_read"; "memmem_oob"; "mkdtemp_failure";
   "mkstemp_failure"; "printf_1e9_oob"; "printf_fmt_g_round"; "printf_fmt_g_zeros"; "printf_fmt_n";
   "pthread_robust_detach"; "pthread_cancel_sem_wait"; "pthread_cond_smasher"; "pthread_condattr_setclock";
   "pthread_exit_cancel"; "pthread_once_deadlock"; "pthread_rwlock_ebusy"; "putenv_doublefree"; "regex_backref_0";
   "regex_bracket_icase"; "regex_ere_backref"; "regex_escaped_high_byte"; "regex_negated_range"; "regexec_nosub";
   "rewind_clear_error"; "rlimit_open_files"; "scanf_bytes_consumed"; "scanf_match_literal_eof";
   "scanf_nullbyte_char"; "setvbuf_unget"; "sigprocmask_internal"; "sscanf_eof"; "statvfs"; "strverscmp";
   "syscall_sign_extend"; "uselocale_0"; "wcsncpy_read_overflow"; "wcsstr_false_negative"]%string.

Definition musl_dynamic_tests : list TestCase := cases "/musl/runtest.exe" "entry-dynamic.exe"
  ["argv"; "basename"; "clocale_mbfuncs"; "clock_gettime"; "dirname"; "dlopen"; "env"; "fdopen"; "fnmatch"; "fscanf";
   "fwscanf"; "iconv_open"; "inet_pton"; "mbc"; "memstream"; "pthread_cancel_points"; "pthread_cancel";
   "pthread_cond"; "pthread_tsd"; "qsort"; "random"; "search_hsearch"; "search_insque"; "search_lsearch";
   "search_tsearch"; "sem_init"; "setjmp"; "snprintf"; "socket"; "sscanf"; "sscanf_long"; "stat"; "strftime";
   "string"; "string_memcpy"; "string_memmem"; "string_memset"; "string_strchr"; "string_strcspn"; "string_strstr";
   "strptime"; "strtod"; "strtod_simple"; "strtof"; "strtol"; "strtold"; "swprintf"; "tgmath"; "time"; "tls_init";
   "tls_local_exec"; "udiv"; "ungetc"; "utime"; "wcsstr"; "wcstol"; "daemon_failure"; "dn_expand_empty";
   "dn_expand_ptr_0"; "fflush_exit"; "fgets_eof"; "fgetwc_buffering"; "fpclassify_invalid_ld80";
   "ftello_unflushed_append"; "getpwnam_r_crash"; "getpwnam_r_errno"; "iconv_roundtrips"; "inet_ntop_v4mapped";
   "inet_pton_empty_last_field"; "iswspace_null"; "lrand48_signextend"; "lseek_large"; "malloc_0";
   "mbsrtowcs_overflow"; "memmem_oob_read"; "memmem_oob"; "mkdtemp_failure"; "mkstemp_failure"; "printf_1e9_oob";
   "printf_fmt_g_round"; "printf_fmt_g_zeros"; "printf_fmt_n"; "pthread_robust_detach"; "pthread_cond_smasher";
   "pthread_condattr_setclock"; "pthread_exit_cancel"; "pthread_once_deadlock"; "pthread_rwlock_ebusy";
   "putenv_doublefree"; "regex_backref_0"; "regex_bracket_icase"; "regex_ere_backref"; "regex_escaped_high_byte";
   "regex_negated_range"; "regexec_nosub"; "rewind_clear_error"; "rlimit_open_files"; "scanf_bytes_consumed";
   "scanf_match_literal_eof"; "scanf_nullbyte_char"; "setvbuf_unget"; "sigprocmask_internal"; "sscanf_eof";
   "statvfs"; "strverscmp"; "syscall_sign_extend"; "tls_get_new_dtv"; "uselocale_0"; "wcsncpy_read_overflow";
   "wcsstr_false_negative"]%string.

Definition glibc_static_tests : list TestCase := cases "/glibc/runtest.exe" "entry-static.exe"
  ["argv"; "basename"; "clocale_mbfuncs"; "clock_gettime"; "dirname"; "env"; "fdopen"; "fnmatch"; "fscanf"; "fwscanf";
   "iconv_open"; "inet_pton"; "mbc"; "memstream"; "pthread_cancel_points"; "pthread_cancel"; "pthread_cond";
   "pthread_tsd"; "qsort"; "random"; "search_hsearch"; "search_insque"; "search_lsearch"; "search_tsearch";
   "setjmp"; "snprintf"; "socket"; "sscanf"; "sscanf_long"; "stat"; "strftime"; "string"; "string_memcpy";
   "string_memmem"; "string_memset"; "string_strchr"; "string_strcspn"; "string_strstr"; "strptime"; "strtod";
   "strtod_simple"; "strtof"; "strtol"; "strtold"; "swprintf"; "tgmath"; "time"; "tls_align"; "udiv"; "ungetc";
   "utime"; "wcsstr"; "wcstol"; "daemon_failure"; "dn_expand_empty"; "dn_expand_ptr_0"; "fflush_exit"; "fgets_eof";
   "fgetwc_buffering"; "fpclassify_invalid_ld80"; "ftello_unflushed_append"; "getpwnam_r_crash"; "getpwnam_r_errno";
   "iconv_roundtrips"; "inet_ntop_v4mapped"; "inet_pton_empty_last_field"; "iswspace_null"; "lrand48_signextend";
   "lseek_large"; "malloc_0"; "mbsrtowcs_overflow"; "memmem_oob_read"; "memmem_oob"; "mkdtemp_failure";
   "mkstemp_failure"; "printf_1e9_oob"; "printf_fmt_g_round"; "printf_fmt_g_zeros"; "printf_fmt_n";
   "pthread_robust_detach"; "pthread_cancel_sem_wait"; "pthread_cond_smasher"; "pthread_condattr_setclock";
   "pthread_exit_cancel"; "pthread_once_deadlock"; "pthread_rwlock_ebusy"; "putenv_doublefree"; "regex_backref_0";
   "regex_bracket_icase"; "regex_ere_backref"; "regex_escaped_high_byte"; "regex_negated_range"; "regexec_nosub";
   "rewind_clear_error"; "rlimit_open_files"; "scanf_bytes_consumed"; "scanf_match_literal_eof";
   "scanf_nullbyte_char"; "setvbuf_unget"; "sigprocmask_internal"; "sscanf_eof"; "statvfs"; "strverscmp";
   "syscall_sign_extend"; "uselocale_0"; "wcsncpy_read_overflow"; "wcsstr_false_negative"]%string.

Definition glibc_dynamic_tests : list TestCase := cases "/glibc/runtest.exe" "entry-dynamic.exe"
  ["argv"; "basename"; "clocale_mbfuncs"; "clock_gettime"; "dirname"; "dlopen"; "env"; "fdopen"; "fnmatch"; "fscanf";
   "fwscanf"; "iconv_open"; "inet_pton"; "mbc"; "memstream"; "pthread_cancel_points"; "pthread_cancel";
   "pthread_cond"; "pthread_tsd"; "qsort"; "random"; "search_hsearch"; "search_insque"; "search_lsearch";
   "search_tsearch"; "sem_init"; "setjmp"; "snprintf"; "socket"; "sscanf"; "sscanf_long"; "stat"; "strftime";
   "string"; "string_memcpy"; "string_memmem"; "string_memset"; "string_strchr"; "string_strcspn"; "string_strstr";
   "strptime"; "strtod"; "strtod_simple"; "strtof"; "strtol"; "strtold"; "swprintf"; "tgmath"; "time"; "tls_init";
   "tls_local_exec"; "udiv"; "ungetc"; "utime"; "wcsstr"; "wcstol"; "daemon_failure"; "dn_expand_empty";
   "dn_expand_ptr_0"; "fflush_exit"; "fgets_eof"; "fgetwc_buffering"; "fpclassify_invalid_ld80";
   "ftello_unflushed_append"; "getpwnam_r_crash"; "getpwnam_r_errno"; "iconv_roundtrips"; "inet_ntop_v4mapped";
   "inet_pton_empty_last_field"; "iswspace_null"; "lrand48_signextend"; "lseek_large"; "malloc_0";
   "mbsrtowcs_overflow"; "memmem_oob_read"; "memmem_oob"; "mkdtemp_failure"; "mkstemp_failure"; "printf_1e9_oob";
   "printf_fmt_g_round"; "printf_fmt_g_zeros"; "printf_fmt_n"; "pthread_robust_detach"; "pthread_cond_smasher";
   "pthread_condattr_setclock"; "pthread_exit_cancel"; "pthread_once_deadlock"; "pthread_rwlock_ebusy";
   "putenv_doublefree"; "regex_backref_0"; "regex_bracket_icase"; "regex_ere_backref"; "regex_escaped_high_byte";
   "regex_negated_range"; "regexec_nosub"; "rewind_clear_error"; "rlimit_open_files"; "scanf_bytes_consumed";
   "scanf_match_literal_eof"; "scanf_nullbyte_char"; "setvbuf_unget"; "sigprocmask_internal"; "sscanf_eof";
   "statvfs"; "strverscmp"; "syscall_sign_extend"; "tls_get_new_dtv"; "uselocale_0"; "wcsncpy_read_overflow";
   "wcsstr_false_negative"]%string.
