(* ===== verification/Init.v ===== *)
(** * The test runner

    Models kernel/src/tasks/initproc.rs as built for riscv64: [command], which starts a
    program from a line and waits for its end, the script [initproc] that gives one command
    after the other, and [kill_all_tasks]; on the tasks of Process and the program loader of
    Exec.  The future of [initproc] is a state with a poll function.  The theorems show that
    programs run one at a time and in the order of the script, that the script comes to its
    end if every program does, and in which case a program that cannot be started leaves a
    page table active that is gone. *)

From Stdlib Require Import Ascii.
From S2P Require Import Prelude Frame Signal Path Vfs Command Memory MemSet FdTable Mm Cow Process SigFrame UserStack Exec ExecLoad InitTests.

(** A word of a line as a string. *)
Definition word_string (w : list Z) : string := String.string_of_list_ascii ((λ c, ascii_of_N (Z.to_N c)) <$> w).

(** ** Actions *)

(** What the script does: set the linkers, run a command in a directory, end all programs. *)
Inductive Action :=
  | SetLibcPath (path : string)
  | SetDynPath (path : string)
  | Run (cmd : string) (dir : PathBuf)
  | KillAll.

#[export] Instance Action_eq_dec : EqDecision Action.
Proof. solve_decision. Defined.

(** Lines on the console. *)
Inductive Line :=
  | EmptyCommand
  | UnknownCommand (cmd : string)
  | ExecFailed (filename : string) (e : Errno)
  | TestFinish.

(** [YIELDS] turns are given up after a program has ended. *)
Definition YIELDS : Z := 100000.

(** The command that runs: a task that is waited for, or the pause after its end, with the
    turns that are left. *)
Inductive Running := Waiting (tid : Z) | Settling (tid turns : Z).

(** [initproc]: suspended in a command with the actions that are left, or at its end. *)
Inductive InitState := Busy (r : Running) (rest : list Action) | ShutDown.

Section init.
Context {FS : Type} `{FL : FrameSourceLaws FS} {F D : Type}.
Context (file_read : F → Z → Z → result (list Z)) (file_size : F → result Z) (count : Z → nat) (sstatus : Z).
Context (open : PathBuf → result F) (sections : list Z → Sections) (open_dir : PathBuf → option D) (tty : D).

Abbreviation KK := (Kernel (FS := FS) (F := F) (D := D)).

(** [m_active] is the task whose page table is in use, [None] the boot page table. *)
Record Machine := mkMachine {
  m_kernel : KK; LIBC_PATH : string; DYN_PATH : string; m_caches : list (TaskCacheTemplate (F := F));
  m_active : option Z; m_console : list Line;
}.

Definition set_kernel (k : KK) (m : Machine) : Machine := mkMachine k (LIBC_PATH m) (DYN_PATH m) (m_caches m) (m_active m) (m_console m).
Definition set_libc_path (path : string) (m : Machine) : Machine := mkMachine (m_kernel m) path (DYN_PATH m) (m_caches m) (m_active m) (m_console m).
Definition set_dyn_path (path : string) (m : Machine) : Machine := mkMachine (m_kernel m) (LIBC_PATH m) path (m_caches m) (m_active m) (m_console m).
Definition println (l : Line) (m : Machine) : Machine := mkMachine (m_kernel m) (LIBC_PATH m) (DYN_PATH m) (m_caches m) (m_active m) (m_console m ++ [l]).

(** [before_run] switches to the task's page table, or to the boot page table. *)
Definition before_run (t : Z) (m : Machine) : Machine :=
  let active := match k_tasks (m_kernel m) !! t with Some _ => Some t | None => None end in
  mkMachine (m_kernel m) (LIBC_PATH m) (DYN_PATH m) (m_caches m) active (m_console m).

(** ** Tasks *)

Definition set_held (l : list Z) (k : KK) : KK :=
  mkKernel (k_last_id k) (k_tasks k) (k_pcbs k) (k_queue k) l (k_running k) (k_map k) (k_world k) (k_written k).

(** A local variable that holds a task goes out of scope. *)
Definition drop_held (t : Z) (k : KK) : Kernel := set_held (remove_one_task t (k_held k)) k.

(** [thread::spawn], the caller keeping its reference. *)
Definition thread_spawn (t : Z) (k : KK) : KK :=
  mkKernel (k_last_id k) (k_tasks k) (k_pcbs k) (k_queue k ++ [t]) (k_held k) (k_running k) ({[t]} ∪ k_map k) (k_world k) (k_written k).

(** [release_task] of the executor. *)
Definition release_tid (t : Z) (k : KK) : KK :=
  mkKernel (k_last_id k) (k_tasks k) (k_pcbs k) (k_queue k) (k_held k) (k_running k) (k_map k ∖ {[t]}) (k_world k) (k_written k).

Definition task_by_tid (t : Z) (k : KK) : option Z :=
  if decide (t ∈ k_map k) then if upgrade k t then Some t else None else None.

(** The registers of a loaded program, as Process has them. *)
Definition cx_of (cx : SigFrame.TrapFrame) : Process.TrapFrame :=
  mkCx (cx_get cx RET) (cx_get cx SP) (cx_get cx TLS) (tf_x cx ++ tf_sstatus cx :: tf_sepc cx :: tf_fsx cx).

(** What [exec_with_process] works on, and what it leaves. *)
Definition etask_of (k : KK) (p : Pcb (FS := FS) (F := F) (D := D)) : ETask (FS := FS) (F := F) := mkETask (with_world (p_space p) (k_world k)) (TrapFrame_new sstatus) (p_entry p).

Definition store_etask (t : Z) (e : ETask (FS := FS) (F := F)) (k : KK) : KK :=
  let k := upd_pcb (Process.set_world k (as_world (et_space e))) t (λ p,
    mkPcb (et_space e) (p_fds p) (p_curr_dir p) (p_children p) (p_threads p) (et_entry e) (p_sigaction p) (p_futex p) (p_exit_code p)
      (p_exit_signal p) (p_core_dumped p) (p_umask p)) in
  upd_tcb k t (λ c, mkTcb (cx_of (et_cx e)) (t_sig c) (t_clear_child_tid c) (t_set_child_tid c) (t_exit_signal c) (t_thread_exit_code c) (t_robust_list c)).

(** The new task gets the program; [None] is out of fuel. *)
Definition exec_task (fuel : nat) (t : Z) (work_dir : PathBuf) (filename : string) (args : list string) (m : Machine)
    : option (outcome (result unit * Machine)) :=
  obind ('(_, p) ← task_of (m_kernel m) t; Ret p) (λ p,
  match exec_with_process file_read file_size count sstatus (LIBC_PATH m) (DYN_PATH m) open sections fuel (m_caches m)
          (etask_of (m_kernel m) p) work_dir filename args with
  | Some (Ret (r, e)) => Some (Ret (r, set_kernel (store_etask t e (m_kernel m)) m))
  | Some Panic => Some Panic
  | None => None
  end).

(** ** Commands *)

(** [command] up to its first await: the task it waits for, if a program was started.  The
    file is looked for from the root, the program is loaded from the directory given. *)
Definition command_start (fuel : nat) (cmd : string) (work_dir : PathBuf) (m : Machine) : option (outcome (option Z * Machine)) :=
  match word_string <$> parse_command (str_bytes cmd) with
  | [] => Some (Ret (None, println EmptyCommand m))
  | filename :: remaining_args =>
      match open (PathBuf_from filename) with
      | Err _ => Some (Ret (None, println (UnknownCommand cmd) m))
      | Ok _ =>
          obind (curr_task ← unwrap (k_running (m_kernel m)); '(t, k) ← UserTask_new open_dir tty (m_kernel m) None work_dir; Ret (curr_task, t, k)) (λ '(curr_task, t, k),
          let m := before_run t (set_kernel k m) in
          match exec_task fuel t work_dir filename (filename :: remaining_args) m with
          | None => None
          | Some Panic => Some Panic
          | Some (Ret (Err e, m)) => Some (Ret (None, println (ExecFailed filename e) (set_kernel (drop_held t (m_kernel m)) m)))
          | Some (Ret (Ok _, m)) =>
              let m := before_run curr_task m in
              let m := set_kernel (thread_spawn t (m_kernel m)) m in
              Some (t ← unwrap (task_by_tid t (m_kernel m)); Ret (Some t, m))
          end)
      end
  end.

(** [add_user_task]: like [command], from the root directory; the environment is not used by
    the loader, and a program that cannot be loaded panics. *)
Definition add_user_task (fuel : nat) (filename : string) (args : list string) (m : Machine) : option (outcome (Z * Machine)) :=
  obind (curr_task ← unwrap (k_running (m_kernel m)); '(t, k) ← UserTask_new open_dir tty (m_kernel m) None PathBuf_new; Ret (curr_task, t, k)) (λ '(curr_task, t, k),
  match exec_task fuel t PathBuf_new filename args (before_run t (set_kernel k m)) with
  | None => None
  | Some (Ret (Ok _, m)) =>
      let m := before_run curr_task m in
      Some (Ret (t, set_kernel (drop_held t (thread_spawn t (m_kernel m))) m))
  | Some _ => Some Panic
  end).

(** The pause: every await gives up one turn; at its end the task is dropped. *)
Definition settle (tid turns : Z) (m : Machine) : option Running * Machine :=
  if decide (0 < turns) then (Some (Settling tid (turns - 1)), m) else (None, set_kernel (drop_held tid (m_kernel m)) m).

(** The loops of [command] from the test of the exit code to the next await; [None] when the
    command is over. *)
Definition command_wait (tid : Z) (m : Machine) : option Running * Machine :=
  match task_exit_code (m_kernel m) tid with
  | Some _ => settle tid YIELDS (set_kernel (release_tid tid (m_kernel m)) m)
  | None => (Some (Waiting tid), m)
  end.

Definition command_poll (r : Running) (m : Machine) : option Running * Machine :=
  match r with Waiting tid => command_wait tid m | Settling tid turns => settle tid turns m end.

(** [kill_all_tasks]: the tasks of the map in the order [tids]; tasks of the kernel stay. *)
Definition kill_all_tasks (tids : list Z) (k : KK) : outcome KK :=
  foldM (λ k t, if upgrade k t then match k_tasks k !! t with Some _ => task_exit k t 100 | None => Ret k end else Ret k) tids k.

(** The commands of [command_iperf]. *)
Definition command_iperf (cmd : string) (work_dir : PathBuf) : list Action := [KillAll; Run cmd work_dir; KillAll].

(** ** The script *)

(** Running actions up to the next await. *)
Fixpoint run_actions (fuel : nat) (l : list Action) (m : Machine) : option (outcome (InitState * Machine)) :=
  match l with
  | [] => Some (Ret (ShutDown, println TestFinish m))
  | SetLibcPath path :: l => run_actions fuel l (set_libc_path path m)
  | SetDynPath path :: l => run_actions fuel l (set_dyn_path path m)
  | KillAll :: l => obind (kill_all_tasks (elements (k_map (m_kernel m))) (m_kernel m)) (λ k, run_actions fuel l (set_kernel k m))
  | Run cmd dir :: l =>
      match command_start fuel cmd dir m with
      | None => None
      | Some Panic => Some Panic
      | Some (Ret (None, m)) => run_actions fuel l m
      | Some (Ret (Some t, m)) =>
          match command_wait t m with
          | (Some r, m) => Some (Ret (Busy r l, m))
          | (None, m) => run_actions fuel l m
          end
      end
  end.

(** A poll of a suspended [initproc]. *)
Definition init_poll (fuel : nat) (s : InitState) (m : Machine) : option (outcome (InitState * Machine)) :=
  match s with
  | ShutDown => Some (Ret (ShutDown, m))
  | Busy r rest =>
      match command_poll r m with
      | (Some r, m) => Some (Ret (Busy r rest, m))
      | (None, m) => run_actions fuel rest m
      end
  end.
End init.

(** ** The actions of the build *)

Definition in_dir (dir : PathBuf) (cmds : list string) : list Action := (λ c, Run c dir) <$> cmds.

(** The three commands for an LTP program, [root] being the directory of the C library. *)
Definition ltp_case (root test_name : string) : list string :=
  [root ++ "/busybox echo RUN LTP CASE " ++ test_name; root ++ "/ltp/testcases/bin/" ++ test_name;
   root ++ "/busybox echo FAIL LTP CASE " ++ test_name ++ " : 0"]%string.

Definition run_ltp_tests (home_dir : PathBuf) : list Action := in_dir home_dir (ltp_tests ≫= ltp_case "/musl").
Definition run_ltp_tests_glibc (glibc_home_dir : PathBuf) : list Action := in_dir glibc_home_dir (ltp_tests_glibc ≫= ltp_case "/glibc").

(** The test cases that are not excluded. *)
Definition run_cases (tables : list (list TestCase)) (dir : PathBuf) (exclude : list (string * string * string * PathBuf)) : list Action :=
  tests ← tables; '(runtest, entry, test_name) ← tests;
  if decide ((runtest, entry, test_name, dir) ∈ exclude) then [] else [Run (runtest ++ " -w " ++ entry ++ " " ++ test_name)%string dir].

Definition run_musl_tests := run_cases [musl_static_tests; musl_dynamic_tests].
Definition run_glibc_tests := run_cases [glibc_static_tests; glibc_dynamic_tests].

#[local] Abbreviation dq := (String (ascii_of_nat 34) EmptyString).

(** The lines of [initproc] in /glibc/basic. *)
Definition glibc_basic : list string :=
  ["/glibc/busybox mkdir -p /bin";
   "/glibc/busybox cp /glibc/busybox /sleep";
   "/glibc/busybox cp /glibc/busybox /bin/sleep";
   "/glibc/busybox chmod +x /sleep";
   "/glibc/busybox chmod +x /bin/sleep";
   "/glibc/busybox echo #### OS COMP TEST GROUP START basic-glibc ####";
   "/glibc/busybox sh /glibc/basic/run-all.sh";
   "/glibc/busybox echo #### OS COMP TEST GROUP END basic-glibc ####"]%string.

(** The lines in /glibc before the LTP programs, *)
Definition glibc_prepare : list string :=
  ["/glibc/busybox mkdir -p /bin";
   "/glibc/busybox cp /glibc/busybox /sleep";
   "/glibc/busybox cp /glibc/busybox /bin/sleep";
   "/glibc/busybox chmod +x /sleep";
   "/glibc/busybox chmod +x /bin/sleep";
   "/glibc/busybox echo #### OS COMP TEST GROUP START ltp-glibc ####";
   "/glibc/busybox mkdir -p /tmp";
   "/glibc/busybox mkdir -p /var/tmp";
   "/glibc/busybox chmod 1777 /tmp";
   "/glibc/busybox chmod 1777 /var/tmp";
   "/glibc/busybox touch /tmp/.test_marker";
   "/glibc/busybox rm -f /tmp/.test_marker"]%string.

(** after them, *)
Definition glibc_tests : list string :=
  ["/glibc/busybox echo #### OS COMP TEST GROUP END ltp-glibc ####";
   "/glibc/busybox sh lua_testcode.sh";
   "/glibc/busybox sh /glibc/libcbench_testcode.sh";
   "/glibc/busybox sh busybox_testcode.sh"]%string.

(** and the measurements. *)
Definition glibc_lmbench : list string :=
  ["/glibc/busybox echo #### OS COMP TEST GROUP START lmbench-glibc ####";
   "/glibc/busybox echo latency measurements";
   "/glibc/lmbench_all lat_syscall -P 1 null";
   "/glibc/lmbench_all lat_syscall -P 1 read";
   "/glibc/lmbench_all lat_syscall -P 1 write";
   "/glibc/busybox mkdir -p /var/tmp";
   "/glibc/busybox touch /var/tmp/lmbench";
   "/glibc/lmbench_all lat_syscall -P 1 stat /var/tmp/lmbench";
   "/glibc/lmbench_all lat_syscall -P 1 fstat /var/tmp/lmbench";
   "/glibc/lmbench_all lat_syscall -P 1 open /var/tmp/lmbench";
   "/glibc/lmbench_all lat_select -n 100 -P 1 file";
   "/glibc/lmbench_all lat_pipe -P 1";
   "/glibc/lmbench_all lat_proc -P 1 fork";
   "/glibc/busybox echo Bandwidth measurements";
   "/glibc/lmbench_all bw_pipe -P 1";
   "/glibc/lmbench_all bw_file_rd -P 1 512k io_only /var/tmp/XXX";
   "/glibc/lmbench_all bw_file_rd -P 1 512k open2close /var/tmp/XXX";
   "/glibc/lmbench_all bw_mmap_rd -P 1 512k mmap_only /var/tmp/XXX";
   "/glibc/lmbench_all bw_mmap_rd -P 1 512k open2close /var/tmp/XXX";
   "/glibc/busybox echo context switch overhead";
   "/glibc/lmbench_all lat_ctx -P 1 -s 32 2 4 8 16 24 32 64 96";
   "/glibc/busybox cp hello /tmp";
   "/glibc/busybox mkdir -p /var/tmp";
   ("/glibc/lmbench_all lmdd label=" ++ dq ++ "File /var/tmp/XXX write bandwidth:" ++ dq ++ " of=/var/tmp/XXX move=1m fsync=1 print=3");
   "/glibc/lmbench_all lat_pagefault -P 1 /var/tmp/XXX";
   "/glibc/lmbench_all lat_mmap -P 1 512k /var/tmp/XXX";
   "/glibc/busybox echo file system latency";
   "/glibc/lmbench_all lat_fs /var/tmp";
   "/glibc/busybox echo #### OS COMP TEST GROUP END lmbench-glibc ####"]%string.

(** [initproc]; what follows the shutdown is not reached. *)
Definition initproc : list Action :=
  [SetLibcPath "/glibc/lib"; SetDynPath "/glibc/lib/ld-linux-riscv64-lp64d.so.1"] ++
  in_dir (PathBuf_from "/glibc/basic") glibc_basic ++
  in_dir (PathBuf_from "/glibc") glibc_prepare ++
  run_ltp_tests_glibc (PathBuf_from "/glibc") ++
  in_dir (PathBuf_from "/glibc") (glibc_tests ++ glibc_lmbench).

(** ** One program at a time *)

Section order.
Context {FS : Type} `{FL : FrameSourceLaws FS} {F D : Type}.
Context (file_read : F → Z → Z → result (list Z)) (file_size : F → result Z) (count : Z → nat) (sstatus : Z).
Context (open : PathBuf → result F) (sections : list Z → Sections) (open_dir : PathBuf → option D) (tty : D).
Context (fuel : nat).

Abbreviation KK := (Kernel (FS := FS) (F := F) (D := D)).
Abbreviation M := (Machine (FS := FS) (F := F) (D := D)).
Abbreviation start := (command_start file_read file_size count sstatus open sections open_dir tty fuel).
Abbreviation actions := (run_actions file_read file_size count sstatus open sections open_dir tty fuel).
Abbreviation poll := (init_poll file_read file_size count sstatus open sections open_dir tty fuel).
Implicit Types (k : KK) (m : M).

(** Numbers of tasks and processes are those given out, and [n] more are left. *)
Definition ids_ok (n : Z) k : Prop :=
  0 ≤ k_last_id k ∧ k_last_id k + n < USIZE ∧
  (∀ t u, k_tasks k !! t = Some u → t ≤ k_last_id k ∧ t_process u ≤ k_last_id k) ∧ (∀ t, t ∈ k_map k → t ≤ k_last_id k).

Definition exited k (t : Z) : Prop := is_Some (task_exit_code k t).

(** Ended programs stay ended, and out of the task map when they are. *)
Definition keeps k k' : Prop := ∀ t, exited k t → exited k' t ∧ (t ∉ k_map k → t ∉ k_map k').

(** The program that runs, and the actions left. *)
Definition running (s : InitState) : option Z := match s with Busy (Waiting t) _ => Some t | _ => None end.
Definition rest_of (s : InitState) : list Action := match s with Busy _ l => l | ShutDown => [] end.

(** A run: between two polls the rest of the machine moves by [env].  The log are the tasks
    started, each with its action. *)
Section run.
Context (script : list Action) (env : M → M → Prop) (m0 : M).

(** The entry for a poll that has started a program; [old] is the one that ran before. *)
Definition entry (old : option Z) (s : InitState) : list (Z * Action) :=
  match s with
  | Busy (Waiting t) rest => if decide (old = Some t) then [] else option_list (pair t <$> script !! (length script - length rest - 1)%nat)
  | _ => []
  end.

Inductive reach : list (Z * Action) → InitState → M → Prop :=
  | reach_start s m : actions script m0 = Some (Ret (s, m)) → reach (entry None s) s m
  | reach_poll log s m m1 s' m' : reach log s m → env m m1 → poll s m1 = Some (Ret (s', m')) → reach (log ++ entry (running s) s') s' m'.
End run.

Lemma keeps_refl k : keeps k k.
Proof. intros t Ht. by split. Qed.

Lemma keeps_trans k1 k2 k3 : keeps k1 k2 → keeps k2 k3 → keeps k1 k3.
Proof. intros H1 H2 t Ht. destruct (H1 t Ht) as [Ha Hb]. destruct (H2 t Ha) as [Hc Hd]. auto. Qed.

Lemma exited_known n k t : ids_ok n k → exited k t → t ≤ k_last_id k.
Proof.
  intros (_ & _ & Hi & _) [c Hc]. unfold task_exit_code in Hc. destruct (k_tasks k !! t) as [u|] eqn:Eu; [|done]. by apply (Hi t u).
Qed.

(** A new task is numbered next and leaves the others alone. *)
Lemma new_task n k dir t k' : ids_ok (n + 1) k → 0 ≤ n → UserTask_new open_dir tty k None dir = Ret (t, k') →
  t = k_last_id k + 1 ∧ k_last_id k' = t ∧ ids_ok n k' ∧ keeps k k' ∧ task_exit_code k' t = None.
Proof.
  intros (H0 & Hn & Hi & Hm) Hn0 E. unfold UserTask_new in E. destruct (open_dir dir) as [d|]; [|done]. cbn [unwrap mbind outcome_bind] in E. cbn zeta in E.
  rewrite (wrap_small (k_last_id k + 1)) in E by (unfold is_usize; lia). injection E as <- <-. set (id := k_last_id k + 1) in *.
  split; [done|]. split; [done|]. split_and!.
  - unfold ids_ok. cbn [k_last_id k_tasks k_map]. split_and!; [lia|lia| |].
    + intros t u Ht. destruct (decide (t = id)) as [->|Hne]; [rewrite lookup_insert_eq in Ht; injection Ht as <-; cbn [t_process]; lia|].
      rewrite lookup_insert_ne in Ht by done. destruct (Hi t u Ht). lia.
    + intros t Ht. specialize (Hm t Ht). lia.
  - intros t [c Ht]. split; [|done]. unfold task_exit_code in Ht. destruct (k_tasks k !! t) as [u|] eqn:Eu; [|done]. cbn [mbind option_bind] in Ht.
    destruct (Hi t u Eu) as [H1 H2]. exists c. unfold task_exit_code. cbn [k_tasks k_pcbs]. rewrite !lookup_insert_ne by lia. rewrite Eu. cbn [mbind option_bind].
    rewrite lookup_insert_ne by lia. done.
  - unfold task_exit_code. cbn [k_tasks k_pcbs]. rewrite lookup_insert_eq. cbn [mbind option_bind t_process]. by rewrite lookup_insert_eq.
Qed.

(** What a command has to keep of the kernel besides its own task. *)
Record same_ids k k' : Prop := {
  si_last : k_last_id k' = k_last_id k;
  si_map : k_map k' = k_map k;
  si_tasks : ∀ t, t_process <$> k_tasks k' !! t = t_process <$> k_tasks k !! t;
  si_codes : ∀ q, p_exit_code <$> k_pcbs k' !! q = p_exit_code <$> k_pcbs k !! q;
}.

Lemma same_ids_code k k' t : same_ids k k' → task_exit_code k' t = task_exit_code k t.
Proof.
  intros [_ _ Ht Hc]. unfold task_exit_code. specialize (Ht t). destruct (k_tasks k' !! t) as [u|], (k_tasks k !! t) as [v|]; try done. cbn [mbind option_bind].
  injection Ht as ->. specialize (Hc (t_process v)). destruct (k_pcbs k' !! t_process v) as [p|], (k_pcbs k !! t_process v) as [q|]; try done. cbn [mbind option_bind]. cbn in Hc. congruence.
Qed.

Lemma same_ids_ok n k k' : same_ids k k' → ids_ok n k → ids_ok n k'.
Proof.
  intros [Hl Hm Ht _] (H0 & Hn & Hi & Hmap). unfold ids_ok. rewrite Hl, Hm. split_and!; [done..| |done].
  intros t u Hu. specialize (Ht t). rewrite Hu in Ht. destruct (k_tasks k !! t) as [v|] eqn:Ev; [|done]. cbn in Ht. injection Ht as ->. by apply (Hi t v).
Qed.

Lemma same_ids_keeps k k' : same_ids k k' → keeps k k'.
Proof. intros Hs t Ht. split; [unfold exited; by rewrite (same_ids_code _ _ t Hs)|by rewrite (si_map _ _ Hs)]. Qed.

Lemma store_same_ids t e k : same_ids k (store_etask t e k).
Proof.
  unfold store_etask, upd_tcb, upd_pcb. split; cbn [k_last_id k_map k_tasks k_pcbs set_tasks set_pcbs Process.set_world]; [done|done| |].
  - intros x. destruct (decide (x = t)) as [->|Hne]; [rewrite lookup_alter_eq|by rewrite lookup_alter_ne]. by destruct (k_tasks k !! t).
  - intros x. destruct (decide (x = t)) as [->|Hne]; [rewrite lookup_alter_eq|by rewrite lookup_alter_ne]. by destruct (k_pcbs k !! t).
Qed.

Lemma drop_same_ids t k : same_ids k (drop_held t k).
Proof. by split. Qed.
(** Starting a command: either nothing runs, or a task with the next number, which has not ended. *)
Lemma command_start_spec n cmd dir m o m' : ids_ok (n + 1) (m_kernel m) → 0 ≤ n → start cmd dir m = Some (Ret (o, m')) →
  ids_ok n (m_kernel m') ∧ keeps (m_kernel m) (m_kernel m') ∧ k_last_id (m_kernel m) ≤ k_last_id (m_kernel m') ∧
  match o with Some t => k_last_id (m_kernel m) < t ∧ task_exit_code (m_kernel m') t = None | None => True end.
Proof.
  intros Hi Hn E. assert (Hskip : ids_ok n (m_kernel m)) by (destruct Hi as (? & ? & ? & ?); split_and!; [done|lia|done..]).
  unfold command_start in E. destruct (word_string <$> _) as [|filename args]; [injection E as <- <-; exact (conj Hskip (conj (keeps_refl _) (conj (Z.le_refl _) I)))|].
  destruct (open _) as [f|e]; [|injection E as <- <-; exact (conj Hskip (conj (keeps_refl _) (conj (Z.le_refl _) I)))].
  destruct (k_running (m_kernel m)) as [curr|]; [|done]. cbn [unwrap] in E.
  destruct (UserTask_new open_dir tty (m_kernel m) None dir) as [[t k]|] eqn:En; [|cbn in E; done].
  cbn [mbind outcome_bind obind] in E. unfold exec_task in E. destruct (new_task n _ _ _ _ Hi Hn En) as (-> & Hlast & Hik & Hk & Hc).
  cbn [m_kernel before_run set_kernel LIBC_PATH DYN_PATH m_caches] in E.
  destruct (task_of k _) as [[u p]|]; [|done]. cbn [mbind outcome_bind obind] in E.
  destruct (exec_with_process _ _ _ _ _ _ _ _ _ _ _ _ _ _) as [[[r e]|]|]; [|done|done].
  pose proof (store_same_ids (k_last_id (m_kernel m) + 1) e k) as Hs. set (k2 := store_etask _ e k) in *.
  destruct r as [[]|err].
  - cbn [m_kernel before_run set_kernel] in E. destruct (task_by_tid _ _) as [t|] eqn:Et; [|done]. cbn [unwrap mbind outcome_bind] in E.
    unfold task_by_tid in Et. case_decide; [|done]. destruct (upgrade _ _); [|done]. injection Et as <-. injection E as <- <-. cbn [m_kernel set_kernel].
    pose proof (same_ids_ok n k k2 Hs Hik) as (Hz & Hl & Ht & Hm).
    split_and!.
    + split_and!; [done|done|done|]. cbn [k_map thread_spawn k_last_id]. intros x Hx. apply elem_of_union in Hx as [Hx|Hx]; [|by apply Hm].
      apply elem_of_singleton in Hx as ->. rewrite (si_last _ _ Hs). lia.
    + intros x Hx. destruct (keeps_trans _ _ _ Hk (same_ids_keeps _ _ Hs) x Hx) as [Ha Hb]. split; [exact Ha|]. cbn [k_map thread_spawn]. intros Hnm.
      pose proof (exited_known _ _ _ Hi Hx). rewrite elem_of_union, elem_of_singleton. intros [->|Hin]; [lia|]. by apply Hb.
    + cbn [k_last_id thread_spawn]. rewrite (si_last _ _ Hs). lia.
    + lia.
    + change (task_exit_code k2 (k_last_id (m_kernel m) + 1) = None). by rewrite (same_ids_code _ _ _ Hs).
  - injection E as <- <-. cbn [m_kernel println set_kernel]. pose proof (drop_same_ids (k_last_id (m_kernel m) + 1) k2) as Hd. split_and!; [|..|done].
    + apply (same_ids_ok n k2); [exact Hd|]. by apply (same_ids_ok n k).
    + eapply keeps_trans; [exact Hk|]. eapply keeps_trans; apply same_ids_keeps; [exact Hs|exact Hd].
    + cbn [k_last_id drop_held set_held]. rewrite (si_last _ _ Hs). lia.
Qed.

Lemma ids_ok_less n n' k : ids_ok n k → n' ≤ n → ids_ok n' k.
Proof. intros (? & ? & ? & ?) ?. split_and!; [done|lia|done|done]. Qed.

(** Going on with the script. *)
Lemma run_actions_spec l : KillAll ∉ l → ∀ m s m', ids_ok (Z.of_nat (length l)) (m_kernel m) → actions l m = Some (Ret (s, m')) →
  keeps (m_kernel m) (m_kernel m') ∧
  match s with
  | ShutDown => True
  | Busy (Settling _ _) _ => False
  | Busy (Waiting t) rest => k_last_id (m_kernel m) < t ∧ ∃ pre cmd dir, l = pre ++ Run cmd dir :: rest
  end.
Proof.
  induction l as [|a l IH]; intros Hk m s m' Hi E; [by injection E as <- <-|]. rewrite not_elem_of_cons in Hk. destruct Hk as [Ha Hk].
  specialize (IH Hk). cbn [length] in Hi. rewrite Nat2Z.inj_succ in Hi.
  assert (Hrec : ∀ m1, keeps (m_kernel m) (m_kernel m1) → ids_ok (Z.of_nat (length l)) (m_kernel m1) → k_last_id (m_kernel m) ≤ k_last_id (m_kernel m1) →
    actions l m1 = Some (Ret (s, m')) →
    keeps (m_kernel m) (m_kernel m') ∧ match s with ShutDown => True | Busy (Settling _ _) _ => False
      | Busy (Waiting t) rest => k_last_id (m_kernel m) < t ∧ ∃ pre cmd dir, a :: l = pre ++ Run cmd dir :: rest end).
  { intros m1 Hk1 Hi1 Hl1 E1. destruct (IH m1 s m' Hi1 E1) as [Hk2 Hs]. split; [by eapply keeps_trans|].
    destruct s as [[t|t n] rest|]; [|done|done]. destruct Hs as [Ht (pre & cmd & dir & ->)]. split; [lia|]. by exists (a :: pre), cmd, dir. }
  destruct a as [path|path|cmd dir|]; [| | |done]; cbn [run_actions] in E.
  1,2: eapply Hrec; [..|exact E]; [apply keeps_refl|eapply ids_ok_less; [exact Hi|lia]|reflexivity].
  destruct (start cmd dir m) as [[[o m1]|]|] eqn:Es; [|done|done].
  destruct (command_start_spec (Z.of_nat (length l)) cmd dir m o m1 ltac:(by rewrite Z.add_1_r) ltac:(lia) Es) as (Hi1 & Hk1 & Hl1 & Ho).
  destruct o as [t|].
  - destruct Ho as [Ht Hc]. unfold command_wait in E. rewrite Hc in E. injection E as <- <-. split; [done|]. split; [done|]. by exists [], cmd, dir.
  - eapply Hrec; [exact Hk1|exact Hi1|exact Hl1|exact E].
Qed.
Lemma entry_lookup script d a t rest old : script = d ++ a :: rest → old ≠ Some t → entry script old (Busy (Waiting t) rest) = [(t, a)].
Proof.
  intros -> Hold. unfold entry. rewrite decide_False by done. replace (_ - _ - 1)%nat with (length d + 0)%nat by (rewrite length_app; cbn [length]; lia).
  by rewrite lookup_app_r, Nat.add_comm, Nat.add_sub by lia.
Qed.

(** What holds at every poll: the programs of the log are commands of the script in order, and
    all but the running one have ended and left the task map. *)
Record run_ok (script : list Action) (log : list (Z * Action)) (s : InitState) m : Prop := {
  ro_done : ∃ don, script = don ++ rest_of s ∧ log.*2 `sublist_of` don;
  ro_new : NoDup log.*1;
  ro_past : ∀ t, t ∈ log.*1 → running s ≠ Some t → exited (m_kernel m) t ∧ t ∉ k_map (m_kernel m);
  ro_now : match s with Busy (Waiting t) _ => t ∈ log.*1 | Busy (Settling t _) _ => t ∈ log.*1 | ShutDown => True end;
}.

(** Going on with the script when nothing runs. *)
Lemma continue_ok script log don rest m s m' : KillAll ∉ script → script = don ++ rest → log.*2 `sublist_of` don → NoDup log.*1 →
  (∀ t, t ∈ log.*1 → exited (m_kernel m) t ∧ t ∉ k_map (m_kernel m)) → ids_ok (Z.of_nat (length rest)) (m_kernel m) →
  actions rest m = Some (Ret (s, m')) → run_ok script (log ++ entry script None s) s m'.
Proof.
  intros Hk Hs Hsub Hnd Hpast Hi E. subst script.
  destruct (run_actions_spec rest) with (m := m) (s := s) (m' := m') as [Hkeep Hspec]; [set_solver|done|done|].
  assert (Hp : ∀ t, t ∈ log.*1 → exited (m_kernel m') t ∧ t ∉ k_map (m_kernel m')).
  { intros t Ht. destruct (Hpast t Ht) as [H1 H2]. destruct (Hkeep t H1) as [H3 H4]. auto. }
  destruct s as [[t|t n] rest'|]; [|done|].
  - destruct Hspec as [Ht (pre & cmd & dir & ->)]. rewrite (entry_lookup _ (don ++ pre) (Run cmd dir)) by (done || by rewrite <- app_assoc).
    split; cbn [rest_of running].
    + exists (don ++ pre ++ [Run cmd dir]). rewrite <- !app_assoc. split; [done|]. rewrite fmap_app. apply sublist_app; [done|]. by apply sublist_inserts_l.
    + rewrite fmap_app. apply NoDup_app. split; [done|]. split; [|apply NoDup_singleton]. intros x Hx Hin. cbn in Hin. apply list_elem_of_singleton in Hin as ->.
      destruct (Hpast t Hx) as [H1 _]. pose proof (exited_known _ _ _ Hi H1). lia.
    + intros x Hx Hne. rewrite fmap_app in Hx. apply elem_of_app in Hx as [Hx|Hx]; [by apply Hp|]. cbn in Hx. apply list_elem_of_singleton in Hx as ->. done.
    + rewrite fmap_app. apply elem_of_app. right. cbn. by left.
  - cbn [entry]. rewrite app_nil_r. split; cbn [rest_of running]; [|done|auto|done]. exists (don ++ rest). rewrite app_nil_r. split; [done|].
    by apply sublist_inserts_r.
Qed.

Context (script : list Action) (env : M → M → Prop) (m0 : M).
Hypothesis script_ok : KillAll ∉ script.
Hypothesis env_ok : ∀ log s m m', reach script env m0 log s m → env m m' → keeps (m_kernel m) (m_kernel m') ∧ ids_ok (Z.of_nat (length script)) (m_kernel m').
Hypothesis start_ok : ids_ok (Z.of_nat (length script)) (m_kernel m0).

Lemma run_ok_keeps log s m m1 : run_ok script log s m → keeps (m_kernel m) (m_kernel m1) → run_ok script log s m1.
Proof.
  intros [Hd Hn Hp Hnow] Hk. split; [done|done| |done]. intros t Ht Hne. destruct (Hp t Ht Hne) as [H1 H2].
  destruct (Hk t H1). auto.
Qed.

Lemma run_ok_poll log s m s' m' : run_ok script log s m → ids_ok (Z.of_nat (length script)) (m_kernel m) → poll s m = Some (Ret (s', m')) →
  run_ok script (log ++ entry script (running s) s') s' m'.
Proof.
  intros [(don & Hd & Hsub) Hn Hp Hnow] Hi E. destruct s as [[t|t n] rest|]; cbn [init_poll command_poll running rest_of] in *.
  - unfold command_wait in E. destruct (task_exit_code (m_kernel m) t) as [c|] eqn:Ec.
    + unfold settle in E. rewrite decide_True in E by done. injection E as <- <-. cbn [entry]. rewrite app_nil_r. split; [by exists don|done| |done].
      intros x Hx _. cbn [m_kernel set_kernel]. destruct (decide (x = t)) as [->|Hne].
      * split; [by exists c|]. cbn [k_map release_tid]. set_solver.
      * destruct (Hp x Hx) as [H1 H2]; [congruence|]. split; [exact H1|]. cbn [k_map release_tid]. set_solver.
    + injection E as <- <-. cbn [entry]. rewrite decide_True by done. rewrite app_nil_r. split; [by exists don|done..].
  - unfold settle in E. destruct (decide (0 < n)).
    + injection E as <- <-. cbn [entry]. rewrite app_nil_r. split; [by exists don|done| |done]. intros x Hx _. by apply Hp.
    + eapply continue_ok; [done|exact Hd|done|done| | |exact E].
      * intros x Hx. cbn [m_kernel set_kernel]. destruct (Hp x Hx) as [H1 H2]; [done|]. split; [exact H1|exact H2].
      * cbn [m_kernel set_kernel]. apply (same_ids_ok _ (m_kernel m)); [apply drop_same_ids|]. eapply ids_ok_less; [exact Hi|]. rewrite Hd, length_app. lia.
  - injection E as <- <-. cbn [entry]. rewrite app_nil_r. split; [by exists don|done..].
Qed.

Lemma reach_ok log s m : reach script env m0 log s m → run_ok script log s m.
Proof.
  induction 1 as [s m E|log s m m1 s' m' Hr IH He E].
  - rewrite <- (app_nil_l (entry _ _ _)). apply (continue_ok script [] [] script m0); [done|done|done|apply NoDup_nil_2|by intros t ?%elem_of_nil|done|done].
  - destruct (env_ok _ _ _ _ Hr He) as [Hk Hi]. eapply run_ok_poll; [by eapply run_ok_keeps|exact Hi|exact E].
Qed.

(** ** The end of the script *)

Lemma shutdown_printed l : ∀ m m', actions l m = Some (Ret (ShutDown, m')) → last (m_console m') = Some TestFinish.
Proof.
  induction l as [|a l IH]; intros m m' E; [injection E as <-; cbn [m_console println]; by rewrite last_snoc|]. destruct a as [path|path|cmd dir|]; cbn [run_actions] in E.
  - by apply IH in E.
  - by apply IH in E.
  - destruct (start cmd dir m) as [[[[t|] m1]|]|]; [|by apply IH in E|done|done]. unfold command_wait, settle in E. destruct (task_exit_code _ _); [|done].
    rewrite decide_True in E by done. done.
  - destruct (kill_all_tasks _ _) as [k|]; [|done]. cbn [obind] in E. by apply IH in E.
Qed.
End order.

Section liveness.
Context {FS : Type} `{FL : FrameSourceLaws FS} {F D : Type}.
Context (file_read : F → Z → Z → result (list Z)) (file_size : F → result Z) (count : Z → nat) (sstatus : Z).
Context (open : PathBuf → result F) (sections : list Z → Sections) (open_dir : PathBuf → option D) (tty : D).
Context (fuel : nat).

Abbreviation M := (Machine (FS := FS) (F := F) (D := D)).
Abbreviation actions := (run_actions file_read file_size count sstatus open sections open_dir tty fuel).
Abbreviation poll := (init_poll file_read file_size count sstatus open sections open_dir tty fuel).
Implicit Types m : M.

(** The rest of the machine as a function: what happens between two polls. *)
Context (script : list Action) (f : M → M) (m0 : M).
Abbreviation env := (λ m m', m' = f m).
Abbreviation reach := (reach file_read file_size count sstatus open sections open_dir tty fuel script env m0).

Hypothesis script_ok : KillAll ∉ script.
Hypothesis env_ok : ∀ log s m, reach log s m → keeps (m_kernel m) (m_kernel (f m)) ∧ ids_ok (Z.of_nat (length script)) (m_kernel (f m)).
Hypothesis start_ok : ids_ok (Z.of_nat (length script)) (m_kernel m0).
Hypothesis polls : ∀ log s m, reach log s m → ∃ r, poll s (f m) = Some (Ret r).
Hypothesis ends : ∀ log t rest m, reach log (Busy (Waiting t) rest) m → ∃ n, exited (m_kernel (Nat.iter n f m)) t.

(** A reachable end, with its message. *)
Definition finished : Prop := ∃ log m, reach log ShutDown m ∧ last (m_console m) = Some TestFinish.

Lemma waits_end t rest n : ∀ log m, reach log (Busy (Waiting t) rest) m → exited (m_kernel (Nat.iter n f m)) t →
  ∃ m', reach log (Busy (Settling t (YIELDS - 1)) rest) m'.
Proof.
  assert (Hexit : ∀ log m, reach log (Busy (Waiting t) rest) m → exited (m_kernel (f m)) t → ∃ m', reach log (Busy (Settling t (YIELDS - 1)) rest) m').
  { intros log m Hr [c Hc]. eexists. rewrite <- (app_nil_r log). eapply (reach_poll _ _ _ _ _ _ _ _ _ _ _ _ log _ m (f m) (Busy (Settling t (YIELDS - 1)) rest)); [exact Hr|done|].
    cbn [init_poll command_poll]. unfold command_wait. rewrite Hc. unfold settle. by rewrite decide_True. }
  induction n as [|n IH]; intros log m Hr Hx.
  - apply (Hexit log m Hr). by apply (env_ok _ _ _ Hr).
  - destruct (task_exit_code (m_kernel (f m)) t) as [c|] eqn:Ec; [apply (Hexit log m Hr); by exists c|]. apply (IH log (f m)); [|by rewrite <- Nat.iter_succ_r].
    rewrite <- (app_nil_r log). replace (@nil (Z * Action)) with (entry script (running (Busy (Waiting t) rest)) (Busy (Waiting t) rest)).
    2:{ cbn [entry running]. by rewrite decide_True. }
    eapply reach_poll; [exact Hr|done|]. cbn [init_poll command_poll]. unfold command_wait. by rewrite Ec.
Qed.

(** The pause passes, and the script goes on. *)
Lemma settles t rest n : ∀ log m, reach log (Busy (Settling t (Z.of_nat n)) rest) m →
  finished ∨ ∃ log' t' rest' m', reach log' (Busy (Waiting t') rest') m' ∧ (length rest' < length rest)%nat.
Proof.
  induction n as [|n IH]; intros log m Hr.
  - destruct (polls _ _ _ Hr) as [[s' m'] E]. pose proof (reach_poll _ _ _ _ _ _ _ _ _ _ _ _ _ _ _ _ _ _ Hr eq_refl E) as Hr'.
    cbn [init_poll command_poll] in E. unfold settle in E. rewrite decide_False in E by lia.
    destruct (reach_ok _ _ _ _ _ _ _ _ _ script env m0 script_ok ltac:(intros ? ? ? ? Hr0 ->; by eapply env_ok) start_ok _ _ _ Hr) as [(don & Hd & _) _ _ _]. cbn [rest_of] in Hd.
    assert (Hi : ids_ok (Z.of_nat (length rest)) (m_kernel (set_kernel (drop_held t (m_kernel (f m))) (f m)))).
    { cbn [m_kernel set_kernel]. apply (same_ids_ok _ (m_kernel (f m))); [apply drop_same_ids|]. eapply ids_ok_less; [apply (env_ok _ _ _ Hr)|]. rewrite Hd, length_app. lia. }
    destruct (run_actions_spec file_read file_size count sstatus open sections open_dir tty fuel rest ltac:(set_solver) _ _ _ Hi E) as [_ Hspec].
    destruct s' as [[t'|] rest'|]; [|done|].
    + right. destruct Hspec as [_ (pre & cmd & dir & ->)]. exists (log ++ entry script (running (Busy (Settling t (Z.of_nat 0)) (pre ++ Run cmd dir :: rest'))) (Busy (Waiting t') rest')), t', rest', m'.
      split; [exact Hr'|]. rewrite length_app. cbn [length]. lia.
    + left. eexists _, m'. split; [exact Hr'|]. by eapply shutdown_printed.
  - apply (IH log (f m)). rewrite <- (app_nil_r log). eapply (reach_poll _ _ _ _ _ _ _ _ _ _ _ _ log _ m (f m) (Busy (Settling t (Z.of_nat n)) rest)); [exact Hr|done|].
    cbn [init_poll command_poll]. unfold settle. rewrite decide_True by lia. do 5 f_equal. lia.
Qed.

Lemma waiting_finishes : ∀ log t rest m, reach log (Busy (Waiting t) rest) m → finished.
Proof.
  intros log t rest. remember (length rest) as n eqn:Hn. revert log t rest Hn. induction n as [n IH] using lt_wf_ind. intros log t rest -> m Hr.
  destruct (ends _ _ _ _ Hr) as [n Hx]. destruct (waits_end t rest n log m Hr Hx) as [m1 Hr1].
  destruct (Z_of_nat_complete (YIELDS - 1) ltac:(done)) as [j Hj]. rewrite Hj in Hr1.
  destruct (settles t rest j log m1 Hr1) as [Hf|(log' & t' & rest' & m' & Hr2 & Hlt)]; [done|]. by eapply IH.
Qed.
End liveness.

(** C4: programs run one at a time and in the order of the script: at every poll of
    [initproc], whatever the rest of the kernel does in between without running out of task
    numbers or undoing an exit, the programs started so far are commands of the part of the
    script that has been done, in its order; no two of them are the same task; and every one
    but the program that runs has ended and is out of the task map. *)
Theorem programs_in_order {FS} `{FL : FrameSourceLaws FS} {F D} (file_read : F → Z → Z → result (list Z)) (file_size : F → result Z) (count : Z → nat)
    (sstatus : Z) (open : PathBuf → result F) (sections : list Z → Sections) (open_dir : PathBuf → option D) (tty : D) fuel script env m0 :
  let reach := reach file_read file_size count sstatus open sections open_dir tty fuel script env m0 in
  KillAll ∉ script → ids_ok (Z.of_nat (length script)) (m_kernel m0) →
  (∀ log s m m', reach log s m → env m m' → keeps (m_kernel m) (m_kernel m') ∧ ids_ok (Z.of_nat (length script)) (m_kernel m')) →
  ∀ log s m, reach log s m →
    (∃ don, script = don ++ rest_of s ∧ log.*2 `sublist_of` don) ∧ NoDup log.*1 ∧
    ∀ t, t ∈ log.*1 → running s ≠ Some t → exited (m_kernel m) t ∧ t ∉ k_map (m_kernel m).
Proof.
  intros reach Hs H0 He log s m Hr. destruct (reach_ok file_read file_size count sstatus open sections open_dir tty fuel script env m0 Hs He H0 log s m Hr).
  by split_and!.
Qed.

(** C40: the script comes to its end: if no start or poll panics, and every program that is
    waited for ends after some moves of the rest of the machine, then [initproc] reaches its
    shutdown, with its message as the last line on the console. *)
Theorem initproc_finishes {FS} `{FL : FrameSourceLaws FS} {F D} (file_read : F → Z → Z → result (list Z)) (file_size : F → result Z) (count : Z → nat)
    (sstatus : Z) (open : PathBuf → result F) (sections : list Z → Sections) (open_dir : PathBuf → option D) (tty : D) fuel script f m0 s0 m1 :
  let reach := reach file_read file_size count sstatus open sections open_dir tty fuel script (λ m m', m' = f m) m0 in
  let poll := init_poll file_read file_size count sstatus open sections open_dir tty fuel in
  KillAll ∉ script → ids_ok (Z.of_nat (length script)) (m_kernel m0) →
  run_actions file_read file_size count sstatus open sections open_dir tty fuel script m0 = Some (Ret (s0, m1)) →
  (∀ log s m, reach log s m → keeps (m_kernel m) (m_kernel (f m)) ∧ ids_ok (Z.of_nat (length script)) (m_kernel (f m))) →
  (∀ log s m, reach log s m → ∃ r, poll s (f m) = Some (Ret r)) →
  (∀ log t rest m, reach log (Busy (Waiting t) rest) m → ∃ n, exited (m_kernel (Nat.iter n f m)) t) →
  ∃ log m, reach log ShutDown m ∧ last (m_console m) = Some TestFinish.
Proof.
  intros reach poll Hs H0 E He Hp Hends. pose proof (reach_start file_read file_size count sstatus open sections open_dir tty fuel script (λ m m', m' = f m) m0 s0 m1 E) as Hr.
  destruct s0 as [[t|t n] rest|].
  - by eapply (waiting_finishes file_read file_size count sstatus open sections open_dir tty fuel script f m0).
  - destruct (run_actions_spec file_read file_size count sstatus open sections open_dir tty fuel script Hs _ _ _ H0 E) as [_ []].
  - eexists _, m1. split; [exact Hr|]. by eapply shutdown_printed.
Qed.

(** ** A program that cannot be loaded *)

Lemma alive_within {FS F D} (k : Kernel (FS := FS) (F := F) (D := D)) (P : Z → Prop) :
  (∀ t, t ∈ roots k → P t) → (∀ t c, P t → c ∈ task_children k t → P c) → ∀ t, upgrade k t = true → P t.
Proof.
  intros Hroots Hc t Ht. apply bool_decide_eq_true in Ht. unfold alive in Ht. revert t Ht. generalize (size (k_tasks k)) as n.
  induction n as [|n IH]; intros t Ht; [by apply Hroots|]. rewrite Nat.iter_succ in Ht. unfold grow in Ht at 1.
  apply elem_of_union in Ht as [Ht|Ht]; [by apply IH|]. apply elem_of_list_to_set in Ht.
  apply list_elem_of_In, in_concat in Ht as (l & Hl & Ht). apply list_elem_of_In in Hl, Ht. apply list_elem_of_fmap in Hl as (x & -> & Hx).
  apply (Hc x); [|done]. by apply IH, elem_of_elements.
Qed.

Lemma remove_last t l : t ∉ l → remove_one_task t (l ++ [t]) = l.
Proof.
  induction l as [|x l IH]; intros Hl; cbn [app remove_one_task]; [by rewrite decide_True|]. apply not_elem_of_cons in Hl as [Hx Hl].
  rewrite decide_False by done. by rewrite IH.
Qed.

(** A task that only the runner holds is gone when the runner drops it. *)
Lemma dropped_gone {FS} `{FL : FrameSourceLaws FS} {F D} (k0 k : Kernel (FS := FS) (F := F) (D := D)) t x b :
  k_queue k = k_queue k0 → k_held k = k_held k0 ++ [t] → k_running k = k_running k0 → (∀ y, y ∈ roots k0 → y ≤ b) →
  (∀ q p c, k_pcbs k !! q = Some p → c ∈ p_children p → c ≤ b) → b < t → upgrade (drop_held t (store_etask t x k)) t = false.
Proof.
  intros Eq Eh Er Hroots Hck Hb. destruct (upgrade _ t) eqn:Eu; [|done]. exfalso. enough (t ≤ b) by lia.
  apply (alive_within (drop_held t (store_etask t x k)) (λ t, t ≤ b)) in Eu; [exact Eu| |].
  - intros y Hy. apply Hroots. unfold roots, drop_held, set_held, store_etask, upd_tcb, upd_pcb in Hy.
    cbn [k_queue k_held k_running set_tasks set_pcbs Process.set_world] in Hy. rewrite Eq, Eh, Er, remove_last in Hy; [exact Hy|].
    intros Hin. assert (t ≤ b); [|lia]. apply Hroots. unfold roots. rewrite elem_of_list_to_set, !elem_of_app. auto.
  - intros y c _ Hc. unfold task_children, drop_held, set_held, store_etask, upd_tcb, upd_pcb in Hc.
    cbn [k_tasks k_pcbs set_tasks set_pcbs Process.set_world] in Hc. destruct (alter _ t (k_tasks k) !! y) as [w|]; [|by apply elem_of_nil in Hc].
    destruct (decide (t_process w = t)) as [Hq|Hq]; [rewrite Hq, lookup_alter_eq in Hc|rewrite lookup_alter_ne in Hc by done].
    + destruct (k_pcbs k !! t) as [q|] eqn:Epq; [|by apply elem_of_nil in Hc]. cbn in Hc. by eapply Hck.
    + destruct (k_pcbs k !! t_process w) as [q|] eqn:Epq; [|by apply elem_of_nil in Hc]. by eapply Hck.
Qed.

(** A command whose program is found but not loaded leaves the page table of its task in use,
    and the task gone: nothing switches back to the page table of the runner. *)
Theorem failed_exec_keeps_page_table {FS} `{FL : FrameSourceLaws FS} {F D} (file_read : F → Z → Z → result (list Z)) (file_size : F → result Z) (count : Z → nat)
    (sstatus : Z) (open : PathBuf → result F) (sections : list Z → Sections) (open_dir : PathBuf → option D) (tty : D) fuel cmd dir m m' filename e :
  ids_ok 1 (m_kernel m) → (∀ t, t ∈ roots (m_kernel m) → t ≤ k_last_id (m_kernel m)) →
  (∀ q p c, k_pcbs (m_kernel m) !! q = Some p → c ∈ p_children p → c ≤ k_last_id (m_kernel m)) →
  command_start file_read file_size count sstatus open sections open_dir tty fuel cmd dir m = Some (Ret (None, m')) →
  m_console m' = m_console m ++ [ExecFailed filename e] →
  ∃ t, m_active m' = Some t ∧ upgrade (m_kernel m') t = false.
Proof.
  intros Hi Hroots Hch E Hcon. unfold command_start in E.
  destruct (word_string <$> _) as [|file args]; [injection E as <-; apply app_inv_head in Hcon; discriminate|].
  destruct (open _) as [g|err]; [|injection E as <-; apply app_inv_head in Hcon; discriminate].
  destruct (k_running (m_kernel m)) as [curr|] eqn:Ecurr; [|done]. cbn [unwrap] in E.
  destruct (UserTask_new open_dir tty (m_kernel m) None dir) as [[t k]|] eqn:En; [|done].
  cbn [mbind outcome_bind obind] in E. unfold exec_task in E.
  destruct (new_task open_dir tty 0 _ _ _ _ Hi (Z.le_refl _) En) as (Ht & _). cbn [m_kernel before_run set_kernel LIBC_PATH DYN_PATH m_caches] in E.
  destruct (task_of k t) as [[u p]|] eqn:Etask; [|done]. cbn [mbind outcome_bind obind] in E.
  destruct (exec_with_process _ _ _ _ _ _ _ _ _ _ _ _ _ _) as [[[r x]|]|]; [|done|done].
  destruct r as [[]|err]; [cbn [m_kernel before_run set_kernel] in E; destruct (task_by_tid _ _); cbn in E; discriminate|].
  injection E as <-. cbn [m_active println set_kernel before_run m_kernel]. clear Hcon.
  unfold UserTask_new in En. destruct (open_dir dir); [|done]. cbn [unwrap mbind outcome_bind] in En. injection En as Et <-. rewrite Et in *.
  cbn [k_tasks]. rewrite lookup_insert_eq. exists t. split; [done|].
  apply (dropped_gone (m_kernel m) _ _ _ (k_last_id (m_kernel m))); [done..|exact Hroots| |lia].
  cbn [k_pcbs]. intros q p' c Hq Hc. destruct (decide (q = t)) as [->|Hne].
  - rewrite lookup_insert_eq in Hq. injection Hq as <-. cbn [p_children] in Hc. by apply elem_of_nil in Hc.
  - rewrite lookup_insert_ne in Hq by done. by eapply Hch.
Qed.

(** The programs of the script are found where they are loaded from, whatever the directory,
    since every name is absolute; and the script ends no programs. *)
Definition found_where_loaded (a : Action) : Prop :=
  match a with
  | Run cmd dir => match word_string <$> parse_command (str_bytes cmd) with f :: _ => PathBuf_from f = PathBuf_join dir f | [] => False end
  | KillAll => False
  | _ => True
  end.

#[export] Instance found_where_loaded_dec a : Decision (found_where_loaded a).
Proof. destruct a as [p|p|cmd dir|]; cbn; [apply _|apply _| |apply _]. destruct (word_string <$> _); apply _. Defined.

Theorem script_names_absolute : Forall found_where_loaded initproc.
Proof. apply (bool_decide_unpack _). vm_compute. exact I. Qed.

(** A relative name is looked for from the root and loaded from the directory. *)
Lemma relative_name_differs : PathBuf_from "hello" ≠ PathBuf_join ["glibc"] "hello".
Proof. discriminate. Qed.

(** ** Witnesses: one program, which ends when it is left to run *)

Definition demo_init_kernel : Kernel (FS := FrameAllocator) (F := bool) (D := unit) :=
  mkKernel 1 ∅ ∅ [1] [] (Some 1) {[1]} (mkWorld demo_exec_frames (λ _, 0)) [].
Definition demo_machine : Machine (FS := FrameAllocator) (F := bool) (D := unit) := mkMachine demo_init_kernel "" "" [] None [].
Definition demo_script : list Action := [Run "/bin/hello x" []].
Abbreviation demo_actions := (run_actions demo_read demo_size (λ _, 1%nat) 0 demo_open (λ _ _, None) (λ _, Some tt) tt 1).
Abbreviation demo_poll := (init_poll demo_read demo_size (λ _, 1%nat) 0 demo_open (λ _ _, None) (λ _, Some tt) tt 1).

(** The program exits, once. *)
Definition demo_env (m : Machine (FS := FrameAllocator) (F := bool) (D := unit)) : Machine :=
  match task_exit_code (m_kernel m) 2 with
  | Some _ => m
  | None => match task_exit (m_kernel m) 2 0 with Ret k => set_kernel k m | Panic => m end
  end.

Definition demo_waiting : Machine := match demo_actions demo_script demo_machine with Some (Ret (_, m)) => m | _ => demo_machine end.

Definition demo_ids (k : Kernel (FS := FrameAllocator) (F := bool) (D := unit)) : bool :=
  bool_decide (0 ≤ k_last_id k ∧ k_last_id k + 1 < USIZE) && bool_decide (map_Forall (λ t u, t ≤ k_last_id k ∧ t_process u ≤ k_last_id k) (k_tasks k)) &&
  bool_decide (set_Forall (λ t, t ≤ k_last_id k) (k_map k)).

Lemma demo_ids_ok k : demo_ids k = true → ids_ok 1 k.
Proof.
  unfold demo_ids. rewrite !andb_true_iff, !bool_decide_eq_true. intros [[[H1 H2] H3] H4]. split_and!; [done|done| |].
  - intros t u Ht. exact (H3 t u Ht).
  - intros t Ht. exact (H4 t Ht).
Qed.

(** The states of the run. *)
Definition demo_done : list Machine :=
  let m1 := demo_env demo_waiting in
  let m2 := set_kernel (release_tid 2 (m_kernel m1)) m1 in
  let m3 := set_kernel (drop_held 2 (m_kernel m2)) m2 in
  [m2; println TestFinish m3].

Abbreviation demo_reach := (reach demo_read demo_size (λ _, 1%nat) 0 demo_open (λ _ _, None) (λ _, Some tt) tt 1 demo_script (λ m m', m' = demo_env m) demo_machine).

Lemma demo_started : demo_actions demo_script demo_machine = Some (Ret (Busy (Waiting 2) [], demo_waiting)).
Proof.
  assert (match demo_actions demo_script demo_machine with Some (Ret (Busy (Waiting 2) [], _)) => True | _ => False end) as H by (vm_compute; exact I).
  unfold demo_waiting. destruct (demo_actions demo_script demo_machine) as [[[s m]|]|]; [|done|done]. by destruct s as [[[|[t|[t|t|]|]|t]|t n] [|a l]|].
Qed.

Lemma demo_exits : task_exit_code (m_kernel (demo_env demo_waiting)) 2 = Some 0 ∧ task_exit_code (m_kernel demo_waiting) 2 = None.
Proof. vm_compute. split; reflexivity. Qed.

Lemma demo_states : demo_ids (m_kernel demo_machine) = true ∧ demo_ids (m_kernel demo_waiting) = true ∧ demo_ids (m_kernel (demo_env demo_waiting)) = true ∧
  forallb (λ m, demo_ids (m_kernel m) && bool_decide (task_exit_code (m_kernel m) 2 = Some 0)) demo_done = true.
Proof. vm_compute. split_and!; reflexivity. Qed.

Definition none_exited (k : Kernel (FS := FrameAllocator) (F := bool) (D := unit)) : bool :=
  forallb (λ t, bool_decide (task_exit_code k t = None)) (map_to_list (k_tasks k)).*1.

Lemma none_exited_spec k t : none_exited k = true → ¬ exited k t.
Proof.
  intros Hall [c Hc]. destruct (k_tasks k !! t) as [u|] eqn:Eu; [|unfold task_exit_code in Hc; by rewrite Eu in Hc].
  assert (t ∈ (map_to_list (k_tasks k)).*1) as Hin by (apply list_elem_of_fmap; exists (t, u); split; [done|by apply elem_of_map_to_list]).
  apply list_elem_of_In in Hin. pose proof (proj1 (forallb_forall _ _) Hall _ Hin) as H%bool_decide_eq_true. congruence.
Qed.

Lemma demo_none_exited t : ¬ exited (m_kernel demo_waiting) t.
Proof. apply none_exited_spec. vm_compute. reflexivity. Qed.

(** Where the run can be. *)
Inductive demo_at : InitState → Machine → Prop :=
  | demo_at_start : demo_at (Busy (Waiting 2) []) demo_waiting
  | demo_at_pause n : demo_at (Busy (Settling 2 n) []) (set_kernel (release_tid 2 (m_kernel (demo_env demo_waiting))) (demo_env demo_waiting))
  | demo_at_end m : m ∈ demo_done → demo_at ShutDown m.

Lemma demo_at_waiting s m : demo_at s m → match s with Busy (Waiting t) _ => t = 2 ∧ m = demo_waiting | _ => True end.
Proof. by destruct 1. Qed.

Lemma demo_env_done m : m ∈ demo_done → demo_env m = m ∧ ids_ok 1 (m_kernel m).
Proof.
  intros Hm. destruct demo_states as (_ & _ & _ & H). pose proof (proj1 (forallb_forall _ _) H m ltac:(by apply list_elem_of_In)) as [H1 H2]%andb_true_iff.
  apply bool_decide_eq_true in H2. unfold demo_env. rewrite H2. split; [done|by apply demo_ids_ok].
Qed.

Lemma some_ret_inj {A B} (a a' : A) (b b' : B) : Some (Ret (a, b)) = Some (Ret (a', b')) → a = a' ∧ b = b'.
Proof. by intros [= -> ->]. Qed.

Lemma demo_poll_at s m : demo_at s m → ∃ s' m', demo_poll s (demo_env m) = Some (Ret (s', m')) ∧ demo_at s' m'.
Proof.
  destruct 1 as [|n|m Hm].
  - destruct demo_exits as [E _]. cbn [init_poll command_poll]. unfold command_wait. rewrite E. unfold settle. rewrite decide_True by done.
    eexists _, _. split; [done|]. apply demo_at_pause.
  - destruct (demo_env_done (set_kernel (release_tid 2 (m_kernel (demo_env demo_waiting))) (demo_env demo_waiting))) as [-> _]; [by left|].
    cbn [init_poll command_poll]. unfold settle. case_decide; (eexists _, _; split; [done|]); [apply demo_at_pause|]. apply demo_at_end. right. by left.
  - destruct (demo_env_done m Hm) as [-> _]. eexists _, _. split; [done|]. by apply demo_at_end.
Qed.

Lemma demo_reach_at log s m : demo_reach log s m → demo_at s m.
Proof.
  induction 1 as [s m E|log s m m1 s' m' Hr IH -> E]; [destruct (some_ret_inj _ _ _ _ (eq_trans (eq_sym E) demo_started)) as [-> ->]; apply demo_at_start|].
  destruct (demo_poll_at s m IH) as (s2 & m2 & E2 & H2). destruct (some_ret_inj _ _ _ _ (eq_trans (eq_sym E) E2)) as [-> ->]. exact H2.
Qed.

Lemma demo_env_ok log s m : demo_reach log s m → keeps (m_kernel m) (m_kernel (demo_env m)) ∧ ids_ok (Z.of_nat (length demo_script)) (m_kernel (demo_env m)).
Proof.
  intros Hr. apply demo_reach_at in Hr. change (Z.of_nat (length demo_script)) with 1. destruct Hr as [|n|m Hm].
  - destruct demo_states as (_ & _ & H & _). split; [|by apply demo_ids_ok]. intros t Ht. by destruct (demo_none_exited t).
  - destruct (demo_env_done (set_kernel (release_tid 2 (m_kernel (demo_env demo_waiting))) (demo_env demo_waiting))) as [-> H]; [by left|]. split; [apply keeps_refl|done].
  - destruct (demo_env_done m Hm) as [-> H]. split; [apply keeps_refl|done].
Qed.

Lemma programs_in_order_witness : KillAll ∉ demo_script ∧ demo_reach [(2, Run "/bin/hello x" [])] (Busy (Waiting 2) []) demo_waiting ∧
  sublist (snd <$> [(2, Run "/bin/hello x" [])]) demo_script.
Proof.
  assert (KillAll ∉ demo_script) as Hk by (apply (bool_decide_unpack _); vm_compute; exact I).
  assert (demo_reach [(2, Run "/bin/hello x" [])] (Busy (Waiting 2) []) demo_waiting) as Hr by exact (reach_start _ _ _ _ _ _ _ _ _ _ _ _ _ _ demo_started).
  split; [exact Hk|]. split; [exact Hr|].
  destruct (programs_in_order demo_read demo_size (λ _, 1%nat) 0 demo_open (λ _ _, None) (λ _, Some tt) tt 1 demo_script (λ m m', m' = demo_env m) demo_machine
    Hk ltac:(apply demo_ids_ok, demo_states) ltac:(intros log s m m' Hl ->; by eapply demo_env_ok) _ _ _ Hr) as [(don & Hd & Hsub) _].
  cbn [rest_of] in Hd. rewrite app_nil_r in Hd. rewrite Hd. exact Hsub.
Defined.

Lemma initproc_finishes_witness : ∃ log m, demo_reach log ShutDown m ∧ last (m_console m) = Some TestFinish.
Proof.
  apply (initproc_finishes demo_read demo_size (λ _, 1%nat) 0 demo_open (λ _ _, None) (λ _, Some tt) tt 1 demo_script demo_env demo_machine (Busy (Waiting 2) []) demo_waiting).
  - apply (bool_decide_unpack _). vm_compute. exact I.
  - apply demo_ids_ok, demo_states.
  - exact demo_started.
  - exact demo_env_ok.
  - intros log s m Hr. destruct (demo_poll_at s m (demo_reach_at _ _ _ Hr)) as (s' & m' & E & _). by exists (s', m').
  - intros log t rest m Hr. exists 1%nat. destruct (demo_at_waiting _ _ (demo_reach_at _ _ _ Hr)) as [-> ->]. cbn [Nat.iter]. exists 0. apply demo_exits.
Defined.
